(* ===== verification/_CoqProject ===== *)
-Q . S2P
Prelude.v
Memory.v
CString.v
ByteOrder.v
Endian.v
MachO.v
MarkGC.v
MarkGCSpec.v
MarkGCFile.v
MarkGCSafety.v
MarkGCMain.v
MarkGCSamples.v
TypeEncoding.v
TypeEncodingSpec.v
ObjCData.v
ObjCImages.v
ObjCImagesSpec.v
IvarLayout.v
MethodList.v
ObjCRuntime.v
MethodCache.v
LoweredMethods.v
LongestSubstring.v
BlocksRuntime.v
LoweredBlocks.v
ProgramRuntime.v
LoweredSpec.v
MessageSpec.v
RuntimeSamples.v
BlocksSpec.v
BlockMethodsSpec.v
BlocksSamples.v
RetainCount.v
RetainCountSpec.v
ObjectSpec.v
ObjectSamples.v
WeakTable.v
Probing.v
WeakTableSpec.v
WeakRefs.v
WeakRefsSpec.v
WeakSamples.v
AutoreleasePool.v
PoolStack.v
AutoreleasePoolSpec.v
PoolSamples.v
MethodBuckets.v
CacheReaders.v
CacheTable.v
CacheWriters.v
CacheOperations.v
CacheInterleaving.v
CacheSamples.v
DenseMap.v
DenseProbing.v
PowersOfTwo.v
DenseTable.v
DenseUpdates.v
DenseMapSpec.v
DenseMapRun.v
DenseMapInfo.v
RefcountZeros.v
DenseSamples.v
ClassTree.v
ClassTreeSpec.v
ClassChanges.v
ClassInvariant.v
ClassEffects.v
ClassLookup.v
ClassBits.v
ClassMethodsSpec.v
ClassInstallSpec.v
ClassAddSpec.v
ClassNewSpec.v
ClassInitSpec.v
ClassResults.v
ClassSamples.v
AssociatedObjects.v
LoadMethods.v
LoadMethodsSpec.v
