(* ===== verification/Prelude.v ===== *)
(** * iOSBasicDemo: markgc, the lowered Objective-C program and the runtime below it

    ** The program

    The repository holds an iOS demonstration application (src/iOSBasicDemo), for 20 of whose
    classes the compiler's C++ translation is checked in (the *-arm64.cpp files under iOSTech),
    and the sources of the libraries it explains: the Objective-C runtime (src/objc4-756.2),
    libdispatch with the blocks runtime (src/libdispatch-1008.220.2), CoreFoundation and GNUstep.
    The development models what computes in the C and C++ sources of the program itself - the
    tool objc4-756.2/markgc.cpp and the lowered files - and the parts of the runtime that they
    run on.

    The parts interact as follows.  markgc is a command of its own: [main] calls [processFile],
    which maps a file and calls [parse_fat], which calls [parse_macho] per slice.  A lowered file
    describes its classes in static data, which the set-up hooks complete; the runtime realizes
    them (ivar layout, method lists with the categories in front) and sends messages (cache,
    method lists, superclasses, resolver, forwarding).  The lowered methods send messages, use
    the property accessors, associated objects and, in three files, blocks; blocks are copied
    and released by the blocks runtime.  Underneath, objects have a header with an inline
    retain count that spills into a side table; the side tables hold the weak tables as well,
    which deallocation clears; autorelease pools delay releases.  While the program runs,
    classes are created, initialized, given methods and categories; the runtime then walks the
    tree of classes to flush the method caches and to take back the bits by which callers skip
    retain, release and alloc messages.

    ** Files and sources

    Shared: [Prelude] (machine integers, outcomes, lemmas and hints), [Memory] (byte buffers),
    [CString] (<string.h>), [Probing] (linear probing), [PoolStack] (the stack of the pools).

    markgc (objc4-756.2/markgc.cpp): [ByteOrder] (OSByteOrder, CFByteOrder, NSByteOrder inline
    functions, as in SKBlockVC-arm64.cpp), [Endian] (the policy classes, as instances of a class
    with laws), [MachO] (the accessors of headers, load commands, segments and sections; the
    layouts of <mach-o/loader.h> are the class [loader_h]), [MarkGC] (dosect, doseg, parse_macho,
    parse_fat, processFile, main).  Theorems: [MarkGCSpec] (a slice), [MarkGCFile] (thin and fat
    files), [MarkGCSafety] (arbitrary input), [MarkGCMain] (the command, against the class
    [file_system]), [MarkGCSamples].

    The lowered files: [ObjCData] (the metadata structures), [ObjCImages] (the data of the 20
    files, one section per file), [LoweredMethods] (the methods of the files without blocks),
    [LongestSubstring] and [LoweredBlocks] (those with blocks), [ProgramRuntime] (the loaded
    program).  Theorems: [ObjCImagesSpec], [LoweredSpec], [MessageSpec], [BlockMethodsSpec], with
    [RuntimeSamples] and [BlocksSamples].

    The runtime (objc4-756.2/runtime): [TypeEncoding] and [TypeEncodingSpec]
    (objc-typeencoding.mm), [IvarLayout] and [MethodList] (objc-runtime-new.mm), [ObjCRuntime] and
    [MethodCache] (message lookup, objc-accessors.mm, objc-references.mm, NSObject.mm),
    [AssociatedObjects] (removal and balance of associated objects, objc-references.mm),
    [RetainCount], [RetainCountSpec], [ObjectSpec], [ObjectSamples] (isa.h, objc-object.h, the
    side tables of NSObject.mm), [WeakTable] and [WeakTableSpec] (objc-weak.mm), [WeakRefs],
    [WeakRefsSpec], [WeakSamples] (weak variables and deallocation, NSObject.mm),
    [AutoreleasePool], [AutoreleasePoolSpec], [PoolSamples] (AutoreleasePoolPage, NSObject.mm),
    [MethodBuckets] (objc-cache.mm, cache_t of objc-runtime-new.h, the macro CacheLookup of
    Messengers.subproj/objc-msg-arm64.s and objc-msg-x86_64.s) with [CacheReaders] (what holds
    of readers between any two stores), [CacheTable] (probing and tables), [CacheWriters] and
    [CacheOperations] (the operations that hold the lock), [CacheInterleaving] (readers and
    writers as a step relation) and [CacheSamples], [DenseMap] and [DenseMapInfo]
    (llvm-DenseMap.h, llvm-DenseMapInfo.h and parts of llvm-MathExtras.h) with [DenseProbing]
    and [PowersOfTwo] (arithmetic), [DenseTable] (searching), [DenseUpdates] (changing one
    bucket, rehashing, the laws of the derived classes), [DenseMapSpec] and [DenseMapRun] (the
    operations, one by one and in sequence), [RefcountZeros] (retain counts and purged zeros)
    and [DenseSamples].
    Changes to classes (objc-runtime-new.mm, objc-runtime-new.h): [ClassTree] (class objects,
    the tree and its walk), [ClassChanges] (the operations), [ClassTreeSpec] (the walk),
    [ClassInvariant] (the invariant), [ClassEffects] (operations that visit classes),
    [ClassLookup] (lookup and caches), [ClassBits] (the bits for default methods),
    [ClassMethodsSpec] and [ClassInstallSpec] (changing and attaching methods), [ClassAddSpec]
    (addMethod, addMethods, categories), [ClassNewSpec] (new classes), [ClassInitSpec]
    (+initialize), [ClassResults] (all of them in any order) and [ClassSamples].
    The +load methods (objc-loadmethod.mm and parts of objc-runtime-new.mm): [LoadMethods]
    and [LoadMethodsSpec].
    The blocks runtime (BlocksRuntime/runtime.c): [BlocksRuntime] and [BlocksSpec].

    ** State and operations

    markgc acts on a byte buffer and a list of printed lines through a monad of state and
    faults; an access outside the buffer is a fault.  The lowered program acts on a record of
    objects with ivars at byte offsets, associated objects, memory for blocks and a log of
    NSLog, retain and release; message sending is open recursion, closed by a depth.  Retain
    counts act on the first words of objects, the side table, the locks held and the outcomes
    of the exclusive stores to come; weak references add a weak table per stripe and the weak
    variables; pools are a list of pages, the thread-local word and the objects released.
    The method caches are arrays of buckets in a memory that one writer and any number of
    readers share; a writer is a tree of single stores, a reader a machine of single loads.
    A dense map is an array of buckets with its counters; the operations of [DenseMapBase] are
    written and proved against a class of derived operations, as in the code.
    Classes at run time are a finite map from addresses to class objects with their links,
    method lists, cache and bits, a map of the method lists in memory and the variables of
    objc-runtime-new.mm; every operation is one transition, as it holds the lock of the runtime.
    The +load methods act on two lists of waiting classes and categories, the bit RW_LOADED and
    the images that are mapped; what a method opens or closes is given by its name.
    What is not in the repository is a parameter: the frameworks ([system]), system calls
    ([file_system]), Mach-O headers ([loader_h]), the classes of the program as the weak code
    asks them ([classes]), the allocator of pages ([PageAllocator]), the code that a release
    runs ([script]).

    ** What the theorems show

    - markgc: on well-formed files of every format it strips exactly the sections it is meant
      to, twice as once, and changes nothing else; on any bytes it ends and keeps the fat
      table; which files it rejects, at what entry and with what message; the slices of an
      accepted file lie inside of it, but for a count that wraps; every failing system call; the
      reads behind the mapping that nothing checks.
    - Metadata and loading: counts, sizes, type strings and layouts are consistent; the class
      graph does not depend on the order of the hooks; realized ivars never overlap inherited
      ones; sorted and binary-searched method lists find what a linear search in attachment
      order finds; caches are transparent.
    - Lowered methods: what each accessor pair and demonstration does when it is sent through
      the runtime, including those that lose or overwrite a value because the setter has an
      offset of the compiler and the getter one of the runtime.
    - Type strings: the argument functions find the type and the 32-bit offset of each argument
      of a printed signature, and nothing behind the last.
    - Blocks: sharing of __block variables, balance of copy and release, what the block methods
      compute; the longest-substring loops are correct.
    - Retain counts: all representations refine one abstract object, which is deallocated
      exactly once and, when releases outnumber retains, surely.
    - Weak references: the hash tables refine a set of pairs, the operations on weak variables
      a plain map; no weak variable ever holds a deallocated object.
    - Autorelease pools: the pages refine a stack; a block releases exactly what was
      autoreleased in it; the inner loop of releaseUntil makes at most one step; the end of a
      thread empties the pools.
    - Method caches: under every interleaving of lookups with fills, erasures and collections
      a lookup reads live arrays only, finds only what was filled in and ends after a bounded
      number of loads; the writers never get stuck, and do to the table what they should; the
      overflow test of expand never fires.
    - Dense maps: sequences of operations refine a finite map, up to zeros that may be purged;
      the code of the retain counts cannot tell; iteration is complete; the rehash that should
      not grow the table doubles it; the variant with inline buckets can get stuck.
    - Changes to classes: in any order they return and keep the invariant, as long as there are at
      most half as many classes as the bound of the walk says; a lookup afterwards
      gives what the uncached search gives; the bits for default methods are never wrong; what
      class_addMethod and class_replaceMethod return and change on every branch, in bulk or one
      by one; the walk visits every subclass once; as many unregistered class pairs as its
      bound says, which does not count them, make the next walk end the program.
    - Associated objects: they refine a table, and retains and releases balance.
    - +load: called once for each class and category, superclasses first and classes before
      their categories, also when a +load maps further images.

    ** Fuel and bounds

    Loops that are not structural take fuel, and a run without enough is [OutOfFuel], which
    the theorems exclude.  markgc: 2^32 rounds per loop, since the counters are 32 bits wide.
    Type strings: the length of the string; signed overflow of an offset wraps.  Binary search: 33 rounds for 32-bit counts.
    Superclass chains and walks over subclasses: [unreasonableClassCount], as in the code, which
    is enough while there are at most half as many classes; +load: two calls deep, as calls from
    within a +load do nothing, and two rounds more than there are images; realization of the program's
    classes: depth 20.  Message sending and block calls: a depth [k], every theorem giving one
    that is enough.  Longest substring: the length plus one.  Retain, release and weak loops: more
    than the number of failing stores, plus two.  Probing: the size of the table.  Pools: a
    number that depends on the commands and exists for every script whose objects have ranks.
    Dense maps: the number of buckets plus one per search; sequences that add fewer than 2^25
    entries, so that sizes stay below 2^31.  Lookups in caches: four loads for each bucket and
    eight more.  The theorems about caches
    hold for up to 2^29 fills, so that masks stay below 2^30.

    ** Not modelled

    Foundation, UIKit and system declarations inlined into the lowered files (they declare and
    do not compute, the byte-order functions apart); the Objective-C sources without a C++
    translation (user interface); libdispatch, CoreFoundation and GNUstep, which the modelled
    code does not call; of the runtime: reading of images, concurrency beyond failing exclusive
    stores, locks and the lookups in method caches (where memory is sequentially consistent:
    the code has barriers between its stores), exceptions, garbage collection, the old ABI,
    the older hash tables, changing the superclass of a class, disposing of classes, root
    classes other than NSObject (the +initialize that the metaclass of a root gets is in
    [ClassChanges], not in [MethodList]), the method +initialize itself, C strings as keys of dense maps, debugging options and printing.
    The collector branches of the blocks runtime are
    left out.

    ** Plan

    Next: disposing of classes and unloading of images, the variants of the property accessors,
    interleavings of retain and release as a step relation. *)

From Stdlib Require Import ZArith Lia Bool.
From stdpp Require Import base list.

Local Open Scope Z_scope.

(** ** Machine integers

    A [w]-bit unsigned integer is a [Z] in [0, 2^w); arithmetic that may leave
    the range is followed by an explicit [wrap].  [swrap] is the two's
    complement reading of the same bits. *)

Definition wrap (w z : Z) : Z := z mod 2 ^ w.
Definition swrap (w z : Z) : Z := (z + 2 ^ (w - 1)) mod 2 ^ w - 2 ^ (w - 1).
Definition in_u (w z : Z) : Prop := 0 <= z < 2 ^ w.

Definition in_ub (w z : Z) : bool := (0 <=? z) && (z <? 2 ^ w).

Declare Scope machine_scope.
Delimit Scope machine_scope with machine.
Abbreviation u8 := (wrap 8).
Abbreviation u16 := (wrap 16).
Abbreviation u32 := (wrap 32).
Abbreviation u64 := (wrap 64).
Abbreviation s32 := (swrap 32).
Abbreviation s64 := (swrap 64).

Create HintDb machine.
Create Rewrite HintDb machine.

Lemma wrap_range w z : 0 <= w -> in_u w (wrap w z).
Proof. intros. unfold in_u, wrap. apply Z.mod_pos_bound. apply Z.pow_pos_nonneg; lia. Qed.

Lemma wrap_id w z : in_u w z -> wrap w z = z.
Proof. apply Z.mod_small. Qed.

Lemma wrap_wrap w z : wrap w (wrap w z) = wrap w z.
Proof. apply Zmod_mod. Qed.

Lemma swrap_range w z : 0 < w -> - 2 ^ (w - 1) <= swrap w z < 2 ^ (w - 1).
Proof.
  intros. unfold swrap.
  replace (2 ^ w) with (2 * 2 ^ (w - 1)) by (rewrite <- Z.pow_succ_r by lia; f_equal; lia).
  assert (0 < 2 ^ (w - 1)) by (apply Z.pow_pos_nonneg; lia).
  pose proof (Z.mod_pos_bound (z + 2 ^ (w - 1)) (2 * 2 ^ (w - 1))). lia.
Qed.

Lemma swrap_id w z : 0 < w -> - 2 ^ (w - 1) <= z < 2 ^ (w - 1) -> swrap w z = z.
Proof.
  intros. unfold swrap.
  replace (2 ^ w) with (2 * 2 ^ (w - 1)) by (rewrite <- Z.pow_succ_r by lia; f_equal; lia).
  rewrite Z.mod_small; lia.
Qed.

Lemma in_ub_spec w z : in_ub w z = true <-> in_u w z.
Proof. unfold in_ub, in_u. rewrite andb_true_iff, Z.leb_le, Z.ltb_lt. tauto. Qed.

#[export] Hint Resolve wrap_range : machine.
#[export] Hint Rewrite wrap_wrap : machine.

(** ** Outcomes

    A routine that touches memory either returns, reaches memory it has no
    right to touch, or exhausts the fuel the model gives its loops. *)

Inductive outcome (A : Type) : Type :=
| Ret (a : A)
| Fault
| OutOfFuel.
Arguments Ret {A} a.
Arguments Fault {A}.
Arguments OutOfFuel {A}.

Definition obind {A B} (o : outcome A) (k : A -> outcome B) : outcome B :=
  match o with
  | Ret a => k a
  | Fault => Fault
  | OutOfFuel => OutOfFuel
  end.

Definition of_option {A} (o : option A) : outcome A :=
  match o with Some a => Ret a | None => Fault end.

Notation "'let!' x ':=' e 'in' k" := (obind e (fun x => k))
  (at level 10, x pattern, e at level 100, k at level 200).

Lemma obind_Ret_inv {A B} (o : outcome A) (k : A -> outcome B) b :
  obind o k = Ret b -> exists a, o = Ret a /\ k a = Ret b.
Proof. destruct o; simpl; [eauto | discriminate | discriminate]. Qed.

Lemma of_option_Ret_inv {A} (o : option A) a : of_option o = Ret a -> o = Some a.
Proof. destruct o; simpl; congruence. Qed.

Lemma of_option_fuel {A} (o : option A) : of_option o <> OutOfFuel.
Proof. by destruct o. Qed.

(** Inverts every [let!] of a hypothesis that returned. *)
Ltac inv_ret :=
  repeat match goal with
  | H : obind _ _ = Ret _ |- _ =>
      let x := fresh "x" in let Hx := fresh "Hx" in let Hk := fresh "Hk" in
      apply obind_Ret_inv in H as (x & Hx & Hk)
  | H : of_option _ = Ret _ |- _ => apply of_option_Ret_inv in H
  | H : Ret _ = Ret _ |- _ => injection H as H; subst
  | H : Fault = Ret _ |- _ => discriminate H
  | H : OutOfFuel = Ret _ |- _ => discriminate H
  end.

(** Splits the boolean tests of a goal or a hypothesis into arithmetic facts. *)
Ltac zbool :=
  repeat match goal with
  | H : _ && _ = true |- _ => apply andb_true_iff in H as [? ?]
  | H : _ || _ = false |- _ => apply orb_false_iff in H as [? ?]
  | H : negb _ = true |- _ => apply negb_true_iff in H
  | H : negb _ = false |- _ => apply negb_false_iff in H
  | H : (_ <? _) = true |- _ => apply Z.ltb_lt in H
  | H : (_ <? _) = false |- _ => apply Z.ltb_ge in H
  | H : (_ <=? _) = true |- _ => apply Z.leb_le in H
  | H : (_ <=? _) = false |- _ => apply Z.leb_gt in H
  | H : (_ =? _) = true |- _ => apply Z.eqb_eq in H
  | H : (_ =? _) = false |- _ => apply Z.eqb_neq in H
  end.

(** Membership of a constructor in a literal list. *)
Ltac in_list := repeat first [apply list_elem_of_here | apply list_elem_of_further].
