(* ===== verification/Memory.v ===== *)
(** * Byte-addressed memory

    A buffer the program maps or allocates, as the list of its bytes; an
    address is the distance from the start of the buffer.  Every access
    outside the buffer is a failure of [load] or [store]. *)

From Stdlib Require Import ZArith Lia Bool.
From stdpp Require Import base list.
From coqutil Require Import Byte Word.LittleEndianList.
From S2P Require Import Prelude.

Local Open Scope Z_scope.

Abbreviation mem := (list byte).

Definition msize (m : mem) : Z := Z.of_nat (length m).

Definition rd (m : mem) (a : Z) : option byte :=
  if a <? 0 then None else m !! Z.to_nat a.

Definition wr (m : mem) (a : Z) (b : byte) : option mem :=
  if (0 <=? a) && (a <? msize m) then Some (<[Z.to_nat a := b]> m) else None.

Fixpoint load (n : nat) (m : mem) (a : Z) : option (list byte) :=
  match n with
  | O => Some []
  | S n' =>
      match rd m a, load n' m (a + 1) with
      | Some b, Some bs => Some (b :: bs)
      | _, _ => None
      end
  end.

Fixpoint store (m : mem) (a : Z) (bs : list byte) : option mem :=
  match bs with
  | [] => Some m
  | b :: bs' =>
      match wr m a b with
      | Some m' => store m' (a + 1) bs'
      | None => None
      end
  end.

(** The value of [n] bytes as the little-endian host reads them. *)
Definition load_le (n : nat) (m : mem) (a : Z) : option Z :=
  le_combine <$> load n m a.

Definition store_le (n : nat) (m : mem) (a v : Z) : option mem :=
  store m a (le_split n v).

(** ** Single bytes *)

Lemma rd_Some m a b : rd m a = Some b -> 0 <= a < msize m.
Proof.
  unfold rd, msize. destruct (a <? 0) eqn:E; [discriminate|]. intros H%lookup_lt_Some.
  zbool. lia.
Qed.

Lemma rd_is_Some m a : 0 <= a < msize m -> is_Some (rd m a).
Proof.
  unfold rd, msize. intros. destruct (a <? 0) eqn:E; zbool; [lia|].
  apply lookup_lt_is_Some. lia.
Qed.

Lemma rd_None m a : ~ (0 <= a < msize m) -> rd m a = None.
Proof. intros H. destruct (rd m a) eqn:E; [|done]. by apply rd_Some in E. Qed.

Lemma rd_ext m m' : msize m = msize m' -> (forall a, rd m a = rd m' a) -> m = m'.
Proof.
  unfold msize. intros Hl H. apply list_eq. intros i. specialize (H (Z.of_nat i)).
  unfold rd in H. destruct (Z.of_nat i <? 0) eqn:E; zbool; [lia|].
  by rewrite Nat2Z.id in H.
Qed.

Lemma wr_Some m a b m' :
  wr m a b = Some m' ->
  0 <= a < msize m /\ msize m' = msize m /\
  forall i, rd m' i = if i =? a then Some b else rd m i.
Proof.
  unfold wr. destruct (_ && _) eqn:E; [|discriminate]. intros [= <-]. zbool.
  split; [lia|]. split; [unfold msize; by rewrite length_insert|]. intros i.
  unfold rd. destruct (i <? 0) eqn:Ei; zbool.
  - destruct (i =? a) eqn:Ea; zbool; [lia|done].
  - destruct (i =? a) eqn:Ea; zbool.
    + subst. apply list_lookup_insert_eq. unfold msize in *. lia.
    + apply list_lookup_insert_ne. lia.
Qed.

Lemma wr_is_Some m a b : 0 <= a < msize m -> is_Some (wr m a b).
Proof.
  intros. unfold wr. replace ((0 <=? a) && (a <? msize m)) with true; [eauto|].
  symmetry. apply andb_true_iff. rewrite Z.leb_le, Z.ltb_lt. lia.
Qed.

(** ** Ranges *)

Lemma load_is_Some n m a : 0 <= a -> a + Z.of_nat n <= msize m -> is_Some (load n m a).
Proof.
  revert a. induction n as [|n IH]; intros a Ha Hs; simpl; [eauto|].
  destruct (rd_is_Some m a) as [b ->]; [lia|].
  destruct (IH (a + 1)) as [bs ->]; [lia..|]. eauto.
Qed.

Lemma load_Some n m a bs :
  load n m a = Some bs ->
  length bs = n /\ forall i : nat, (i < n)%nat -> bs !! i = rd m (a + Z.of_nat i).
Proof.
  revert a bs. induction n as [|n IH]; intros a bs; simpl.
  - intros [= <-]. split; [done|lia].
  - destruct (rd m a) as [b|] eqn:Eb; [|discriminate].
    destruct (load n m (a + 1)) as [bs'|] eqn:El; [|discriminate].
    intros [= <-]. destruct (IH _ _ El) as [Hlen Hi]. split; [simpl; lia|].
    intros [|i] Hlt; simpl; [by rewrite Z.add_0_r|].
    rewrite Hi by lia. f_equal. lia.
Qed.

Lemma load_bounds n m a bs :
  load n m a = Some bs -> (0 < n)%nat -> 0 <= a /\ a + Z.of_nat n <= msize m.
Proof.
  intros Hl Hn. apply load_Some in Hl as [Hlen Hi].
  assert (H0 : is_Some (bs !! 0%nat)) by (apply lookup_lt_is_Some; lia).
  assert (H1 : is_Some (bs !! (n - 1)%nat)) by (apply lookup_lt_is_Some; lia).
  rewrite Hi in H0, H1 by lia. destruct H0 as [? H0%rd_Some], H1 as [? H1%rd_Some]. lia.
Qed.

Lemma load_ext n m m' a :
  (forall i, a <= i < a + Z.of_nat n -> rd m' i = rd m i) -> load n m' a = load n m a.
Proof.
  revert a. induction n as [|n IH]; intros a H; simpl; [done|].
  rewrite H by lia. rewrite IH; [done|]. intros i Hi. apply H. lia.
Qed.

Lemma store_is_Some m a bs :
  0 <= a -> a + Z.of_nat (length bs) <= msize m -> is_Some (store m a bs).
Proof.
  revert m a. induction bs as [|b bs IH]; intros m a Ha Hs; simpl in *; [eauto|].
  destruct (wr_is_Some m a b) as [m' Hw]; [lia|]. rewrite Hw.
  apply wr_Some in Hw as (? & ? & ?). apply IH; lia.
Qed.

Lemma store_Some m a bs m' :
  store m a bs = Some m' ->
  msize m' = msize m /\
  forall i, rd m' i = if (a <=? i) && (i <? a + Z.of_nat (length bs))
                      then bs !! Z.to_nat (i - a) else rd m i.
Proof.
  revert m a. induction bs as [|b bs IH]; intros m a; simpl.
  - intros [= <-]. split; [done|]. intros i.
    destruct (_ && _) eqn:E; [|done]. zbool. lia.
  - destruct (wr m a b) as [m1|] eqn:Ew; [|discriminate]. intros Hs.
    apply wr_Some in Ew as (Ha & Hl1 & Hr1). apply IH in Hs as [Hl Hr].
    split; [congruence|]. intros i. rewrite Hr, Hr1.
    destruct ((a + 1 <=? i) && _) eqn:E1; destruct ((a <=? i) && _) eqn:E2; zbool; try lia.
    + replace (Z.to_nat (i - a)) with (S (Z.to_nat (i - (a + 1)))) by lia. done.
    + apply andb_false_iff in E2. destruct E2; zbool; lia.
    + apply andb_false_iff in E1. destruct (i =? a) eqn:E; zbool.
      * subst. by rewrite Z.sub_diag.
      * destruct E1; zbool; lia.
    + apply andb_false_iff in E2. destruct (i =? a) eqn:E; zbool; [|done].
      destruct E2; zbool; lia.
Qed.

Lemma store_bounds m a bs m' :
  store m a bs = Some m' -> bs <> [] -> 0 <= a /\ a + Z.of_nat (length bs) <= msize m.
Proof.
  revert m a. induction bs as [|b bs IH]; intros m a; [done|]; simpl.
  destruct (wr m a b) as [m1|] eqn:Ew; [|discriminate]. intros Hs _.
  apply wr_Some in Ew as (Ha & Hl1 & Hr1).
  destruct bs as [|b' bs']; simpl in *; [lia|].
  apply IH in Hs; [|done]. simpl in Hs. lia.
Qed.

Lemma load_store_same m a bs m' :
  store m a bs = Some m' -> load (length bs) m' a = Some bs.
Proof.
  revert m a. induction bs as [|b bs IH]; intros m a; simpl; [done|].
  destruct (wr m a b) as [m1|] eqn:Ew; [|discriminate]. intros Hs.
  pose proof (store_Some _ _ _ _ Hs) as [Hl Hr]. apply wr_Some in Ew as (Ha & Hl1 & Hr1).
  rewrite Hr, Hr1, Z.eqb_refl.
  destruct ((a + 1 <=? a) && _) eqn:E; [zbool; lia|]. by rewrite (IH _ _ Hs).
Qed.

(** ** Frames

    [unchanged_outside P m m'] says the two memories have the same size and
    agree at every address that [P] does not cover. *)

Definition unchanged_outside (P : Z -> Prop) (m m' : mem) : Prop :=
  msize m' = msize m /\ forall i, ~ P i -> rd m' i = rd m i.

#[export] Instance unchanged_outside_refl P : Reflexive (unchanged_outside P).
Proof. intros m. split; [done|]. done. Qed.

#[export] Instance unchanged_outside_trans P : Transitive (unchanged_outside P).
Proof.
  intros m1 m2 m3 [Hl1 H1] [Hl2 H2]. split; [congruence|].
  intros i Hi. by rewrite H2, H1.
Qed.

#[export] Instance unchanged_outside_preorder P : PreOrder (unchanged_outside P).
Proof. split; apply _. Qed.

Lemma unchanged_outside_weaken (P Q : Z -> Prop) m m' :
  (forall i, P i -> Q i) -> unchanged_outside P m m' -> unchanged_outside Q m m'.
Proof. intros HPQ [Hl H]. split; [done|]. intros i Hi. apply H. auto. Qed.

Definition within (a n i : Z) : Prop := a <= i < a + n.

Lemma store_frame m a bs m' :
  store m a bs = Some m' -> unchanged_outside (within a (Z.of_nat (length bs))) m m'.
Proof.
  intros [Hl Hr]%store_Some. split; [done|]. intros i Hi. rewrite Hr.
  destruct (_ && _) eqn:E; [|done]. exfalso. apply Hi. unfold within. zbool. lia.
Qed.

Lemma load_frame (P : Z -> Prop) n m m' a :
  unchanged_outside P m m' ->
  (forall i, within a (Z.of_nat n) i -> ~ P i) -> load n m' a = load n m a.
Proof. intros [_ H] HP. apply load_ext. intros i Hi. apply H, HP, Hi. Qed.

(** ** Little-endian integers *)

Lemma le_combine_range bs n : length bs = n -> in_u (8 * Z.of_nat n) (le_combine bs).
Proof. intros <-. apply le_combine_bound. Qed.

Lemma load_le_range n m a v : load_le n m a = Some v -> in_u (8 * Z.of_nat n) v.
Proof.
  unfold load_le. destruct (load n m a) as [bs|] eqn:E; simpl; [|discriminate].
  intros [= <-]. apply le_combine_range. apply load_Some in E as [? ?]. done.
Qed.

Lemma load_le_is_Some n m a :
  0 <= a -> a + Z.of_nat n <= msize m -> is_Some (load_le n m a).
Proof. intros. unfold load_le. destruct (load_is_Some n m a) as [bs ->]; eauto. Qed.

Lemma load_le_frame (P : Z -> Prop) n m m' a :
  unchanged_outside P m m' ->
  (forall i, within a (Z.of_nat n) i -> ~ P i) -> load_le n m' a = load_le n m a.
Proof. intros Hu HP. unfold load_le. by rewrite (load_frame P n m m' a Hu HP). Qed.

Lemma store_le_is_Some n m a v :
  0 <= a -> a + Z.of_nat n <= msize m -> is_Some (store_le n m a v).
Proof. intros. apply store_is_Some; rewrite ?length_le_split; lia. Qed.

Lemma store_le_frame n m a v m' :
  store_le n m a v = Some m' -> unchanged_outside (within a (Z.of_nat n)) m m'.
Proof. intros H%store_frame. by rewrite length_le_split in H. Qed.

Lemma load_store_le n m a v m' :
  store_le n m a v = Some m' -> load_le n m' a = Some (wrap (8 * Z.of_nat n) v).
Proof.
  intros H. apply load_store_same in H. rewrite length_le_split in H.
  unfold load_le. rewrite H. simpl. f_equal. rewrite le_combine_split.
  unfold wrap. do 2 f_equal. lia.
Qed.

#[export] Hint Resolve load_is_Some store_is_Some load_le_is_Some store_le_is_Some : machine.

(** A range read in two pieces. *)
Lemma load_split n k m a :
  load (n + k) m a =
  match load n m a, load k m (a + Z.of_nat n) with
  | Some bs1, Some bs2 => Some (bs1 ++ bs2)
  | _, _ => None
  end.
Proof.
  revert a. induction n as [|n IH]; intros a; cbn [load Nat.add].
  - rewrite Z.add_0_r. by destruct (load k m a).
  - rewrite IH. replace (a + 1 + Z.of_nat n) with (a + Z.of_nat (S n)) by lia.
    destruct (rd m a), (load n m (a + 1)), (load k m (a + Z.of_nat (S n))); done.
Qed.

Lemma load_take k n m a bs :
  load n m a = Some bs -> (k <= n)%nat -> load k m a = Some (take k bs).
Proof.
  intros Hl Hk. replace n with (k + (n - k))%nat in Hl by lia. rewrite load_split in Hl.
  destruct (load k m a) as [bs1|] eqn:E1; [|discriminate].
  destruct (load (n - k) m _) as [bs2|]; [|discriminate]. injection Hl as <-.
  apply load_Some in E1 as [Hlen _]. f_equal. rewrite take_app_le, take_ge by lia. done.
Qed.
