(* ===== verification/CString.v ===== *)
(** * C strings

    What the modelled sources use of <string.h> and of printf's ["%.16s"], on a
    buffer.  A literal is the list of its characters, without the final NUL. *)

From Stdlib Require Import ZArith Lia Bool String.
From stdpp Require Import base list.
From coqutil Require Import Byte.
From S2P Require Import Prelude Memory.

Local Open Scope Z_scope.

Definition NUL : byte := Byte.x00.

Definition lit (s : string) : list byte := list_byte_of_string s.

#[export] Instance byte_eq_dec : EqDecision Byte.byte.
Proof. exact Byte.byte_eq_dec. Defined.

(** [0 == strncmp(p, s, n)] where [p] points into the buffer and [s] is a
    literal: characters are compared until they differ, a NUL or [n]. *)
Fixpoint strncmp_eq (m : mem) (p : Z) (s : list byte) (n : nat) {struct n} : outcome bool :=
  match n with
  | O => Ret true
  | S n' =>
      let! c := of_option (rd m p) in
      match s with
      | [] => Ret (bool_decide (c = NUL))
      | l :: s' =>
          if decide (c = l) then
            if decide (c = NUL) then Ret true else strncmp_eq m (p + 1) s' n'
          else Ret false
      end
  end.

(** The characters ["%.<n>s"] prints. *)
Fixpoint read_cstr (n : nat) (m : mem) (p : Z) : outcome (list byte) :=
  match n with
  | O => Ret []
  | S n' =>
      let! c := of_option (rd m p) in
      if decide (c = NUL) then Ret [] else
      let! cs := read_cstr n' m (p + 1) in Ret (c :: cs)
  end.

(** The [n] characters [strncpy(dst, s, n)] stores: [s], cut at [n] and padded
    with NULs. *)
Definition strncpy_bytes (s : list byte) (n : nat) : list byte :=
  take n (s ++ replicate n NUL).

Definition strncpy (m : mem) (dst : Z) (s : list byte) (n : nat) : option mem :=
  store m dst (strncpy_bytes s n).

(** The string held by an array of characters that may lack a terminator. *)
Fixpoint cstr (bs : list byte) : list byte :=
  match bs with
  | [] => []
  | c :: cs => if decide (c = NUL) then [] else c :: cstr cs
  end.

Lemma length_strncpy_bytes s n : length (strncpy_bytes s n) = n.
Proof. unfold strncpy_bytes. rewrite length_take, length_app, length_replicate. lia. Qed.

Lemma load_cons n m a bs :
  load (S n) m a = Some bs ->
  exists b bs', bs = b :: bs' /\ rd m a = Some b /\ load n m (a + 1) = Some bs'.
Proof.
  simpl. destruct (rd m a), (load n m (a + 1)); intros [= <-]; eauto.
Qed.

Lemma read_cstr_load n m p bs : load n m p = Some bs -> read_cstr n m p = Ret (cstr bs).
Proof.
  revert p bs. induction n as [|n IH]; intros p bs.
  - intros [= <-]. done.
  - intros (b & bs' & -> & Hb & Hl)%load_cons. simpl. rewrite Hb. simpl.
    case_decide; [done|]. by rewrite (IH _ _ Hl).
Qed.

Lemma strncmp_eq_load n m p bs s :
  load n m p = Some bs -> NUL ∉ s ->
  strncmp_eq m p s n = Ret (bool_decide (cstr bs = take n s)).
Proof.
  revert p bs s. induction n as [|n IH]; intros p bs s.
  - intros [= <-] _. by rewrite bool_decide_eq_true_2.
  - intros (b & bs' & -> & Hb & Hl)%load_cons Hs. simpl. rewrite Hb. simpl.
    destruct s as [|l s].
    + case_decide; [by rewrite !bool_decide_eq_true_2|]. by rewrite !bool_decide_eq_false_2.
    + apply not_elem_of_cons in Hs as [Hl0 Hs]. case_decide as Hbl; subst.
      * rewrite !decide_False by done. simpl. rewrite (IH _ _ _ Hl Hs). f_equal.
        apply bool_decide_ext. split; congruence.
      * f_equal. symmetry. apply bool_decide_eq_false_2. case_decide; simpl; congruence.
Qed.

Lemma cstr_app_full s bs : NUL ∉ s -> cstr (s ++ bs) = s ++ cstr bs.
Proof.
  induction s as [|c s IH]; intros Hs; [done|]. apply not_elem_of_cons in Hs as [Hc Hs].
  simpl. rewrite decide_False by done. by rewrite IH.
Qed.

Lemma cstr_nul n bs : cstr (replicate n NUL ++ bs) = if decide (n = 0%nat) then cstr bs else [].
Proof. by destruct n. Qed.

Lemma cstr_strncpy s n : NUL ∉ s -> (length s <= n)%nat -> cstr (strncpy_bytes s n) = s.
Proof.
  intros Hs Hn. unfold strncpy_bytes. rewrite take_app_ge, take_replicate by lia.
  rewrite cstr_app_full by done. rewrite <- (app_nil_r (replicate _ _)), cstr_nul.
  by case_decide; rewrite app_nil_r.
Qed.

Lemma cstr_not_nul bs : NUL ∉ cstr bs.
Proof.
  induction bs as [|c bs IH]; simpl; [apply not_elem_of_nil|].
  case_decide; [apply not_elem_of_nil|]. apply not_elem_of_cons. eauto.
Qed.
