(* ===== verification/ByteOrder.v ===== *)
(** * Byte order

    The byte-swapping library that the generated C++ carries with it
    (SKBlockVC-arm64.cpp: the [_OSSwap...], [OSReadSwap...], [_OSRead...] inline
    functions of lines 416-533 and 3436-3510, the CF layer of lines 3513-3777
    and the NS layer of lines 13399-13584) on a little-endian host.
    markgc.cpp reads and writes Mach-O fields through the same functions. *)

From Stdlib Require Import ZArith Lia Bool.
From stdpp Require Import base list.
From coqutil Require Import Byte Word.LittleEndianList Z.bitblast.
From S2P Require Import Prelude Memory.

Local Open Scope Z_scope.

(** [__builtin_bswap16/32/64]: the value of the [n] bytes in reverse order. *)
Definition bswap (n : nat) (v : Z) : Z := le_combine (rev (le_split n v)).

(** ** OSByteOrder *)

Module OSByteOrder.

Inductive byte_order := OSUnknownByteOrder | OSLittleEndian | OSBigEndian.

Definition OSHostByteOrder : byte_order := OSLittleEndian.

Definition _OSSwapInt16 (data : Z) : Z := u16 (Z.lor (Z.shiftl data 8) (Z.shiftr data 8)).
Definition _OSSwapInt32 (data : Z) : Z := bswap 4 data.
Definition _OSSwapInt64 (data : Z) : Z := bswap 8 data.

Definition OSReadSwapInt16 (m : mem) (base offset : Z) : option Z :=
  _OSSwapInt16 <$> load_le 2 m (base + offset).

Definition OSReadSwapInt32 (m : mem) (base offset : Z) : option Z :=
  _OSSwapInt32 <$> load_le 4 m (base + offset).

(** The 64-bit read goes through two 32-bit words and a union: the words are
    read crosswise, each is swapped, and [ull] overlays [ul[0], ul[1]]. *)
Definition OSReadSwapInt64 (m : mem) (base offset : Z) : option Z :=
  let inp := base + offset in
  match load_le 4 m (inp + 4), load_le 4 m inp with
  | Some ul0, Some ul1 =>
      let ul0 := _OSSwapInt32 ul0 in
      let ul1 := _OSSwapInt32 ul1 in
      Some (le_combine (le_split 4 ul0 ++ le_split 4 ul1))
  | _, _ => None
  end.

Definition OSWriteSwapInt16 (m : mem) (base offset data : Z) : option mem :=
  store_le 2 m (base + offset) (_OSSwapInt16 data).

Definition OSWriteSwapInt32 (m : mem) (base offset data : Z) : option mem :=
  store_le 4 m (base + offset) (_OSSwapInt32 data).

Definition OSWriteSwapInt64 (m : mem) (base offset data : Z) : option mem :=
  store_le 8 m (base + offset) (_OSSwapInt64 data).

Definition _OSReadInt16 (m : mem) (base byteOffset : Z) : option Z := load_le 2 m (base + byteOffset).
Definition _OSReadInt32 (m : mem) (base byteOffset : Z) : option Z := load_le 4 m (base + byteOffset).
Definition _OSReadInt64 (m : mem) (base byteOffset : Z) : option Z := load_le 8 m (base + byteOffset).

Definition _OSWriteInt16 (m : mem) (base byteOffset data : Z) : option mem :=
  store_le 2 m (base + byteOffset) data.
Definition _OSWriteInt32 (m : mem) (base byteOffset data : Z) : option mem :=
  store_le 4 m (base + byteOffset) data.
Definition _OSWriteInt64 (m : mem) (base byteOffset data : Z) : option mem :=
  store_le 8 m (base + byteOffset) data.

End OSByteOrder.
Export OSByteOrder.

(** ** CFByteOrder

    [__builtin_constant_p(arg)] is decided by the compiler, so each swapping
    function takes that decision as the argument [const_p]. *)

Module CFByteOrder.

Inductive cf_byte_order := CFByteOrderUnknown | CFByteOrderLittleEndian | CFByteOrderBigEndian.

Definition CFByteOrderGetCurrent : cf_byte_order :=
  match OSHostByteOrder with
  | OSLittleEndian => CFByteOrderLittleEndian
  | OSBigEndian => CFByteOrderBigEndian
  | OSUnknownByteOrder => CFByteOrderUnknown
  end.

(** The constant-folding branch of the three swap macros. *)
Definition swap_const16 (arg : Z) : Z :=
  u16 (Z.lor (Z.shiftr (Z.land arg 0xff00) 8) (Z.shiftl (Z.land arg 0x00ff) 8)).

Definition swap_const32 (arg : Z) : Z :=
  u32 (Z.lor (Z.lor (Z.lor
    (Z.shiftr (Z.land arg 0xff000000) 24)
    (Z.shiftr (Z.land arg 0x00ff0000) 8))
    (Z.shiftl (Z.land arg 0x0000ff00) 8))
    (Z.shiftl (Z.land arg 0x000000ff) 24)).

Definition swap_const64 (arg : Z) : Z :=
  u64 (Z.lor (Z.lor (Z.lor (Z.lor (Z.lor (Z.lor (Z.lor
    (Z.shiftr (Z.land arg 0xff00000000000000) 56)
    (Z.shiftr (Z.land arg 0x00ff000000000000) 40))
    (Z.shiftr (Z.land arg 0x0000ff0000000000) 24))
    (Z.shiftr (Z.land arg 0x000000ff00000000) 8))
    (Z.shiftl (Z.land arg 0x00000000ff000000) 8))
    (Z.shiftl (Z.land arg 0x0000000000ff0000) 24))
    (Z.shiftl (Z.land arg 0x000000000000ff00) 40))
    (Z.shiftl (Z.land arg 0x00000000000000ff) 56)).

Definition CFSwapInt16 (const_p : bool) (arg : Z) : Z :=
  u16 (if const_p then swap_const16 arg else _OSSwapInt16 arg).
Definition CFSwapInt32 (const_p : bool) (arg : Z) : Z :=
  if const_p then swap_const32 arg else _OSSwapInt32 arg.
Definition CFSwapInt64 (const_p : bool) (arg : Z) : Z :=
  if const_p then swap_const64 arg else _OSSwapInt64 arg.

Definition CFSwapInt16BigToHost (const_p : bool) (arg : Z) : Z :=
  u16 (if const_p then swap_const16 arg else _OSSwapInt16 arg).
Definition CFSwapInt32BigToHost (const_p : bool) (arg : Z) : Z :=
  if const_p then swap_const32 arg else _OSSwapInt32 arg.
Definition CFSwapInt64BigToHost (const_p : bool) (arg : Z) : Z :=
  if const_p then swap_const64 arg else _OSSwapInt64 arg.

Definition CFSwapInt16HostToBig (const_p : bool) (arg : Z) : Z :=
  u16 (if const_p then swap_const16 arg else _OSSwapInt16 arg).
Definition CFSwapInt32HostToBig (const_p : bool) (arg : Z) : Z :=
  if const_p then swap_const32 arg else _OSSwapInt32 arg.
Definition CFSwapInt64HostToBig (const_p : bool) (arg : Z) : Z :=
  if const_p then swap_const64 arg else _OSSwapInt64 arg.

Definition CFSwapInt16LittleToHost (arg : Z) : Z := u16 arg.
Definition CFSwapInt32LittleToHost (arg : Z) : Z := u32 arg.
Definition CFSwapInt64LittleToHost (arg : Z) : Z := u64 arg.
Definition CFSwapInt16HostToLittle (arg : Z) : Z := u16 arg.
Definition CFSwapInt32HostToLittle (arg : Z) : Z := u32 arg.
Definition CFSwapInt64HostToLittle (arg : Z) : Z := u64 arg.

(** A [float] or [double] is its IEEE bit pattern: the code only moves the
    bits through a union, it never computes with the number. *)
Record Float32 := mkFloat32 { bits32 : Z }.
Record Float64 := mkFloat64 { bits64 : Z }.
Record CFSwappedFloat32 := mkSwapped32 { sv32 : Z }.
Record CFSwappedFloat64 := mkSwapped64 { sv64 : Z }.

Definition CFConvertFloat32HostToSwapped (c : bool) (arg : Float32) : CFSwappedFloat32 :=
  mkSwapped32 (CFSwapInt32 c (bits32 arg)).
Definition CFConvertFloat32SwappedToHost (c : bool) (arg : CFSwappedFloat32) : Float32 :=
  mkFloat32 (CFSwapInt32 c (sv32 arg)).
Definition CFConvertFloat64HostToSwapped (c : bool) (arg : Float64) : CFSwappedFloat64 :=
  mkSwapped64 (CFSwapInt64 c (bits64 arg)).
Definition CFConvertFloat64SwappedToHost (c : bool) (arg : CFSwappedFloat64) : Float64 :=
  mkFloat64 (CFSwapInt64 c (sv64 arg)).
Definition CFConvertFloatHostToSwapped (c : bool) (arg : Float32) : CFSwappedFloat32 :=
  mkSwapped32 (CFSwapInt32 c (bits32 arg)).
Definition CFConvertFloatSwappedToHost (c : bool) (arg : CFSwappedFloat32) : Float32 :=
  mkFloat32 (CFSwapInt32 c (sv32 arg)).
Definition CFConvertDoubleHostToSwapped (c : bool) (arg : Float64) : CFSwappedFloat64 :=
  mkSwapped64 (CFSwapInt64 c (bits64 arg)).
Definition CFConvertDoubleSwappedToHost (c : bool) (arg : CFSwappedFloat64) : Float64 :=
  mkFloat64 (CFSwapInt64 c (sv64 arg)).

End CFByteOrder.
Export CFByteOrder.

(** ** NSByteOrder: the Foundation wrappers over the CF layer *)

Module NSByteOrder.

Definition NSHostByteOrder : cf_byte_order := CFByteOrderGetCurrent.

Definition NSSwapShort (c : bool) (inv : Z) : Z := CFSwapInt16 c inv.
Definition NSSwapInt (c : bool) (inv : Z) : Z := CFSwapInt32 c inv.
Definition NSSwapLong (c : bool) (inv : Z) : Z := CFSwapInt64 c inv.
Definition NSSwapLongLong (c : bool) (inv : Z) : Z := CFSwapInt64 c inv.

Definition NSSwapBigShortToHost (c : bool) (x : Z) : Z := CFSwapInt16BigToHost c x.
Definition NSSwapBigIntToHost (c : bool) (x : Z) : Z := CFSwapInt32BigToHost c x.
Definition NSSwapBigLongToHost (c : bool) (x : Z) : Z := CFSwapInt64BigToHost c x.
Definition NSSwapBigLongLongToHost (c : bool) (x : Z) : Z := CFSwapInt64BigToHost c x.
Definition NSSwapHostShortToBig (c : bool) (x : Z) : Z := CFSwapInt16HostToBig c x.
Definition NSSwapHostIntToBig (c : bool) (x : Z) : Z := CFSwapInt32HostToBig c x.
Definition NSSwapHostLongToBig (c : bool) (x : Z) : Z := CFSwapInt64HostToBig c x.
Definition NSSwapHostLongLongToBig (c : bool) (x : Z) : Z := CFSwapInt64HostToBig c x.

Definition NSSwapLittleShortToHost (x : Z) : Z := CFSwapInt16LittleToHost x.
Definition NSSwapLittleIntToHost (x : Z) : Z := CFSwapInt32LittleToHost x.
Definition NSSwapLittleLongToHost (x : Z) : Z := CFSwapInt64LittleToHost x.
Definition NSSwapLittleLongLongToHost (x : Z) : Z := CFSwapInt64LittleToHost x.
Definition NSSwapHostShortToLittle (x : Z) : Z := CFSwapInt16HostToLittle x.
Definition NSSwapHostIntToLittle (x : Z) : Z := CFSwapInt32HostToLittle x.
Definition NSSwapHostLongToLittle (x : Z) : Z := CFSwapInt64HostToLittle x.
Definition NSSwapHostLongLongToLittle (x : Z) : Z := CFSwapInt64HostToLittle x.

Record NSSwappedFloat := mkNSSwappedFloat { nsf : Z }.
Record NSSwappedDouble := mkNSSwappedDouble { nsd : Z }.

Definition NSConvertHostFloatToSwapped (x : Float32) : NSSwappedFloat := mkNSSwappedFloat (bits32 x).
Definition NSConvertSwappedFloatToHost (x : NSSwappedFloat) : Float32 := mkFloat32 (nsf x).
Definition NSConvertHostDoubleToSwapped (x : Float64) : NSSwappedDouble := mkNSSwappedDouble (bits64 x).
Definition NSConvertSwappedDoubleToHost (x : NSSwappedDouble) : Float64 := mkFloat64 (nsd x).

Definition NSSwapFloat (c : bool) (x : NSSwappedFloat) : NSSwappedFloat :=
  mkNSSwappedFloat (NSSwapInt c (nsf x)).
Definition NSSwapDouble (c : bool) (x : NSSwappedDouble) : NSSwappedDouble :=
  mkNSSwappedDouble (NSSwapLongLong c (nsd x)).

Definition NSSwapBigDoubleToHost (c : bool) (x : NSSwappedDouble) : Float64 :=
  NSConvertSwappedDoubleToHost (NSSwapDouble c x).
Definition NSSwapBigFloatToHost (c : bool) (x : NSSwappedFloat) : Float32 :=
  NSConvertSwappedFloatToHost (NSSwapFloat c x).
Definition NSSwapHostDoubleToBig (c : bool) (x : Float64) : NSSwappedDouble :=
  NSSwapDouble c (NSConvertHostDoubleToSwapped x).
Definition NSSwapHostFloatToBig (c : bool) (x : Float32) : NSSwappedFloat :=
  NSSwapFloat c (NSConvertHostFloatToSwapped x).
Definition NSSwapLittleDoubleToHost (x : NSSwappedDouble) : Float64 := NSConvertSwappedDoubleToHost x.
Definition NSSwapLittleFloatToHost (x : NSSwappedFloat) : Float32 := NSConvertSwappedFloatToHost x.
Definition NSSwapHostDoubleToLittle (x : Float64) : NSSwappedDouble := NSConvertHostDoubleToSwapped x.
Definition NSSwapHostFloatToLittle (x : Float32) : NSSwappedFloat := NSConvertHostFloatToSwapped x.

End NSByteOrder.
Export NSByteOrder.

(** ** Facts about [bswap] *)

Lemma bswap_range n v : in_u (8 * Z.of_nat n) (bswap n v).
Proof. apply le_combine_range. by rewrite length_rev, length_le_split. Qed.

Lemma le_split_bswap n v : le_split n (bswap n v) = rev (le_split n v).
Proof. apply split_le_combine'. by rewrite length_rev, length_le_split. Qed.

Lemma bswap_involutive n v : bswap n (bswap n v) = wrap (8 * Z.of_nat n) v.
Proof.
  unfold bswap at 1. rewrite le_split_bswap, rev_involutive, le_combine_split.
  unfold wrap. do 2 f_equal. lia.
Qed.

Lemma bswap_bytes n bs : length bs = n -> bswap n (le_combine bs) = le_combine (rev bs).
Proof. intros H. unfold bswap. by rewrite split_le_combine' by done. Qed.

Lemma byte_land v : byte.unsigned (byte.of_Z v) = Z.land v 255.
Proof.
  rewrite byte.unsigned_of_Z. unfold byte.wrap.
  change 255 with (Z.ones 8). by rewrite Z.land_ones by lia.
Qed.

(** Masking one byte in place and shifting it, as the constant branch does, is
    extracting the byte and placing it. *)
Lemma mask_byte v k : 0 <= k ->
  Z.land v (Z.shiftl 255 k) = Z.shiftl (Z.land (Z.shiftr v k) 255) k.
Proof.
  intros. apply Z.bits_inj'. intros i Hi.
  rewrite Z.land_spec, !Z.shiftl_spec, Z.land_spec by lia.
  destruct (Z_lt_le_dec i k) as [Hlt|Hle].
  - rewrite !(Z.testbit_neg_r _ (i - k)) by lia. by rewrite andb_false_r.
  - rewrite Z.shiftr_spec by lia. do 2 f_equal. lia.
Qed.

Lemma move_byte_right v k j s : 0 <= j -> 0 <= s -> k = j + s ->
  Z.shiftr (Z.land v (Z.shiftl 255 k)) s = Z.shiftl (Z.land (Z.shiftr v k) 255) j.
Proof.
  intros. rewrite mask_byte by lia. rewrite Z.shiftr_shiftl_l by lia. f_equal. lia.
Qed.

Lemma move_byte_left v k j s : 0 <= k -> 0 <= s -> j = k + s ->
  Z.shiftl (Z.land v (Z.shiftl 255 k)) s = Z.shiftl (Z.land (Z.shiftr v k) 255) j.
Proof.
  intros. rewrite mask_byte by lia. rewrite Z.shiftl_shiftl by lia. f_equal. lia.
Qed.

Ltac bswap_unfold :=
  cbv [bswap le_split rev app le_combine]; rewrite !byte_land;
  rewrite ?Z.shiftl_lor, ?Z.shiftr_shiftr, ?Z.shiftl_shiftl, ?Z.lor_0_r, ?Z.lor_assoc,
    ?Z.shiftl_0_l by lia; simpl Z.add; simpl Z.mul.

Lemma swap_const16_bswap v : swap_const16 v = bswap 2 v.
Proof.
  unfold swap_const16. rewrite <- (wrap_id 16 (bswap 2 v)) by apply (bswap_range 2).
  f_equal. change 0xff00 with (Z.shiftl 255 8).
  change (Z.land v 255) with (Z.land v (Z.shiftl 255 0)).
  rewrite (move_byte_right v 8 0 8), (move_byte_left v 0 8 8) by lia.
  bswap_unfold. by rewrite ?Z.shiftl_0_r, ?Z.shiftr_0_r.
Qed.

Lemma swap_const32_bswap v : swap_const32 v = bswap 4 v.
Proof.
  unfold swap_const32. rewrite <- (wrap_id 32 (bswap 4 v)) by apply (bswap_range 4). f_equal.
  change 0xff000000 with (Z.shiftl 255 24).
  change 0xff0000 with (Z.shiftl 255 16). change 0xff00 with (Z.shiftl 255 8).
  change (Z.land v 255) with (Z.land v (Z.shiftl 255 0)).
  rewrite (move_byte_right v 24 0 24), (move_byte_right v 16 8 8),
    (move_byte_left v 8 16 8), (move_byte_left v 0 24 24) by lia.
  bswap_unfold. by rewrite ?Z.shiftl_0_r, ?Z.shiftr_0_r.
Qed.

Lemma swap_const64_bswap v : swap_const64 v = bswap 8 v.
Proof.
  unfold swap_const64. rewrite <- (wrap_id 64 (bswap 8 v)) by apply (bswap_range 8). f_equal.
  change 0xff00000000000000 with (Z.shiftl 255 56).
  change 0xff000000000000 with (Z.shiftl 255 48). change 0xff0000000000 with (Z.shiftl 255 40).
  change 0xff00000000 with (Z.shiftl 255 32). change 0xff000000 with (Z.shiftl 255 24).
  change 0xff0000 with (Z.shiftl 255 16). change 0xff00 with (Z.shiftl 255 8).
  change (Z.land v 255) with (Z.land v (Z.shiftl 255 0)).
  rewrite (move_byte_right v 56 0 56), (move_byte_right v 48 8 40),
    (move_byte_right v 40 16 24), (move_byte_right v 32 24 8),
    (move_byte_left v 24 32 8), (move_byte_left v 16 40 24),
    (move_byte_left v 8 48 40), (move_byte_left v 0 56 56) by lia.
  bswap_unfold. by rewrite ?Z.shiftl_0_r, ?Z.shiftr_0_r.
Qed.

Lemma _OSSwapInt16_bswap v : in_u 16 v -> _OSSwapInt16 v = bswap 2 v.
Proof.
  intros Hv. unfold _OSSwapInt16. rewrite <- (wrap_id 16 (bswap 2 v)) by apply (bswap_range 2).
  bswap_unfold. unfold wrap. apply Z.bits_inj'. intros i Hi.
  destruct (Z_lt_le_dec i 16); [|by rewrite !Z.mod_pow2_bits_high by lia].
  rewrite !Z.mod_pow2_bits_low by lia.
  change 255 with (Z.ones 8). rewrite !Z.lor_spec, !Z.shiftl_spec, !Z.shiftr_spec by lia.
  rewrite !Z.land_spec, Z.shiftr_spec by lia. destruct (Z_lt_le_dec i 8).
  - rewrite !(Z.testbit_neg_r _ (i - 8)), Z.ones_spec_low by lia.
    by rewrite andb_true_r, orb_false_r, orb_false_l.
  - rewrite Z.ones_spec_high, (Z.ones_spec_low 8 (i - 8)), andb_false_r, andb_true_r by lia.
    rewrite orb_false_l. unfold in_u in Hv.
    rewrite <- (Z.mod_small v (2 ^ 16)) at 2 by lia.
    by rewrite Z.mod_pow2_bits_high, orb_false_r by lia.
Qed.

(** ** Properties of the byte-order layers *)

Lemma OSReadSwapInt64_eq (m : mem) (base offset : Z) :
  OSReadSwapInt64 m base offset = bswap 8 <$> load_le 8 m (base + offset).
Proof.
  unfold OSReadSwapInt64, load_le. rewrite (load_split 4 4). change (Z.of_nat 4) with 4.
  destruct (load 4 m (base + offset)) as [lo|] eqn:Elo;
    destruct (load 4 m (base + offset + 4)) as [hi|] eqn:Ehi; cbn [fmap option_fmap option_map]; try done.
  apply load_Some in Elo as [Hlo _]. apply load_Some in Ehi as [Hhi _]. do 2 f_equal.
  unfold _OSSwapInt32. rewrite !le_split_bswap, !split_le_combine' by done.
  rewrite bswap_bytes by (rewrite length_app; lia). by rewrite rev_app_distr.
Qed.

(** [OSReadSwapInt64], which reads two 32-bit words crosswise, swaps each and
    overlays them in a union, is exactly the 8-byte swap of the 64-bit word at that
    address, and fails on exactly the same addresses. *)
Theorem OSReadSwapInt64_is_bswap (m : mem) (base offset : Z) :
  OSReadSwapInt64 m base offset = bswap 8 <$> load_le 8 m (base + offset).
Proof. apply OSReadSwapInt64_eq. Qed.

(** What a swapped store leaves is what a swapped load reads back. *)
Lemma swap_store_load n m a v m' :
  store_le n m a (bswap n v) = Some m' ->
  bswap n <$> load_le n m' a = Some (wrap (8 * Z.of_nat n) v).
Proof.
  intros H. rewrite (load_store_le _ _ _ _ _ H). simpl.
  by rewrite wrap_id, bswap_involutive by apply bswap_range.
Qed.

(** A value written byte-swapped is read back unchanged by the matching
    byte-swapped read, at all three widths and at every address the write accepts. *)
Theorem OSSwap_write_read (m m16 m32 m64 : mem) (base offset v16 v32 v64 : Z) :
  in_u 16 v16 -> in_u 32 v32 -> in_u 64 v64 ->
  OSWriteSwapInt16 m base offset v16 = Some m16 ->
  OSWriteSwapInt32 m base offset v32 = Some m32 ->
  OSWriteSwapInt64 m base offset v64 = Some m64 ->
  OSReadSwapInt16 m16 base offset = Some v16 /\
  OSReadSwapInt32 m32 base offset = Some v32 /\
  OSReadSwapInt64 m64 base offset = Some v64.
Proof.
  intros H16 H32 H64 W16 W32 W64.
  unfold OSWriteSwapInt16 in W16. rewrite _OSSwapInt16_bswap in W16 by done.
  rewrite OSReadSwapInt64_eq.
  change (OSReadSwapInt32 m32 base offset) with (bswap 4 <$> load_le 4 m32 (base + offset)).
  rewrite (swap_store_load _ _ _ _ _ W32), (swap_store_load _ _ _ _ _ W64).
  rewrite !wrap_id by done. split; [|done]. unfold OSReadSwapInt16.
  rewrite (load_store_le _ _ _ _ _ W16). simpl. f_equal.
  rewrite wrap_id by apply (bswap_range 2).
  rewrite _OSSwapInt16_bswap by apply (bswap_range 2).
  rewrite bswap_involutive. by apply wrap_id.
Qed.

Lemma OSSwap_write_read_witness :
  let m := repeat Byte.x00 9 in
  exists m16 m32 m64,
    OSWriteSwapInt16 m 0 1 0xbeef = Some m16 /\ OSReadSwapInt16 m16 0 1 = Some 0xbeef /\
    OSWriteSwapInt32 m 0 1 0xdeadbeef = Some m32 /\ OSReadSwapInt32 m32 0 1 = Some 0xdeadbeef /\
    OSWriteSwapInt64 m 0 1 0x0123456789abcdef = Some m64 /\
    OSReadSwapInt64 m64 0 1 = Some 0x0123456789abcdef.
Proof.
  intros m. eexists _, _, _.
  destruct (OSSwap_write_read m _ _ _ 0 1 0xbeef 0xdeadbeef 0x0123456789abcdef
    ltac:(unfold in_u; lia) ltac:(unfold in_u; lia) ltac:(unfold in_u; lia)
    eq_refl eq_refl eq_refl) as (H1 & H2 & H3).
  exact (conj eq_refl (conj H1 (conj eq_refl (conj H2 (conj eq_refl H3))))).
Defined.

Lemma CFSwapInt16_spec c v : in_u 16 v -> CFSwapInt16 c v = bswap 2 v.
Proof.
  intros. unfold CFSwapInt16. destruct c; rewrite ?swap_const16_bswap, ?_OSSwapInt16_bswap by done;
  apply wrap_id, (bswap_range 2).
Qed.

Lemma CFSwapInt32_spec c v : CFSwapInt32 c v = bswap 4 v.
Proof. destruct c; [apply swap_const32_bswap | done]. Qed.

Lemma CFSwapInt64_spec c v : CFSwapInt64 c v = bswap 8 v.
Proof. destruct c; [apply swap_const64_bswap | done]. Qed.

(** The mask-and-shift expression the compiler folds for constants and the
    [_OSSwapInt] routine it calls otherwise compute the same value, at 16, 32 and 64
    bits, whichever branch [__builtin_constant_p] selects. *)
Theorem CFSwap_branches_agree (c1 c2 : bool) (v16 v32 v64 : Z) :
  in_u 16 v16 ->
  CFSwapInt16 c1 v16 = CFSwapInt16 c2 v16 /\
  CFSwapInt32 c1 v32 = CFSwapInt32 c2 v32 /\
  CFSwapInt64 c1 v64 = CFSwapInt64 c2 v64.
Proof. intros. by rewrite !CFSwapInt16_spec, !CFSwapInt32_spec, !CFSwapInt64_spec. Qed.

Lemma CFSwap_branches_agree_witness :
  CFSwapInt16 true 0x1234 = CFSwapInt16 false 0x1234 /\
  CFSwapInt32 true 0x12345678 = CFSwapInt32 false 0x12345678 /\
  CFSwapInt64 true 0x123456789abcdef0 = CFSwapInt64 false 0x123456789abcdef0.
Proof. apply CFSwap_branches_agree. unfold in_u. lia. Defined.

Lemma bswap_roundtrip n v : in_u (8 * Z.of_nat n) v -> bswap n (bswap n v) = v.
Proof. intros. rewrite bswap_involutive. by apply wrap_id. Qed.

(** Host-to-big followed by big-to-host is the identity on every integer width
    of the Foundation wrappers, and so is host-to-little followed by little-to-host. *)
Theorem NSSwap_host_roundtrip (c1 c2 : bool) (x16 x32 x64 : Z) :
  in_u 16 x16 -> in_u 32 x32 -> in_u 64 x64 ->
  NSSwapBigShortToHost c1 (NSSwapHostShortToBig c2 x16) = x16 /\
  NSSwapBigIntToHost c1 (NSSwapHostIntToBig c2 x32) = x32 /\
  NSSwapBigLongToHost c1 (NSSwapHostLongToBig c2 x64) = x64 /\
  NSSwapBigLongLongToHost c1 (NSSwapHostLongLongToBig c2 x64) = x64 /\
  NSSwapLittleShortToHost (NSSwapHostShortToLittle x16) = x16 /\
  NSSwapLittleIntToHost (NSSwapHostIntToLittle x32) = x32 /\
  NSSwapLittleLongToHost (NSSwapHostLongToLittle x64) = x64 /\
  NSSwapLittleLongLongToHost (NSSwapHostLongLongToLittle x64) = x64.
Proof.
  intros H16 H32 H64.
  assert (B16 : CFSwapInt16 c1 (CFSwapInt16 c2 x16) = x16).
  { rewrite (CFSwapInt16_spec c2), CFSwapInt16_spec by (done || apply (bswap_range 2)).
    by apply (bswap_roundtrip 2). }
  assert (B32 : CFSwapInt32 c1 (CFSwapInt32 c2 x32) = x32)
    by (rewrite !CFSwapInt32_spec; by apply (bswap_roundtrip 4)).
  assert (B64 : CFSwapInt64 c1 (CFSwapInt64 c2 x64) = x64)
    by (rewrite !CFSwapInt64_spec; by apply (bswap_roundtrip 8)).
  split_and!; try assumption.
  all: cbv [NSSwapLittleShortToHost NSSwapHostShortToLittle NSSwapLittleIntToHost
    NSSwapHostIntToLittle NSSwapLittleLongToHost NSSwapHostLongToLittle
    NSSwapLittleLongLongToHost NSSwapHostLongLongToLittle CFSwapInt16LittleToHost
    CFSwapInt16HostToLittle CFSwapInt32LittleToHost CFSwapInt32HostToLittle
    CFSwapInt64LittleToHost CFSwapInt64HostToLittle]; rewrite wrap_wrap; by apply wrap_id.
Qed.

Lemma NSSwap_host_roundtrip_witness :
  NSSwapBigShortToHost true (NSSwapHostShortToBig false 0x0102) = 0x0102 /\
  NSSwapBigIntToHost true (NSSwapHostIntToBig false 0x01020304) = 0x01020304.
Proof.
  destruct (NSSwap_host_roundtrip true false 0x0102 0x01020304 5
    ltac:(unfold in_u; lia) ltac:(unfold in_u; lia) ltac:(unfold in_u; lia)) as (H1 & H2 & _).
  split; [exact H1 | exact H2].
Defined.

(** The floating-point conversions lose nothing: swapping the bits of a [float] or
    [double] out and back, through either the CF or the NS layer, restores the value. *)
Theorem float_swap_roundtrip (c1 c2 : bool) (f : Float32) (d : Float64) :
  in_u 32 (bits32 f) -> in_u 64 (bits64 d) ->
  CFConvertFloat32SwappedToHost c1 (CFConvertFloat32HostToSwapped c2 f) = f /\
  CFConvertFloatSwappedToHost c1 (CFConvertFloatHostToSwapped c2 f) = f /\
  CFConvertFloat64SwappedToHost c1 (CFConvertFloat64HostToSwapped c2 d) = d /\
  CFConvertDoubleSwappedToHost c1 (CFConvertDoubleHostToSwapped c2 d) = d /\
  NSSwapBigFloatToHost c1 (NSSwapHostFloatToBig c2 f) = f /\
  NSSwapBigDoubleToHost c1 (NSSwapHostDoubleToBig c2 d) = d /\
  NSSwapLittleFloatToHost (NSSwapHostFloatToLittle f) = f /\
  NSSwapLittleDoubleToHost (NSSwapHostDoubleToLittle d) = d.
Proof.
  destruct f as [f], d as [d]; simpl. intros Hf Hd.
  cbv [CFConvertFloat32SwappedToHost CFConvertFloat32HostToSwapped CFConvertFloatSwappedToHost
    CFConvertFloatHostToSwapped CFConvertFloat64SwappedToHost CFConvertFloat64HostToSwapped
    CFConvertDoubleSwappedToHost CFConvertDoubleHostToSwapped NSSwapBigFloatToHost
    NSSwapHostFloatToBig NSSwapBigDoubleToHost NSSwapHostDoubleToBig NSSwapFloat NSSwapDouble
    NSConvertHostFloatToSwapped NSConvertSwappedFloatToHost NSConvertHostDoubleToSwapped
    NSConvertSwappedDoubleToHost NSSwapInt NSSwapLongLong nsf nsd bits32 bits64 sv32 sv64].
  rewrite !CFSwapInt32_spec, !CFSwapInt64_spec.
  rewrite (bswap_roundtrip 4), (bswap_roundtrip 8) by done. done.
Qed.

Lemma float_swap_roundtrip_witness :
  let f := mkFloat32 0x3f800000 in
  let d := mkFloat64 0x3ff0000000000000 in
  CFConvertFloat32SwappedToHost true (CFConvertFloat32HostToSwapped false f) = f /\
  NSSwapBigDoubleToHost true (NSSwapHostDoubleToBig false d) = d.
Proof.
  intros f d. destruct (float_swap_roundtrip true false f d
    ltac:(unfold in_u; simpl; lia) ltac:(unfold in_u; simpl; lia)) as (H & _ & _ & _ & _ & H' & _).
  split; [exact H | exact H'].
Defined.
