(* ===== verification/Endian.v ===== *)
(** * Endian accessors of markgc

    The [BigEndian]/[LittleEndian] policy classes of markgc.cpp (lines 78-136)
    and the [Pointer32]/[Pointer64] templates over them.  A policy is an
    instance of the class [Endian]; what the Mach-O code relies on is the class
    [EndianLaws], which both instances discharge, so every later theorem holds
    for the four variants of the file format at once. *)

From Stdlib Require Import ZArith Lia Bool.
From stdpp Require Import base list.
From coqutil Require Import Byte Word.LittleEndianList.
From S2P Require Import Prelude Memory ByteOrder.

Local Open Scope Z_scope.

(** The static functions of a policy class; a reference argument is the address
    of the field it refers to. *)
Class Endian := {
  get16 : mem -> Z -> option Z;
  set16 : mem -> Z -> Z -> option mem;
  get32 : mem -> Z -> option Z;
  set32 : mem -> Z -> Z -> option mem;
  get64 : mem -> Z -> option Z;
  set64 : mem -> Z -> Z -> option mem;
  getBitsRaw : Z -> Z -> Z -> Z;
  setBitsRaw : Z -> Z -> Z -> Z -> Z;
  little_endian : bool
}.

(** [(1<<bitCount)-1] as the [uint32_t] it is converted to. *)
Definition bit_mask (bitCount : Z) : Z := u32 (Z.shiftl 1 bitCount - 1).

Definition BigEndian_getBitsRaw (from firstBit bitCount : Z) : Z :=
  Z.land (Z.shiftr from (32 - firstBit - bitCount)) (bit_mask bitCount).

Definition BigEndian_setBitsRaw (into value firstBit bitCount : Z) : Z :=
  let mask := bit_mask bitCount in
  let temp := Z.land into (u32 (Z.lnot (u32 (Z.shiftl mask (32 - firstBit - bitCount))))) in
  Z.lor temp (u32 (Z.shiftl (Z.land value mask) (32 - firstBit - bitCount))).

Definition BigEndian : Endian := {|
  get16 m from := OSReadSwapInt16 m from 0;
  set16 m into value := OSWriteSwapInt16 m into 0 value;
  get32 m from := OSReadSwapInt32 m from 0;
  set32 m into value := OSWriteSwapInt32 m into 0 value;
  get64 m from := OSReadSwapInt64 m from 0;
  set64 m into value := OSWriteSwapInt64 m into 0 value;
  getBitsRaw := BigEndian_getBitsRaw;
  setBitsRaw := BigEndian_setBitsRaw;
  little_endian := false
|}.

Definition LittleEndian_getBitsRaw (from firstBit bitCount : Z) : Z :=
  Z.land (Z.shiftr from firstBit) (bit_mask bitCount).

Definition LittleEndian_setBitsRaw (into value firstBit bitCount : Z) : Z :=
  let mask := bit_mask bitCount in
  let temp := Z.land into (u32 (Z.lnot (u32 (Z.shiftl mask firstBit)))) in
  Z.lor temp (u32 (Z.shiftl (Z.land value mask) firstBit)).

Definition LittleEndian : Endian := {|
  get16 m from := _OSReadInt16 m from 0;
  set16 m into value := _OSWriteInt16 m into 0 value;
  get32 m from := _OSReadInt32 m from 0;
  set32 m into value := _OSWriteInt32 m into 0 value;
  get64 m from := _OSReadInt64 m from 0;
  set64 m into value := _OSWriteInt64 m into 0 value;
  getBitsRaw := LittleEndian_getBitsRaw;
  setBitsRaw := LittleEndian_setBitsRaw;
  little_endian := true
|}.

(** The host is little-endian, as [OSHostByteOrder] says. *)
Definition CurrentEndian : Endian := LittleEndian.
Definition OtherEndian : Endian := BigEndian.

(** [getBits] and [setBits] read and write the field around the raw versions. *)
Definition getBits (E : Endian) (m : mem) (from firstBit bitCount : Z) : option Z :=
  (fun w => getBitsRaw w firstBit bitCount) <$> get32 m from.

Definition setBits (E : Endian) (m : mem) (into value firstBit bitCount : Z) : option mem :=
  match get32 m into with
  | Some temp => set32 m into (setBitsRaw temp value firstBit bitCount)
  | None => None
  end.

(** ** Pointer-sized fields *)

Inductive pointer_size := Pointer32 | Pointer64.

#[export] Instance pointer_size_eq_dec : EqDecision pointer_size.
Proof. solve_decision. Defined.

Definition ptr_bytes (P : pointer_size) : nat :=
  match P with Pointer32 => 4%nat | Pointer64 => 8%nat end.

Definition getP (E : Endian) (P : pointer_size) (m : mem) (from : Z) : option Z :=
  match P with Pointer32 => get32 m from | Pointer64 => get64 m from end.

Definition setP (E : Endian) (P : pointer_size) (m : mem) (into value : Z) : option mem :=
  match P with Pointer32 => set32 m into (u32 value) | Pointer64 => set64 m into value end.

(** ** What a client of a policy may rely on *)

Class EndianLaws (E : Endian) := {
  get32_defined m a : 0 <= a -> a + 4 <= msize m -> is_Some (get32 m a);
  get32_in_u m a v : get32 m a = Some v -> in_u 32 v;
  get32_frame Q m m' a : unchanged_outside Q m m' ->
    (forall i, within a 4 i -> ~ Q i) -> get32 m' a = get32 m a;
  get32_bounds m a v : get32 m a = Some v -> 0 <= a /\ a + 4 <= msize m;
  set32_defined m a v : 0 <= a -> a + 4 <= msize m -> is_Some (set32 m a v);
  set32_frame m a v m' : set32 m a v = Some m' -> unchanged_outside (within a 4) m m';
  set32_bounds m a v m' : set32 m a v = Some m' -> 0 <= a /\ a + 4 <= msize m;
  get32_set32 m a v m' : in_u 32 v -> set32 m a v = Some m' -> get32 m' a = Some v;
  get16_set16 m a v m' : in_u 16 v -> set16 m a v = Some m' -> get16 m' a = Some v;
  get64_frame Q m m' a : unchanged_outside Q m m' ->
    (forall i, within a 8 i -> ~ Q i) -> get64 m' a = get64 m a;
  set64_frame m a v m' : set64 m a v = Some m' -> unchanged_outside (within a 8) m m';
  get64_set64 m a v m' : in_u 64 v -> set64 m a v = Some m' -> get64 m' a = Some v
}.

Lemma load_le_bounds n m a v :
  load_le n m a = Some v -> (0 < n)%nat -> 0 <= a /\ a + Z.of_nat n <= msize m.
Proof.
  unfold load_le. destruct (load n m a) eqn:E; simpl; [|discriminate].
  intros _. by apply (load_bounds n m a l).
Qed.

Lemma store_le_bounds n m a v m' :
  store_le n m a v = Some m' -> (0 < n)%nat -> 0 <= a /\ a + Z.of_nat n <= msize m.
Proof.
  intros H Hn. rewrite <- (length_le_split n v). eapply store_bounds; [exact H|].
  intros H0. pose proof (length_le_split n v) as Hl. rewrite H0 in Hl. simpl in Hl. lia.
Qed.

Lemma fmap_is_Some_load {A} (f : Z -> A) n m a :
  0 <= a -> a + Z.of_nat n <= msize m -> is_Some (f <$> load_le n m a).
Proof. intros. apply fmap_is_Some. auto with machine. Qed.

#[export] Instance LittleEndianLaws : EndianLaws LittleEndian.
Proof.
  split; simpl; unfold _OSReadInt16, _OSReadInt32, _OSReadInt64, _OSWriteInt16, _OSWriteInt32,
    _OSWriteInt64; intros *; rewrite ?Z.add_0_r.
  - apply (load_le_is_Some 4).
  - apply (load_le_range 4).
  - apply (load_le_frame Q 4).
  - intros H. by apply (load_le_bounds 4 m a v H); lia.
  - apply (store_le_is_Some 4).
  - apply (store_le_frame 4).
  - intros H. by apply (store_le_bounds 4 m a v m' H); lia.
  - intros Hv H. rewrite (load_store_le _ _ _ _ _ H). f_equal. by apply wrap_id.
  - intros Hv H. rewrite (load_store_le _ _ _ _ _ H). f_equal. by apply wrap_id.
  - apply (load_le_frame Q 8).
  - apply (store_le_frame 8).
  - intros Hv H. rewrite (load_store_le _ _ _ _ _ H). f_equal. by apply wrap_id.
Qed.

#[export] Instance BigEndianLaws : EndianLaws BigEndian.
Proof.
  split; simpl; intros *; unfold OSReadSwapInt32, OSWriteSwapInt32, OSReadSwapInt16,
    OSWriteSwapInt16, OSWriteSwapInt64; rewrite ?OSReadSwapInt64_eq, ?Z.add_0_r.
  - apply (fmap_is_Some_load _ 4).
  - destruct (load_le 4 m a); simpl; [|discriminate]. intros [= <-]. apply (bswap_range 4).
  - intros. by rewrite (load_le_frame Q 4 m m' a).
  - destruct (load_le 4 m a) eqn:E; simpl; [|discriminate]. intros _.
    by apply (load_le_bounds 4 m a _ E); lia.
  - apply (store_le_is_Some 4).
  - apply (store_le_frame 4).
  - intros H. by apply (store_le_bounds 4 m a _ m' H); lia.
  - intros Hv H. change _OSSwapInt32 with (bswap 4). rewrite (swap_store_load _ _ _ _ _ H).
    f_equal. by apply wrap_id.
  - intros Hv H. rewrite _OSSwapInt16_bswap in H by done.
    rewrite (load_store_le _ _ _ _ _ H). simpl. f_equal.
    rewrite wrap_id, _OSSwapInt16_bswap by apply (bswap_range 2). by apply (bswap_roundtrip 2).
  - intros. by rewrite (load_le_frame Q 8 m m' a).
  - apply (store_le_frame 8).
  - intros Hv H. rewrite (swap_store_load _ _ _ _ _ H). f_equal. by apply wrap_id.
Qed.

Lemma getP_setP (E : Endian) {L : EndianLaws E} P m a v m' :
  in_u (8 * Z.of_nat (ptr_bytes P)) v -> setP E P m a v = Some m' -> getP E P m' a = Some v.
Proof.
  destruct P; simpl; intros Hv H; [|by eapply get64_set64].
  rewrite wrap_id in H by done. by eapply get32_set32.
Qed.

Lemma setP_frame (E : Endian) {L : EndianLaws E} P m a v m' :
  setP E P m a v = Some m' -> unchanged_outside (within a (Z.of_nat (ptr_bytes P))) m m'.
Proof. destruct P; simpl; [apply set32_frame | apply set64_frame]. Qed.

Lemma getP_frame (E : Endian) {L : EndianLaws E} P Q m m' a :
  unchanged_outside Q m m' ->
  (forall i, within a (Z.of_nat (ptr_bytes P)) i -> ~ Q i) -> getP E P m' a = getP E P m a.
Proof. destruct P; simpl; [apply get32_frame | apply get64_frame]. Qed.

(** ** Bit fields

    Both policies place a field of [n] bits at some shift [sh] of the word: the
    big-endian one counts [firstBit] from the most significant end. *)

Definition field_shift (E : Endian) (firstBit bitCount : Z) : Z :=
  if E.(little_endian) then firstBit else 32 - firstBit - bitCount.

Lemma bit_mask_ones n : 0 <= n <= 30 -> bit_mask n = Z.ones n.
Proof.
  intros. unfold bit_mask. rewrite Z.shiftl_1_l, Z.ones_equiv, <- Z.sub_1_r.
  apply wrap_id. unfold in_u.
  pose proof (Z.pow_le_mono_r 2 n 30). pose proof (Z.pow_pos_nonneg 2 n). lia.
Qed.

Lemma testbit_wrap w z i : 0 <= w -> 0 <= i ->
  Z.testbit (wrap w z) i = (i <? w) && Z.testbit z i.
Proof.
  intros. unfold wrap. destruct (i <? w) eqn:E; zbool.
  - by rewrite Z.mod_pow2_bits_low by lia.
  - by rewrite Z.mod_pow2_bits_high by lia.
Qed.

Lemma testbit_ones n i : 0 <= n -> 0 <= i -> Z.testbit (Z.ones n) i = (i <? n).
Proof.
  intros. destruct (i <? n) eqn:E; zbool.
  - by apply Z.ones_spec_low.
  - by apply Z.ones_spec_high.
Qed.

Lemma testbit_in_u w z i : in_u w z -> 0 <= w <= i -> Z.testbit z i = false.
Proof.
  intros Hz Hi. rewrite <- (wrap_id w z Hz), testbit_wrap by lia.
  destruct (i <? w) eqn:E; zbool; [lia|done].
Qed.

(** The word both [setBitsRaw] build, bit by bit. *)
Lemma field_set_testbit into v sh n i :
  in_u 32 into -> 0 <= sh -> 0 <= n <= 30 -> sh + n <= 32 -> 0 <= i ->
  Z.testbit
    (Z.lor (Z.land into (u32 (Z.lnot (u32 (Z.shiftl (bit_mask n) sh)))))
           (u32 (Z.shiftl (Z.land v (bit_mask n)) sh))) i
  = if (sh <=? i) && (i <? sh + n) then Z.testbit v (i - sh) else Z.testbit into i.
Proof.
  intros Hinto Hsh Hn Hs Hi. rewrite bit_mask_ones by lia.
  rewrite Z.lor_spec, Z.land_spec, !testbit_wrap, Z.lnot_spec, testbit_wrap by lia.
  rewrite !Z.shiftl_spec by lia.
  destruct (sh <=? i) eqn:E1; zbool; simpl.
  - rewrite Z.land_spec, testbit_ones by lia.
    destruct (i - sh <? n) eqn:E2, (i <? sh + n) eqn:E3, (i <? 32) eqn:E4; zbool; try lia; simpl;
      rewrite ?andb_false_r, ?andb_true_r, ?orb_false_l, ?orb_false_r; try done.
    by rewrite (testbit_in_u 32) by (done || lia).
  - rewrite !(Z.testbit_neg_r _ (i - sh)) by lia. rewrite andb_false_r, orb_false_r. simpl.
    destruct (i <? 32) eqn:E4; zbool; simpl; [by rewrite andb_true_r|].
    by rewrite andb_false_r, (testbit_in_u 32) by (done || lia).
Qed.

Lemma field_get_testbit w sh n i :
  0 <= sh -> 0 <= n <= 30 -> 0 <= i ->
  Z.testbit (Z.land (Z.shiftr w sh) (bit_mask n)) i = (i <? n) && Z.testbit w (i + sh).
Proof.
  intros. rewrite bit_mask_ones, Z.land_spec, Z.shiftr_spec, testbit_ones by lia.
  apply andb_comm.
Qed.

(** The class of policies whose raw bit operations are the field operations at
    [field_shift]. *)
Class BitFieldLaws (E : Endian) := {
  getBitsRaw_shift w f n :
    getBitsRaw w f n = Z.land (Z.shiftr w (field_shift E f n)) (bit_mask n);
  setBitsRaw_shift w v f n :
    setBitsRaw w v f n =
    Z.lor (Z.land w (u32 (Z.lnot (u32 (Z.shiftl (bit_mask n) (field_shift E f n))))))
          (u32 (Z.shiftl (Z.land v (bit_mask n)) (field_shift E f n)))
}.

#[export] Instance LittleEndianBits : BitFieldLaws LittleEndian.
Proof. split; reflexivity. Qed.

#[export] Instance BigEndianBits : BitFieldLaws BigEndian.
Proof. split; reflexivity. Qed.

Lemma in_u_of_bits w z : 0 <= w -> 0 <= z ->
  (forall i, w <= i -> Z.testbit z i = false) -> in_u w z.
Proof.
  intros Hw Hz H. split; [done|]. destruct (Z.eq_dec z 0) as [->|Hne]; [by apply Z.pow_pos_nonneg|].
  apply Z.log2_lt_pow2; [lia|]. destruct (Z_lt_le_dec (Z.log2 z) w) as [|Hle]; [done|].
  specialize (H _ Hle). by rewrite Z.bit_log2 in H by lia.
Qed.

(** A bit field written with [setBits] is read back by [getBits], and no bit of the
    word outside the field changes, for fields of at most 30 bits inside the word, under
    either byte order. *)
Theorem setBits_getBits (E : Endian) {L : EndianLaws E} {B : BitFieldLaws E}
    (m m' : mem) (a v f n : Z) :
  0 <= f -> 0 <= n <= 30 -> f + n <= 32 -> in_u n v ->
  setBits E m a v f n = Some m' ->
  getBits E m' a f n = Some v /\
  (exists w w', get32 m a = Some w /\ get32 m' a = Some w' /\
    forall i, 0 <= i -> ~ (field_shift E f n <= i < field_shift E f n + n) ->
      Z.testbit w' i = Z.testbit w i) /\
  unchanged_outside (within a 4) m m'.
Proof.
  intros Hf Hn Hfn Hv Hset. unfold setBits in Hset.
  destruct (get32 m a) as [w|] eqn:Ew; [|discriminate]. pose proof (get32_in_u _ _ _ Ew) as Hw.
  assert (Hsh : 0 <= field_shift E f n /\ field_shift E f n + n <= 32)
    by (unfold field_shift; destruct little_endian; lia).
  set (w' := setBitsRaw w v f n) in *.
  assert (Hbit : forall i, 0 <= i -> Z.testbit w' i =
    if (field_shift E f n <=? i) && (i <? field_shift E f n + n)
    then Z.testbit v (i - field_shift E f n) else Z.testbit w i).
  { intros i Hi. subst w'. rewrite setBitsRaw_shift. apply field_set_testbit; try done; lia. }
  assert (Hw' : in_u 32 w').
  { apply in_u_of_bits; [lia| |].
    - subst w'. rewrite setBitsRaw_shift. unfold in_u in *.
      apply Z.lor_nonneg. split; [apply Z.land_nonneg; lia | by apply wrap_range].
    - intros i Hi. rewrite Hbit by lia. destruct (_ && _) eqn:E'; zbool; [lia|].
      by apply (testbit_in_u 32); [done|lia]. }
  rewrite (get32_set32 _ _ _ _ Hw' Hset). split; [|split].
  - unfold getBits. rewrite (get32_set32 _ _ _ _ Hw' Hset). simpl. f_equal.
    apply Z.bits_inj'. intros i Hi. rewrite getBitsRaw_shift, field_get_testbit by lia.
    destruct (i <? n) eqn:E'; zbool; simpl.
    + rewrite Hbit by lia. replace (i + field_shift E f n - field_shift E f n) with i by lia.
      destruct (_ && _) eqn:E2; [done|]. apply andb_false_iff in E2 as [|]; zbool; lia.
    + symmetry. apply (testbit_in_u n); [done|lia].
  - exists w, w'. split_and!; [done..|]. intros i Hi Hout. rewrite Hbit by done.
    destruct (_ && _) eqn:E'; [|done]. zbool. lia.
  - by apply set32_frame in Hset.
Qed.

Lemma setBits_getBits_witness :
  let m := [Byte.x12; Byte.x34; Byte.x56; Byte.x78] in
  exists m', setBits BigEndian m 0 5 8 4 = Some m' /\ getBits BigEndian m' 0 8 4 = Some 5.
Proof.
  intros m. eexists. split; [reflexivity|].
  apply (setBits_getBits BigEndian m _ 0 5 8 4); try lia; [unfold in_u; lia | reflexivity].
Defined.
