(* ===== verification/MachO.v ===== *)
(** * Mach-O structures of markgc

    The accessor classes [macho_header], [macho_load_command],
    [macho_segment_command] and [macho_section] of markgc.cpp (lines 171-354).
    The structures they overlay are declared in <mach-o/loader.h> and
    <mach-o/fat.h>, which are not part of the repository: their sizes, field
    offsets and constants are the fields of the class [loader_h], and the
    class [loader_h_ok] states what the code relies on - the fields of a
    structure lie in it one after the other. *)

From Stdlib Require Import ZArith Lia Bool.
From stdpp Require Import base list.
From coqutil Require Import Byte Word.LittleEndianList.
From S2P Require Import Prelude Memory CString ByteOrder Endian.

Local Open Scope Z_scope.

(** ** The structures, field by field in declaration order *)

Inductive header_field :=
  H_magic | H_cputype | H_cpusubtype | H_filetype | H_ncmds | H_sizeofcmds | H_flags | H_reserved.

Inductive command_field := L_cmd | L_cmdsize.

Inductive segment_field :=
  G_cmd | G_cmdsize | G_segname | G_vmaddr | G_vmsize | G_fileoff | G_filesize
| G_maxprot | G_initprot | G_nsects | G_flags.

Inductive section_field :=
  S_sectname | S_segname | S_addr | S_size | S_offset | S_align | S_reloff | S_nreloc
| S_flags | S_reserved1 | S_reserved2.

Inductive fat_field := F_magic | F_nfat_arch.

Inductive arch_field := A_cputype | A_cpusubtype | A_offset | A_size | A_align.

Class loader_h := {
  MH_MAGIC : Z; MH_CIGAM : Z; MH_MAGIC_64 : Z; MH_CIGAM_64 : Z;
  FAT_MAGIC : Z; FAT_CIGAM : Z;
  LC_SEGMENT : Z; LC_SEGMENT_64 : Z;
  SECTION_TYPE : Z;
  off_header : pointer_size -> header_field -> Z;
  sizeof_header : pointer_size -> Z;
  off_command : command_field -> Z;
  sizeof_command : Z;
  off_segment : pointer_size -> segment_field -> Z;
  sizeof_segment : pointer_size -> Z;
  off_section : pointer_size -> section_field -> Z;
  sizeof_section : pointer_size -> Z;
  off_fat : fat_field -> Z;
  sizeof_fat_header : Z;
  off_arch : arch_field -> Z;
  sizeof_fat_arch : Z
}.

(** [mach_header] has no [reserved] field; [mach_header_64] has. *)
Definition header_fields (P : pointer_size) : list header_field :=
  [H_magic; H_cputype; H_cpusubtype; H_filetype; H_ncmds; H_sizeofcmds; H_flags]
  ++ match P with Pointer32 => [] | Pointer64 => [H_reserved] end.

Definition command_fields : list command_field := [L_cmd; L_cmdsize].

Definition segment_fields : list segment_field :=
  [G_cmd; G_cmdsize; G_segname; G_vmaddr; G_vmsize; G_fileoff; G_filesize;
   G_maxprot; G_initprot; G_nsects; G_flags].

Definition section_fields : list section_field :=
  [S_sectname; S_segname; S_addr; S_size; S_offset; S_align; S_reloff; S_nreloc;
   S_flags; S_reserved1; S_reserved2].

Definition segment_width (P : pointer_size) (f : segment_field) : Z :=
  match f with
  | G_segname => 16
  | G_vmaddr | G_vmsize | G_fileoff | G_filesize => Z.of_nat (ptr_bytes P)
  | _ => 4
  end.

Definition section_width (P : pointer_size) (f : section_field) : Z :=
  match f with
  | S_sectname | S_segname => 16
  | S_addr | S_size => Z.of_nat (ptr_bytes P)
  | _ => 4
  end.

(** Extents laid out one after the other inside [0, size). *)
Fixpoint in_order (pos : Z) (extents : list (Z * Z)) (size : Z) : bool :=
  match extents with
  | [] => pos <=? size
  | (off, w) :: rest => (pos <=? off) && (0 <? w) && in_order (off + w) rest size
  end.

Class loader_h_ok (H : loader_h) := {
  header_in_order P : in_order 0 (map (fun f => (off_header P f, 4)) (header_fields P)) (sizeof_header P) = true;
  command_in_order : in_order 0 (map (fun f => (off_command f, 4)) command_fields) sizeof_command = true;
  segment_in_order P :
    in_order 0 (map (fun f => (off_segment P f, segment_width P f)) segment_fields) (sizeof_segment P) = true;
  section_in_order P :
    in_order 0 (map (fun f => (off_section P f, section_width P f)) section_fields) (sizeof_section P) = true;
  fat_in_order : in_order 0 (map (fun f => (off_fat f, 4)) [F_magic; F_nfat_arch]) sizeof_fat_header = true;
  arch_in_order :
    in_order 0 (map (fun f => (off_arch f, 4)) [A_cputype; A_cpusubtype; A_offset; A_size; A_align]) sizeof_fat_arch = true;
  arch_cputype_first : off_arch A_cputype = 0;
  command_prefix P : sizeof_command <= sizeof_segment P;
  section_type_mask : exists k, 0 <= k <= 32 /\ SECTION_TYPE = Z.ones k;
  magics_in_u : Forall (in_u 32) [MH_MAGIC; MH_CIGAM; MH_MAGIC_64; MH_CIGAM_64; FAT_MAGIC; FAT_CIGAM];
  magics_distinct : NoDup [MH_MAGIC; MH_CIGAM; MH_MAGIC_64; MH_CIGAM_64; FAT_MAGIC; FAT_CIGAM]
}.

(** ** The accessors

    One definition per member function of the class templates; [this] is the
    address the pointer holds. *)

Section Accessors.
Context {H : loader_h} (E : Endian) (P : pointer_size).

(** [macho_header] *)
Definition mh_magic (m : mem) (this : Z) : option Z := get32 m (this + off_header P H_magic).
Definition mh_set_magic (m : mem) (this value : Z) : option mem := set32 m (this + off_header P H_magic) value.
Definition mh_cputype (m : mem) (this : Z) : option Z := get32 m (this + off_header P H_cputype).
Definition mh_set_cputype (m : mem) (this value : Z) : option mem := set32 m (this + off_header P H_cputype) value.
Definition mh_cpusubtype (m : mem) (this : Z) : option Z := get32 m (this + off_header P H_cpusubtype).
Definition mh_set_cpusubtype (m : mem) (this value : Z) : option mem := set32 m (this + off_header P H_cpusubtype) value.
Definition mh_filetype (m : mem) (this : Z) : option Z := get32 m (this + off_header P H_filetype).
Definition mh_set_filetype (m : mem) (this value : Z) : option mem := set32 m (this + off_header P H_filetype) value.
Definition mh_ncmds (m : mem) (this : Z) : option Z := get32 m (this + off_header P H_ncmds).
Definition mh_set_ncmds (m : mem) (this value : Z) : option mem := set32 m (this + off_header P H_ncmds) value.
Definition mh_sizeofcmds (m : mem) (this : Z) : option Z := get32 m (this + off_header P H_sizeofcmds).
Definition mh_set_sizeofcmds (m : mem) (this value : Z) : option mem := set32 m (this + off_header P H_sizeofcmds) value.
Definition mh_flags (m : mem) (this : Z) : option Z := get32 m (this + off_header P H_flags).
Definition mh_set_flags (m : mem) (this value : Z) : option mem := set32 m (this + off_header P H_flags) value.
Definition mh_reserved (m : mem) (this : Z) : option Z := get32 m (this + off_header P H_reserved).
Definition mh_set_reserved (m : mem) (this value : Z) : option mem := set32 m (this + off_header P H_reserved) value.

(** [macho_load_command] *)
Definition lc_cmd (m : mem) (this : Z) : option Z := get32 m (this + off_command L_cmd).
Definition lc_set_cmd (m : mem) (this value : Z) : option mem := set32 m (this + off_command L_cmd) value.
Definition lc_cmdsize (m : mem) (this : Z) : option Z := get32 m (this + off_command L_cmdsize).
Definition lc_set_cmdsize (m : mem) (this value : Z) : option mem := set32 m (this + off_command L_cmdsize) value.

(** [macho_segment_command]; a name is the address of its 16 characters. *)
Definition seg_cmd (m : mem) (this : Z) : option Z := get32 m (this + off_segment P G_cmd).
Definition seg_set_cmd (m : mem) (this value : Z) : option mem := set32 m (this + off_segment P G_cmd) value.
Definition seg_cmdsize (m : mem) (this : Z) : option Z := get32 m (this + off_segment P G_cmdsize).
Definition seg_set_cmdsize (m : mem) (this value : Z) : option mem := set32 m (this + off_segment P G_cmdsize) value.
Definition seg_segname (this : Z) : Z := this + off_segment P G_segname.
Definition seg_set_segname (m : mem) (this : Z) (value : list byte) : option mem :=
  strncpy m (seg_segname this) value 16.
Definition seg_vmaddr (m : mem) (this : Z) : option Z := getP E P m (this + off_segment P G_vmaddr).
Definition seg_set_vmaddr (m : mem) (this value : Z) : option mem := setP E P m (this + off_segment P G_vmaddr) value.
Definition seg_vmsize (m : mem) (this : Z) : option Z := getP E P m (this + off_segment P G_vmsize).
Definition seg_set_vmsize (m : mem) (this value : Z) : option mem := setP E P m (this + off_segment P G_vmsize) value.
Definition seg_fileoff (m : mem) (this : Z) : option Z := getP E P m (this + off_segment P G_fileoff).
Definition seg_set_fileoff (m : mem) (this value : Z) : option mem := setP E P m (this + off_segment P G_fileoff) value.
Definition seg_filesize (m : mem) (this : Z) : option Z := getP E P m (this + off_segment P G_filesize).
Definition seg_set_filesize (m : mem) (this value : Z) : option mem := setP E P m (this + off_segment P G_filesize) value.
Definition seg_maxprot (m : mem) (this : Z) : option Z := get32 m (this + off_segment P G_maxprot).
Definition seg_set_maxprot (m : mem) (this value : Z) : option mem := set32 m (this + off_segment P G_maxprot) value.
Definition seg_initprot (m : mem) (this : Z) : option Z := get32 m (this + off_segment P G_initprot).
Definition seg_set_initprot (m : mem) (this value : Z) : option mem := set32 m (this + off_segment P G_initprot) value.
Definition seg_nsects (m : mem) (this : Z) : option Z := get32 m (this + off_segment P G_nsects).
Definition seg_set_nsects (m : mem) (this value : Z) : option mem := set32 m (this + off_segment P G_nsects) value.
Definition seg_flags (m : mem) (this : Z) : option Z := get32 m (this + off_segment P G_flags).
Definition seg_set_flags (m : mem) (this value : Z) : option mem := set32 m (this + off_segment P G_flags) value.

(** [macho_section] *)
Definition sect_sectname (this : Z) : Z := this + off_section P S_sectname.
Definition sect_set_sectname (m : mem) (this : Z) (value : list byte) : option mem :=
  strncpy m (sect_sectname this) value 16.
Definition sect_segname (this : Z) : Z := this + off_section P S_segname.
Definition sect_set_segname (m : mem) (this : Z) (value : list byte) : option mem :=
  strncpy m (sect_segname this) value 16.
Definition sect_addr (m : mem) (this : Z) : option Z := getP E P m (this + off_section P S_addr).
Definition sect_set_addr (m : mem) (this value : Z) : option mem := setP E P m (this + off_section P S_addr) value.
Definition sect_size (m : mem) (this : Z) : option Z := getP E P m (this + off_section P S_size).
Definition sect_set_size (m : mem) (this value : Z) : option mem := setP E P m (this + off_section P S_size) value.
Definition sect_offset (m : mem) (this : Z) : option Z := get32 m (this + off_section P S_offset).
Definition sect_set_offset (m : mem) (this value : Z) : option mem := set32 m (this + off_section P S_offset) value.
Definition sect_align (m : mem) (this : Z) : option Z := get32 m (this + off_section P S_align).
Definition sect_set_align (m : mem) (this value : Z) : option mem := set32 m (this + off_section P S_align) value.
Definition sect_reloff (m : mem) (this : Z) : option Z := get32 m (this + off_section P S_reloff).
Definition sect_set_reloff (m : mem) (this value : Z) : option mem := set32 m (this + off_section P S_reloff) value.
Definition sect_nreloc (m : mem) (this : Z) : option Z := get32 m (this + off_section P S_nreloc).
Definition sect_set_nreloc (m : mem) (this value : Z) : option mem := set32 m (this + off_section P S_nreloc) value.
Definition sect_flags (m : mem) (this : Z) : option Z := get32 m (this + off_section P S_flags).
Definition sect_set_flags (m : mem) (this value : Z) : option mem := set32 m (this + off_section P S_flags) value.
Definition sect_reserved1 (m : mem) (this : Z) : option Z := get32 m (this + off_section P S_reserved1).
Definition sect_set_reserved1 (m : mem) (this value : Z) : option mem := set32 m (this + off_section P S_reserved1) value.
Definition sect_reserved2 (m : mem) (this : Z) : option Z := get32 m (this + off_section P S_reserved2).
Definition sect_set_reserved2 (m : mem) (this value : Z) : option mem := set32 m (this + off_section P S_reserved2) value.

(** The accessors of a class by field, for the laws below. *)
Definition mh_get (f : header_field) : mem -> Z -> option Z :=
  match f with
  | H_magic => mh_magic | H_cputype => mh_cputype | H_cpusubtype => mh_cpusubtype
  | H_filetype => mh_filetype | H_ncmds => mh_ncmds | H_sizeofcmds => mh_sizeofcmds
  | H_flags => mh_flags | H_reserved => mh_reserved
  end.

Definition mh_set (f : header_field) : mem -> Z -> Z -> option mem :=
  match f with
  | H_magic => mh_set_magic | H_cputype => mh_set_cputype | H_cpusubtype => mh_set_cpusubtype
  | H_filetype => mh_set_filetype | H_ncmds => mh_set_ncmds | H_sizeofcmds => mh_set_sizeofcmds
  | H_flags => mh_set_flags | H_reserved => mh_set_reserved
  end.

(** The numeric fields of a section; the two names are not numbers. *)
Definition section_numeric (f : section_field) : bool :=
  match f with S_sectname | S_segname => false | _ => true end.

Definition sect_get (f : section_field) : mem -> Z -> option Z :=
  match f with
  | S_addr => sect_addr | S_size => sect_size | S_offset => sect_offset | S_align => sect_align
  | S_reloff => sect_reloff | S_nreloc => sect_nreloc | S_flags => sect_flags
  | S_reserved1 => sect_reserved1 | S_reserved2 => sect_reserved2
  | S_sectname | S_segname => fun _ _ => None
  end.

Definition sect_set (f : section_field) : mem -> Z -> Z -> option mem :=
  match f with
  | S_addr => sect_set_addr | S_size => sect_set_size | S_offset => sect_set_offset
  | S_align => sect_set_align | S_reloff => sect_set_reloff | S_nreloc => sect_set_nreloc
  | S_flags => sect_set_flags | S_reserved1 => sect_set_reserved1
  | S_reserved2 => sect_set_reserved2
  | S_sectname | S_segname => fun _ _ _ => None
  end.

End Accessors.

(** ** Consequences of the layout *)

#[export] Instance header_field_eq_dec : EqDecision header_field.
Proof. solve_decision. Defined.
#[export] Instance segment_field_eq_dec : EqDecision segment_field.
Proof. solve_decision. Defined.
#[export] Instance section_field_eq_dec : EqDecision section_field.
Proof. solve_decision. Defined.
#[export] Instance command_field_eq_dec : EqDecision command_field.
Proof. solve_decision. Defined.

Lemma in_order_pos pos l size : in_order pos l size = true -> pos <= size.
Proof.
  revert pos. induction l as [|[o w] l IH]; intros pos; simpl; intros; zbool; [done|].
  apply IH in H0. lia.
Qed.

Lemma in_order_inside {F} (off w : F -> Z) pos (l : list F) size f :
  in_order pos (map (fun f => (off f, w f)) l) size = true -> f ∈ l ->
  pos <= off f /\ 0 < w f /\ off f + w f <= size.
Proof.
  revert pos. induction l as [|g l IH]; intros pos; simpl; [by intros ? ?%not_elem_of_nil|].
  intros. zbool. pose proof (in_order_pos _ _ _ H1). apply elem_of_cons in H0 as [->|Hin]; [lia|].
  destruct (IH _ H1 Hin). lia.
Qed.

Lemma in_order_disjoint {F} (off w : F -> Z) pos (l : list F) size f g :
  in_order pos (map (fun f => (off f, w f)) l) size = true -> f ∈ l -> g ∈ l -> f <> g ->
  off f + w f <= off g \/ off g + w g <= off f.
Proof.
  revert pos. induction l as [|h l IH]; intros pos; simpl; [by intros ? ?%not_elem_of_nil|].
  intros. zbool.
  apply elem_of_cons in H0 as [->|Hf], H1 as [->|Hg]; [done|..].
  - left. eapply in_order_inside in Hg; [|done]. lia.
  - right. eapply in_order_inside in Hf; [|done]. lia.
  - by eapply IH.
Qed.

Section Laws.
Context {H : loader_h} {OK : loader_h_ok H} (E : Endian) {L : EndianLaws E} (P : pointer_size).

Lemma header_inside f : f ∈ header_fields P ->
  0 <= off_header P f /\ off_header P f + 4 <= sizeof_header P.
Proof.
  intros Hf. destruct (in_order_inside _ _ _ _ _ _ (header_in_order P) Hf). lia.
Qed.

Lemma command_inside f : 0 <= off_command f /\ off_command f + 4 <= sizeof_command.
Proof.
  assert (Hf : f ∈ command_fields) by (destruct f; unfold command_fields; in_list).
  destruct (in_order_inside _ _ _ _ _ _ command_in_order Hf). lia.
Qed.

Lemma segment_inside f : 0 <= off_segment P f /\ 0 < segment_width P f /\
  off_segment P f + segment_width P f <= sizeof_segment P.
Proof.
  assert (Hf : f ∈ segment_fields) by (destruct f; unfold segment_fields; in_list).
  apply (in_order_inside _ _ _ _ _ _ (segment_in_order P) Hf).
Qed.

Lemma section_inside f : 0 <= off_section P f /\ 0 < section_width P f /\
  off_section P f + section_width P f <= sizeof_section P.
Proof.
  assert (Hf : f ∈ section_fields) by (destruct f; unfold section_fields; in_list).
  apply (in_order_inside _ _ _ _ _ _ (section_in_order P) Hf).
Qed.

Lemma section_disjoint f g : f <> g ->
  off_section P f + section_width P f <= off_section P g \/
  off_section P g + section_width P g <= off_section P f.
Proof.
  assert (Hin : forall h, h ∈ section_fields) by (intros []; unfold section_fields; in_list).
  apply (in_order_disjoint _ _ _ _ _ _ _ (section_in_order P)); apply Hin.
Qed.

Lemma mh_get_eq f m this : mh_get E P f m this = get32 m (this + off_header P f).
Proof. by destruct f. Qed.

Lemma mh_set_eq f m this v : mh_set E P f m this v = set32 m (this + off_header P f) v.
Proof. by destruct f. Qed.

(** For every field of a Mach-O header that the pointer size has, the setter of
    [macho_header] makes the getter return the value written, leaves every other field of the
    header and every byte outside it unchanged, in both byte orders and pointer sizes. *)
Theorem macho_header_accessors (f g : header_field) (m m' : mem) (this v : Z) :
  f ∈ header_fields P -> g ∈ header_fields P -> in_u 32 v ->
  mh_set E P f m this v = Some m' ->
  mh_get E P f m' this = Some v /\
  (g <> f -> mh_get E P g m' this = mh_get E P g m this) /\
  unchanged_outside (within this (sizeof_header P)) m m'.
Proof.
  intros Hf Hg Hv. rewrite mh_set_eq. intros Hset. rewrite !mh_get_eq.
  pose proof (set32_frame _ _ _ _ Hset) as Hfr. split_and!.
  - by eapply get32_set32.
  - intros Hne. eapply get32_frame; [exact Hfr|]. unfold within.
    destruct (in_order_disjoint _ _ _ _ _ _ _ (header_in_order P) Hf Hg); [done|lia..].
  - apply (header_inside f) in Hf. eapply unchanged_outside_weaken; [|exact Hfr].
    unfold within. lia.
Qed.

Definition pointer_field (f : section_field) : bool :=
  match f with S_addr | S_size => true | _ => false end.

Lemma sect_get_eq f m this : section_numeric f = true ->
  sect_get E P f m this =
  if pointer_field f then getP E P m (this + off_section P f) else get32 m (this + off_section P f).
Proof. by destruct f. Qed.

Lemma sect_set_eq f m this v : section_numeric f = true ->
  sect_set E P f m this v =
  if pointer_field f then setP E P m (this + off_section P f) v
  else set32 m (this + off_section P f) v.
Proof. by destruct f. Qed.

Lemma section_width_eq f : section_numeric f = true ->
  section_width P f = if pointer_field f then Z.of_nat (ptr_bytes P) else 4.
Proof. by destruct f. Qed.

Lemma sect_set_frame f m this v m' : section_numeric f = true -> sect_set E P f m this v = Some m' ->
  unchanged_outside (within (this + off_section P f) (section_width P f)) m m'.
Proof.
  intros Hf. rewrite sect_set_eq, section_width_eq by done.
  destruct (pointer_field f); [apply (setP_frame E) | apply set32_frame].
Qed.

Lemma sect_get_frame f Q m m' this : section_numeric f = true -> unchanged_outside Q m m' ->
  (forall i, within (this + off_section P f) (section_width P f) i -> ~ Q i) ->
  sect_get E P f m' this = sect_get E P f m this.
Proof.
  intros Hf. rewrite !sect_get_eq, section_width_eq by done.
  destruct (pointer_field f); [apply (getP_frame E) | apply get32_frame].
Qed.

(** The same for every numeric field of a section header: 32-bit fields and the two
    pointer-sized ones read back what was written (truncated to the pointer size by the type
    of the field), and no other field nor any byte outside the section changes. *)
Theorem macho_section_accessors (f g : section_field) (m m' : mem) (this v : Z) :
  section_numeric f = true -> section_numeric g = true -> in_u (8 * section_width P f) v ->
  sect_set E P f m this v = Some m' ->
  sect_get E P f m' this = Some v /\
  (g <> f -> sect_get E P g m' this = sect_get E P g m this) /\
  unchanged_outside (within this (sizeof_section P)) m m'.
Proof.
  intros Hf Hg Hv Hset. pose proof (sect_set_frame _ _ _ _ _ Hf Hset) as Hfr. split_and!.
  - rewrite section_width_eq in Hv by done. rewrite sect_set_eq in Hset by done.
    rewrite sect_get_eq by done.
    destruct (pointer_field f); [by eapply (getP_setP E) | by eapply get32_set32].
  - intros Hne. eapply sect_get_frame; [done|exact Hfr|]. unfold within.
    destruct (section_disjoint f g); [done|lia..].
  - destruct (section_inside f). eapply unchanged_outside_weaken; [|exact Hfr].
    unfold within. lia.
Qed.

End Laws.

(** ** The layout <mach-o/loader.h> and <mach-o/fat.h> document *)

Definition apple_off_header (f : header_field) : Z :=
  match f with
  | H_magic => 0 | H_cputype => 4 | H_cpusubtype => 8 | H_filetype => 12
  | H_ncmds => 16 | H_sizeofcmds => 20 | H_flags => 24 | H_reserved => 28
  end.

Definition apple_off_segment (P : pointer_size) (f : segment_field) : Z :=
  let p := Z.of_nat (ptr_bytes P) in
  match f with
  | G_cmd => 0 | G_cmdsize => 4 | G_segname => 8
  | G_vmaddr => 24 | G_vmsize => 24 + p | G_fileoff => 24 + 2 * p | G_filesize => 24 + 3 * p
  | G_maxprot => 24 + 4 * p | G_initprot => 28 + 4 * p | G_nsects => 32 + 4 * p
  | G_flags => 36 + 4 * p
  end.

Definition apple_off_section (P : pointer_size) (f : section_field) : Z :=
  let p := Z.of_nat (ptr_bytes P) in
  match f with
  | S_sectname => 0 | S_segname => 16 | S_addr => 32 | S_size => 32 + p
  | S_offset => 32 + 2 * p | S_align => 36 + 2 * p | S_reloff => 40 + 2 * p
  | S_nreloc => 44 + 2 * p | S_flags => 48 + 2 * p
  | S_reserved1 => 52 + 2 * p | S_reserved2 => 56 + 2 * p
  end.

Definition apple_headers : loader_h := {|
  MH_MAGIC := 0xfeedface; MH_CIGAM := 0xcefaedfe;
  MH_MAGIC_64 := 0xfeedfacf; MH_CIGAM_64 := 0xcffaedfe;
  FAT_MAGIC := 0xcafebabe; FAT_CIGAM := 0xbebafeca;
  LC_SEGMENT := 0x1; LC_SEGMENT_64 := 0x19;
  SECTION_TYPE := 0xff;
  off_header := fun _ => apple_off_header;
  sizeof_header := fun P => match P with Pointer32 => 28 | Pointer64 => 32 end;
  off_command := fun f => match f with L_cmd => 0 | L_cmdsize => 4 end;
  sizeof_command := 8;
  off_segment := apple_off_segment;
  sizeof_segment := fun P => match P with Pointer32 => 56 | Pointer64 => 72 end;
  off_section := apple_off_section;
  sizeof_section := fun P => match P with Pointer32 => 68 | Pointer64 => 80 end;
  off_fat := fun f => match f with F_magic => 0 | F_nfat_arch => 4 end;
  sizeof_fat_header := 8;
  off_arch := fun f =>
    match f with A_cputype => 0 | A_cpusubtype => 4 | A_offset => 8 | A_size => 12 | A_align => 16 end;
  sizeof_fat_arch := 20
|}.

#[export] Instance apple_headers_ok : loader_h_ok apple_headers.
Proof.
  split; try (intros []; reflexivity); try reflexivity.
  - intros []; simpl; lia.
  - exists 8. split; [lia|reflexivity].
  - simpl. repeat constructor; unfold in_u; simpl; lia.
  - simpl. apply (bool_decide_unpack _). vm_compute. exact I.
Qed.

Lemma macho_header_accessors_witness :
  let m := replicate 40 Byte.x00 in
  exists m', mh_set (H := apple_headers) BigEndian Pointer64 H_ncmds m 4 7 = Some m' /\
    mh_get (H := apple_headers) BigEndian Pointer64 H_ncmds m' 4 = Some 7.
Proof.
  intros m. destruct (mh_set (H := apple_headers) BigEndian Pointer64 H_ncmds m 4 7) as [m'|] eqn:E;
    [|vm_compute in E; discriminate].
  exists m'. split; [reflexivity|].
  exact (proj1 (macho_header_accessors (H := apple_headers) BigEndian Pointer64 H_ncmds H_magic
    m m' 4 7 ltac:(in_list) ltac:(in_list) ltac:(unfold in_u; lia) E)).
Defined.

Lemma macho_section_accessors_witness :
  let m := replicate 90 Byte.x00 in
  exists m', sect_set (H := apple_headers) LittleEndian Pointer64 S_addr m 2 0x123456789a = Some m' /\
    sect_get (H := apple_headers) LittleEndian Pointer64 S_addr m' 2 = Some 0x123456789a.
Proof.
  intros m.
  destruct (sect_set (H := apple_headers) LittleEndian Pointer64 S_addr m 2 0x123456789a) as [m'|] eqn:E;
    [|vm_compute in E; discriminate].
  exists m'. split; [reflexivity|].
  exact (proj1 (macho_section_accessors (H := apple_headers) LittleEndian Pointer64 S_addr S_flags
    m m' 2 0x123456789a eq_refl eq_refl ltac:(unfold in_u; simpl; lia) E)).
Defined.
