(* ===== verification/MarkGC.v ===== *)
(** * markgc: the program

    objc4-756.2/markgc.cpp from line 359 on: [dosect], [doseg], the two
    [parse_macho], [parse_fat], [processFile] and [main].  The file is mapped
    into the buffer of the state; what the program prints is the list [out] of
    the state, newest first.  Every loop may run [fuel] times and reports
    [OutOfFuel] after that; [MarkGCSpec] shows how much is enough. *)

From Stdlib Require Import ZArith Lia Bool String.
From stdpp Require Import base list.
From coqutil Require Import Byte.
From S2P Require Import Prelude Memory CString ByteOrder Endian MachO.

Local Open Scope Z_scope.

(** What printf is called with. *)
Inductive message :=
| msg_file (filename : string)
| msg_open_failed (filename : string) (errno : Z)
| msg_fstat_failed (filename : string) (errno : Z)
| msg_mmap_failed (filename : string) (errno : Z)
| msg_section (sectname segname : list byte)
| msg_disabled_mod_init
| msg_disabled_mod_term
| msg_segment (segname : list byte) (nsects : Z)
| msg_not_macho (magic : Z)
| msg_too_small
| msg_too_many_archs
| msg_fat_archs (n : Z)
| msg_arch (cputype cpusubtype : Z)
| msg_badly_formed.

Record st := mkst { buf : mem; out : list message }.

(** ** The state monad of the program *)

Definition M (A : Type) : Type := st -> outcome (A * st).

Definition ret {A} (a : A) : M A := fun s => Ret (a, s).
Definition bind {A B} (c : M A) (k : A -> M B) : M B :=
  fun s => match c s with Ret (a, s') => k a s' | Fault => Fault | OutOfFuel => OutOfFuel end.
Definition timeout {A} : M A := fun _ => OutOfFuel.

(** A read through a pointer into the buffer, and a store. *)
Definition rdM {A} (f : mem -> outcome A) : M A :=
  fun s => match f (buf s) with Ret a => Ret (a, s) | Fault => Fault | OutOfFuel => OutOfFuel end.
Definition getM {A} (f : mem -> option A) : M A := rdM (fun m => of_option (f m)).
Definition putM (f : mem -> option mem) : M unit :=
  fun s => match f (buf s) with Some m => Ret (tt, mkst m (out s)) | None => Fault end.
Definition printf (msg : message) : M unit := fun s => Ret (tt, mkst (buf s) (msg :: out s)).

Declare Scope markgc_scope.
Delimit Scope markgc_scope with markgc.
Notation "'let*' x ':=' e 'in' k" := (bind e (fun x => k))
  (at level 10, x pattern, e at level 100, k at level 200) : markgc_scope.
Notation "e ;; k" := (bind e (fun _ => k)) (at level 100, right associativity) : markgc_scope.
Local Open Scope markgc_scope.

Definition debug : bool := true.
Definition debugf (c : M unit) : M unit := if debug then c else ret tt.

(** ** Names *)

Definition segnameEquals (lhs : Z) (rhs : list byte) : M bool :=
  rdM (fun m => strncmp_eq m lhs rhs 16).

Definition segnameStartsWith (segname : Z) (prefix : list byte) : M bool :=
  rdM (fun m => strncmp_eq m segname prefix (length prefix)).

Definition sectnameEquals (lhs : Z) (rhs : list byte) : M bool := segnameEquals lhs rhs.

Definition andM (a b : M bool) : M bool := let* x := a in if x then b else ret false.

Section Program.
Context {H : loader_h} (fuel : nat).

Section Slice.
Context (E : Endian) (P : pointer_size).

(** ** One section, one segment *)

Definition dosect (sect : Z) : M unit :=
  debugf (let* n := rdM (fun m => read_cstr 16 m (sect_sectname P sect)) in
          let* g := rdM (fun m => read_cstr 16 m (sect_segname P sect)) in
          printf (msg_section n g)) ;;
  let* c := andM (segnameStartsWith (sect_segname P sect) (lit "__DATA"))
                 (sectnameEquals (sect_sectname P sect) (lit "__mod_init_func")) in
  (if c then
     let* f := getM (fun m => sect_flags E P m sect) in
     putM (fun m => sect_set_flags E P m sect (Z.land f (u32 (Z.lnot SECTION_TYPE)))) ;;
     putM (fun m => sect_set_sectname P m sect (lit "__objc_init_func")) ;;
     debugf (printf msg_disabled_mod_init)
   else ret tt) ;;
  let* c := andM (segnameStartsWith (sect_segname P sect) (lit "__DATA"))
                 (sectnameEquals (sect_sectname P sect) (lit "__mod_term_func")) in
  if c then
    let* f := getM (fun m => sect_flags E P m sect) in
    putM (fun m => sect_set_flags E P m sect (Z.land f (u32 (Z.lnot SECTION_TYPE)))) ;;
    putM (fun m => sect_set_sectname P m sect (lit "__objc_term_func")) ;;
    debugf (printf msg_disabled_mod_term)
  else ret tt.

(** [for (uint32_t i = 0; i < seg->nsects(); ++i) dosect(start, &sect[i]);] the
    count is read again before every iteration. *)
Fixpoint doseg_loop (k : nat) (seg sect i : Z) : M unit :=
  match k with
  | O => timeout
  | S k' =>
      let* n := getM (fun m => seg_nsects E P m seg) in
      if i <? n then
        dosect (sect + i * sizeof_section P) ;;
        doseg_loop k' seg sect (u32 (i + 1))
      else ret tt
  end.

Definition doseg (seg : Z) : M unit :=
  debugf (let* g := rdM (fun m => read_cstr 16 m (seg_segname P seg)) in
          let* n := getM (fun m => seg_nsects E P m seg) in
          printf (msg_segment g n)) ;;
  let sect := seg + sizeof_segment P in
  doseg_loop fuel seg sect 0.

(** ** The load commands of a thin file *)

Fixpoint parse_macho_loop (k : nat) (mh cmds c : Z) : M bool :=
  match k with
  | O => timeout
  | S k' =>
      let* n := getM (fun m => mh_ncmds E P m mh) in
      if c <? n then
        let cmd := cmds in
        let* size := getM (fun m => lc_cmdsize E m cmd) in
        let cmds := cmds + size in
        let* ty := getM (fun m => lc_cmd E m cmd) in
        (if (ty =? LC_SEGMENT) || (ty =? LC_SEGMENT_64) then doseg cmd else ret tt) ;;
        parse_macho_loop k' mh cmds (u32 (c + 1))
      else ret true
  end.

Definition parse_macho_P (buffer : Z) : M bool :=
  parse_macho_loop fuel buffer (buffer + sizeof_header P) 0.

End Slice.

Definition parse_macho (buffer : Z) : M bool :=
  let* magic := getM (fun m => load_le 4 m buffer) in
  if magic =? MH_MAGIC_64 then parse_macho_P CurrentEndian Pointer64 buffer
  else if magic =? MH_MAGIC then parse_macho_P CurrentEndian Pointer32 buffer
  else if magic =? MH_CIGAM_64 then parse_macho_P OtherEndian Pointer64 buffer
  else if magic =? MH_CIGAM then parse_macho_P OtherEndian Pointer32 buffer
  else printf (msg_not_macho magic) ;; ret false.

(** ** Fat files *)

(** [size_t] has [size_bits] bits; the overflow builtins give the wrapped result
    and whether it differs from the true one. *)
Context (size_bits : Z).

Definition os_add_overflow (a b : Z) : bool * Z :=
  (2 ^ size_bits <=? a + b, wrap size_bits (a + b)).
Definition os_mul_overflow (a b : Z) : bool * Z :=
  (2 ^ size_bits <=? a * b, wrap size_bits (a * b)).
Definition os_mul_and_add_overflow (a x b : Z) : bool * Z :=
  let (s, tmp) := os_mul_overflow a x in
  let (t, res) := os_add_overflow b tmp in
  (s || t, res).

Definition OSSwapBigToHostInt32 (x : Z) : Z := CFSwapInt32BigToHost false x.

Definition arch_addr (i : Z) : Z := sizeof_fat_header + i * sizeof_fat_arch.

Definition arch_get (f : arch_field) (i : Z) : M Z :=
  let* x := getM (fun m => load_le 4 m (arch_addr i + off_arch f)) in
  ret (OSSwapBigToHostInt32 x).

Fixpoint parse_fat_loop (k : nat) (size fat_arch_size fat_nfat_arch i : Z) : M bool :=
  match k with
  | O => timeout
  | S k' =>
      if i <? fat_nfat_arch then
        let* arch_cputype := arch_get A_cputype i in
        let* arch_cpusubtype := arch_get A_cpusubtype i in
        let* arch_offset := arch_get A_offset i in
        let* arch_size := arch_get A_size i in
        debugf (printf (msg_arch arch_cputype arch_cpusubtype)) ;;
        (* Check that slice data is after all fat headers and archs *)
        if arch_offset <? fat_arch_size then printf msg_badly_formed ;; ret false
        (* Check that the slice ends before the file does *)
        else if size <? arch_offset then printf msg_badly_formed ;; ret false
        else if size <? arch_size then printf msg_badly_formed ;; ret false
        else if size - arch_size <? arch_offset then printf msg_badly_formed ;; ret false
        else
          let* ok := parse_macho arch_offset in
          if negb ok then ret false
          else parse_fat_loop k' size fat_arch_size fat_nfat_arch (u32 (i + 1))
      else ret true
  end.

Definition CPU_TYPE_ARM64 : Z := Z.lor 12 0x01000000.

Definition parse_fat (size : Z) : M bool :=
  if size <? 4 then printf msg_too_small ;; ret false else
  let* magic := getM (fun m => load_le 4 m 0) in
  if negb (magic =? FAT_MAGIC) && negb (magic =? FAT_CIGAM) then
    parse_macho 0
  else if size <? sizeof_fat_header then printf msg_too_small ;; ret false else
  let* n := getM (fun m => load_le 4 m (off_fat F_nfat_arch)) in
  let fat_nfat_arch := OSSwapBigToHostInt32 n in
  let (ovf, fat_arch_size) :=
    os_mul_and_add_overflow fat_nfat_arch sizeof_fat_arch sizeof_fat_header in
  if ovf then printf msg_too_many_archs ;; ret false
  else if size <? fat_arch_size then printf msg_too_small ;; ret false else
  (* Special case hidden CPU_TYPE_ARM64 *)
  let (ovf, fat_arch_plus_one_size) := os_add_overflow fat_arch_size sizeof_fat_arch in
  if ovf then printf msg_too_many_archs ;; ret false else
  let* fat_nfat_arch :=
    (if (fat_arch_plus_one_size <=? size) && (0 <? fat_nfat_arch) then
       let* t := arch_get A_cputype fat_nfat_arch in
       ret (if t =? CPU_TYPE_ARM64 then u32 (fat_nfat_arch + 1) else fat_nfat_arch)
     else ret fat_nfat_arch) in
  (* End special case hidden CPU_TYPE_ARM64 *)
  debugf (printf (msg_fat_archs fat_nfat_arch)) ;;
  parse_fat_loop fuel size fat_arch_size fat_nfat_arch 0.

(** ** Files

    The system calls are parameters; [W] is the state of the system they act
    on.  [sys_munmap] receives the bytes of the shared mapping. *)

Record syscalls (W : Type) := mk_syscalls {
  sys_open : string -> W -> Z * W;
  sys_fstat : Z -> W -> option Z * W;
  sys_mmap : Z -> Z -> W -> option mem * W;
  sys_munmap : Z -> mem -> W -> W;
  sys_close : Z -> W -> W;
  sys_errno : W -> Z
}.
Arguments sys_open {W}. Arguments sys_fstat {W}. Arguments sys_mmap {W}.
Arguments sys_munmap {W}. Arguments sys_close {W}. Arguments sys_errno {W}.

Context {W : Type} (sys : syscalls W).

Definition processFile (filename : string) (w : W) (o : list message)
  : outcome (bool * W * list message) :=
  let o := if debug then msg_file filename :: o else o in
  let (fd, w) := sys_open sys filename w in
  if fd <? 0 then Ret (false, w, msg_open_failed filename (sys_errno sys w) :: o) else
  let (st_size, w) := sys_fstat sys fd w in
  match st_size with
  | None => Ret (false, w, msg_fstat_failed filename (sys_errno sys w) :: o)
  | Some st_size =>
      let size := wrap size_bits st_size in
      let (buffer, w) := sys_mmap sys fd size w in
      match buffer with
      | None => Ret (false, w, msg_mmap_failed filename (sys_errno sys w) :: o)
      | Some buffer =>
          let! (result, s) := parse_fat size (mkst buffer o) in
          Ret (result, sys_close sys fd (sys_munmap sys fd (buf s) w), out s)
      end
  end.

(** [main] over [argv[1..]]; the result is the exit status. *)
Fixpoint main (argv : list string) (w : W) (o : list message)
  : outcome (Z * W * list message) :=
  match argv with
  | [] => Ret (0, w, o)
  | filename :: argv' =>
      let! (ok, w', o') := processFile filename w o in
      if negb ok then Ret (1, w', o') else main argv' w' o'
  end.

End Program.

Arguments sys_open {W}. Arguments sys_fstat {W}. Arguments sys_mmap {W}.
Arguments sys_munmap {W}. Arguments sys_close {W}. Arguments sys_errno {W}.
