(* ===== verification/MarkGCSpec.v ===== *)
(** * What markgc does

    The abstract view of a Mach-O slice is the list of its section headers;
    markgc is specified as stripping each of them.  This file proves that the
    program of [MarkGC] implements that specification on every well-formed
    slice, and what it guarantees on arbitrary input. *)

From Stdlib Require Import ZArith Lia Bool String.
From stdpp Require Import base list.
From coqutil Require Import Byte.
From S2P Require Import Prelude Memory CString ByteOrder Endian MachO MarkGC.

Local Open Scope Z_scope.
Local Open Scope markgc_scope.

(** ** Running the monad *)

Lemma bind_ret {A B} (c : M A) (k : A -> M B) s a s' : c s = Ret (a, s') -> bind c k s = k a s'.
Proof. intros H. unfold bind. by rewrite H. Qed.

Lemma bind_inv {A B} (c : M A) (k : A -> M B) s b s'' :
  bind c k s = Ret (b, s'') -> exists a s', c s = Ret (a, s') /\ k a s' = Ret (b, s'').
Proof. unfold bind. destruct (c s) as [[a s']| |]; [eauto|discriminate|discriminate]. Qed.

Lemma bind_ret_l {A B} (a : A) (k : A -> M B) : bind (ret a) k = k a.
Proof. reflexivity. Qed.

Lemma bind_assoc {A B C} (c : M A) (k : A -> M B) (h : B -> M C) s :
  bind (bind c k) h s = bind c (fun a => bind (k a) h) s.
Proof. unfold bind. by destruct (c s) as [[a s']| |]. Qed.

Lemma rdM_ret {A} (f : mem -> outcome A) s a : f (buf s) = Ret a -> rdM f s = Ret (a, s).
Proof. intros H. unfold rdM. by rewrite H. Qed.

Lemma getM_ret {A} (f : mem -> option A) s a : f (buf s) = Some a -> getM f s = Ret (a, s).
Proof. intros H. unfold getM. apply rdM_ret. by rewrite H. Qed.

Lemma putM_ret (f : mem -> option mem) s m : f (buf s) = Some m -> putM f s = Ret (tt, mkst m (out s)).
Proof. intros H. unfold putM. by rewrite H. Qed.

(** One step of a run whose first action is known to return. *)
Ltac run_step lem := erewrite bind_ret; [|lem]; cbv beta.

(** ** Relations every action keeps

    [respects R c]: whenever [c] returns, the buffers before and after are
    related by [R]. *)

Definition respects (R : mem -> mem -> Prop) {A} (c : M A) : Prop :=
  forall s a s', c s = Ret (a, s') -> R (buf s) (buf s').

Section Respects.
Context (R : mem -> mem -> Prop) `{HR : !PreOrder R}.

Lemma respects_ret {A} (a : A) : respects R (ret a).
Proof. intros s ? s' [= <- <-]. reflexivity. Qed.

Lemma respects_bind {A B} (c : M A) (k : A -> M B) :
  respects R c -> (forall a, respects R (k a)) -> respects R (bind c k).
Proof.
  intros Hc Hk s b s'' (a & s' & H1 & H2)%bind_inv.
  etransitivity; [by eapply Hc | by eapply Hk].
Qed.

Lemma respects_rdM {A} (f : mem -> outcome A) : respects R (rdM f).
Proof. intros s a s'. unfold rdM. destruct (f (buf s)); intros [= <- <-]. reflexivity. Qed.

Lemma respects_getM {A} (f : mem -> option A) : respects R (getM f).
Proof. apply respects_rdM. Qed.

Lemma respects_putM (f : mem -> option mem) :
  (forall m m', f m = Some m' -> R m m') -> respects R (putM f).
Proof.
  intros Hf s a s'. unfold putM. destruct (f (buf s)) eqn:E; intros [= <- <-]. by apply Hf.
Qed.

Lemma respects_printf msg : respects R (printf msg).
Proof. intros s a s' [= <- <-]. simpl. reflexivity. Qed.

Lemma respects_timeout {A} : respects R (@timeout A).
Proof. intros s a s'. discriminate. Qed.

Lemma respects_andM a b : respects R a -> respects R b -> respects R (andM a b).
Proof.
  intros Ha Hb. apply respects_bind; [done|]. intros []; [done|apply respects_ret].
Qed.

End Respects.

Create HintDb respects.
#[export] Hint Resolve respects_ret respects_bind respects_rdM respects_getM respects_printf
  respects_timeout respects_andM : respects.

(** ** The abstract view *)

Record section_view := mk_view { sv_sectname : list byte; sv_segname : list byte; sv_flags : Z }.

Definition in_data (v : section_view) : bool :=
  bool_decide (cstr (take 6 (sv_segname v)) = lit "__DATA").
Definition is_mod_init (v : section_view) : bool :=
  in_data v && bool_decide (cstr (sv_sectname v) = lit "__mod_init_func").
Definition is_mod_term (v : section_view) : bool :=
  in_data v && bool_decide (cstr (sv_sectname v) = lit "__mod_term_func").

Section Spec.
Context {H : loader_h} {OK : loader_h_ok H} (E : Endian) {L : EndianLaws E} (P : pointer_size).

Definition view_section (m : mem) (a : Z) : option section_view :=
  match load 16 m (sect_sectname P a), load 16 m (sect_segname P a), sect_flags E P m a with
  | Some n, Some g, Some f => Some (mk_view n g f)
  | _, _, _ => None
  end.

(** The section type becomes S_REGULAR and the name one dyld does not know. *)
Definition disable (v : section_view) (name : list byte) : section_view :=
  mk_view (strncpy_bytes name 16) (sv_segname v) (Z.land (sv_flags v) (u32 (Z.lnot SECTION_TYPE))).

Definition strip_section (v : section_view) : section_view :=
  if is_mod_init v then disable v (lit "__objc_init_func")
  else if is_mod_term v then disable v (lit "__objc_term_func")
  else v.

(** The bytes of a section header that may change. *)
Definition touched (a i : Z) : Prop :=
  within (sect_sectname P a) 16 i \/ within (a + off_section P S_flags) 4 i.

Lemma touched_within a i : touched a i -> within a (sizeof_section P) i.
Proof.
  unfold touched, within, sect_sectname.
  pose proof (section_inside P S_sectname) as Hn. pose proof (section_inside P S_flags) as Hf.
  simpl in *. lia.
Qed.

Lemma view_section_bounds m a : 0 <= a -> a + sizeof_section P <= msize m ->
  is_Some (view_section m a).
Proof.
  intros Ha Hs. unfold view_section, sect_sectname, sect_segname, sect_flags.
  pose proof (section_inside P S_sectname) as Hn. pose proof (section_inside P S_segname) as Hg.
  pose proof (section_inside P S_flags) as Hf. simpl in Hn, Hg, Hf.
  destruct (load_is_Some 16 m (a + off_section P S_sectname)) as [? ->]; [lia..|].
  destruct (load_is_Some 16 m (a + off_section P S_segname)) as [? ->]; [lia..|].
  destruct (get32_defined m (a + off_section P S_flags)) as [? ->]; [lia..|]. eauto.
Qed.

Lemma view_section_frame Q m m' a : unchanged_outside Q m m' ->
  (forall i, within a (sizeof_section P) i -> ~ Q i) -> view_section m' a = view_section m a.
Proof.
  intros Hu HQ. unfold view_section, sect_sectname, sect_segname, sect_flags.
  pose proof (section_inside P S_sectname) as Hn. pose proof (section_inside P S_segname) as Hg.
  pose proof (section_inside P S_flags) as Hf. simpl in Hn, Hg, Hf. unfold within in HQ.
  rewrite (load_frame Q 16 m m' (a + off_section P S_sectname) Hu)
    by (unfold within; intros; apply HQ; lia).
  rewrite (load_frame Q 16 m m' (a + off_section P S_segname) Hu)
    by (unfold within; intros; apply HQ; lia).
  by rewrite (get32_frame Q m m' (a + off_section P S_flags) Hu)
    by (unfold within; intros; apply HQ; lia).
Qed.

Lemma lnot_type_in_u f : in_u 32 f -> in_u 32 (Z.land f (u32 (Z.lnot SECTION_TYPE))).
Proof.
  intros Hf. apply in_u_of_bits; [lia| |].
  - apply Z.land_nonneg. unfold in_u in Hf. lia.
  - intros i Hi. by rewrite Z.land_spec, (testbit_in_u 32 f) by (done || lia).
Qed.

(** *** Disabling one section: the two stores of either branch *)

Lemma disable_stores m o a v name msg :
  view_section m a = Some v ->
  exists m',
    (let* f := getM (fun m => sect_flags E P m a) in
     putM (fun m => sect_set_flags E P m a (Z.land f (u32 (Z.lnot SECTION_TYPE)))) ;;
     putM (fun m => sect_set_sectname P m a name) ;;
     debugf (printf msg)) (mkst m o) = Ret (tt, mkst m' (msg :: o)) /\
    view_section m' a = Some (disable v name) /\
    unchanged_outside (touched a) m m'.
Proof.
  unfold view_section at 1. intros Hv.
  destruct (load 16 m (sect_sectname P a)) as [n|] eqn:En; [|discriminate].
  destruct (load 16 m (sect_segname P a)) as [g|] eqn:Eg; [|discriminate].
  destruct (sect_flags E P m a) as [f|] eqn:Ef; [|discriminate]. injection Hv as <-.
  assert (Hu : in_u 32 (Z.land f (u32 (Z.lnot SECTION_TYPE)))).
  { apply lnot_type_in_u. by apply get32_in_u in Ef. }
  pose proof (get32_bounds _ _ _ Ef) as Hb.
  destruct (set32_defined m (a + off_section P S_flags) (Z.land f (u32 (Z.lnot SECTION_TYPE))))
    as [m1 Hm1]; [lia..|].
  pose proof (set32_frame _ _ _ _ Hm1) as Hf1.
  apply (load_bounds 16) in En as Hnb; [|lia]. destruct Hf1 as [Hs1 Hr1].
  destruct (store_is_Some m1 (sect_sectname P a) (strncpy_bytes name 16)) as [m2 Hm2];
    [lia|rewrite length_strncpy_bytes; lia|].
  pose proof (store_frame _ _ _ _ Hm2) as Hf2. rewrite length_strncpy_bytes in Hf2.
  exists m2. split_and!.
  - run_step ltac:(by apply getM_ret). run_step ltac:(by apply putM_ret).
    run_step ltac:(by apply putM_ret). done.
  - unfold view_section.
    pose proof (load_store_same _ _ _ _ Hm2) as Hl. rewrite length_strncpy_bytes in Hl.
    rewrite Hl. unfold sect_segname, sect_sectname, sect_flags in *.
    pose proof (section_disjoint P S_sectname S_segname ltac:(done)) as D1.
    pose proof (section_disjoint P S_sectname S_flags ltac:(done)) as D2.
    pose proof (section_disjoint P S_segname S_flags ltac:(done)) as D3. simpl in D1, D2, D3.
    rewrite (load_frame _ 16 m1 m2 _ Hf2) by (unfold within; lia).
    rewrite (load_frame _ 16 m m1 _ (conj Hs1 Hr1)) by (unfold within; lia). rewrite Eg.
    rewrite (get32_frame _ m1 m2 _ Hf2) by (unfold within; lia).
    by rewrite (get32_set32 _ _ _ _ Hu Hm1).
  - etransitivity.
    + eapply unchanged_outside_weaken; [|exact (conj Hs1 Hr1)]. unfold touched. tauto.
    + eapply unchanged_outside_weaken; [|exact Hf2]. unfold touched. tauto.
Qed.

(** The test both branches of [dosect] make. *)
Lemma section_test m o a v name :
  view_section m a = Some v -> NUL ∉ name -> (length name <= 16)%nat ->
  andM (segnameStartsWith (sect_segname P a) (lit "__DATA"))
       (sectnameEquals (sect_sectname P a) name) (mkst m o)
  = Ret (in_data v && bool_decide (cstr (sv_sectname v) = name), mkst m o).
Proof.
  unfold view_section. intros Hv Hname Hlen.
  destruct (load 16 m (sect_sectname P a)) as [n|] eqn:En; [|discriminate].
  destruct (load 16 m (sect_segname P a)) as [g|] eqn:Eg; [|discriminate].
  destruct (sect_flags E P m a) as [f|] eqn:Ef; [|discriminate]. injection Hv as <-.
  assert (Hd : NUL ∉ lit "__DATA") by (apply (bool_decide_unpack _); vm_compute; exact I).
  apply (load_take 6) in Eg; [|lia].
  unfold andM. run_step ltac:(apply rdM_ret, (strncmp_eq_load _ _ _ _ _ Eg Hd)).
  unfold in_data. change (take 6 (lit "__DATA")) with (lit "__DATA").
  cbn [sv_segname sv_sectname]. destruct (bool_decide _); [|done].
  apply rdM_ret. simpl buf. rewrite (strncmp_eq_load _ _ _ _ _ En) by done.
  by rewrite take_ge by lia.
Qed.

Lemma not_nul_init : (NUL ∉ lit "__mod_init_func") /\ (NUL ∉ lit "__mod_term_func").
Proof. split; apply (bool_decide_unpack _); vm_compute; exact I. Qed.

(** A disabled section matches neither pattern any more. *)
Lemma disabled_no_match v name :
  NUL ∉ name -> (length name <= 16)%nat ->
  name <> lit "__mod_init_func" -> name <> lit "__mod_term_func" ->
  is_mod_init (disable v name) = false /\ is_mod_term (disable v name) = false.
Proof.
  intros Hn Hl Hi Ht. unfold is_mod_init, is_mod_term, disable. cbn [sv_sectname].
  rewrite cstr_strncpy by done. rewrite !bool_decide_eq_false_2 by done.
  by rewrite !andb_false_r.
Qed.

Lemma init_name_ok : (NUL ∉ lit "__objc_init_func") /\ lit "__objc_init_func" <> lit "__mod_init_func" /\
  lit "__objc_init_func" <> lit "__mod_term_func".
Proof. split_and!; apply (bool_decide_unpack _); vm_compute; exact I. Qed.

Lemma term_name_ok : (NUL ∉ lit "__objc_term_func") /\ lit "__objc_term_func" <> lit "__mod_init_func" /\
  lit "__objc_term_func" <> lit "__mod_term_func".
Proof. split_and!; apply (bool_decide_unpack _); vm_compute; exact I. Qed.

Lemma strip_no_match v :
  is_mod_init (strip_section v) = false /\ is_mod_term (strip_section v) = false.
Proof.
  unfold strip_section. destruct (is_mod_init v) eqn:Ei; [|destruct (is_mod_term v) eqn:Et; [|done]].
  - destruct init_name_ok as (? & ? & ?). apply disabled_no_match; [done|simpl; lia|done..].
  - destruct term_name_ok as (? & ? & ?). apply disabled_no_match; [done|simpl; lia|done..].
Qed.

(** What one call of [dosect] achieves on a section header it can read. *)
Lemma dosect_ok m o a v :
  view_section m a = Some v ->
  exists m' o', dosect E P a (mkst m o) = Ret (tt, mkst m' o') /\
    view_section m' a = Some (strip_section v) /\
    unchanged_outside (touched a) m m' /\
    (is_mod_init v = false -> is_mod_term v = false -> m' = m).
Proof.
  intros Hv. unfold dosect. pose proof Hv as Hv0. unfold view_section in Hv0.
  destruct (load 16 m (sect_sectname P a)) as [n|] eqn:En; [|discriminate].
  destruct (load 16 m (sect_segname P a)) as [g|] eqn:Eg; [|discriminate]. clear Hv0.
  destruct not_nul_init as [Hni Hnt].
  assert (Hdbg : debugf (let* n := rdM (fun m => read_cstr 16 m (sect_sectname P a)) in
      let* g := rdM (fun m => read_cstr 16 m (sect_segname P a)) in printf (msg_section n g))
      (mkst m o) = Ret (tt, mkst m (msg_section (cstr n) (cstr g) :: o))).
  { unfold debugf, debug. run_step ltac:(apply rdM_ret, read_cstr_load, En).
    run_step ltac:(apply rdM_ret, read_cstr_load, Eg). done. }
  run_step ltac:(exact Hdbg).
  run_step ltac:(apply section_test; [exact Hv|exact Hni|simpl; lia]).
  fold (is_mod_init v). unfold strip_section. destruct (is_mod_init v) eqn:Ei.
  - destruct (disable_stores m (msg_section (cstr n) (cstr g) :: o) a v (lit "__objc_init_func")
      msg_disabled_mod_init Hv) as (m1 & Hrun & Hv1 & Hu1).
    run_step ltac:(exact Hrun).
    run_step ltac:(apply section_test; [exact Hv1|exact Hnt|simpl; lia]).
    destruct init_name_ok as (? & ? & ?).
    destruct (disabled_no_match v (lit "__objc_init_func")) as [_ Ht]; [done|simpl; lia|done..|].
    unfold is_mod_term in Ht. rewrite Ht. eexists _, _. split_and!; [reflexivity|done..].
  - run_step ltac:(reflexivity).
    run_step ltac:(apply section_test; [exact Hv|exact Hnt|simpl; lia]).
    fold (is_mod_term v). destruct (is_mod_term v) eqn:Et.
    + destruct (disable_stores m (msg_section (cstr n) (cstr g) :: o) a v (lit "__objc_term_func")
        msg_disabled_mod_term Hv) as (m1 & Hrun & Hv1 & Hu1).
      eexists _, _. split_and!; [exact Hrun|done..].
    + eexists _, _. split_and!; [reflexivity|done|reflexivity|done].
Qed.

(** *** Several sections

    [strips lo hi m m' l]: the sections of [l], all inside [lo, hi), were
    stripped and nothing else changed; if none of them matched, nothing did. *)

Definition strips (lo hi : Z) (m m' : mem) (l : list Z) : Prop :=
  (forall a, a ∈ l -> lo <= a /\ a + sizeof_section P <= hi) /\
  (forall a, a ∈ l -> exists v, view_section m a = Some v /\
                           view_section m' a = Some (strip_section v)) /\
  unchanged_outside (fun i => exists a, a ∈ l /\ touched a i) m m' /\
  ((forall a v, a ∈ l -> view_section m a = Some v -> is_mod_init v = false /\ is_mod_term v = false) ->
   m' = m).

Lemma strips_range lo hi m m' l : strips lo hi m m' l ->
  unchanged_outside (fun i => lo <= i < hi) m m'.
Proof.
  intros (Hr & _ & Hu & _). eapply unchanged_outside_weaken; [|exact Hu].
  intros i (a & Ha & Ht). apply touched_within in Ht. apply Hr in Ha. unfold within in Ht. lia.
Qed.

Lemma strips_nil lo hi m : strips lo hi m m [].
Proof.
  split_and!; [by intros ? ?%not_elem_of_nil..|reflexivity|done].
Qed.

Lemma strips_app lo mid hi m m1 m2 l1 l2 :
  lo <= mid -> mid <= hi -> strips lo mid m m1 l1 -> strips mid hi m1 m2 l2 ->
  strips lo hi m m2 (l1 ++ l2).
Proof.
  intros Hlo Hhi S1 S2. pose proof (strips_range _ _ _ _ _ S1) as U1.
  pose proof (strips_range _ _ _ _ _ S2) as U2.
  destruct S1 as (R1 & V1 & F1 & N1), S2 as (R2 & V2 & F2 & N2).
  assert (E1 : forall a, a ∈ l1 -> view_section m2 a = view_section m1 a).
  { intros a Ha. apply R1 in Ha. eapply view_section_frame; [exact U2|]. unfold within. lia. }
  assert (E2 : forall a, a ∈ l2 -> view_section m1 a = view_section m a).
  { intros a Ha. apply R2 in Ha. eapply view_section_frame; [exact U1|]. unfold within. lia. }
  split_and!.
  - intros a Ha. apply elem_of_app in Ha as [Ha|Ha]; [apply R1 in Ha|apply R2 in Ha]; lia.
  - intros a Ha. apply elem_of_app in Ha as [Ha|Ha].
    + rewrite E1 by done. by apply V1.
    + rewrite <- E2 by done. by apply V2.
  - etransitivity; (eapply unchanged_outside_weaken; [|first [exact F1|exact F2]]); simpl;
      intros i (a & Ha & Ht); exists a; rewrite elem_of_app; tauto.
  - intros Hno. assert (m1 = m) as ->.
    { apply N1. intros a v Ha. apply Hno. rewrite elem_of_app. tauto. }
    apply N2. intros a v Ha. apply Hno. rewrite elem_of_app. tauto.
Qed.

Lemma strips_single m m' a v :
  view_section m a = Some v -> view_section m' a = Some (strip_section v) ->
  unchanged_outside (touched a) m m' ->
  (is_mod_init v = false -> is_mod_term v = false -> m' = m) ->
  strips a (a + sizeof_section P) m m' [a].
Proof.
  intros Hv Hv' Hu Hn. split_and!.
  - intros b ->%list_elem_of_singleton. lia.
  - intros b ->%list_elem_of_singleton. eauto.
  - eapply unchanged_outside_weaken; [|exact Hu]. intros i Hi. exists a.
    by rewrite list_elem_of_singleton.
  - intros Hno. destruct (Hno a v); [by rewrite list_elem_of_singleton|done|]. by apply Hn.
Qed.

(** The addresses of [n] consecutive sections. *)
Fixpoint sect_addrs (n : nat) (a : Z) : list Z :=
  match n with
  | O => []
  | S n' => a :: sect_addrs n' (a + sizeof_section P)
  end.

Lemma sizeof_section_pos : 0 < sizeof_section P.
Proof. pose proof (section_inside P S_sectname). simpl in *. lia. Qed.

Lemma seg_nsects_frame Q m m' seg : unchanged_outside Q m m' ->
  (forall i, Q i -> seg + sizeof_segment P <= i) ->
  seg_nsects E P m' seg = seg_nsects E P m seg.
Proof.
  intros Hu HQ. eapply get32_frame; [exact Hu|]. pose proof (segment_inside P G_nsects).
  unfold within. intros i Hi Hq%HQ. simpl in *. lia.
Qed.

Lemma doseg_loop_ok k seg sect i n (j : nat) m o :
  seg_nsects E P m seg = Some n -> 0 <= i -> n = i + Z.of_nat j -> (j < k)%nat ->
  seg + sizeof_segment P <= sect -> 0 <= sect ->
  sect + n * sizeof_section P <= msize m ->
  exists m' o', doseg_loop E P k seg sect i (mkst m o) = Ret (tt, mkst m' o') /\
    strips (sect + i * sizeof_section P) (sect + n * sizeof_section P) m m'
      (sect_addrs j (sect + i * sizeof_section P)).
Proof.
  revert k i m o. induction j as [|j IH]; intros k i m o Hn Hi Hnj Hk Hseg Hsect Hb;
    (destruct k as [|k]; [lia|]); cbn [doseg_loop];
    (run_step ltac:(by apply getM_ret)); pose proof sizeof_section_pos as Hpos.
  - destruct (i <? n) eqn:Ein; zbool; [lia|].
    eexists _, _. split; [reflexivity|]. replace n with i by lia. apply strips_nil.
  - destruct (i <? n) eqn:Ein; zbool; [|lia].
    destruct (view_section_bounds m (sect + i * sizeof_section P)) as [v Hv]; [nia..|].
    destruct (dosect_ok m o _ v Hv) as (m1 & o1 & Hrun & Hv1 & Hu1 & Hn1).
    run_step ltac:(exact Hrun).
    pose proof (strips_single _ _ _ _ Hv Hv1 Hu1 Hn1) as S1.
    pose proof (strips_range _ _ _ _ _ S1) as U1.
    assert (Hn' : seg_nsects E P m1 seg = Some n).
    { rewrite <- Hn. eapply seg_nsects_frame; [exact U1|]. simpl. nia. }
    pose proof (get32_in_u _ _ _ Hn) as Hu32. unfold in_u in Hu32.
    rewrite wrap_id by (unfold in_u; lia). destruct U1 as [Hs1 _].
    destruct (IH k (i + 1) m1 o1) as (m2 & o2 & Hrun2 & S2); [done|lia|lia|lia|done|done|by rewrite Hs1|].
    exists m2, o2. split; [exact Hrun2|]. cbn [sect_addrs].
    replace (sect + (i + 1) * sizeof_section P) with
      (sect + i * sizeof_section P + sizeof_section P) in S2 by lia.
    eapply (strips_app _ (sect + i * sizeof_section P + sizeof_section P) _ _ _ _ [_]);
      [nia|nia|exact S1|exact S2].
Qed.

Lemma doseg_ok fuel seg n m o :
  seg_nsects E P m seg = Some n -> n < Z.of_nat fuel -> 0 <= seg ->
  seg + sizeof_segment P + n * sizeof_section P <= msize m ->
  exists m' o', doseg fuel E P seg (mkst m o) = Ret (tt, mkst m' o') /\
    strips (seg + sizeof_segment P) (seg + sizeof_segment P + n * sizeof_section P) m m'
      (sect_addrs (Z.to_nat n) (seg + sizeof_segment P)).
Proof.
  intros Hn Hf Hseg Hb. pose proof (get32_in_u _ _ _ Hn) as Hu. unfold in_u in Hu.
  pose proof sizeof_section_pos as Hpos. pose proof (segment_inside P G_segname) as Hg. simpl in Hg.
  destruct (load_is_Some 16 m (seg_segname P seg)) as [g Hgs]; [unfold seg_segname; nia..|].
  unfold doseg, debugf, debug.
  run_step ltac:(run_step ltac:(apply rdM_ret, read_cstr_load, Hgs);
                 run_step ltac:(by apply getM_ret); reflexivity).
  destruct (doseg_loop_ok fuel seg (seg + sizeof_segment P) 0 n (Z.to_nat n) m
    (msg_segment (cstr g) n :: o)) as (m' & o' & Hrun & Hs); [done|lia..|].
  rewrite Z.mul_0_l, Z.add_0_r in Hs. eauto.
Qed.

(** *** A whole slice

    [slice_sections k m hi hi cmds]: the addresses of the section headers in the [k]
    load commands that start at [cmds], in file order, or [None] when a command
    is malformed: shorter than its own header, running past the end [hi] of the
    slice, or a segment whose sections do not fit in it. *)

Definition is_segment (ty : Z) : bool := (ty =? LC_SEGMENT) || (ty =? LC_SEGMENT_64).

Fixpoint slice_sections (k : nat) (m : mem) (hi cmds : Z) : option (list Z) :=
  match k with
  | O => Some []
  | S k' =>
      match lc_cmdsize E m cmds, lc_cmd E m cmds with
      | Some size, Some ty =>
          if (sizeof_command <=? size) && (cmds + size <=? hi) then
            match slice_sections k' m hi (cmds + size) with
            | Some rest =>
                if is_segment ty then
                  match seg_nsects E P m cmds with
                  | Some n =>
                      if sizeof_segment P + n * sizeof_section P <=? size
                      then Some (sect_addrs (Z.to_nat n) (cmds + sizeof_segment P) ++ rest)
                      else None
                  | None => None
                  end
                else Some rest
            | None => None
            end
          else None
      | _, _ => None
      end
  end.

Definition macho_sections (m : mem) (hi buffer : Z) : option (list Z) :=
  if (0 <=? buffer) && (buffer + sizeof_header P <=? hi) && (hi <=? msize m) then
    match mh_ncmds E P m buffer with
    | Some n => slice_sections (Z.to_nat n) m hi (buffer + sizeof_header P)
    | None => None
    end
  else None.

(** What a successful walk says about its first command. *)
Record command_ok (m : mem) (hi cmds size ty : Z) (own : list Z) : Prop := {
  cmd_size : lc_cmdsize E m cmds = Some size;
  cmd_type : lc_cmd E m cmds = Some ty;
  cmd_long : sizeof_command <= size;
  cmd_fits : cmds + size <= hi;
  cmd_sections :
    if is_segment ty then
      exists n, seg_nsects E P m cmds = Some n /\ in_u 32 n /\
        sizeof_segment P + n * sizeof_section P <= size /\
        own = sect_addrs (Z.to_nat n) (cmds + sizeof_segment P)
    else own = []
}.

Lemma slice_sections_S k m hi cmds l : slice_sections (S k) m hi cmds = Some l <->
  exists size ty own rest, command_ok m hi cmds size ty own /\
    slice_sections k m hi (cmds + size) = Some rest /\ l = own ++ rest.
Proof.
  cbn [slice_sections]. split.
  - destruct (lc_cmdsize E m cmds) as [size|] eqn:Es; [|discriminate].
    destruct (lc_cmd E m cmds) as [ty|] eqn:Et; [|discriminate].
    destruct (_ && _) eqn:Eb; [|discriminate]. zbool.
    destruct (slice_sections k m hi (cmds + size)) as [rest|] eqn:Er; [|discriminate].
    destruct (is_segment ty) eqn:Eg.
    + destruct (seg_nsects E P m cmds) as [n|] eqn:En; [|discriminate].
      destruct (_ <=? size) eqn:Ef; [|discriminate]. zbool. intros [= <-].
      eexists size, ty, _, rest. split_and!; [|done|reflexivity].
      split; [done..|]. rewrite Eg. exists n. pose proof (get32_in_u _ _ _ En). eauto.
    + intros [= <-]. exists size, ty, [], rest. split_and!; [|done|done].
      split; [done..|]. by rewrite Eg.
  - intros (size & ty & own & rest & [Hs Ht Hl Hf Ho] & Hr & ->).
    rewrite Hs, Ht. replace ((sizeof_command <=? size) && _) with true
      by (symmetry; apply andb_true_iff; rewrite !Z.leb_le; done).
    rewrite Hr. destruct (is_segment ty); [|by subst].
    destruct Ho as (n & Hn & _ & Hfit & ->). rewrite Hn.
    by apply Z.leb_le in Hfit as ->.
Qed.

Lemma sect_addrs_range n a b : b ∈ sect_addrs n a ->
  a <= b /\ b + sizeof_section P <= a + Z.of_nat n * sizeof_section P.
Proof.
  pose proof sizeof_section_pos. revert a. induction n as [|n IH]; intros a; cbn [sect_addrs].
  - by intros ?%not_elem_of_nil.
  - rewrite Nat2Z.inj_succ, Z.mul_succ_l. pose proof (Z.mul_nonneg_nonneg (Z.of_nat n) (sizeof_section P)).
    intros [->|Hb%IH]%elem_of_cons; lia.
Qed.

Lemma command_ok_range m hi cmds size ty own a : command_ok m hi cmds size ty own -> a ∈ own ->
  cmds + sizeof_segment P <= a /\ a + sizeof_section P <= cmds + size.
Proof.
  intros [_ _ _ _ Ho] Ha. destruct (is_segment ty).
  - destruct Ho as (n & _ & Hu & Hf & ->). apply sect_addrs_range in Ha. unfold in_u in Hu.
    rewrite Z2Nat.id in Ha by lia. lia.
  - subst. by apply not_elem_of_nil in Ha.
Qed.

Lemma slice_sections_range k m hi cmds l a : slice_sections k m hi cmds = Some l -> a ∈ l ->
  cmds <= a /\ a + sizeof_section P <= hi.
Proof.
  revert cmds l. induction k as [|k IH]; intros cmds l.
  - intros [= <-] []%not_elem_of_nil.
  - intros (size & ty & own & rest & Hc & Hr & ->)%slice_sections_S Ha.
    pose proof (command_prefix P). pose proof (command_inside L_cmd).
    pose proof (cmd_long _ _ _ _ _ _ Hc). pose proof (cmd_fits _ _ _ _ _ _ Hc).
    apply elem_of_app in Ha as [Ha|Ha].
    + pose proof (command_ok_range _ _ _ _ _ _ _ Hc Ha). lia.
    + pose proof (IH _ _ Hr Ha). lia.
Qed.

(** Stripping does not disturb the walk: the headers of commands and segments
    lie outside the bytes that may change. *)
Lemma slice_sections_frame Q k m m' hi cmds l :
  slice_sections k m hi cmds = Some l -> unchanged_outside Q m m' ->
  (forall i, Q i -> i < cmds \/ hi <= i \/ exists a, a ∈ l /\ touched a i) ->
  slice_sections k m' hi cmds = Some l.
Proof.
  intros Hl Hu. revert cmds l Hl. induction k as [|k IH]; intros cmds l; [done|].
  intros (size & ty & own & rest & Hc & Hr & ->)%slice_sections_S HQ.
  pose proof (command_prefix P) as Hp. pose proof (command_inside L_cmd) as Hi1.
  pose proof (command_inside L_cmdsize) as Hi2. pose proof (segment_inside P G_nsects) as Hi3.
  pose proof (cmd_long _ _ _ _ _ _ Hc) as Hlong.
  assert (HQ' : forall i, Q i -> i < cmds \/ hi <= i \/ cmds + sizeof_command <= i /\
                    (is_segment ty = true -> cmds + sizeof_segment P <= i)).
  { intros i [|[|(a & Ha & Ht)]]%HQ; [by left|by right; left|right; right]. apply touched_within in Ht. unfold within in Ht.
    apply elem_of_app in Ha as [Ha|Ha]; [apply (command_ok_range _ _ _ _ _ _ _ Hc) in Ha; lia|].
    pose proof (slice_sections_range _ _ _ _ _ _ Hr Ha) as Hra. split; [lia|]. intros Hseg.
    destruct Hc as [_ _ _ _ Ho]. rewrite Hseg in Ho.
    destruct Ho as (n & _ & Hun & Hfit & _). unfold in_u in Hun. pose proof sizeof_section_pos. nia. }
  apply slice_sections_S. exists size, ty, own, rest. split_and!; [|apply IH|done].
  - destruct Hc as [Hs Ht Hl Hf Ho]. destruct Hu as [Hsz Hrd]. split; [| |done|lia|].
    + rewrite <- Hs. eapply get32_frame; [exact (conj Hsz Hrd)|]. unfold within.
      intros i Hi [|[|[]]]%HQ'; simpl in *; lia.
    + rewrite <- Ht. eapply get32_frame; [exact (conj Hsz Hrd)|]. unfold within.
      intros i Hi [|[|[]]]%HQ'; simpl in *; lia.
    + destruct (is_segment ty); [|done]. destruct Ho as (n & Hn & Hrest). exists n.
      split; [|done]. rewrite <- Hn. eapply get32_frame; [exact (conj Hsz Hrd)|]. unfold within.
      intros i Hi [|[|[_ Hq]]]%HQ'; [| |specialize (Hq eq_refl)]; simpl in *; try lia.
      pose proof sizeof_section_pos. destruct Hrest as (Hun & Hfit & _). unfold in_u in Hun. nia.
  - done.
  - intros i [|[|(a & Ha & Ht)]]%HQ; [left; lia|by right; left|].
    apply elem_of_app in Ha as [Ha|Ha]; [left|right; right; eauto].
    apply (command_ok_range _ _ _ _ _ _ _ Hc) in Ha. apply touched_within in Ht. unfold within in Ht. lia.
Qed.

Lemma strips_mono lo hi lo' hi' m m' l :
  lo' <= lo -> hi <= hi' -> strips lo hi m m' l -> strips lo' hi' m m' l.
Proof.
  intros Hl Hh (R & S). split; [|done]. intros a Ha. apply R in Ha. lia.
Qed.

(** One command: what the body of the loop of [parse_macho] does. *)
Lemma command_run fuel m o hi cmds size ty own :
  command_ok m hi cmds size ty own -> 0 <= cmds -> hi <= msize m -> msize m < Z.of_nat fuel ->
  exists m' o',
    (if (ty =? LC_SEGMENT) || (ty =? LC_SEGMENT_64) then doseg fuel E P cmds else ret tt) (mkst m o)
      = Ret (tt, mkst m' o') /\
    strips cmds (cmds + size) m m' own.
Proof.
  intros [Hs Ht Hl Hf Ho] Hc Hhi Hfuel. fold (is_segment ty). destruct (is_segment ty).
  - destruct Ho as (n & Hn & Hu & Hfit & ->). unfold in_u in Hu. pose proof sizeof_section_pos.
    pose proof (command_prefix P). pose proof (command_inside L_cmd).
    destruct (doseg_ok fuel cmds n m o) as (m' & o' & Hrun & Hst); [done|nia|lia|lia|].
    exists m', o'. split; [done|]. eapply strips_mono; [| |exact Hst]; lia.
  - subst. exists m, o. split; [done|]. apply strips_nil.
Qed.

Lemma parse_macho_loop_ok fuel k mh hi cmds c n (j : nat) m o l :
  mh_ncmds E P m mh = Some n -> 0 <= c -> n = c + Z.of_nat j -> (j < k)%nat ->
  0 <= mh -> mh + sizeof_header P <= cmds -> msize m < Z.of_nat fuel ->
  slice_sections j m hi cmds = Some l -> cmds <= hi -> hi <= msize m ->
  exists m' o', parse_macho_loop fuel E P k mh cmds c (mkst m o) = Ret (true, mkst m' o') /\
    strips cmds hi m m' l.
Proof.
  intros Hn Hc Hnj Hk Hmh Hcmds Hfuel Hl Hend Hhi.
  pose proof (header_inside P H_ncmds ltac:(destruct P; unfold header_fields; simpl; in_list)) as Hh.
  revert k cmds c m o l Hn Hc Hnj Hk Hcmds Hfuel Hl Hend Hhi.
  induction j as [|j IH]; intros k cmds c m o l Hn Hc Hnj Hk Hcmds Hfuel Hl Hend Hhi;
    (destruct k as [|k]; [lia|]); cbn [parse_macho_loop]; (run_step ltac:(by apply getM_ret)).
  - destruct (c <? n) eqn:Ec; zbool; [lia|]. injection Hl as <-.
    eexists _, _. split; [reflexivity|]. apply strips_nil.
  - destruct (c <? n) eqn:Ec; zbool; [|lia].
    apply slice_sections_S in Hl as (size & ty & own & rest & Hcmd & Hr & ->).
    pose proof (command_inside L_cmd) as Hci. pose proof (cmd_long _ _ _ _ _ _ Hcmd).
    pose proof (cmd_fits _ _ _ _ _ _ Hcmd).
    run_step ltac:(eapply getM_ret, cmd_size, Hcmd). run_step ltac:(eapply getM_ret, cmd_type, Hcmd).
    destruct (command_run fuel m o _ _ _ _ _ Hcmd) as (m1 & o1 & Hrun & S1); [lia|done|done|].
    run_step ltac:(exact Hrun). pose proof (strips_range _ _ _ _ _ S1) as U1.
    assert (Hn' : mh_ncmds E P m1 mh = Some n).
    { rewrite <- Hn. eapply get32_frame; [exact U1|]. unfold within. lia. }
    assert (Hr' : slice_sections j m1 hi (cmds + size) = Some rest).
    { eapply slice_sections_frame; [exact Hr|exact U1|]. simpl. lia. }
    pose proof (get32_in_u _ _ _ Hn) as Hu. unfold in_u in Hu.
    rewrite wrap_id by (unfold in_u; lia). destruct U1 as [Hs1 _].
    destruct (IH k (cmds + size) (c + 1) m1 o1 rest) as (m2 & o2 & Hrun2 & S2); [done|lia..|done|lia|lia|].
    exists m2, o2. split; [exact Hrun2|].
    eapply (strips_app _ (cmds + size)); [lia|lia|exact S1|exact S2].
Qed.

(** The number of commands of a well-formed slice is bounded by its size. *)
Lemma slice_sections_length k m hi cmds l : slice_sections k m hi cmds = Some l ->
  0 <= cmds -> cmds <= hi -> cmds + Z.of_nat k <= hi.
Proof.
  revert cmds l. induction k as [|k IH]; intros cmds l; [lia|].
  intros (size & ty & own & rest & Hc & Hr & ->)%slice_sections_S H0 H1.
  pose proof (command_inside L_cmd). pose proof (cmd_long _ _ _ _ _ _ Hc).
  pose proof (cmd_fits _ _ _ _ _ _ Hc). pose proof (IH _ _ Hr). lia.
Qed.

(** *** The walk of a slice as a whole *)

Lemma ncmds_inside : 0 <= off_header P H_ncmds /\ off_header P H_ncmds + 4 <= sizeof_header P.
Proof. apply header_inside. destruct P; unfold header_fields; simpl; in_list. Qed.

Lemma macho_sections_inv m hi b l : macho_sections m hi b = Some l ->
  0 <= b /\ b + sizeof_header P <= hi /\ hi <= msize m /\
  exists n, mh_ncmds E P m b = Some n /\ in_u 32 n /\
    slice_sections (Z.to_nat n) m hi (b + sizeof_header P) = Some l.
Proof.
  unfold macho_sections. destruct (_ && _) eqn:Eb; [|discriminate]. zbool.
  destruct (mh_ncmds E P m b) as [n|] eqn:En; [|discriminate]. intros Hl.
  pose proof (get32_in_u _ _ _ En). split_and!; [done..|]. eauto.
Qed.

Lemma macho_sections_range m hi b l a : macho_sections m hi b = Some l -> a ∈ l ->
  b + sizeof_header P <= a /\ a + sizeof_section P <= hi.
Proof.
  intros (_ & _ & _ & n & _ & _ & Hl)%macho_sections_inv Ha.
  by eapply slice_sections_range in Hl.
Qed.

(** The walk reads only the slice, and of it nothing that stripping changes. *)
Lemma macho_sections_frame Q m m' hi b l :
  macho_sections m hi b = Some l -> unchanged_outside Q m m' ->
  (forall i, Q i -> i < b \/ hi <= i \/ exists a, a ∈ l /\ touched a i) ->
  macho_sections m' hi b = Some l.
Proof.
  intros Hl Hu HQ. pose proof Hl as Hl0.
  apply macho_sections_inv in Hl as (Hb & Hh & Hs & n & Hn & Hu32 & Hl).
  pose proof ncmds_inside as Hnc. unfold macho_sections.
  replace (msize m') with (msize m) by (symmetry; apply Hu).
  replace ((0 <=? b) && _ && _) with true
    by (symmetry; rewrite !andb_true_iff, !Z.leb_le; done).
  replace (mh_ncmds E P m' b) with (Some n).
  - eapply slice_sections_frame; [exact Hl|exact Hu|].
    intros i [|[|?]]%HQ; [left; lia|by right; left|by right; right].
  - rewrite <- Hn. symmetry. eapply get32_frame; [exact Hu|]. unfold within.
    intros i Hi [|[|(a & Ha & Ht)]]%HQ; [lia|lia|]. apply touched_within in Ht.
    apply (macho_sections_range _ _ _ _ _ Hl0) in Ha. unfold within in Ht. lia.
Qed.

Lemma parse_macho_P_ok fuel m o hi b l :
  macho_sections m hi b = Some l -> msize m < Z.of_nat fuel ->
  exists m' o', parse_macho_P fuel E P b (mkst m o) = Ret (true, mkst m' o') /\
    strips (b + sizeof_header P) hi m m' l /\ macho_sections m' hi b = Some l.
Proof.
  intros Hl Hf. pose proof Hl as Hl0.
  apply macho_sections_inv in Hl as (Hb & Hh & Hs & n & Hn & Hu32 & Hl). unfold in_u in Hu32.
  pose proof ncmds_inside. pose proof (slice_sections_length _ _ _ _ _ Hl ltac:(lia) ltac:(lia)) as Hk.
  destruct (parse_macho_loop_ok fuel fuel b hi (b + sizeof_header P) 0 n (Z.to_nat n) m o l)
    as (m' & o' & Hrun & St); [done|lia..|done|lia|lia|].
  exists m', o'. split_and!; [done|done|]. eapply macho_sections_frame; [done|apply St|].
  simpl. auto.
Qed.

(** Refinement: on a well-formed slice of either byte order and pointer size, [parse_macho]
    terminates with [true] and implements the abstract operation "strip every section": each
    section header reads as [strip_section] of what it was (a __DATA mod_init/mod_term section
    gets type S_REGULAR and its __objc_ name, every other section is unchanged), the list of
    sections stays the same, and no byte outside the name and flags of those sections changes. *)
Theorem parse_macho_refines_strip (fuel : nat) (m : mem) (o : list message) (hi b : Z) (l : list Z) :
  macho_sections m hi b = Some l -> msize m < Z.of_nat fuel ->
  exists m' o', parse_macho_P fuel E P b (mkst m o) = Ret (true, mkst m' o') /\
    macho_sections m' hi b = Some l /\
    (forall a, a ∈ l -> exists v, view_section m a = Some v /\
                             view_section m' a = Some (strip_section v)) /\
    unchanged_outside (fun i => exists a, a ∈ l /\ touched a i) m m'.
Proof.
  intros Hl Hf. destruct (parse_macho_P_ok fuel m o hi b l Hl Hf) as (m' & o' & Hrun & St & Hl').
  exists m', o'. destruct St as (_ & Hv & Hu & _). done.
Qed.

(** Idempotence: running [parse_macho] a second time on the slice it produced returns [true]
    and changes no byte. *)
Theorem parse_macho_idempotent (fuel : nat) (m m1 : mem) (o o1 : list message) (hi b : Z) (l : list Z) :
  macho_sections m hi b = Some l -> msize m < Z.of_nat fuel ->
  parse_macho_P fuel E P b (mkst m o) = Ret (true, mkst m1 o1) ->
  exists o2, parse_macho_P fuel E P b (mkst m1 o1) = Ret (true, mkst m1 o2).
Proof.
  intros Hl Hf Hrun1. destruct (parse_macho_P_ok fuel m o hi b l Hl Hf) as (m' & o' & Hrun & St & Hl').
  rewrite Hrun1 in Hrun. injection Hrun as <- <-. destruct St as (_ & Hv & [Hs _] & _).
  destruct (parse_macho_P_ok fuel m1 o1 hi b l Hl') as (m2 & o2 & Hrun2 & St2 & _); [lia|].
  exists o2. rewrite Hrun2. do 3 f_equal. destruct St2 as (_ & _ & _ & Hno). apply Hno.
  intros a v Ha Hva. destruct (Hv a Ha) as (v0 & _ & Hv0). rewrite Hva in Hv0. injection Hv0 as ->.
  apply strip_no_match.
Qed.

End Spec.
