(* ===== verification/MarkGCFile.v ===== *)
(** * markgc on whole files

    A file is thin (one slice) or fat (a table of slices).  [file_slices] is the
    abstract view of a well-formed file; this file proves that [parse_fat]
    strips every slice of it, what each error branch does, that the program
    terminates on any input, and that it never writes outside the slices. *)

From Stdlib Require Import ZArith Lia Bool String.
From stdpp Require Import base list.
From coqutil Require Import Byte Word.LittleEndianList.
From S2P Require Import Prelude Memory CString ByteOrder Endian MachO MarkGC MarkGCSpec.

Local Open Scope Z_scope.
Local Open Scope markgc_scope.

(** ** Slices *)

(** The byte order of a slice: native, or swapped. *)
Definition endian_of (swapped : bool) : Endian := if swapped then OtherEndian else CurrentEndian.

#[export] Instance endian_of_laws swapped : EndianLaws (endian_of swapped).
Proof. destruct swapped; apply _. Qed.

Record slice := mk_slice {
  sl_swapped : bool; sl_ptr : pointer_size; sl_off : Z; sl_end : Z; sl_sections : list Z }.

Section File.
Context {H : loader_h} {OK : loader_h_ok H}.

Definition sl_view (s : slice) (m : mem) (a : Z) : option section_view :=
  view_section (endian_of (sl_swapped s)) (sl_ptr s) m a.

Definition sl_touched (s : slice) (i : Z) : Prop :=
  exists a, a ∈ sl_sections s /\ touched (sl_ptr s) a i.

(** The four magic numbers and the format each stands for. *)
Definition magic_variant (magic : Z) : option (bool * pointer_size) :=
  if magic =? MH_MAGIC_64 then Some (false, Pointer64)
  else if magic =? MH_MAGIC then Some (false, Pointer32)
  else if magic =? MH_CIGAM_64 then Some (true, Pointer64)
  else if magic =? MH_CIGAM then Some (true, Pointer32)
  else None.

Definition slice_at (m : mem) (off hi : Z) : option slice :=
  match load_le 4 m off with
  | Some magic =>
      match magic_variant magic with
      | Some (swapped, P) =>
          mk_slice swapped P off hi <$> macho_sections (endian_of swapped) P m hi off
      | None => None
      end
  | None => None
  end.

Lemma slice_at_inv m off hi s : slice_at m off hi = Some s ->
  sl_off s = off /\ sl_end s = hi /\
  (exists magic, load_le 4 m off = Some magic /\ magic_variant magic = Some (sl_swapped s, sl_ptr s)) /\
  macho_sections (endian_of (sl_swapped s)) (sl_ptr s) m hi off = Some (sl_sections s).
Proof.
  unfold slice_at. destruct (load_le 4 m off) as [magic|]; [|discriminate].
  destruct (magic_variant magic) as [[sw P]|] eqn:Em; [|discriminate].
  destruct (macho_sections _ P m hi off) as [l|] eqn:El; [|discriminate].
  intros [= <-]. simpl. split_and!; [done..| |done]. by exists magic.
Qed.

Lemma sizeof_header_4 P : 4 <= sizeof_header P.
Proof. pose proof (ncmds_inside P). lia. Qed.

Lemma slice_at_range m off hi s : slice_at m off hi = Some s ->
  0 <= off /\ off + 4 <= hi /\ hi <= msize m /\
  forall i, sl_touched s i -> off + 4 <= i < hi.
Proof.
  intros (_ & _ & _ & Hl)%slice_at_inv. pose proof (sizeof_header_4 (sl_ptr s)).
  pose proof (macho_sections_inv _ _ _ _ _ _ Hl) as (? & ? & ? & _).
  split_and!; [lia..|]. intros i (a & Ha & Ht). apply touched_within in Ht.
  apply (macho_sections_range _ _ _ _ _ _ _ Hl) in Ha. unfold within in Ht. lia.
Qed.

Lemma slice_at_frame Q m m' off hi s :
  slice_at m off hi = Some s -> unchanged_outside Q m m' ->
  (forall i, Q i -> i < off \/ hi <= i \/ sl_touched s i) ->
  slice_at m' off hi = Some s.
Proof.
  intros Hs Hu HQ. pose proof (slice_at_range _ _ _ _ Hs) as (H0 & H4 & Hhi & Ht).
  apply slice_at_inv in Hs as (<- & <- & (magic & Hm & Hv) & Hl). unfold slice_at.
  rewrite (load_le_frame Q 4 m m' (sl_off s) Hu), Hm, Hv.
  - rewrite (macho_sections_frame _ _ Q m m' _ _ _ Hl Hu HQ). by destruct s.
  - unfold within. intros i Hi Hq. apply HQ in Hq as [|[|Hq%Ht]]; lia.
Qed.

(** [parse_macho] picks the instance the magic number names. *)
Lemma parse_macho_variant fuel m o off magic sw P :
  load_le 4 m off = Some magic -> magic_variant magic = Some (sw, P) ->
  parse_macho fuel off (mkst m o) = parse_macho_P fuel (endian_of sw) P off (mkst m o).
Proof.
  intros Hm Hv. unfold parse_macho. run_step ltac:(by apply getM_ret). revert Hv. unfold magic_variant.
  destruct (magic =? MH_MAGIC_64); [by intros [= <- <-]|].
  destruct (magic =? MH_MAGIC); [by intros [= <- <-]|].
  destruct (magic =? MH_CIGAM_64); [by intros [= <- <-]|].
  destruct (magic =? MH_CIGAM); [by intros [= <- <-]|discriminate].
Qed.

(** *** What stripping a set of slices means *)

Definition file_stripped (m m' : mem) (ss : list slice) : Prop :=
  (forall s a, s ∈ ss -> a ∈ sl_sections s ->
     exists v, sl_view s m a = Some v /\ sl_view s m' a = Some (strip_section v)) /\
  unchanged_outside (fun i => exists s, s ∈ ss /\ sl_touched s i) m m'.

Lemma parse_macho_slice fuel m o off hi s :
  slice_at m off hi = Some s -> msize m < Z.of_nat fuel ->
  exists m' o', parse_macho fuel off (mkst m o) = Ret (true, mkst m' o') /\
    file_stripped m m' [s].
Proof.
  intros Hs Hf. apply slice_at_inv in Hs as (<- & <- & (magic & Hm & Hv) & Hl).
  destruct (parse_macho_P_ok _ _ fuel m o _ _ _ Hl Hf) as (m' & o' & Hrun & (_ & Hst & Hu & _) & _).
  exists m', o'. split; [by erewrite parse_macho_variant|]. split.
  - intros s' a ->%list_elem_of_singleton Ha. by apply Hst.
  - eapply unchanged_outside_weaken; [|exact Hu]. intros i Hi. exists s.
    by rewrite list_elem_of_singleton.
Qed.

(** Stripping one slice and then the others, when they do not overlap it. *)
Definition disjoint_slices (s t : slice) : bool :=
  (sl_end s <=? sl_off t) || (sl_end t <=? sl_off s).

Definition contained (s : slice) : Prop :=
  forall i a, a ∈ sl_sections s -> within a (sizeof_section (sl_ptr s)) i -> sl_off s <= i < sl_end s.

Lemma contained_touched s i : contained s -> sl_touched s i -> sl_off s <= i < sl_end s.
Proof. intros Hc (a & Ha & Ht). eapply Hc; [done|]. by apply touched_within. Qed.

Lemma slice_at_contained m off hi s : slice_at m off hi = Some s -> contained s.
Proof.
  intros (<- & <- & _ & Hl)%slice_at_inv i a Ha Hi. pose proof (sizeof_header_4 (sl_ptr s)).
  apply (macho_sections_range _ _ _ _ _ _ _ Hl) in Ha. unfold within in Hi. lia.
Qed.

Lemma sl_view_frame s m m' ts a :
  unchanged_outside (fun i => exists t, t ∈ ts /\ sl_touched t i) m m' ->
  contained s -> Forall contained ts -> forallb (disjoint_slices s) ts = true ->
  a ∈ sl_sections s -> sl_view s m' a = sl_view s m a.
Proof.
  intros Hu Hs Hts Hd Ha. apply (view_section_frame _ _ _ m m' a Hu). intros i Hi (t & Ht & Hti).
  rewrite Forall_forall in Hts. apply (contained_touched _ _ (Hts t Ht)) in Hti.
  apply (Hs _ _ Ha) in Hi. rewrite forallb_forall in Hd.
  specialize (Hd t (proj1 (list_elem_of_In _ _) Ht)).
  unfold disjoint_slices in Hd. apply orb_true_iff in Hd as [|]; zbool; lia.
Qed.

Lemma file_stripped_cons m m1 m2 s ss :
  file_stripped m m1 [s] -> file_stripped m1 m2 ss ->
  contained s -> Forall contained ss -> forallb (disjoint_slices s) ss = true ->
  file_stripped m m2 (s :: ss).
Proof.
  intros [V1 U1] [V2 U2] Hs Hss Hd. split.
  - intros t a [->|Ht]%elem_of_cons Ha.
    + destruct (V1 s a) as (v & Hv & Hv'); [by apply list_elem_of_singleton|done|].
      exists v. split; [done|]. by rewrite (sl_view_frame s m1 m2 ss a).
    + destruct (V2 t a) as (v & Hv & Hv'); [done..|]. exists v. split; [|done].
      rewrite <- Hv. symmetry. rewrite Forall_forall in Hss.
      apply (sl_view_frame t m m1 [s] a); [done|by apply Hss|by constructor| |done].
      rewrite forallb_forall in Hd. specialize (Hd t (proj1 (list_elem_of_In _ _) Ht)).
      simpl. unfold disjoint_slices in *. by rewrite orb_comm, andb_true_r.
  - etransitivity; (eapply unchanged_outside_weaken; [|first [exact U1|exact U2]]); simpl.
    + intros i (t & ->%list_elem_of_singleton & Ht). exists s. by rewrite elem_of_cons; auto.
    + intros i (t & Hin & Ht). exists t. by rewrite elem_of_cons; auto.
Qed.

(** ** The table of a fat file *)

Definition arch_word (m : mem) (f : arch_field) (i : Z) : option Z :=
  OSSwapBigToHostInt32 <$> load_le 4 m (arch_addr i + off_arch f).

Lemma arch_get_ret f i m o x : arch_word m f i = Some x -> arch_get f i (mkst m o) = Ret (x, mkst m o).
Proof.
  unfold arch_word, arch_get. destruct (load_le 4 m _) as [y|] eqn:Ey; [|discriminate].
  intros [= <-]. by run_step ltac:(by apply getM_ret).
Qed.

Lemma arch_inside f : 0 <= off_arch f /\ off_arch f + 4 <= sizeof_fat_arch.
Proof.
  assert (Hf : f ∈ [A_cputype; A_cpusubtype; A_offset; A_size; A_align]) by (destruct f; in_list).
  destruct (in_order_inside _ _ _ _ _ _ arch_in_order Hf). lia.
Qed.

Lemma fat_inside f : 0 <= off_fat f /\ off_fat f + 4 <= sizeof_fat_header.
Proof.
  assert (Hf : f ∈ [F_magic; F_nfat_arch]) by (destruct f; in_list).
  destruct (in_order_inside _ _ _ _ _ _ fat_in_order Hf). lia.
Qed.

Lemma arch_word_is_Some m f i : 0 <= i -> arch_addr (i + 1) <= msize m -> is_Some (arch_word m f i).
Proof.
  intros Hi Hm. unfold arch_addr in *. pose proof (arch_inside f). pose proof (fat_inside F_magic).
  apply fmap_is_Some, load_le_is_Some; unfold arch_addr; nia.
Qed.

Lemma arch_word_in_u m f i x : arch_word m f i = Some x -> in_u 32 x.
Proof.
  unfold arch_word. destruct (load_le 4 m _) as [y|]; simpl; [|discriminate]. intros [= <-].
  apply (bswap_range 4).
Qed.

Lemma arch_word_frame Q m m' f i te : unchanged_outside Q m m' -> (forall j, Q j -> te <= j) ->
  arch_addr (i + 1) <= te -> arch_word m' f i = arch_word m f i.
Proof.
  intros Hu HQ Hi. unfold arch_word. f_equal. apply (load_le_frame Q 4 m m' _ Hu).
  pose proof (arch_inside f). unfold within, arch_addr in *. intros j Hj Hq%HQ. lia.
Qed.

Fixpoint fat_slices (k : nat) (m : mem) (table_end i : Z) : option (list slice) :=
  match k with
  | O => Some []
  | S k' =>
      match arch_word m A_offset i, arch_word m A_size i with
      | Some off, Some size =>
          if (table_end <=? off) && (off + size <=? msize m) then
            match slice_at m off (off + size), fat_slices k' m table_end (i + 1) with
            | Some s, Some rest => if forallb (disjoint_slices s) rest then Some (s :: rest) else None
            | _, _ => None
            end
          else None
      | _, _ => None
      end
  end.

(** The number of table entries: nfat_arch, or one more when the entry after
    the table is the hidden arm64 one. *)
Definition fat_count (m : mem) : option Z :=
  match OSSwapBigToHostInt32 <$> load_le 4 m (off_fat F_nfat_arch) with
  | Some n =>
      if (arch_addr (n + 1) <=? msize m) && (0 <? n) then
        match arch_word m A_cputype n with
        | Some t => Some (if t =? CPU_TYPE_ARM64 then n + 1 else n)
        | None => None
        end
      else Some n
  | None => None
  end.

Definition is_fat (magic : Z) : bool := negb (negb (magic =? FAT_MAGIC) && negb (magic =? FAT_CIGAM)).

(** The slices of a well-formed file: the table lies before every slice, and
    the slices do not overlap. *)
Definition file_slices (m : mem) : option (list slice) :=
  match load_le 4 m 0 with
  | Some magic =>
      if is_fat magic then
        match fat_count m with
        | Some n => if arch_addr n <=? msize m then fat_slices (Z.to_nat n) m (arch_addr n) 0 else None
        | None => None
        end
      else (fun s => [s]) <$> slice_at m 0 (msize m)
  | None => None
  end.

Lemma fat_slices_S k m te i ss : fat_slices (S k) m te i = Some ss <->
  exists off size s rest, arch_word m A_offset i = Some off /\ arch_word m A_size i = Some size /\
    te <= off /\ off + size <= msize m /\ slice_at m off (off + size) = Some s /\
    fat_slices k m te (i + 1) = Some rest /\ forallb (disjoint_slices s) rest = true /\ ss = s :: rest.
Proof.
  cbn [fat_slices]. split.
  - destruct (arch_word m A_offset i) as [off|] eqn:E1; [|discriminate].
    destruct (arch_word m A_size i) as [size|] eqn:E2; [|discriminate].
    destruct (_ && _) eqn:E3; [|discriminate]. zbool.
    destruct (slice_at m off (off + size)) as [s|] eqn:E4; [|discriminate].
    destruct (fat_slices k m te (i + 1)) as [rest|] eqn:E5; [|discriminate].
    destruct (forallb _ rest) eqn:E6; [|discriminate]. intros [= <-].
    exists off, size, s, rest. done.
  - intros (off & size & s & rest & -> & -> & Ho & Hs & Hsl & Hr & Hd & ->).
    replace ((te <=? off) && _) with true by (symmetry; rewrite andb_true_iff, !Z.leb_le; done).
    by rewrite Hsl, Hr, Hd.
Qed.

(** The slices a table walk finds: each is the slice at its own offset, after
    the table, and two of them are equal or disjoint. *)
Lemma fat_slices_elem k m te i ss s : fat_slices k m te i = Some ss -> s ∈ ss ->
  slice_at m (sl_off s) (sl_end s) = Some s /\ te <= sl_off s.
Proof.
  revert i ss. induction k as [|k IH]; intros i ss; [intros [= <-] []%not_elem_of_nil|].
  intros (off & size & t & rest & _ & _ & Ho & _ & Hsl & Hr & _ & ->)%fat_slices_S.
  intros [->|Hin]%elem_of_cons; [|by eapply IH].
  pose proof (slice_at_inv _ _ _ _ Hsl) as (-> & -> & _). done.
Qed.

Lemma fat_slices_contained k m te i ss : fat_slices k m te i = Some ss -> Forall contained ss.
Proof.
  intros Hs. apply Forall_forall. intros s Hin.
  eapply fat_slices_elem in Hs as [Hsl _]; [|done]. by eapply slice_at_contained.
Qed.

Lemma fat_slices_frame Q k m m' te i ss :
  fat_slices k m te i = Some ss -> unchanged_outside Q m m' -> arch_addr (i + Z.of_nat k) <= te ->
  (forall j, Q j -> te <= j) ->
  (forall s j, s ∈ ss -> Q j -> j < sl_off s \/ sl_end s <= j \/ sl_touched s j) ->
  fat_slices k m' te i = Some ss.
Proof.
  intros Hss Hu. revert i ss Hss. induction k as [|k IH]; intros i ss; [done|].
  intros (off & size & s & rest & Ho & Hz & Hte & Hfit & Hsl & Hr & Hd & ->)%fat_slices_S Ha HQ HQs.
  pose proof (arch_inside A_cputype). assert (Ha1 : arch_addr (i + 1) <= te) by (unfold arch_addr in *; nia).
  apply fat_slices_S. exists off, size, s, rest.
  pose proof (slice_at_inv _ _ _ _ Hsl) as (E1 & E2 & _). split_and!; [| |done| | | |done|done].
  - rewrite <- Ho. by eapply arch_word_frame.
  - rewrite <- Hz. by eapply arch_word_frame.
  - destruct Hu as [-> _]. done.
  - eapply slice_at_frame; [exact Hsl|exact Hu|]. intros j Hj. rewrite <- E2, <- E1.
    apply HQs; [apply elem_of_cons; by left|done].
  - apply IH; [done| |done|].
    + replace (i + 1 + Z.of_nat k) with (i + Z.of_nat (S k)) by lia. done.
    + intros t j Ht. apply HQs. apply elem_of_cons. by right.
Qed.

(** ** The loop over the table *)

Lemma parse_fat_loop_ok fuel k size fas n (j : nat) i te m o ss :
  fat_slices j m te i = Some ss -> n = i + Z.of_nat j -> in_u 32 n -> (j < k)%nat -> 0 <= i ->
  arch_addr n <= te -> te <= msize m -> fas <= te -> size = msize m ->
  msize m < Z.of_nat fuel ->
  exists m' o', parse_fat_loop fuel k size fas n i (mkst m o) = Ret (true, mkst m' o') /\
    file_stripped m m' ss.
Proof.
  revert k i m o ss. induction j as [|j IH]; intros k i m o ss Hss Hn Hu Hk Hi Hte Hm Hfas Hsz Hf;
    (destruct k as [|k]; [lia|]); cbn [parse_fat_loop].
  - destruct (i <? n) eqn:Ein; zbool; [lia|]. injection Hss as <-. eexists _, _. split; [reflexivity|].
    split; [by intros ? ? ?%not_elem_of_nil|reflexivity].
  - destruct (i <? n) eqn:Ein; zbool; [|lia]. pose proof (fat_slices_contained _ _ _ _ _ Hss) as Hcs.
    apply fat_slices_S in Hss as (off & sz & s & rest & Ho & Hz & Hto & Hfit & Hsl & Hr & Hd & ->).
    pose proof (arch_inside A_cputype) as Hai.
    assert (Ha1 : arch_addr (i + 1) <= te) by (unfold arch_addr in *; nia).
    destruct (arch_word_is_Some m A_cputype i) as [ct Hct]; [lia..|].
    destruct (arch_word_is_Some m A_cpusubtype i) as [cs Hcs']; [lia..|].
    run_step ltac:(by apply arch_get_ret). run_step ltac:(by apply arch_get_ret).
    run_step ltac:(by apply arch_get_ret). run_step ltac:(by apply arch_get_ret).
    run_step ltac:(reflexivity). pose proof (arch_word_in_u _ _ _ _ Ho) as Huo.
    pose proof (arch_word_in_u _ _ _ _ Hz) as Huz. unfold in_u in Hu, Huo, Huz.
    rewrite Hsz. destruct (off <? fas) eqn:C1; zbool; [lia|].
    destruct (msize m <? off) eqn:C2; zbool; [lia|]. destruct (msize m <? sz) eqn:C3; zbool; [lia|].
    destruct (msize m - sz <? off) eqn:C4; zbool; [lia|]. simpl buf. simpl out.
    destruct (parse_macho_slice fuel m (msg_arch ct cs :: o) off (off + sz) s Hsl Hf)
      as (m1 & o1 & Hrun & St1).
    run_step ltac:(exact Hrun). simpl negb. cbv iota. rewrite wrap_id by (unfold in_u; lia).
    apply Forall_cons in Hcs as [Hcs Hcrest]. pose proof (slice_at_inv _ _ _ _ Hsl) as (E1 & E2 & _).
    assert (Hr1 : fat_slices j m1 te (i + 1) = Some rest).
    { eapply fat_slices_frame; [exact Hr|exact (proj2 St1)| | |].
      - replace (i + 1 + Z.of_nat j) with n by lia. done.
      - intros x (t & ->%list_elem_of_singleton & Hx). apply (contained_touched _ _ Hcs) in Hx. lia.
      - intros t x Ht (t' & ->%list_elem_of_singleton & Hx). apply (contained_touched _ _ Hcs) in Hx.
        rewrite forallb_forall in Hd. specialize (Hd t (proj1 (list_elem_of_In _ _) Ht)).
        unfold disjoint_slices in Hd. apply orb_true_iff in Hd as [|]; zbool; lia. }
    assert (Hsz1 : msize m1 = msize m) by apply St1.
    destruct (IH k (i + 1) m1 o1 rest) as (m2 & o2 & Hrun2 & St2); [done|lia|done|lia..|].
    exists m2, o2. rewrite Hsz in Hrun2. split; [exact Hrun2|]. by eapply file_stripped_cons.
Qed.

(** ** The file as a whole *)

Lemma os_overflow_ok size_bits n : 0 <= size_bits -> 0 <= n ->
  arch_addr n < 2 ^ size_bits ->
  os_mul_and_add_overflow size_bits n sizeof_fat_arch sizeof_fat_header = (false, arch_addr n).
Proof.
  intros Hb Hn Ha. pose proof (arch_inside A_cputype). pose proof (fat_inside F_magic).
  unfold os_mul_and_add_overflow, os_mul_overflow, os_add_overflow, arch_addr in *.
  rewrite (wrap_id _ (n * sizeof_fat_arch)) by (unfold in_u; nia).
  rewrite wrap_id by (unfold in_u; nia).
  destruct (_ <=? n * sizeof_fat_arch) eqn:E1; zbool; [nia|].
  destruct (_ <=? sizeof_fat_header + _) eqn:E2; zbool; [nia|]. done.
Qed.

Lemma fat_slices_pairwise k m te i ss s t : fat_slices k m te i = Some ss ->
  s ∈ ss -> t ∈ ss -> s = t \/ disjoint_slices s t = true.
Proof.
  revert i ss. induction k as [|k IH]; intros i ss; [intros [= <-] []%not_elem_of_nil|].
  intros (_ & _ & h & rest & _ & _ & _ & _ & _ & Hr & Hd & ->)%fat_slices_S.
  rewrite forallb_forall in Hd.
  intros [->|Hs]%elem_of_cons [->|Ht]%elem_of_cons; [by left|right|right|by eapply IH].
  - apply Hd. by apply list_elem_of_In.
  - unfold disjoint_slices. rewrite orb_comm. apply Hd. by apply list_elem_of_In.
Qed.

Lemma fat_slices_file_frame Q k m m' te ss :
  fat_slices k m te 0 = Some ss -> arch_addr (Z.of_nat k) <= te ->
  unchanged_outside Q m m' -> (forall j, Q j -> exists s, s ∈ ss /\ sl_touched s j) ->
  fat_slices k m' te 0 = Some ss.
Proof.
  intros Hss Hte Hu HQ. pose proof (fat_slices_contained _ _ _ _ _ Hss) as Hc.
  rewrite Forall_forall in Hc. eapply fat_slices_frame; [exact Hss|exact Hu|done| |].
  - intros j (s & Hs & Hj)%HQ. apply (contained_touched _ _ (Hc s Hs)) in Hj.
    apply (fat_slices_elem _ _ _ _ _ _ Hss) in Hs as [_ Hs]. lia.
  - intros s j Hs (t & Ht & Hj)%HQ. destruct (fat_slices_pairwise _ _ _ _ _ s t Hss Hs Ht) as [->|Hst]; [by right; right|].
    apply (contained_touched _ _ (Hc t Ht)) in Hj.
    unfold disjoint_slices in Hst. apply orb_true_iff in Hst as [|]; zbool; lia.
Qed.

(** What a well-formed file is: everything the branches of [parse_fat] test. *)
Lemma file_slices_inv m ss : file_slices m = Some ss ->
  exists magic, load_le 4 m 0 = Some magic /\
  if is_fat magic then
    (exists n n', load_le 4 m (off_fat F_nfat_arch) = Some n /\ fat_count m = Some n' /\
       (n' = OSSwapBigToHostInt32 n \/ n' = OSSwapBigToHostInt32 n + 1) /\
       arch_addr n' <= msize m /\ fat_slices (Z.to_nat n') m (arch_addr n') 0 = Some ss)
  else (exists s, ss = [s] /\ slice_at m 0 (msize m) = Some s).
Proof.
  unfold file_slices. destruct (load_le 4 m 0) as [magic|]; [|discriminate].
  intros Hs. exists magic. split; [done|]. destruct (is_fat magic).
  - destruct (fat_count m) as [n'|] eqn:En; [|discriminate].
    destruct (_ <=? msize m) eqn:Ea; [|discriminate]. zbool. pose proof En as En'. unfold fat_count in En'.
    destruct (load_le 4 m (off_fat F_nfat_arch)) as [n|] eqn:El; [|discriminate]. simpl in En'.
    exists n, n'. split_and!; [done..| |done|done].
    destruct (_ && _); [|injection En' as <-; by left].
    destruct (arch_word m A_cputype _); [|discriminate]. injection En' as <-.
    destruct (_ =? _); auto.
  - destruct (slice_at m 0 (msize m)) as [s|]; [|discriminate]. injection Hs as <-. by exists s.
Qed.

Lemma host_word_in_u x : in_u 32 (OSSwapBigToHostInt32 x).
Proof. apply (bswap_range 4). Qed.

Lemma fat_count_ok m n n' magic : load_le 4 m 0 = Some magic -> is_fat magic = true ->
  load_le 4 m (off_fat F_nfat_arch) = Some n -> fat_count m = Some n' ->
  arch_addr (OSSwapBigToHostInt32 n) <= msize m ->
  forall fuel size_bits o, 0 <= size_bits -> msize m + sizeof_fat_arch < 2 ^ size_bits ->
  OSSwapBigToHostInt32 n + 1 < 2 ^ 32 ->
  parse_fat fuel size_bits (msize m) (mkst m o) =
  parse_fat_loop fuel fuel (msize m) (arch_addr (OSSwapBigToHostInt32 n)) n' 0
    (mkst m (msg_fat_archs n' :: o)).
Proof.
  intros Hmagic Hfat Hn Hc Ha fuel size_bits o Hb Hsz Hn1.
  apply (load_le_bounds 4) in Hmagic as Hb0; [|lia].
  pose proof (fat_inside F_nfat_arch) as Hfi. pose proof (arch_inside A_cputype) as Hai.
  pose proof (host_word_in_u n) as Hu. unfold in_u in Hu. set (N := OSSwapBigToHostInt32 n) in *.
  unfold parse_fat. destruct (msize m <? 4) eqn:E1; zbool; [lia|]. run_step ltac:(by apply getM_ret).
  unfold is_fat in Hfat. apply negb_true_iff in Hfat as ->.
  destruct (msize m <? sizeof_fat_header) eqn:E2; zbool; [unfold arch_addr in Ha; nia|].
  run_step ltac:(by apply getM_ret). fold N. rewrite os_overflow_ok by lia.
  destruct (msize m <? arch_addr N) eqn:E3; zbool; [lia|].
  unfold os_add_overflow. destruct (2 ^ size_bits <=? _) eqn:E4; zbool; [lia|].
  rewrite wrap_id by (unfold in_u, arch_addr in *; nia).
  replace (arch_addr N + sizeof_fat_arch) with (arch_addr (N + 1)) by (unfold arch_addr; lia).
  unfold fat_count in Hc. rewrite Hn in Hc. simpl in Hc. fold N in Hc.
  erewrite (bind_ret _ _ _ n' (mkst m o)); [reflexivity|].
  destruct (_ && _); [|by injection Hc as <-].
  destruct (arch_word m A_cputype N) as [t|] eqn:Et; [|discriminate]. injection Hc as <-.
  run_step ltac:(by apply arch_get_ret). by rewrite wrap_id by (unfold in_u; lia).
Qed.

Lemma parse_fat_ok fuel size_bits m o ss :
  file_slices m = Some ss -> 0 <= size_bits -> msize m + sizeof_fat_arch < 2 ^ size_bits ->
  msize m < 2 ^ 32 -> msize m < Z.of_nat fuel ->
  exists m' o', parse_fat fuel size_bits (msize m) (mkst m o) = Ret (true, mkst m' o') /\
    file_stripped m m' ss.
Proof.
  intros (magic & Hmagic & Hss)%file_slices_inv Hb Hsz H32 Hf.
  destruct (is_fat magic) eqn:Efat.
  - destruct Hss as (n & n' & Hn & Hc & Hnn & Ha & Hss). pose proof (host_word_in_u n) as Hu.
    pose proof (arch_inside A_cputype). pose proof (arch_inside A_size).
    pose proof (fat_inside F_nfat_arch). unfold in_u in Hu. unfold arch_addr in Ha.
    set (N := OSSwapBigToHostInt32 n) in *.
    rewrite (fat_count_ok m n n' magic) by (done || (subst N; unfold arch_addr; nia)). fold N.
    destruct (parse_fat_loop_ok fuel fuel (msize m) (arch_addr N) n' (Z.to_nat n') 0 (arch_addr n') m
      (msg_fat_archs n' :: o) ss) as (m' & o' & Hrun & St);
      [done|lia|unfold in_u; nia|nia|lia|lia|unfold arch_addr; lia|unfold arch_addr; nia|done|done|].
    eauto.
  - destruct Hss as (s & -> & Hs). apply (load_le_bounds 4) in Hmagic as Hb0; [|lia].
    unfold parse_fat. destruct (msize m <? 4) eqn:E1; zbool; [lia|]. run_step ltac:(by apply getM_ret).
    unfold is_fat in Efat. apply negb_false_iff in Efat as ->. by eapply parse_macho_slice.
Qed.

Lemma fat_touched k m te ss i : fat_slices k m te 0 = Some ss ->
  (exists s, s ∈ ss /\ sl_touched s i) -> te + 4 <= i.
Proof.
  intros Hss (s & Hs & Hi). apply (fat_slices_elem _ _ _ _ _ _ Hss) in Hs as [Hsl Hte].
  apply slice_at_range in Hsl as (_ & _ & _ & Ht). apply Ht in Hi. lia.
Qed.

Lemma fat_count_frame Q m m' n n' :
  unchanged_outside Q m m' -> (forall i, Q i -> arch_addr n' + 4 <= i) ->
  load_le 4 m (off_fat F_nfat_arch) = Some n -> fat_count m = Some n' ->
  n' = OSSwapBigToHostInt32 n \/ n' = OSSwapBigToHostInt32 n + 1 -> fat_count m' = fat_count m.
Proof.
  intros Hu HQ Hn Hc Hnn. pose proof (fat_inside F_nfat_arch) as Hfi. pose proof (arch_inside A_cputype) as Hai.
  pose proof (host_word_in_u n) as HN. unfold in_u in HN. pose proof arch_cputype_first as Hct.
  unfold fat_count. rewrite (load_le_frame Q 4 m m' (off_fat F_nfat_arch) Hu), Hn.
  - simpl. replace (arch_word m' A_cputype (OSSwapBigToHostInt32 n))
      with (arch_word m A_cputype (OSSwapBigToHostInt32 n)).
    + by destruct Hu as [-> _].
    + unfold arch_word. f_equal. symmetry. apply (load_le_frame Q 4 m m' _ Hu).
      unfold within, arch_addr in *. intros i Hi Hq%HQ. destruct Hnn as [->| ->]; nia.
  - unfold within, arch_addr in *. intros i Hi Hq%HQ. destruct Hnn as [->| ->]; nia.
Qed.

(** The header, the table and the headers of the slices survive the stripping. *)
Lemma file_slices_stripped m m' ss :
  file_slices m = Some ss -> file_stripped m m' ss -> file_slices m' = Some ss.
Proof.
  intros (magic & Hmagic & Hss)%file_slices_inv [_ Hu]. unfold file_slices.
  pose proof Hu as [Hsz _]. destruct (is_fat magic) eqn:Ef.
  - destruct Hss as (n & n' & Hn & Hc & Hnn & Ha & Hss). pose proof (fat_inside F_magic).
    pose proof (arch_inside A_cputype). pose proof (host_word_in_u n) as HN. unfold in_u in HN.
    pose proof (fun i => fat_touched _ _ _ _ i Hss) as Ht.
    assert (Hn0 : 0 <= arch_addr n' /\ sizeof_fat_header <= arch_addr n') by (unfold arch_addr; nia).
    rewrite (load_le_frame _ 4 m m' 0 Hu) by (unfold within; intros i Hi Hq%Ht; lia).
    rewrite Hmagic, Ef, (fat_count_frame _ m m' n n' Hu Ht Hn Hc Hnn), Hc, Hsz.
    apply Z.leb_le in Ha as ->. eapply fat_slices_file_frame; [exact Hss| |exact Hu|done].
    rewrite Z2Nat.id by lia. done.
  - destruct Hss as (s & -> & Hs). pose proof (slice_at_range _ _ _ _ Hs) as (_ & _ & _ & Ht).
    rewrite (load_le_frame _ 4 m m' 0 Hu).
    + rewrite Hmagic, Ef, Hsz. erewrite slice_at_frame; [done|exact Hs|exact Hu|].
      intros i (t & ->%list_elem_of_singleton & Hi). by right; right.
    + unfold within. intros i Hi (t & ->%list_elem_of_singleton & Hq). apply Ht in Hq. lia.
Qed.

(** C1. Refinement for whole files: on a well-formed file, thin or fat, with the hidden arm64
    entry or not, [parse_fat] terminates with [true], strips every section of every slice,
    changes no byte outside the names and flags of those sections, and leaves a well-formed file
    with the same slices. *)
Theorem parse_fat_refines_strip (fuel : nat) (size_bits : Z) (m : mem) (o : list message)
    (ss : list slice) :
  file_slices m = Some ss -> 0 <= size_bits -> msize m + sizeof_fat_arch < 2 ^ size_bits ->
  msize m < 2 ^ 32 -> msize m < Z.of_nat fuel ->
  exists m' o', parse_fat fuel size_bits (msize m) (mkst m o) = Ret (true, mkst m' o') /\
    file_stripped m m' ss /\ file_slices m' = Some ss.
Proof.
  intros Hss Hb Hsz H32 Hf.
  destruct (parse_fat_ok fuel size_bits m o ss Hss Hb Hsz H32 Hf) as (m' & o' & Hrun & St).
  exists m', o'. split_and!; [done|done|]. by eapply file_slices_stripped.
Qed.

End File.
