(* ===== verification/MarkGCSafety.v ===== *)
(** * markgc on arbitrary input

    What holds without assuming a well-formed file: every run ends, the loops
    need at most [2^32] iterations each; no byte before a slice's load commands
    and no byte of the declared fat table is ever written; the checks of the
    fat table; the rejections, all of them; and the reads the program makes
    behind the mapping, for want of a check. *)

From Stdlib Require Import ZArith Lia Bool String.
From stdpp Require Import base list.
From coqutil Require Import Byte Word.LittleEndianList.
From S2P Require Import Prelude Memory CString ByteOrder Endian MachO MarkGC MarkGCSpec MarkGCFile.

Local Open Scope Z_scope.
Local Open Scope markgc_scope.

(** ** Termination *)

Definition ends {A} (c : M A) : Prop := forall s, c s <> OutOfFuel.

Lemma ends_ret {A} (a : A) : ends (ret a).
Proof. by intros s. Qed.

Lemma ends_bind {A B} (c : M A) (k : A -> M B) : ends c -> (forall a, ends (k a)) -> ends (bind c k).
Proof.
  intros Hc Hk s. specialize (Hc s). unfold bind. destruct (c s) as [[a s']| |]; [apply Hk|done|done].
Qed.

(** The variant for an action whose result bounds the rest of the run. *)
Lemma ends_getM_bind {A B} (f : mem -> option A) (k : A -> M B) :
  (forall m a, f m = Some a -> ends (k a)) -> ends (bind (getM f) k).
Proof.
  intros Hk s. unfold bind, getM, rdM. destruct (f (buf s)) as [a|] eqn:E; simpl; [|done].
  by eapply Hk.
Qed.

Lemma ends_rdM {A} (f : mem -> outcome A) : (forall m, f m <> OutOfFuel) -> ends (rdM f).
Proof. intros Hf s. unfold rdM. specialize (Hf (buf s)). by destruct (f (buf s)). Qed.

Lemma ends_getM {A} (f : mem -> option A) : ends (getM f).
Proof. apply ends_rdM. intros m. apply of_option_fuel. Qed.

Lemma ends_putM f : ends (putM f).
Proof. intros s. unfold putM. by destruct (f (buf s)). Qed.

Lemma ends_printf msg : ends (printf msg).
Proof. by intros s. Qed.

Lemma ends_debugf c : ends c -> ends (debugf c).
Proof. done. Qed.

Lemma strncmp_ends m p s n : strncmp_eq m p s n <> OutOfFuel.
Proof.
  revert p s. induction n as [|n IH]; intros p s; [done|]. cbn [strncmp_eq].
  destruct (rd m p); simpl; [|done]. destruct s; [done|]. by repeat case_decide.
Qed.

Lemma read_cstr_ends n m p : read_cstr n m p <> OutOfFuel.
Proof.
  revert p. induction n as [|n IH]; intros p; [done|]. cbn [read_cstr].
  destruct (rd m p); simpl; [|done]. case_decide; [done|].
  specialize (IH (p + 1)). by destruct (read_cstr n m (p + 1)).
Qed.

Create HintDb ends.
#[export] Hint Resolve ends_ret ends_getM ends_putM ends_printf strncmp_ends read_cstr_ends : ends.

(** Walks through a straight-line action. *)
Ltac ends_auto :=
  repeat match goal with
  | |- ends (bind _ _) => apply ends_bind; [|intros ?]
  | |- ends (debugf _) => apply ends_debugf
  | |- ends (if ?b then _ else _) => destruct b
  | |- ends (rdM _) => apply ends_rdM; intros ?
  | _ => solve [auto with ends]
  end.

Section Safety.
Context {H : loader_h} {OK : loader_h_ok H}.

Section Slice.
Context (E : Endian) {L : EndianLaws E} (P : pointer_size).

Lemma dosect_ends a : ends (dosect E P a).
Proof. unfold dosect, andM, segnameStartsWith, sectnameEquals, segnameEquals. ends_auto. Qed.

Lemma doseg_loop_ends k seg sect i : 0 <= i < 2 ^ 32 -> 2 ^ 32 - i <= Z.of_nat k ->
  ends (doseg_loop E P k seg sect i).
Proof.
  revert i. induction k as [|k IH]; intros i Hi Hk; [lia|]. cbn [doseg_loop].
  apply ends_getM_bind. intros m n Hn%get32_in_u. unfold in_u in Hn.
  destruct (i <? n) eqn:Ei; zbool; [|apply ends_ret].
  apply ends_bind; [apply dosect_ends|intros _]. rewrite wrap_id by (unfold in_u; lia). apply IH; lia.
Qed.

Lemma doseg_ends fuel seg : 2 ^ 32 <= Z.of_nat fuel -> ends (doseg fuel E P seg).
Proof.
  intros Hf. unfold doseg. apply ends_bind; [ends_auto|intros _]. apply doseg_loop_ends; lia.
Qed.

Lemma parse_macho_loop_ends fuel k mh cmds c : 2 ^ 32 <= Z.of_nat fuel ->
  0 <= c < 2 ^ 32 -> 2 ^ 32 - c <= Z.of_nat k -> ends (parse_macho_loop fuel E P k mh cmds c).
Proof.
  intros Hf. revert cmds c. induction k as [|k IH]; intros cmds c Hc Hk; [lia|]. cbn [parse_macho_loop].
  apply ends_getM_bind. intros m n Hn%get32_in_u. unfold in_u in Hn.
  destruct (c <? n) eqn:Ec; zbool; [|apply ends_ret].
  apply ends_bind; [auto with ends|intros size]. apply ends_bind; [auto with ends|intros ty].
  apply ends_bind; [case_match; [by apply doseg_ends|apply ends_ret]|intros _].
  rewrite wrap_id by (unfold in_u; lia). apply IH; lia.
Qed.

End Slice.

Lemma parse_macho_ends fuel b : 2 ^ 32 <= Z.of_nat fuel -> ends (parse_macho fuel b).
Proof.
  intros Hf. unfold parse_macho. apply ends_bind; [auto with ends|intros magic].
  repeat (destruct (magic =? _); [unfold parse_macho_P; apply parse_macho_loop_ends; (apply _ || lia)|]).
  ends_auto.
Qed.

Lemma arch_get_ends f i : ends (arch_get f i).
Proof. unfold arch_get. ends_auto. Qed.

Lemma parse_fat_loop_ends fuel k size fas n i : 2 ^ 32 <= Z.of_nat fuel -> in_u 32 n ->
  0 <= i < 2 ^ 32 -> 2 ^ 32 - i <= Z.of_nat k -> ends (parse_fat_loop fuel k size fas n i).
Proof.
  intros Hf Hn. unfold in_u in Hn. revert i. induction k as [|k IH]; intros i Hi Hk; [lia|].
  cbn [parse_fat_loop]. destruct (i <? n) eqn:Ei; zbool; [|apply ends_ret].
  do 4 (apply ends_bind; [apply arch_get_ends|intros ?]). apply ends_bind; [ends_auto|intros _].
  repeat (case_match; [ends_auto|]).
  apply ends_bind; [by apply parse_macho_ends|intros ok]. destruct (negb ok); [apply ends_ret|].
  rewrite wrap_id by (unfold in_u; lia). apply IH; lia.
Qed.

(** C18. Termination: with [2^32] iterations allowed per loop, [parse_fat] on any bytes, of any
    declared size, returns or faults - its loops cannot run for ever, whatever the counts in the
    file say. *)
Theorem parse_fat_terminates (fuel : nat) (size_bits size : Z) (s : st) :
  2 ^ 32 <= Z.of_nat fuel -> parse_fat fuel size_bits size s <> OutOfFuel.
Proof.
  intros Hf. revert s. change (ends (parse_fat fuel size_bits size)). unfold parse_fat.
  destruct (size <? 4); [ends_auto|]. apply ends_bind; [auto with ends|intros magic].
  destruct (_ && _); [by apply parse_macho_ends|]. destruct (size <? sizeof_fat_header); [ends_auto|].
  apply ends_bind; [auto with ends|intros w]. destruct (os_mul_and_add_overflow _ _ _ _) as [[] fas]; [ends_auto|].
  destruct (size <? fas); [ends_auto|]. destruct (os_add_overflow _ _ _) as [[] fas1]; [ends_auto|].
  pose proof (host_word_in_u w) as Hw. set (N := OSSwapBigToHostInt32 w) in *.
  destruct ((fas1 <=? size) && (0 <? N)).
  - intros s. rewrite bind_assoc. revert s. apply ends_bind; [apply arch_get_ends|intros t].
    rewrite bind_ret_l. apply ends_bind; [ends_auto|intros _].
    apply parse_fat_loop_ends; [done| |lia|lia]. destruct (t =? _); [by apply wrap_range|done].
  - rewrite bind_ret_l. apply ends_bind; [ends_auto|intros _]. by apply parse_fat_loop_ends; [| |lia|lia].
Qed.

(** ** Frame: what is never written *)

Abbreviation from lo := (fun i => lo <= i).

Lemma respects_getM_bind (R : mem -> mem -> Prop) {A B} (f : mem -> option A) (k : A -> M B) :
  (forall m a, f m = Some a -> respects R (k a)) -> respects R (bind (getM f) k).
Proof.
  intros Hk s b s''. unfold bind, getM, rdM.
  destruct (f (buf s)) as [a|] eqn:Ef; simpl; [|done]. by apply (Hk (buf s)).
Qed.

Lemma respects_store_from lo a bs :
  lo <= a -> respects (unchanged_outside (from lo)) (putM (fun m => store m a bs)).
Proof.
  intros Ha. apply respects_putM. intros m m' Hm%store_frame.
  eapply unchanged_outside_weaken; [|exact Hm]. unfold within. lia.
Qed.

Section SliceFrame.
Context (E : Endian) {L : EndianLaws E} (P : pointer_size).

Lemma respects_set32_from lo a v :
  lo <= a -> respects (unchanged_outside (from lo)) (putM (fun m => set32 m a v)).
Proof.
  intros Ha. apply respects_putM. intros m m' Hm%set32_frame.
  eapply unchanged_outside_weaken; [|exact Hm]. unfold within. lia.
Qed.

Lemma dosect_from lo a : lo <= a -> respects (unchanged_outside (from lo)) (dosect E P a).
Proof.
  intros Ha. pose proof (section_inside P S_flags) as Hf. pose proof (section_inside P S_sectname) as Hn.
  simpl in Hf, Hn. unfold dosect, debugf, debug, andM, segnameStartsWith, sectnameEquals, segnameEquals.
  repeat match goal with
  | |- respects _ (bind _ _) => apply respects_bind; [apply _| |intros ?]
  | |- respects _ (if ?b then _ else _) => destruct b
  | |- respects _ (putM (fun m => sect_set_flags _ _ _ _ _)) => apply respects_set32_from; lia
  | |- respects _ (putM (fun m => sect_set_sectname _ _ _ _)) =>
      apply respects_store_from; unfold sect_sectname; lia
  | _ => solve [auto with respects typeclass_instances]
  end.
Qed.

Lemma doseg_loop_from lo k seg sect i : lo <= sect -> 0 <= i ->
  respects (unchanged_outside (from lo)) (doseg_loop E P k seg sect i).
Proof.
  intros Hs. pose proof (sizeof_section_pos P). revert i. induction k as [|k IH]; intros i Hi.
  { apply respects_timeout. }
  cbn [doseg_loop]. apply respects_bind; [apply _|apply respects_getM, _|intros n].
  destruct (i <? n); [|apply respects_ret, _].
  apply respects_bind; [apply _|apply dosect_from; nia|intros _]. apply IH. by apply wrap_range.
Qed.

Lemma doseg_from lo fuel seg : lo <= seg -> respects (unchanged_outside (from lo)) (doseg fuel E P seg).
Proof.
  intros Hs. unfold doseg, debugf, debug. pose proof (command_prefix P). pose proof (command_inside L_cmd).
  apply respects_bind; [apply _| |intros _; apply doseg_loop_from; lia].
  apply respects_bind; [apply _|apply respects_rdM, _|intros g].
  apply respects_bind; [apply _|apply respects_getM, _|intros n]. apply respects_printf, _.
Qed.

Lemma parse_macho_loop_from lo fuel k mh cmds c : lo <= cmds ->
  respects (unchanged_outside (from lo)) (parse_macho_loop fuel E P k mh cmds c).
Proof.
  revert cmds c. induction k as [|k IH]; intros cmds c Hc; [apply respects_timeout|].
  cbn [parse_macho_loop]. apply respects_bind; [apply _|apply respects_getM, _|intros n].
  destruct (c <? n); [|apply respects_ret, _].
  apply respects_getM_bind. intros m size Hs%get32_in_u. unfold in_u in Hs.
  apply respects_bind; [apply _|apply respects_getM, _|intros ty].
  apply respects_bind; [apply _| |intros _; apply IH; lia].
  destruct (_ || _); [by apply doseg_from|apply respects_ret, _].
Qed.

End SliceFrame.

Lemma parse_macho_from lo fuel b : lo <= b + 4 ->
  respects (unchanged_outside (from lo)) (parse_macho fuel b).
Proof.
  intros Hb. pose proof (sizeof_header_4 Pointer32). pose proof (sizeof_header_4 Pointer64).
  unfold parse_macho, parse_macho_P. apply respects_bind; [apply _|apply respects_getM, _|intros magic].
  repeat (destruct (magic =? _); [apply parse_macho_loop_from; (apply _ || lia)|]).
  apply respects_bind; [apply _|apply respects_printf, _|intros _; apply respects_ret, _].
Qed.

Lemma arch_get_from Q f i : respects (unchanged_outside Q) (arch_get f i).
Proof.
  apply respects_bind; [apply _|apply respects_getM, _|intros ?; apply respects_ret, _].
Qed.

Lemma reject_from Q msg : respects (unchanged_outside Q) (printf msg ;; ret false).
Proof. apply respects_bind; [apply _|apply respects_printf, _|intros ?; apply respects_ret, _]. Qed.

Lemma parse_fat_loop_from lo fuel k size fas n i : lo <= fas ->
  respects (unchanged_outside (from lo)) (parse_fat_loop fuel k size fas n i).
Proof.
  intros Hlo. revert i. induction k as [|k IH]; intros i; [apply respects_timeout|].
  cbn [parse_fat_loop]. destruct (i <? n); [|apply respects_ret, _].
  do 4 (apply respects_bind; [apply _|apply arch_get_from|intros ?]).
  apply respects_bind; [apply _|apply respects_printf, _|intros _].
  destruct (_ <? fas) eqn:C1; [apply reject_from|]. zbool.
  repeat (case_match; [apply reject_from|]).
  apply respects_bind; [apply _|apply parse_macho_from; lia|intros ok].
  destruct (negb ok); [apply respects_ret, _|apply IH].
Qed.

Lemma os_mul_and_add_exact w a x b :
  0 <= w -> in_u w a -> in_u w x -> in_u w b ->
  fst (os_mul_and_add_overflow w a x b) = (2 ^ w <=? a * x + b) /\
  (fst (os_mul_and_add_overflow w a x b) = false -> snd (os_mul_and_add_overflow w a x b) = a * x + b).
Proof.
  unfold in_u. intros Hw Ha Hx Hb. unfold os_mul_and_add_overflow, os_mul_overflow, os_add_overflow.
  destruct (2 ^ w <=? a * x) eqn:E1; simpl; zbool.
  - split; [|done]. symmetry. apply Z.leb_le. lia.
  - rewrite (wrap_id w (a * x)) by (unfold in_u; nia).
    split; [f_equal; lia|]. intros E2. zbool. rewrite wrap_id by (unfold in_u; nia). lia.
Qed.

(** The overflow helper: [os_mul_and_add_overflow] reports an overflow exactly when
    [a * x + b] does not fit in a [size_t], and otherwise gives that value. *)
Theorem os_mul_and_add_overflow_spec (w a x b : Z) :
  0 <= w -> in_u w a -> in_u w x -> in_u w b ->
  fst (os_mul_and_add_overflow w a x b) = (2 ^ w <=? a * x + b) /\
  (fst (os_mul_and_add_overflow w a x b) = false -> snd (os_mul_and_add_overflow w a x b) = a * x + b).
Proof. intros Hw Ha Hx Hb. by apply os_mul_and_add_exact. Qed.

(** *** The fat branch of [parse_fat], peeled down to its loop *)

Context (size_bits : Z) (Hbits : 32 <= size_bits)
  (Hfh : in_u size_bits sizeof_fat_header) (Hfa : in_u size_bits sizeof_fat_arch).

Lemma word_fits w : in_u size_bits (OSSwapBigToHostInt32 w).
Proof.
  pose proof (host_word_in_u w) as Hw. unfold in_u in *.
  pose proof (Z.pow_le_mono_r 2 32 size_bits). lia.
Qed.

Lemma table_size w : let N := OSSwapBigToHostInt32 w in
  os_mul_and_add_overflow size_bits N sizeof_fat_arch sizeof_fat_header
  = (2 ^ size_bits <=? arch_addr N, wrap size_bits (arch_addr N)).
Proof.
  intros N. pose proof (word_fits w) as Hw. fold N in Hw.
  destruct (os_mul_and_add_exact size_bits N sizeof_fat_arch sizeof_fat_header) as [H1 H2]; [lia|done..|].
  destruct (os_mul_and_add_overflow _ _ _ _) as [ovf r] eqn:Eo. simpl in H1, H2.
  replace (N * sizeof_fat_arch + sizeof_fat_header) with (arch_addr N) in * by (unfold arch_addr; lia).
  rewrite <- H1. f_equal. revert Eo. unfold os_mul_and_add_overflow, os_mul_overflow, os_add_overflow.
  intros [= _ <-]. unfold wrap, arch_addr. rewrite Zplus_mod_idemp_r. done.
Qed.

Lemma arch_get_inv f i s x s' : arch_get f i s = Ret (x, s') ->
  arch_word (buf s) f i = Some x /\ s' = s.
Proof.
  unfold arch_get, arch_word. intros (y & s1 & Hy & [= <- <-])%bind_inv. unfold getM, rdM in Hy.
  destruct (load_le 4 (buf s) _); [|discriminate]. injection Hy as <- <-. done.
Qed.

(** *** What [parse_fat] does, branch by branch *)

Definition say (msg : message) (s : st) : st := mkst (buf s) (msg :: out s).

(** The number of entries the loop visits, the hidden arm64 entry included. *)
Definition loop_count (m : mem) (size N : Z) : option Z :=
  if (arch_addr (N + 1) <=? size) && (0 <? N) then
    (fun t => if t =? CPU_TYPE_ARM64 then u32 (N + 1) else N) <$> arch_word m A_cputype N
  else Some N.

Lemma loop_count_cases m size N n : loop_count m size N = Some n -> in_u 32 N ->
  in_u 32 n /\ (n = N \/ (n = u32 (N + 1) /\ arch_word m A_cputype N = Some CPU_TYPE_ARM64 /\
                        arch_addr (N + 1) <= size)).
Proof.
  unfold loop_count. intros Hn HN. destruct ((_ <=? _) && _) eqn:E; [|injection Hn as <-; auto].
  apply andb_true_iff in E as [E _]. zbool.
  destruct (arch_word m A_cputype N) as [t|]; [|discriminate]. injection Hn as <-.
  destruct (t =? CPU_TYPE_ARM64) eqn:Et; zbool; [|auto]. subst t.
  split; [by apply wrap_range|auto].
Qed.

Lemma arch_addr_mono i j : 0 <= i <= j -> sizeof_fat_header <= arch_addr i <= arch_addr j.
Proof. intros. pose proof (arch_inside A_cputype). unfold arch_addr. nia. Qed.

(** One equation for the whole function: each test with what it guards. *)
Lemma parse_fat_equation fuel size s : parse_fat fuel size_bits size s =
  if size <? 4 then Ret (false, say msg_too_small s) else
  match load_le 4 (buf s) 0 with
  | None => Fault
  | Some magic =>
    if negb (is_fat magic) then parse_macho fuel 0 s
    else if size <? sizeof_fat_header then Ret (false, say msg_too_small s) else
    match load_le 4 (buf s) (off_fat F_nfat_arch) with
    | None => Fault
    | Some w =>
      let N := OSSwapBigToHostInt32 w in
      if 2 ^ size_bits <=? arch_addr N then Ret (false, say msg_too_many_archs s)
      else if size <? arch_addr N then Ret (false, say msg_too_small s)
      else if 2 ^ size_bits <=? arch_addr (N + 1) then Ret (false, say msg_too_many_archs s)
      else match loop_count (buf s) size N with
           | None => Fault
           | Some n => parse_fat_loop fuel fuel size (arch_addr N) n 0 (say (msg_fat_archs n) s)
           end
    end
  end.
Proof.
  unfold parse_fat. destruct (size <? 4); [done|]. unfold bind at 1, getM at 1, rdM at 1.
  destruct (load_le 4 (buf s) 0) as [magic|]; [|done]. cbn [of_option]. unfold is_fat. rewrite negb_involutive.
  destruct (_ && _); [done|]. destruct (size <? sizeof_fat_header); [done|].
  unfold bind at 1, getM at 1, rdM at 1.
  destruct (load_le 4 (buf s) (off_fat F_nfat_arch)) as [w|]; [|done]. cbn [of_option]. rewrite table_size.
  set (N := OSSwapBigToHostInt32 w). pose proof (host_word_in_u w) as HN. fold N in HN. unfold in_u in HN.
  pose proof (arch_addr_mono 0 N ltac:(lia)). pose proof (fat_inside F_magic).
  pose proof (arch_inside A_cputype).
  destruct (2 ^ size_bits <=? arch_addr N) eqn:E1; [done|]. zbool.
  rewrite wrap_id by (unfold in_u; lia). destruct (size <? arch_addr N); [done|].
  unfold os_add_overflow.
  replace (arch_addr N + sizeof_fat_arch) with (arch_addr (N + 1)) by (unfold arch_addr; lia).
  destruct (2 ^ size_bits <=? arch_addr (N + 1)) eqn:E2; [done|]. zbool.
  rewrite wrap_id by (unfold in_u; pose proof (arch_addr_mono N (N + 1)); lia). unfold loop_count.
  destruct (_ && _); [|done]. unfold arch_get, arch_word, getM, bind, rdM.
  by destruct (load_le 4 (buf s) (arch_addr N + off_arch A_cputype)).
Qed.

(** Every run of the fat branch is a rejection that changes nothing, or the loop
    over the table with the exact table size. *)
Lemma parse_fat_cases fuel size s magic w r :
  load_le 4 (buf s) 0 = Some magic -> is_fat magic = true ->
  load_le 4 (buf s) (off_fat F_nfat_arch) = Some w ->
  parse_fat fuel size_bits size s = Ret r ->
  (exists msg, r = (false, say msg s)) \/
  (exists n, loop_count (buf s) size (OSSwapBigToHostInt32 w) = Some n /\
     parse_fat_loop fuel fuel size (arch_addr (OSSwapBigToHostInt32 w)) n 0 (say (msg_fat_archs n) s) = Ret r).
Proof.
  intros Hmagic Hfat Hw. rewrite parse_fat_equation, Hmagic, Hfat, Hw. cbv zeta. simpl negb. cbv iota.
  repeat (destruct (_ <? _); [intros [= <-]; left; by eexists|]).
  destruct (_ <=? _); [intros [= <-]; left; by eexists|].
  destruct (size <? _); [intros [= <-]; left; by eexists|].
  destruct (_ <=? _); [intros [= <-]; left; by eexists|].
  destruct (loop_count _ _ _) as [n|]; [|discriminate]. intros Hrun. right. by exists n.
Qed.

(** C19. Safety on arbitrary input: whatever the file contains and whatever the result, the fat
    header and the declared table of architectures are never written, and the length of the file
    never changes. *)
Theorem parse_fat_keeps_table (fuel : nat) (size : Z) (s s' : st) (ok : bool) (magic w : Z) :
  load_le 4 (buf s) 0 = Some magic -> is_fat magic = true ->
  load_le 4 (buf s) (off_fat F_nfat_arch) = Some w ->
  parse_fat fuel size_bits size s = Ret (ok, s') ->
  unchanged_outside (fun i => arch_addr (OSSwapBigToHostInt32 w) <= i) (buf s) (buf s').
Proof.
  intros Hm Hf Hw Hrun.
  destruct (parse_fat_cases _ _ _ _ _ _ Hm Hf Hw Hrun) as [(msg & [= -> ->])|(n & _ & Hloop)];
    [reflexivity|].
  apply (parse_fat_loop_from (arch_addr (OSSwapBigToHostInt32 w))) in Hloop; [exact Hloop|lia].
Qed.

(** The table entries are checked before their slices are touched. *)
Definition entry_inside (m : mem) (fas size i : Z) : Prop :=
  exists off sz, arch_word m A_offset i = Some off /\ arch_word m A_size i = Some sz /\
    fas <= off /\ off + sz <= size.

Lemma parse_fat_loop_checked fuel k size fas n i s s' :
  parse_fat_loop fuel k size fas n i s = Ret (true, s') -> in_u 32 n -> 0 <= i ->
  forall j, i <= j < n -> arch_addr (j + 1) <= fas -> entry_inside (buf s) fas size j.
Proof.
  intros Hrun Hn. revert i s Hrun. unfold in_u in Hn.
  induction k as [|k IH]; intros i s; [discriminate|].
  cbn [parse_fat_loop]. intros Hrun Hi j Hj Hja. destruct (i <? n) eqn:Ei; zbool; [|lia].
  apply bind_inv in Hrun as (ct & s1 & [_ ->]%arch_get_inv & Hrun).
  apply bind_inv in Hrun as (cs & s1 & [_ ->]%arch_get_inv & Hrun).
  apply bind_inv in Hrun as (off & s1 & [Ho ->]%arch_get_inv & Hrun).
  apply bind_inv in Hrun as (sz & s1 & [Hz ->]%arch_get_inv & Hrun).
  apply bind_inv in Hrun as ([] & s1 & [= <-] & Hrun).
  destruct (off <? fas) eqn:C1; [discriminate|]. destruct (size <? off) eqn:C2; [discriminate|].
  destruct (size <? sz) eqn:C3; [discriminate|]. destruct (size - sz <? off) eqn:C4; [discriminate|].
  zbool. apply bind_inv in Hrun as ([] & s1 & Hm & Hrun); [|discriminate].
  rewrite wrap_id in Hrun by (unfold in_u; lia).
  apply (parse_macho_from fas) in Hm; [|lia]. simpl in Hm.
  destruct (Z.eq_dec j i) as [->|Hne]; [exists off, sz; split_and!; [done|done|lia|lia]|].
  destruct (IH _ _ Hrun ltac:(lia) j ltac:(lia) Hja) as (off' & sz' & Ho' & Hz' & Hb).
  exists off', sz'. by rewrite <- !(arch_word_frame _ _ _ _ _ _ Hm (fun _ h => h) Hja).
Qed.

(** C20. Bounds of the slices: if [parse_fat] accepts a fat file, every entry of the declared
    table describes a slice that starts after the table and ends inside the file - unless the
    table declares all of the [2^32 - 1] entries a count can hold, the file has room for one more
    and that one says arm64: then the incremented count is 0 and the file is accepted as it is,
    whatever its entries say. *)
Theorem parse_fat_checks_slices (fuel : nat) (size : Z) (s s' : st) (magic w i : Z) :
  load_le 4 (buf s) 0 = Some magic -> is_fat magic = true ->
  load_le 4 (buf s) (off_fat F_nfat_arch) = Some w ->
  parse_fat fuel size_bits size s = Ret (true, s') ->
  0 <= i < OSSwapBigToHostInt32 w ->
  entry_inside (buf s) (arch_addr (OSSwapBigToHostInt32 w)) size i \/
  (OSSwapBigToHostInt32 w = 2 ^ 32 - 1 /\ arch_addr (2 ^ 32) <= size /\
   arch_word (buf s) A_cputype (2 ^ 32 - 1) = Some CPU_TYPE_ARM64 /\ buf s' = buf s).
Proof.
  intros Hm Hf Hw Hrun Hi. pose proof (host_word_in_u w) as HN.
  destruct (parse_fat_cases _ _ _ _ _ _ Hm Hf Hw Hrun) as [(msg & [=])|(n & Hn & Hloop)].
  set (N := OSSwapBigToHostInt32 w) in *. pose proof (arch_inside A_cputype).
  destruct (loop_count_cases _ _ _ _ Hn HN) as [Hu Hcases]. unfold in_u in HN.
  destruct Hcases as [->|(-> & Ha & Hs)]; [|destruct (Z.eq_dec N (2 ^ 32 - 1)) as [E|]].
  2:{ right. rewrite E in *. change (u32 (2 ^ 32 - 1 + 1)) with 0 in Hloop.
      destruct fuel as [|k]; [discriminate|]. injection Hloop as <-. done. }
  all: left; try rewrite wrap_id in Hloop by (unfold in_u; lia);
    try rewrite wrap_id in Hu by (unfold in_u; lia);
    (apply (parse_fat_loop_checked _ _ _ _ _ _ _ _ Hloop) with (j := i);
     [done|lia|lia|unfold arch_addr; nia]).
Qed.

(** The exception is real: such a file is accepted as it is. *)
Lemma count_wraps_to_zero (fuel : nat) (size : Z) (s : st) (magic w : Z) :
  load_le 4 (buf s) 0 = Some magic -> is_fat magic = true ->
  load_le 4 (buf s) (off_fat F_nfat_arch) = Some w -> OSSwapBigToHostInt32 w = 2 ^ 32 - 1 ->
  arch_addr (2 ^ 32) <= size < 2 ^ size_bits ->
  arch_word (buf s) A_cputype (2 ^ 32 - 1) = Some CPU_TYPE_ARM64 ->
  parse_fat (S fuel) size_bits size s = Ret (true, say (msg_fat_archs 0) s).
Proof.
  intros Hm Hf Hw HN Hs Ha. rewrite parse_fat_equation, Hm, Hf, Hw. cbv zeta. simpl negb. cbv iota.
  rewrite HN. pose proof (arch_addr_mono (2 ^ 32 - 1) (2 ^ 32) ltac:(lia)).
  pose proof (fat_inside F_nfat_arch). change (2 ^ 32 - 1 + 1) with (2 ^ 32).
  destruct (size <? 4) eqn:E1; zbool; [lia|]. destruct (size <? sizeof_fat_header) eqn:E2; zbool; [lia|].
  destruct (_ <=? arch_addr (2 ^ 32 - 1)) eqn:E3; zbool; [lia|].
  destruct (size <? _) eqn:E4; zbool; [lia|]. destruct (_ <=? arch_addr (2 ^ 32)) eqn:E5; zbool; [lia|].
  unfold loop_count. change (2 ^ 32 - 1 + 1) with (2 ^ 32). rewrite Ha.
  destruct (arch_addr (2 ^ 32) <=? size) eqn:E6; zbool; [done|lia].
Qed.

(** *** Rejections *)

Definition table_entry (m : mem) (i ct cs off sz : Z) : Prop :=
  arch_word m A_cputype i = Some ct /\ arch_word m A_cpusubtype i = Some cs /\
  arch_word m A_offset i = Some off /\ arch_word m A_size i = Some sz.

(** The first [i] entries were checked and their slices processed, one after the other. *)
Inductive slices_done (fuel : nat) (size fas : Z) (s : st) : Z -> st -> Prop :=
| slices_none : slices_done fuel size fas s 0 s
| slices_next i s1 s2 ct cs off sz :
    slices_done fuel size fas s i s1 -> table_entry (buf s1) i ct cs off sz ->
    fas <= off -> off + sz <= size ->
    parse_macho fuel off (say (msg_arch ct cs) s1) = Ret (true, s2) ->
    slices_done fuel size fas s (i + 1) s2.

(** Entry [i] is refused: its slice is not between the table and the end of the
    file, or does not begin with one of the four magic numbers. *)
Inductive entry_refused (size fas i : Z) (s : st) : st -> Prop :=
| refused_bounds ct cs off sz :
    table_entry (buf s) i ct cs off sz -> ~ (fas <= off /\ off + sz <= size) ->
    entry_refused size fas i s (say msg_badly_formed (say (msg_arch ct cs) s))
| refused_magic ct cs off sz magic :
    table_entry (buf s) i ct cs off sz -> fas <= off -> off + sz <= size ->
    load_le 4 (buf s) off = Some magic -> magic_variant magic = None ->
    entry_refused size fas i s (say (msg_not_macho magic) (say (msg_arch ct cs) s)).

(** A file with the magic number and the header of a fat file that declares [N] entries. *)
Definition fat_header_of (m : mem) (size N : Z) : Prop :=
  sizeof_fat_header <= size /\
  exists magic w, load_le 4 m 0 = Some magic /\ is_fat magic = true /\
    load_le 4 m (off_fat F_nfat_arch) = Some w /\ N = OSSwapBigToHostInt32 w.

(** The ways a file is rejected, with what is printed last and the file that is left. *)
Inductive rejection (fuel : nat) (size : Z) (s : st) : st -> Prop :=
| reject_tiny : size < 4 -> rejection fuel size s (say msg_too_small s)
| reject_magic magic : 4 <= size -> load_le 4 (buf s) 0 = Some magic ->
    is_fat magic = false -> magic_variant magic = None ->
    rejection fuel size s (say (msg_not_macho magic) s)
| reject_header magic : 4 <= size < sizeof_fat_header -> load_le 4 (buf s) 0 = Some magic ->
    is_fat magic = true -> rejection fuel size s (say msg_too_small s)
| reject_count N : fat_header_of (buf s) size N ->
    2 ^ size_bits <= arch_addr N \/ (arch_addr N <= size /\ 2 ^ size_bits <= arch_addr (N + 1)) ->
    rejection fuel size s (say msg_too_many_archs s)
| reject_table N : fat_header_of (buf s) size N -> size < arch_addr N < 2 ^ size_bits ->
    rejection fuel size s (say msg_too_small s)
| reject_entry N n i s1 s' : fat_header_of (buf s) size N ->
    arch_addr N <= size -> arch_addr (N + 1) < 2 ^ size_bits -> loop_count (buf s) size N = Some n ->
    0 <= i < n -> i < Z.of_nat fuel ->
    slices_done fuel size (arch_addr N) (say (msg_fat_archs n) s) i s1 ->
    entry_refused size (arch_addr N) i s1 s' -> rejection fuel size s s'.

Lemma parse_macho_loop_true E P fuel k mh cmds c s b s' :
  parse_macho_loop fuel E P k mh cmds c s = Ret (b, s') -> b = true.
Proof.
  revert cmds c s. induction k as [|k IH]; intros cmds c s; [discriminate|]. cbn [parse_macho_loop].
  intros (n & s1 & _ & Hrun)%bind_inv. destruct (c <? n); [|by injection Hrun].
  apply bind_inv in Hrun as (sz & s2 & _ & Hrun). apply bind_inv in Hrun as (ty & s3 & _ & Hrun).
  apply bind_inv in Hrun as ([] & s4 & _ & Hrun). by eapply IH.
Qed.

Lemma parse_macho_refuses fuel off s s' : parse_macho fuel off s = Ret (false, s') <->
  exists magic, load_le 4 (buf s) off = Some magic /\ magic_variant magic = None /\
    s' = say (msg_not_macho magic) s.
Proof.
  unfold parse_macho, parse_macho_P, magic_variant. split.
  - intros (magic & s1 & Hm & Hrun)%bind_inv. unfold getM, rdM in Hm.
    destruct (load_le 4 (buf s) off) as [x|]; [|discriminate]. injection Hm as -> <-. exists magic.
    split; [done|]. repeat (destruct (magic =? _); [by apply parse_macho_loop_true in Hrun|]).
    by injection Hrun as <-.
  - intros (magic & Hm & Hv & ->). run_step ltac:(by apply getM_ret).
    by repeat (destruct (magic =? _); [discriminate|]).
Qed.

Lemma table_entry_words m i ct cs off sz : table_entry m i ct cs off sz -> in_u 32 off /\ in_u 32 sz.
Proof. intros (_ & _ & Ho & Hz). split; by eapply arch_word_in_u. Qed.

(** One turn of the loop: the entry is read, then refused or its slice processed. *)
Lemma parse_fat_loop_turn fuel k size fas n i s ct cs off sz :
  i < n -> table_entry (buf s) i ct cs off sz ->
  parse_fat_loop fuel (S k) size fas n i s =
  if (fas <=? off) && (off + sz <=? size) then
    bind (parse_macho fuel off) (fun ok => if negb ok then ret false
      else parse_fat_loop fuel k size fas n (u32 (i + 1))) (say (msg_arch ct cs) s)
  else Ret (false, say msg_badly_formed (say (msg_arch ct cs) s)).
Proof.
  intros Hi Ht. destruct (table_entry_words _ _ _ _ _ _ Ht) as [Huo Huz]. unfold in_u in Huo, Huz.
  destruct s as [m o], Ht as (Hct & Hcs & Ho & Hz). simpl in Hct, Hcs, Ho, Hz. cbn [parse_fat_loop].
  apply Z.ltb_lt in Hi as ->. do 4 (run_step ltac:(by apply arch_get_ret)). run_step ltac:(reflexivity).
  destruct (fas <=? off) eqn:C1; destruct (off <? fas) eqn:D1; zbool; try lia; [|done].
  destruct (off + sz <=? size) eqn:C2; zbool; simpl.
  - destruct (size <? off) eqn:D2; zbool; [lia|]. destruct (size <? sz) eqn:D3; zbool; [lia|].
    destruct (size - sz <? off) eqn:D4; zbool; [lia|]. done.
  - destruct (size <? off) eqn:D2; zbool; [done|]. destruct (size <? sz) eqn:D3; zbool; [done|].
    destruct (size - sz <? off) eqn:D4; zbool; [done|lia].
Qed.

Lemma parse_fat_loop_entry fuel k size fas n i s b s' :
  i < n -> parse_fat_loop fuel (S k) size fas n i s = Ret (b, s') ->
  exists ct cs off sz, table_entry (buf s) i ct cs off sz.
Proof.
  intros Hi. cbn [parse_fat_loop]. apply Z.ltb_lt in Hi as ->. intros Hrun.
  apply bind_inv in Hrun as (ct & s1 & [Hct ->]%arch_get_inv & Hrun).
  apply bind_inv in Hrun as (cs & s1 & [Hcs ->]%arch_get_inv & Hrun).
  apply bind_inv in Hrun as (off & s1 & [Ho ->]%arch_get_inv & Hrun).
  apply bind_inv in Hrun as (sz & s1 & [Hz ->]%arch_get_inv & _). by exists ct, cs, off, sz.
Qed.

(** Once [i] slices are done the loop is at entry [i]. *)
Lemma parse_fat_loop_after fuel k size fas n s i s1 :
  slices_done fuel size fas s i s1 -> in_u 32 n -> i <= n ->
  0 <= i /\ parse_fat_loop fuel (Z.to_nat i + k) size fas n 0 s = parse_fat_loop fuel k size fas n i s1.
Proof.
  intros Hd Hn. unfold in_u in Hn. revert k.
  induction Hd as [|i s1 s2 ct cs off sz Hd IH Ht Hlo Hhi Hrun]; intros k Hi; [done|].
  destruct (IH (S k) ltac:(lia)) as [H0 Hk]. split; [lia|].
  replace (Z.to_nat (i + 1) + k)%nat with (Z.to_nat i + S k)%nat by lia.
  rewrite Hk, (parse_fat_loop_turn _ _ _ _ _ _ _ ct cs off sz); [|lia|done].
  apply Z.leb_le in Hlo as ->. apply Z.leb_le in Hhi as ->. simpl andb. cbv iota.
  run_step ltac:(exact Hrun). simpl negb. cbv iota. by rewrite wrap_id by (unfold in_u; lia).
Qed.

(** A loop that says no does so at one of the entries. *)
Lemma parse_fat_loop_refuses fuel k size fas n s0 i s s' :
  slices_done fuel size fas s0 i s -> in_u 32 n -> 0 <= i ->
  parse_fat_loop fuel k size fas n i s = Ret (false, s') ->
  exists j s1, i <= j < n /\ j < i + Z.of_nat k /\
    slices_done fuel size fas s0 j s1 /\ entry_refused size fas j s1 s'.
Proof.
  intros Hd Hn. unfold in_u in Hn. revert i s Hd. induction k as [|k IH]; intros i s Hd Hi; [discriminate|].
  intros Hrun. destruct (Z.lt_ge_cases i n) as [Hin|Hin].
  2:{ cbn [parse_fat_loop] in Hrun. apply Z.ltb_ge in Hin. by rewrite Hin in Hrun. }
  destruct (parse_fat_loop_entry _ _ _ _ _ _ _ _ _ Hin Hrun) as (ct & cs & off & sz & Ht).
  rewrite (parse_fat_loop_turn _ _ _ _ _ _ _ _ _ _ _ Hin Ht) in Hrun.
  destruct ((fas <=? off) && (off + sz <=? size)) eqn:E.
  - apply andb_true_iff in E as [E1 E2]. zbool.
    apply bind_inv in Hrun as ([] & s2 & Hm & Hrun); simpl in Hrun.
    + rewrite wrap_id in Hrun by (unfold in_u; lia).
      destruct (IH (i + 1) s2) as (j & s3 & Hj & Hk & Hd' & He); [by econstructor|lia|done|].
      exists j, s3. split_and!; [lia..|done|done].
    + injection Hrun as <-. apply parse_macho_refuses in Hm as (magic & Hm & Hv & ->).
      exists i, s. split_and!; [lia..|done|by eapply refused_magic].
  - injection Hrun as <-. exists i, s. split_and!; [lia..|done|]. eapply refused_bounds; [done|].
    intros [?%Z.leb_le ?%Z.leb_le]. apply andb_false_iff in E as [|]; congruence.
Qed.

Lemma entry_refused_turn fuel k size fas n i s s' :
  i < n -> entry_refused size fas i s s' -> parse_fat_loop fuel (S k) size fas n i s = Ret (false, s').
Proof.
  intros Hi [ct cs off sz Ht Hb|ct cs off sz magic Ht Hlo Hhi Hm Hv];
    rewrite (parse_fat_loop_turn _ _ _ _ _ _ _ _ _ _ _ Hi Ht).
  - destruct (_ && _) eqn:E; [|done]. apply andb_true_iff in E as [E1 E2]. zbool. by destruct Hb.
  - apply Z.leb_le in Hlo as ->. apply Z.leb_le in Hhi as ->. simpl andb. cbv iota.
    assert (Hp : parse_macho fuel off (say (msg_arch ct cs) s)
                 = Ret (false, say (msg_not_macho magic) (say (msg_arch ct cs) s)))
      by (apply parse_macho_refuses; by exists magic).
    by run_step ltac:(exact Hp).
Qed.

(** The fat branch once the tests of the header have passed. *)
Lemma parse_fat_of_header fuel size s N : fat_header_of (buf s) size N ->
  in_u 32 N /\ parse_fat fuel size_bits size s =
    if 2 ^ size_bits <=? arch_addr N then Ret (false, say msg_too_many_archs s)
    else if size <? arch_addr N then Ret (false, say msg_too_small s)
    else if 2 ^ size_bits <=? arch_addr (N + 1) then Ret (false, say msg_too_many_archs s)
    else match loop_count (buf s) size N with
         | None => Fault
         | Some n => parse_fat_loop fuel fuel size (arch_addr N) n 0 (say (msg_fat_archs n) s)
         end.
Proof.
  intros (Hs & magic & w & Hm & Hf & Hw & ->). split; [apply host_word_in_u|].
  pose proof (fat_inside F_nfat_arch). rewrite parse_fat_equation, Hm, Hf, Hw.
  destruct (size <? 4) eqn:E1; zbool; [lia|]. by destruct (size <? sizeof_fat_header) eqn:E2; zbool; [lia|].
Qed.

Lemma rejection_complete fuel size s s' :
  parse_fat fuel size_bits size s = Ret (false, s') -> rejection fuel size s s'.
Proof.
  intros Hrun. pose proof Hrun as Hrun'. rewrite parse_fat_equation in Hrun'.
  destruct (size <? 4) eqn:E4; zbool; [injection Hrun' as <-; by constructor|].
  destruct (load_le 4 (buf s) 0) as [magic|] eqn:Em; [|discriminate].
  destruct (is_fat magic) eqn:Ef; simpl in Hrun'.
  2:{ apply parse_macho_refuses in Hrun' as (magic' & Hm & Hv & ->). rewrite Em in Hm. injection Hm as <-.
      by apply reject_magic. }
  destruct (size <? sizeof_fat_header) eqn:Eh; zbool; [injection Hrun' as <-; by eapply reject_header|].
  destruct (load_le 4 (buf s) (off_fat F_nfat_arch)) as [w|] eqn:Ew; [|discriminate].
  clear Hrun'. assert (Hh : fat_header_of (buf s) size (OSSwapBigToHostInt32 w)) by (split; [lia|by exists magic, w]).
  destruct (parse_fat_of_header fuel _ _ _ Hh) as [HN Heq]. rewrite Heq in Hrun.
  set (N := OSSwapBigToHostInt32 w) in *. clearbody N. clear Heq.
  destruct (2 ^ size_bits <=? arch_addr N) eqn:E1; zbool; [injection Hrun as <-; eapply reject_count; [done|by left]|].
  destruct (size <? arch_addr N) eqn:E2; zbool; [injection Hrun as <-; by eapply reject_table|].
  destruct (2 ^ size_bits <=? arch_addr (N + 1)) eqn:E3; zbool;
    [injection Hrun as <-; eapply reject_count; [done|by right]|].
  destruct (loop_count (buf s) size N) as [n|] eqn:En; [|discriminate].
  apply (parse_fat_loop_refuses _ _ _ _ _ (say (msg_fat_archs n) s)) in Hrun
    as (j & s1 & Hj & Hk & Hd & He);
    [|constructor|by eapply (proj1 (loop_count_cases _ _ _ _ En HN))|done].
  eapply (reject_entry _ _ _ N n j s1); first [done|lia].
Qed.

(** The loop from its start to entry [i], once the slices before are done. *)
Lemma parse_fat_reaches fuel size s N n i s1 : fat_header_of (buf s) size N ->
  arch_addr N <= size -> arch_addr (N + 1) < 2 ^ size_bits -> loop_count (buf s) size N = Some n ->
  0 <= i < n -> i < Z.of_nat fuel -> slices_done fuel size (arch_addr N) (say (msg_fat_archs n) s) i s1 ->
  exists k, parse_fat fuel size_bits size s = parse_fat_loop fuel (S k) size (arch_addr N) n i s1.
Proof.
  intros Hh Hs Hsb Hn Hi Hk Hd. destruct (parse_fat_of_header fuel _ _ _ Hh) as [HN ->].
  destruct (loop_count_cases _ _ _ _ Hn HN) as [Hu _]. unfold in_u in HN.
  pose proof (arch_addr_mono N (N + 1) ltac:(lia)).
  destruct (2 ^ size_bits <=? arch_addr N) eqn:E1; zbool; [lia|].
  destruct (size <? arch_addr N) eqn:E2; zbool; [lia|].
  destruct (2 ^ size_bits <=? arch_addr (N + 1)) eqn:E3; zbool; [lia|]. rewrite Hn.
  exists (fuel - Z.to_nat i - 1)%nat.
  destruct (parse_fat_loop_after _ (S (fuel - Z.to_nat i - 1)) _ _ n _ _ _ Hd Hu ltac:(lia)) as [_ <-].
  f_equal. lia.
Qed.

(** C21. Rejections, completely: [parse_fat] says no exactly when the file is too small for a
    magic number; is thin with none of the four magic numbers; is fat and too small for its
    header or for its table; declares more entries than [size_t] can count; or when, the slices
    of the entries before having been processed, an entry lies outside of the file or inside of
    the table, or its slice has none of the four magic numbers.  Each case has its own message;
    the file is as it was, except that in the last two the slices before the offending entry
    have already been stripped. *)
Theorem parse_fat_rejects (fuel : nat) (size : Z) (s s' : st) :
  parse_fat fuel size_bits size s = Ret (false, s') <-> rejection fuel size s s'.
Proof.
  split; [apply rejection_complete|]. intros Hr.
  destruct Hr as [Hs|magic Hs Hm Hf Hv|magic Hs Hm Hf|N Hh Hc|N Hh Hc|N n i s1 s' Hh Hs Hsb Hn Hi Hk Hd He].
  - rewrite parse_fat_equation. by apply Z.ltb_lt in Hs as ->.
  - rewrite parse_fat_equation. apply Z.ltb_ge in Hs as ->. rewrite Hm, Hf. simpl negb. cbv iota.
    apply parse_macho_refuses. by exists magic.
  - rewrite parse_fat_equation. destruct Hs as [->%Z.ltb_ge Hs%Z.ltb_lt]. by rewrite Hm, Hf, Hs.
  - destruct (parse_fat_of_header fuel _ _ _ Hh) as [_ ->].
    destruct Hc as [->%Z.leb_le|[->%Z.ltb_ge ->%Z.leb_le]]; [done|]. by destruct (_ <=? _).
  - destruct (parse_fat_of_header fuel _ _ _ Hh) as [_ ->].
    by destruct Hc as [->%Z.ltb_lt ->%Z.leb_gt].
  - destruct (parse_fat_reaches fuel _ _ _ _ _ _ Hh Hs Hsb Hn Hi Hk Hd) as [k ->].
    apply entry_refused_turn; [lia|done].
Qed.

(** *** Reads that nothing checks

    The buffer is the mapping: the bytes of the file and, when its size is not a
    multiple of the page size, the zeros up to the end of the page. *)

(** The load commands of a Mach-O at [b], found by adding up the sizes they give:
    [plain_commands E m a c a'] says the [c] commands from [a] on are no
    segments, and [a'] is the address behind them. *)
Inductive plain_commands (E : Endian) (m : mem) : Z -> Z -> Z -> Prop :=
| plain_none a : plain_commands E m a 0 a
| plain_next a c a' sz ty : lc_cmdsize E m a = Some sz -> lc_cmd E m a = Some ty ->
    ty <> LC_SEGMENT -> ty <> LC_SEGMENT_64 -> 0 <= c ->
    plain_commands E m (a + sz) c a' -> plain_commands E m a (c + 1) a'.

Lemma load_le_past n m a : (0 < n)%nat -> msize m < a + Z.of_nat n -> load_le n m a = None.
Proof.
  intros Hn Ha. unfold load_le. destruct (load n m a) eqn:E; [|done].
  apply load_bounds in E as [_ ?]; [lia|done].
Qed.

Section Unchecked.
Context (E : Endian) {L : EndianLaws E} (P : pointer_size).

Lemma get32_past m a : msize m < a + 4 -> get32 m a = None.
Proof.
  intros Ha. destruct (get32 m a) eqn:Eg; [|done]. apply get32_bounds in Eg. lia.
Qed.

Lemma parse_macho_loop_past fuel k mh cmds c n j a s :
  mh_ncmds E P (buf s) mh = Some n -> plain_commands E (buf s) cmds j a ->
  0 <= c -> c + j < n -> (Z.to_nat j < k)%nat ->
  msize (buf s) < a + off_command L_cmdsize + 4 ->
  parse_macho_loop fuel E P k mh cmds c s = Fault.
Proof.
  intros Hn Hp. revert k c. induction Hp as [a|a j a' sz ty Hsz Hty H1 H2 Hj Hp IH]; intros k c Hc Hcn Hk Ha;
    (destruct k as [|k]; [lia|]); cbn [parse_macho_loop]; run_step ltac:(by apply getM_ret);
    (destruct (c <? n) eqn:Ec; zbool; [|lia]).
  - unfold bind at 1, getM at 1, rdM. unfold lc_cmdsize. by rewrite get32_past by lia.
  - run_step ltac:(by apply getM_ret). run_step ltac:(by apply getM_ret).
    apply Z.eqb_neq in H1 as ->. apply Z.eqb_neq in H2 as ->. simpl. run_step ltac:(reflexivity).
    pose proof (get32_in_u _ _ _ Hn) as Hu. unfold in_u in Hu.
    rewrite wrap_id by (unfold in_u; lia). apply IH; lia.
Qed.

End Unchecked.

(** C23. Nothing compares what the headers say with the end of the mapping: a thin file with
    more load commands than fit (the ones before being no segments), and a fat file with an
    entry that passes every check of the table but whose slice starts within the last three
    bytes or at the very end of the file, make [parse_fat] read behind the mapping. *)
Theorem unchecked_reads (fuel : nat) (size : Z) (s : st) :
  (forall (magic n c a : Z) (swapped : bool) (P : pointer_size),
     4 <= size -> load_le 4 (buf s) 0 = Some magic -> is_fat magic = false ->
     magic_variant magic = Some (swapped, P) -> mh_ncmds (endian_of swapped) P (buf s) 0 = Some n ->
     0 <= c < n -> c < Z.of_nat fuel -> plain_commands (endian_of swapped) (buf s) (sizeof_header P) c a ->
     msize (buf s) < a + off_command L_cmdsize + 4 ->
     parse_fat fuel size_bits size s = Fault) /\
  (forall (N n i ct cs off sz : Z) (s1 : st),
     fat_header_of (buf s) size N -> arch_addr N <= size -> arch_addr (N + 1) < 2 ^ size_bits ->
     loop_count (buf s) size N = Some n -> 0 <= i < n -> i < Z.of_nat fuel ->
     slices_done fuel size (arch_addr N) (say (msg_fat_archs n) s) i s1 ->
     table_entry (buf s1) i ct cs off sz -> arch_addr N <= off -> off + sz <= size ->
     msize (buf s1) < off + 4 ->
     parse_fat fuel size_bits size s = Fault).
Proof.
  split.
  - intros magic n c a sw P Hs Hm Hf Hv Hn Hc Hk Hp Ha. rewrite parse_fat_equation.
    apply Z.ltb_ge in Hs as ->. rewrite Hm, Hf. simpl negb. cbv iota. destruct s as [m o].
    rewrite (parse_macho_variant _ _ _ _ _ _ _ Hm Hv). unfold parse_macho_P.
    eapply parse_macho_loop_past; first [apply _|done|lia].
  - intros N n i ct cs off sz s1 Hh Hs Hsb Hn Hi Hk Hd Ht Hlo Hhi Hoff.
    destruct (parse_fat_reaches fuel _ _ _ _ _ _ Hh Hs Hsb Hn Hi Hk Hd) as [k ->].
    rewrite (parse_fat_loop_turn _ _ _ _ _ _ _ _ _ _ _ (proj2 Hi) Ht).
    apply Z.leb_le in Hlo as ->. apply Z.leb_le in Hhi as ->. simpl andb. cbv iota.
    unfold parse_macho, bind, getM, rdM. by rewrite load_le_past by (simpl; lia).
Qed.

End Safety.
