(* ===== verification/MarkGCMain.v ===== *)
(** * markgc as a command

    [processFile] and [main] against an interface of the file system: what
    open, fstat, mmap, munmap and close promise is the class [file_system]; the
    theorems hold for every implementation of it. *)

From Stdlib Require Import ZArith Lia Bool String.
From stdpp Require Import base list gmap strings.
From coqutil Require Import Byte.
From S2P Require Import Prelude Memory CString ByteOrder Endian MachO MarkGC MarkGCSpec MarkGCFile.

Local Open Scope Z_scope.

(** A file system: the contents of the files by name, and the file an open
    descriptor stands for.  The mapping is shared, so what is unmapped is what
    the file holds afterwards. *)
Class file_system {W : Type} (sys : syscalls W) := {
  files : W -> gmap string mem;
  descr : W -> Z -> option string;
  fs_open w f m : files w !! f = Some m ->
    let (fd, w') := sys_open sys f w in
    0 <= fd /\ files w' = files w /\ descr w' fd = Some f;
  fs_fstat w fd f m : descr w fd = Some f -> files w !! f = Some m ->
    exists w', sys_fstat sys fd w = (Some (msize m), w') /\ files w' = files w /\ descr w' fd = Some f;
  fs_mmap w fd f m : descr w fd = Some f -> files w !! f = Some m -> 0 < msize m ->
    exists w', sys_mmap sys fd (msize m) w = (Some m, w') /\ files w' = files w /\ descr w' fd = Some f;
  fs_munmap w fd f m : descr w fd = Some f -> files (sys_munmap sys fd m w) = <[f := m]> (files w);
  fs_close w fd : files (sys_close sys fd w) = files w
}.

Section Command.
Context {H : loader_h} {OK : loader_h_ok H} (fuel : nat) (size_bits : Z) (Hbits : 0 <= size_bits)
  {W : Type} (sys : syscalls W) {FS : file_system sys}.

(** A file markgc can handle: well-formed, and of a size the machine can map. *)
Definition markable (m : mem) : Prop :=
  is_Some (file_slices m) /\ msize m + sizeof_fat_arch < 2 ^ size_bits /\
  msize m < 2 ^ 32 /\ msize m < Z.of_nat fuel.

Definition stripped_file (m m' : mem) : Prop :=
  exists ss, file_slices m = Some ss /\ file_stripped m m' ss.

Lemma markable_size m : markable m -> 0 < msize m.
Proof.
  intros ([ss Hss] & _). apply file_slices_inv in Hss as (magic & Hm & _).
  apply (load_le_bounds 4) in Hm; lia.
Qed.

Lemma processFile_ok f w o m : files w !! f = Some m -> markable m ->
  exists w' o' m', processFile fuel size_bits sys f w o = Ret (true, w', o') /\
    stripped_file m m' /\ files w' = <[f := m']> (files w).
Proof.
  intros Hf Hm. pose proof (markable_size m Hm) as Hpos. destruct Hm as ([ss Hss] & Hsz & H32 & Hfuel).
  unfold processFile, debug. pose proof (fs_open w f m Hf) as Hopen.
  destruct (sys_open sys f w) as [fd w1]. destruct Hopen as (Hfd & Hw1 & Hd1).
  destruct (fd <? 0) eqn:E0; zbool; [lia|].
  destruct (fs_fstat w1 fd f m) as (w2 & -> & Hw2 & Hd2); [done|by rewrite Hw1|].
  pose proof (arch_inside A_cputype).
  rewrite wrap_id by (unfold in_u; lia).
  destruct (fs_mmap w2 fd f m) as (w3 & -> & Hw3 & Hd3); [done|by rewrite Hw2, Hw1|done|].
  destruct (parse_fat_ok fuel size_bits m (msg_file f :: o) ss) as (m' & o' & Hrun & St); [done..|].
  rewrite Hrun. cbn [obind]. eexists _, _, m'. split_and!; [reflexivity|by exists ss|].
  by rewrite fs_close, (fs_munmap _ _ f), Hw3, Hw2, Hw1.
Qed.

Lemma main_ok argv w o : NoDup argv ->
  (forall f, f ∈ argv -> exists m, files w !! f = Some m /\ markable m) ->
  exists w' o', main fuel size_bits sys argv w o = Ret (0, w', o') /\
    (forall f, f ∈ argv -> exists m m', files w !! f = Some m /\ files w' !! f = Some m' /\
                                stripped_file m m') /\
    (forall f, f ∉ argv -> files w' !! f = files w !! f).
Proof.
  revert w o. induction argv as [|f argv IH]; intros w o Hnd Hall.
  - exists w, o. split_and!; [done|by intros ? ?%not_elem_of_nil|done].
  - apply NoDup_cons in Hnd as [Hnf Hnd].
    destruct (Hall f) as (m & Hf & Hm); [by left|].
    destruct (processFile_ok f w o m Hf Hm) as (w1 & o1 & m1 & Hrun & Hst & Hw1).
    destruct (IH w1 o1 Hnd) as (w2 & o2 & Hrun2 & Hin & Hout).
    { intros g Hg. rewrite Hw1, lookup_insert_ne by (intros ->; done). apply Hall. by right. }
    exists w2, o2. split_and!.
    + cbn [main]. rewrite Hrun. cbn [obind negb]. exact Hrun2.
    + intros g [->|Hg]%elem_of_cons.
      * exists m, m1. by rewrite Hout, Hw1, lookup_insert_eq.
      * destruct (Hin g Hg) as (m0 & m2 & H0 & H2 & Hs).
        rewrite Hw1, lookup_insert_ne in H0 by (intros ->; done). by exists m0, m2.
    + intros g [Hne Hg]%not_elem_of_cons. rewrite Hout, Hw1 by done.
      by rewrite lookup_insert_ne by done.
Qed.

(** C2. The command: given well-formed files, [main] exits with status 0, every named file is
    stripped in place - its contents become the stripped contents - and every other file of the
    system keeps its bytes. *)
Theorem main_strips_files (argv : list string) (w : W) (o : list message) :
  NoDup argv ->
  (forall f, f ∈ argv -> exists m, files w !! f = Some m /\ markable m) ->
  exists w' o', main fuel size_bits sys argv w o = Ret (0, w', o') /\
    (forall f, f ∈ argv -> exists m m', files w !! f = Some m /\ files w' !! f = Some m' /\
                                stripped_file m m') /\
    (forall f, f ∉ argv -> files w' !! f = files w !! f).
Proof. apply main_ok. Qed.

End Command.

Section Errors.
Context {H : loader_h} (fuel : nat) (size_bits : Z) {W : Type} (sys : syscalls W).

Lemma main_first argv1 argv2 w o w1 o1 : main fuel size_bits sys argv1 w o = Ret (0, w1, o1) ->
  main fuel size_bits sys (argv1 ++ argv2) w o = main fuel size_bits sys argv2 w1 o1.
Proof.
  revert w o. induction argv1 as [|f argv1 IH]; intros w o; cbn [main app].
  - by intros [= <- <-].
  - destruct (processFile _ _ _ f w o) as [[[[] w2] o2]| |]; cbn [obind negb]; [apply IH|discriminate..].
Qed.

(** The command stops at the first file it cannot process: the files before it are
    processed, the exit status is 1, and no file after it is opened - the final state is the one
    the failing [processFile] left. *)
Theorem main_stops_at_failure (argv1 argv2 : list string) (f : string) (w w1 w2 : W)
    (o o1 o2 : list message) :
  main fuel size_bits sys argv1 w o = Ret (0, w1, o1) ->
  processFile fuel size_bits sys f w1 o1 = Ret (false, w2, o2) ->
  main fuel size_bits sys (argv1 ++ f :: argv2) w o = Ret (1, w2, o2).
Proof.
  intros H1 Hf. rewrite (main_first _ _ _ _ _ _ H1). cbn [main]. by rewrite Hf.
Qed.

(** C22. The error paths of [processFile]: when open, fstat or mmap fails it reports the call
    with errno and returns [false]; the descriptor of a file that was opened is not closed on
    the fstat and mmap paths. *)
Theorem processFile_errors (f : string) (w w1 w2 w3 : W) (o : list message) (fd n : Z) :
  sys_open sys f w = (fd, w1) ->
  (fd < 0 -> processFile fuel size_bits sys f w o
             = Ret (false, w1, [msg_open_failed f (sys_errno sys w1); msg_file f] ++ o)) /\
  (0 <= fd -> sys_fstat sys fd w1 = (None, w2) ->
     processFile fuel size_bits sys f w o
     = Ret (false, w2, [msg_fstat_failed f (sys_errno sys w2); msg_file f] ++ o)) /\
  (0 <= fd -> sys_fstat sys fd w1 = (Some n, w2) ->
   sys_mmap sys fd (wrap size_bits n) w2 = (None, w3) ->
     processFile fuel size_bits sys f w o
     = Ret (false, w3, [msg_mmap_failed f (sys_errno sys w3); msg_file f] ++ o)).
Proof.
  intros Ho. unfold processFile. rewrite Ho. split_and!.
  - by intros ->%Z.ltb_lt.
  - intros Hfd ->. destruct (fd <? 0) eqn:E; zbool; [lia|done].
  - intros Hfd -> Hm. destruct (fd <? 0) eqn:E; zbool; [lia|]. by rewrite Hm.
Qed.

End Errors.
