(* ===== verification/MarkGCSamples.v ===== *)
(** * Sample files for markgc

    Concrete Mach-O images in the four formats' building blocks, a concrete
    file system, the instances of the markgc theorems at them, and the inputs on
    which the program reads outside the file or accepts a slice inside the
    architecture table. *)

From Stdlib Require Import ZArith Lia Bool String.
From stdpp Require Import base list gmap strings.
From coqutil Require Import Byte Word.LittleEndianList.
From S2P Require Import Prelude Memory CString ByteOrder Endian MachO MarkGC MarkGCSpec MarkGCFile.
From S2P Require Import MarkGCSafety MarkGCMain.

Local Open Scope Z_scope.

#[local] Existing Instance apple_headers.

(** ** Images *)

Definition enc (E : Endian) (n : nat) (v : Z) : list byte :=
  if E.(little_endian) then le_split n v else reverse (le_split n v).

Section Image.
Context (E : Endian) (P : pointer_size).

Definition w32 : Z -> list byte := enc E 4.
Definition wptr : Z -> list byte := enc E (ptr_bytes P).
Definition only64 (bs : list byte) : list byte := match P with Pointer32 => [] | Pointer64 => bs end.

Definition header_image (magic cputype cpusubtype ncmds : Z) : list byte :=
  w32 magic ++ w32 cputype ++ w32 cpusubtype ++ w32 0 ++ w32 ncmds ++ w32 0 ++ w32 0 ++ only64 (w32 0).

Definition section_image (sect seg : string) (flags : Z) : list byte :=
  strncpy_bytes (lit sect) 16 ++ strncpy_bytes (lit seg) 16 ++ wptr 0 ++ wptr 0 ++
  w32 0 ++ w32 0 ++ w32 0 ++ w32 0 ++ w32 flags ++ w32 0 ++ w32 0 ++ only64 (w32 0).

Definition segment_image (cmd : Z) (name : string) (sections : list (list byte)) : list byte :=
  w32 cmd ++ w32 (sizeof_segment P + Z.of_nat (length sections) * sizeof_section P) ++
  strncpy_bytes (lit name) 16 ++ wptr 0 ++ wptr 0 ++ wptr 0 ++ wptr 0 ++
  w32 0 ++ w32 0 ++ w32 (Z.of_nat (length sections)) ++ w32 0 ++ concat sections.

End Image.

(** A 64-bit native library: one segment with an initialiser section and a data
    section, and a symbol table command. *)
Definition thin64 : mem :=
  header_image LittleEndian Pointer64 MH_MAGIC_64 0 0 2 ++
  segment_image LittleEndian Pointer64 LC_SEGMENT_64 "__DATA_CONST"
    [section_image LittleEndian Pointer64 "__mod_init_func" "__DATA_CONST" 0x9;
     section_image LittleEndian Pointer64 "__data" "__DATA_CONST" 0] ++
  w32 LittleEndian 0x2 ++ w32 LittleEndian 8.

(** A 32-bit big-endian library with a terminator section. *)
Definition thin32 : mem :=
  header_image BigEndian Pointer32 MH_MAGIC 0 0 1 ++
  segment_image BigEndian Pointer32 LC_SEGMENT "__DATA"
    [section_image BigEndian Pointer32 "__mod_term_func" "__DATA" 0xa].

Definition arch_image (cputype cpusubtype offset size : Z) : list byte :=
  enc BigEndian 4 cputype ++ enc BigEndian 4 cpusubtype ++ enc BigEndian 4 offset ++
  enc BigEndian 4 size ++ enc BigEndian 4 0.

Definition fat_image (n : Z) (archs : list (list byte)) (body : list byte) : mem :=
  enc BigEndian 4 FAT_MAGIC ++ enc BigEndian 4 n ++ concat archs ++ body.

(** Two slices, the second one behind the hidden arm64 entry. *)
Definition fat2 : mem :=
  fat_image 1 [arch_image 18 0 48 152; arch_image CPU_TYPE_ARM64 0 200 272] (thin32 ++ thin64).

Example thin64_sections : macho_sections LittleEndian Pointer64 thin64 272 0 = Some [104; 184].
Proof. vm_compute. reflexivity. Qed.

Example fat2_slices : file_slices fat2 =
  Some [mk_slice true Pointer32 48 200 [132]; mk_slice false Pointer64 200 472 [304; 384]].
Proof. vm_compute. reflexivity. Qed.

(** ** Instances of the theorems *)

(** A concrete number is inside a concrete range. *)
Ltac in_range := split; [vm_compute; discriminate | vm_compute; reflexivity].

Lemma parse_macho_refines_strip_witness :
  exists m' o', parse_macho_P 1000 LittleEndian Pointer64 0 (mkst thin64 []) = Ret (true, mkst m' o') /\
    macho_sections LittleEndian Pointer64 m' 272 0 = Some [104; 184].
Proof.
  destruct (parse_macho_refines_strip LittleEndian Pointer64 1000 thin64 [] 272 0 [104; 184])
    as (m' & o' & Hrun & Hl & _ & _); [exact thin64_sections|vm_compute; reflexivity|].
  exists m', o'. split; [exact Hrun|exact Hl].
Defined.

Lemma parse_macho_idempotent_witness :
  exists m1 o1 o2, parse_macho_P 1000 LittleEndian Pointer64 0 (mkst thin64 []) = Ret (true, mkst m1 o1) /\
    parse_macho_P 1000 LittleEndian Pointer64 0 (mkst m1 o1) = Ret (true, mkst m1 o2).
Proof.
  destruct (parse_macho_P 1000 LittleEndian Pointer64 0 (mkst thin64 [])) as [[b [m1 o1]]| |] eqn:E;
    [destruct b|..]; try (vm_compute in E; discriminate).
  destruct (parse_macho_idempotent LittleEndian Pointer64 1000 thin64 m1 [] o1 272 0 [104; 184])
    as (o2 & Hrun); [exact thin64_sections|vm_compute; reflexivity|exact E|].
  exists m1, o1, o2. split; [reflexivity|exact Hrun].
Defined.

Lemma parse_fat_refines_strip_witness :
  exists m' o', parse_fat 1000 64 472 (mkst fat2 []) = Ret (true, mkst m' o') /\
    file_slices m' = file_slices fat2.
Proof.
  destruct (parse_fat_refines_strip 1000 64 fat2 [] _ fat2_slices) as (m' & o' & Hrun & _ & Hs);
    [lia|vm_compute; reflexivity..|].
  exists m', o'. split; [exact Hrun|]. rewrite fat2_slices. exact Hs.
Defined.

Lemma parse_fat_terminates_witness :
  parse_fat (Z.to_nat (2 ^ 32)) 64 472 (mkst fat2 []) <> OutOfFuel.
Proof. apply parse_fat_terminates. rewrite Z2Nat.id by lia. reflexivity. Defined.

Lemma parse_fat_keeps_table_witness :
  exists s', parse_fat 1000 64 472 (mkst fat2 []) = Ret (true, s') /\
    unchanged_outside (fun i => 28 <= i) fat2 (buf s').
Proof.
  destruct (parse_fat 1000 64 472 (mkst fat2 [])) as [[b s']| |] eqn:E;
    [destruct b|..]; try (vm_compute in E; discriminate).
  exists s'. split; [reflexivity|].
  apply (parse_fat_keeps_table 64 ltac:(lia) ltac:(in_range) ltac:(in_range)
    1000 472 (mkst fat2 []) s' true 0xbebafeca 0x1000000); [vm_compute; reflexivity..|exact E].
Defined.

Lemma os_mul_and_add_overflow_spec_witness :
  fst (os_mul_and_add_overflow 32 0xffffffff 20 8) = true /\
  snd (os_mul_and_add_overflow 64 0xffffffff 20 8) = 0xffffffff * 20 + 8.
Proof.
  split.
  - rewrite (proj1 (os_mul_and_add_overflow_spec 32 0xffffffff 20 8 ltac:(lia) ltac:(unfold in_u; lia)
      ltac:(unfold in_u; lia) ltac:(unfold in_u; lia))). reflexivity.
  - apply (proj2 (os_mul_and_add_overflow_spec 64 0xffffffff 20 8 ltac:(lia) ltac:(unfold in_u; lia)
      ltac:(unfold in_u; lia) ltac:(unfold in_u; lia))). reflexivity.
Defined.

Lemma parse_fat_checks_slices_witness :
  entry_inside fat2 28 472 0 \/
  (1 = 2 ^ 32 - 1 /\ arch_addr (2 ^ 32) <= 472 /\
   arch_word fat2 A_cputype (2 ^ 32 - 1) = Some CPU_TYPE_ARM64 /\ fat2 = fat2).
Proof.
  destruct (parse_fat 1000 64 472 (mkst fat2 [])) as [[b s']| |] eqn:E;
    [destruct b|..]; try (vm_compute in E; discriminate).
  destruct (parse_fat_checks_slices 64 ltac:(lia) ltac:(in_range) ltac:(in_range)
    1000 472 (mkst fat2 []) s' 0xbebafeca 0x1000000 0) as [Hi|(Hn & _)];
    [vm_compute; reflexivity..|exact E|vm_compute; split; [discriminate|reflexivity]|left; exact Hi|].
  vm_compute in Hn. discriminate.
Defined.

(** Two declared slices, the second of which is no Mach-O. *)
Definition fat_bad : mem :=
  fat_image 2 [arch_image 18 0 48 152; arch_image 7 3 200 4] (thin32 ++ w32 LittleEndian 7).

(** The file is rejected at its second entry, the first slice already stripped;
    and a buffer of three bytes at its first test. *)
Lemma parse_fat_rejects_witness :
  (exists s', parse_fat 1000 64 204 (mkst fat_bad []) = Ret (false, s') /\
     rejection 64 1000 204 (mkst fat_bad []) s' /\ head (out s') = Some (msg_not_macho 7) /\
     buf s' <> fat_bad) /\
  parse_fat 10 64 3 (mkst fat2 []) = Ret (false, mkst fat2 [msg_too_small]).
Proof.
  split.
  - destruct (parse_fat 1000 64 204 (mkst fat_bad [])) as [[b s']| |] eqn:E;
      [destruct b|..]; try (vm_compute in E; discriminate).
    exists s'. split; [reflexivity|]. split.
    + apply (parse_fat_rejects 64 ltac:(lia) ltac:(in_range) ltac:(in_range)). exact E.
    + vm_compute in E. injection E as <-. split; [reflexivity|]. vm_compute. discriminate.
  - apply (parse_fat_rejects 64 ltac:(lia) ltac:(in_range) ltac:(in_range) 10 3 (mkst fat2 [])).
    apply reject_tiny. lia.
Defined.

(** ** A file system in memory

    A descriptor is the position of the file's name in the list of opened
    files; closing keeps the list. *)

Record memfs := mk_memfs { mf_files : gmap string mem; mf_open : list string }.

Definition mf_find (w : memfs) (fd : Z) : option mem :=
  match mf_open w !! Z.to_nat fd with Some f => mf_files w !! f | None => None end.

Definition memfs_calls : syscalls memfs := {|
  sys_open f w :=
    match mf_files w !! f with
    | Some _ => (Z.of_nat (length (mf_open w)), mk_memfs (mf_files w) (mf_open w ++ [f]))
    | None => (-1, w)
    end;
  sys_fstat fd w := (msize <$> mf_find w fd, w);
  sys_mmap fd size w := (mf_find w fd, w);
  sys_munmap fd m w :=
    match mf_open w !! Z.to_nat fd with
    | Some f => mk_memfs (<[f := m]> (mf_files w)) (mf_open w)
    | None => w
    end;
  sys_close fd w := w;
  sys_errno w := 2
|}.

#[export] Instance memfs_laws : file_system memfs_calls.
Proof.
  refine {| files := mf_files; descr := fun w fd => mf_open w !! Z.to_nat fd |}.
  - intros w f m Hf. simpl. rewrite Hf. simpl. split_and!; [lia|done|].
    rewrite Nat2Z.id. apply list_lookup_middle. done.
  - intros w fd f m Hd Hf. exists w. simpl. unfold mf_find. by rewrite Hd, Hf.
  - intros w fd f m Hd Hf _. exists w. simpl. unfold mf_find. by rewrite Hd, Hf.
  - intros w fd f m Hd. simpl. by rewrite Hd.
  - done.
Defined.

Definition disk : memfs := mk_memfs {["libobjc" := fat2; "libB" := thin64]} [].

Lemma main_strips_files_witness :
  exists w' o', main 1000 64 memfs_calls ["libobjc"] disk [] = Ret (0, w', o') /\
    mf_files w' !! "libB" = Some thin64.
Proof.
  destruct (main_strips_files 1000 64 ltac:(lia) memfs_calls ["libobjc"] disk [])
    as (w' & o' & Hrun & _ & Hout).
  - apply NoDup_singleton.
  - intros f ->%list_elem_of_singleton. exists fat2. split; [reflexivity|].
    split; [rewrite fat2_slices; eauto|]. split_and!; vm_compute; reflexivity.
  - exists w', o'. split; [exact Hrun|].
    exact (Hout "libB" ltac:(apply (bool_decide_unpack _); vm_compute; exact I)).
Defined.

Lemma main_stops_at_failure_witness :
  exists w2 o2, main 1000 64 memfs_calls ["libobjc"; "missing"; "libB"] disk [] = Ret (1, w2, o2).
Proof.
  destruct (main 1000 64 memfs_calls ["libobjc"] disk []) as [[[c w1] o1]| |] eqn:E1;
    try (vm_compute in E1; discriminate).
  assert (c = 0) as -> by (vm_compute in E1; injection E1; done).
  destruct (processFile 1000 64 memfs_calls "missing" w1 o1) as [[[b w2] o2]| |] eqn:E2.
  - exists w2, o2. apply (main_stops_at_failure 1000 64 memfs_calls ["libobjc"] ["libB"] "missing"
      disk w1 w2 [] o1 o2 E1).
    rewrite E2. vm_compute in E1. injection E1 as <- <-. vm_compute in E2. injection E2 as <- <- <-.
    reflexivity.
  - exfalso. vm_compute in E1. injection E1 as <- <-. vm_compute in E2. discriminate.
  - exfalso. vm_compute in E1. injection E1 as <- <-. vm_compute in E2. discriminate.
Defined.

Lemma processFile_errors_witness :
  processFile 10 64 memfs_calls "missing" disk []
  = Ret (false, disk, [msg_open_failed "missing" 2; msg_file "missing"]).
Proof.
  exact (proj1 (processFile_errors 10 64 memfs_calls "missing" disk disk disk disk [] (-1) 0 eq_refl)
    ltac:(lia)).
Defined.

(** ** Inputs the checks do not cover *)

(** One page each: a thin file whose first command, a symbol table, fills the page and
    whose header promises a second one; a fat file with an entry of size 0 at its end. *)
Definition page_thin : mem :=
  header_image LittleEndian Pointer64 MH_MAGIC_64 0 0 2 ++
  w32 LittleEndian 0x2 ++ w32 LittleEndian 4064 ++ replicate 4056 NUL.
Definition page_fat : mem := fat_image 1 [arch_image 18 0 4096 0] (replicate 4068 NUL).

Lemma unchecked_reads_witness :
  msize page_thin = 4096 /\ parse_fat 1000 64 4096 (mkst page_thin []) = Fault /\
  msize page_fat = 4096 /\ parse_fat 1000 64 4096 (mkst page_fat []) = Fault.
Proof.
  split; [vm_compute; reflexivity|]. split; [|split; [vm_compute; reflexivity|]].
  - apply (proj1 (unchecked_reads 64 ltac:(lia) ltac:(in_range) ltac:(in_range)
      1000 4096 (mkst page_thin []))) with (magic := MH_MAGIC_64) (n := 2) (c := 1) (a := 4096)
      (swapped := false) (P := Pointer64); [lia|vm_compute; reflexivity..|lia|lia| |vm_compute; reflexivity].
    apply (plain_next _ _ 32 0 4096 4064 2); [vm_compute; reflexivity..|discriminate|discriminate|lia|].
    apply plain_none.
  - apply (proj2 (unchecked_reads 64 ltac:(lia) ltac:(in_range) ltac:(in_range)
      1000 4096 (mkst page_fat []))) with (N := 1) (n := 1) (i := 0) (ct := 18) (cs := 0)
      (off := 4096) (sz := 0) (s1 := say (msg_fat_archs 1) (mkst page_fat [])).
    + split; [vm_compute; discriminate|]. exists 0xbebafeca, 0x1000000. split_and!; vm_compute; reflexivity.
    + vm_compute; discriminate.
    + vm_compute; reflexivity.
    + vm_compute; reflexivity.
    + lia.
    + lia.
    + apply slices_none.
    + split_and!; vm_compute; reflexivity.
    + vm_compute; discriminate.
    + lia.
    + vm_compute; reflexivity.
Defined.

(** A slice at offset 32, inside the hidden arm64 entry at 28..48: the header of
    the slice supplies the hidden entry's offset (100) and size (32). *)
Definition overlapping : mem :=
  fat_image 1 [arch_image 18 0 32 68]
    (enc BigEndian 4 CPU_TYPE_ARM64 ++
     w32 LittleEndian MH_MAGIC_64 ++ enc BigEndian 4 100 ++ enc BigEndian 4 32 ++
     replicate 56 NUL ++
     header_image LittleEndian Pointer64 MH_MAGIC_64 0 0 0).

(** The hidden entry: the comment says "Check that slice data is after all fat headers and archs";
    the test uses the size of the table without the hidden entry, and the file
    is accepted with a slice inside the table. *)
Theorem hidden_arch_not_checked :
  (exists s', parse_fat 1000 64 (msize overlapping) (mkst overlapping []) = Ret (true, s')) /\
  fat_count overlapping = Some 2 /\
  arch_word overlapping A_offset 0 = Some 32 /\ 32 < arch_addr 2.
Proof. split_and!; [eexists|..]; vm_compute; reflexivity. Qed.
