(* ===== verification/TypeEncoding.v ===== *)
(** * Type encodings

    objc4-756.2/runtime/objc-typeencoding.mm: the routines that walk the type
    string of a method.  A [const char *] into the string is the rest of the
    string, whose end is the terminating NUL; [SkipFirstType] can step over that
    NUL, which is the pointer [None], and reading through it is [OutOfBounds].
    [_objc_fatal] is the error [Fatal]. *)

From Stdlib Require Import ZArith Lia Bool Ascii String.
From stdpp Require Import base list.
From S2P Require Import Prelude.

Local Open Scope Z_scope.

Abbreviation chars := (list ascii).
Abbreviation ptr := (option chars).

Definition NUL_char : ascii := "000".

(** The characters of a literal. *)
Definition chars_of (s : string) : chars := list_ascii_of_string s.

#[export] Instance ascii_eq_dec : EqDecision ascii.
Proof. exact ascii_dec. Defined.

(** ** Errors *)

Inductive enc_error := OutOfBounds | Fatal.

Definition enc (A : Type) : Type := (A + enc_error)%type.
Definition Good {A} (a : A) : enc A := inl a.
Definition Err {A} (e : enc_error) : enc A := inr e.
Definition ebind {A B} (c : enc A) (k : A -> enc B) : enc B :=
  match c with inl a => k a | inr e => inr e end.

Declare Scope enc_scope.
Delimit Scope enc_scope with enc.
Notation "'let+' x ':=' e 'in' k" := (ebind e (fun x => k))
  (at level 10, x pattern, e at level 100, k at level 200) : enc_scope.
Local Open Scope enc_scope.

(** Reading through a pointer; the rest of the string starts at [p]. *)
Definition deref (p : ptr) : enc chars :=
  match p with Some l => Good l | None => Err OutOfBounds end.

Definition is_digit (c : ascii) : bool :=
  (N_of_ascii "0" <=? N_of_ascii c)%N && (N_of_ascii c <=? N_of_ascii "9")%N.

Definition digit_val (c : ascii) : Z := Z.of_N (N_of_ascii c) - 48.

Fixpoint skip_digits (l : chars) : chars :=
  match l with
  | c :: l' => if is_digit c then skip_digits l' else l
  | [] => []
  end.

(** The decimal number at the head of the string, accumulated in an [unsigned],
    which wraps, and what follows it. *)
Fixpoint read_digits (acc : Z) (l : chars) : Z * chars :=
  match l with
  | c :: l' => if is_digit c then read_digits (u32 (acc * 10 + digit_val c)) l' else (acc, l)
  | [] => (acc, [])
  end.

(** The same digits accumulated in an [int], without a check: the value wraps to 32 bits. *)
Fixpoint read_int (acc : Z) (l : chars) : Z * chars :=
  match l with
  | c :: l' => if is_digit c then read_int (s32 (acc * 10 + digit_val c)) l' else (acc, l)
  | [] => (acc, [])
  end.

(** ** SubtypeUntil: the distance to [end] outside every bracket *)

Definition closes (c : ascii) : bool := bool_decide (c = "]" \/ c = "}" \/ c = ")")%char.
Definition opens (c : ascii) : bool := bool_decide (c = "[" \/ c = "{" \/ c = "(")%char.

Fixpoint SubtypeUntil (level : Z) (type : chars) (fin : ascii) : enc nat :=
  match type with
  | [] => Err Fatal
  | c :: rest =>
      if (level =? 0) && bool_decide (c = fin) then Good 0%nat else
      let level :=
        if closes c then level - 1 else if opens c then level + 1 else level in
      let+ n := SubtypeUntil level rest fin in Good (S n)
  end.

(** ** SkipFirstType *)

Definition is_modifier (c : ascii) : bool :=
  bool_decide (c ∈ ["O"; "n"; "o"; "N"; "r"; "V"; "^"]%char).

(** [type + SubtypeUntil (type, end) + 1] *)
Definition skip_subtype (type : chars) (fin : ascii) : enc ptr :=
  let+ n := SubtypeUntil 0 type fin in Good (Some (drop (n + 1) type)).

Fixpoint SkipFirstType (type : chars) : enc ptr :=
  match type with
  | [] => Good None
  | c :: type =>
      if is_modifier c then SkipFirstType type
      else if decide (c = "@"%char) then
        match type with
        | q :: type' => if decide (q = "?"%char) then Good (Some type') else Good (Some type)
        | [] => Good (Some [])
        end
      else if decide (c = "["%char) then skip_subtype (skip_digits type) "]"
      else if decide (c = "{"%char) then skip_subtype type "}"
      else if decide (c = "("%char) then skip_subtype type ")"
      else Good (Some type)
  end.

(** [typedesc = SkipFirstType (typedesc)], read through at once. *)
Definition skip (type : chars) : enc chars := ebind (SkipFirstType type) deref.

Definition skip_char (c : ascii) (l : chars) : chars :=
  match l with d :: l' => if decide (d = c) then l' else l | [] => [] end.

(** The register hint, the sign and the digits of an argument offset. *)
Definition skip_offset (l : chars) : chars := skip_digits (skip_char "-" (skip_char "+" l)).

(** ** encoding_getNumberOfArguments *)

(** Each iteration consumes a character: the length of the string bounds the
    number of iterations. *)
Fixpoint count_args (k : nat) (typedesc : chars) (nargs : Z) : enc (option Z) :=
  match k with
  | O => Good None
  | S k' =>
      match typedesc with
      | [] => Good (Some nargs)
      | _ =>
          let+ l := skip typedesc in
          count_args k' (skip_offset l) (u32 (nargs + 1))
      end
  end.

Definition encoding_getNumberOfArguments (typedesc : chars) : enc (option Z) :=
  let+ l := skip typedesc in
  let l := skip_digits l in
  count_args (S (length l)) l 0.

Definition encoding_getSizeOfArguments (typedesc : chars) : enc Z :=
  let+ l := skip typedesc in
  Good (fst (read_digits 0 l)).

(** ** encoding_getArgumentInfo *)

(** The offset after a type: the hint, the sign and the digits. *)
Definition read_offset (l : chars) : Z * chars :=
  let l := skip_char "+" l in
  match l with
  | c :: l' =>
      if decide (c = "-"%char) then let (n, rest) := read_int 0 l' in (s32 (- n), rest)
      else read_int 0 l
  | [] => (0, [])
  end.

(** Positions on argument [arg]: the number of arguments passed, the offset of
    argument 0 once passed, and the rest of the string. *)
Fixpoint find_arg (k : nat) (typedesc : chars) (nargs arg self_offset : Z)
  : enc (option (Z * Z * chars)) :=
  match k with
  | O => Good None
  | S k' =>
      match typedesc with
      | [] => Good (Some (nargs, self_offset, []))
      | _ =>
          if nargs =? arg then Good (Some (nargs, self_offset, typedesc)) else
          let+ l := skip typedesc in
          if nargs =? 0 then
            let (n, rest) := read_offset l in
            find_arg k' rest (u32 (nargs + 1)) arg n
          else find_arg k' (skip_offset l) (u32 (nargs + 1)) arg self_offset
      end
  end.

(** The return value and the two results stored through pointers. *)
Definition encoding_getArgumentInfo (typedesc : chars) (arg : Z)
  : enc (option (Z * ptr * Z)) :=
  let+ l := skip typedesc in
  let l := skip_digits l in
  let+ r := find_arg (S (length l)) l 0 arg 0 in
  match r with
  | None => Good None
  | Some (nargs, self_offset, []) => Good (Some (nargs, None, 0))
  | Some (nargs, self_offset, typedesc) =>
      let+ rest := skip typedesc in
      let offset := if arg =? 0 then 0 else s32 (fst (read_offset rest) - self_offset) in
      Good (Some (nargs, Some typedesc, offset))
  end.

(** ** Return and argument types

    [end - t] characters from [t]; stepping over the NUL adds one. *)
Definition type_length (t : chars) : enc nat :=
  let+ p := SkipFirstType t in
  Good (match p with Some rest => length t - length rest | None => length t + 1 end)%nat.

(** The first [n] characters of the C string [t]: [strncpy] stops at its NUL and
    fills with NULs. *)
Definition strncpy_chars (t : chars) (n : nat) : chars :=
  take n (t ++ replicate n NUL_char).

(** [dst] after the call: [dst_len] characters. *)
Definition encoding_getReturnType (t : option chars) (dst_len : nat) : enc chars :=
  match t with
  | None => Good (strncpy_chars [] dst_len)
  | Some t =>
      let+ len := type_length t in
      Good (strncpy_chars t (Nat.min len dst_len) ++ replicate (dst_len - len) NUL_char)
  end.

(** The heap string without its terminator; [None] is NULL. *)
Definition encoding_copyReturnType (t : option chars) : enc (option chars) :=
  match t with
  | None => Good None
  | Some t => let+ len := type_length t in Good (Some (strncpy_chars t len))
  end.

Definition encoding_getArgumentType (t : option chars) (index : Z) (dst_len : nat) : enc chars :=
  match t with
  | None => Good (strncpy_chars [] dst_len)
  | Some t =>
      let+ r := encoding_getArgumentInfo t index in
      match r with
      | Some (_, Some t, _) =>
          let+ len := type_length t in
          Good (strncpy_chars t (Nat.min len dst_len) ++ replicate (dst_len - len) NUL_char)
      | _ => Good (strncpy_chars [] dst_len)
      end
  end.

Definition encoding_copyArgumentType (t : option chars) (index : Z) : enc (option chars) :=
  match t with
  | None => Good None
  | Some t =>
      let+ r := encoding_getArgumentInfo t index in
      match r with
      | Some (_, Some t, _) => let+ len := type_length t in Good (Some (strncpy_chars t len))
      | _ => Good None
      end
  end.

Example args_of_setter : encoding_getNumberOfArguments (chars_of "v24@0:8@16") = Good (Some 3).
Proof. vm_compute. reflexivity. Qed.

Example info_of_setter :
  encoding_getArgumentInfo (chars_of "v24@0:8@16") 2 = Good (Some (2, Some (chars_of "@16"), 16)).
Proof. vm_compute. reflexivity. Qed.
