(* ===== verification/TypeEncodingSpec.v ===== *)
(** * What the type-encoding routines compute

    The grammar of method type strings as an abstract syntax with its printer;
    the routines of [TypeEncoding] are the matching parsers: on a printed
    signature they find its parts, and on any string they terminate. *)

From Stdlib Require Import ZArith Lia Bool Ascii String.
From stdpp Require Import base list.
From S2P Require Import Prelude TypeEncoding.

Local Open Scope Z_scope.
Local Open Scope enc_scope.

(** ** Balanced strings *)

Inductive balanced : chars -> Prop :=
| bal_nil : balanced []
| bal_char c l : opens c = false -> closes c = false -> balanced l -> balanced (c :: l)
| bal_group o b c l : opens o = true -> closes c = true -> balanced b -> balanced l ->
    balanced (o :: b ++ c :: l).

Lemma opens_not_closes c : opens c = true -> closes c = false.
Proof.
  unfold opens, closes. rewrite bool_decide_eq_true, bool_decide_eq_false.
  intros [->|[->| ->]]; intros [?|[?|?]]; discriminate.
Qed.

(** Inside a balanced string the level never returns to 0 at a closing
    bracket. *)
Lemma SubtypeUntil_balanced b fin level rest : balanced b -> closes fin = true -> 0 <= level ->
  SubtypeUntil level (b ++ rest) fin =
  let+ n := SubtypeUntil level rest fin in Good (length b + n)%nat.
Proof.
  intros Hb Hf. revert level rest.
  induction Hb as [|c l Ho Hc Hl IH|o b c l Ho Hc Hb IHb Hl IHl]; intros level rest Hlv; simpl.
  - by destruct (SubtypeUntil level rest fin).
  - rewrite bool_decide_eq_false_2 by (intros ->; congruence). rewrite andb_false_r, Hc, Ho, IH by done.
    by destruct (SubtypeUntil level rest fin).
  - pose proof (opens_not_closes _ Ho) as Hoc.
    rewrite bool_decide_eq_false_2 by (intros ->; congruence). rewrite andb_false_r, Hoc, Ho.
    rewrite <- app_assoc, IHb by lia. simpl.
    destruct (level + 1 =? 0) eqn:E; zbool; [lia|]. simpl. rewrite Hc.
    replace (level + 1 - 1) with level by lia. rewrite IHl by done.
    destruct (SubtypeUntil level rest fin) as [n|e]; simpl; [|done].
    rewrite length_app. simpl. do 2 f_equal. lia.
Qed.

Lemma SubtypeUntil_end b fin rest : balanced b -> closes fin = true ->
  SubtypeUntil 0 (b ++ fin :: rest) fin = Good (length b).
Proof.
  intros Hb Hf. rewrite SubtypeUntil_balanced by done. simpl.
  rewrite bool_decide_eq_true_2 by done. simpl. by rewrite Nat.add_0_r.
Qed.

Lemma skip_subtype_end b fin rest : balanced b -> closes fin = true ->
  skip_subtype (b ++ fin :: rest) fin = Good (Some rest).
Proof.
  intros Hb Hf. unfold skip_subtype. rewrite SubtypeUntil_end by done. simpl.
  do 2 f_equal. rewrite Nat.add_comm. replace (1 + length b)%nat with (length (b ++ [fin])).
  - change (b ++ fin :: rest) with (b ++ [fin] ++ rest). rewrite app_assoc. apply drop_app_length.
  - rewrite length_app. simpl. lia.
Qed.

Lemma digit_not_bracket c : is_digit c = true -> opens c = false /\ closes c = false.
Proof.
  unfold is_digit, opens, closes. intros Hd.
  split; apply bool_decide_eq_false; intros [->|[->| ->]]; vm_compute in Hd; discriminate.
Qed.

Lemma skip_digits_app b c l : is_digit c = false -> skip_digits (b ++ c :: l) = skip_digits b ++ c :: l.
Proof.
  intros Hc. induction b as [|d b IH]; simpl; [by rewrite Hc|]. by destruct (is_digit d).
Qed.

Lemma skip_digits_balanced b : balanced b -> balanced (skip_digits b).
Proof.
  induction 1 as [|c l Ho Hc Hl IH|o b c l Ho Hc Hb IHb Hl IHl]; simpl; [constructor|..].
  - destruct (is_digit c); [done|by constructor].
  - destruct (is_digit o) eqn:Ed; [|by constructor].
    apply digit_not_bracket in Ed as [? _]. congruence.
Qed.

(** ** Types *)

Inductive ty :=
| TBase (c : ascii)           (* a basic type: one character *)
| TObj                        (* @ *)
| TBlock                      (* @? *)
| TMod (c : ascii) (t : ty)   (* a qualifier or a pointer *)
| TArr (body : chars)         (* [12i] *)
| TStruct (body : chars)      (* {CGPoint=dd} *)
| TUnion (body : chars).      (* (name=if) *)

Fixpoint print_ty (t : ty) : chars :=
  match t with
  | TBase c => [c]
  | TObj => ["@"%char]
  | TBlock => ["@"; "?"]%char
  | TMod c t => c :: print_ty t
  | TArr b => "["%char :: b ++ ["]"%char]
  | TStruct b => "{"%char :: b ++ ["}"%char]
  | TUnion b => "("%char :: b ++ [")"%char]
  end.

(** A basic type is none of the characters the walk treats specially, and the
    string is not empty at it. *)
Definition basic (c : ascii) : bool :=
  negb (is_modifier c) && negb (opens c) && bool_decide (c <> "@"%char).

Fixpoint wf_ty (t : ty) : Prop :=
  match t with
  | TBase c => basic c = true
  | TObj | TBlock => True
  | TMod c t => is_modifier c = true /\ wf_ty t
  | TArr b | TStruct b | TUnion b => balanced b
  end.

Definition no_question (l : chars) : bool :=
  match l with c :: _ => bool_decide (c <> "?"%char) | [] => true end.

Lemma SkipFirstType_print t rest : wf_ty t -> no_question rest = true ->
  SkipFirstType (print_ty t ++ rest) = Good (Some rest).
Proof.
  intros Ht Hr. induction t as [c| | |c t IH|b|b|b]; simpl in Ht |- *.
  - unfold basic in Ht. rewrite !andb_true_iff, !negb_true_iff, bool_decide_eq_true in Ht.
    destruct Ht as [[-> Ho] Hat]. unfold opens in Ho. apply bool_decide_eq_false in Ho.
    rewrite !decide_False by tauto. done.
  - destruct rest as [|q rest]; [done|]. simpl in Hr. apply bool_decide_eq_true in Hr.
    by rewrite decide_False.
  - done.
  - destruct Ht as [-> Ht]. by apply IH.
  - rewrite <- app_assoc. simpl. rewrite skip_digits_app by done.
    apply skip_subtype_end; [by apply skip_digits_balanced|done].
  - rewrite <- app_assoc. simpl. by apply skip_subtype_end.
  - rewrite <- app_assoc. simpl. by apply skip_subtype_end.
Qed.

Lemma skip_print t rest : wf_ty t -> no_question rest = true -> skip (print_ty t ++ rest) = Good rest.
Proof. intros. unfold skip. by rewrite SkipFirstType_print. Qed.

Lemma print_ty_nonempty t : print_ty t <> [].
Proof. by destruct t. Qed.

Lemma type_length_print t rest : wf_ty t -> no_question rest = true ->
  type_length (print_ty t ++ rest) = Good (length (print_ty t)).
Proof.
  intros. unfold type_length. rewrite SkipFirstType_print by done. simpl. f_equal.
  rewrite length_app. lia.
Qed.

(** ** Signatures *)

Record arg := mk_arg { a_ty : ty; a_plus : bool; a_neg : bool; a_digits : chars }.
Record signature := mk_sig { s_ret : ty; s_frame : chars; s_args : list arg }.

Definition print_arg (a : arg) : chars :=
  print_ty (a_ty a) ++ (if a_plus a then ["+"%char] else []) ++
  (if a_neg a then ["-"%char] else []) ++ a_digits a.

Definition print_args (l : list arg) : chars := concat (map print_arg l).

Definition print_sig (s : signature) : chars :=
  print_ty (s_ret s) ++ s_frame s ++ print_args (s_args s).

(** A type must not begin with a character of the number before it. *)
Definition starts_type (t : ty) : bool :=
  match print_ty t with
  | c :: _ => negb (is_digit c) && bool_decide (c ∉ ["+"; "-"; "?"]%char)
  | [] => false
  end.

Definition wf_arg (a : arg) : Prop :=
  wf_ty (a_ty a) /\ starts_type (a_ty a) = true /\ forallb is_digit (a_digits a) = true.

Definition wf_sig (s : signature) : Prop :=
  wf_ty (s_ret s) /\ forallb is_digit (s_frame s) = true /\ Forall wf_arg (s_args s).

(** The value of a digit string. *)
Definition dval (ds : chars) : Z := fold_left (fun acc c => acc * 10 + digit_val c) ds 0.
Definition arg_offset (a : arg) : Z := if a_neg a then - dval (a_digits a) else dval (a_digits a).

(** What follows a number in a signature: nothing, or the start of a type. *)
Definition type_next (l : chars) : Prop :=
  match l with c :: _ => is_digit c = false /\ c ∉ ["+"; "-"; "?"]%char | [] => True end.

Lemma print_args_next l : Forall wf_arg l -> type_next (print_args l).
Proof.
  intros [|a l' (Hw & Hs & _) _]; [done|]. unfold print_args, print_arg. simpl. unfold starts_type in Hs.
  destruct (print_ty (a_ty a)) as [|c r]; [done|]. simpl.
  apply andb_true_iff in Hs as [Hd%negb_true_iff Hn%bool_decide_eq_true]. done.
Qed.

Lemma skip_digits_all ds l : forallb is_digit ds = true -> type_next l -> skip_digits (ds ++ l) = l.
Proof.
  intros Hd Hl. induction ds as [|c ds IH]; simpl in *.
  - destruct l as [|c l]; [done|]. simpl. by destruct Hl as [-> _].
  - apply andb_true_iff in Hd as [-> Hd]. by apply IH.
Qed.

Lemma type_next_no_question l : type_next l -> no_question l = true.
Proof.
  destruct l as [|c l]; [done|]. intros [_ Hn]. apply bool_decide_eq_true. intros ->. apply Hn. in_list.
Qed.

Lemma digits_no_question ds l : forallb is_digit ds = true -> no_question l = true ->
  no_question (ds ++ l) = true.
Proof.
  destruct ds as [|c ds]; [done|]. simpl. intros [Hd _]%andb_true_iff _.
  apply bool_decide_eq_true. intros ->. vm_compute in Hd. discriminate.
Qed.

(** The part of an argument after its type. *)
Definition print_offset (a : arg) : chars :=
  (if a_plus a then ["+"%char] else []) ++ (if a_neg a then ["-"%char] else []) ++ a_digits a.

Lemma print_arg_eq a : print_arg a = print_ty (a_ty a) ++ print_offset a.
Proof. done. Qed.

(** A number is not taken for a sign or a hint. *)
Lemma skip_char_digits c ds l : c ∈ ["+"; "-"]%char -> forallb is_digit ds = true -> type_next l ->
  skip_char c (ds ++ l) = ds ++ l.
Proof.
  intros Hc Hd Hl. destruct ds as [|d ds]; simpl in *.
  - destruct l as [|d l]; [done|]. simpl. apply decide_False. intros ->. destruct Hl as [_ Hn].
    apply Hn. repeat (apply elem_of_cons in Hc as [->|Hc]; [in_list|]). by apply not_elem_of_nil in Hc.
  - apply andb_true_iff in Hd as [Hd _]. apply decide_False. intros ->.
    repeat (apply elem_of_cons in Hc as [->|Hc]; [vm_compute in Hd; discriminate|]).
    by apply not_elem_of_nil in Hc.
Qed.

Lemma skip_plus a l : wf_arg a -> type_next l ->
  skip_char "+" (print_offset a ++ l) = (if a_neg a then ["-"%char] else []) ++ a_digits a ++ l.
Proof.
  intros (_ & _ & Hd) Hl. unfold print_offset.
  destruct (a_plus a), (a_neg a); simpl; try done. by apply skip_char_digits; [in_list|..].
Qed.

Lemma skip_offset_print a l : wf_arg a -> type_next l -> skip_offset (print_offset a ++ l) = l.
Proof.
  intros Ha Hl. pose proof Ha as (_ & _ & Hd). unfold skip_offset. rewrite skip_plus by done.
  destruct (a_neg a); simpl; [by apply skip_digits_all|].
  rewrite skip_char_digits by (done || in_list). by apply skip_digits_all.
Qed.

Lemma fold_digits_wrap ds x :
  u32 (fold_left (fun acc c => acc * 10 + digit_val c) ds (u32 x)) =
  u32 (fold_left (fun acc c => acc * 10 + digit_val c) ds x).
Proof.
  revert x. induction ds as [|d ds IH]; intros x; simpl; [apply wrap_wrap|].
  rewrite <- IH, <- (IH (x * 10 + digit_val d)). do 2 f_equal. unfold wrap.
  by rewrite <- Zplus_mod_idemp_l, Zmult_mod_idemp_l, Zplus_mod_idemp_l.
Qed.

(** *** 32-bit signed values are determined by their unsigned reading *)

Lemma swrap_congr w x y : wrap w x = wrap w y -> swrap w x = swrap w y.
Proof. unfold wrap, swrap. intros H. by rewrite Zplus_mod, H, <- Zplus_mod. Qed.

Lemma wrap_swrap w z : wrap w (swrap w z) = wrap w z.
Proof. unfold wrap, swrap. rewrite Zminus_mod_idemp_l. f_equal. lia. Qed.

Lemma fold_digits_swrap ds x :
  s32 (fold_left (fun acc c => acc * 10 + digit_val c) ds (s32 x)) =
  s32 (fold_left (fun acc c => acc * 10 + digit_val c) ds x).
Proof. apply swrap_congr. by rewrite <- fold_digits_wrap, wrap_swrap, fold_digits_wrap. Qed.

Lemma s32_opp x : s32 (- s32 x) = s32 (- x).
Proof.
  apply swrap_congr. change (- s32 x) with (0 - s32 x). change (- x) with (0 - x). unfold wrap.
  rewrite <- Zminus_mod_idemp_r, <- (Zminus_mod_idemp_r 0 x). do 2 f_equal. apply (wrap_swrap 32).
Qed.

Lemma s32_sub x y : s32 (s32 x - s32 y) = s32 (x - y).
Proof.
  apply swrap_congr. unfold wrap. rewrite Zminus_mod, (Zminus_mod x y). do 2 f_equal; apply (wrap_swrap 32).
Qed.

Lemma read_int_all acc ds l : forallb is_digit ds = true -> type_next l -> - 2 ^ 31 <= acc < 2 ^ 31 ->
  read_int acc (ds ++ l) = (s32 (fold_left (fun acc c => acc * 10 + digit_val c) ds acc), l).
Proof.
  intros Hd Hl. revert acc. induction ds as [|c ds IH]; intros acc Ha; simpl in *.
  - rewrite swrap_id by (simpl; lia). destruct l as [|c l]; [done|]. simpl. by destruct Hl as [-> _].
  - apply andb_true_iff in Hd as [-> Hd]. rewrite IH; [|done|apply (swrap_range 32); lia].
    f_equal. apply fold_digits_swrap.
Qed.

Lemma read_offset_print a l : wf_arg a -> type_next l ->
  read_offset (print_offset a ++ l) = (s32 (arg_offset a), l).
Proof.
  intros Ha Hl. pose proof Ha as (_ & _ & Hd). unfold read_offset, arg_offset, dval.
  rewrite skip_plus by done. destruct (a_neg a); simpl.
  - rewrite read_int_all by (done || lia). by rewrite s32_opp.
  - pose proof (skip_char_digits "-" _ _ ltac:(in_list) Hd Hl) as Hs.
    rewrite <- (read_int_all 0 _ _ Hd Hl) by lia. destruct (a_digits a ++ l) as [|c r]; [done|].
    simpl in Hs. case_decide; [|done]. exfalso. apply (f_equal length) in Hs. simpl in Hs. lia.
Qed.

Lemma read_digits_all acc ds l : forallb is_digit ds = true -> type_next l -> in_u 32 acc ->
  read_digits acc (ds ++ l) = (u32 (fold_left (fun acc c => acc * 10 + digit_val c) ds acc), l).
Proof.
  intros Hd Hl. revert acc. induction ds as [|c ds IH]; intros acc Ha; simpl in *.
  - destruct l as [|c l]; [by rewrite wrap_id|]. simpl. destruct Hl as [-> _]. by rewrite wrap_id.
  - apply andb_true_iff in Hd as [-> Hd]. rewrite IH; [|done|apply wrap_range; lia].
    f_equal. apply fold_digits_wrap.
Qed.

Lemma offset_no_question a l : wf_arg a -> type_next l -> no_question (print_offset a ++ l) = true.
Proof.
  intros (_ & _ & Hd) Hl. unfold print_offset. destruct (a_plus a), (a_neg a); simpl; try done.
  apply digits_no_question; [done|by apply type_next_no_question].
Qed.

(** One argument of a printed list. *)
Lemma skip_arg a l : Forall wf_arg (a :: l) ->
  skip (print_args (a :: l)) = Good (print_offset a ++ print_args l).
Proof.
  intros [Ha Hl]%Forall_cons. unfold print_args. simpl. rewrite print_arg_eq, <- app_assoc.
  apply skip_print; [apply Ha|]. apply offset_no_question; [done|by apply print_args_next].
Qed.

Lemma skip_return s : wf_sig s -> skip (print_sig s) = Good (s_frame s ++ print_args (s_args s)).
Proof.
  intros (Hr & Hf & Ha). unfold print_sig. apply skip_print; [done|].
  apply digits_no_question; [done|]. by apply type_next_no_question, print_args_next.
Qed.

Lemma print_args_cons_ne a l : exists c r, print_args (a :: l) = c :: r.
Proof.
  unfold print_args. simpl. unfold print_arg. pose proof (print_ty_nonempty (a_ty a)).
  destruct (print_ty (a_ty a)) as [|c r]; [done|]. simpl. eauto.
Qed.

Lemma count_args_print l k n : Forall wf_arg l -> (length l < k)%nat -> in_u 32 n ->
  count_args k (print_args l) n = Good (Some (u32 (n + Z.of_nat (length l)))).
Proof.
  revert k n. induction l as [|a l IH]; intros k n Hl Hk Hn; (destruct k as [|k]; [simpl in Hk; lia|]).
  - simpl. rewrite Z.add_0_r. by rewrite wrap_id.
  - destruct (print_args_cons_ne a l) as (c & r & Hcr). cbn [count_args]. rewrite Hcr, <- Hcr.
    rewrite skip_arg by done. cbn [ebind Good]. apply Forall_cons in Hl as [Ha Hl].
    rewrite skip_offset_print by (done || by apply print_args_next).
    rewrite IH; [|done|simpl in Hk; lia|apply wrap_range; lia].
    do 2 f_equal. unfold wrap. rewrite Zplus_mod_idemp_l. f_equal. simpl. lia.
Qed.

Lemma length_print_args l : (length l <= length (print_args l))%nat.
Proof.
  induction l as [|a l IH]; [done|]. unfold print_args in *. simpl. rewrite length_app.
  pose proof (print_ty_nonempty (a_ty a)) as Hn. rewrite print_arg_eq, length_app.
  destruct (print_ty (a_ty a)); [done|]. simpl. lia.
Qed.

(** ** The routines on a printed signature *)

Lemma args_part s : wf_sig s ->
  skip_digits (s_frame s ++ print_args (s_args s)) = print_args (s_args s).
Proof. intros (_ & Hf & Ha). apply skip_digits_all; [done|by apply print_args_next]. Qed.

(** [encoding_getNumberOfArguments] counts the arguments of every well-formed type string,
    whatever nesting of arrays, structures, unions, qualifiers and blocks its types have, and
    [encoding_getSizeOfArguments] reads its frame size (as a 32-bit unsigned). *)
Theorem encoding_counts (s : signature) :
  wf_sig s ->
  encoding_getNumberOfArguments (print_sig s) = Good (Some (u32 (Z.of_nat (length (s_args s))))) /\
  encoding_getSizeOfArguments (print_sig s) = Good (u32 (dval (s_frame s))).
Proof.
  intros Hs. pose proof Hs as (_ & Hf & Ha).
  unfold encoding_getNumberOfArguments, encoding_getSizeOfArguments. rewrite skip_return by done.
  cbn [ebind Good]. rewrite args_part by done. split.
  - pose proof (length_print_args (s_args s)).
    rewrite count_args_print; [done|done|lia|unfold in_u; lia].
  - rewrite read_digits_all; [done|done|by apply print_args_next|unfold in_u; lia].
Qed.

(** The arguments before and from position [i]. *)
Lemma find_arg_print pre a post self k n :
  Forall wf_arg (pre ++ a :: post) -> (length pre < k)%nat -> 0 <= n ->
  n + Z.of_nat (length pre) < 2 ^ 32 ->
  find_arg k (print_args (pre ++ a :: post)) n (n + Z.of_nat (length pre)) self =
  Good (Some (n + Z.of_nat (length pre),
              match pre with b :: _ => if n =? 0 then s32 (arg_offset b) else self | [] => self end,
              print_args (a :: post))).
Proof.
  revert k n self. induction pre as [|b pre IH]; intros k n self Hw Hk Hn Hmax;
    (destruct k as [|k]; [simpl in Hk; lia|]); cbn [app find_arg].
  - destruct (print_args_cons_ne a post) as (c & r & Hcr). rewrite Hcr, <- Hcr. simpl.
    by rewrite Z.add_0_r, Z.eqb_refl.
  - destruct (print_args_cons_ne b (pre ++ a :: post)) as (c & r & Hcr). rewrite Hcr, <- Hcr.
    rewrite skip_arg by done. apply Forall_cons in Hw as [Hb Hw].
    destruct (n =? n + Z.of_nat (length (b :: pre))) eqn:E; zbool; [simpl in E; lia|].
    replace (n + Z.of_nat (length (b :: pre))) with (n + 1 + Z.of_nat (length pre)) in * by (simpl; lia).
    cbn [ebind Good]. rewrite read_offset_print, skip_offset_print by (done || by apply print_args_next).
    rewrite wrap_id by (unfold in_u; lia).
    destruct (n =? 0) eqn:E0; rewrite IH; try done; try (simpl in Hk; lia); zbool;
      (destruct (n + 1 =? 0) eqn:E1; zbool; [lia|]); by destruct pre.
Qed.

Lemma getArgumentInfo_print s pre a post :
  wf_sig s -> s_args s = pre ++ a :: post -> Z.of_nat (length pre) < 2 ^ 32 ->
  encoding_getArgumentInfo (print_sig s) (Z.of_nat (length pre)) =
  Good (Some (Z.of_nat (length pre), Some (print_args (a :: post)),
              match pre with b :: _ => s32 (arg_offset a - arg_offset b) | [] => 0 end)).
Proof.
  intros Hs Heq Hi. pose proof Hs as (_ & _ & Ha). unfold encoding_getArgumentInfo.
  rewrite skip_return by done. cbn [ebind Good]. rewrite args_part, Heq by done. rewrite Heq in Ha.
  pose proof (length_print_args (pre ++ a :: post)) as Hlen. rewrite length_app in Hlen.
  rewrite (find_arg_print pre a post 0 _ 0) by (done || (simpl in *; lia)).
  destruct (print_args_cons_ne a post) as (c & r & Hcr). rewrite Hcr, Z.add_0_l. cbn [ebind Good].
  rewrite <- Hcr.
  apply Forall_app in Ha as [_ Hap]. rewrite skip_arg by done. apply Forall_cons in Hap as [Haa Hpost].
  cbn [ebind Good]. rewrite read_offset_print by (done || by apply print_args_next).
  destruct pre as [|b pre]; [done|]. simpl. destruct (Z.of_nat (S (length pre)) =? 0) eqn:E; zbool; [lia|].
  by rewrite s32_sub.
Qed.

(** An index behind the last argument: the walk ends at the end of the string. *)
Lemma find_arg_past l k n i self : Forall wf_arg l -> (length l < k)%nat -> 0 <= n ->
  n + Z.of_nat (length l) <= i < 2 ^ 32 ->
  exists self', find_arg k (print_args l) n i self = Good (Some (n + Z.of_nat (length l), self', [])).
Proof.
  revert k n self. induction l as [|a l IH]; intros k n self Hl Hk Hn Hi; (destruct k as [|k]; [simpl in Hk; lia|]).
  - exists self. simpl. by rewrite Z.add_0_r.
  - destruct (print_args_cons_ne a l) as (c & r & Hcr). cbn [find_arg]. rewrite Hcr, <- Hcr.
    rewrite skip_arg by done. apply Forall_cons in Hl as [Ha Hl].
    destruct (n =? i) eqn:E; zbool; [simpl in Hi; lia|]. cbn [ebind Good].
    rewrite read_offset_print, skip_offset_print by (done || by apply print_args_next).
    rewrite wrap_id by (unfold in_u; simpl in Hi; lia).
    replace (n + Z.of_nat (length (a :: l))) with (n + 1 + Z.of_nat (length l)) in * by (simpl; lia).
    destruct (n =? 0); apply IH; (done || (simpl in Hk; lia)).
Qed.

Lemma getArgumentInfo_past s i : wf_sig s -> Z.of_nat (length (s_args s)) <= i < 2 ^ 32 ->
  encoding_getArgumentInfo (print_sig s) i = Good (Some (Z.of_nat (length (s_args s)), None, 0)).
Proof.
  intros Hs Hi. pose proof Hs as (_ & _ & Ha). unfold encoding_getArgumentInfo.
  rewrite skip_return by done. cbn [ebind Good]. rewrite args_part by done.
  pose proof (length_print_args (s_args s)).
  destruct (find_arg_past (s_args s) (S (length (print_args (s_args s)))) 0 i 0) as [self ->]; [done|lia..|]. done.
Qed.

Lemma strncpy_chars_prefix t rest : strncpy_chars (t ++ rest) (length t) = t.
Proof. unfold strncpy_chars. rewrite <- app_assoc. apply take_app_length. Qed.

(** C29. On a well-formed type string: at the index of an argument, [encoding_getArgumentInfo] gives
    the index, the position of that argument's type in the string and its offset relative to
    argument 0, as a 32-bit int, and [encoding_copyArgumentType] exactly the printed type;
    at an index behind the last argument they give the number of arguments with a null type and
    offset 0, and null; and [encoding_copyReturnType] gives the printed return type. *)
Theorem encoding_argument (s : signature) :
  wf_sig s ->
  (forall (pre : list arg) (a : arg) (post : list arg),
     s_args s = pre ++ a :: post -> Z.of_nat (length pre) < 2 ^ 32 ->
     let i := Z.of_nat (length pre) in
     let offset := match pre with b :: _ => s32 (arg_offset a - arg_offset b) | [] => 0 end in
     encoding_getArgumentInfo (print_sig s) i = Good (Some (i, Some (print_args (a :: post)), offset)) /\
     encoding_copyArgumentType (Some (print_sig s)) i = Good (Some (print_ty (a_ty a)))) /\
  (forall i, Z.of_nat (length (s_args s)) <= i < 2 ^ 32 ->
     encoding_getArgumentInfo (print_sig s) i = Good (Some (Z.of_nat (length (s_args s)), None, 0)) /\
     encoding_copyArgumentType (Some (print_sig s)) i = Good None) /\
  encoding_copyReturnType (Some (print_sig s)) = Good (Some (print_ty (s_ret s))).
Proof.
  intros Hs. pose proof Hs as (Hr & Hf & Ha). split_and!.
  - intros pre a post Heq Hi i offset. subst i offset.
    pose proof (getArgumentInfo_print s pre a post Hs Heq Hi) as Hinfo.
    rewrite Heq in Ha. apply Forall_app in Ha as [_ Hap]. pose proof Hap as [Haa Hpost]%Forall_cons.
    split; [exact Hinfo|]. unfold encoding_copyArgumentType. rewrite Hinfo. cbn [ebind Good].
    unfold print_args. simpl. rewrite print_arg_eq, <- app_assoc.
    rewrite type_length_print by (apply Haa || by apply offset_no_question, print_args_next).
    simpl. by rewrite strncpy_chars_prefix.
  - intros i Hi. unfold encoding_copyArgumentType. by rewrite getArgumentInfo_past.
  - unfold encoding_copyReturnType, print_sig. rewrite type_length_print; [|done|].
    + simpl. by rewrite strncpy_chars_prefix.
    + apply digits_no_question; [done|]. by apply type_next_no_question, print_args_next.
Qed.

(** ** Termination on any string *)

Lemma SubtypeUntil_bound level l fin n : SubtypeUntil level l fin = Good n -> (n < length l)%nat.
Proof.
  revert level n. induction l as [|c l IH]; intros level n; simpl; [discriminate|].
  destruct (_ && _); [intros [= <-]; lia|]. destruct (SubtypeUntil _ l fin) as [k|e] eqn:E; [|discriminate].
  intros [= <-]. apply IH in E. lia.
Qed.

Lemma length_skip_digits l : (length (skip_digits l) <= length l)%nat.
Proof. induction l as [|c l IH]; simpl; [lia|]. destruct (is_digit c); simpl; lia. Qed.

Lemma skip_subtype_shorter l fin rest : skip_subtype l fin = Good (Some rest) ->
  (length rest < length l)%nat.
Proof.
  unfold skip_subtype. destruct (SubtypeUntil 0 l fin) as [n|e] eqn:E; [|discriminate].
  intros [= <-]. apply SubtypeUntil_bound in E. rewrite length_drop. lia.
Qed.

Lemma skip_shorter l rest : skip l = Good rest -> (length rest < length l)%nat.
Proof.
  unfold skip. induction l as [|c l IH]; cbn [SkipFirstType ebind deref Good]; [discriminate|].
  destruct (is_modifier c); [intros Hs; apply IH in Hs; simpl; lia|].
  repeat case_decide; try (simpl; intros [= <-]; lia).
  all: try (destruct l as [|q l']; [intros [= <-]; simpl; lia|case_decide; intros [= <-]; simpl; lia]).
  all: intros Hs.
  all: match type of Hs with ebind (skip_subtype ?x ?f) _ = _ =>
      pose proof (length_skip_digits l); destruct (skip_subtype x f) as [[r|]|] eqn:E; try discriminate;
      injection Hs as <-; apply skip_subtype_shorter in E; simpl; lia end.
Qed.

Lemma skip_offset_length l : (length (skip_offset l) <= length l)%nat.
Proof.
  unfold skip_offset. etransitivity; [apply length_skip_digits|].
  assert (Hc : forall c l, (length (skip_char c l) <= length l)%nat).
  { intros c [|d r]; simpl; [lia|]. case_decide; simpl; lia. }
  etransitivity; [apply Hc|apply Hc].
Qed.

Lemma count_args_fuel k l n : (length l < k)%nat -> count_args k l n <> Good None.
Proof.
  revert l n. induction k as [|k IH]; intros l n Hk; [lia|]. cbn [count_args].
  destruct l as [|c l]; [done|]. destruct (skip (c :: l)) as [rest|e] eqn:E; cbn [ebind Good]; [|done].
  apply skip_shorter in E. apply IH. pose proof (skip_offset_length rest). lia.
Qed.

(** [encoding_getNumberOfArguments] terminates on every string, well-formed or not: it
    counts, or stops with an error. *)
Theorem encoding_getNumberOfArguments_terminates (t : chars) :
  encoding_getNumberOfArguments t <> Good None.
Proof.
  unfold encoding_getNumberOfArguments. destruct (skip t) as [l|e]; cbn [ebind Good]; [|done].
  apply count_args_fuel. lia.
Qed.

(** A setter of a structure: "v40@0:8{CGRect={CGPoint=dd}{CGSize=dd}}16". *)
Definition rect_setter : signature :=
  mk_sig (TBase "v") (chars_of "40")
    [mk_arg TObj false false (chars_of "0"); mk_arg (TBase ":") false false (chars_of "8");
     mk_arg (TStruct (chars_of "CGRect={CGPoint=dd}{CGSize=dd}")) false false (chars_of "16")].

Lemma balanced_rect : balanced (chars_of "CGRect={CGPoint=dd}{CGSize=dd}").
Proof.
  do 7 (apply bal_char; [reflexivity..|]).
  apply (bal_group "{" (chars_of "CGPoint=dd") "}" (chars_of "{CGSize=dd}")); [reflexivity..| |].
  - repeat (apply bal_char; [reflexivity..|]). constructor.
  - apply (bal_group "{" (chars_of "CGSize=dd") "}" []); [reflexivity..| |constructor].
    repeat (apply bal_char; [reflexivity..|]). constructor.
Qed.

Lemma wf_rect_setter : wf_sig rect_setter.
Proof.
  split_and!; [reflexivity..|]. unfold rect_setter. cbn [s_args].
  repeat (apply Forall_cons; split; [split_and!; first [reflexivity|exact I|exact balanced_rect]|]).
  apply Forall_nil_2.
Qed.

Lemma encoding_counts_witness :
  encoding_getNumberOfArguments (chars_of "v40@0:8{CGRect={CGPoint=dd}{CGSize=dd}}16") = Good (Some 3).
Proof. exact (proj1 (encoding_counts rect_setter wf_rect_setter)). Defined.

Lemma encoding_argument_witness :
  encoding_copyArgumentType (Some (chars_of "v40@0:8{CGRect={CGPoint=dd}{CGSize=dd}}16")) 2
  = Good (Some (chars_of "{CGRect={CGPoint=dd}{CGSize=dd}}")) /\
  encoding_copyArgumentType (Some (chars_of "v40@0:8{CGRect={CGPoint=dd}{CGSize=dd}}16")) 3 = Good None.
Proof.
  split.
  - exact (proj2 (proj1 (encoding_argument rect_setter wf_rect_setter)
      [mk_arg TObj false false (chars_of "0"); mk_arg (TBase ":") false false (chars_of "8")]
      (mk_arg (TStruct (chars_of "CGRect={CGPoint=dd}{CGSize=dd}")) false false (chars_of "16")) []
      eq_refl eq_refl)).
  - assert (Hi : Z.of_nat (length (s_args rect_setter)) <= 3 < 2 ^ 32) by (simpl; lia).
    exact (proj2 (proj1 (proj2 (encoding_argument rect_setter wf_rect_setter)) 3 Hi)).
Defined.

(** An object type with a class name, as property attributes have it, is not
    one type for [SkipFirstType]: it stops after the [@]. *)
Example quoted_class_not_skipped :
  encoding_copyReturnType (Some ("@"%char :: ascii_of_nat 34 :: chars_of "NSString")) = Good (Some ["@"%char]).
Proof. vm_compute. reflexivity. Qed.
