(* ===== verification/ObjCData.v ===== *)
(** * Objective-C metadata

    The structures in which the lowered files describe their classes to the
    runtime (the declarations that precede the data of every *-arm64.cpp file),
    the C layout of instance structures, and the store of class objects that
    the set-up hooks of the files write. *)

From Stdlib Require Import ZArith Lia Bool Ascii String.
From stdpp Require Import base list gmap strings.
From S2P Require Import Prelude.

Local Open Scope Z_scope.

(** ** Layout of C structures on arm64 *)

Inductive ctype := C_pointer | C_long | C_unsigned | C_int | C_bool.

#[export] Instance ctype_eq_dec : EqDecision ctype.
Proof. solve_decision. Defined.

Definition sizeof_c (t : ctype) : Z :=
  match t with C_pointer | C_long => 8 | C_unsigned | C_int => 4 | C_bool => 1 end.

(** Every scalar is aligned to its size. *)
Definition alignof_c (t : ctype) : Z := sizeof_c t.

Definition align_up (n a : Z) : Z := (n + (a - 1)) / a * a.

(** A structure, possibly with the structure of the superclass embedded first. *)
Inductive c_struct :=
| Struct (members : list (string * ctype))
| SubStruct (super : c_struct) (members : list (string * ctype)).

Definition members (s : c_struct) : list (string * ctype) :=
  match s with Struct l | SubStruct _ l => l end.

Fixpoint place (pos : Z) (l : list (string * ctype)) : list (string * Z) * Z :=
  match l with
  | [] => ([], pos)
  | (x, t) :: l' =>
      let off := align_up pos (alignof_c t) in
      let (rest, fin) := place (off + sizeof_c t) l' in
      ((x, off) :: rest, fin)
  end.

Definition max_align (l : list (string * ctype)) : Z := foldr (fun p a => Z.max (alignof_c p.2) a) 1 l.

Fixpoint alignof_struct (s : c_struct) : Z :=
  match s with
  | Struct l => max_align l
  | SubStruct p l => Z.max (alignof_struct p) (max_align l)
  end.

Fixpoint sizeof_struct (s : c_struct) : Z :=
  match s with
  | Struct l => align_up (snd (place 0 l)) (alignof_struct s)
  | SubStruct p l => align_up (snd (place (sizeof_struct p) l)) (alignof_struct s)
  end.

(** Where the members of the structure itself start. *)
Definition own_start (s : c_struct) : Z :=
  match s with Struct _ => 0 | SubStruct p _ => sizeof_struct p end.

(** [__OFFSETOFIVAR__(TYPE, MEMBER)] *)
Definition OFFSETOFIVAR (s : c_struct) (member : string) : Z :=
  match filter (fun p => p.1 = member) (fst (place (own_start s) (members s))) with
  | (_, off) :: _ => off
  | [] => -1
  end.

(** ** The metadata structures *)

Record _prop_t := mk_prop { prop_name : string; prop_attributes : string }.

(** A function pointer is the name of the function. *)
Record _objc_method := mk_method { _cmd : string; method_type : string; _imp : string }.

(** [offset] points to the variable OBJC_IVAR_$_...; the record holds the value
    of that variable. *)
Record _ivar_t := mk_ivar {
  ivar_offset : Z; ivar_name : string; ivar_type : string; ivar_alignment : Z; ivar_size : Z }.

(** The header and the entries of a list of methods, ivars or properties. *)
Record ent_list (A : Type) := mk_list { entsize : Z; count : Z; entries : list A }.
Arguments mk_list {A}. Arguments entsize {A}. Arguments count {A}. Arguments entries {A}.

Record _class_ro_t := mk_ro {
  ro_flags : Z; instanceStart : Z; instanceSize : Z;
  ro_name : string;
  baseMethods : option (ent_list _objc_method);
  ivars : option (ent_list _ivar_t);
  properties : option (ent_list _prop_t) }.

(** A pointer to a class object is the name of the object; 0 is [None]. *)
Record _class_t := mk_class {
  isa : option string; superclass : option string; cache : option string; ro : _class_ro_t }.

Record _category_t := mk_category {
  cat_name : string; cls : option string;
  instance_methods : option (ent_list _objc_method);
  class_methods : option (ent_list _objc_method);
  cat_properties : option (ent_list _prop_t) }.

(** The C declarations of the same structures, for [sizeof]. *)
Definition _prop_t_struct : c_struct := Struct [("name", C_pointer); ("attributes", C_pointer)]%string.
Definition _objc_method_struct : c_struct :=
  Struct [("_cmd", C_pointer); ("method_type", C_pointer); ("_imp", C_pointer)]%string.
Definition _ivar_t_struct : c_struct :=
  Struct [("offset", C_pointer); ("name", C_pointer); ("type", C_pointer);
               ("alignment", C_unsigned); ("size", C_unsigned)]%string.
Definition _class_t_struct : c_struct :=
  Struct [("isa", C_pointer); ("superclass", C_pointer); ("cache", C_pointer);
               ("vtable", C_pointer); ("ro", C_pointer)]%string.

(** The root of every instance structure. *)
Definition NSObject_IMPL : c_struct := Struct [("isa", C_pointer)]%string.

(** A literal with embedded double quotes, written as single quotes. *)
Fixpoint quoted (s : string) : string :=
  match s with
  | EmptyString => EmptyString
  | String c s' => String (if Ascii.eqb c "'" then ascii_of_nat 34 else c) (quoted s')
  end.

(** ** Class objects and the set-up hooks *)

Record metadata := mk_metadata {
  classes : gmap string _class_t; categories : gmap string _category_t }.

Definition alter_class (f : _class_t -> _class_t) (sym : string) (S : metadata) : metadata :=
  mk_metadata (alter f sym (classes S)) (categories S).

(** [sym.isa = v], [sym.superclass = v], [sym.cache = v] *)
Definition set_isa (sym v : string) : metadata -> metadata :=
  alter_class (fun c => mk_class (Some v) (superclass c) (cache c) (ro c)) sym.
Definition set_superclass (sym v : string) : metadata -> metadata :=
  alter_class (fun c => mk_class (isa c) (Some v) (cache c) (ro c)) sym.
Definition set_cache (sym v : string) : metadata -> metadata :=
  alter_class (fun c => mk_class (isa c) (superclass c) (Some v) (ro c)) sym.

(** [sym.cls = v] of a category *)
Definition set_cls (sym v : string) (S : metadata) : metadata :=
  mk_metadata (classes S)
    (alter (fun k => mk_category (cat_name k) (Some v) (instance_methods k) (class_methods k)
                       (cat_properties k)) sym (categories S)).

(** What one lowered file contributes: the class objects and categories it
    defines, as initialised, the hooks the runtime runs, and the lists of its
    classes and categories. *)
Record image := mk_image {
  img_objects : list (string * _class_t);
  img_categories : list (string * _category_t);
  img_setup : list (metadata -> metadata);
  img_classlist : list string;
  img_catlist : list string }.

Definition run_hooks (hooks : list (metadata -> metadata)) (S : metadata) : metadata :=
  fold_left (fun S h => h S) hooks S.

(** The objects of all the files, before any hook has run. *)
Definition link_images (imgs : list image) : metadata :=
  mk_metadata (list_to_map (concat (map img_objects imgs)))
              (list_to_map (concat (map img_categories imgs))).

Definition load_images (imgs : list image) : metadata :=
  run_hooks (concat (map img_setup imgs)) (link_images imgs).
