(* ===== verification/ObjCImages.v ===== *)
(** * The metadata of the lowered files

    One section per *-arm64.cpp file under iOSTech: the instance structure as
    that file declares it, the ivar offset variables, the lists of ivars,
    methods and properties, the class and metaclass objects, the set-up hook and
    the lists the runtime reads.  A name is the name in the file without its
    dollar signs.  Where a file only sees an interface of its superclass, the
    structure it embeds is smaller than the real one and has its own name,
    <Class>_IMPL_in_<File>. *)

From Stdlib Require Import ZArith String.
From stdpp Require Import base list gmap strings.
From S2P Require Import Prelude ObjCData.

Local Open Scope Z_scope.
Local Open Scope string_scope.

(** ** Object/SKObjectObject-arm64.cpp *)

Definition SKObjectObject_IMPL : c_struct :=
  SubStruct NSObject_IMPL [("_ObjectObjectString", C_pointer)].

Definition OBJC_IVAR_SKObjectObject__ObjectObjectString : Z :=
  OFFSETOFIVAR SKObjectObject_IMPL "_ObjectObjectString".

Definition _OBJC_INSTANCE_VARIABLES_SKObjectObject : ent_list _ivar_t :=
  mk_list (sizeof_struct _ivar_t_struct) 1
    [mk_ivar OBJC_IVAR_SKObjectObject__ObjectObjectString "_ObjectObjectString" (quoted "@'NSString'") 3 8].

Definition _OBJC_INSTANCE_METHODS_SKObjectObject : ent_list _objc_method :=
  mk_list (sizeof_struct _objc_method_struct) 4
    [mk_method "printObjectObject" "v16@0:8" "_I_SKObjectObject_printObjectObject";
     mk_method "printClass" "@16@0:8" "_I_SKObjectObject_printClass";
     mk_method "ObjectObjectString" "@16@0:8" "_I_SKObjectObject_ObjectObjectString";
     mk_method "setObjectObjectString:" "v24@0:8@16" "_I_SKObjectObject_setObjectObjectString_"].

Definition _OBJC_CLASS_METHODS_SKObjectObject : ent_list _objc_method :=
  mk_list (sizeof_struct _objc_method_struct) 1
    [mk_method "thisisSuperMethod" "v16@0:8" "_C_SKObjectObject_thisisSuperMethod"].

Definition _OBJC_PROP_LIST_SKObjectObject : ent_list _prop_t :=
  mk_list (sizeof_struct _prop_t_struct) 1
    [mk_prop "ObjectObjectString" (quoted "T@'NSString',&,N,V_ObjectObjectString")].

Definition _OBJC_METACLASS_RO_SKObjectObject : _class_ro_t :=
  mk_ro 1 (sizeof_struct _class_t_struct) (sizeof_struct _class_t_struct) "SKObjectObject"
    (Some _OBJC_CLASS_METHODS_SKObjectObject)
    None
    None.

Definition _OBJC_CLASS_RO_SKObjectObject : _class_ro_t :=
  mk_ro 0 (OFFSETOFIVAR SKObjectObject_IMPL "_ObjectObjectString") (sizeof_struct SKObjectObject_IMPL) "SKObjectObject"
    (Some _OBJC_INSTANCE_METHODS_SKObjectObject)
    (Some _OBJC_INSTANCE_VARIABLES_SKObjectObject)
    (Some _OBJC_PROP_LIST_SKObjectObject).

Definition OBJC_METACLASS_SKObjectObject : _class_t := mk_class None None None _OBJC_METACLASS_RO_SKObjectObject.

Definition OBJC_CLASS_SKObjectObject : _class_t := mk_class None None None _OBJC_CLASS_RO_SKObjectObject.

Definition OBJC_CLASS_SETUP_SKObjectObject (S : metadata) : metadata :=
  let S := set_isa "OBJC_METACLASS_$_SKObjectObject" "OBJC_METACLASS_$_NSObject" S in
  let S := set_superclass "OBJC_METACLASS_$_SKObjectObject" "OBJC_METACLASS_$_NSObject" S in
  let S := set_cache "OBJC_METACLASS_$_SKObjectObject" "_objc_empty_cache" S in
  let S := set_isa "OBJC_CLASS_$_SKObjectObject" "OBJC_METACLASS_$_SKObjectObject" S in
  let S := set_superclass "OBJC_CLASS_$_SKObjectObject" "OBJC_CLASS_$_NSObject" S in
  let S := set_cache "OBJC_CLASS_$_SKObjectObject" "_objc_empty_cache" S in
  S.

Definition image_SKObjectObject : image :=
  mk_image
    [("OBJC_METACLASS_$_SKObjectObject", OBJC_METACLASS_SKObjectObject);
     ("OBJC_CLASS_$_SKObjectObject", OBJC_CLASS_SKObjectObject)]
    [] [OBJC_CLASS_SETUP_SKObjectObject]
    ["OBJC_CLASS_$_SKObjectObject"] [].

(** ** Object/SKSubObject-arm64.cpp *)

Definition SKObjectObject_IMPL_in_SKSubObject : c_struct :=
  SubStruct NSObject_IMPL [].

Definition SKSubObject_IMPL : c_struct :=
  SubStruct SKObjectObject_IMPL_in_SKSubObject [("_subObjectString", C_pointer); ("_priObjectString", C_pointer)].

Definition OBJC_IVAR_SKSubObject__subObjectString : Z :=
  OFFSETOFIVAR SKSubObject_IMPL "_subObjectString".

Definition OBJC_IVAR_SKSubObject__priObjectString : Z :=
  OFFSETOFIVAR SKSubObject_IMPL "_priObjectString".

Definition _OBJC_INSTANCE_VARIABLES_SKSubObject : ent_list _ivar_t :=
  mk_list (sizeof_struct _ivar_t_struct) 2
    [mk_ivar OBJC_IVAR_SKSubObject__subObjectString "_subObjectString" (quoted "@'NSString'") 3 8;
     mk_ivar OBJC_IVAR_SKSubObject__priObjectString "_priObjectString" (quoted "@'NSString'") 3 8].

Definition _OBJC_INSTANCE_METHODS_SKSubObject : ent_list _objc_method :=
  mk_list (sizeof_struct _objc_method_struct) 6
    [mk_method "printSubObject" "v16@0:8" "_I_SKSubObject_printSubObject";
     mk_method "init" "@16@0:8" "_I_SKSubObject_init";
     mk_method "subObjectString" "@16@0:8" "_I_SKSubObject_subObjectString";
     mk_method "setSubObjectString:" "v24@0:8@16" "_I_SKSubObject_setSubObjectString_";
     mk_method "priObjectString" "@16@0:8" "_I_SKSubObject_priObjectString";
     mk_method "setPriObjectString:" "v24@0:8@16" "_I_SKSubObject_setPriObjectString_"].

Definition _OBJC_CLASS_METHODS_SKSubObject : ent_list _objc_method :=
  mk_list (sizeof_struct _objc_method_struct) 1
    [mk_method "thisisSubMethod" "v16@0:8" "_C_SKSubObject_thisisSubMethod"].

Definition _OBJC_PROP_LIST_SKSubObject : ent_list _prop_t :=
  mk_list (sizeof_struct _prop_t_struct) 1
    [mk_prop "subObjectString" (quoted "T@'NSString',&,N,V_subObjectString")].

Definition _OBJC_METACLASS_RO_SKSubObject : _class_ro_t :=
  mk_ro 1 (sizeof_struct _class_t_struct) (sizeof_struct _class_t_struct) "SKSubObject"
    (Some _OBJC_CLASS_METHODS_SKSubObject)
    None
    None.

Definition _OBJC_CLASS_RO_SKSubObject : _class_ro_t :=
  mk_ro 0 (OFFSETOFIVAR SKSubObject_IMPL "_subObjectString") (sizeof_struct SKSubObject_IMPL) "SKSubObject"
    (Some _OBJC_INSTANCE_METHODS_SKSubObject)
    (Some _OBJC_INSTANCE_VARIABLES_SKSubObject)
    (Some _OBJC_PROP_LIST_SKSubObject).

Definition OBJC_METACLASS_SKSubObject : _class_t := mk_class None None None _OBJC_METACLASS_RO_SKSubObject.

Definition OBJC_CLASS_SKSubObject : _class_t := mk_class None None None _OBJC_CLASS_RO_SKSubObject.

Definition OBJC_CLASS_SETUP_SKSubObject (S : metadata) : metadata :=
  let S := set_isa "OBJC_METACLASS_$_SKSubObject" "OBJC_METACLASS_$_NSObject" S in
  let S := set_superclass "OBJC_METACLASS_$_SKSubObject" "OBJC_METACLASS_$_SKObjectObject" S in
  let S := set_cache "OBJC_METACLASS_$_SKSubObject" "_objc_empty_cache" S in
  let S := set_isa "OBJC_CLASS_$_SKSubObject" "OBJC_METACLASS_$_SKSubObject" S in
  let S := set_superclass "OBJC_CLASS_$_SKSubObject" "OBJC_CLASS_$_SKObjectObject" S in
  let S := set_cache "OBJC_CLASS_$_SKSubObject" "_objc_empty_cache" S in
  S.

Definition image_SKSubObject : image :=
  mk_image
    [("OBJC_METACLASS_$_SKSubObject", OBJC_METACLASS_SKSubObject);
     ("OBJC_CLASS_$_SKSubObject", OBJC_CLASS_SKSubObject)]
    [] [OBJC_CLASS_SETUP_SKSubObject]
    ["OBJC_CLASS_$_SKSubObject"] [].

(** ** Block/BlockTest/SubDemo/SubDemo-arm64.cpp *)

Definition SubDemo_IMPL : c_struct :=
  SubStruct NSObject_IMPL [("_firstName", C_pointer)].

Definition OBJC_IVAR_SubDemo__firstName : Z :=
  OFFSETOFIVAR SubDemo_IMPL "_firstName".

Definition _OBJC_INSTANCE_VARIABLES_SubDemo : ent_list _ivar_t :=
  mk_list (sizeof_struct _ivar_t_struct) 1
    [mk_ivar OBJC_IVAR_SubDemo__firstName "_firstName" (quoted "@'NSString'") 3 8].

Definition _OBJC_INSTANCE_METHODS_SubDemo : ent_list _objc_method :=
  mk_list (sizeof_struct _objc_method_struct) 3
    [mk_method "testSetSubDemo" "v16@0:8" "_I_SubDemo_testSetSubDemo";
     mk_method "firstName" "@16@0:8" "_I_SubDemo_firstName";
     mk_method "setFirstName:" "v24@0:8@16" "_I_SubDemo_setFirstName_"].

Definition _OBJC_PROP_LIST_SubDemo : ent_list _prop_t :=
  mk_list (sizeof_struct _prop_t_struct) 1
    [mk_prop "firstName" (quoted "T@'NSString',C,N,V_firstName")].

Definition _OBJC_METACLASS_RO_SubDemo : _class_ro_t :=
  mk_ro 1 (sizeof_struct _class_t_struct) (sizeof_struct _class_t_struct) "SubDemo"
    None
    None
    None.

Definition _OBJC_CLASS_RO_SubDemo : _class_ro_t :=
  mk_ro 0 (OFFSETOFIVAR SubDemo_IMPL "_firstName") (sizeof_struct SubDemo_IMPL) "SubDemo"
    (Some _OBJC_INSTANCE_METHODS_SubDemo)
    (Some _OBJC_INSTANCE_VARIABLES_SubDemo)
    (Some _OBJC_PROP_LIST_SubDemo).

Definition OBJC_METACLASS_SubDemo : _class_t := mk_class None None None _OBJC_METACLASS_RO_SubDemo.

Definition OBJC_CLASS_SubDemo : _class_t := mk_class None None None _OBJC_CLASS_RO_SubDemo.

Definition OBJC_CLASS_SETUP_SubDemo (S : metadata) : metadata :=
  let S := set_isa "OBJC_METACLASS_$_SubDemo" "OBJC_METACLASS_$_NSObject" S in
  let S := set_superclass "OBJC_METACLASS_$_SubDemo" "OBJC_METACLASS_$_NSObject" S in
  let S := set_cache "OBJC_METACLASS_$_SubDemo" "_objc_empty_cache" S in
  let S := set_isa "OBJC_CLASS_$_SubDemo" "OBJC_METACLASS_$_SubDemo" S in
  let S := set_superclass "OBJC_CLASS_$_SubDemo" "OBJC_CLASS_$_NSObject" S in
  let S := set_cache "OBJC_CLASS_$_SubDemo" "_objc_empty_cache" S in
  S.

Definition image_SubDemo : image :=
  mk_image
    [("OBJC_METACLASS_$_SubDemo", OBJC_METACLASS_SubDemo);
     ("OBJC_CLASS_$_SubDemo", OBJC_CLASS_SubDemo)]
    [] [OBJC_CLASS_SETUP_SubDemo]
    ["OBJC_CLASS_$_SubDemo"] [].

(** ** Block/BlockTest/SubDemo/SSbDemo-arm64.cpp *)

Definition SubDemo_IMPL_in_SSbDemo : c_struct :=
  SubStruct NSObject_IMPL [].

Definition SSDemo_IMPL : c_struct :=
  SubStruct SubDemo_IMPL_in_SSbDemo [("_lastName", C_pointer)].

Definition OBJC_IVAR_SSDemo__lastName : Z :=
  OFFSETOFIVAR SSDemo_IMPL "_lastName".

Definition _OBJC_INSTANCE_VARIABLES_SSDemo : ent_list _ivar_t :=
  mk_list (sizeof_struct _ivar_t_struct) 1
    [mk_ivar OBJC_IVAR_SSDemo__lastName "_lastName" (quoted "@'NSString'") 3 8].

Definition _OBJC_INSTANCE_METHODS_SSDemo : ent_list _objc_method :=
  mk_list (sizeof_struct _objc_method_struct) 2
    [mk_method "lastName" "@16@0:8" "_I_SSDemo_lastName";
     mk_method "setLastName:" "v24@0:8@16" "_I_SSDemo_setLastName_"].

Definition _OBJC_METACLASS_RO_SSDemo : _class_ro_t :=
  mk_ro 1 (sizeof_struct _class_t_struct) (sizeof_struct _class_t_struct) "SSDemo"
    None
    None
    None.

Definition _OBJC_CLASS_RO_SSDemo : _class_ro_t :=
  mk_ro 0 (OFFSETOFIVAR SSDemo_IMPL "_lastName") (sizeof_struct SSDemo_IMPL) "SSDemo"
    (Some _OBJC_INSTANCE_METHODS_SSDemo)
    (Some _OBJC_INSTANCE_VARIABLES_SSDemo)
    None.

Definition OBJC_METACLASS_SSDemo : _class_t := mk_class None None None _OBJC_METACLASS_RO_SSDemo.

Definition OBJC_CLASS_SSDemo : _class_t := mk_class None None None _OBJC_CLASS_RO_SSDemo.

Definition OBJC_CLASS_SETUP_SSDemo (S : metadata) : metadata :=
  let S := set_isa "OBJC_METACLASS_$_SSDemo" "OBJC_METACLASS_$_NSObject" S in
  let S := set_superclass "OBJC_METACLASS_$_SSDemo" "OBJC_METACLASS_$_SubDemo" S in
  let S := set_cache "OBJC_METACLASS_$_SSDemo" "_objc_empty_cache" S in
  let S := set_isa "OBJC_CLASS_$_SSDemo" "OBJC_METACLASS_$_SSDemo" S in
  let S := set_superclass "OBJC_CLASS_$_SSDemo" "OBJC_CLASS_$_SubDemo" S in
  let S := set_cache "OBJC_CLASS_$_SSDemo" "_objc_empty_cache" S in
  S.

Definition image_SSbDemo : image :=
  mk_image
    [("OBJC_METACLASS_$_SSDemo", OBJC_METACLASS_SSDemo);
     ("OBJC_CLASS_$_SSDemo", OBJC_CLASS_SSDemo)]
    [] [OBJC_CLASS_SETUP_SSDemo]
    ["OBJC_CLASS_$_SSDemo"] [].

(** ** Block/BlockTest/ShortDemo1-arm64.cpp *)

Definition ShortDemo1_IMPL : c_struct :=
  SubStruct NSObject_IMPL [("_firstName", C_pointer)].

Definition OBJC_IVAR_ShortDemo1__firstName : Z :=
  OFFSETOFIVAR ShortDemo1_IMPL "_firstName".

Definition _OBJC_INSTANCE_VARIABLES_ShortDemo1 : ent_list _ivar_t :=
  mk_list (sizeof_struct _ivar_t_struct) 1
    [mk_ivar OBJC_IVAR_ShortDemo1__firstName "_firstName" (quoted "@'NSString'") 3 8].

Definition _OBJC_METACLASS_RO_ShortDemo1 : _class_ro_t :=
  mk_ro 1 (sizeof_struct _class_t_struct) (sizeof_struct _class_t_struct) "ShortDemo1"
    None
    None
    None.

Definition _OBJC_CLASS_RO_ShortDemo1 : _class_ro_t :=
  mk_ro 0 (OFFSETOFIVAR ShortDemo1_IMPL "_firstName") (sizeof_struct ShortDemo1_IMPL) "ShortDemo1"
    None
    (Some _OBJC_INSTANCE_VARIABLES_ShortDemo1)
    None.

Definition OBJC_METACLASS_ShortDemo1 : _class_t := mk_class None None None _OBJC_METACLASS_RO_ShortDemo1.

Definition OBJC_CLASS_ShortDemo1 : _class_t := mk_class None None None _OBJC_CLASS_RO_ShortDemo1.

Definition OBJC_CLASS_SETUP_ShortDemo1 (S : metadata) : metadata :=
  let S := set_isa "OBJC_METACLASS_$_ShortDemo1" "OBJC_METACLASS_$_NSObject" S in
  let S := set_superclass "OBJC_METACLASS_$_ShortDemo1" "OBJC_METACLASS_$_NSObject" S in
  let S := set_cache "OBJC_METACLASS_$_ShortDemo1" "_objc_empty_cache" S in
  let S := set_isa "OBJC_CLASS_$_ShortDemo1" "OBJC_METACLASS_$_ShortDemo1" S in
  let S := set_superclass "OBJC_CLASS_$_ShortDemo1" "OBJC_CLASS_$_NSObject" S in
  let S := set_cache "OBJC_CLASS_$_ShortDemo1" "_objc_empty_cache" S in
  S.

Definition image_ShortDemo1 : image :=
  mk_image
    [("OBJC_METACLASS_$_ShortDemo1", OBJC_METACLASS_ShortDemo1);
     ("OBJC_CLASS_$_ShortDemo1", OBJC_CLASS_ShortDemo1)]
    [] [OBJC_CLASS_SETUP_ShortDemo1]
    ["OBJC_CLASS_$_ShortDemo1"] [].

(** ** Block/BlockTest/PropertyDemo-arm64.cpp *)

Definition PropertyDemo_IMPL : c_struct :=
  SubStruct NSObject_IMPL [("_firstName", C_pointer)].

Definition OBJC_IVAR_PropertyDemo__firstName : Z :=
  OFFSETOFIVAR PropertyDemo_IMPL "_firstName".

Definition _OBJC_INSTANCE_VARIABLES_PropertyDemo : ent_list _ivar_t :=
  mk_list (sizeof_struct _ivar_t_struct) 1
    [mk_ivar OBJC_IVAR_PropertyDemo__firstName "_firstName" (quoted "@'NSString'") 3 8].

Definition _OBJC_INSTANCE_METHODS_PropertyDemo : ent_list _objc_method :=
  mk_list (sizeof_struct _objc_method_struct) 2
    [mk_method "firstName" "@16@0:8" "_I_PropertyDemo_firstName";
     mk_method "setFirstName:" "v24@0:8@16" "_I_PropertyDemo_setFirstName_"].

Definition _OBJC_METACLASS_RO_PropertyDemo : _class_ro_t :=
  mk_ro 1 (sizeof_struct _class_t_struct) (sizeof_struct _class_t_struct) "PropertyDemo"
    None
    None
    None.

Definition _OBJC_CLASS_RO_PropertyDemo : _class_ro_t :=
  mk_ro 0 (OFFSETOFIVAR PropertyDemo_IMPL "_firstName") (sizeof_struct PropertyDemo_IMPL) "PropertyDemo"
    (Some _OBJC_INSTANCE_METHODS_PropertyDemo)
    (Some _OBJC_INSTANCE_VARIABLES_PropertyDemo)
    None.

Definition OBJC_METACLASS_PropertyDemo : _class_t := mk_class None None None _OBJC_METACLASS_RO_PropertyDemo.

Definition OBJC_CLASS_PropertyDemo : _class_t := mk_class None None None _OBJC_CLASS_RO_PropertyDemo.

Definition OBJC_CLASS_SETUP_PropertyDemo (S : metadata) : metadata :=
  let S := set_isa "OBJC_METACLASS_$_PropertyDemo" "OBJC_METACLASS_$_NSObject" S in
  let S := set_superclass "OBJC_METACLASS_$_PropertyDemo" "OBJC_METACLASS_$_NSObject" S in
  let S := set_cache "OBJC_METACLASS_$_PropertyDemo" "_objc_empty_cache" S in
  let S := set_isa "OBJC_CLASS_$_PropertyDemo" "OBJC_METACLASS_$_PropertyDemo" S in
  let S := set_superclass "OBJC_CLASS_$_PropertyDemo" "OBJC_CLASS_$_NSObject" S in
  let S := set_cache "OBJC_CLASS_$_PropertyDemo" "_objc_empty_cache" S in
  S.

Definition image_PropertyDemo : image :=
  mk_image
    [("OBJC_METACLASS_$_PropertyDemo", OBJC_METACLASS_PropertyDemo);
     ("OBJC_CLASS_$_PropertyDemo", OBJC_CLASS_PropertyDemo)]
    [] [OBJC_CLASS_SETUP_PropertyDemo]
    ["OBJC_CLASS_$_PropertyDemo"] [].

(** ** Block/BlockTest/TestExpanded/TestExpand-arm64.cpp *)

Definition TestExpand_IMPL : c_struct :=
  SubStruct NSObject_IMPL [("_mustProperty", C_pointer)].

Definition OBJC_IVAR_TestExpand__mustProperty : Z :=
  OFFSETOFIVAR TestExpand_IMPL "_mustProperty".

Definition _OBJC_INSTANCE_VARIABLES_TestExpand : ent_list _ivar_t :=
  mk_list (sizeof_struct _ivar_t_struct) 1
    [mk_ivar OBJC_IVAR_TestExpand__mustProperty "_mustProperty" (quoted "@'NSString'") 3 8].

Definition _OBJC_INSTANCE_METHODS_TestExpand : ent_list _objc_method :=
  mk_list (sizeof_struct _objc_method_struct) 3
    [mk_method "setMustProperty:" "v24@0:8@16" "_I_TestExpand_setMustProperty_";
     mk_method "mustProperty" "@16@0:8" "_I_TestExpand_mustProperty";
     mk_method "testExpanded" "v16@0:8" "_I_TestExpand_testExpanded"].

Definition _OBJC_PROP_LIST_TestExpand : ent_list _prop_t :=
  mk_list (sizeof_struct _prop_t_struct) 1
    [mk_prop "mustProperty" (quoted "T@'NSString',C,N,V_mustProperty")].

Definition _OBJC_METACLASS_RO_TestExpand : _class_ro_t :=
  mk_ro 1 (sizeof_struct _class_t_struct) (sizeof_struct _class_t_struct) "TestExpand"
    None
    None
    None.

Definition _OBJC_CLASS_RO_TestExpand : _class_ro_t :=
  mk_ro 0 (OFFSETOFIVAR TestExpand_IMPL "_mustProperty") (sizeof_struct TestExpand_IMPL) "TestExpand"
    (Some _OBJC_INSTANCE_METHODS_TestExpand)
    (Some _OBJC_INSTANCE_VARIABLES_TestExpand)
    (Some _OBJC_PROP_LIST_TestExpand).

Definition OBJC_METACLASS_TestExpand : _class_t := mk_class None None None _OBJC_METACLASS_RO_TestExpand.

Definition OBJC_CLASS_TestExpand : _class_t := mk_class None None None _OBJC_CLASS_RO_TestExpand.

Definition OBJC_CLASS_SETUP_TestExpand (S : metadata) : metadata :=
  let S := set_isa "OBJC_METACLASS_$_TestExpand" "OBJC_METACLASS_$_NSObject" S in
  let S := set_superclass "OBJC_METACLASS_$_TestExpand" "OBJC_METACLASS_$_NSObject" S in
  let S := set_cache "OBJC_METACLASS_$_TestExpand" "_objc_empty_cache" S in
  let S := set_isa "OBJC_CLASS_$_TestExpand" "OBJC_METACLASS_$_TestExpand" S in
  let S := set_superclass "OBJC_CLASS_$_TestExpand" "OBJC_CLASS_$_NSObject" S in
  let S := set_cache "OBJC_CLASS_$_TestExpand" "_objc_empty_cache" S in
  S.

Definition image_TestExpand : image :=
  mk_image
    [("OBJC_METACLASS_$_TestExpand", OBJC_METACLASS_TestExpand);
     ("OBJC_CLASS_$_TestExpand", OBJC_CLASS_TestExpand)]
    [] [OBJC_CLASS_SETUP_TestExpand]
    ["OBJC_CLASS_$_TestExpand"] [].

(** ** Block/BlockTest/TestExpanded/TestExpand+Additions-arm64.cpp *)

Definition _OBJC_CATEGORY_INSTANCE_METHODS_TestExpand_Additions : ent_list _objc_method :=
  mk_list (sizeof_struct _objc_method_struct) 3
    [mk_method "setMustProperty:" "v24@0:8@16" "_I_TestExpand_Additions_setMustProperty_";
     mk_method "mustProperty" "@16@0:8" "_I_TestExpand_Additions_mustProperty";
     mk_method "testExpanded" "v16@0:8" "_I_TestExpand_Additions_testExpanded"].

Definition _OBJC_PROP_LIST_TestExpand_Additions : ent_list _prop_t :=
  mk_list (sizeof_struct _prop_t_struct) 1
    [mk_prop "mustProperty" (quoted "T@'NSString',C,N")].

Definition _OBJC_CATEGORY_TestExpand_Additions : _category_t :=
  mk_category "TestExpand" None (Some _OBJC_CATEGORY_INSTANCE_METHODS_TestExpand_Additions) None (Some _OBJC_PROP_LIST_TestExpand_Additions).

Definition OBJC_CATEGORY_SETUP_TestExpand_Additions (S : metadata) : metadata :=
  let S := set_cls "_OBJC_$_CATEGORY_TestExpand_$_Additions" "OBJC_CLASS_$_TestExpand" S in
  S.

Definition image_TestExpand_Additions : image :=
  mk_image
    []
    [("_OBJC_$_CATEGORY_TestExpand_$_Additions", _OBJC_CATEGORY_TestExpand_Additions)] [OBJC_CATEGORY_SETUP_TestExpand_Additions]
    [] ["_OBJC_$_CATEGORY_TestExpand_$_Additions"].

(** ** Block/BlockTest/NSObject+Addition-arm64.cpp *)

Definition _OBJC_CATEGORY_INSTANCE_METHODS_NSObject_Addition : ent_list _objc_method :=
  mk_list (sizeof_struct _objc_method_struct) 2
    [mk_method "setMustBeCount:" "v24@0:8@16" "_I_NSObject_Addition_setMustBeCount_";
     mk_method "mustBeCount" "@16@0:8" "_I_NSObject_Addition_mustBeCount"].

Definition _OBJC_PROP_LIST_NSObject_Addition : ent_list _prop_t :=
  mk_list (sizeof_struct _prop_t_struct) 1
    [mk_prop "mustBeCount" (quoted "T@'NSString',C,N")].

Definition _OBJC_CATEGORY_NSObject_Addition : _category_t :=
  mk_category "NSObject" None (Some _OBJC_CATEGORY_INSTANCE_METHODS_NSObject_Addition) None (Some _OBJC_PROP_LIST_NSObject_Addition).

Definition OBJC_CATEGORY_SETUP_NSObject_Addition (S : metadata) : metadata :=
  let S := set_cls "_OBJC_$_CATEGORY_NSObject_$_Addition" "OBJC_CLASS_$_NSObject" S in
  S.

Definition image_NSObject_Addition : image :=
  mk_image
    []
    [("_OBJC_$_CATEGORY_NSObject_$_Addition", _OBJC_CATEGORY_NSObject_Addition)] [OBJC_CATEGORY_SETUP_NSObject_Addition]
    [] ["_OBJC_$_CATEGORY_NSObject_$_Addition"].

(** ** Property/SKTaggedPoint/SKTaggedPointTest-arm64.cpp *)

Definition SKTraggedPointTest_IMPL : c_struct :=
  SubStruct NSObject_IMPL [("_intValue", C_long)].

Definition OBJC_IVAR_SKTraggedPointTest__intValue : Z :=
  OFFSETOFIVAR SKTraggedPointTest_IMPL "_intValue".

Definition _OBJC_INSTANCE_VARIABLES_SKTraggedPointTest : ent_list _ivar_t :=
  mk_list (sizeof_struct _ivar_t_struct) 1
    [mk_ivar OBJC_IVAR_SKTraggedPointTest__intValue "_intValue" "q" 3 8].

Definition _OBJC_INSTANCE_METHODS_SKTraggedPointTest : ent_list _objc_method :=
  mk_list (sizeof_struct _objc_method_struct) 4
    [mk_method "init" "@16@0:8" "_I_SKTraggedPointTest_init";
     mk_method "testIntValue" "v16@0:8" "_I_SKTraggedPointTest_testIntValue";
     mk_method "intValue" "q16@0:8" "_I_SKTraggedPointTest_intValue";
     mk_method "setIntValue:" "v24@0:8q16" "_I_SKTraggedPointTest_setIntValue_"].

Definition _OBJC_METACLASS_RO_SKTraggedPointTest : _class_ro_t :=
  mk_ro 1 (sizeof_struct _class_t_struct) (sizeof_struct _class_t_struct) "SKTraggedPointTest"
    None
    None
    None.

Definition _OBJC_CLASS_RO_SKTraggedPointTest : _class_ro_t :=
  mk_ro 0 (OFFSETOFIVAR SKTraggedPointTest_IMPL "_intValue") (sizeof_struct SKTraggedPointTest_IMPL) "SKTraggedPointTest"
    (Some _OBJC_INSTANCE_METHODS_SKTraggedPointTest)
    (Some _OBJC_INSTANCE_VARIABLES_SKTraggedPointTest)
    None.

Definition OBJC_METACLASS_SKTraggedPointTest : _class_t := mk_class None None None _OBJC_METACLASS_RO_SKTraggedPointTest.

Definition OBJC_CLASS_SKTraggedPointTest : _class_t := mk_class None None None _OBJC_CLASS_RO_SKTraggedPointTest.

Definition OBJC_CLASS_SETUP_SKTraggedPointTest (S : metadata) : metadata :=
  let S := set_isa "OBJC_METACLASS_$_SKTraggedPointTest" "OBJC_METACLASS_$_NSObject" S in
  let S := set_superclass "OBJC_METACLASS_$_SKTraggedPointTest" "OBJC_METACLASS_$_NSObject" S in
  let S := set_cache "OBJC_METACLASS_$_SKTraggedPointTest" "_objc_empty_cache" S in
  let S := set_isa "OBJC_CLASS_$_SKTraggedPointTest" "OBJC_METACLASS_$_SKTraggedPointTest" S in
  let S := set_superclass "OBJC_CLASS_$_SKTraggedPointTest" "OBJC_CLASS_$_NSObject" S in
  let S := set_cache "OBJC_CLASS_$_SKTraggedPointTest" "_objc_empty_cache" S in
  S.

Definition image_SKTaggedPointTest : image :=
  mk_image
    [("OBJC_METACLASS_$_SKTraggedPointTest", OBJC_METACLASS_SKTraggedPointTest);
     ("OBJC_CLASS_$_SKTraggedPointTest", OBJC_CLASS_SKTraggedPointTest)]
    [] [OBJC_CLASS_SETUP_SKTraggedPointTest]
    ["OBJC_CLASS_$_SKTraggedPointTest"] [].

(** ** Property/SKProperty/SKPropertyTestModel-arm64.cpp *)

Definition SKPropertyTestModel_IMPL : c_struct :=
  SubStruct NSObject_IMPL [("_title", C_pointer); ("_propertyTestString", C_pointer)].

Definition OBJC_IVAR_SKPropertyTestModel__title : Z :=
  OFFSETOFIVAR SKPropertyTestModel_IMPL "_title".

Definition OBJC_IVAR_SKPropertyTestModel__propertyTestString : Z :=
  OFFSETOFIVAR SKPropertyTestModel_IMPL "_propertyTestString".

Definition _OBJC_INSTANCE_VARIABLES_SKPropertyTestModel : ent_list _ivar_t :=
  mk_list (sizeof_struct _ivar_t_struct) 2
    [mk_ivar OBJC_IVAR_SKPropertyTestModel__title "_title" (quoted "@'NSString'") 3 8;
     mk_ivar OBJC_IVAR_SKPropertyTestModel__propertyTestString "_propertyTestString" (quoted "@'NSString'") 3 8].

Definition _OBJC_INSTANCE_METHODS_SKPropertyTestModel : ent_list _objc_method :=
  mk_list (sizeof_struct _objc_method_struct) 3
    [mk_method "title" "@16@0:8" "_I_SKPropertyTestModel_title";
     mk_method "setTitle:" "v24@0:8@16" "_I_SKPropertyTestModel_setTitle_";
     mk_method "propertyTestString" "@16@0:8" "_I_SKPropertyTestModel_propertyTestString"].

Definition _OBJC_METACLASS_RO_SKPropertyTestModel : _class_ro_t :=
  mk_ro 1 (sizeof_struct _class_t_struct) (sizeof_struct _class_t_struct) "SKPropertyTestModel"
    None
    None
    None.

Definition _OBJC_CLASS_RO_SKPropertyTestModel : _class_ro_t :=
  mk_ro 0 (OFFSETOFIVAR SKPropertyTestModel_IMPL "_title") (sizeof_struct SKPropertyTestModel_IMPL) "SKPropertyTestModel"
    (Some _OBJC_INSTANCE_METHODS_SKPropertyTestModel)
    (Some _OBJC_INSTANCE_VARIABLES_SKPropertyTestModel)
    None.

Definition OBJC_METACLASS_SKPropertyTestModel : _class_t := mk_class None None None _OBJC_METACLASS_RO_SKPropertyTestModel.

Definition OBJC_CLASS_SKPropertyTestModel : _class_t := mk_class None None None _OBJC_CLASS_RO_SKPropertyTestModel.

Definition OBJC_CLASS_SETUP_SKPropertyTestModel (S : metadata) : metadata :=
  let S := set_isa "OBJC_METACLASS_$_SKPropertyTestModel" "OBJC_METACLASS_$_NSObject" S in
  let S := set_superclass "OBJC_METACLASS_$_SKPropertyTestModel" "OBJC_METACLASS_$_NSObject" S in
  let S := set_cache "OBJC_METACLASS_$_SKPropertyTestModel" "_objc_empty_cache" S in
  let S := set_isa "OBJC_CLASS_$_SKPropertyTestModel" "OBJC_METACLASS_$_SKPropertyTestModel" S in
  let S := set_superclass "OBJC_CLASS_$_SKPropertyTestModel" "OBJC_CLASS_$_NSObject" S in
  let S := set_cache "OBJC_CLASS_$_SKPropertyTestModel" "_objc_empty_cache" S in
  S.

Definition image_SKPropertyTestModel : image :=
  mk_image
    [("OBJC_METACLASS_$_SKPropertyTestModel", OBJC_METACLASS_SKPropertyTestModel);
     ("OBJC_CLASS_$_SKPropertyTestModel", OBJC_CLASS_SKPropertyTestModel)]
    [] [OBJC_CLASS_SETUP_SKPropertyTestModel]
    ["OBJC_CLASS_$_SKPropertyTestModel"] [].

(** ** Property/SKProperty/SKProprtyModel-arm64.cpp *)

Definition SKProprtyModel_IMPL : c_struct :=
  SubStruct NSObject_IMPL [("_foo", C_pointer); ("instanceTimeStamps", C_pointer); ("animal", C_pointer); ("_mouse", C_pointer); ("_upAndDown", C_pointer); ("_stringValue", C_pointer)].

Definition OBJC_IVAR_SKProprtyModel__foo : Z :=
  OFFSETOFIVAR SKProprtyModel_IMPL "_foo".

Definition OBJC_IVAR_SKProprtyModel_instanceTimeStamps : Z :=
  OFFSETOFIVAR SKProprtyModel_IMPL "instanceTimeStamps".

Definition OBJC_IVAR_SKProprtyModel_animal : Z :=
  OFFSETOFIVAR SKProprtyModel_IMPL "animal".

Definition OBJC_IVAR_SKProprtyModel__mouse : Z :=
  OFFSETOFIVAR SKProprtyModel_IMPL "_mouse".

Definition OBJC_IVAR_SKProprtyModel__upAndDown : Z :=
  OFFSETOFIVAR SKProprtyModel_IMPL "_upAndDown".

Definition OBJC_IVAR_SKProprtyModel__stringValue : Z :=
  OFFSETOFIVAR SKProprtyModel_IMPL "_stringValue".

Definition _OBJC_INSTANCE_VARIABLES_SKProprtyModel : ent_list _ivar_t :=
  mk_list (sizeof_struct _ivar_t_struct) 6
    [mk_ivar OBJC_IVAR_SKProprtyModel__foo "_foo" (quoted "@'NSString'") 3 8;
     mk_ivar OBJC_IVAR_SKProprtyModel_instanceTimeStamps "instanceTimeStamps" (quoted "@'NSString'") 3 8;
     mk_ivar OBJC_IVAR_SKProprtyModel_animal "animal" (quoted "@'NSString'") 3 8;
     mk_ivar OBJC_IVAR_SKProprtyModel__mouse "_mouse" (quoted "@'NSString'") 3 8;
     mk_ivar OBJC_IVAR_SKProprtyModel__upAndDown "_upAndDown" (quoted "@'NSString'") 3 8;
     mk_ivar OBJC_IVAR_SKProprtyModel__stringValue "_stringValue" (quoted "@'NSString'") 3 8].

Definition _OBJC_INSTANCE_METHODS_SKProprtyModel : ent_list _objc_method :=
  mk_list (sizeof_struct _objc_method_struct) 14
    [mk_method "init" "@16@0:8" "_I_SKProprtyModel_init";
     mk_method "testIntValue" "v16@0:8" "_I_SKProprtyModel_testIntValue";
     mk_method "timeStamps" "@16@0:8" "_I_SKProprtyModel_timeStamps";
     mk_method "setTimeStamps:" "v24@0:8@16" "_I_SKProprtyModel_setTimeStamps_";
     mk_method "animal" "@16@0:8" "_I_SKProprtyModel_animal";
     mk_method "setAnimal:" "v24@0:8@16" "_I_SKProprtyModel_setAnimal_";
     mk_method "mouse" "@16@0:8" "_I_SKProprtyModel_mouse";
     mk_method "setMouse:" "v24@0:8@16" "_I_SKProprtyModel_setMouse_";
     mk_method "upAndDown" "@16@0:8" "_I_SKProprtyModel_upAndDown";
     mk_method "setUpAndDown:" "v24@0:8@16" "_I_SKProprtyModel_setUpAndDown_";
     mk_method "foo" "@16@0:8" "_I_SKProprtyModel_foo";
     mk_method "setFoo:" "v24@0:8@16" "_I_SKProprtyModel_setFoo_";
     mk_method "stringValue" "@16@0:8" "_I_SKProprtyModel_stringValue";
     mk_method "setStringValue:" "v24@0:8@16" "_I_SKProprtyModel_setStringValue_"].

Definition _OBJC_PROP_LIST_SKProprtyModel : ent_list _prop_t :=
  mk_list (sizeof_struct _prop_t_struct) 5
    [mk_prop "timeStamps" (quoted "T@'NSString',C,N,VinstanceTimeStamps");
     mk_prop "upAndDown" (quoted "T@'NSString',C,N,V_upAndDown");
     mk_prop "foo" (quoted "T@'NSString',C,N,V_foo");
     mk_prop "animal" (quoted "T@'NSString',C,N,Vanimal");
     mk_prop "mouse" (quoted "T@'NSString',C,N,V_mouse")].

Definition _OBJC_METACLASS_RO_SKProprtyModel : _class_ro_t :=
  mk_ro 1 (sizeof_struct _class_t_struct) (sizeof_struct _class_t_struct) "SKProprtyModel"
    None
    None
    None.

Definition _OBJC_CLASS_RO_SKProprtyModel : _class_ro_t :=
  mk_ro 0 (OFFSETOFIVAR SKProprtyModel_IMPL "_foo") (sizeof_struct SKProprtyModel_IMPL) "SKProprtyModel"
    (Some _OBJC_INSTANCE_METHODS_SKProprtyModel)
    (Some _OBJC_INSTANCE_VARIABLES_SKProprtyModel)
    (Some _OBJC_PROP_LIST_SKProprtyModel).

Definition OBJC_METACLASS_SKProprtyModel : _class_t := mk_class None None None _OBJC_METACLASS_RO_SKProprtyModel.

Definition OBJC_CLASS_SKProprtyModel : _class_t := mk_class None None None _OBJC_CLASS_RO_SKProprtyModel.

Definition OBJC_CLASS_SETUP_SKProprtyModel (S : metadata) : metadata :=
  let S := set_isa "OBJC_METACLASS_$_SKProprtyModel" "OBJC_METACLASS_$_NSObject" S in
  let S := set_superclass "OBJC_METACLASS_$_SKProprtyModel" "OBJC_METACLASS_$_NSObject" S in
  let S := set_cache "OBJC_METACLASS_$_SKProprtyModel" "_objc_empty_cache" S in
  let S := set_isa "OBJC_CLASS_$_SKProprtyModel" "OBJC_METACLASS_$_SKProprtyModel" S in
  let S := set_superclass "OBJC_CLASS_$_SKProprtyModel" "OBJC_CLASS_$_NSObject" S in
  let S := set_cache "OBJC_CLASS_$_SKProprtyModel" "_objc_empty_cache" S in
  S.

Definition image_SKProprtyModel : image :=
  mk_image
    [("OBJC_METACLASS_$_SKProprtyModel", OBJC_METACLASS_SKProprtyModel);
     ("OBJC_CLASS_$_SKProprtyModel", OBJC_CLASS_SKProprtyModel)]
    [] [OBJC_CLASS_SETUP_SKProprtyModel]
    ["OBJC_CLASS_$_SKProprtyModel"] [].

(** ** Property/SKSynthesize/SKSynthesizeModel-arm64.cpp *)

Definition SKProprtyModel_IMPL_in_SKSynthesizeModel : c_struct :=
  SubStruct NSObject_IMPL [].

Definition SKSynthesizeModel_IMPL : c_struct :=
  SubStruct SKProprtyModel_IMPL_in_SKSynthesizeModel [].

Definition _OBJC_METACLASS_RO_SKSynthesizeModel : _class_ro_t :=
  mk_ro 1 (sizeof_struct _class_t_struct) (sizeof_struct _class_t_struct) "SKSynthesizeModel"
    None
    None
    None.

Definition _OBJC_CLASS_RO_SKSynthesizeModel : _class_ro_t :=
  mk_ro 0 (sizeof_struct SKSynthesizeModel_IMPL) (sizeof_struct SKSynthesizeModel_IMPL) "SKSynthesizeModel"
    None
    None
    None.

Definition OBJC_METACLASS_SKSynthesizeModel : _class_t := mk_class None None None _OBJC_METACLASS_RO_SKSynthesizeModel.

Definition OBJC_CLASS_SKSynthesizeModel : _class_t := mk_class None None None _OBJC_CLASS_RO_SKSynthesizeModel.

Definition OBJC_CLASS_SETUP_SKSynthesizeModel (S : metadata) : metadata :=
  let S := set_isa "OBJC_METACLASS_$_SKSynthesizeModel" "OBJC_METACLASS_$_NSObject" S in
  let S := set_superclass "OBJC_METACLASS_$_SKSynthesizeModel" "OBJC_METACLASS_$_SKProprtyModel" S in
  let S := set_cache "OBJC_METACLASS_$_SKSynthesizeModel" "_objc_empty_cache" S in
  let S := set_isa "OBJC_CLASS_$_SKSynthesizeModel" "OBJC_METACLASS_$_SKSynthesizeModel" S in
  let S := set_superclass "OBJC_CLASS_$_SKSynthesizeModel" "OBJC_CLASS_$_SKProprtyModel" S in
  let S := set_cache "OBJC_CLASS_$_SKSynthesizeModel" "_objc_empty_cache" S in
  S.

Definition image_SKSynthesizeModel : image :=
  mk_image
    [("OBJC_METACLASS_$_SKSynthesizeModel", OBJC_METACLASS_SKSynthesizeModel);
     ("OBJC_CLASS_$_SKSynthesizeModel", OBJC_CLASS_SKSynthesizeModel)]
    [] [OBJC_CLASS_SETUP_SKSynthesizeModel]
    ["OBJC_CLASS_$_SKSynthesizeModel"] [].

(** ** Property/SKProperty/SKPropertyVCarm64.cpp *)

Definition UIResponder_IMPL : c_struct :=
  SubStruct NSObject_IMPL [].

Definition UIViewController_IMPL : c_struct :=
  SubStruct UIResponder_IMPL [].

Definition SKPropertyVC_IMPL : c_struct :=
  SubStruct UIViewController_IMPL [].

Definition _OBJC_INSTANCE_METHODS_SKPropertyVC : ent_list _objc_method :=
  mk_list (sizeof_struct _objc_method_struct) 4
    [mk_method "viewDidLoad" "v16@0:8" "_I_SKPropertyVC_viewDidLoad";
     mk_method "setupViews" "v16@0:8" "_I_SKPropertyVC_setupViews";
     mk_method "normalMethod" "v16@0:8" "_I_SKPropertyVC_normalMethod";
     mk_method "nssetMethod" "v16@0:8" "_I_SKPropertyVC_nssetMethod"].

Definition _OBJC_METACLASS_RO_SKPropertyVC : _class_ro_t :=
  mk_ro 1 (sizeof_struct _class_t_struct) (sizeof_struct _class_t_struct) "SKPropertyVC"
    None
    None
    None.

Definition _OBJC_CLASS_RO_SKPropertyVC : _class_ro_t :=
  mk_ro 0 (sizeof_struct SKPropertyVC_IMPL) (sizeof_struct SKPropertyVC_IMPL) "SKPropertyVC"
    (Some _OBJC_INSTANCE_METHODS_SKPropertyVC)
    None
    None.

Definition OBJC_METACLASS_SKPropertyVC : _class_t := mk_class None None None _OBJC_METACLASS_RO_SKPropertyVC.

Definition OBJC_CLASS_SKPropertyVC : _class_t := mk_class None None None _OBJC_CLASS_RO_SKPropertyVC.

Definition OBJC_CLASS_SETUP_SKPropertyVC (S : metadata) : metadata :=
  let S := set_isa "OBJC_METACLASS_$_SKPropertyVC" "OBJC_METACLASS_$_NSObject" S in
  let S := set_superclass "OBJC_METACLASS_$_SKPropertyVC" "OBJC_METACLASS_$_UIViewController" S in
  let S := set_cache "OBJC_METACLASS_$_SKPropertyVC" "_objc_empty_cache" S in
  let S := set_isa "OBJC_CLASS_$_SKPropertyVC" "OBJC_METACLASS_$_SKPropertyVC" S in
  let S := set_superclass "OBJC_CLASS_$_SKPropertyVC" "OBJC_CLASS_$_UIViewController" S in
  let S := set_cache "OBJC_CLASS_$_SKPropertyVC" "_objc_empty_cache" S in
  S.

Definition image_SKPropertyVC : image :=
  mk_image
    [("OBJC_METACLASS_$_SKPropertyVC", OBJC_METACLASS_SKPropertyVC);
     ("OBJC_CLASS_$_SKPropertyVC", OBJC_CLASS_SKPropertyVC)]
    [] [OBJC_CLASS_SETUP_SKPropertyVC]
    ["OBJC_CLASS_$_SKPropertyVC"] [].

(** ** Property/SKAutorelease/SKAutoReleaseTestObj-arm64.cpp *)

Definition SKAutoReleaseTestObj_IMPL : c_struct :=
  SubStruct NSObject_IMPL [].

Definition _OBJC_INSTANCE_METHODS_SKAutoReleaseTestObj : ent_list _objc_method :=
  mk_list (sizeof_struct _objc_method_struct) 1
    [mk_method "init" "@16@0:8" "_I_SKAutoReleaseTestObj_init"].

Definition _OBJC_METACLASS_RO_SKAutoReleaseTestObj : _class_ro_t :=
  mk_ro 1 (sizeof_struct _class_t_struct) (sizeof_struct _class_t_struct) "SKAutoReleaseTestObj"
    None
    None
    None.

Definition _OBJC_CLASS_RO_SKAutoReleaseTestObj : _class_ro_t :=
  mk_ro 0 (sizeof_struct SKAutoReleaseTestObj_IMPL) (sizeof_struct SKAutoReleaseTestObj_IMPL) "SKAutoReleaseTestObj"
    (Some _OBJC_INSTANCE_METHODS_SKAutoReleaseTestObj)
    None
    None.

Definition OBJC_METACLASS_SKAutoReleaseTestObj : _class_t := mk_class None None None _OBJC_METACLASS_RO_SKAutoReleaseTestObj.

Definition OBJC_CLASS_SKAutoReleaseTestObj : _class_t := mk_class None None None _OBJC_CLASS_RO_SKAutoReleaseTestObj.

Definition OBJC_CLASS_SETUP_SKAutoReleaseTestObj (S : metadata) : metadata :=
  let S := set_isa "OBJC_METACLASS_$_SKAutoReleaseTestObj" "OBJC_METACLASS_$_NSObject" S in
  let S := set_superclass "OBJC_METACLASS_$_SKAutoReleaseTestObj" "OBJC_METACLASS_$_NSObject" S in
  let S := set_cache "OBJC_METACLASS_$_SKAutoReleaseTestObj" "_objc_empty_cache" S in
  let S := set_isa "OBJC_CLASS_$_SKAutoReleaseTestObj" "OBJC_METACLASS_$_SKAutoReleaseTestObj" S in
  let S := set_superclass "OBJC_CLASS_$_SKAutoReleaseTestObj" "OBJC_CLASS_$_NSObject" S in
  let S := set_cache "OBJC_CLASS_$_SKAutoReleaseTestObj" "_objc_empty_cache" S in
  S.

Definition image_SKAutoReleaseTestObj : image :=
  mk_image
    [("OBJC_METACLASS_$_SKAutoReleaseTestObj", OBJC_METACLASS_SKAutoReleaseTestObj);
     ("OBJC_CLASS_$_SKAutoReleaseTestObj", OBJC_CLASS_SKAutoReleaseTestObj)]
    [] [OBJC_CLASS_SETUP_SKAutoReleaseTestObj]
    ["OBJC_CLASS_$_SKAutoReleaseTestObj"] [].

(** ** Runtime/Class/SKRuntimePerson-arm64.cpp *)

Definition SKRuntimePerson_IMPL : c_struct :=
  SubStruct NSObject_IMPL [].

Definition _OBJC_INSTANCE_METHODS_SKRuntimePerson : ent_list _objc_method :=
  mk_list (sizeof_struct _objc_method_struct) 5
    [mk_method "takeAction" "v16@0:8" "_I_SKRuntimePerson_takeAction";
     mk_method "personMethod" "@16@0:8" "_I_SKRuntimePerson_personMethod";
     mk_method "motherMethod" "@16@0:8" "_I_SKRuntimePerson_motherMethod";
     mk_method "testMsgSendAction" "v16@0:8" "_I_SKRuntimePerson_testMsgSendAction";
     mk_method "foo" "v16@0:8" "_I_SKRuntimePerson_foo"].

Definition _OBJC_METACLASS_RO_SKRuntimePerson : _class_ro_t :=
  mk_ro 1 (sizeof_struct _class_t_struct) (sizeof_struct _class_t_struct) "SKRuntimePerson"
    None
    None
    None.

Definition _OBJC_CLASS_RO_SKRuntimePerson : _class_ro_t :=
  mk_ro 0 (sizeof_struct SKRuntimePerson_IMPL) (sizeof_struct SKRuntimePerson_IMPL) "SKRuntimePerson"
    (Some _OBJC_INSTANCE_METHODS_SKRuntimePerson)
    None
    None.

Definition OBJC_METACLASS_SKRuntimePerson : _class_t := mk_class None None None _OBJC_METACLASS_RO_SKRuntimePerson.

Definition OBJC_CLASS_SKRuntimePerson : _class_t := mk_class None None None _OBJC_CLASS_RO_SKRuntimePerson.

Definition OBJC_CLASS_SETUP_SKRuntimePerson (S : metadata) : metadata :=
  let S := set_isa "OBJC_METACLASS_$_SKRuntimePerson" "OBJC_METACLASS_$_NSObject" S in
  let S := set_superclass "OBJC_METACLASS_$_SKRuntimePerson" "OBJC_METACLASS_$_NSObject" S in
  let S := set_cache "OBJC_METACLASS_$_SKRuntimePerson" "_objc_empty_cache" S in
  let S := set_isa "OBJC_CLASS_$_SKRuntimePerson" "OBJC_METACLASS_$_SKRuntimePerson" S in
  let S := set_superclass "OBJC_CLASS_$_SKRuntimePerson" "OBJC_CLASS_$_NSObject" S in
  let S := set_cache "OBJC_CLASS_$_SKRuntimePerson" "_objc_empty_cache" S in
  S.

Definition image_SKRuntimePerson : image :=
  mk_image
    [("OBJC_METACLASS_$_SKRuntimePerson", OBJC_METACLASS_SKRuntimePerson);
     ("OBJC_CLASS_$_SKRuntimePerson", OBJC_CLASS_SKRuntimePerson)]
    [] [OBJC_CLASS_SETUP_SKRuntimePerson]
    ["OBJC_CLASS_$_SKRuntimePerson"] [].

(** ** Runtime/Class/SKMessageSendAction-arm64.cpp *)

Definition SKMessageSendAction_IMPL : c_struct :=
  SubStruct NSObject_IMPL [].

Definition _OBJC_INSTANCE_METHODS_SKMessageSendAction : ent_list _objc_method :=
  mk_list (sizeof_struct _objc_method_struct) 4
    [mk_method "takeActions" "v16@0:8" "_I_SKMessageSendAction_takeActions";
     mk_method "forwardingTargetForSelector:" "@24@0:8:16" "_I_SKMessageSendAction_forwardingTargetForSelector_";
     mk_method "methodSignatureForSelector:" "@24@0:8:16" "_I_SKMessageSendAction_methodSignatureForSelector_";
     mk_method "forwardInvocation:" "v24@0:8@16" "_I_SKMessageSendAction_forwardInvocation_"].

Definition _OBJC_CLASS_METHODS_SKMessageSendAction : ent_list _objc_method :=
  mk_list (sizeof_struct _objc_method_struct) 1
    [mk_method "resolveInstanceMethod:" "B24@0:8:16" "_C_SKMessageSendAction_resolveInstanceMethod_"].

Definition _OBJC_METACLASS_RO_SKMessageSendAction : _class_ro_t :=
  mk_ro 1 (sizeof_struct _class_t_struct) (sizeof_struct _class_t_struct) "SKMessageSendAction"
    (Some _OBJC_CLASS_METHODS_SKMessageSendAction)
    None
    None.

Definition _OBJC_CLASS_RO_SKMessageSendAction : _class_ro_t :=
  mk_ro 0 (sizeof_struct SKMessageSendAction_IMPL) (sizeof_struct SKMessageSendAction_IMPL) "SKMessageSendAction"
    (Some _OBJC_INSTANCE_METHODS_SKMessageSendAction)
    None
    None.

Definition OBJC_METACLASS_SKMessageSendAction : _class_t := mk_class None None None _OBJC_METACLASS_RO_SKMessageSendAction.

Definition OBJC_CLASS_SKMessageSendAction : _class_t := mk_class None None None _OBJC_CLASS_RO_SKMessageSendAction.

Definition OBJC_CLASS_SETUP_SKMessageSendAction (S : metadata) : metadata :=
  let S := set_isa "OBJC_METACLASS_$_SKMessageSendAction" "OBJC_METACLASS_$_NSObject" S in
  let S := set_superclass "OBJC_METACLASS_$_SKMessageSendAction" "OBJC_METACLASS_$_NSObject" S in
  let S := set_cache "OBJC_METACLASS_$_SKMessageSendAction" "_objc_empty_cache" S in
  let S := set_isa "OBJC_CLASS_$_SKMessageSendAction" "OBJC_METACLASS_$_SKMessageSendAction" S in
  let S := set_superclass "OBJC_CLASS_$_SKMessageSendAction" "OBJC_CLASS_$_NSObject" S in
  let S := set_cache "OBJC_CLASS_$_SKMessageSendAction" "_objc_empty_cache" S in
  S.

Definition image_SKMessageSendAction : image :=
  mk_image
    [("OBJC_METACLASS_$_SKMessageSendAction", OBJC_METACLASS_SKMessageSendAction);
     ("OBJC_CLASS_$_SKMessageSendAction", OBJC_CLASS_SKMessageSendAction)]
    [] [OBJC_CLASS_SETUP_SKMessageSendAction]
    ["OBJC_CLASS_$_SKMessageSendAction"] [].

(** ** Runtime/Class/NSObject+SKRuntimeAssociatedObject-arm64.cpp *)

Definition _OBJC_CATEGORY_INSTANCE_METHODS_NSObject_SKRuntimeAssociatedObject : ent_list _objc_method :=
  mk_list (sizeof_struct _objc_method_struct) 4
    [mk_method "setTimeValue:" "v24@0:8@16" "_I_NSObject_SKRuntimeAssociatedObject_setTimeValue_";
     mk_method "timeValue" "@16@0:8" "_I_NSObject_SKRuntimeAssociatedObject_timeValue";
     mk_method "setWeakVC:" "v24@0:8@16" "_I_NSObject_SKRuntimeAssociatedObject_setWeakVC_";
     mk_method "weakVC" "@16@0:8" "_I_NSObject_SKRuntimeAssociatedObject_weakVC"].

Definition _OBJC_PROP_LIST_NSObject_SKRuntimeAssociatedObject : ent_list _prop_t :=
  mk_list (sizeof_struct _prop_t_struct) 2
    [mk_prop "timeValue" (quoted "T@'NSString',C,N");
     mk_prop "weakVC" (quoted "T@'UIViewController',W,N")].

Definition _OBJC_CATEGORY_NSObject_SKRuntimeAssociatedObject : _category_t :=
  mk_category "NSObject" None (Some _OBJC_CATEGORY_INSTANCE_METHODS_NSObject_SKRuntimeAssociatedObject) None (Some _OBJC_PROP_LIST_NSObject_SKRuntimeAssociatedObject).

Definition OBJC_CATEGORY_SETUP_NSObject_SKRuntimeAssociatedObject (S : metadata) : metadata :=
  let S := set_cls "_OBJC_$_CATEGORY_NSObject_$_SKRuntimeAssociatedObject" "OBJC_CLASS_$_NSObject" S in
  S.

Definition image_NSObject_SKRuntimeAssociatedObject : image :=
  mk_image
    []
    [("_OBJC_$_CATEGORY_NSObject_$_SKRuntimeAssociatedObject", _OBJC_CATEGORY_NSObject_SKRuntimeAssociatedObject)] [OBJC_CATEGORY_SETUP_NSObject_SKRuntimeAssociatedObject]
    [] ["_OBJC_$_CATEGORY_NSObject_$_SKRuntimeAssociatedObject"].

(** ** Block/SKBlockLocationObj-arm64.cpp *)

Definition SKBlockLocationObj_IMPL : c_struct :=
  SubStruct NSObject_IMPL [].

Definition _OBJC_INSTANCE_METHODS_SKBlockLocationObj : ent_list _objc_method :=
  mk_list (sizeof_struct _objc_method_struct) 2
    [mk_method "init" "@16@0:8" "_I_SKBlockLocationObj_init";
     mk_method "blockLocation" "v16@0:8" "_I_SKBlockLocationObj_blockLocation"].

Definition _OBJC_CLASS_METHODS_SKBlockLocationObj : ent_list _objc_method :=
  mk_list (sizeof_struct _objc_method_struct) 1
    [mk_method "load" "v16@0:8" "_C_SKBlockLocationObj_load"].

Definition _OBJC_METACLASS_RO_SKBlockLocationObj : _class_ro_t :=
  mk_ro 1 (sizeof_struct _class_t_struct) (sizeof_struct _class_t_struct) "SKBlockLocationObj"
    (Some _OBJC_CLASS_METHODS_SKBlockLocationObj)
    None
    None.

Definition _OBJC_CLASS_RO_SKBlockLocationObj : _class_ro_t :=
  mk_ro 0 (sizeof_struct SKBlockLocationObj_IMPL) (sizeof_struct SKBlockLocationObj_IMPL) "SKBlockLocationObj"
    (Some _OBJC_INSTANCE_METHODS_SKBlockLocationObj)
    None
    None.

Definition OBJC_METACLASS_SKBlockLocationObj : _class_t := mk_class None None None _OBJC_METACLASS_RO_SKBlockLocationObj.

Definition OBJC_CLASS_SKBlockLocationObj : _class_t := mk_class None None None _OBJC_CLASS_RO_SKBlockLocationObj.

Definition OBJC_CLASS_SETUP_SKBlockLocationObj (S : metadata) : metadata :=
  let S := set_isa "OBJC_METACLASS_$_SKBlockLocationObj" "OBJC_METACLASS_$_NSObject" S in
  let S := set_superclass "OBJC_METACLASS_$_SKBlockLocationObj" "OBJC_METACLASS_$_NSObject" S in
  let S := set_cache "OBJC_METACLASS_$_SKBlockLocationObj" "_objc_empty_cache" S in
  let S := set_isa "OBJC_CLASS_$_SKBlockLocationObj" "OBJC_METACLASS_$_SKBlockLocationObj" S in
  let S := set_superclass "OBJC_CLASS_$_SKBlockLocationObj" "OBJC_CLASS_$_NSObject" S in
  let S := set_cache "OBJC_CLASS_$_SKBlockLocationObj" "_objc_empty_cache" S in
  S.

Definition image_SKBlockLocationObj : image :=
  mk_image
    [("OBJC_METACLASS_$_SKBlockLocationObj", OBJC_METACLASS_SKBlockLocationObj);
     ("OBJC_CLASS_$_SKBlockLocationObj", OBJC_CLASS_SKBlockLocationObj)]
    [] [OBJC_CLASS_SETUP_SKBlockLocationObj]
    ["OBJC_CLASS_$_SKBlockLocationObj"] [].

(** ** Block/SKBlockVC-arm64.cpp *)

Definition SKBlockVC_IMPL : c_struct :=
  SubStruct UIViewController_IMPL [("_is_canFly", C_bool); ("_tempStr", C_pointer); ("_dataArry", C_pointer); ("_model", C_pointer); ("_blockFive", C_pointer); ("_blockCycle", C_pointer); ("_ageTest", C_long); ("_sumOf", C_pointer); ("_block_Cycle", C_pointer); ("_notification", C_pointer)].

Definition OBJC_IVAR_SKBlockVC__is_canFly : Z :=
  OFFSETOFIVAR SKBlockVC_IMPL "_is_canFly".

Definition OBJC_IVAR_SKBlockVC__tempStr : Z :=
  OFFSETOFIVAR SKBlockVC_IMPL "_tempStr".

Definition OBJC_IVAR_SKBlockVC__dataArry : Z :=
  OFFSETOFIVAR SKBlockVC_IMPL "_dataArry".

Definition OBJC_IVAR_SKBlockVC__model : Z :=
  OFFSETOFIVAR SKBlockVC_IMPL "_model".

Definition OBJC_IVAR_SKBlockVC__blockFive : Z :=
  OFFSETOFIVAR SKBlockVC_IMPL "_blockFive".

Definition OBJC_IVAR_SKBlockVC__blockCycle : Z :=
  OFFSETOFIVAR SKBlockVC_IMPL "_blockCycle".

Definition OBJC_IVAR_SKBlockVC__ageTest : Z :=
  OFFSETOFIVAR SKBlockVC_IMPL "_ageTest".

Definition OBJC_IVAR_SKBlockVC__sumOf : Z :=
  OFFSETOFIVAR SKBlockVC_IMPL "_sumOf".

Definition OBJC_IVAR_SKBlockVC__block_Cycle : Z :=
  OFFSETOFIVAR SKBlockVC_IMPL "_block_Cycle".

Definition OBJC_IVAR_SKBlockVC__notification : Z :=
  OFFSETOFIVAR SKBlockVC_IMPL "_notification".

Definition _OBJC_INSTANCE_VARIABLES_SKBlockVC : ent_list _ivar_t :=
  mk_list (sizeof_struct _ivar_t_struct) 10
    [mk_ivar OBJC_IVAR_SKBlockVC__is_canFly "_is_canFly" "B" 0 1;
     mk_ivar OBJC_IVAR_SKBlockVC__tempStr "_tempStr" (quoted "@'NSString'") 3 8;
     mk_ivar OBJC_IVAR_SKBlockVC__dataArry "_dataArry" (quoted "@'NSMutableArray'") 3 8;
     mk_ivar OBJC_IVAR_SKBlockVC__model "_model" (quoted "@'TestModel'") 3 8;
     mk_ivar OBJC_IVAR_SKBlockVC__blockFive "_blockFive" "@?" 3 8;
     mk_ivar OBJC_IVAR_SKBlockVC__blockCycle "_blockCycle" "@?" 3 8;
     mk_ivar OBJC_IVAR_SKBlockVC__ageTest "_ageTest" "q" 3 8;
     mk_ivar OBJC_IVAR_SKBlockVC__sumOf "_sumOf" "@?" 3 8;
     mk_ivar OBJC_IVAR_SKBlockVC__block_Cycle "_block_Cycle" "@?" 3 8;
     mk_ivar OBJC_IVAR_SKBlockVC__notification "_notification" (quoted "@'NSNotification'") 3 8].

Definition _OBJC_INSTANCE_METHODS_SKBlockVC : ent_list _objc_method :=
  mk_list (sizeof_struct _objc_method_struct) 48
    [mk_method "viewDidLoad" "v16@0:8" "_I_SKBlockVC_viewDidLoad";
     mk_method "myBlockOne" "v16@0:8" "_I_SKBlockVC_myBlockOne";
     mk_method "blockAutoConn" "v16@0:8" "_I_SKBlockVC_blockAutoConn";
     mk_method "blockBlock" "v16@0:8" "_I_SKBlockVC_blockBlock";
     mk_method "blockCopyAction" "v16@0:8" "_I_SKBlockVC_blockCopyAction";
     mk_method "printCopyRetainCount" "v16@0:8" "_I_SKBlockVC_printCopyRetainCount";
     mk_method "blockForward" "v16@0:8" "_I_SKBlockVC_blockForward";
     mk_method "retainCycleIML" "v16@0:8" "_I_SKBlockVC_retainCycleIML";
     mk_method "blockExample" "v16@0:8" "_I_SKBlockVC_blockExample";
     mk_method "testBlockHaha" "v16@0:8" "_I_SKBlockVC_testBlockHaha";
     mk_method "testTimeConsume:" "d24@0:8@?16" "_I_SKBlockVC_testTimeConsume_";
     mk_method "testTimeConsumeOne:" "d24@0:8@?16" "_I_SKBlockVC_testTimeConsumeOne_";
     mk_method "blockCallBack" "v16@0:8" "_I_SKBlockVC_blockCallBack";
     mk_method "blockTestAutoInLine" "v16@0:8" "_I_SKBlockVC_blockTestAutoInLine";
     mk_method "testTimeCaluate" "v16@0:8" "_I_SKBlockVC_testTimeCaluate";
     mk_method "timeOfMach" "v16@0:8" "_I_SKBlockVC_timeOfMach";
     mk_method "testExpandedProperty" "v16@0:8" "_I_SKBlockVC_testExpandedProperty";
     mk_method "tempArrayTemp" "v16@0:8" "_I_SKBlockVC_tempArrayTemp";
     mk_method "testArray:" "v24@0:8@16" "_I_SKBlockVC_testArray_";
     mk_method "OSSpinLock" "v16@0:8" "_I_SKBlockVC_OSSpinLock";
     mk_method "testStr" "v16@0:8" "_I_SKBlockVC_testStr";
     mk_method "linkTest" "v16@0:8" "_I_SKBlockVC_linkTest";
     mk_method "testLength" "v16@0:8" "_I_SKBlockVC_testLength";
     mk_method "lengthOfLongestSubstring:" "q24@0:8@16" "_I_SKBlockVC_lengthOfLongestSubstring_";
     mk_method "test_canRetainCycle" "v16@0:8" "_I_SKBlockVC_test_canRetainCycle";
     mk_method "testGCD" "v16@0:8" "_I_SKBlockVC_testGCD";
     mk_method "blockLocation" "v16@0:8" "_I_SKBlockVC_blockLocation";
     mk_method "dealloc" "v16@0:8" "_I_SKBlockVC_dealloc";
     mk_method "tempStr" "@16@0:8" "_I_SKBlockVC_tempStr";
     mk_method "setTempStr:" "v24@0:8@16" "_I_SKBlockVC_setTempStr_";
     mk_method "dataArry" "@16@0:8" "_I_SKBlockVC_dataArry";
     mk_method "setDataArry:" "v24@0:8@16" "_I_SKBlockVC_setDataArry_";
     mk_method "model" "@16@0:8" "_I_SKBlockVC_model";
     mk_method "setModel:" "v24@0:8@16" "_I_SKBlockVC_setModel_";
     mk_method "blockFive" "@?16@0:8" "_I_SKBlockVC_blockFive";
     mk_method "setBlockFive:" "v24@0:8@?16" "_I_SKBlockVC_setBlockFive_";
     mk_method "blockCycle" "@?16@0:8" "_I_SKBlockVC_blockCycle";
     mk_method "setBlockCycle:" "v24@0:8@?16" "_I_SKBlockVC_setBlockCycle_";
     mk_method "ageTest" "q16@0:8" "_I_SKBlockVC_ageTest";
     mk_method "setAgeTest:" "v24@0:8q16" "_I_SKBlockVC_setAgeTest_";
     mk_method "sumOf" "@?16@0:8" "_I_SKBlockVC_sumOf";
     mk_method "setSumOf:" "v24@0:8@?16" "_I_SKBlockVC_setSumOf_";
     mk_method "is_canFly" "B16@0:8" "_I_SKBlockVC_is_canFly";
     mk_method "setIs_canFly:" "v20@0:8B16" "_I_SKBlockVC_setIs_canFly_";
     mk_method "block_Cycle" "@?16@0:8" "_I_SKBlockVC_block_Cycle";
     mk_method "setBlock_Cycle:" "v24@0:8@?16" "_I_SKBlockVC_setBlock_Cycle_";
     mk_method "notification" "@16@0:8" "_I_SKBlockVC_notification";
     mk_method "setNotification:" "v24@0:8@16" "_I_SKBlockVC_setNotification_"].

Definition _OBJC_METACLASS_RO_SKBlockVC : _class_ro_t :=
  mk_ro 1 (sizeof_struct _class_t_struct) (sizeof_struct _class_t_struct) "SKBlockVC"
    None
    None
    None.

Definition _OBJC_CLASS_RO_SKBlockVC : _class_ro_t :=
  mk_ro 0 (OFFSETOFIVAR SKBlockVC_IMPL "_is_canFly") (sizeof_struct SKBlockVC_IMPL) "SKBlockVC"
    (Some _OBJC_INSTANCE_METHODS_SKBlockVC)
    (Some _OBJC_INSTANCE_VARIABLES_SKBlockVC)
    None.

Definition OBJC_METACLASS_SKBlockVC : _class_t := mk_class None None None _OBJC_METACLASS_RO_SKBlockVC.

Definition OBJC_CLASS_SKBlockVC : _class_t := mk_class None None None _OBJC_CLASS_RO_SKBlockVC.

Definition OBJC_CLASS_SETUP_SKBlockVC (S : metadata) : metadata :=
  let S := set_isa "OBJC_METACLASS_$_SKBlockVC" "OBJC_METACLASS_$_NSObject" S in
  let S := set_superclass "OBJC_METACLASS_$_SKBlockVC" "OBJC_METACLASS_$_UIViewController" S in
  let S := set_cache "OBJC_METACLASS_$_SKBlockVC" "_objc_empty_cache" S in
  let S := set_isa "OBJC_CLASS_$_SKBlockVC" "OBJC_METACLASS_$_SKBlockVC" S in
  let S := set_superclass "OBJC_CLASS_$_SKBlockVC" "OBJC_CLASS_$_UIViewController" S in
  let S := set_cache "OBJC_CLASS_$_SKBlockVC" "_objc_empty_cache" S in
  S.

Definition image_SKBlockVC : image :=
  mk_image
    [("OBJC_METACLASS_$_SKBlockVC", OBJC_METACLASS_SKBlockVC);
     ("OBJC_CLASS_$_SKBlockVC", OBJC_CLASS_SKBlockVC)]
    [] [OBJC_CLASS_SETUP_SKBlockVC]
    ["OBJC_CLASS_$_SKBlockVC"] [].

(** ** The program *)

Definition images : list image :=
  [image_SKObjectObject;
   image_SKSubObject;
   image_SubDemo;
   image_SSbDemo;
   image_ShortDemo1;
   image_PropertyDemo;
   image_TestExpand;
   image_TestExpand_Additions;
   image_NSObject_Addition;
   image_SKTaggedPointTest;
   image_SKPropertyTestModel;
   image_SKProprtyModel;
   image_SKSynthesizeModel;
   image_SKPropertyVC;
   image_SKAutoReleaseTestObj;
   image_SKRuntimePerson;
   image_SKMessageSendAction;
   image_NSObject_SKRuntimeAssociatedObject;
   image_SKBlockLocationObj;
   image_SKBlockVC].
