(* ===== verification/ObjCImagesSpec.v ===== *)
(** * What the metadata of the lowered files satisfies

    The invariants the runtime relies on when it reads the lists, type strings,
    instance layouts and property attributes of the files, proved of every
    image; and the class graph the set-up hooks build, in whatever order they
    run. *)

From Stdlib Require Import ZArith Lia Bool Ascii String Permutation.
From stdpp Require Import base list gmap strings.
From S2P Require Import Prelude TypeEncoding ObjCData ObjCImages.

Local Open Scope Z_scope.

#[export] Instance enc_error_eq_dec : EqDecision enc_error.
Proof. solve_decision. Defined.

(** ** The lists of an image *)

Definition image_classes (img : image) : list _class_ro_t := map (fun p => ro p.2) (img_objects img).

Definition methods_of (r : _class_ro_t) : list _objc_method := from_option entries [] (baseMethods r).
Definition ivars_of (r : _class_ro_t) : list _ivar_t := from_option entries [] (ivars r).
Definition props_of (r : _class_ro_t) : list _prop_t := from_option entries [] (properties r).

(** The header of a list agrees with its entries. *)
Definition list_ok {A} (size : Z) (l : option (ent_list A)) : Prop :=
  match l with
  | Some l => count l = Z.of_nat (length (entries l)) /\ entsize l = size
  | None => True
  end.

Definition ro_lists_ok (r : _class_ro_t) : Prop :=
  list_ok (sizeof_struct _objc_method_struct) (baseMethods r) /\
  list_ok (sizeof_struct _ivar_t_struct) (ivars r) /\
  list_ok (sizeof_struct _prop_t_struct) (properties r).

Definition category_lists_ok (k : _category_t) : Prop :=
  list_ok (sizeof_struct _objc_method_struct) (instance_methods k) /\
  list_ok (sizeof_struct _objc_method_struct) (class_methods k) /\
  list_ok (sizeof_struct _prop_t_struct) (cat_properties k).

#[export] Instance list_ok_dec {A} size (l : option (ent_list A)) : Decision (list_ok size l).
Proof. unfold list_ok. destruct l; apply _. Defined.
#[export] Instance ro_lists_ok_dec r : Decision (ro_lists_ok r).
Proof. unfold ro_lists_ok. apply _. Defined.
#[export] Instance category_lists_ok_dec k : Decision (category_lists_ok k).
Proof. unfold category_lists_ok. apply _. Defined.

(** ** Method type strings *)

Definition colons (s : string) : Z :=
  Z.of_nat (length (List.filter (fun c => Ascii.eqb c ":") (chars_of s))).

(** The bytes an argument takes in the frame: a BOOL is widened to 4. *)
Definition stack_size (ty : chars) : Z := if decide (ty = chars_of "B") then 4 else 8.

Definition slot (t : chars) (i : Z) : option (Z * chars) :=
  match encoding_getArgumentInfo t i, encoding_copyArgumentType (Some t) i with
  | inl (Some (_, _, off)), inl (Some ty) => Some (off, ty)
  | _, _ => None
  end.

(** The arguments from position [i] on lie one after the other from [pos] to
    [total]. *)
Fixpoint frame_ok (n : nat) (t : chars) (i pos total : Z) : Prop :=
  match n with
  | O => pos = total
  | S n' =>
      match slot t i with
      | Some (off, ty) => off = pos /\ frame_ok n' t (i + 1) (pos + stack_size ty) total
      | None => False
      end
  end.

#[export] Instance frame_ok_dec n t i pos total : Decision (frame_ok n t i pos total).
Proof.
  revert i pos. induction n as [|n IH]; intros i pos; simpl; [apply _|].
  destruct (slot t i) as [[off ty]|]; apply _.
Defined.

Definition mangle (sel : string) : string :=
  string_of_list_ascii (map (fun c => if Ascii.eqb c ":" then "_"%char else c) (chars_of sel)).

(** The type string of a method says: an object, a selector, and one argument
    per colon of the selector, laid out without gaps in a frame of the size it
    states; the function is the one named after class and selector. *)
Definition method_ok (prefix : string) (m : _objc_method) : Prop :=
  let t := chars_of (method_type m) in
  encoding_getNumberOfArguments t = Good (Some (2 + colons (_cmd m))) /\
  encoding_copyArgumentType (Some t) 0 = Good (Some (chars_of "@")) /\
  encoding_copyArgumentType (Some t) 1 = Good (Some (chars_of ":")) /\
  (exists total, encoding_getSizeOfArguments t = Good total /\
     frame_ok (Z.to_nat (2 + colons (_cmd m))) t 0 0 total) /\
  _imp m = (prefix +:+ mangle (_cmd m))%string.

#[export] Instance method_ok_dec prefix m : Decision (method_ok prefix m).
Proof.
  unfold method_ok. repeat apply and_dec; try apply _.
  destruct (encoding_getSizeOfArguments (chars_of (method_type m))) as [total|e].
  - destruct (decide (frame_ok (Z.to_nat (2 + colons (_cmd m))) (chars_of (method_type m)) 0 0 total)).
    + left. eauto.
    + right. by intros (x & [= <-] & Hx).
  - right. by intros (x & [=] & _).
Defined.

Definition prefix_of (meta : bool) (name : string) : string :=
  ((if meta then "_C_" else "_I_") +:+ name +:+ "_")%string.

Definition ro_methods_ok (r : _class_ro_t) : Prop :=
  Forall (method_ok (prefix_of (ro_flags r =? 1) (ro_name r))) (methods_of r) /\
  NoDup (map _cmd (methods_of r)).

#[export] Instance ro_methods_ok_dec r : Decision (ro_methods_ok r).
Proof. unfold ro_methods_ok. apply _. Defined.

(** Every list in the metadata of the 20 files has the element size and the count its
    entries have, the type string of every method of a class describes exactly the arguments its
    selector has colons for, with contiguous offsets that add up to the frame size, its
    implementation is the function named after the class and the selector, and no class lists a
    selector twice; of the categories only the lists are checked here. *)
Theorem metadata_lists_and_methods :
  Forall (fun img =>
    Forall (fun r => ro_lists_ok r /\ ro_methods_ok r) (image_classes img) /\
    Forall (fun k => category_lists_ok k.2) (img_categories img)) images.
Proof. apply (bool_decide_unpack _). vm_compute. exact I. Qed.

(** ** Instance layouts *)

Definition type_ctype (ty : string) : option ctype :=
  match chars_of ty with
  | c :: _ =>
      if Ascii.eqb c "@" then Some C_pointer
      else if Ascii.eqb c "q" then Some C_long
      else if Ascii.eqb c "B" then Some C_bool
      else None
  | [] => None
  end.

(** An ivar has the size and the alignment of the type it is encoded with, and
    its offset respects that alignment. *)
Definition ivar_ok (iv : _ivar_t) : Prop :=
  match type_ctype (ivar_type iv) with
  | Some t =>
      ivar_size iv = sizeof_c t /\ 2 ^ ivar_alignment iv = alignof_c t /\
      ivar_offset iv mod alignof_c t = 0
  | None => False
  end.

#[export] Instance ivar_ok_dec iv : Decision (ivar_ok iv).
Proof. unfold ivar_ok. destruct (type_ctype _); apply _. Defined.

(** The ivars lie one after the other between two offsets. *)
Fixpoint ivars_between (lo : Z) (l : list _ivar_t) (hi : Z) : Prop :=
  match l with
  | [] => lo <= hi
  | iv :: l' => lo <= ivar_offset iv /\ ivars_between (ivar_offset iv + ivar_size iv) l' hi
  end.

#[export] Instance ivars_between_dec lo l hi : Decision (ivars_between lo l hi).
Proof. revert lo. induction l as [|iv l IH]; intros lo; simpl; apply _. Defined.

Definition ro_layout_ok (r : _class_ro_t) : Prop :=
  Forall ivar_ok (ivars_of r) /\
  ivars_between (instanceStart r) (ivars_of r) (instanceSize r) /\
  match ivars_of r with
  | iv :: _ => instanceStart r = ivar_offset iv
  | [] => instanceStart r = instanceSize r
  end.

#[export] Instance ro_layout_ok_dec r : Decision (ro_layout_ok r).
Proof. unfold ro_layout_ok. destruct (ivars_of r); apply _. Defined.

(** ** Property attributes *)

Fixpoint split_comma (cur : chars) (l : chars) : list chars :=
  match l with
  | [] => [reverse cur]
  | c :: l' => if Ascii.eqb c "," then reverse cur :: split_comma [] l' else split_comma (c :: cur) l'
  end.

Definition attributes (p : _prop_t) : list chars := split_comma [] (chars_of (prop_attributes p)).

(** The value of the attribute with code [c]. *)
Definition attribute (c : ascii) (p : _prop_t) : option chars :=
  match List.filter (fun a => match a with d :: _ => Ascii.eqb c d | [] => false end) (attributes p) with
  | (_ :: v) :: _ => Some v
  | _ => None
  end.

Definition upcase (c : ascii) : ascii :=
  let n := N_of_ascii c in
  if ((97 <=? n) && (n <=? 122))%N then ascii_of_N (n - 32) else c.

Definition setter_name (p : string) : string :=
  match p with
  | EmptyString => EmptyString
  | String c r => ("set" +:+ String (upcase c) r +:+ ":")%string
  end.

Definition selectors (l : list _objc_method) : list string := map _cmd l.

(** A declared property has a getter, has a setter unless it is read-only, and
    the ivar its attributes name, when they name one, is an ivar of the class
    with the property's type. *)
Definition prop_ok (ms : list _objc_method) (ivs : list _ivar_t) (p : _prop_t) : Prop :=
  is_Some (attribute "T" p) /\
  prop_name p ∈ selectors ms /\
  (attribute "R" p = None -> setter_name (prop_name p) ∈ selectors ms) /\
  match attribute "V" p with
  | Some v => (v, attribute "T" p) ∈ map (fun iv => (chars_of (ivar_name iv), Some (chars_of (ivar_type iv)))) ivs
  | None => True
  end.

#[export] Instance prop_ok_dec ms ivs p : Decision (prop_ok ms ivs p).
Proof. unfold prop_ok. destruct (attribute "V" p); apply _. Defined.

Definition ro_props_ok (r : _class_ro_t) : Prop :=
  Forall (prop_ok (methods_of r) (ivars_of r)) (props_of r).

Definition category_props_ok (k : _category_t) : Prop :=
  Forall (prop_ok (from_option entries [] (instance_methods k)) [])
         (from_option entries [] (cat_properties k)).

#[export] Instance ro_props_ok_dec r : Decision (ro_props_ok r).
Proof. unfold ro_props_ok. apply _. Defined.
#[export] Instance category_props_ok_dec k : Decision (category_props_ok k).
Proof. unfold category_props_ok. apply _. Defined.

(** In every class of the 20 files the ivars have the size and alignment of their encoded
    types, lie in order without overlapping between instanceStart and instanceSize, and start at
    instanceStart. *)
Theorem metadata_layouts : Forall (fun img => Forall ro_layout_ok (image_classes img)) images.
Proof. apply (bool_decide_unpack _). vm_compute. exact I. Qed.

(** Every declared property of a class or category has its getter, its setter unless it is
    read-only, and, when it names a backing ivar, that ivar exists with the declared type. *)
Theorem metadata_properties :
  Forall (fun img => Forall ro_props_ok (image_classes img) /\
                     Forall (fun k => category_props_ok k.2) (img_categories img)) images.
Proof. apply (bool_decide_unpack _). vm_compute. exact I. Qed.

(** ** The class graph *)

Definition class_sym (name : string) : string := ("OBJC_CLASS_$_" +:+ name)%string.
Definition meta_sym (name : string) : string := ("OBJC_METACLASS_$_" +:+ name)%string.

(** The classes of the system frameworks the files import. *)
Definition imported : list string := ["NSObject"; "UIViewController"]%string.

(** The superclass chain of a class reaches an imported class. *)
Fixpoint reaches_import (k : nat) (S : metadata) (sym : string) : Prop :=
  sym ∈ map class_sym imported \/
  match k with
  | O => False
  | S k' =>
      match classes S !! sym with
      | Some c => match superclass c with Some p => reaches_import k' S p | None => False end
      | None => False
      end
  end.

#[export] Instance reaches_import_dec k S sym : Decision (reaches_import k S sym).
Proof.
  revert sym. induction k as [|k IH]; intros sym; simpl; [apply _|].
  apply or_dec; [apply _|]. destruct (classes S !! sym) as [c|]; [|apply _].
  destruct (superclass c); apply _.
Defined.

(** A class and its metaclass as the runtime needs them: the class is an instance
    of its metaclass, the metaclass of the root metaclass, the metaclass inherits
    from the metaclass of the superclass, both start with the empty cache, and
    only the metaclass carries the metaclass flag. *)
Definition class_linked (S : metadata) (sym : string) : Prop :=
  match classes S !! sym with
  | Some c =>
      sym = class_sym (ro_name (ro c)) /\ ro_flags (ro c) = 0 /\
      isa c = Some (meta_sym (ro_name (ro c))) /\ cache c = Some "_objc_empty_cache"%string /\
      match classes S !! meta_sym (ro_name (ro c)) with
      | Some mc =>
          ro_name (ro mc) = ro_name (ro c) /\ ro_flags (ro mc) = 1 /\
          isa mc = Some (meta_sym "NSObject") /\ cache mc = Some "_objc_empty_cache"%string /\
          (exists p, p ∈ imported ++ map (fun q => ro_name (ro q.2)) (map_to_list (classes S)) /\
             superclass c = Some (class_sym p) /\ superclass mc = Some (meta_sym p))
      | None => False
      end
  | None => False
  end.

#[export] Instance class_linked_dec S sym : Decision (class_linked S sym).
Proof.
  unfold class_linked. destruct (classes S !! sym) as [c|]; [|apply _].
  repeat apply and_dec; try apply _. destruct (classes S !! _) as [mc|]; [|apply _].
  repeat apply and_dec; try apply _.
  destruct (decide (Exists (fun p => superclass c = Some (class_sym p) /\ superclass mc = Some (meta_sym p))
    (imported ++ map (fun q => ro_name (ro q.2)) (map_to_list (classes S))))) as [He|Hn].
  - left. apply Exists_exists in He as (p & Hp & ?). eauto.
  - right. intros (p & Hp & ?). apply Hn, Exists_exists. eauto.
Defined.

Definition category_linked (S : metadata) (sym : string) : Prop :=
  match categories S !! sym with
  | Some k => cls k = Some (class_sym (cat_name k))
  | None => False
  end.

#[export] Instance category_linked_dec S sym : Decision (category_linked S sym).
Proof. unfold category_linked. destruct (categories S !! sym); apply _. Defined.

Lemma images_linked :
  Forall (fun img => Forall (class_linked (load_images images)) (img_classlist img) /\
                     Forall (reaches_import 20 (load_images images)) (img_classlist img) /\
                     Forall (category_linked (load_images images)) (img_catlist img)) images.
Proof. apply (bool_decide_unpack _). vm_compute. exact I. Qed.

(** ** The order of the hooks does not matter *)

(** What a hook writes: the symbols it touches, each by its own function. *)
Inductive hook_on : gset string -> (metadata -> metadata) -> Prop :=
| on_id D : hook_on D (fun S => S)
| on_class D f sym h : sym ∈ D -> hook_on D h -> hook_on D (fun S => h (alter_class f sym S))
| on_cat D sym v h : sym ∈ D -> hook_on D h -> hook_on D (fun S => h (set_cls sym v S)).

Lemma alter_swap {A} (f g : A -> A) i j (M : gmap string A) : i <> j ->
  alter f i (alter g j M) = alter g j (alter f i M).
Proof.
  intros Hij. apply map_eq. intros k. rewrite !lookup_alter.
  repeat case_decide; by subst.
Qed.

Lemma hook_commute_class D h f sym S : hook_on D h -> sym ∉ D ->
  h (alter_class f sym S) = alter_class f sym (h S).
Proof.
  intros Hh Hs. revert S. induction Hh as [|D g t h Ht Hh IH|D t v h Ht Hh IH]; intros S; [done|..].
  - rewrite <- IH by done. f_equal. unfold alter_class. simpl. f_equal.
    apply alter_swap. intros ->. done.
  - rewrite <- IH by done. done.
Qed.

Lemma hook_commute_cat D h sym v S : hook_on D h -> sym ∉ D ->
  h (set_cls sym v S) = set_cls sym v (h S).
Proof.
  intros Hh Hs. revert S. induction Hh as [|D g t h Ht Hh IH|D t w h Ht Hh IH]; intros S; [done|..].
  - rewrite <- IH by done. done.
  - rewrite <- IH by done. f_equal. unfold set_cls. simpl. f_equal.
    apply alter_swap. intros ->. done.
Qed.

Lemma hooks_commute D1 D2 h1 h2 S : hook_on D1 h1 -> hook_on D2 h2 -> D1 ## D2 ->
  h1 (h2 S) = h2 (h1 S).
Proof.
  intros H1 H2 Hd. revert S. induction H2 as [|D f sym h Hs Hh IH|D sym v h Hs Hh IH]; intros S; [done|..].
  - rewrite IH by done. f_equal. apply (hook_commute_class D1); [done|]. set_solver.
  - rewrite IH by done. f_equal. apply (hook_commute_cat D1); [done|]. set_solver.
Qed.

Lemma run_hooks_perm hs hs' : hs ≡ₚ hs' ->
  (forall h1 h2, h1 ∈ hs -> h2 ∈ hs -> forall S, h1 (h2 S) = h2 (h1 S)) ->
  forall S, run_hooks hs S = run_hooks hs' S.
Proof.
  intros Hp. induction Hp as [|h l l' Hp IH|h1 h2 l|l1 l2 l3 Hp1 IH1 Hp2 IH2]; intros Hc S; [done|..].
  - unfold run_hooks in *. simpl. apply IH. intros. apply Hc; by right.
  - unfold run_hooks. simpl. f_equal. apply Hc; rewrite !elem_of_cons; auto.
  - rewrite IH1 by done. apply IH2. intros h1 h2 Hh1 Hh2. apply Hc; by rewrite Hp1.
Qed.

(** The symbols an image defines; its hooks write only those. *)
Definition image_symbols (img : image) : gset string :=
  list_to_set (map fst (img_objects img) ++ map fst (img_categories img)).

(** The shape of every class hook of the files. *)
Definition class_hook (mc misa msup c csup empty : string) (S : metadata) : metadata :=
  set_cache c empty (set_superclass c csup (set_isa c mc
    (set_cache mc empty (set_superclass mc msup (set_isa mc misa S))))).

Lemma class_hook_on D mc misa msup c csup empty : mc ∈ D -> c ∈ D ->
  hook_on D (class_hook mc misa msup c csup empty).
Proof.
  intros Hm Hc.
  exact (on_class D _ mc _ Hm (on_class D _ mc _ Hm (on_class D _ mc _ Hm
        (on_class D _ c _ Hc (on_class D _ c _ Hc (on_class D _ c _ Hc (on_id D))))))).
Qed.

Lemma cat_hook_on D sym v : sym ∈ D -> hook_on D (set_cls sym v).
Proof. intros Hs. exact (on_cat D sym v _ Hs (on_id D)). Qed.

Lemma image_hooks_on :
  Forall (fun img => Forall (hook_on (image_symbols img)) (img_setup img)) images.
Proof.
  unfold images.
  repeat (apply Forall_cons; split; [apply Forall_cons; split; [|apply Forall_nil_2]; simpl img_setup|]);
    [..|apply Forall_nil_2];
    first [eapply class_hook_on; (apply (bool_decide_unpack _); vm_compute; exact I)
          |eapply cat_hook_on; (apply (bool_decide_unpack _); vm_compute; exact I)].
Qed.

(** Each hook with the symbols it may write. *)
Definition hook_table : list (gset string * (metadata -> metadata)) :=
  concat (map (fun img => map (pair (image_symbols img)) (img_setup img)) images).

Lemma hook_table_hooks : map snd hook_table = concat (map img_setup images).
Proof. reflexivity. Qed.

Lemma hook_table_on D h : (D, h) ∈ hook_table -> hook_on D h.
Proof.
  unfold hook_table. rewrite list_elem_of_In, in_concat. intros (l & Hl & Hin).
  apply in_map_iff in Hl as (img & <- & Himg). apply in_map_iff in Hin as (h' & [= <- <-] & Hh).
  pose proof image_hooks_on as Hall. rewrite Forall_forall in Hall.
  specialize (Hall img). rewrite Forall_forall in Hall. apply Hall; by apply list_elem_of_In.
Qed.

Fixpoint pairwise_disjoint (l : list (gset string)) : bool :=
  match l with
  | [] => true
  | D :: l' => forallb (fun D' => bool_decide (D ## D')) l' && pairwise_disjoint l'
  end.

(** Two entries of a table with pairwise disjoint domains commute. *)
Lemma table_commute (T : list (gset string * (metadata -> metadata))) :
  (forall D h, (D, h) ∈ T -> hook_on D h) -> pairwise_disjoint (map fst T) = true ->
  forall h1 h2, h1 ∈ map snd T -> h2 ∈ map snd T -> forall S, h1 (h2 S) = h2 (h1 S).
Proof.
  induction T as [|[D h] T IH]; simpl; intros Hon Hd h1 h2 Hh1 Hh2 S; [by apply not_elem_of_nil in Hh1|].
  apply andb_true_iff in Hd as [Hd Hd']. rewrite forallb_forall in Hd.
  assert (Hc : forall g, g ∈ map snd T -> forall S, h (g S) = g (h S)).
  { intros g Hg S'. apply list_elem_of_fmap in Hg as ([D' g'] & -> & Hin). simpl.
    apply (hooks_commute D D'); [apply Hon; by left|apply Hon; by right|].
    apply (bool_decide_unpack _), Is_true_true. apply Hd. apply list_elem_of_In.
    apply list_elem_of_fmap. by exists (D', g'). }
  apply elem_of_cons in Hh1 as [->|Hh1], Hh2 as [->|Hh2]; [done|by apply Hc|symmetry; by apply Hc|].
  apply IH; [|done..]. intros D' h' Hin. apply Hon. by right.
Qed.

Lemma load_any_order hooks : hooks ≡ₚ concat (map img_setup images) ->
  run_hooks hooks (link_images images) = load_images images.
Proof.
  intros Hp. unfold load_images. symmetry. apply run_hooks_perm; [by symmetry|].
  rewrite <- hook_table_hooks. apply table_commute; [apply hook_table_on|].
  vm_compute. reflexivity.
Qed.

(** C24. The class graph: in whatever order the runtime runs the set-up hooks of the 20 files,
    every class they list ends up an instance of its own metaclass, every metaclass an instance
    of the root metaclass, metaclasses inherit in parallel with their classes, only metaclasses
    carry the metaclass flag, every superclass chain reaches a framework class, and every category
    is attached to the class it names. *)
Theorem class_graph (hooks : list (metadata -> metadata)) :
  hooks ≡ₚ concat (map img_setup images) ->
  let S := run_hooks hooks (link_images images) in
  Forall (fun img => Forall (class_linked S) (img_classlist img) /\
                     Forall (reaches_import 20 S) (img_classlist img) /\
                     Forall (category_linked S) (img_catlist img)) images.
Proof. intros Hp S. subst S. rewrite load_any_order by done. apply images_linked. Qed.

Lemma class_graph_witness :
  class_linked (run_hooks (reverse (concat (map img_setup images))) (link_images images))
    "OBJC_CLASS_$_SKSubObject".
Proof.
  pose proof (class_graph (reverse (concat (map img_setup images))) (reverse_Permutation _)) as Hall.
  apply Forall_cons in Hall as [_ Hall]. apply Forall_cons in Hall as [(Hc & _) _].
  apply Forall_cons in Hc as [Hc _]. exact Hc.
Defined.
