(* ===== verification/IvarLayout.v ===== *)
(** * Non-fragile ivars

    objc-runtime-new.mm, [moveIvars] and [reconcileInstanceVariables]: when a
    superclass has grown since a class was compiled, the class's ivars slide
    behind it.  The lowered files need this: a file that only saw the interface
    of its superclass lays its ivars over the superclass's. *)

From Stdlib Require Import ZArith Lia Bool Ascii String.
From stdpp Require Import base list gmap strings.
From S2P Require Import Prelude TypeEncoding Endian ObjCData ObjCImages ObjCImagesSpec.

Local Open Scope Z_scope.

(** The runtime's view of an ivar; an anonymous bitfield has no offset. *)
Record ivar_t := mk_ivar_t {
  iv_offset : option Z; iv_name : string; iv_alignment_raw : Z; iv_size : Z }.

Record class_ro_t := mk_class_ro {
  rt_instanceStart : Z; rt_instanceSize : Z; rt_ivars : option (list ivar_t) }.

Definition WORD_SHIFT : Z := 3.

Definition alignment (iv : ivar_t) : Z :=
  if iv_alignment_raw iv =? u32 (Z.lnot 0) then u32 (Z.shiftl 1 WORD_SHIFT)
  else u32 (Z.shiftl 1 (iv_alignment_raw iv)).

Definition max_alignment (l : list ivar_t) : Z :=
  fold_left (fun mx iv =>
    match iv_offset iv with
    | None => mx
    | Some _ => if mx <? alignment iv then alignment iv else mx
    end) l 1.

Definition slide_ivar (diff : Z) (iv : ivar_t) : ivar_t :=
  match iv_offset iv with
  | None => iv
  | Some old => mk_ivar_t (Some (u32 (u32 old + diff))) (iv_name iv) (iv_alignment_raw iv) (iv_size iv)
  end.

Definition moveIvars (ro : class_ro_t) (superSize : Z) : class_ro_t :=
  let diff := u32 (superSize - rt_instanceStart ro) in
  match rt_ivars ro with
  | Some l =>
      let alignMask := u32 (max_alignment l - 1) in
      let diff := Z.land (u32 (diff + alignMask)) (u32 (Z.lnot alignMask)) in
      mk_class_ro (u32 (rt_instanceStart ro + diff)) (u32 (rt_instanceSize ro + diff))
        (Some (map (slide_ivar diff) l))
  | None =>
      mk_class_ro (u32 (rt_instanceStart ro + diff)) (u32 (rt_instanceSize ro + diff)) None
  end.

(** With DebugNonFragileIvars off. *)
Definition reconcileInstanceVariables (super_ro ro : class_ro_t) : class_ro_t :=
  if rt_instanceSize super_ro <=? rt_instanceStart ro then ro
  else moveIvars ro (rt_instanceSize super_ro).

(** ** What sliding preserves *)

(** The ivars with an offset lie in order between two bounds. *)
Fixpoint placed (lo : Z) (l : list ivar_t) (hi : Z) : Prop :=
  match l with
  | [] => lo <= hi
  | iv :: l' =>
      match iv_offset iv with
      | None => placed lo l' hi
      | Some off => lo <= off /\ 0 <= iv_size iv /\ placed (off + iv_size iv) l' hi
      end
  end.

Definition aligned (iv : ivar_t) : Prop :=
  match iv_offset iv with Some off => off mod alignment iv = 0 | None => True end.

Definition raw_ok (iv : ivar_t) : Prop :=
  0 <= iv_alignment_raw iv <= 16 \/ iv_alignment_raw iv = u32 (Z.lnot 0).

Definition rt_layout_ok (ro : class_ro_t) : Prop :=
  0 <= rt_instanceStart ro <= rt_instanceSize ro /\
  match rt_ivars ro with
  | Some l => placed (rt_instanceStart ro) l (rt_instanceSize ro) /\ Forall aligned l /\ Forall raw_ok l
  | None => True
  end.

Lemma alignment_pow iv : raw_ok iv -> exists k, 0 <= k <= 16 /\ alignment iv = 2 ^ k.
Proof.
  unfold alignment. intros [Hr|Hr].
  - exists (iv_alignment_raw iv). split; [lia|]. destruct (_ =? _) eqn:E; zbool.
    + rewrite E in Hr. vm_compute in Hr. destruct Hr as [_ Hr]. by destruct Hr.
    + rewrite Z.shiftl_1_l. apply wrap_id. unfold in_u.
      pose proof (Z.pow_le_mono_r 2 (iv_alignment_raw iv) 16).
      pose proof (Z.pow_pos_nonneg 2 (iv_alignment_raw iv)). lia.
  - exists 3. split; [lia|]. rewrite Hr, Z.eqb_refl. reflexivity.
Qed.

(** The largest alignment is a power of two that every alignment divides. *)
Lemma max_alignment_pow l : Forall raw_ok l ->
  exists k, 0 <= k <= 16 /\ max_alignment l = 2 ^ k /\
    Forall (fun iv => iv_offset iv <> None -> exists j, 0 <= j <= k /\ alignment iv = 2 ^ j) l.
Proof.
  intros Hl. unfold max_alignment.
  assert (Hgen : forall k0, 0 <= k0 <= 16 ->
    exists k, k0 <= k <= 16 /\ fold_left (fun mx iv => match iv_offset iv with None => mx
        | Some _ => if mx <? alignment iv then alignment iv else mx end) l (2 ^ k0) = 2 ^ k /\
      Forall (fun iv => iv_offset iv <> None -> exists j, 0 <= j <= k /\ alignment iv = 2 ^ j) l).
  { induction Hl as [|iv l Hiv Hl IH]; intros k0 Hk0; simpl; [exists k0; split_and!; done || lia|].
    destruct (alignment_pow iv Hiv) as (j & Hj & Ej).
    destruct (iv_offset iv) as [off|] eqn:Eo.
    - rewrite Ej. destruct (2 ^ k0 <? 2 ^ j) eqn:E; zbool.
      + apply Z.pow_lt_mono_r_iff in E; [|lia..]. destruct (IH j) as (k & Hk & Ek & Hall); [lia|].
        exists k. split_and!; [lia..|done|]. constructor; [|done]. intros _. exists j. split; [lia|done].
      + apply Z.pow_le_mono_r_iff in E; [|lia..]. destruct (IH k0) as (k & Hk & Ek & Hall); [lia|].
        exists k. split_and!; [lia..|done|]. constructor; [|done]. intros _. exists j. split; [lia|done].
    - destruct (IH k0) as (k & Hk & Ek & Hall); [lia|].
      exists k. split_and!; [lia..|done|]. constructor; [|done]. congruence. }
  destruct (Hgen 0) as (k & Hk & Ek & Hall); [lia|]. exists k. split_and!; [lia..|done|done].
Qed.

(** Clearing the low [k] bits rounds down to a multiple of [2^k]. *)
Lemma clear_low x k : in_u 32 x -> 0 <= k <= 32 ->
  Z.land x (u32 (Z.lnot (2 ^ k - 1))) = x / 2 ^ k * 2 ^ k.
Proof.
  intros Hx Hk. rewrite <- Z.shiftr_div_pow2, <- Z.shiftl_mul_pow2 by lia.
  replace (2 ^ k - 1) with (Z.ones k) by (rewrite Z.ones_equiv; lia).
  apply Z.bits_inj'. intros i Hi. rewrite Z.land_spec, testbit_wrap, Z.lnot_spec, testbit_ones by lia.
  rewrite Z.shiftl_spec by lia. destruct (i <? k) eqn:Ei; zbool.
  - rewrite (Z.testbit_neg_r _ (i - k)) by lia. simpl. by rewrite !andb_false_r.
  - rewrite Z.shiftr_spec by lia. replace (i - k + k) with i by lia.
    destruct (i <? 32) eqn:E32; zbool; simpl; [by rewrite andb_true_r|].
    rewrite andb_false_r. symmetry. apply (testbit_in_u 32); [done|lia].
Qed.

(** The slide: at least the distance, and less than one alignment more. *)
Lemma slide_amount d k : 0 <= d -> 0 <= k <= 16 -> d + 2 ^ 17 < 2 ^ 32 ->
  let diff := Z.land (u32 (d + u32 (2 ^ k - 1))) (u32 (Z.lnot (u32 (2 ^ k - 1)))) in
  d <= diff < d + 2 ^ k /\ diff mod 2 ^ k = 0.
Proof.
  intros Hd Hk Hmax diff. subst diff.
  pose proof (Z.pow_le_mono_r 2 k 16) as Hp. pose proof (Z.pow_pos_nonneg 2 k) as Hpos.
  change (2 ^ 16) with 65536 in Hp. change (2 ^ 17) with 131072 in Hmax. change (2 ^ 32) with 4294967296 in *.
  rewrite (wrap_id 32 (2 ^ k - 1)) by (unfold in_u; lia).
  rewrite (wrap_id 32 (d + _)) by (unfold in_u; lia).
  rewrite clear_low by (unfold in_u; lia).
  pose proof (Z.div_mod (d + (2 ^ k - 1)) (2 ^ k) ltac:(lia)) as Hdm.
  pose proof (Z.mod_pos_bound (d + (2 ^ k - 1)) (2 ^ k) ltac:(lia)) as Hm.
  split; [lia|]. apply Z.mod_mul. lia.
Qed.

Lemma placed_end lo l hi : placed lo l hi -> lo <= hi.
Proof.
  revert lo. induction l as [|j l IH]; intros p; simpl; [done|].
  destruct (iv_offset j) as [o|]; [|apply IH]. intros (? & ? & Hr%IH). lia.
Qed.

Lemma iv_size_slide diff iv : iv_size (slide_ivar diff iv) = iv_size iv.
Proof. unfold slide_ivar. by destruct (iv_offset iv). Qed.

Lemma iv_offset_slide diff iv :
  iv_offset (slide_ivar diff iv) = (fun old => u32 (u32 old + diff)) <$> iv_offset iv.
Proof. unfold slide_ivar. by destruct (iv_offset iv) eqn:E. Qed.

Lemma placed_slide diff lo l hi :
  placed lo l hi -> 0 <= lo -> 0 <= diff -> hi + diff < 2 ^ 32 ->
  placed (lo + diff) (map (slide_ivar diff) l) (hi + diff).
Proof.
  intros Hp Hlo Hd Hmax. revert lo Hp Hlo. induction l as [|iv l IH]; intros lo Hp Hlo; simpl in *; [lia|].
  rewrite iv_offset_slide, iv_size_slide. destruct (iv_offset iv) as [off|]; simpl; [|by apply IH].
  - destruct Hp as (H1 & H2 & H3).
    pose proof (placed_end _ _ _ H3) as Hhi.
    rewrite (wrap_id 32 off), wrap_id by (unfold in_u; lia). split_and!; [lia|done|].
    replace (off + diff + iv_size iv) with (off + iv_size iv + diff) by lia. apply IH; [done|lia].
Qed.

Lemma placed_offset_range lo l hi iv off : placed lo l hi -> iv ∈ l -> iv_offset iv = Some off ->
  lo <= off <= hi.
Proof.
  revert lo. induction l as [|j l IH]; intros p Hp Hin Ho; [by apply not_elem_of_nil in Hin|].
  simpl in Hp. apply elem_of_cons in Hin as [<-|Hin].
  - rewrite Ho in Hp. destruct Hp as (? & ? & Hr%placed_end). lia.
  - destruct (iv_offset j) as [o|]; [|by eapply IH]. destruct Hp as (? & ? & Hr).
    destruct (IH _ Hr Hin Ho). lia.
Qed.

Lemma alignment_slide diff iv : alignment (slide_ivar diff iv) = alignment iv.
Proof. unfold slide_ivar. by destruct (iv_offset iv). Qed.

(** A multiple of [2^k] is a multiple of [2^j] for [j <= k]. *)
Lemma mod_pow_le x j k : 0 <= j <= k -> x mod 2 ^ k = 0 -> x mod 2 ^ j = 0.
Proof.
  intros Hj Hx. apply Z.mod_divide in Hx; [|apply Z.pow_nonzero; lia].
  apply Z.mod_divide; [apply Z.pow_nonzero; lia|].
  etransitivity; [|exact Hx]. exists (2 ^ (k - j)). rewrite <- Z.pow_add_r by lia. f_equal. lia.
Qed.

(** What [moveIvars] does to a well-formed layout. *)
Lemma moveIvars_layout ro superSize :
  rt_layout_ok ro -> rt_instanceStart ro < superSize ->
  superSize + rt_instanceSize ro + 2 ^ 17 < 2 ^ 32 ->
  exists diff, 0 <= diff <= superSize + 2 ^ 16 /\ superSize <= rt_instanceStart ro + diff /\
    rt_instanceStart (moveIvars ro superSize) = rt_instanceStart ro + diff /\
    rt_instanceSize (moveIvars ro superSize) = rt_instanceSize ro + diff /\
    rt_ivars (moveIvars ro superSize) = map (slide_ivar diff) <$> rt_ivars ro /\
    rt_layout_ok (moveIvars ro superSize).
Proof.
  intros [Hss Hl] Hsup Hmax. change (2 ^ 17) with 131072 in *. change (2 ^ 32) with 4294967296 in *.
  change (2 ^ 16) with 65536 in *. unfold moveIvars. rewrite (wrap_id 32 (superSize - _)) by (unfold in_u; lia).
  destruct (rt_ivars ro) as [l|] eqn:El.
  - destruct Hl as (Hp & Hal & Hraw). destruct (max_alignment_pow l Hraw) as (k & Hk & Ek & Hpow). rewrite Ek.
    destruct (slide_amount (superSize - rt_instanceStart ro) k) as [Hdiff Hmod]; [lia..|].
    set (diff := Z.land _ _) in *. pose proof (Z.pow_le_mono_r 2 k 16). change (2 ^ 16) with 65536 in *.
    rewrite !wrap_id by (unfold in_u; lia).
    exists diff. simpl. split_and!; [lia..|done|]. split; [simpl; lia|]. simpl. split_and!.
    + apply placed_slide; [done|lia..].
    + rewrite !Forall_forall in *. intros iv' (iv & -> & Hin)%list_elem_of_fmap.
      unfold aligned. rewrite alignment_slide. specialize (Hal iv Hin). unfold aligned in Hal.
      specialize (Hpow iv Hin). rewrite iv_offset_slide. destruct (iv_offset iv) as [off|] eqn:Eo; simpl; [|done].
      destruct (Hpow ltac:(done)) as (j & Hj & Ej). pose proof (placed_offset_range _ _ _ _ _ Hp Hin Eo).
      rewrite (wrap_id 32 off), wrap_id by (unfold in_u; lia). rewrite Ej in *.
      rewrite Zplus_mod, Hal, (mod_pow_le diff j k) by (done || lia). done.
    + rewrite !Forall_forall in *. intros iv' (iv & -> & Hin)%list_elem_of_fmap.
      specialize (Hraw iv Hin). unfold raw_ok, slide_ivar in *. by destruct (iv_offset iv).
  - rewrite !wrap_id by (unfold in_u; lia). eexists. simpl. split_and!; [..|reflexivity|reflexivity|done|]; [lia..|].
    split; [simpl; lia|done].
Qed.

Lemma reconcile_layout super_ro ro :
  rt_layout_ok ro -> rt_instanceSize super_ro + rt_instanceSize ro + 2 ^ 17 < 2 ^ 32 ->
  exists diff, 0 <= diff <= Z.max 0 (rt_instanceSize super_ro + 2 ^ 16) /\
    let ro' := reconcileInstanceVariables super_ro ro in
    rt_instanceSize super_ro <= rt_instanceStart ro' /\
    rt_instanceStart ro' = rt_instanceStart ro + diff /\
    rt_instanceSize ro' = rt_instanceSize ro + diff /\
    (ro' = ro \/ rt_ivars ro' = map (slide_ivar diff) <$> rt_ivars ro) /\
    rt_layout_ok ro'.
Proof.
  intros Hl Hmax. unfold reconcileInstanceVariables.
  destruct (rt_instanceSize super_ro <=? rt_instanceStart ro) eqn:E; zbool.
  - exists 0. simpl. split_and!; [lia..|by left|done].
  - destruct (moveIvars_layout ro (rt_instanceSize super_ro) Hl E Hmax)
      as (diff & H0 & H1 & H2 & H3 & H4 & H5).
    exists diff. simpl. rewrite H2. split_and!; [lia|lia|lia|done|done|by right|done].
Qed.

(** C25. Non-fragile ivars: reconciling a class with its superclass puts every ivar of the class
    behind the superclass, slides them all by the same amount - so the ivars keep their mutual
    distances and order - and keeps each one aligned; nothing moves when the superclass already
    fits. *)
Theorem reconcile_separates (super_ro ro : class_ro_t) :
  rt_layout_ok ro -> rt_instanceSize super_ro + rt_instanceSize ro + 2 ^ 17 < 2 ^ 32 ->
  let ro' := reconcileInstanceVariables super_ro ro in
  rt_instanceSize super_ro <= rt_instanceStart ro' /\ rt_layout_ok ro' /\
  rt_instanceSize ro' - rt_instanceStart ro' = rt_instanceSize ro - rt_instanceStart ro /\
  (rt_instanceSize super_ro <= rt_instanceStart ro -> ro' = ro) /\
  exists diff, 0 <= diff /\ rt_instanceStart ro' = rt_instanceStart ro + diff /\
    (ro' = ro \/ rt_ivars ro' = map (slide_ivar diff) <$> rt_ivars ro).
Proof.
  intros Hl Hmax. destruct (reconcile_layout super_ro ro Hl Hmax) as (diff & H0 & H1 & H2 & H3 & H4 & H5).
  simpl. split_and!; [done|done|lia| |exists diff; split_and!; [lia|done|done]].
  intros Hle%Z.leb_le. unfold reconcileInstanceVariables. by rewrite Hle.
Qed.

(** ** The classes of the lowered files *)

Definition rt_ivar (iv : _ivar_t) : ivar_t :=
  mk_ivar_t (Some (ivar_offset iv)) (ivar_name iv) (ivar_alignment iv) (ivar_size iv).

Definition rt_of (r : _class_ro_t) : class_ro_t :=
  mk_class_ro (instanceStart r) (instanceSize r) (map rt_ivar <$> (entries <$> ivars r)).

Section Realize.
(** The sizes of the framework classes are whatever the system says. *)
Context (import_size : string -> Z) (Hsize : forall s, 0 <= import_size s <= 2 ^ 20).

(** Superclasses are realized first. *)
Fixpoint realize (k : nat) (S : metadata) (sym : string) : option class_ro_t :=
  match k with
  | O => None
  | S k' =>
      match classes S !! sym with
      | None => if decide (sym ∈ map class_sym imported) then Some (mk_class_ro 0 (import_size sym) None) else None
      | Some c =>
          match superclass c with
          | Some p =>
              match realize k' S p with
              | Some sup => Some (reconcileInstanceVariables sup (rt_of (ro c)))
              | None => None
              end
          | None => None
          end
      end
  end.

(** What the class objects of the program satisfy before any sliding. *)
Definition compiled_ok (c : _class_t) : bool :=
  (0 <=? instanceStart (ro c)) && (instanceStart (ro c) <=? instanceSize (ro c)) &&
  (instanceSize (ro c) <=? 2 ^ 16) &&
  forallb (fun iv => (0 <=? ivar_alignment iv) && (ivar_alignment iv <=? 16) && (0 <=? ivar_size iv)) (ivars_of (ro c)) &&
  bool_decide (ro_layout_ok (ro c)).

Lemma placed_of_between lo l hi : ivars_between lo l hi -> Forall (fun iv => 0 <= ivar_size iv) l ->
  placed lo (map rt_ivar l) hi.
Proof.
  revert lo. induction l as [|iv l IH]; intros lo; simpl; [done|].
  intros [H1 H2] [H3 H4]%Forall_cons. split_and!; [done|done|by apply IH].
Qed.

Lemma compiled_layout c : compiled_ok c = true -> rt_layout_ok (rt_of (ro c)) /\ rt_instanceSize (rt_of (ro c)) <= 2 ^ 16.
Proof.
  unfold compiled_ok. rewrite !andb_true_iff. intros [[[[H0 H1] Hsz] H2] Hlay]. zbool.
  rewrite forallb_forall in H2. apply bool_decide_eq_true in Hlay as (Hiv & Hb & _).
  split; [|done]. split; [done|]. simpl.
  unfold ivars_of in *. destruct (ivars (ro c)) as [l|]; [|done]. simpl in *.
  assert (Hs : Forall (fun iv => 0 <= ivar_alignment iv <= 16 /\ 0 <= ivar_size iv) (entries l)).
  { apply Forall_forall. intros iv Hin%list_elem_of_In. apply H2 in Hin. zbool. lia. }
  split_and!.
  - apply placed_of_between; [done|]. eapply Forall_impl; [exact Hs|]. simpl. tauto.
  - apply Forall_forall. intros iv' (iv & -> & Hin)%list_elem_of_fmap. rewrite Forall_forall in Hiv, Hs.
    specialize (Hiv iv Hin). specialize (Hs iv Hin). unfold ivar_ok in Hiv. unfold aligned. simpl.
    destruct (type_ctype (ivar_type iv)) as [t|]; [|done]. destruct Hiv as (_ & Hal & Hoff).
    unfold alignment. simpl. destruct (ivar_alignment iv =? u32 (Z.lnot 0)) eqn:E; zbool.
    + rewrite E in Hs. vm_compute in Hs. destruct Hs as [[_ Hs] _]. by destruct Hs.
    + rewrite Z.shiftl_1_l, Hal. rewrite wrap_id; [done|]. unfold in_u. destruct t; simpl; lia.
  - apply Forall_forall. intros iv' (iv & -> & Hin)%list_elem_of_fmap. rewrite Forall_forall in Hs.
    left. simpl. apply Hs in Hin. lia.
Qed.

Lemma realize_ok k S sym :
  (forall s c, classes S !! s = Some c -> compiled_ok c = true) -> (k <= 20)%nat ->
  forall r, realize k S sym = Some r ->
  rt_layout_ok r /\ rt_instanceSize r <= 2 ^ 20 + Z.of_nat k * 2 ^ 19.
Proof.
  intros HS. revert sym. induction k as [|k IH]; intros sym Hk r; [discriminate|]. cbn [realize].
  destruct (classes S !! sym) as [c|] eqn:Ec.
  - destruct (superclass c) as [p|]; [|discriminate].
    destruct (realize k S p) as [sup|] eqn:Es; [|discriminate]. intros [= <-].
    destruct (IH p ltac:(lia) sup Es) as [Hsup Hsize']. destruct (compiled_layout c (HS _ _ Ec)) as [Hl Hown].
    change (2 ^ 20) with 1048576 in *. change (2 ^ 19) with 524288 in *. change (2 ^ 16) with 65536 in *.
    destruct (reconcile_layout sup (rt_of (ro c)) Hl) as (diff & Hd & _ & _ & H3 & _ & H5).
    { change (2 ^ 17) with 131072. change (2 ^ 32) with 4294967296. lia. }
    simpl in H3, Hown. change (2 ^ 16) with 65536 in *. destruct Hsup as [Hsup _]. split; [done|]. rewrite H3. lia.
  - destruct (decide _); [|discriminate]. intros [= <-]. simpl. pose proof (Hsize sym).
    split; [split; simpl; [lia|done]|lia].
Qed.

Lemma program_compiled_ok s c : classes (load_images images) !! s = Some c -> compiled_ok c = true.
Proof.
  assert (Hall : Forall (fun p => compiled_ok p.2 = true) (map_to_list (classes (load_images images))))
    by (apply (bool_decide_unpack _); vm_compute; exact I).
  rewrite Forall_forall in Hall. intros Hs. by apply (Hall (s, c)), elem_of_map_to_list.
Qed.

(** Every listed class is realized, whatever the framework sizes. *)
Fixpoint chain_ok (k : nat) (S : metadata) (sym : string) : bool :=
  match k with
  | O => false
  | S k' =>
      match classes S !! sym with
      | None => bool_decide (sym ∈ map class_sym imported)
      | Some c => match superclass c with Some p => chain_ok k' S p | None => false end
      end
  end.

Lemma realize_total k S sym : chain_ok k S sym = true -> is_Some (realize k S sym).
Proof.
  revert sym. induction k as [|k IH]; intros sym; cbn [chain_ok realize]; [discriminate|].
  destruct (classes S !! sym) as [c|].
  - destruct (superclass c) as [p|]; [|discriminate]. intros [r ->]%IH. eauto.
  - intros Hd%bool_decide_eq_true. rewrite decide_True by done. eauto.
Qed.

Lemma program_chains : Forall (fun img => Forall (fun sym =>
  chain_ok 20 (load_images images) sym = true) (img_classlist img)) images.
Proof. apply (bool_decide_unpack _). vm_compute. exact I. Qed.

Lemma realize_separate k S sym c :
  (forall s c, classes S !! s = Some c -> compiled_ok c = true) -> (k < 20)%nat ->
  chain_ok (Datatypes.S k) S sym = true -> classes S !! sym = Some c ->
  exists p sup r, superclass c = Some p /\ realize k S p = Some sup /\
    realize (Datatypes.S k) S sym = Some r /\
    rt_instanceSize sup <= rt_instanceStart r /\ rt_layout_ok r.
Proof.
  intros HS Hk Hch Hc. cbn [chain_ok realize] in *. rewrite Hc in *.
  destruct (superclass c) as [p|]; [|discriminate].
  destruct (realize_total _ _ _ Hch) as [sup Hsup]. rewrite Hsup.
  destruct (realize_ok k S p HS ltac:(lia) _ Hsup) as [_ Hsz].
  destruct (compiled_layout c (HS _ _ Hc)) as [Hl Hown].
  destruct (reconcile_layout sup (rt_of (ro c)) Hl) as (diff & _ & H1 & _ & _ & _ & H5).
  { change (2 ^ 19) with 524288 in *. change (2 ^ 20) with 1048576 in *. change (2 ^ 16) with 65536 in *.
    change (2 ^ 17) with 131072. change (2 ^ 32) with 4294967296. lia. }
  exists p, sup, (reconcileInstanceVariables sup (rt_of (ro c))). done.
Qed.

Lemma program_class_defined sym img : img ∈ images -> sym ∈ img_classlist img ->
  chain_ok 20 (load_images images) sym = true /\ is_Some (classes (load_images images) !! sym).
Proof.
  intros Himg Hsym. pose proof program_chains as Hch. rewrite Forall_forall in Hch.
  specialize (Hch img Himg). rewrite Forall_forall in Hch. specialize (Hch sym Hsym).
  pose proof images_linked as Hlk. rewrite Forall_forall in Hlk. specialize (Hlk img Himg) as (Hlk & _).
  rewrite Forall_forall in Hlk. specialize (Hlk sym Hsym). split; [exact Hch|]. revert Hlk.
  clear. generalize (load_images images) as S. intros S. unfold class_linked.
  destruct (classes S !! sym); [eauto|done].
Qed.

(** For every class of the lowered files and any sizes of the framework classes: once its
    superclasses are realized, the runtime's reconciliation leaves the class with a well-formed
    layout that starts at or after the end of its superclass, so no ivar of the program overlaps
    an inherited one. *)
Theorem program_ivars_separate (sym : string) (img : image) :
  img ∈ images -> sym ∈ img_classlist img ->
  exists c p sup r, classes (load_images images) !! sym = Some c /\ superclass c = Some p /\
    realize 19 (load_images images) p = Some sup /\ realize 20 (load_images images) sym = Some r /\
    rt_instanceSize sup <= rt_instanceStart r /\ rt_layout_ok r.
Proof.
  intros Himg Hsym. destruct (program_class_defined sym img Himg Hsym) as [Hch [c Hc]].
  destruct (realize_separate 19 _ sym c program_compiled_ok ltac:(lia) Hch Hc)
    as (p & sup & r & H1 & H2 & H3 & H4 & H5).
  exists c, p, sup, r. split_and!; [exact Hc|exact H1|exact H2|exact H3|exact H4|exact H5].
Qed.

End Realize.

(** A file that saw only the interface of its superclass lays its ivars over the
    superclass's; the runtime moves them behind. *)
Example sub_object_slides :
  OBJC_IVAR_SKSubObject__subObjectString = OBJC_IVAR_SKObjectObject__ObjectObjectString /\
  rt_ivars (reconcileInstanceVariables (rt_of _OBJC_CLASS_RO_SKObjectObject) (rt_of _OBJC_CLASS_RO_SKSubObject))
  = Some [mk_ivar_t (Some 16) "_subObjectString" 3 8; mk_ivar_t (Some 24) "_priObjectString" 3 8].
Proof. split; vm_compute; reflexivity. Qed.

Lemma reconcile_separates_witness :
  16 <= rt_instanceStart (reconcileInstanceVariables (rt_of _OBJC_CLASS_RO_SKObjectObject)
                            (rt_of _OBJC_CLASS_RO_SKSubObject)).
Proof.
  assert (Hl : rt_layout_ok (rt_of _OBJC_CLASS_RO_SKSubObject)).
  { apply (compiled_layout OBJC_CLASS_SKSubObject). vm_compute. reflexivity. }
  exact (proj1 (reconcile_separates (rt_of _OBJC_CLASS_RO_SKObjectObject)
    (rt_of _OBJC_CLASS_RO_SKSubObject) Hl eq_refl)).
Defined.

Lemma program_ivars_separate_witness :
  exists c p sup r, classes (load_images images) !! "OBJC_CLASS_$_SSDemo"%string = Some c /\
    superclass c = Some p /\
    realize (fun _ => 8) 19 (load_images images) p = Some sup /\
    realize (fun _ => 8) 20 (load_images images) "OBJC_CLASS_$_SSDemo" = Some r /\
    rt_instanceSize sup <= rt_instanceStart r /\ rt_layout_ok r.
Proof.
  apply (program_ivars_separate (fun _ => 8) ltac:(intros; split; vm_compute; discriminate)
    "OBJC_CLASS_$_SSDemo" image_SSbDemo).
  - unfold images. in_list.
  - in_list.
Defined.
