(* ===== verification/MethodList.v ===== *)
(** * Method lists

    The runtime's method lists (objc-runtime-new.mm and .h): the array of lists
    of a class, the sorting of a list by selector address when it is installed,
    the binary search in a sorted list, and how the lists of categories are put
    in front of the lists of the class. *)

From Stdlib Require Import ZArith Lia Bool String Sorted Permutation.
From stdpp Require Import base list gmap strings.
From S2P Require Import Prelude ObjCData.

Local Open Scope Z_scope.

(** ** [list_array_tt]: no list, one list or an array of lists *)

Inductive list_array_tt (A : Type) :=
| la_list (l : option A)
| la_array (lists : list A).
Arguments la_list {A}. Arguments la_array {A}.

(** The lists from [beginLists] to [endLists]. *)
Definition lists_of {A} (la : list_array_tt A) : list A :=
  match la with la_array ls => ls | la_list (Some l) => [l] | la_list None => [] end.

Definition attachLists {A} (addedLists : list A) (la : list_array_tt A) : list_array_tt A :=
  match addedLists with
  | [] => la
  | _ =>
      match la with
      | la_array lists => la_array (addedLists ++ lists)
      | la_list None =>
          match addedLists with [l] => la_list (Some l) | _ => la_array addedLists end
      | la_list (Some oldList) => la_array (addedLists ++ [oldList])
      end
  end.

Lemma lists_of_attachLists {A} (added : list A) la :
  lists_of (attachLists added la) = added ++ lists_of la.
Proof. destruct added as [|a [|b added]], la as [[l|]|ls]; simpl; by rewrite ?app_nil_r. Qed.

(** ** A method list *)

Record method_list_t := mk_mlist { isFixedUp : bool; ml_list : ent_list _objc_method }.

Definition mlist_methods (mlist : method_list_t) : list _objc_method := entries (ml_list mlist).

(** The linear search: the first method with the selector. *)
Definition find_method (sel : string) (l : list _objc_method) : option _objc_method :=
  match List.filter (fun m => String.eqb (_cmd m) sel) l with m :: _ => Some m | [] => None end.

(** The same search, with the position of the method. *)
Fixpoint find_index (sel : string) (l : list _objc_method) : option nat :=
  match l with
  | [] => None
  | m :: l' => if String.eqb (_cmd m) sel then Some 0%nat else S <$> find_index sel l'
  end.

Lemma find_index_method sel l : find_index sel l ≫= (l !!.) = find_method sel l.
Proof.
  unfold find_method. induction l as [|m l IH]; [done|]. simpl. destruct (String.eqb _ _); [done|].
  rewrite <- IH. by destruct (find_index sel l).
Qed.

Lemma find_index_lookup sel l i : find_index sel l = Some i -> exists m, l !! i = Some m /\ _cmd m = sel.
Proof.
  revert i. induction l as [|x l IH]; intros i; simpl; [done|].
  destruct (String.eqb _ _) eqn:Ex; [apply String.eqb_eq in Ex; intros [= <-]; eauto|].
  destruct (find_index sel l) as [j|]; [|done]. intros [= <-]. by apply IH.
Qed.

Section Addresses.
(** The address of the uniqued selector of a name; two names have the same
    selector only if they are equal. *)
Context (sel_addr : string -> Z).

Definition name_addr (m : _objc_method) : Z := sel_addr (_cmd m).

(** *** Sorting: [std::stable_sort] with [SortBySELAddress] *)

Definition SortBySELAddress (lhs rhs : _objc_method) : bool := name_addr lhs <? name_addr rhs.

Fixpoint insert_stable (m : _objc_method) (l : list _objc_method) : list _objc_method :=
  match l with
  | [] => [m]
  | x :: l' => if SortBySELAddress x m then x :: insert_stable m l' else m :: l
  end.

Definition stable_sort (l : list _objc_method) : list _objc_method := foldr insert_stable [] l.

(** The selectors of the list are uniqued, the list is sorted and marked. *)
Definition fixupMethodList (mlist : method_list_t) (sort : bool) : method_list_t :=
  let l := ml_list mlist in
  mk_mlist true (mk_list (entsize l) (count l) (if sort then stable_sort (entries l) else entries l)).

(** The custom-retain/release and custom-alloc flags of the class are not part
    of the method lists. *)
Definition prepareMethodLists (added : list method_list_t) : list method_list_t :=
  map (fun mlist => if isFixedUp mlist then mlist else fixupMethodList mlist true) added.

(** *** The binary search

    A pointer to a method of a list is its position in the list. *)

(** Back to the first occurrence. *)
Fixpoint rewind (l : list _objc_method) (keyValue : Z) (probe : nat) : nat :=
  match probe with
  | O => O
  | S p =>
      match l !! p with
      | Some m => if keyValue =? name_addr m then rewind l keyValue p else probe
      | None => probe
      end
  end.

Fixpoint find_sorted (k : nat) (l : list _objc_method) (keyValue : Z) (base count : nat)
  : outcome (option nat) :=
  match k with
  | O => OutOfFuel
  | S k' =>
      if (count =? 0)%nat then Ret None else
      let probe := (base + count / 2)%nat in
      match l !! probe with
      | None => Fault
      | Some m =>
          if keyValue =? name_addr m then Ret (Some (rewind l keyValue probe))
          else if name_addr m <? keyValue then find_sorted k' l keyValue (probe + 1) ((count - 1) / 2)
          else find_sorted k' l keyValue base (count / 2)
      end
  end.

(** [count] is a 32-bit integer that is halved: 33 rounds are enough. *)
Definition findMethodInSortedMethodList (key : string) (l : list _objc_method) : outcome (option nat) :=
  find_sorted 33 l (sel_addr key) 0 (length l).

Definition search_method_list (mlist : method_list_t) (sel : string) : outcome (option nat) :=
  if isFixedUp mlist && (entsize (ml_list mlist) =? sizeof_struct _objc_method_struct)
  then findMethodInSortedMethodList sel (mlist_methods mlist)
  else Ret (find_index sel (mlist_methods mlist)).

Fixpoint search_lists (lists : list method_list_t) (sel : string) : outcome (option _objc_method) :=
  match lists with
  | [] => Ret None
  | mlist :: lists' =>
      obind (search_method_list mlist sel) (fun m =>
        match m with Some i => Ret (mlist_methods mlist !! i) | None => search_lists lists' sel end)
  end.

(** *** Categories and classes *)

Definition methodsForMeta (cat : _category_t) (isMeta : bool) : option method_list_t :=
  mk_mlist false <$> (if isMeta then class_methods cat else instance_methods cat).

(** [cats] is in load order, oldest first; the newest goes to the front. *)
Definition attachCategories (isMeta : bool) (cats : list _category_t) (methods : list_array_tt method_list_t)
  : list_array_tt method_list_t :=
  let mlists := omap (fun cat => methodsForMeta cat isMeta) (reverse cats) in
  attachLists (prepareMethodLists mlists) methods.

(** For the classes of the program, whose base lists come from the image and are not sorted
    yet, and which have a superclass: the +initialize that a root metaclass gets here is part of
    the [methodizeClass] of ClassChanges.v. *)
Definition methodizeClass (isMeta : bool) (baseMethods : option (ent_list _objc_method)) (cats : list _category_t)
  : list_array_tt method_list_t :=
  let methods :=
    match baseMethods with
    | Some l => attachLists (prepareMethodLists [mk_mlist false l]) (la_list None)
    | None => la_list None
    end in
  attachCategories isMeta cats methods.

(** ** The search in a sorted list *)

Definition addr_le (a b : _objc_method) : Prop := name_addr a <= name_addr b.

Lemma insert_stable_In m l x : In x (insert_stable m l) <-> x = m \/ In x l.
Proof.
  induction l as [|y l IH]; simpl; [intuition congruence|].
  destruct (SortBySELAddress y m); simpl; [rewrite IH|]; intuition congruence.
Qed.

Lemma insert_stable_sorted m l : StronglySorted addr_le l -> StronglySorted addr_le (insert_stable m l).
Proof.
  induction 1 as [|x l Hl IH Hx]; simpl; [repeat constructor|].
  unfold SortBySELAddress. destruct (_ <? _) eqn:E; zbool.
  - constructor; [done|]. apply List.Forall_forall. intros y [->|Hy]%insert_stable_In; [unfold addr_le; lia|].
    rewrite List.Forall_forall in Hx. by apply Hx.
  - constructor; [by constructor|]. constructor; [done|].
    eapply List.Forall_impl; [|exact Hx]. unfold addr_le. lia.
Qed.

Lemma stable_sort_sorted l : StronglySorted addr_le (stable_sort l).
Proof. induction l as [|m l IH]; simpl; [constructor|by apply insert_stable_sorted]. Qed.

(** Stability: the methods of one selector keep their order. *)
Lemma insert_stable_filter f m l : (forall x, f x = true -> f m = true -> name_addr x = name_addr m) ->
  List.filter f (insert_stable m l) = List.filter f (m :: l).
Proof.
  intros Hf. induction l as [|x l IH]; [done|]. simpl insert_stable.
  unfold SortBySELAddress. destruct (_ <? _) eqn:E; zbool; [|done].
  simpl in *. rewrite IH. destruct (f x) eqn:Ex, (f m) eqn:Em; try done. rewrite (Hf x) in E by done. lia.
Qed.

Lemma stable_sort_find sel l : find_method sel (stable_sort l) = find_method sel l.
Proof.
  unfold find_method. assert (He : List.filter (fun m => String.eqb (_cmd m) sel) (stable_sort l)
    = List.filter (fun m => String.eqb (_cmd m) sel) l); [|by rewrite He].
  induction l as [|m l IH]; [done|]. simpl stable_sort. rewrite insert_stable_filter.
  - simpl. by rewrite IH.
  - intros x Hx Hm. apply String.eqb_eq in Hx, Hm. unfold name_addr. congruence.
Qed.

Lemma sorted_lookup l i j a b : StronglySorted addr_le l -> l !! i = Some a -> l !! j = Some b ->
  (i <= j)%nat -> name_addr a <= name_addr b.
Proof.
  intros Hl. revert i j. induction Hl as [|x l Hl IH Hx]; intros i j; [done|].
  destruct i as [|i], j as [|j]; simpl; intros Ha Hb Hij; try lia.
  - simplify_eq. lia.
  - simplify_eq. rewrite List.Forall_forall in Hx. apply Hx. eapply list_elem_of_In, list_elem_of_lookup_2, Hb.
  - apply (IH i j); [done..|lia].
Qed.

(** The first position with the address, found by going back from any other. *)
Lemma rewind_first l kv p m : StronglySorted addr_le l -> l !! p = Some m -> name_addr m = kv ->
  exists r, rewind l kv p = r /\ (exists mr, l !! r = Some mr /\ name_addr mr = kv) /\
    forall i mi, (i < r)%nat -> l !! i = Some mi -> name_addr mi < kv.
Proof.
  intros Hl. revert m. induction p as [|p IH]; intros m Hm Hk.
  - exists 0%nat. split_and!; [done|eauto|lia].
  - simpl. destruct (l !! p) as [m'|] eqn:Hm'.
    + destruct (kv =? name_addr m') eqn:E; zbool; [by apply (IH m')|].
      exists (S p). split_and!; [done|eauto|]. intros i mi Hi Hmi.
      pose proof (sorted_lookup l i p mi m' Hl Hmi Hm' ltac:(lia)).
      pose proof (sorted_lookup l p (S p) m' m Hl Hm' Hm ltac:(lia)). lia.
    + apply lookup_ge_None in Hm'. apply lookup_lt_Some in Hm. lia.
Qed.

Context (Hinj : forall s t, sel_addr s = sel_addr t -> s = t).

Lemma find_index_at l sel r m : l !! r = Some m -> name_addr m = sel_addr sel ->
  (forall i mi, (i < r)%nat -> l !! i = Some mi -> name_addr mi < sel_addr sel) ->
  find_index sel l = Some r.
Proof.
  revert r. induction l as [|x l IH]; intros r Hr Hk Hlt; [done|]. simpl.
  destruct r as [|r]; simpl in Hr.
  - simplify_eq. apply Hinj in Hk. by rewrite Hk, String.eqb_refl.
  - specialize (Hlt 0%nat x ltac:(lia) eq_refl) as Hx.
    assert (String.eqb (_cmd x) sel = false) as ->.
    { apply String.eqb_neq. intros He. unfold name_addr in Hx. rewrite He in Hx. lia. }
    rewrite (IH r); [done..|]. intros i mi Hi Hmi. apply (Hlt (S i)); [lia|done].
Qed.

Lemma find_index_none l sel : (forall i mi, l !! i = Some mi -> name_addr mi <> sel_addr sel) ->
  find_index sel l = None.
Proof.
  intros Hn. induction l as [|x l IH]; [done|]. simpl.
  assert (String.eqb (_cmd x) sel = false) as ->.
  { apply String.eqb_neq. intros He. apply (Hn 0%nat x eq_refl). unfold name_addr. by rewrite He. }
  rewrite IH; [done|]. intros i mi. apply (Hn (S i)).
Qed.

(** The loop invariant: below [base] the addresses are smaller than the key,
    from [base + count] on they are larger. *)
Lemma find_sorted_spec k l sel base count :
  StronglySorted addr_le l -> Z.of_nat count < 2 ^ Z.of_nat k -> (base + count <= length l)%nat ->
  (forall i mi, (i < base)%nat -> l !! i = Some mi -> name_addr mi < sel_addr sel) ->
  (forall i mi, (base + count <= i)%nat -> l !! i = Some mi -> sel_addr sel < name_addr mi) ->
  find_sorted (S k) l (sel_addr sel) base count = Ret (find_index sel l).
Proof.
  intros Hl. revert base count. induction k as [|k IH]; intros base count Hk Hlen Hlo Hhi.
  - assert (count = 0)%nat as -> by lia. simpl. f_equal. symmetry. apply find_index_none.
    intros i mi Hi. destruct (decide (i < base)%nat) as [Hb|Hb].
    + specialize (Hlo i mi Hb Hi). lia.
    + specialize (Hhi i mi ltac:(lia) Hi). lia.
  - remember (S k) as k1. cbn [find_sorted]. subst k1. destruct (count =? 0)%nat eqn:E0.
    { apply Nat.eqb_eq in E0 as ->. f_equal. symmetry. apply find_index_none. intros i mi Hi.
      destruct (decide (i < base)%nat) as [Hb|Hb];
        [specialize (Hlo i mi Hb Hi)|specialize (Hhi i mi ltac:(lia) Hi)]; lia. }
    apply Nat.eqb_neq in E0. pose proof (Nat.div_lt count 2 ltac:(lia) ltac:(lia)) as Hdiv.
    pose proof (Nat.div_mod_eq count 2) as Hdm. pose proof (Nat.mod_upper_bound count 2 ltac:(lia)) as Hmod.
    destruct (lookup_lt_is_Some_2 l (base + count / 2)%nat) as [m Hm]; [lia|]. rewrite Hm.
    replace (Z.of_nat (S k)) with (Z.of_nat k + 1) in Hk by lia. rewrite Z.pow_add_r in Hk by lia.
    destruct (sel_addr sel =? name_addr m) eqn:E; zbool.
    { destruct (rewind_first l _ _ m Hl Hm (eq_sym E)) as (r & Hr & (mr & Hmr & Hkr) & Hlt).
      rewrite Hr. f_equal. symmetry. by eapply find_index_at. }
    destruct (name_addr m <? sel_addr sel) eqn:E1; zbool.
    + apply IH.
      * pose proof (Nat.div_mod_eq (count - 1) 2). lia.
      * pose proof (Nat.div_mod_eq (count - 1) 2). lia.
      * intros i mi Hi Hmi. pose proof (sorted_lookup l i _ mi m Hl Hmi Hm ltac:(lia)). lia.
      * intros i mi Hi Hmi. apply (Hhi i); [|done].
        pose proof (Nat.div_mod_eq (count - 1) 2). pose proof (Nat.mod_upper_bound (count - 1) 2 ltac:(lia)). lia.
    + apply IH; [lia|lia|done|]. intros i mi Hi Hmi.
      pose proof (sorted_lookup l _ i m mi Hl Hm Hmi ltac:(lia)). lia.
Qed.

Lemma findMethodInSortedMethodList_first sel l :
  StronglySorted addr_le l -> Z.of_nat (length l) < 2 ^ 32 ->
  findMethodInSortedMethodList sel l = Ret (find_index sel l).
Proof.
  intros Hl Hlen. apply (find_sorted_spec 32); [done|done|lia|lia|].
  intros i mi Hi Hmi. apply lookup_lt_Some in Hmi. lia.
Qed.

(** ** Lists as the runtime installs them *)

(** A list is searchable when the search in it is the linear one. *)
Definition searchable (mlist : method_list_t) : Prop :=
  forall sel, search_method_list mlist sel = Ret (find_index sel (mlist_methods mlist)).

Lemma stable_sort_length l : length (stable_sort l) = length l.
Proof.
  induction l as [|m l IH]; [done|]. simpl. rewrite <- IH. clear.
  induction (stable_sort l) as [|x t IH]; [done|]. simpl. destruct (SortBySELAddress x m); simpl; by rewrite ?IH.
Qed.

Lemma sorted_searchable mlist :
  StronglySorted addr_le (mlist_methods mlist) -> Z.of_nat (length (mlist_methods mlist)) < 2 ^ 32 ->
  searchable mlist.
Proof.
  intros Hs Hlen sel. unfold search_method_list. destruct (isFixedUp mlist && _); [|done].
  by apply findMethodInSortedMethodList_first.
Qed.

Lemma unfixed_searchable l : searchable (mk_mlist false l).
Proof. done. Qed.

Lemma fixup_searchable mlist : Z.of_nat (length (mlist_methods mlist)) < 2 ^ 32 ->
  searchable (fixupMethodList mlist true).
Proof.
  intros Hlen. apply sorted_searchable; unfold mlist_methods in *; simpl; [apply stable_sort_sorted|].
  by rewrite stable_sort_length.
Qed.

Lemma fixup_find mlist sel :
  find_method sel (mlist_methods (fixupMethodList mlist true)) = find_method sel (mlist_methods mlist).
Proof. apply stable_sort_find. Qed.

Lemma search_lists_cons mlist lists sel : searchable mlist ->
  search_lists (mlist :: lists) sel =
  match find_method sel (mlist_methods mlist) with Some m => Ret (Some m) | None => search_lists lists sel end.
Proof.
  intros Hm. cbn [search_lists]. rewrite Hm. simpl. rewrite <- find_index_method.
  destruct (find_index sel (mlist_methods mlist)) as [i|] eqn:Ei; [|done]. simpl.
  by destruct (find_index_lookup _ _ _ Ei) as (m & -> & _).
Qed.

Lemma find_method_app sel l1 l2 :
  find_method sel (l1 ++ l2) = match find_method sel l1 with Some m => Some m | None => find_method sel l2 end.
Proof. unfold find_method. rewrite List.filter_app. by destruct (List.filter _ l1). Qed.

(** The search over freshly prepared lists is a search over their concatenation. *)
Lemma search_prepared_app (ls : list (ent_list _objc_method)) (rest : list method_list_t) sel :
  Forall (fun l => Z.of_nat (length (entries l)) < 2 ^ 32) ls ->
  search_lists (prepareMethodLists (map (mk_mlist false) ls) ++ rest) sel =
  match find_method sel (concat (map entries ls)) with
  | Some m => Ret (Some m)
  | None => search_lists rest sel
  end.
Proof.
  induction 1 as [|l ls Hl Hls IH]; [done|].
  change (prepareMethodLists (map (mk_mlist false) (l :: ls)) ++ rest)
    with (fixupMethodList (mk_mlist false l) true :: (prepareMethodLists (map (mk_mlist false) ls) ++ rest)).
  rewrite search_lists_cons by (by apply fixup_searchable). rewrite fixup_find. simpl.
  rewrite find_method_app. unfold mlist_methods. simpl. by destruct (find_method sel (entries l)).
Qed.

Definition category_methods (isMeta : bool) (cat : _category_t) : option (ent_list _objc_method) :=
  if isMeta then class_methods cat else instance_methods cat.

Lemma omap_methodsForMeta isMeta cats :
  omap (fun cat => methodsForMeta cat isMeta) cats = map (mk_mlist false) (omap (category_methods isMeta) cats).
Proof.
  induction cats as [|c cats IH]; [done|]. csimpl. rewrite IH. unfold methodsForMeta, category_methods.
  by destruct isMeta; [destruct (class_methods c)|destruct (instance_methods c)].
Qed.

(** The methods of a class in the order of precedence: the newest category first,
    the methods of the class last. *)
Definition precedence (isMeta : bool) (baseMethods : option (ent_list _objc_method)) (cats : list _category_t)
  : list _objc_method :=
  concat (map entries (omap (category_methods isMeta) (reverse cats))) ++ from_option entries [] baseMethods.

Definition small_lists (isMeta : bool) (baseMethods : option (ent_list _objc_method)) (cats : list _category_t) : Prop :=
  Forall (fun l => Z.of_nat (length (entries l)) < 2 ^ 32)
    (omap (category_methods isMeta) (reverse cats) ++ option_list baseMethods).

Lemma methodizeClass_search isMeta base cats sel : small_lists isMeta base cats ->
  search_lists (lists_of (methodizeClass isMeta base cats)) sel
  = Ret (find_method sel (precedence isMeta base cats)).
Proof.
  intros [Hc Hb]%Forall_app. unfold methodizeClass, attachCategories, precedence.
  rewrite lists_of_attachLists, omap_methodsForMeta, search_prepared_app, find_method_app by done.
  destruct (find_method sel (concat _)); [done|]. destruct base as [l|]; [|done].
  rewrite lists_of_attachLists. change [mk_mlist false l] with (map (mk_mlist false) [l]).
  rewrite search_prepared_app by done. simpl. rewrite app_nil_r. by destruct (find_method sel (entries l)).
Qed.

(** C11. Method lookup in one class, as the runtime does it - selectors sorted by address with a
    stable sort, binary search with a rewind to the first match, the lists of the newest category
    in front - always terminates and finds exactly the first method with the selector in the order
    of precedence: newest category, ..., oldest category, the class itself.  The addresses of the
    selectors do not matter as long as different selectors have different addresses. *)
Theorem method_precedence (isMeta : bool) (base : option (ent_list _objc_method)) (cats : list _category_t)
    (sel : string) :
  small_lists isMeta base cats ->
  search_lists (lists_of (methodizeClass isMeta base cats)) sel
  = Ret (find_method sel (precedence isMeta base cats)).
Proof. apply methodizeClass_search. Qed.

(** Attaching categories one image at a time gives the same lists as attaching them all at
    once: what counts is only the order in which they are loaded. *)
Theorem attach_in_batches (isMeta : bool) (cats1 cats2 : list _category_t) (la : list_array_tt method_list_t) :
  lists_of (attachCategories isMeta cats2 (attachCategories isMeta cats1 la))
  = lists_of (attachCategories isMeta (cats1 ++ cats2) la).
Proof.
  unfold attachCategories. rewrite !lists_of_attachLists, reverse_app, omap_app.
  unfold prepareMethodLists. by rewrite map_app, app_assoc.
Qed.

End Addresses.

(** A concrete injective assignment of addresses: the name read as a number. *)
Fixpoint name_number (s : string) : Z :=
  match s with
  | EmptyString => 0
  | String c s' => name_number s' * 256 + Z.of_N (Ascii.N_of_ascii c) + 1
  end.

Lemma name_number_inj s t : name_number s = name_number t -> s = t.
Proof.
  assert (H0 : forall s, 0 <= name_number s).
  { clear. induction s as [|c s IH]; simpl; [lia|]. pose proof (N2Z.is_nonneg (Ascii.N_of_ascii c)). lia. }
  revert t. induction s as [|c s IH]; intros [|d t]; simpl; intros He; try done;
    try pose proof (Ascii.N_ascii_bounded c); try pose proof (Ascii.N_ascii_bounded d).
  - pose proof (H0 t). lia.
  - pose proof (H0 s). lia.
  - assert (name_number s = name_number t /\ Z.of_N (Ascii.N_of_ascii c) = Z.of_N (Ascii.N_of_ascii d))
      as [Hs Hc] by lia.
    f_equal; [|by apply IH]. apply N2Z.inj in Hc.
    rewrite <- (Ascii.ascii_N_embedding c), <- (Ascii.ascii_N_embedding d). by rewrite Hc.
Qed.

(** Three methods in reverse order of address and a category that overrides one. *)
Definition sample_methods : ent_list _objc_method :=
  mk_list 24 3 [mk_method "c" "v16@0:8" "f"; mk_method "b" "v16@0:8" "g"; mk_method "a" "v16@0:8" "h"]%string.

Definition sample_category : _category_t :=
  mk_category "X" None (Some (mk_list 24 1 [mk_method "b" "v16@0:8" "g2"])) None None.

Lemma method_precedence_witness :
  search_lists name_number (lists_of (methodizeClass name_number false (Some sample_methods) [sample_category])) "b"
  = Ret (Some (mk_method "b" "v16@0:8" "g2")).
Proof.
  rewrite (method_precedence name_number name_number_inj false (Some sample_methods) [sample_category] "b").
  - reflexivity.
  - repeat constructor.
Defined.
