(* ===== verification/ObjCRuntime.v ===== *)
(** * The runtime the lowered methods call

    The state the lowered code acts on - objects with ivars at byte offsets,
    associated objects, the calls to NSLog, retain and release in order - and
    the runtime entry points it uses: message dispatch through method lists and
    categories (objc-runtime-new.mm), property accessors (objc-accessors.mm),
    associated objects (objc-references.mm) and the NSObject methods
    (NSObject.mm).  What the frameworks (Foundation, UIKit) do is a
    parameter. *)

From Stdlib Require Import ZArith Lia Bool Ascii String.
From stdpp Require Import base list gmap strings.
From S2P Require Import Prelude ObjCData ObjCImagesSpec MethodList.

Local Open Scope Z_scope.

(** ** Values and state *)

(** A pointer-sized value: an integer (nil is 0), a selector, a class, a metaclass,
    an object on the heap, the address of a static object such as a
    constant string, or an address inside an object. *)
Inductive val :=
| VInt (z : Z)
| VSel (s : string)
| VClass (c : string)
| VMeta (c : string)
| VObj (o : positive)
| VStatic (label : string)
| VAddr (o : positive) (offset : Z).

Abbreviation nil := (VInt 0).

#[export] Instance val_eq_dec : EqDecision val.
Proof. solve_decision. Defined.

(** An instance: its class and its ivars by byte offset; memory starts zeroed. *)
Record obj := mk_obj { o_isa : string; o_slots : gmap Z val }.

Inductive event :=
| E_log (fmt : string) (args : list val)
| E_retain (v : val)
| E_release (v : val)
| E_autorelease (v : val).

(** What a method cache holds: a function of the program, a method of a framework
    class, or [_objc_msgForward_impcache]. *)
Inductive IMP := Imp (name : string) | FrameworkImp (sym : string) | Forward.

#[export] Instance IMP_eq_dec : EqDecision IMP.
Proof. solve_decision. Defined.

Record world := mk_world {
  heap : gmap positive obj;
  associations : gmap positive (gmap string (val * Z));
  events : list event;
  caches : gmap (string * string) IMP }.

(** ** The monad *)

Definition OM (A : Type) : Type := world -> outcome (A * world).

Definition oret {A} (a : A) : OM A := fun w => Ret (a, w).
Definition obnd {A B} (c : OM A) (k : A -> OM B) : OM B :=
  fun w => match c w with Ret (a, w') => k a w' | Fault => Fault | OutOfFuel => OutOfFuel end.
Definition ofault {A} : OM A := fun _ => Fault.
Definition otimeout {A} : OM A := fun _ => OutOfFuel.

Declare Scope objc_scope.
Delimit Scope objc_scope with objc.
Notation "'let*' x ':=' e 'in' k" := (obnd e (fun x => k))
  (at level 10, x pattern, e at level 100, k at level 200) : objc_scope.
Notation "e ;; k" := (obnd e (fun _ => k)) (at level 100, right associativity) : objc_scope.
Local Open Scope objc_scope.

Definition emit (e : event) : OM unit :=
  fun w => Ret (tt, mk_world (heap w) (associations w) (e :: events w) (caches w)).

(** The ivar at a byte offset from [self], read and written. *)
Definition load_slot (self : val) (offset : Z) : OM val :=
  fun w => match self with
  | VObj o =>
      match heap w !! o with
      | Some ob => Ret (default nil (o_slots ob !! offset), w)
      | None => Fault
      end
  | _ => Fault
  end.

Definition store_slot (self : val) (offset : Z) (v : val) : OM unit :=
  fun w => match self with
  | VObj o =>
      match heap w !! o with
      | Some ob =>
          Ret (tt, mk_world (<[o := mk_obj (o_isa ob) (<[offset := v]> (o_slots ob))]> (heap w))
                            (associations w) (events w) (caches w))
      | None => Fault
      end
  | _ => Fault
  end.

(** NSLog prints; what it is called with is the observation. *)
Definition NSLog (fmt : string) (args : list val) : OM unit := emit (E_log fmt args).

(** retain and release of nil do nothing. *)
Definition objc_retain (v : val) : OM val :=
  if decide (v = nil) then oret v else emit (E_retain v) ;; oret v.
Definition objc_release (v : val) : OM unit :=
  if decide (v = nil) then oret tt else emit (E_release v).
Definition objc_autorelease (v : val) : OM val :=
  if decide (v = nil) then oret v else emit (E_autorelease v) ;; oret v.

(** ** Message sends: the interface of an implementation

    An implementation receives the two senders, the receiver and the arguments. *)

Record senders := mk_senders {
  msgSend : val -> string -> list val -> OM val;
  msgSendSuper : string -> val -> string -> list val -> OM val }.

Definition imp : Type := senders -> val -> list val -> OM val.

(** What the program uses of the system: the addresses of the selectors, the size
    of the shared cache's class table, the superclasses and methods of framework
    classes, the framework methods and the forwarding machinery. *)
Record framework := mk_framework {
  sel_addr : string -> Z;
  getPreoptimizedClassUnreasonableCount : nat;
  fw_super : string -> option string;
  fw_responds : string -> string -> bool;
  fw_call : senders -> val -> string -> list val -> OM val;
  fw_forward : senders -> val -> string -> list val -> OM val }.

(** ** Method lookup (objc-runtime-new.mm) *)

Definition lift {A} (o : outcome A) : OM A :=
  fun w => match o with Ret a => Ret (a, w) | Fault => Fault | OutOfFuel => OutOfFuel end.

Definition cache_getImp (cls sel : string) : OM (option IMP) :=
  fun w => Ret (caches w !! (cls, sel), w).

(** [log_and_fill_cache] with logging off. *)
Definition cache_fill (cls sel : string) (i : IMP) : OM unit :=
  fun w => Ret (tt, mk_world (heap w) (associations w) (events w) (<[(cls, sel) := i]> (caches w))).

(** The methods of NSObject that NSObject.mm implements and the program sends. *)
Definition NSObject_selectors (isMeta : bool) : list string :=
  if isMeta then ["alloc"; "class"; "copy"; "copyWithZone:"; "resolveInstanceMethod:"; "resolveClassMethod:"]%string
  else ["init"; "class"; "copy"; "performSelector:"; "respondsToSelector:"; "forwardingTargetForSelector:"]%string.

Section Lookup.
(** The loaded class objects, the categories in load order, the system. *)
Context (S : metadata) (catlist : list string) (F : framework).

Definition is_meta (sym : string) : bool :=
  match classes S !! sym with
  | Some c => Z.odd (ro_flags (ro c))
  | None => bool_decide (sym = meta_sym "NSObject")
  end.

(** No category of the program is on a framework class other than NSObject. *)
Definition ISA (sym : string) : option string :=
  match classes S !! sym with
  | Some c => isa c
  | None => if decide (sym = class_sym "NSObject") then Some (meta_sym "NSObject") else None
  end.

(** The superclass of the root metaclass is the root class. *)
Definition superclass_of (sym : string) : option string :=
  match classes S !! sym with
  | Some c => superclass c
  | None =>
      if decide (sym = class_sym "NSObject") then None
      else if decide (sym = meta_sym "NSObject") then Some (class_sym "NSObject")
      else fw_super F sym
  end.

(** The categories of a class object: those on the class, for a metaclass those
    on the class it is the metaclass of. *)
Definition cats_of (sym : string) : list _category_t :=
  List.filter (fun k => bool_decide ((if is_meta sym then cls k ≫= ISA else cls k) = Some sym))
    (omap (fun k => categories S !! k) catlist).

Definition base_methods (sym : string) : option (ent_list _objc_method) :=
  match classes S !! sym with Some c => baseMethods (ro c) | None => None end.

Definition framework_responds (sym sel : string) : bool :=
  match classes S !! sym with
  | Some _ => false
  | None =>
      (bool_decide (sym = class_sym "NSObject") && bool_decide (sel ∈ NSObject_selectors false)) ||
      (bool_decide (sym = meta_sym "NSObject") && bool_decide (sel ∈ NSObject_selectors true)) ||
      fw_responds F sym sel
  end.

(** The method lists of a framework class hold its own methods, behind those of
    the program's categories. *)
Definition getMethodNoSuper_nolock (sym sel : string) : outcome (option IMP) :=
  obind (search_lists (sel_addr F)
           (lists_of (methodizeClass (sel_addr F) (is_meta sym) (base_methods sym) (cats_of sym))) sel)
    (fun m => Ret (match m with
      | Some m => Some (Imp (_imp m))
      | None => if framework_responds sym sel then Some (FrameworkImp sym) else None
      end)).

Definition unreasonableClassCount : nat :=
  (length (filter (fun p => Z.odd (ro_flags (ro p.2)) = false) (map_to_list (classes S)))
     + getPreoptimizedClassUnreasonableCount F + 1) * 16.

(** The loop over the superclasses; [n] is [attempts] after the decrement, and a
    chain that is too long is a fatal error.  A forward entry in the cache of a
    superclass ends the search without an answer. *)
Fixpoint search_superclasses (n : nat) (cls sel : string) (curClass : option string) : OM (option IMP) :=
  match curClass with
  | None => oret None
  | Some cur =>
      match n with
      | O => ofault
      | Datatypes.S n' =>
          let* c := cache_getImp cur sel in
          match c with
          | Some Forward => oret None
          | Some i => cache_fill cls sel i ;; oret (Some i)
          | None =>
              let* m := lift (getMethodNoSuper_nolock cur sel) in
              match m with
              | Some i => cache_fill cls sel i ;; oret (Some i)
              | None => search_superclasses n' cls sel (superclass_of cur)
              end
          end
      end
  end.

(** From the label [retry] to the resolver. *)
Definition retry (cls sel : string) : OM (option IMP) :=
  let* c := cache_getImp cls sel in
  match c with
  | Some i => oret (Some i)
  | None =>
      let* m := lift (getMethodNoSuper_nolock cls sel) in
      match m with
      | Some i => cache_fill cls sel i ;; oret (Some i)
      | None => search_superclasses (pred unreasonableClassCount) cls sel (superclass_of cls)
      end
  end.

(** [lookUpImpOrForward] with [resolver] off. *)
Definition lookUpImpNoResolver (cls sel : string) : OM IMP :=
  let* r := retry cls sel in
  match r with
  | Some i => oret i
  | None => cache_fill cls sel Forward ;; oret Forward
  end.

(** The class object as a receiver. *)
Definition class_value (sym : string) : val :=
  match classes S !! sym with
  | Some c => if is_meta sym then VMeta (ro_name (ro c)) else VClass (ro_name (ro c))
  | None => nil
  end.

Definition resolveInstanceMethod (snd : senders) (cls sel : string) : OM unit :=
  match ISA cls with
  | None => oret tt
  | Some icls =>
      let* i := lookUpImpNoResolver icls "resolveInstanceMethod:" in
      if decide (i = Forward) then oret tt else
      let* _ := msgSend snd (class_value cls) "resolveInstanceMethod:" [VSel sel] in
      lookUpImpNoResolver cls sel ;; oret tt
  end.

(** [cls] is a metaclass; the message goes to its class. *)
Definition resolveClassMethod (snd : senders) (cls sel : string) : OM unit :=
  let* i := lookUpImpNoResolver cls "resolveClassMethod:" in
  if decide (i = Forward) then oret tt else
  let nonmeta := match class_value cls with VMeta c => VClass c | v => v end in
  let* _ := msgSend snd nonmeta "resolveClassMethod:" [VSel sel] in
  lookUpImpNoResolver cls sel ;; oret tt.

Definition resolveMethod (snd : senders) (cls sel : string) : OM unit :=
  if negb (is_meta cls) then resolveInstanceMethod snd cls sel
  else
    resolveClassMethod snd cls sel ;;
    let* i := lookUpImpNoResolver cls sel in
    if decide (i = Forward) then resolveInstanceMethod snd cls sel else oret tt.

Definition lookUpImpOrForward (snd : senders) (cls sel : string) : OM IMP :=
  let* r := retry cls sel in
  match r with
  | Some i => oret i
  | None => resolveMethod snd cls sel ;; lookUpImpNoResolver cls sel
  end.

(** ** Message sends *)

Definition is_program_class (c : string) : bool :=
  match classes S !! class_sym c with Some _ => true | None => false end.

(** The class object a receiver dispatches through; the objects and classes of
    the frameworks dispatch on their own. *)
Definition receiver_class (w : world) (v : val) : option string :=
  match v with
  | VObj o => class_sym <$> (o_isa <$> heap w !! o)
  | VClass c => if is_program_class c then Some (meta_sym c) else None
  | VMeta _ => Some (meta_sym "NSObject")
  | _ => None
  end.

Context (imps : list (string * imp)).

Definition find_imp (name : string) : option imp :=
  match List.filter (fun p => String.eqb p.1 name) imps with (_, f) :: _ => Some f | [] => None end.

(** [class_createInstance]: a zeroed instance. *)
Definition class_createInstance (c : string) : OM val :=
  fun w =>
    let o := fresh (dom (heap w)) in
    Ret (VObj o, mk_world (<[o := mk_obj c ∅]> (heap w)) (associations w) (events w) (caches w)).

Definition object_getClass (self : val) : OM val :=
  fun w => match self with
  | VObj o => match heap w !! o with Some ob => Ret (VClass (o_isa ob), w) | None => Fault end
  | VClass c => Ret (VMeta c, w)
  | VMeta _ => Ret (VMeta "NSObject", w)
  | _ => Ret (nil, w)
  end.

(** [class_respondsToSelector_inst] *)
Definition responds (snd : senders) (self : val) (sel : string) : OM val :=
  fun w => match receiver_class w self with
  | Some c => obnd (lookUpImpOrForward snd c sel)
                (fun i => oret (VInt (if decide (i = Forward) then 0 else 1))) w
  | None => Fault
  end.

(** The methods of NSObject.mm that the program reaches, one by one. *)
Definition NSObject_class (isMeta : bool) (self : val) : OM val := if isMeta then oret self else object_getClass self.
Definition NSObject_resolveMethod : OM val := oret (VInt 0).
Definition NSObject_performSelector (snd : senders) (self : val) (sel : string) : OM val := msgSend snd self sel [].
Definition NSObject_forwardingTargetForSelector : OM val := oret nil.
Definition NSObject_copy (snd : senders) (isMeta : bool) (self : val) : OM val :=
  if isMeta then oret self else msgSend snd self "copyWithZone:" [nil].

(** Which of them a selector names; the allocation and the initialization. *)
Definition NSObject_method (snd : senders) (isMeta : bool) (self : val) (sel : string) (args : list val)
  : option (OM val) :=
  if isMeta then
    match self, args with
    | VClass c, [] =>
        if String.eqb sel "alloc" then Some (class_createInstance c)
        else if String.eqb sel "class" then Some (NSObject_class true self)
        else if String.eqb sel "copy" then Some (NSObject_copy snd true self) else None
    | _, [_] =>
        if String.eqb sel "copyWithZone:" then Some (oret self)
        else if String.eqb sel "resolveInstanceMethod:" || String.eqb sel "resolveClassMethod:"
        then Some NSObject_resolveMethod else None
    | _, _ => None
    end
  else
    match args with
    | [] =>
        if String.eqb sel "init" then Some (oret self)
        else if String.eqb sel "class" then Some (NSObject_class false self)
        else if String.eqb sel "copy" then Some (NSObject_copy snd false self)
        else None
    | [VSel s] =>
        if String.eqb sel "performSelector:" then Some (NSObject_performSelector snd self s)
        else if String.eqb sel "respondsToSelector:" then Some (responds snd self s)
        else if String.eqb sel "forwardingTargetForSelector:" then Some NSObject_forwardingTargetForSelector
        else None
    | _ => None
    end.

Definition call_imp (snd : senders) (i : IMP) (self : val) (sel : string) (args : list val) : OM val :=
  match i with
  | Imp name => match find_imp name with Some f => f snd self args | None => ofault end
  | FrameworkImp sym =>
      match (if decide (sym = class_sym "NSObject") then NSObject_method snd false self sel args
             else if decide (sym = meta_sym "NSObject") then NSObject_method snd true self sel args
             else None) with
      | Some r => r
      | None => fw_call F snd self sel args
      end
  | Forward => fw_forward F snd self sel args
  end.

(** [objc_msgSend] and [objc_msgSendSuper]; a message to nil returns 0.  [k]
    bounds the depth of nested sends. *)
Fixpoint runtime (k : nat) : senders :=
  match k with
  | O => mk_senders (fun _ _ _ => otimeout) (fun _ _ _ _ => otimeout)
  | Datatypes.S k' =>
      let snd := runtime k' in
      mk_senders
        (fun self sel args w =>
           if decide (self = nil) then Ret (nil, w)
           else match receiver_class w self with
                | Some cls => obnd (lookUpImpOrForward snd cls sel) (fun i => call_imp snd i self sel args) w
                | None => fw_call F snd self sel args w
                end)
        (fun cls self sel args =>
           match superclass_of (class_sym cls) with
           | Some sup => obnd (lookUpImpOrForward snd sup sel) (fun i => call_imp snd i self sel args)
           | None => ofault
           end)
  end.

End Lookup.

(** ** Properties (objc-accessors.mm) *)

Definition MUTABLE_COPY : Z := 2.

(** [object_setClass] *)
Definition object_setClass (self : val) (c : val) : OM unit :=
  fun w => match self, c with
  | VInt 0, _ => Ret (tt, w)
  | VObj o, VClass name =>
      match heap w !! o with
      | Some ob => Ret (tt, mk_world (<[o := mk_obj name (o_slots ob)]> (heap w)) (associations w) (events w) (caches w))
      | None => Fault
      end
  | _, _ => Fault
  end.

Definition objc_getProperty (self : val) (offset : Z) (atomic : bool) : OM val :=
  if offset =? 0 then object_getClass self else
  let* value := load_slot self offset in
  if negb atomic then oret value else
  let* value := objc_retain value in
  objc_autorelease value.

(** The slot lock of the atomic case brackets the exchange, which the sequential
    model makes in one step either way. *)
Definition reallySetProperty (snd : senders) (self newValue : val) (offset : Z)
    (atomic copy mutableCopy : bool) : OM unit :=
  if offset =? 0 then object_setClass self newValue else
  let exchange newValue :=
    let* oldValue := load_slot self offset in
    store_slot self offset newValue ;;
    objc_release oldValue in
  if copy then
    let* newValue := msgSend snd newValue "copyWithZone:" [nil] in exchange newValue
  else if mutableCopy then
    let* newValue := msgSend snd newValue "mutableCopyWithZone:" [nil] in exchange newValue
  else
    let* cur := load_slot self offset in
    if decide (cur = newValue) then oret tt else
    let* newValue := objc_retain newValue in exchange newValue.

Definition objc_setProperty (snd : senders) (self : val) (offset : Z) (newValue : val)
    (atomic : bool) (shouldCopy : Z) : OM unit :=
  let copy := negb (shouldCopy =? 0) && negb (shouldCopy =? MUTABLE_COPY) in
  let mutableCopy := shouldCopy =? MUTABLE_COPY in
  reallySetProperty snd self newValue offset atomic copy mutableCopy.

(** ** Associated objects (objc-references.mm) *)

(** The policies; 01401 and 01403 are octal. *)
Definition OBJC_ASSOCIATION_ASSIGN : Z := 0.
Definition OBJC_ASSOCIATION_RETAIN : Z := 0x301.
Definition OBJC_ASSOCIATION_COPY : Z := 0x303.

Definition OBJC_ASSOCIATION_SETTER_RETAIN : Z := 1.
Definition OBJC_ASSOCIATION_SETTER_COPY : Z := 3.
Definition OBJC_ASSOCIATION_GETTER_RETAIN : Z := Z.shiftl 1 8.
Definition OBJC_ASSOCIATION_GETTER_AUTORELEASE : Z := Z.shiftl 2 8.

Definition has_bits (policy bits : Z) : bool := negb (Z.land policy bits =? 0).

Definition acquireValue (snd : senders) (value : val) (policy : Z) : OM val :=
  if Z.land policy 0xFF =? OBJC_ASSOCIATION_SETTER_RETAIN then objc_retain value
  else if Z.land policy 0xFF =? OBJC_ASSOCIATION_SETTER_COPY then msgSend snd value "copy" []
  else oret value.

Definition releaseValue (value : val) (policy : Z) : OM unit :=
  if has_bits policy OBJC_ASSOCIATION_SETTER_RETAIN then objc_release value else oret tt.

(** The association that was replaced is released if it has a value. *)
Definition ReleaseValue (old_association : option (val * Z)) : OM unit :=
  match old_association with
  | Some (value, policy) => if decide (value = nil) then oret tt else releaseValue value policy
  | None => oret tt
  end.

(** The entry of [key] in the secondary table of [object]. *)
Definition assoc_find (w : world) (object : positive) (key : string) : option (val * Z) :=
  match associations w !! object with Some refs => refs !! key | None => None end.

Definition assoc_put (object : positive) (key : string) (e : val * Z) : OM unit :=
  fun w =>
    let refs := default ∅ (associations w !! object) in
    Ret (tt, mk_world (heap w) (<[object := <[key := e]> refs]> (associations w)) (events w) (caches w)).

Definition assoc_erase (object : positive) (key : string) : OM unit :=
  fun w => Ret (tt, mk_world (heap w) (alter (delete key) object (associations w)) (events w) (caches w)).

Definition assoc_get (object : positive) (key : string) : OM (option (val * Z)) :=
  fun w => Ret (assoc_find w object key, w).

(** [objc_getAssociatedObject] *)
Definition _object_get_associative_reference (object : val) (key : string) : OM val :=
  match object with
  | VObj o =>
      let* e := assoc_get o key in
      match e with
      | Some (value, policy) =>
          let* _ := if has_bits policy OBJC_ASSOCIATION_GETTER_RETAIN then objc_retain value else oret value in
          if negb (bool_decide (value = nil)) && has_bits policy OBJC_ASSOCIATION_GETTER_AUTORELEASE
          then objc_autorelease value else oret value
      | None => oret nil
      end
  | _ => oret nil
  end.

(** [objc_setAssociatedObject] on an object whose class allows it; a static or
    tagged receiver is not on the heap and is left out of the model. *)
Definition _object_set_associative_reference (snd : senders) (object : val) (key : string) (value : val)
    (policy : Z) : OM unit :=
  if decide (object = nil /\ value = nil) then oret tt else
  match object with
  | VObj o =>
      let* new_value := if decide (value = nil) then oret nil else acquireValue snd value policy in
      let* old := assoc_get o key in
      (if decide (new_value = nil) then
         match old with Some _ => assoc_erase o key | None => oret tt end
       else assoc_put o key (new_value, policy)) ;;
      ReleaseValue old
  | _ => ofault
  end.

Definition objc_getAssociatedObject := _object_get_associative_reference.
Definition objc_setAssociatedObject := _object_set_associative_reference.
