(* ===== verification/MethodCache.v ===== *)
(** * The method caches

    [lookUpImpOrForward] (objc-runtime-new.mm) answers from the caches of the
    class and of its superclasses where it can, fills them as it goes and caches
    failures too.  Here: the search without any cache, the invariant of the
    caches, and that the cached search computes the uncached one. *)

From Stdlib Require Import ZArith Lia Bool String.
From stdpp Require Import base list gmap strings.
From S2P Require Import Prelude ObjCData ObjCImages ObjCImagesSpec MethodList ObjCRuntime.

Local Open Scope Z_scope.

(** Use a known effect of [cache_fill]. *)
Local Ltac filled Hw := unfold cache_fill in Hw |- *; injection Hw as <-; simpl; eexists; split_and!; [reflexivity|done..].

(** Everything but the caches. *)
Definition same_state (w w' : world) : Prop :=
  heap w' = heap w /\ associations w' = associations w /\ events w' = events w.

#[export] Instance same_state_preorder : PreOrder same_state.
Proof.
  split; [done|]. intros w1 w2 w3 (H1 & H2 & H3) (H4 & H5 & H6).
  split_and!; by etrans.
Qed.

Section Cache.
Context (S : metadata) (catlist : list string) (F : framework).

Local Abbreviation getMethod := (getMethodNoSuper_nolock S catlist F).
Local Abbreviation super := (superclass_of S F).
Local Abbreviation bound := (unreasonableClassCount S F).

(** ** The search without caches *)

Fixpoint search_chain (n : nat) (cur : option string) (sel : string) : outcome (option IMP) :=
  match cur with
  | None => Ret None
  | Some c =>
      match n with
      | O => Fault
      | Datatypes.S n' =>
          obind (getMethod c sel) (fun m =>
            match m with Some i => Ret (Some i) | None => search_chain n' (super c) sel end)
      end
  end.

Definition lookup_method (cls sel : string) : outcome (option IMP) := search_chain bound (Some cls) sel.

Definition as_imp (r : option IMP) : IMP := default Forward r.

(** A cache entry is the answer of the search. *)
Definition coherent (w : world) : Prop :=
  forall cls sel i, caches w !! (cls, sel) = Some i ->
    exists r, lookup_method cls sel = Ret r /\ as_imp r = i.

Lemma coherent_caches w w' : caches w' = caches w -> coherent w -> coherent w'.
Proof. intros He Hc cls sel i. rewrite He. apply Hc. Qed.

Lemma bound_pos : exists n, bound = Datatypes.S n.
Proof. unfold unreasonableClassCount. destruct (_ + _ + _)%nat eqn:E; [lia|]. simpl. eauto. Qed.

Lemma getMethod_not_forward c sel : getMethod c sel <> Ret (Some Forward).
Proof.
  unfold getMethodNoSuper_nolock. destruct (search_lists _ _ _) as [[m|]| |]; simpl; try done.
  by destruct (framework_responds S F c sel).
Qed.

Lemma search_chain_not_forward n cur sel : search_chain n cur sel <> Ret (Some Forward).
Proof.
  revert cur. induction n as [|n IH]; intros [c|]; simpl; try done.
  pose proof (getMethod_not_forward c sel).
  destruct (getMethod c sel) as [[i|]| |]; simpl; first [apply IH|congruence].
Qed.

Lemma search_chain_mono n m cur sel r : search_chain n cur sel = Ret r -> (n <= m)%nat ->
  search_chain m cur sel = Ret r.
Proof.
  revert m cur. induction n as [|n IH]; intros m [c|] Hr Hm; simpl in Hr.
  - done.
  - by destruct m.
  - destruct m as [|m]; [lia|]. simpl.
    destruct (getMethod c sel) as [[i|]| |]; simpl in *; try done. apply IH; [done|lia].
  - by destruct m.
Qed.

Lemma as_imp_inj n m c c' sel sel' r r' : search_chain n c sel = Ret r -> search_chain m c' sel' = Ret r' ->
  as_imp r = as_imp r' -> r = r'.
Proof.
  intros H1 H2 He.
  pose proof (search_chain_not_forward n c sel). pose proof (search_chain_not_forward m c' sel').
  destruct r as [i|], r' as [j|]; simpl in He; congruence.
Qed.

(** ** Filling a cache *)

Lemma cache_fill_spec cls sel r w : coherent w -> lookup_method cls sel = Ret r ->
  exists w', cache_fill cls sel (as_imp r) w = Ret (tt, w') /\ same_state w w' /\ coherent w' /\
    caches w' !! (cls, sel) = Some (as_imp r).
Proof.
  intros Hc Hl. eexists. split_and!; [reflexivity|done| |].
  - intros c s i. simpl. destruct (decide ((cls, sel) = (c, s))) as [[= <- <-]|Hn].
    + rewrite lookup_insert_eq. intros [= <-]. eauto.
    + rewrite lookup_insert_ne by done. apply Hc.
  - simpl. by rewrite lookup_insert_eq.
Qed.

(** The loop over the superclasses, from [cur] on, when the classes before it
    have no such method. *)
Lemma search_superclasses_spec n cls sel cur r w :
  coherent w -> (n <= bound)%nat -> search_chain n cur sel = Ret r -> lookup_method cls sel = Ret r ->
  exists w', search_superclasses S catlist F n cls sel cur w = Ret (r, w') /\ same_state w w' /\ coherent w' /\
    (is_Some r -> caches w' !! (cls, sel) = Some (as_imp r)).
Proof.
  intros Hc Hn. revert cur Hn. induction n as [|n IH]; intros [c|] Hn Hr Hl; simpl in *; simplify_eq.
  - exists w. split_and!; [done..|]. by intros [? [=]].
  - unfold obnd, cache_getImp. destruct (caches w !! (c, sel)) as [i|] eqn:Ei.
    + destruct (Hc _ _ _ Ei) as (r0 & Hr0 & Hi).
      assert (r0 = r) as ->.
      { unfold lookup_method in Hr0. destruct bound as [|b]; [lia|].
        pose proof (search_chain_mono (Datatypes.S n) (Datatypes.S b) (Some c) sel r Hr Hn). congruence. }
      destruct (cache_fill_spec cls sel r w Hc Hl) as (w' & Hw & H1 & H2 & H3).
      destruct r as [j|]; simpl in *; subst i.
      * assert (j <> Forward) by (intros ->; by apply (search_chain_not_forward bound (Some c) sel)).
        destruct j; [..|done]; filled Hw.
      * exists w. split_and!; [done..|]. by intros [? [=]].
    + unfold lift. destruct (getMethod c sel) as [[i|]| |] eqn:Em; simpl in *; try done.
      * simplify_eq. destruct (cache_fill_spec cls sel (Some i) w Hc Hl) as (w' & Hw & H1 & H2 & H3).
        filled Hw.
      * apply IH; [lia|done|done].
  - exists w. split_and!; [done..|]. by intros [? [=]].
Qed.

Lemma retry_spec cls sel r w : coherent w -> lookup_method cls sel = Ret r ->
  exists r' w', retry S catlist F cls sel w = Ret (r', w') /\ as_imp r' = as_imp r /\ same_state w w' /\ coherent w' /\
    (is_Some r' -> caches w' !! (cls, sel) = Some (as_imp r)) /\
    (caches w !! (cls, sel) = None -> r' = r).
Proof.
  intros Hc Hl. unfold retry, obnd, cache_getImp. destruct (caches w !! (cls, sel)) as [i|] eqn:Ei.
  { destruct (Hc _ _ _ Ei) as (r0 & Hr0 & <-). rewrite Hl in Hr0. injection Hr0 as <-.
    exists (Some (as_imp r)), w. by rewrite Ei. }
  unfold lift. pose proof Hl as Hl'. unfold lookup_method in Hl'. destruct bound_pos as [b Hb]. rewrite Hb in *.
  simpl in Hl'. destruct (getMethod cls sel) as [[i|]| |] eqn:Em; simpl in *; try done.
  - simplify_eq. destruct (cache_fill_spec cls sel (Some i) w Hc Hl) as (w' & Hw & H1 & H2 & H3).
    exists (Some i). filled Hw.
  - destruct (search_superclasses_spec b cls sel (super cls) r w Hc ltac:(lia) Hl' Hl) as (w' & Hw & H1 & H2 & H3).
    exists r, w'. by split_and!.
Qed.

(** ** The cached search computes the uncached one *)

Lemma lookUpImpNoResolver_spec cls sel r w : coherent w -> lookup_method cls sel = Ret r ->
  exists w', lookUpImpNoResolver S catlist F cls sel w = Ret (as_imp r, w') /\ same_state w w' /\ coherent w' /\
    caches w' !! (cls, sel) = Some (as_imp r).
Proof.
  intros Hc Hl. destruct (retry_spec cls sel r w Hc Hl) as (r' & w' & Hw & Hr & H1 & H2 & H3 & _).
  unfold lookUpImpNoResolver, obnd. rewrite Hw. destruct r' as [i|]; simpl in *.
  - subst i. exists w'. split_and!; [done..|]. by apply H3.
  - destruct (cache_fill_spec cls sel r w' H2 Hl) as (w2 & Hw2 & H4 & H5 & H6). rewrite <- Hr in *.
    unfold cache_fill in Hw2. injection Hw2 as <-. eexists.
    split_and!; [reflexivity|by etrans|done|done].
Qed.

Lemma lookUpImpOrForward_found snd cls sel i w : coherent w -> lookup_method cls sel = Ret (Some i) ->
  exists w', lookUpImpOrForward S catlist F snd cls sel w = Ret (i, w') /\ same_state w w' /\ coherent w'.
Proof.
  intros Hc Hl. destruct (retry_spec cls sel (Some i) w Hc Hl) as (r' & w' & Hw & Hr & H1 & H2 & H3 & _).
  unfold lookUpImpOrForward, obnd. rewrite Hw. destruct r' as [j|]; simpl in *; subst; [by exists w'|].
  exfalso. by apply (search_chain_not_forward bound (Some cls) sel).
Qed.

(** The method caches are transparent: from coherent caches, [lookUpImpOrForward] finds for
    every class and selector exactly the method the search through the method lists of the class
    and its superclasses finds, whatever the caches hold (forward entries in superclasses included),
    leaves objects, associations and the log alone, and leaves the caches coherent; a selector the
    chain does not implement is cached as a forward entry. *)
Theorem method_cache_transparent (cls sel : string) (r : option IMP) (w : world) :
  coherent w -> lookup_method cls sel = Ret r ->
  (exists w', lookUpImpNoResolver S catlist F cls sel w = Ret (as_imp r, w') /\ same_state w w' /\ coherent w' /\
     caches w' !! (cls, sel) = Some (as_imp r)) /\
  (forall snd i, r = Some i ->
     exists w', lookUpImpOrForward S catlist F snd cls sel w = Ret (i, w') /\ same_state w w' /\ coherent w').
Proof.
  intros Hc Hl. split; [by apply lookUpImpNoResolver_spec|].
  intros snd i ->. by apply lookUpImpOrForward_found.
Qed.

(** A selector nobody implements: the resolver of the class is asked, and what it
    logs is the only effect. *)
Lemma lookUpImpOrForward_unimplemented snd cls sel icls i log w :
  coherent w -> is_meta S cls = false -> ISA S cls = Some icls -> caches w !! (cls, sel) = None ->
  lookup_method cls sel = Ret None -> lookup_method icls "resolveInstanceMethod:" = Ret (Some i) ->
  (forall w0, same_state w w0 -> coherent w0 ->
     exists v w1, msgSend snd (class_value S cls) "resolveInstanceMethod:" [VSel sel] w0 = Ret (v, w1) /\
       coherent w1 /\ heap w1 = heap w /\ associations w1 = associations w /\ events w1 = log ++ events w) ->
  exists w', lookUpImpOrForward S catlist F snd cls sel w = Ret (Forward, w') /\ coherent w' /\
    heap w' = heap w /\ associations w' = associations w /\ events w' = log ++ events w /\
    caches w' !! (cls, sel) = Some Forward.
Proof.
  intros Hc Hmeta Hisa Hnone Hl Hr Hres.
  destruct (retry_spec cls sel None w Hc Hl) as (r' & w1 & Hw1 & _ & Hs1 & Hc1 & _ & Hr').
  rewrite (Hr' Hnone) in Hw1.
  destruct (lookUpImpNoResolver_spec icls _ (Some i) w1 Hc1 Hr) as (w2 & Hw2 & Hs2 & Hc2 & _).
  destruct (Hres w2) as (v & w3 & Hw3 & Hc3 & Hh3 & Ha3 & He3); [by etrans|done|].
  destruct (lookUpImpNoResolver_spec cls sel None w3 Hc3 Hl) as (w4 & Hw4 & (Hh4 & Ha4 & He4) & Hc4 & _).
  destruct (lookUpImpNoResolver_spec cls sel None w4 Hc4 Hl) as (w5 & Hw5 & (Hh5 & Ha5 & He5) & Hc5 & Hf5).
  exists w5. split_and!; [|done|congruence..|done].
  unfold lookUpImpOrForward, resolveMethod, resolveInstanceMethod. rewrite Hmeta, Hisa. cbn [negb].
  unfold obnd. rewrite Hw1, Hw2. change (as_imp (Some i)) with i.
  rewrite decide_False by (intros ->; by apply (search_chain_not_forward bound (Some icls) "resolveInstanceMethod:")).
  rewrite Hw3, Hw4. unfold oret. by rewrite Hw5.
Qed.

(** ** The resolver runs once *)

Lemma search_superclasses_fills n cls sel cur w i w' :
  search_superclasses S catlist F n cls sel cur w = Ret (Some i, w') -> caches w' !! (cls, sel) = Some i.
Proof.
  revert cur. induction n as [|n IH]; intros [c|]; simpl; try done.
  unfold obnd, cache_getImp, cache_fill, lift. destruct (caches w !! (c, sel)) as [[]|]; simpl; try done.
  - intros [= <- <-]. apply lookup_insert_eq.
  - intros [= <- <-]. apply lookup_insert_eq.
  - destruct (getMethod c sel) as [[j|]| |]; simpl; try done; [|apply IH].
    intros [= <- <-]. apply lookup_insert_eq.
Qed.

Lemma retry_fills cls sel w i w' : retry S catlist F cls sel w = Ret (Some i, w') ->
  caches w' !! (cls, sel) = Some i.
Proof.
  unfold retry, obnd, cache_getImp, lift. destruct (caches w !! (cls, sel)) as [j|] eqn:Ej; simpl.
  { by intros [= <- <-]. }
  destruct (getMethod cls sel) as [[j|]| |]; simpl; try done; [|apply search_superclasses_fills].
  intros [= <- <-]. apply lookup_insert_eq.
Qed.

Lemma lookUpImpNoResolver_fills cls sel w i w' : lookUpImpNoResolver S catlist F cls sel w = Ret (i, w') ->
  caches w' !! (cls, sel) = Some i.
Proof.
  unfold lookUpImpNoResolver, obnd. destruct (retry _ _ _ _ _ w) as [[[j|] w1]| |] eqn:Er; try done.
  - intros [= <- <-]. by eapply retry_fills.
  - unfold cache_fill. intros [= <- <-]. apply lookup_insert_eq.
Qed.

(** Whatever a lookup answered - a method or, after the resolver was asked, the forwarding
    entry - the next lookup of the same selector in the same class gives the same answer from the
    cache, without running the resolver and without any effect. *)
Theorem lookup_answers_once (snd snd' : senders) (cls sel : string) (w w' : world) (i : IMP) :
  lookUpImpOrForward S catlist F snd cls sel w = Ret (i, w') ->
  lookUpImpOrForward S catlist F snd' cls sel w' = Ret (i, w').
Proof.
  intros Hl. assert (Hc : caches w' !! (cls, sel) = Some i).
  { revert Hl. unfold lookUpImpOrForward, obnd. destruct (retry _ _ _ _ _ w) as [[[j|] w1]| |] eqn:Er; try done.
    - intros [= <- <-]. by eapply retry_fills.
    - destruct (resolveMethod _ _ _ _ _ _ w1) as [[[] w2]| |]; try done. apply lookUpImpNoResolver_fills. }
  unfold lookUpImpOrForward, retry, obnd, cache_getImp. by rewrite Hc.
Qed.

End Cache.
