(* ===== verification/LoweredMethods.v ===== *)
(** * The methods of the lowered files

    One definition per method implementation of the *-arm64.cpp files (those of
    the block files are in their own component), with the message sends, ivar
    accesses and runtime calls of its body in order.  A constant string is its
    label without the folder prefix and hash; [snd] sends messages.  The value of
    a [void] function is 0. *)

From Stdlib Require Import ZArith Lia Bool String.
From stdpp Require Import base list gmap strings.
From S2P Require Import Prelude ObjCData ObjCImages ObjCImagesSpec ObjCRuntime.

Local Open Scope Z_scope.
Local Open Scope string_scope.
Local Open Scope objc_scope.

Definition imp0 (f : senders -> val -> OM val) : imp := fun snd self _ => f snd self.
Definition imp1 (f : senders -> val -> val -> OM val) : imp :=
  fun snd self args => match args with a :: _ => f snd self a | [] => ofault end.

Definition void (c : OM unit) : OM val := c ;; oret nil.

Section Methods.
(** The value of the variable OBJC_IVAR_$_<class>$<ivar> at run time, and the
    Foundation function NSStringFromClass. *)
Context (OBJC_IVAR : string -> string -> Z) (NSStringFromClass : val -> val).

(** ** Object/SKObjectObject *)

Definition _I_SKObjectObject_printObjectObject (snd : senders) (self : val) : OM val :=
  NSLog "SKObjectObject_mi_0" [] ;;
  void (NSLog "SKObjectObject_mi_1" [self]).

Definition _C_SKObjectObject_thisisSuperMethod (snd : senders) (self : val) : OM val :=
  NSLog "SKObjectObject_mi_2" [] ;;
  void (NSLog "SKObjectObject_mi_3" [self]).

Definition _I_SKObjectObject_printClass (snd : senders) (self : val) : OM val :=
  NSLog "SKObjectObject_mi_4" [self] ;;
  oret self.

Definition _I_SKObjectObject_ObjectObjectString (snd : senders) (self : val) : OM val :=
  load_slot self (OBJC_IVAR "SKObjectObject" "_ObjectObjectString").

Definition _I_SKObjectObject_setObjectObjectString_ (snd : senders) (self ObjectObjectString : val) : OM val :=
  void (store_slot self (OBJC_IVAR "SKObjectObject" "_ObjectObjectString") ObjectObjectString).

(** ** Object/SKSubObject *)

Definition _I_SKSubObject_printSubObject (snd : senders) (self : val) : OM val :=
  void (NSLog "SKSubObject_mi_0" []).

Definition _C_SKSubObject_thisisSubMethod (snd : senders) (self : val) : OM val :=
  void (NSLog "SKSubObject_mi_1" []).

Definition _I_SKSubObject_init (snd : senders) (self : val) : OM val :=
  let* self := msgSendSuper snd "SKSubObject" self "init" [] in
  (if decide (self = nil) then oret tt else
     let* c1 := msgSend snd self "class" [] in
     let* c2 := msgSend snd self "class" [] in
     NSLog "SKSubObject_mi_2" [NSStringFromClass c1; c2] ;;
     let* c3 := msgSendSuper snd "SKSubObject" self "class" [] in
     let* c4 := msgSendSuper snd "SKSubObject" self "class" [] in
     NSLog "SKSubObject_mi_3" [NSStringFromClass c3; c4]) ;;
  oret self.

Definition _I_SKSubObject_subObjectString (snd : senders) (self : val) : OM val :=
  load_slot self (OBJC_IVAR "SKSubObject" "_subObjectString").

Definition _I_SKSubObject_setSubObjectString_ (snd : senders) (self subObjectString : val) : OM val :=
  void (store_slot self (OBJC_IVAR "SKSubObject" "_subObjectString") subObjectString).

Definition _I_SKSubObject_priObjectString (snd : senders) (self : val) : OM val :=
  load_slot self (OBJC_IVAR "SKSubObject" "_priObjectString").

Definition _I_SKSubObject_setPriObjectString_ (snd : senders) (self priObjectString : val) : OM val :=
  void (store_slot self (OBJC_IVAR "SKSubObject" "_priObjectString") priObjectString).

(** ** Block/BlockTest *)

Definition _I_SubDemo_testSetSubDemo (snd : senders) (self : val) : OM val :=
  void (NSLog "SubDemo_mi_0" []).

Definition _I_SubDemo_firstName (snd : senders) (self : val) : OM val :=
  load_slot self (OBJC_IVAR "SubDemo" "_firstName").

Definition _I_SubDemo_setFirstName_ (snd : senders) (self firstName : val) : OM val :=
  void (objc_setProperty snd self (OFFSETOFIVAR SubDemo_IMPL "_firstName") firstName false 1).

Definition _I_SSDemo_lastName (snd : senders) (self : val) : OM val :=
  load_slot self (OBJC_IVAR "SSDemo" "_lastName").

Definition _I_SSDemo_setLastName_ (snd : senders) (self lastName : val) : OM val :=
  void (objc_setProperty snd self (OFFSETOFIVAR SSDemo_IMPL "_lastName") lastName false 1).

Definition _I_PropertyDemo_firstName (snd : senders) (self : val) : OM val :=
  load_slot self (OBJC_IVAR "PropertyDemo" "_firstName").

Definition _I_PropertyDemo_setFirstName_ (snd : senders) (self firstName : val) : OM val :=
  void (objc_setProperty snd self (OFFSETOFIVAR PropertyDemo_IMPL "_firstName") firstName false 1).

(** The body assigns the parameter to itself. *)
Definition _I_TestExpand_setMustProperty_ (snd : senders) (self mustProperty : val) : OM val :=
  NSLog "TestExpand_mi_0" [] ;;
  let mustProperty := mustProperty in
  oret nil.

Definition _I_TestExpand_mustProperty (snd : senders) (self : val) : OM val :=
  NSLog "TestExpand_mi_1" [] ;;
  load_slot self (OBJC_IVAR "TestExpand" "_mustProperty").

Definition _I_TestExpand_testExpanded (snd : senders) (self : val) : OM val :=
  void (NSLog "TestExpand_mi_2" []).

Definition _I_TestExpand_Additions_setMustProperty_ (snd : senders) (self mustProperty : val) : OM val :=
  NSLog "TestExpand_Additions_mi_0" [] ;;
  void (objc_setAssociatedObject snd self "thisisname" mustProperty OBJC_ASSOCIATION_COPY).

Definition _I_TestExpand_Additions_mustProperty (snd : senders) (self : val) : OM val :=
  NSLog "TestExpand_Additions_mi_1" [] ;;
  objc_getAssociatedObject self "thisisname".

Definition _I_TestExpand_Additions_testExpanded (snd : senders) (self : val) : OM val :=
  void (NSLog "TestExpand_Additions_mi_2" []).

Definition _I_NSObject_Addition_setMustBeCount_ (snd : senders) (self mustBeCount : val) : OM val :=
  void (objc_setAssociatedObject snd self "MustBeCount" mustBeCount OBJC_ASSOCIATION_COPY).

Definition _I_NSObject_Addition_mustBeCount (snd : senders) (self : val) : OM val :=
  objc_getAssociatedObject self "MustBeCount".

(** ** Property *)

Definition _I_SKTraggedPointTest_init (snd : senders) (self : val) : OM val :=
  let* self := msgSendSuper snd "SKTraggedPointTest" self "init" [] in
  (if decide (self = nil) then oret tt else
     let* number1 := msgSend snd (VClass "NSNumber") "numberWithInt:" [VInt 0] in
     let* bigNumber := msgSend snd (VClass "NSNumber") "numberWithLong:" [VInt 999999999999999] in
     let string := VStatic "SKTraggedPointTest_mi_0" in
     let* copy1 := msgSend snd string "mutableCopy" [] in
     let* longString := msgSend snd copy1 "copy" [] in
     let* mutableString := msgSend snd (VClass "NSMutableString") "stringWithString:" [string] in
     let* c1 := msgSend snd number1 "class" [] in
     NSLog "SKTraggedPointTest_mi_1" [c1] ;;
     let* c2 := msgSend snd bigNumber "class" [] in
     NSLog "SKTraggedPointTest_mi_2" [c2] ;;
     let* c3 := msgSend snd string "class" [] in
     NSLog "SKTraggedPointTest_mi_3" [c3] ;;
     let* c4 := msgSend snd longString "class" [] in
     NSLog "SKTraggedPointTest_mi_4" [c4]) ;;
  oret self.

Definition _I_SKTraggedPointTest_testIntValue (snd : senders) (self : val) : OM val :=
  let* _ := msgSend snd self "setIntValue:" [VInt 5] in
  void (store_slot self (OBJC_IVAR "SKTraggedPointTest" "_intValue") (VInt 15)).

Definition _I_SKTraggedPointTest_intValue (snd : senders) (self : val) : OM val :=
  load_slot self (OBJC_IVAR "SKTraggedPointTest" "_intValue").

Definition _I_SKTraggedPointTest_setIntValue_ (snd : senders) (self intValue : val) : OM val :=
  void (store_slot self (OBJC_IVAR "SKTraggedPointTest" "_intValue") intValue).

Definition _I_SKPropertyTestModel_title (snd : senders) (self : val) : OM val :=
  load_slot self (OBJC_IVAR "SKPropertyTestModel" "_title").

Definition _I_SKPropertyTestModel_setTitle_ (snd : senders) (self title : val) : OM val :=
  void (objc_setProperty snd self (OFFSETOFIVAR SKPropertyTestModel_IMPL "_title") title false 1).

Definition _I_SKPropertyTestModel_propertyTestString (snd : senders) (self : val) : OM val :=
  load_slot self (OBJC_IVAR "SKPropertyTestModel" "_propertyTestString").

Definition _I_SKProprtyModel_timeStamps (snd : senders) (self : val) : OM val :=
  load_slot self (OBJC_IVAR "SKProprtyModel" "instanceTimeStamps").

Definition _I_SKProprtyModel_setTimeStamps_ (snd : senders) (self timeStamps : val) : OM val :=
  void (objc_setProperty snd self (OFFSETOFIVAR SKProprtyModel_IMPL "instanceTimeStamps") timeStamps false 1).

Definition _I_SKProprtyModel_animal (snd : senders) (self : val) : OM val :=
  load_slot self (OBJC_IVAR "SKProprtyModel" "animal").

Definition _I_SKProprtyModel_setAnimal_ (snd : senders) (self animal : val) : OM val :=
  void (objc_setProperty snd self (OFFSETOFIVAR SKProprtyModel_IMPL "animal") animal false 1).

Definition _I_SKProprtyModel_mouse (snd : senders) (self : val) : OM val :=
  load_slot self (OBJC_IVAR "SKProprtyModel" "_mouse").

Definition _I_SKProprtyModel_setMouse_ (snd : senders) (self mouse : val) : OM val :=
  void (objc_setProperty snd self (OFFSETOFIVAR SKProprtyModel_IMPL "_mouse") mouse false 1).

Definition _I_SKProprtyModel_init (snd : senders) (self : val) : OM val :=
  let* self := msgSendSuper snd "SKProprtyModel" self "init" [] in
  (if decide (self = nil) then oret tt else
     let* _ := msgSend snd self "testIntValue" [] in oret tt) ;;
  oret self.

Definition _I_SKProprtyModel_testIntValue (snd : senders) (self : val) : OM val :=
  let* _ := msgSend snd self "setStringValue:" [VStatic "SKProprtyModel_mi_0"] in
  store_slot self (OBJC_IVAR "SKProprtyModel" "_stringValue") (VStatic "SKProprtyModel_mi_1") ;;
  let* s := msgSend snd self "stringValue" [] in
  let* i := load_slot self (OBJC_IVAR "SKProprtyModel" "_stringValue") in
  void (NSLog "SKProprtyModel_mi_2" [s; i]).

Definition _I_SKProprtyModel_upAndDown (snd : senders) (self : val) : OM val :=
  load_slot self (OBJC_IVAR "SKProprtyModel" "_upAndDown").

Definition _I_SKProprtyModel_setUpAndDown_ (snd : senders) (self upAndDown : val) : OM val :=
  void (objc_setProperty snd self (OFFSETOFIVAR SKProprtyModel_IMPL "_upAndDown") upAndDown false 1).

Definition _I_SKProprtyModel_foo (snd : senders) (self : val) : OM val :=
  load_slot self (OBJC_IVAR "SKProprtyModel" "_foo").

Definition _I_SKProprtyModel_setFoo_ (snd : senders) (self foo : val) : OM val :=
  void (objc_setProperty snd self (OFFSETOFIVAR SKProprtyModel_IMPL "_foo") foo false 1).

Definition _I_SKProprtyModel_stringValue (snd : senders) (self : val) : OM val :=
  load_slot self (OBJC_IVAR "SKProprtyModel" "_stringValue").

Definition _I_SKProprtyModel_setStringValue_ (snd : senders) (self stringValue : val) : OM val :=
  void (objc_setProperty snd self (OFFSETOFIVAR SKProprtyModel_IMPL "_stringValue") stringValue false 1).

Definition _I_SKPropertyVC_viewDidLoad (snd : senders) (self : val) : OM val :=
  let* _ := msgSendSuper snd "SKPropertyVC" self "viewDidLoad" [] in
  let* _ := msgSend snd self "setupViews" [] in
  let* _ := msgSend snd self "normalMethod" [] in
  let* _ := msgSend snd self "nssetMethod" [] in
  oret nil.

Definition _I_SKPropertyVC_setupViews (snd : senders) (self : val) : OM val :=
  let* view := msgSend snd self "view" [] in
  let* color := msgSend snd (VClass "UIColor") "whiteColor" [] in
  let* _ := msgSend snd view "setBackgroundColor:" [color] in
  oret nil.

Definition _I_SKPropertyVC_normalMethod (snd : senders) (self : val) : OM val :=
  let* string := msgSend snd (VClass "NSMutableString") "stringWithString:" [VStatic "SKPropertyVC_mi_0"] in
  let* stringCopy := msgSend snd string "copy" [] in
  let* _ := msgSend snd string "appendString:" [VStatic "SKPropertyVC_mi_1"] in
  let* stringNotCopy :=
    msgSend snd (VClass "NSMutableString") "stringWithString:" [VStatic "SKPropertyVC_mi_2"] in
  let stringNot := stringNotCopy in
  let* _ := msgSend snd stringNotCopy "appendString:" [VStatic "SKPropertyVC_mi_3"] in
  let immutableString := VStatic "SKPropertyVC_mi_4" in
  let* commtableString := msgSend snd immutableString "mutableCopy" [] in
  oret nil.

Definition _I_SKPropertyVC_nssetMethod (snd : senders) (self : val) : OM val := oret nil.

(** ** Runtime *)

Definition _I_SKRuntimePerson_takeAction (snd : senders) (self : val) : OM val :=
  let* a := msgSend snd (VClass "SKRuntimePerson") "alloc" [] in
  let* p := msgSend snd a "init" [] in
  let* q := msgSend snd p "personMethod" [] in
  let* motherInLow := msgSend snd q "motherMethod" [] in
  void (NSLog "SKRuntimePerson_mi_0" [motherInLow]).

Definition _I_SKRuntimePerson_personMethod (snd : senders) (self : val) : OM val := oret nil.

Definition _I_SKRuntimePerson_motherMethod (snd : senders) (self : val) : OM val := oret nil.

Definition _I_SKRuntimePerson_testMsgSendAction (snd : senders) (self : val) : OM val :=
  let* a := msgSend snd (VClass "SKRuntimePerson") "alloc" [] in
  let* p := msgSend snd a "init" [] in
  let* _ := msgSend snd p "performSelector:" [VSel "foo"] in
  let* _ := msgSend snd p "foo" [] in
  oret nil.

Definition _I_SKRuntimePerson_foo (snd : senders) (self : val) : OM val :=
  void (NSLog "SKRuntimePerson_mi_1" []).

Definition _I_SKMessageSendAction_takeActions (snd : senders) (self : val) : OM val :=
  let* _ := msgSend snd self "testUnrecognizedSelector" [] in
  oret nil.

(** The function returns YES at once; what follows the return never runs. *)
Definition _C_SKMessageSendAction_resolveInstanceMethod_ (snd : senders) (self sel : val) : OM val :=
  NSLog "SKMessageSendAction_mi_0" [] ;;
  oret (VInt 1).

Definition testMethod (snd : senders) (self : val) : OM val :=
  void (NSLog "SKMessageSendAction_mi_1" []).

(** The first return is the only one reached. *)
Definition _I_SKMessageSendAction_forwardingTargetForSelector_ (snd : senders) (self aSelector : val) : OM val :=
  NSLog "SKMessageSendAction_mi_2" [] ;;
  msgSendSuper snd "SKMessageSendAction" self "forwardingTargetForSelector:" [aSelector].

Definition _I_SKMessageSendAction_methodSignatureForSelector_ (snd : senders) (self aSelector : val) : OM val :=
  NSLog "SKMessageSendAction_mi_3" [] ;;
  let* a := msgSend snd (VClass "SKRuntimeOtherObject") "alloc" [] in
  let* obj := msgSend snd a "init" [] in
  if decide (aSelector = VSel "testUnrecognizedSelector") then
    msgSend snd obj "methodSignatureForSelector:" [VSel "stepThreeUnrecognizedSelector"]
  else msgSendSuper snd "SKMessageSendAction" self "methodSignatureForSelector:" [aSelector].

Definition _I_SKMessageSendAction_forwardInvocation_ (snd : senders) (self anInvocation : val) : OM val :=
  NSLog "SKMessageSendAction_mi_4" [] ;;
  let* sel := msgSend snd anInvocation "selector" [] in
  let* a := msgSend snd (VClass "SKRuntimeOtherObject") "alloc" [] in
  let* obj := msgSend snd a "init" [] in
  let* yes := msgSend snd obj "respondsToSelector:" [sel] in
  if decide (yes = VInt 0) then
    let* _ := msgSendSuper snd "SKMessageSendAction" self "forwardInvocation:" [anInvocation] in oret nil
  else
    let* _ := msgSend snd anInvocation "invokeWithTarget:" [obj] in oret nil.

Definition _I_NSObject_SKRuntimeAssociatedObject_setTimeValue_ (snd : senders) (self timeValue : val) : OM val :=
  void (objc_setAssociatedObject snd self "NSObject_SKRuntimeAssociatedObject_mi_0" timeValue
          OBJC_ASSOCIATION_COPY).

Definition _I_NSObject_SKRuntimeAssociatedObject_timeValue (snd : senders) (self : val) : OM val :=
  objc_getAssociatedObject self "NSObject_SKRuntimeAssociatedObject_mi_1".

Definition _I_NSObject_SKRuntimeAssociatedObject_setWeakVC_ (snd : senders) (self weakVC : val) : OM val :=
  void (objc_setAssociatedObject snd self "NSObject_SKRuntimeAssociatedObject_mi_2" weakVC
          OBJC_ASSOCIATION_ASSIGN).

Definition _I_NSObject_SKRuntimeAssociatedObject_weakVC (snd : senders) (self : val) : OM val :=
  objc_getAssociatedObject self "NSObject_SKRuntimeAssociatedObject_mi_3".

(** ** The functions the method lists name *)

Definition lowered_imps : list (string * imp) :=
  [("_I_SKObjectObject_printObjectObject", imp0 _I_SKObjectObject_printObjectObject);
   ("_C_SKObjectObject_thisisSuperMethod", imp0 _C_SKObjectObject_thisisSuperMethod);
   ("_I_SKObjectObject_printClass", imp0 _I_SKObjectObject_printClass);
   ("_I_SKObjectObject_ObjectObjectString", imp0 _I_SKObjectObject_ObjectObjectString);
   ("_I_SKObjectObject_setObjectObjectString_", imp1 _I_SKObjectObject_setObjectObjectString_);
   ("_I_SKSubObject_printSubObject", imp0 _I_SKSubObject_printSubObject);
   ("_C_SKSubObject_thisisSubMethod", imp0 _C_SKSubObject_thisisSubMethod);
   ("_I_SKSubObject_init", imp0 _I_SKSubObject_init);
   ("_I_SKSubObject_subObjectString", imp0 _I_SKSubObject_subObjectString);
   ("_I_SKSubObject_setSubObjectString_", imp1 _I_SKSubObject_setSubObjectString_);
   ("_I_SKSubObject_priObjectString", imp0 _I_SKSubObject_priObjectString);
   ("_I_SKSubObject_setPriObjectString_", imp1 _I_SKSubObject_setPriObjectString_);
   ("_I_SubDemo_testSetSubDemo", imp0 _I_SubDemo_testSetSubDemo);
   ("_I_SubDemo_firstName", imp0 _I_SubDemo_firstName);
   ("_I_SubDemo_setFirstName_", imp1 _I_SubDemo_setFirstName_);
   ("_I_SSDemo_lastName", imp0 _I_SSDemo_lastName);
   ("_I_SSDemo_setLastName_", imp1 _I_SSDemo_setLastName_);
   ("_I_PropertyDemo_firstName", imp0 _I_PropertyDemo_firstName);
   ("_I_PropertyDemo_setFirstName_", imp1 _I_PropertyDemo_setFirstName_);
   ("_I_TestExpand_setMustProperty_", imp1 _I_TestExpand_setMustProperty_);
   ("_I_TestExpand_mustProperty", imp0 _I_TestExpand_mustProperty);
   ("_I_TestExpand_testExpanded", imp0 _I_TestExpand_testExpanded);
   ("_I_TestExpand_Additions_setMustProperty_", imp1 _I_TestExpand_Additions_setMustProperty_);
   ("_I_TestExpand_Additions_mustProperty", imp0 _I_TestExpand_Additions_mustProperty);
   ("_I_TestExpand_Additions_testExpanded", imp0 _I_TestExpand_Additions_testExpanded);
   ("_I_NSObject_Addition_setMustBeCount_", imp1 _I_NSObject_Addition_setMustBeCount_);
   ("_I_NSObject_Addition_mustBeCount", imp0 _I_NSObject_Addition_mustBeCount);
   ("_I_SKTraggedPointTest_init", imp0 _I_SKTraggedPointTest_init);
   ("_I_SKTraggedPointTest_testIntValue", imp0 _I_SKTraggedPointTest_testIntValue);
   ("_I_SKTraggedPointTest_intValue", imp0 _I_SKTraggedPointTest_intValue);
   ("_I_SKTraggedPointTest_setIntValue_", imp1 _I_SKTraggedPointTest_setIntValue_);
   ("_I_SKPropertyTestModel_title", imp0 _I_SKPropertyTestModel_title);
   ("_I_SKPropertyTestModel_setTitle_", imp1 _I_SKPropertyTestModel_setTitle_);
   ("_I_SKPropertyTestModel_propertyTestString", imp0 _I_SKPropertyTestModel_propertyTestString);
   ("_I_SKProprtyModel_timeStamps", imp0 _I_SKProprtyModel_timeStamps);
   ("_I_SKProprtyModel_setTimeStamps_", imp1 _I_SKProprtyModel_setTimeStamps_);
   ("_I_SKProprtyModel_animal", imp0 _I_SKProprtyModel_animal);
   ("_I_SKProprtyModel_setAnimal_", imp1 _I_SKProprtyModel_setAnimal_);
   ("_I_SKProprtyModel_mouse", imp0 _I_SKProprtyModel_mouse);
   ("_I_SKProprtyModel_setMouse_", imp1 _I_SKProprtyModel_setMouse_);
   ("_I_SKProprtyModel_init", imp0 _I_SKProprtyModel_init);
   ("_I_SKProprtyModel_testIntValue", imp0 _I_SKProprtyModel_testIntValue);
   ("_I_SKProprtyModel_upAndDown", imp0 _I_SKProprtyModel_upAndDown);
   ("_I_SKProprtyModel_setUpAndDown_", imp1 _I_SKProprtyModel_setUpAndDown_);
   ("_I_SKProprtyModel_foo", imp0 _I_SKProprtyModel_foo);
   ("_I_SKProprtyModel_setFoo_", imp1 _I_SKProprtyModel_setFoo_);
   ("_I_SKProprtyModel_stringValue", imp0 _I_SKProprtyModel_stringValue);
   ("_I_SKProprtyModel_setStringValue_", imp1 _I_SKProprtyModel_setStringValue_);
   ("_I_SKPropertyVC_viewDidLoad", imp0 _I_SKPropertyVC_viewDidLoad);
   ("_I_SKPropertyVC_setupViews", imp0 _I_SKPropertyVC_setupViews);
   ("_I_SKPropertyVC_normalMethod", imp0 _I_SKPropertyVC_normalMethod);
   ("_I_SKPropertyVC_nssetMethod", imp0 _I_SKPropertyVC_nssetMethod);
   ("_I_SKRuntimePerson_takeAction", imp0 _I_SKRuntimePerson_takeAction);
   ("_I_SKRuntimePerson_personMethod", imp0 _I_SKRuntimePerson_personMethod);
   ("_I_SKRuntimePerson_motherMethod", imp0 _I_SKRuntimePerson_motherMethod);
   ("_I_SKRuntimePerson_testMsgSendAction", imp0 _I_SKRuntimePerson_testMsgSendAction);
   ("_I_SKRuntimePerson_foo", imp0 _I_SKRuntimePerson_foo);
   ("_I_SKMessageSendAction_takeActions", imp0 _I_SKMessageSendAction_takeActions);
   ("_C_SKMessageSendAction_resolveInstanceMethod_", imp1 _C_SKMessageSendAction_resolveInstanceMethod_);
   ("_I_SKMessageSendAction_forwardingTargetForSelector_", imp1 _I_SKMessageSendAction_forwardingTargetForSelector_);
   ("_I_SKMessageSendAction_methodSignatureForSelector_", imp1 _I_SKMessageSendAction_methodSignatureForSelector_);
   ("_I_SKMessageSendAction_forwardInvocation_", imp1 _I_SKMessageSendAction_forwardInvocation_);
   ("_I_NSObject_SKRuntimeAssociatedObject_setTimeValue_", imp1 _I_NSObject_SKRuntimeAssociatedObject_setTimeValue_);
   ("_I_NSObject_SKRuntimeAssociatedObject_timeValue", imp0 _I_NSObject_SKRuntimeAssociatedObject_timeValue);
   ("_I_NSObject_SKRuntimeAssociatedObject_setWeakVC_", imp1 _I_NSObject_SKRuntimeAssociatedObject_setWeakVC_);
   ("_I_NSObject_SKRuntimeAssociatedObject_weakVC", imp0 _I_NSObject_SKRuntimeAssociatedObject_weakVC)].

End Methods.
