(* ===== verification/LongestSubstring.v ===== *)
(** * -[SKBlockVC lengthOfLongestSubstring:]

    The two nested loops that compute the length of the longest substring
    without a repeated character, with the value they log in every round, and
    that they compute it.  A string is the list of its UTF-16 code units; length,
    substringWithRange: of one unit and isEqualToString: between such substrings
    are length, indexing and equality. *)

From Stdlib Require Import ZArith Lia Bool.
From stdpp Require Import base list.
From S2P Require Import Prelude.

Local Open Scope Z_scope.

Section Longest.
Context (str : list Z).

(** A one-unit range outside the string raises an exception. *)
Definition unit_at (k : Z) : outcome Z :=
  if (0 <=? k) && (k <? Z.of_nat (length str)) then
    match str !! Z.to_nat k with Some u => Ret u | None => Fault end
  else Fault.

(** The inner loop: the new [i] and the last [k]. *)
Fixpoint inner_loop (fuel : nat) (i j k : Z) : outcome (Z * Z) :=
  match fuel with
  | O => OutOfFuel
  | S fuel' =>
      if k <? j then
        obind (unit_at k) (fun str1 =>
        obind (unit_at j) (fun str2 =>
          if str1 =? str2 then Ret (s64 (k + 1), k) else inner_loop fuel' i j (s64 (k + 1))))
      else Ret (i, k)
  end.

(** What one round logs: [j], [i], [k] and the maximum so far. *)
Definition round : Type := Z * Z * Z * Z.

Fixpoint outer_loop (fuel : nat) (size i j max : Z) (log : list round) : outcome (Z * list round) :=
  match fuel with
  | O => OutOfFuel
  | S fuel' =>
      if j <? size then
        obind (inner_loop (S (length str)) i j i) (fun '(i, k) =>
          let log := log ++ [(j, i, k, max)] in
          let max := if max <? s64 (s64 (j - i) + 1) then s64 (s64 (j - i) + 1) else max in
          outer_loop fuel' size i (s64 (j + 1)) max log)
      else Ret (max, log)
  end.

Definition lengthOfLongestSubstring : outcome (Z * list round) :=
  let size := s64 (Z.of_nat (length str)) in
  outer_loop (S (length str)) size 0 0 0 [].

(** ** Correctness *)

(** No unit occurs twice from position [a] up to [b]. *)
Definition distinct (a b : nat) : Prop :=
  forall x y, (a <= x < y)%nat -> (y < b)%nat -> str !! x <> str !! y.

Lemma distinct_sub a a' b b' : distinct a b -> (a <= a')%nat -> (b' <= b)%nat -> distinct a' b'.
Proof. intros Hd Ha Hb x y Hxy Hy. apply Hd; lia. Qed.

Lemma distinct_NoDup a n : (a + n <= length str)%nat ->
  distinct a (a + n) <-> NoDup (take n (drop a str)).
Proof.
  intros Hlen. rewrite NoDup_alt. split.
  - intros Hd x y u Hx Hy. apply lookup_take_Some in Hx as [Hx Hxn], Hy as [Hy Hyn].
    rewrite lookup_drop in Hx, Hy.
    destruct (lt_eq_lt_dec x y) as [[Hlt|]|Hlt]; [|done|]; exfalso.
    + apply (Hd (a + x)%nat (a + y)%nat); [lia|lia|congruence].
    + apply (Hd (a + y)%nat (a + x)%nat); [lia|lia|congruence].
  - intros Hn x y Hxy Hy He.
    destruct (lookup_lt_is_Some_2 str x) as [u Hu]; [lia|].
    assert (Heq : (x - a)%nat = (y - a)%nat); [|lia].
    apply (Hn _ _ u); apply lookup_take_Some; (split; [|lia]); rewrite lookup_drop.
    + by replace (a + (x - a))%nat with x by lia.
    + replace (a + (y - a))%nat with y by lia. by rewrite <- He.
Qed.

Context (Hlen : Z.of_nat (length str) < 2 ^ 63).

Lemma s64_small z : 0 <= z <= Z.of_nat (length str) -> s64 z = z.
Proof. intros Hz. apply swrap_id; [lia|]. change (2 ^ (64 - 1)) with (2 ^ 63). lia. Qed.

Lemma unit_at_lookup k : (k < length str)%nat -> exists u, unit_at (Z.of_nat k) = Ret u /\ str !! k = Some u.
Proof.
  intros Hk. destruct (lookup_lt_is_Some_2 str k Hk) as [u Hu]. exists u. unfold unit_at.
  assert (E : (0 <=? Z.of_nat k) && (Z.of_nat k <? Z.of_nat (length str)) = true).
  { apply andb_true_iff. split; [apply Z.leb_le|apply Z.ltb_lt]; lia. }
  by rewrite E, Nat2Z.id, Hu.
Qed.

(** The inner loop finds the first unit from [k] on that equals the one at [j]. *)
Lemma inner_loop_spec fuel i j k :
  (k <= j)%nat -> (j < length str)%nat -> (j - k < fuel)%nat ->
  (exists k', (k <= k' < j)%nat /\ inner_loop fuel (Z.of_nat i) (Z.of_nat j) (Z.of_nat k)
                = Ret (Z.of_nat (S k'), Z.of_nat k') /\ str !! k' = str !! j) \/
  (inner_loop fuel (Z.of_nat i) (Z.of_nat j) (Z.of_nat k) = Ret (Z.of_nat i, Z.of_nat j) /\
   forall x, (k <= x < j)%nat -> str !! x <> str !! j).
Proof.
  revert k. induction fuel as [|fuel IH]; intros k Hk Hj Hf; [lia|]. cbn [inner_loop].
  destruct (Z.of_nat k <? Z.of_nat j) eqn:E; zbool.
  - destruct (unit_at_lookup k ltac:(lia)) as (u & Hu & Hku). destruct (unit_at_lookup j Hj) as (v & Hv & Hjv).
    rewrite Hu, Hv. cbn [obind]. destruct (u =? v) eqn:Euv; zbool.
    + left. exists k. split_and!; [lia|lia| |congruence].
      rewrite s64_small by lia. do 2 f_equal; lia.
    + rewrite s64_small by lia. replace (Z.of_nat k + 1) with (Z.of_nat (S k)) by lia.
      destruct (IH (S k)) as [(k' & Hk' & Hl & He)|[Hl Hn]]; [lia..| |].
      * left. exists k'. split_and!; [lia|lia|exact Hl|exact He].
      * right. split; [exact Hl|]. intros x Hx. destruct (decide (x = k)) as [->|]; [congruence|apply Hn; lia].
  - right. split; [do 2 f_equal; lia|lia].
Qed.

(** The window after the unit at [j] is added. *)
Definition window (i j : nat) : Prop :=
  (i <= j)%nat /\ distinct i j /\ forall a, (a < i)%nat -> ~ distinct a j.

Lemma window_step i j fuel : window i j -> (j < length str)%nat -> (length str < fuel)%nat ->
  exists i' k, inner_loop fuel (Z.of_nat i) (Z.of_nat j) (Z.of_nat i) = Ret (Z.of_nat i', k) /\ window i' (S j).
Proof.
  intros (Hij & Hd & Hmin) Hj Hf.
  destruct (inner_loop_spec fuel i j i) as [(k & Hk & Hl & He)|[Hl Hn]]; [lia..| |].
  - exists (S k), (Z.of_nat k). split; [exact Hl|]. split_and!; [lia| |].
    + intros x y Hxy Hy. destruct (decide (y = j)) as [->|].
      * rewrite <- He. intros Hx. apply (Hd k x); [lia|lia|done].
      * apply Hd; lia.
    + intros a Ha Hdist. apply (Hdist k j); [|lia|done].
      split; [lia|lia].
  - exists i, (Z.of_nat j). split; [exact Hl|]. split_and!; [lia| |].
    + intros x y Hxy Hy. destruct (decide (y = j)) as [->|]; [apply Hn; lia|apply Hd; lia].
    + intros a Ha Hdist. apply (Hmin a Ha). apply (distinct_sub a a (S j) j); [done|lia|lia].
Qed.

(** The longest run of distinct units that ends at or before [j]. *)
Definition longest_until (j m : nat) : Prop :=
  (exists a, (a + m <= j)%nat /\ distinct a (a + m)) /\
  forall a n, (a + n <= j)%nat -> distinct a (a + n) -> (n <= m)%nat.

Lemma longest_step i j m : window i (S j) -> longest_until j m ->
  longest_until (S j) (Nat.max m (S j - i)).
Proof.
  intros (Hij & Hd & Hmin) [(a & Ha & Hda) Hmax]. split.
  - destruct (Nat.max_spec m (S j - i)) as [[_ ->]|[_ ->]].
    + exists i. replace (i + (S j - i))%nat with (S j) by lia. split; [lia|done].
    + exists a. split; [lia|done].
  - intros b n Hb Hdist. destruct (decide (b + n <= j)%nat) as [Hle|].
    + specialize (Hmax b n Hle Hdist). lia.
    + assert (b + n = S j)%nat as He by lia. rewrite He in Hdist.
      destruct (decide (b < i)%nat) as [Hbi|]; [by destruct (Hmin b Hbi)|]. lia.
Qed.

Lemma outer_loop_spec fuel i j m log :
  window i j -> longest_until j m -> (j <= length str)%nat -> (length str - j < fuel)%nat ->
  exists m' log', outer_loop fuel (Z.of_nat (length str)) (Z.of_nat i) (Z.of_nat j) (Z.of_nat m) log
    = Ret (Z.of_nat m', log') /\ longest_until (length str) m' /\
    length log' = (length log + (length str - j))%nat.
Proof.
  revert i j m log. induction fuel as [|fuel IH]; intros i j m log Hw Hm Hj Hf; [lia|]. cbn [outer_loop].
  destruct (Z.of_nat j <? Z.of_nat (length str)) eqn:E; zbool.
  - destruct (window_step i j (S (length str)) Hw ltac:(lia) ltac:(lia)) as (i' & k & Hl & Hw'). rewrite Hl. cbn [obind].
    pose proof Hw' as (Hi' & _). pose proof (longest_step i' j m Hw' Hm) as Hm'.
    assert (Hmax : (if Z.of_nat m <? s64 (s64 (Z.of_nat j - Z.of_nat i') + 1)
      then s64 (s64 (Z.of_nat j - Z.of_nat i') + 1) else Z.of_nat m) = Z.of_nat (Nat.max m (S j - i'))).
    { assert (Hs : s64 (s64 (Z.of_nat j - Z.of_nat i') + 1) = Z.of_nat (S j - i')).
      { destruct (decide (i' = S j)) as [->|].
        - replace (Z.of_nat j - Z.of_nat (S j)) with (-1) by lia. rewrite (swrap_id 64 (-1)) by lia.
          rewrite swrap_id by lia. lia.
        - rewrite (s64_small (Z.of_nat j - Z.of_nat i')) by lia. rewrite s64_small by lia. lia. }
      rewrite Hs. destruct (_ <? _) eqn:Em; zbool; lia. }
    rewrite Hmax, s64_small by lia. replace (Z.of_nat j + 1) with (Z.of_nat (S j)) by lia.
    destruct (IH i' (S j) (Nat.max m (S j - i')) (log ++ [(Z.of_nat j, Z.of_nat i', k, Z.of_nat m)]))
      as (m' & log' & Hrun & Hfin & Hlog); [done|done|lia|lia|].
    exists m', log'. split_and!; [exact Hrun|exact Hfin|]. rewrite Hlog, length_app. simpl. lia.
  - assert (j = length str) as -> by lia. exists m, log. split_and!; [done|done|lia].
Qed.

(** C31. lengthOfLongestSubstring: terminates without an exception and returns the length of the
    longest substring with no repeated unit: some substring of that length has none, and none that
    is longer does; it logs one line per unit of the string. *)
Theorem lengthOfLongestSubstring_correct :
  exists m log, lengthOfLongestSubstring = Ret (Z.of_nat m, log) /\ length log = length str /\
    (exists a, (a + m <= length str)%nat /\ NoDup (take m (drop a str))) /\
    forall a n, (a + n <= length str)%nat -> NoDup (take n (drop a str)) -> (n <= m)%nat.
Proof.
  unfold lengthOfLongestSubstring. rewrite s64_small by lia.
  destruct (outer_loop_spec (S (length str)) 0 0 0 []) as (m & log & Hrun & [(a & Ha & Hd) Hmax] & Hlog).
  - split_and!; [lia|intros x y; lia|lia].
  - split; [exists 0%nat; split; [lia|intros x y; lia]|lia].
  - lia.
  - lia.
  - exists m, log. split_and!; [exact Hrun|rewrite Hlog; simpl; lia|exists a; split; [done|by apply distinct_NoDup]|].
    intros b n Hb Hn%distinct_NoDup; [by apply (Hmax b)|done].
Qed.

End Longest.

(** The string of -[SKBlockVC testLength], "bacdbbb". *)
Definition bacdbbb : list Z := [98; 97; 99; 100; 98; 98; 98].

Lemma lengthOfLongestSubstring_correct_witness :
  exists m log, lengthOfLongestSubstring bacdbbb = Ret (Z.of_nat m, log) /\ m = 4%nat.
Proof.
  destruct (lengthOfLongestSubstring_correct bacdbbb ltac:(vm_compute; reflexivity)) as (m & log & Hrun & _ & _ & _).
  exists m, log. split; [exact Hrun|].
  assert (Hc : exists l, lengthOfLongestSubstring bacdbbb = Ret (4, l)) by (eexists; vm_compute; reflexivity).
  destruct Hc as [l Hc]. rewrite Hc in Hrun. injection Hrun as Hm _. lia.
Defined.
