(* ===== verification/BlocksRuntime.v ===== *)
(** * The blocks runtime

    BlocksRuntime/runtime.c of libdispatch, without garbage collection: copying
    and releasing blocks and the byref structures of __block variables.  A block
    or byref structure is an object of memory with its fields at their byte
    offsets, on the stack or on the heap; freed memory is gone, so that using it
    is a fault. *)

From Stdlib Require Import ZArith Lia Bool String.
From stdpp Require Import base list gmap strings.
From S2P Require Import Prelude ObjCData ObjCRuntime.

Local Open Scope string_scope.
Local Open Scope Z_scope.
Local Open Scope list_scope.
Local Open Scope objc_scope.

(** ** Flags (Block_private.h) *)

Definition BLOCK_DEALLOCATING : Z := 0x0001.
Definition BLOCK_REFCOUNT_MASK : Z := 0xfffe.
Definition BLOCK_NEEDS_FREE : Z := Z.shiftl 1 24.
Definition BLOCK_HAS_COPY_DISPOSE : Z := Z.shiftl 1 25.
Definition BLOCK_IS_GC : Z := Z.shiftl 1 27.
Definition BLOCK_IS_GLOBAL : Z := Z.shiftl 1 28.

Definition BLOCK_BYREF_LAYOUT_EXTENDED : Z := Z.shiftl 1 28.
Definition BLOCK_BYREF_IS_GC : Z := Z.shiftl 1 27.
Definition BLOCK_BYREF_HAS_COPY_DISPOSE : Z := Z.shiftl 1 25.
Definition BLOCK_BYREF_NEEDS_FREE : Z := Z.shiftl 1 24.

Definition BLOCK_FIELD_IS_OBJECT : Z := 3.
Definition BLOCK_FIELD_IS_BLOCK : Z := 7.
Definition BLOCK_FIELD_IS_BYREF : Z := 8.
Definition BLOCK_FIELD_IS_WEAK : Z := 16.
Definition BLOCK_BYREF_CALLER : Z := 128.
Definition BLOCK_ALL_COPY_DISPOSE_FLAGS : Z := 159.

Definition _Byref_flag_initial_value : Z := Z.lor BLOCK_BYREF_NEEDS_FREE 4.

(** Whether a flag is set. *)
Definition flag (flags bits : Z) : bool := negb (Z.land flags bits =? 0).

(** ** Reference counts

    The compare-and-swap loops succeed at once when nobody else writes.  Each
    returns the new flags and its result. *)

Definition latching_incr_int (old_value : Z) : Z * Z :=
  if Z.land old_value BLOCK_REFCOUNT_MASK =? BLOCK_REFCOUNT_MASK then (old_value, BLOCK_REFCOUNT_MASK)
  else (s32 (old_value + 2), s32 (old_value + 2)).

Definition latching_incr_int_not_deallocating (old_value : Z) : Z * bool :=
  if flag old_value BLOCK_DEALLOCATING then (old_value, false)
  else if Z.land old_value BLOCK_REFCOUNT_MASK =? BLOCK_REFCOUNT_MASK then (old_value, true)
  else (s32 (old_value + 2), true).

Definition latching_decr_int_should_deallocate (old_value : Z) : Z * bool :=
  if Z.land old_value BLOCK_REFCOUNT_MASK =? BLOCK_REFCOUNT_MASK then (old_value, false)
  else if Z.land old_value BLOCK_REFCOUNT_MASK =? 0 then (old_value, false)
  else if Z.land old_value (Z.lor BLOCK_REFCOUNT_MASK BLOCK_DEALLOCATING) =? 2
  then (s32 (old_value - 1), true)
  else (s32 (old_value - 2), false).

Definition latching_decr_int_now_zero (old_value : Z) : Z * bool :=
  if Z.land old_value BLOCK_REFCOUNT_MASK =? BLOCK_REFCOUNT_MASK then (old_value, false)
  else if Z.land old_value BLOCK_REFCOUNT_MASK =? 0 then (old_value, false)
  else (s32 (old_value - 2), Z.land (s32 (old_value - 2)) BLOCK_REFCOUNT_MASK =? 0).

(** ** Layouts *)

(** [struct Block_layout]: isa, flags, reserved, invoke, descriptor, captures. *)
Definition off_flags : Z := 8.
Definition off_invoke : Z := 16.
Definition off_descriptor : Z := 24.
Definition off_captured : Z := 32.

(** [struct Block_byref]: isa, forwarding, flags, size, then the variable or the
    helpers. *)
Definition off_forwarding : Z := 8.
Definition off_byref_flags : Z := 16.
Definition off_byref_size : Z := 20.
Definition sizeof_byref : Z := 24.

(** A static descriptor: the size, and the fields that the compiler's copy and
    dispose helpers pass to the runtime, with their flags, in order. *)
Record Block_descriptor := mk_descriptor {
  desc_size : Z; desc_copy : list (Z * Z); desc_dispose : list (Z * Z) }.

(** ** Memory *)

Definition load_int (p : val) (off : Z) : OM Z :=
  let* v := load_slot p off in match v with VInt z => oret z | _ => ofault end.

(** An uninitialised structure of a given kind. *)
Definition malloc (isa : string) : OM val := class_createInstance isa.

Definition free (p : val) : OM unit :=
  fun w => match p with
  | VObj o =>
      match heap w !! o with
      | Some _ => Ret (tt, mk_world (delete o (heap w)) (associations w) (events w) (caches w))
      | None => Fault
      end
  | _ => Fault
  end.

Definition set_isa_of (p : val) (isa : string) : OM unit :=
  fun w => match p with
  | VObj o =>
      match heap w !! o with
      | Some ob => Ret (tt, mk_world (<[o := mk_obj isa (o_slots ob)]> (heap w)) (associations w) (events w) (caches w))
      | None => Fault
      end
  | _ => Fault
  end.

(** [memmove] of the fields with offsets in [lo, hi). *)
Definition move_fields (dst src : val) (lo hi : Z) : OM unit :=
  fun w => match dst, src with
  | VObj d, VObj s =>
      match heap w !! d, heap w !! s with
      | Some od, Some os =>
          let slots := filter (fun p => lo <= p.1 < hi) (o_slots os) ∪ filter (fun p => ~ (lo <= p.1 < hi)) (o_slots od) in
          Ret (tt, mk_world (<[d := mk_obj (o_isa od) slots]> (heap w)) (associations w) (events w) (caches w))
      | _, _ => Fault
      end
  | _, _ => Fault
  end.

Section Blocks.
(** The static descriptors, the byref helpers and the callbacks that
    CoreFoundation installs with [_Block_use_RR2]. *)
Context (descriptors : string -> option Block_descriptor)
        (byref_helper : string -> option (list val -> OM unit))
        (_Block_retain_object _Block_release_object _Block_destructInstance : val -> OM unit).

Definition descriptor_of (aBlock : val) : OM Block_descriptor :=
  let* d := load_slot aBlock off_descriptor in
  match d with
  | VStatic l => match descriptors l with Some d => oret d | None => ofault end
  | _ => ofault
  end.

Definition call_byref_helper (f : val) (args : list val) : OM unit :=
  match f with
  | VStatic l => match byref_helper l with Some h => h args | None => ofault end
  | _ => ofault
  end.

(** *** [__block] variables *)

(** The branch for a structure that is still on the stack. *)
Definition copy_stack_byref (src : val) (flags : Z) : OM unit :=
  let isWeak := Z.land flags (Z.lor BLOCK_FIELD_IS_BYREF BLOCK_FIELD_IS_WEAK)
                =? Z.lor BLOCK_FIELD_IS_BYREF BLOCK_FIELD_IS_WEAK in
  let* size := load_int src off_byref_size in
  let* sflags := load_int src off_byref_flags in
  let* copy := malloc "" in
  store_slot copy off_byref_flags (VInt (Z.lor sflags _Byref_flag_initial_value)) ;;
  store_slot copy off_forwarding copy ;;
  store_slot src off_forwarding copy ;;
  store_slot copy off_byref_size (VInt size) ;;
  (if isWeak then set_isa_of copy "_NSConcreteWeakBlockVariable" else oret tt) ;;
  if flag sflags BLOCK_BYREF_HAS_COPY_DISPOSE then
    let* keep := load_slot src sizeof_byref in
    let* destroy := load_slot src (sizeof_byref + 8) in
    store_slot copy sizeof_byref keep ;;
    store_slot copy (sizeof_byref + 8) destroy ;;
    (if flag sflags BLOCK_BYREF_LAYOUT_EXTENDED then
       let* layout := load_slot src (sizeof_byref + 16) in store_slot copy (sizeof_byref + 16) layout
     else oret tt) ;;
    call_byref_helper keep [copy; src]
  else move_fields copy src sizeof_byref size.

Definition _Block_byref_assign_copy (dest : val) (dest_off : Z) (src : val) (flags : Z) : OM unit :=
  let* forwarding := load_slot src off_forwarding in
  let* fflags := load_int forwarding off_byref_flags in
  (if flag fflags BLOCK_BYREF_IS_GC then oret tt
   else if Z.land fflags BLOCK_REFCOUNT_MASK =? 0 then copy_stack_byref src flags
   else if flag fflags BLOCK_BYREF_NEEDS_FREE then
     store_slot forwarding off_byref_flags (VInt (latching_incr_int fflags).1)
   else oret tt) ;;
  let* forwarding := load_slot src off_forwarding in
  store_slot dest dest_off forwarding.

Definition _Block_byref_release (arg : val) : OM unit :=
  let* byref := load_slot arg off_forwarding in
  let* flags := load_int byref off_byref_flags in
  if negb (flag flags BLOCK_BYREF_NEEDS_FREE) then oret tt else
  if Z.land flags BLOCK_REFCOUNT_MASK =? 0 then ofault else
  let '(flags', dealloc) := latching_decr_int_should_deallocate flags in
  store_slot byref off_byref_flags (VInt flags') ;;
  if dealloc then
    (if flag flags' BLOCK_BYREF_HAS_COPY_DISPOSE then
       let* destroy := load_slot byref (sizeof_byref + 8) in call_byref_helper destroy [byref]
     else oret tt) ;;
    free byref
  else oret tt.

(** *** Blocks

    [k] bounds the nesting of blocks that capture blocks.  The collector's
    callback [_Block_setHasRefcount] does nothing outside of garbage
    collection. *)

(** One call of [_Block_object_assign], given how a captured block is copied. *)
Definition _Block_object_assign_with (copy_block : val -> OM val) (dest : val) (dest_off : Z) (object : val) (flags : Z)
  : OM unit :=
  let f := Z.land flags BLOCK_ALL_COPY_DISPOSE_FLAGS in
  if f =? BLOCK_FIELD_IS_OBJECT then
    _Block_retain_object object ;; store_slot dest dest_off object
  else if f =? BLOCK_FIELD_IS_BLOCK then
    let* b := copy_block object in store_slot dest dest_off b
  else if (f =? Z.lor BLOCK_FIELD_IS_BYREF BLOCK_FIELD_IS_WEAK) || (f =? BLOCK_FIELD_IS_BYREF) then
    _Block_byref_assign_copy dest dest_off object flags
  else if (f =? Z.lor BLOCK_BYREF_CALLER BLOCK_FIELD_IS_OBJECT) || (f =? Z.lor BLOCK_BYREF_CALLER BLOCK_FIELD_IS_BLOCK)
       || (f =? Z.lor (Z.lor BLOCK_BYREF_CALLER BLOCK_FIELD_IS_OBJECT) BLOCK_FIELD_IS_WEAK)
       || (f =? Z.lor (Z.lor BLOCK_BYREF_CALLER BLOCK_FIELD_IS_BLOCK) BLOCK_FIELD_IS_WEAK) then
    store_slot dest dest_off object
  else oret tt.

(** A compiler-generated copy helper: one assignment per listed field. *)
Fixpoint copy_helper (assign : val -> Z -> val -> Z -> OM unit) (fields : list (Z * Z)) (dst src : val) : OM unit :=
  match fields with
  | [] => oret tt
  | (off, flags) :: fields' =>
      let* object := load_slot src off in
      assign dst off object flags ;;
      copy_helper assign fields' dst src
  end.

Fixpoint dispose_helper (dispose : val -> Z -> OM unit) (fields : list (Z * Z)) (src : val) : OM unit :=
  match fields with
  | [] => oret tt
  | (off, flags) :: fields' =>
      let* object := load_slot src off in
      dispose object flags ;;
      dispose_helper dispose fields' src
  end.

Fixpoint _Block_copy_internal (k : nat) (arg : val) (wantsOne : bool) : OM val :=
  match k with
  | O => otimeout
  | S k' =>
      if decide (arg = nil) then oret nil else
      let* flags := load_int arg off_flags in
      if flag flags BLOCK_NEEDS_FREE then
        store_slot arg off_flags (VInt (latching_incr_int flags).1) ;; oret arg
      else if flag flags BLOCK_IS_GC then
        (if wantsOne then store_slot arg off_flags (VInt (latching_incr_int flags).1) else oret tt) ;; oret arg
      else if flag flags BLOCK_IS_GLOBAL then oret arg
      else
        let* desc := descriptor_of arg in
        let* result := malloc "" in
        move_fields result arg 0 (desc_size desc) ;;
        let flags := Z.land flags (s32 (Z.lnot (Z.lor BLOCK_REFCOUNT_MASK BLOCK_DEALLOCATING))) in
        store_slot result off_flags (VInt (Z.lor flags (Z.lor BLOCK_NEEDS_FREE 2))) ;;
        set_isa_of result "_NSConcreteMallocBlock" ;;
        (if flag flags BLOCK_HAS_COPY_DISPOSE then
           copy_helper (_Block_object_assign_with (fun b => _Block_copy_internal k' b false)) (desc_copy desc) result arg
         else oret tt) ;;
        oret result
  end.

Definition _Block_copy (k : nat) (arg : val) : OM val := _Block_copy_internal k arg true.

Definition _Block_object_assign (k : nat) : val -> Z -> val -> Z -> OM unit :=
  _Block_object_assign_with (fun b => _Block_copy_internal k b false).

(** [_Block_object_dispose], given how a captured block is released. *)
Definition _Block_object_dispose_with (release_block : val -> OM unit) (object : val) (flags : Z) : OM unit :=
  let f := Z.land flags BLOCK_ALL_COPY_DISPOSE_FLAGS in
  if (f =? Z.lor BLOCK_FIELD_IS_BYREF BLOCK_FIELD_IS_WEAK) || (f =? BLOCK_FIELD_IS_BYREF) then
    _Block_byref_release object
  else if f =? BLOCK_FIELD_IS_BLOCK then release_block object
  else if f =? BLOCK_FIELD_IS_OBJECT then _Block_release_object object
  else oret tt.

Fixpoint _Block_release (k : nat) (arg : val) : OM unit :=
  match k with
  | O => otimeout
  | S k' =>
      if decide (arg = nil) then oret tt else
      let* flags := load_int arg off_flags in
      if flag flags BLOCK_IS_GLOBAL then oret tt else
      if Z.land flags (Z.lor BLOCK_IS_GC BLOCK_NEEDS_FREE) =? 0 then oret tt else
      if flag flags BLOCK_IS_GC then
        store_slot arg off_flags (VInt (latching_decr_int_now_zero flags).1)
      else
      let '(flags', dealloc) := latching_decr_int_should_deallocate flags in
      store_slot arg off_flags (VInt flags') ;;
      if dealloc then
        (if flag flags' BLOCK_HAS_COPY_DISPOSE then
           let* desc := descriptor_of arg in
           dispose_helper (_Block_object_dispose_with (_Block_release k')) (desc_dispose desc) arg
         else oret tt) ;;
        _Block_destructInstance arg ;;
        free arg
      else oret tt
  end.

Definition _Block_object_dispose (k : nat) : val -> Z -> OM unit :=
  _Block_object_dispose_with (_Block_release k).

Definition _Block_tryRetain (arg : val) : OM bool :=
  let* flags := load_int arg off_flags in
  let '(flags', ok) := latching_incr_int_not_deallocating flags in
  store_slot arg off_flags (VInt flags') ;; oret ok.

Definition _Block_isDeallocating (arg : val) : OM bool :=
  let* flags := load_int arg off_flags in oret (flag flags BLOCK_DEALLOCATING).

Definition Block_size (aBlock : val) : OM Z :=
  let* desc := descriptor_of aBlock in oret (desc_size desc).

End Blocks.
