(* ===== verification/LoweredBlocks.v ===== *)
(** * The block files as lowered

    Block/SKBlockVC-arm64.cpp, Block/SKBlockLocationObj-arm64.cpp and
    Property/SKAutorelease/SKAutoReleaseTestObj-arm64.cpp: the structures the
    rewriter makes of block literals and __block variables, the functions of the
    blocks, and the methods that create and call them.

    Structures on the stack are objects of memory that are freed when the
    function returns.  The address of a member is [VAddr]; a function is its name,
    and calling anything else is a fault. *)

From Stdlib Require Import ZArith Lia Bool String.
From stdpp Require Import base list gmap strings.
From S2P Require Import Prelude ObjCData ObjCImages ObjCRuntime LoweredMethods BlocksRuntime LongestSubstring.

Local Open Scope string_scope.
Local Open Scope Z_scope.
Local Open Scope list_scope.
Local Open Scope objc_scope.

(** What these files use of the system besides messages; a [double] is a value
    whose arithmetic is the platform's. *)
Record platform := mk_platform {
  NSStringFromClass : val -> val;
  string_units : val -> list Z;
  dispatch_get_main_queue : val;
  dispatch_async : val -> val -> OM unit;
  CFGetRetainCount : val -> OM Z;
  CACurrentMediaTime : OM val;
  CFAbsoluteTimeGetCurrent : OM val;
  mach_timebase_info : OM (Z * Z);
  mach_absolute_time : OM Z;
  d_of_literal : string -> val;
  d_of_u64 : Z -> val;
  d_sub : val -> val -> val;
  d_mul : val -> val -> val;
  d_div : val -> val -> val }.

(** ** Structures *)

Definition __block_impl : c_struct :=
  Struct [("isa", C_pointer); ("Flags", C_int); ("Reserved", C_int); ("FuncPtr", C_pointer)].

(** A block structure without captured variables, and one with. *)
Definition plain_block_impl : c_struct := SubStruct __block_impl [("Desc", C_pointer)].

Definition __SKBlockVC__blockAutoConn_block_impl_0_struct : c_struct :=
  SubStruct __block_impl [("Desc", C_pointer); ("self", C_pointer); ("age", C_pointer)].
Definition __SKBlockVC__blockBlock_block_impl_0_struct : c_struct :=
  SubStruct __block_impl [("Desc", C_pointer); ("testModel", C_pointer); ("age", C_pointer)].
Definition __SKBlockVC__blockTestAutoInLine_block_impl_0_struct : c_struct :=
  SubStruct __block_impl [("Desc", C_pointer); ("i", C_int)].
Definition __SKBlockVC__blockTestAutoInLine_block_impl_2_struct : c_struct :=
  SubStruct __block_impl [("Desc", C_pointer); ("val", C_pointer)].
Definition __SKBlockVC__blockTestAutoInLine_block_impl_3_struct : c_struct :=
  SubStruct __block_impl [("Desc", C_pointer); ("array", C_pointer)].
Definition __SKBlockVC__testGCD_block_impl_0_struct : c_struct :=
  SubStruct __block_impl [("Desc", C_pointer); ("self", C_pointer)].
Definition __SKBlockVC__blockLocation_block_impl_0_struct : c_struct :=
  SubStruct __block_impl [("Desc", C_pointer); ("a", C_pointer)].
Definition __SKBlockLocationObj__blockLocation_block_impl_0_struct : c_struct :=
  SubStruct __block_impl [("Desc", C_pointer); ("a", C_pointer)].

(** The structures of __block variables. *)
Definition byref_struct (variable : string) : c_struct :=
  Struct [("__isa", C_pointer); ("__forwarding", C_pointer); ("__flags", C_int); ("__size", C_int); (variable, C_int)].
Definition __Block_byref_age_0 : c_struct := byref_struct "age".
Definition __Block_byref_age_1 : c_struct := byref_struct "age".
Definition __Block_byref_val_2 : c_struct := byref_struct "val".
Definition __Block_byref_a_3 : c_struct := byref_struct "a".
Definition __Block_byref_a_0 : c_struct := byref_struct "a".

(** ** Locals, literals and calls *)

(** A local variable whose address is taken. *)
Definition local (v : val) : OM val :=
  let* p := malloc "" in store_slot p 0 v ;; oret p.

(** A value in memory at the address of a member of [p]. *)
Definition addr (p : val) (off : Z) : val :=
  match p with VObj o => VAddr o off | _ => nil end.

(** [struct S x = {0, &x, 0, sizeof(S), v}] *)
Definition byref_init (s : c_struct) (variable : string) (v : Z) : OM val :=
  let* x := malloc "" in
  store_slot x (OFFSETOFIVAR s "__forwarding") x ;;
  store_slot x (OFFSETOFIVAR s "__flags") (VInt 0) ;;
  store_slot x (OFFSETOFIVAR s "__size") (VInt (sizeof_struct s)) ;;
  store_slot x (OFFSETOFIVAR s variable) (VInt v) ;;
  oret x.

(** [x.__forwarding->variable]: its value, its address, an assignment to it. *)
Definition byref_get (s : c_struct) (variable : string) (x : val) : OM Z :=
  let* f := load_slot x (OFFSETOFIVAR s "__forwarding") in load_int f (OFFSETOFIVAR s variable).
Definition byref_addr (s : c_struct) (variable : string) (x : val) : OM val :=
  let* f := load_slot x (OFFSETOFIVAR s "__forwarding") in oret (addr f (OFFSETOFIVAR s variable)).
Definition byref_set (s : c_struct) (variable : string) (x : val) (v : Z) : OM unit :=
  let* f := load_slot x (OFFSETOFIVAR s "__forwarding") in store_slot f (OFFSETOFIVAR s variable) (VInt v).

(** The constructors of the block structures: the member initialisers, then the
    body. *)
Definition block_impl_with (captures : val -> OM unit) (fp desc : string) (flags : Z) : OM val :=
  let* b := class_createInstance "_NSConcreteStackBlock" in
  captures b ;;
  store_slot b (OFFSETOFIVAR __block_impl "Flags") (VInt flags) ;;
  store_slot b (OFFSETOFIVAR __block_impl "FuncPtr") (VStatic fp) ;;
  store_slot b (OFFSETOFIVAR plain_block_impl "Desc") (VStatic desc) ;;
  oret b.
Definition block_impl_init : string -> string -> Z -> OM val := block_impl_with (fun _ => oret tt).

(** A captured variable, and a captured __block variable ([_x->__forwarding]). *)
Definition capture (b : val) (s : c_struct) (member : string) (v : val) : OM unit :=
  store_slot b (OFFSETOFIVAR s member) v.
Definition capture_byref (b : val) (s : c_struct) (member : string) (bs : c_struct) (x : val) : OM unit :=
  let* f := load_slot x (OFFSETOFIVAR bs "__forwarding") in store_slot b (OFFSETOFIVAR s member) f.

Definition printf (fmt : string) (args : list val) : OM unit := emit (E_log fmt args).

Definition numberWithInt (snd : senders) (z : Z) : OM val := msgSend snd (VClass "NSNumber") "numberWithInt:" [VInt z].
Definition numberWithInteger (snd : senders) (v : val) : OM val := msgSend snd (VClass "NSNumber") "numberWithInteger:" [v].

(** [objc_msgSend(self, sel)] and [[[c alloc] init]]. *)
Definition send0 (snd : senders) (self : val) (sel : string) : OM val := msgSend snd self sel [].
Definition alloc_init (snd : senders) (c : string) : OM val :=
  let* a := send0 snd (VClass c) "alloc" in send0 snd a "init".

(** C division of [int]s: by zero, and of the least by -1, it is undefined. *)
Definition div_int (a b : Z) : OM Z :=
  if (b =? 0) || ((a =? - 2 ^ 31) && (b =? -1)) then ofault else oret (Z.quot a b).

(** ** Constructors *)

Definition BLOCK_FLAGS : Z := 570425344.

Definition __SKBlockVC__myBlockOne_block_impl_0 (fp desc : string) : OM val := block_impl_init fp desc 0.
Definition __SKBlockVC__myBlockOne_block_impl_1 (fp desc : string) : OM val := block_impl_init fp desc 0.
Definition __SKBlockVC__myBlockOne_block_impl_2 (fp desc : string) : OM val := block_impl_init fp desc 0.
Definition __SKBlockVC__myBlockOne_block_impl_3 (fp desc : string) : OM val := block_impl_init fp desc 0.
Definition __SKBlockVC__myBlockOne_block_impl_4 (fp desc : string) : OM val := block_impl_init fp desc 0.
Definition __SKBlockVC__printCopyRetainCount_block_impl_0 (fp desc : string) : OM val := block_impl_init fp desc 0.
Definition __SKBlockVC__blockExample_block_impl_0 (fp desc : string) : OM val := block_impl_init fp desc 0.
Definition __SKBlockVC__blockExample_block_impl_1 (fp desc : string) : OM val := block_impl_init fp desc 0.
Definition __SKBlockVC__blockExample_block_impl_2 (fp desc : string) : OM val := block_impl_init fp desc 0.
Definition __SKBlockVC__testBlockHaha_block_impl_0 (fp desc : string) : OM val := block_impl_init fp desc 0.
Definition __SKBlockVC__testBlockHaha_block_impl_1 (fp desc : string) : OM val := block_impl_init fp desc 0.
Definition __SKBlockVC__blockTestAutoInLine_block_impl_1 (fp desc : string) : OM val := block_impl_init fp desc 0.
Definition __SKBlockVC__linkTest_block_impl_0 (fp desc : string) : OM val := block_impl_init fp desc 0.
Definition __SKAutoReleaseTestObj__init_block_impl_0 (fp desc : string) : OM val := block_impl_init fp desc 0.

Definition __SKBlockVC__blockAutoConn_block_impl_0 (fp desc : string) (_self _age : val) (flags : Z) : OM val :=
  block_impl_with (fun b =>
    capture b __SKBlockVC__blockAutoConn_block_impl_0_struct "self" _self ;;
    capture_byref b __SKBlockVC__blockAutoConn_block_impl_0_struct "age" __Block_byref_age_0 _age) fp desc flags.

Definition __SKBlockVC__blockBlock_block_impl_0 (fp desc : string) (_testModel _age : val) (flags : Z) : OM val :=
  block_impl_with (fun b =>
    capture b __SKBlockVC__blockBlock_block_impl_0_struct "testModel" _testModel ;;
    capture_byref b __SKBlockVC__blockBlock_block_impl_0_struct "age" __Block_byref_age_1 _age) fp desc flags.

Definition __SKBlockVC__blockTestAutoInLine_block_impl_0 (fp desc : string) (_i : Z) : OM val :=
  block_impl_with (fun b =>
    capture b __SKBlockVC__blockTestAutoInLine_block_impl_0_struct "i" (VInt _i)) fp desc 0.

Definition __SKBlockVC__blockTestAutoInLine_block_impl_2 (fp desc : string) (_val : val) (flags : Z) : OM val :=
  block_impl_with (fun b =>
    capture_byref b __SKBlockVC__blockTestAutoInLine_block_impl_2_struct "val" __Block_byref_val_2 _val) fp desc flags.

Definition __SKBlockVC__blockTestAutoInLine_block_impl_3 (fp desc : string) (_array : val) (flags : Z) : OM val :=
  block_impl_with (fun b =>
    capture b __SKBlockVC__blockTestAutoInLine_block_impl_3_struct "array" _array) fp desc flags.

Definition __SKBlockVC__testGCD_block_impl_0 (fp desc : string) (_self : val) (flags : Z) : OM val :=
  block_impl_with (fun b =>
    capture b __SKBlockVC__testGCD_block_impl_0_struct "self" _self) fp desc flags.

Definition __SKBlockVC__blockLocation_block_impl_0 (fp desc : string) (_a : val) (flags : Z) : OM val :=
  block_impl_with (fun b =>
    capture_byref b __SKBlockVC__blockLocation_block_impl_0_struct "a" __Block_byref_a_3 _a) fp desc flags.

Definition __SKBlockLocationObj__blockLocation_block_impl_0 (fp desc : string) (_a : val) (flags : Z) : OM val :=
  block_impl_with (fun b =>
    capture_byref b __SKBlockLocationObj__blockLocation_block_impl_0_struct "a" __Block_byref_a_0 _a) fp desc flags.

(** ** Descriptors, with the fields of the copy and dispose helpers *)

Definition plain_descriptor (s : c_struct) : Block_descriptor := mk_descriptor (sizeof_struct s) [] [].

Definition helper_fields (s : c_struct) (l : list (string * Z)) : list (Z * Z) :=
  map (fun p => (OFFSETOFIVAR s p.1, p.2)) l.

Definition __SKBlockVC__blockAutoConn_block_copy_0 : list (Z * Z) :=
  helper_fields __SKBlockVC__blockAutoConn_block_impl_0_struct [("age", 8); ("self", 3)].
Definition __SKBlockVC__blockAutoConn_block_dispose_0 : list (Z * Z) :=
  helper_fields __SKBlockVC__blockAutoConn_block_impl_0_struct [("age", 8); ("self", 3)].
Definition __SKBlockVC__blockBlock_block_copy_0 : list (Z * Z) :=
  helper_fields __SKBlockVC__blockBlock_block_impl_0_struct [("age", 8); ("testModel", 3)].
Definition __SKBlockVC__blockBlock_block_dispose_0 : list (Z * Z) :=
  helper_fields __SKBlockVC__blockBlock_block_impl_0_struct [("age", 8); ("testModel", 3)].
Definition __SKBlockVC__blockTestAutoInLine_block_copy_2 : list (Z * Z) :=
  helper_fields __SKBlockVC__blockTestAutoInLine_block_impl_2_struct [("val", 8)].
Definition __SKBlockVC__blockTestAutoInLine_block_dispose_2 : list (Z * Z) :=
  helper_fields __SKBlockVC__blockTestAutoInLine_block_impl_2_struct [("val", 8)].
Definition __SKBlockVC__blockTestAutoInLine_block_copy_3 : list (Z * Z) :=
  helper_fields __SKBlockVC__blockTestAutoInLine_block_impl_3_struct [("array", 3)].
Definition __SKBlockVC__blockTestAutoInLine_block_dispose_3 : list (Z * Z) :=
  helper_fields __SKBlockVC__blockTestAutoInLine_block_impl_3_struct [("array", 3)].
Definition __SKBlockVC__testGCD_block_copy_0 : list (Z * Z) :=
  helper_fields __SKBlockVC__testGCD_block_impl_0_struct [("self", 3)].
Definition __SKBlockVC__testGCD_block_dispose_0 : list (Z * Z) :=
  helper_fields __SKBlockVC__testGCD_block_impl_0_struct [("self", 3)].
Definition __SKBlockVC__blockLocation_block_copy_0 : list (Z * Z) :=
  helper_fields __SKBlockVC__blockLocation_block_impl_0_struct [("a", 8)].
Definition __SKBlockVC__blockLocation_block_dispose_0 : list (Z * Z) :=
  helper_fields __SKBlockVC__blockLocation_block_impl_0_struct [("a", 8)].
Definition __SKBlockLocationObj__blockLocation_block_copy_0 : list (Z * Z) :=
  helper_fields __SKBlockLocationObj__blockLocation_block_impl_0_struct [("a", 8)].
Definition __SKBlockLocationObj__blockLocation_block_dispose_0 : list (Z * Z) :=
  helper_fields __SKBlockLocationObj__blockLocation_block_impl_0_struct [("a", 8)].

Definition __SKBlockVC__myBlockOne_block_desc_0_DATA : Block_descriptor := plain_descriptor plain_block_impl.
Definition __SKBlockVC__myBlockOne_block_desc_1_DATA : Block_descriptor := plain_descriptor plain_block_impl.
Definition __SKBlockVC__myBlockOne_block_desc_2_DATA : Block_descriptor := plain_descriptor plain_block_impl.
Definition __SKBlockVC__myBlockOne_block_desc_3_DATA : Block_descriptor := plain_descriptor plain_block_impl.
Definition __SKBlockVC__myBlockOne_block_desc_4_DATA : Block_descriptor := plain_descriptor plain_block_impl.
Definition __SKBlockVC__blockAutoConn_block_desc_0_DATA : Block_descriptor :=
  mk_descriptor (sizeof_struct __SKBlockVC__blockAutoConn_block_impl_0_struct)
    __SKBlockVC__blockAutoConn_block_copy_0 __SKBlockVC__blockAutoConn_block_dispose_0.
Definition __SKBlockVC__blockBlock_block_desc_0_DATA : Block_descriptor :=
  mk_descriptor (sizeof_struct __SKBlockVC__blockBlock_block_impl_0_struct)
    __SKBlockVC__blockBlock_block_copy_0 __SKBlockVC__blockBlock_block_dispose_0.
Definition __SKBlockVC__printCopyRetainCount_block_desc_0_DATA : Block_descriptor := plain_descriptor plain_block_impl.
Definition __SKBlockVC__blockExample_block_desc_0_DATA : Block_descriptor := plain_descriptor plain_block_impl.
Definition __SKBlockVC__blockExample_block_desc_1_DATA : Block_descriptor := plain_descriptor plain_block_impl.
Definition __SKBlockVC__blockExample_block_desc_2_DATA : Block_descriptor := plain_descriptor plain_block_impl.
Definition __SKBlockVC__testBlockHaha_block_desc_0_DATA : Block_descriptor := plain_descriptor plain_block_impl.
Definition __SKBlockVC__testBlockHaha_block_desc_1_DATA : Block_descriptor := plain_descriptor plain_block_impl.
Definition __SKBlockVC__blockTestAutoInLine_block_desc_0_DATA : Block_descriptor :=
  plain_descriptor __SKBlockVC__blockTestAutoInLine_block_impl_0_struct.
Definition __SKBlockVC__blockTestAutoInLine_block_desc_1_DATA : Block_descriptor := plain_descriptor plain_block_impl.
Definition __SKBlockVC__blockTestAutoInLine_block_desc_2_DATA : Block_descriptor :=
  mk_descriptor (sizeof_struct __SKBlockVC__blockTestAutoInLine_block_impl_2_struct)
    __SKBlockVC__blockTestAutoInLine_block_copy_2 __SKBlockVC__blockTestAutoInLine_block_dispose_2.
Definition __SKBlockVC__blockTestAutoInLine_block_desc_3_DATA : Block_descriptor :=
  mk_descriptor (sizeof_struct __SKBlockVC__blockTestAutoInLine_block_impl_3_struct)
    __SKBlockVC__blockTestAutoInLine_block_copy_3 __SKBlockVC__blockTestAutoInLine_block_dispose_3.
Definition __SKBlockVC__linkTest_block_desc_0_DATA : Block_descriptor := plain_descriptor plain_block_impl.
Definition __SKBlockVC__testGCD_block_desc_0_DATA : Block_descriptor :=
  mk_descriptor (sizeof_struct __SKBlockVC__testGCD_block_impl_0_struct)
    __SKBlockVC__testGCD_block_copy_0 __SKBlockVC__testGCD_block_dispose_0.
Definition __SKBlockVC__blockLocation_block_desc_0_DATA : Block_descriptor :=
  mk_descriptor (sizeof_struct __SKBlockVC__blockLocation_block_impl_0_struct)
    __SKBlockVC__blockLocation_block_copy_0 __SKBlockVC__blockLocation_block_dispose_0.
Definition __SKBlockLocationObj__blockLocation_block_desc_0_DATA : Block_descriptor :=
  mk_descriptor (sizeof_struct __SKBlockLocationObj__blockLocation_block_impl_0_struct)
    __SKBlockLocationObj__blockLocation_block_copy_0 __SKBlockLocationObj__blockLocation_block_dispose_0.
Definition __SKAutoReleaseTestObj__init_block_desc_0_DATA : Block_descriptor := plain_descriptor plain_block_impl.

Definition block_descriptors : list (string * Block_descriptor) :=
  [("__SKBlockVC__myBlockOne_block_desc_0_DATA", __SKBlockVC__myBlockOne_block_desc_0_DATA);
   ("__SKBlockVC__myBlockOne_block_desc_1_DATA", __SKBlockVC__myBlockOne_block_desc_1_DATA);
   ("__SKBlockVC__myBlockOne_block_desc_2_DATA", __SKBlockVC__myBlockOne_block_desc_2_DATA);
   ("__SKBlockVC__myBlockOne_block_desc_3_DATA", __SKBlockVC__myBlockOne_block_desc_3_DATA);
   ("__SKBlockVC__myBlockOne_block_desc_4_DATA", __SKBlockVC__myBlockOne_block_desc_4_DATA);
   ("__SKBlockVC__blockAutoConn_block_desc_0_DATA", __SKBlockVC__blockAutoConn_block_desc_0_DATA);
   ("__SKBlockVC__blockBlock_block_desc_0_DATA", __SKBlockVC__blockBlock_block_desc_0_DATA);
   ("__SKBlockVC__printCopyRetainCount_block_desc_0_DATA", __SKBlockVC__printCopyRetainCount_block_desc_0_DATA);
   ("__SKBlockVC__blockExample_block_desc_0_DATA", __SKBlockVC__blockExample_block_desc_0_DATA);
   ("__SKBlockVC__blockExample_block_desc_1_DATA", __SKBlockVC__blockExample_block_desc_1_DATA);
   ("__SKBlockVC__blockExample_block_desc_2_DATA", __SKBlockVC__blockExample_block_desc_2_DATA);
   ("__SKBlockVC__testBlockHaha_block_desc_0_DATA", __SKBlockVC__testBlockHaha_block_desc_0_DATA);
   ("__SKBlockVC__testBlockHaha_block_desc_1_DATA", __SKBlockVC__testBlockHaha_block_desc_1_DATA);
   ("__SKBlockVC__blockTestAutoInLine_block_desc_0_DATA", __SKBlockVC__blockTestAutoInLine_block_desc_0_DATA);
   ("__SKBlockVC__blockTestAutoInLine_block_desc_1_DATA", __SKBlockVC__blockTestAutoInLine_block_desc_1_DATA);
   ("__SKBlockVC__blockTestAutoInLine_block_desc_2_DATA", __SKBlockVC__blockTestAutoInLine_block_desc_2_DATA);
   ("__SKBlockVC__blockTestAutoInLine_block_desc_3_DATA", __SKBlockVC__blockTestAutoInLine_block_desc_3_DATA);
   ("__SKBlockVC__linkTest_block_desc_0_DATA", __SKBlockVC__linkTest_block_desc_0_DATA);
   ("__SKBlockVC__testGCD_block_desc_0_DATA", __SKBlockVC__testGCD_block_desc_0_DATA);
   ("__SKBlockVC__blockLocation_block_desc_0_DATA", __SKBlockVC__blockLocation_block_desc_0_DATA);
   ("__SKBlockLocationObj__blockLocation_block_desc_0_DATA", __SKBlockLocationObj__blockLocation_block_desc_0_DATA);
   ("__SKAutoReleaseTestObj__init_block_desc_0_DATA", __SKAutoReleaseTestObj__init_block_desc_0_DATA)].

Definition find_named {A} (l : list (string * A)) (name : string) : option A :=
  match List.filter (fun p => String.eqb p.1 name) l with (_, a) :: _ => Some a | [] => None end.

Definition descriptor_table : string -> option Block_descriptor := find_named block_descriptors.

(** ** The functions of the blocks *)

Definition block_func : Type := senders -> val -> list val -> OM val.

Definition __SKBlockVC__myBlockOne_block_func_0 (snd : senders) (__cself : val) : OM val :=
  void (NSLog "SKBlockVC_mi_0" []).

Definition __SKBlockVC__myBlockOne_block_func_1 (snd : senders) (__cself : val) (a : Z) : OM val :=
  let* n := numberWithInt snd a in void (NSLog "SKBlockVC_mi_1" [n]).

Definition __SKBlockVC__myBlockOne_block_func_2 (snd : senders) (__cself : val) (a : Z) : OM val :=
  let* n := numberWithInt snd a in
  NSLog "SKBlockVC_mi_2" [n] ;;
  oret (VInt (s32 (2 * a))).

Definition __SKBlockVC__myBlockOne_block_func_3 (snd : senders) (__cself : val) : OM val :=
  oret (VStatic "SKBlockVC_mi_4").

Definition __SKBlockVC__myBlockOne_block_func_4 (snd : senders) (__cself : val) (a b : Z) : OM val :=
  oret (VInt (s32 (a + b))).

Section BlockFunctions.
Context (OBJC_IVAR : string -> string -> Z).

Definition __SKBlockVC__blockAutoConn_block_func_0 (snd : senders) (__cself : val) : OM val :=
  let* age := load_slot __cself (OFFSETOFIVAR __SKBlockVC__blockAutoConn_block_impl_0_struct "age") in
  let* self := load_slot __cself (OFFSETOFIVAR __SKBlockVC__blockAutoConn_block_impl_0_struct "self") in
  let* p := byref_addr __Block_byref_age_0 "age" age in
  NSLog "SKBlockVC_mi_9" [p] ;;
  let* v := byref_get __Block_byref_age_0 "age" age in
  let* n := numberWithInt snd v in
  NSLog "SKBlockVC_mi_10" [n] ;;
  let* _ := msgSend snd self "setAgeTest:" [VInt 100] in
  let* t := send0 snd self "ageTest" in
  let* n := numberWithInteger snd t in
  NSLog "SKBlockVC_mi_11" [n] ;;
  void (NSLog "SKBlockVC_mi_12" [addr self (OBJC_IVAR "SKBlockVC" "_ageTest")]).

Definition __SKBlockVC__blockBlock_block_func_0 (snd : senders) (__cself : val) : OM val :=
  let* age := load_slot __cself (OFFSETOFIVAR __SKBlockVC__blockBlock_block_impl_0_struct "age") in
  let* m := load_slot __cself (OFFSETOFIVAR __SKBlockVC__blockBlock_block_impl_0_struct "testModel") in
  let* testModel := local m in
  byref_set __Block_byref_age_1 "age" age 50 ;;
  let* p := byref_addr __Block_byref_age_1 "age" age in
  let* v := byref_get __Block_byref_age_1 "age" age in
  let* n := numberWithInt snd v in
  NSLog "SKBlockVC_mi_18" [p; n] ;;
  NSLog "SKBlockVC_mi_19" [addr testModel 0; m] ;;
  void (free testModel).

Definition __SKBlockVC__printCopyRetainCount_block_func_0 (snd : senders) (__cself : val) (a b : Z) : OM val :=
  oret (VInt (s32 (a + b))).

Definition __SKBlockVC__blockExample_block_func_0 (snd : senders) (__cself : val) (a b : Z) : OM val :=
  oret (VInt (s32 (a * b))).

Definition __SKBlockVC__blockExample_block_func_1 (snd : senders) (__cself : val) (a b : Z) : OM val :=
  oret (VInt (s32 (s32 (s32 (a * a) * b) * b))).

Definition __SKBlockVC__blockExample_block_func_2 (snd : senders) (__cself : val) (a b : Z) : OM val :=
  let* q := div_int a b in oret (VInt q).

Definition __SKBlockVC__testBlockHaha_block_func_0 (snd : senders) (__cself : val) : OM val :=
  void (NSLog "SKBlockVC_mi_25" []).

Definition __SKBlockVC__testBlockHaha_block_func_1 (snd : senders) (__cself name : val) : OM val :=
  void (NSLog "SKBlockVC_mi_26" [name]).

Definition __SKBlockVC__blockTestAutoInLine_block_func_0 (snd : senders) (__cself : val) (a : Z) : OM val :=
  let* i := load_int __cself (OFFSETOFIVAR __SKBlockVC__blockTestAutoInLine_block_impl_0_struct "i") in
  oret (VInt (s32 (a * i))).

Definition __SKBlockVC__blockTestAutoInLine_block_func_1 (snd : senders) (__cself : val) (m : Z) : OM val :=
  oret (VInt m).

Definition __SKBlockVC__blockTestAutoInLine_block_func_2 (snd : senders) (__cself : val) : OM val :=
  let* x := load_slot __cself (OFFSETOFIVAR __SKBlockVC__blockTestAutoInLine_block_impl_2_struct "val") in
  let* v := byref_get __Block_byref_val_2 "val" x in
  void (byref_set __Block_byref_val_2 "val" x (s32 (v + 1))).

Definition __SKBlockVC__blockTestAutoInLine_block_func_3 (snd : senders) (__cself obj : val) : OM val :=
  let* array := load_slot __cself (OFFSETOFIVAR __SKBlockVC__blockTestAutoInLine_block_impl_3_struct "array") in
  let* _ := msgSend snd array "addObject:" [obj] in
  let* count := send0 snd array "count" in
  let* n := msgSend snd (VClass "NSNumber") "numberWithUnsignedInteger:" [count] in
  void (NSLog "SKBlockVC_mi_28" [n]).

(** The results of [add] and [minus] are called as functions. *)
Definition __SKBlockVC__linkTest_block_func_0 (call : val -> list val -> OM val) (snd : senders) (__cself make : val)
  : OM val :=
  let* add := send0 snd make "add" in
  let* t := call add [VInt 30] in
  let* add := send0 snd t "add" in
  let* t := call add [VInt 50] in
  let* minus := send0 snd t "minus" in
  let* _ := call minus [VInt 20] in
  oret nil.

Definition __SKBlockVC__testGCD_block_func_0 (snd : senders) (__cself : val) : OM val :=
  let* self := load_slot __cself (OFFSETOFIVAR __SKBlockVC__testGCD_block_impl_0_struct "self") in
  let* _ := send0 snd self "linkTest" in
  oret nil.

Definition __SKBlockVC__blockLocation_block_func_0 (snd : senders) (__cself : val) : OM val :=
  let* a := load_slot __cself (OFFSETOFIVAR __SKBlockVC__blockLocation_block_impl_0_struct "a") in
  byref_set __Block_byref_a_3 "a" a 15 ;;
  let* p := byref_addr __Block_byref_a_3 "a" a in
  let* v := byref_get __Block_byref_a_3 "a" a in
  let* n := numberWithInt snd v in
  void (NSLog "SKBlockVC_mi_43" [p; n]).

Definition __SKBlockLocationObj__blockLocation_block_func_0 (snd : senders) (__cself : val) : OM val :=
  let* a := load_slot __cself (OFFSETOFIVAR __SKBlockLocationObj__blockLocation_block_impl_0_struct "a") in
  byref_set __Block_byref_a_0 "a" a 15 ;;
  let* p := byref_addr __Block_byref_a_0 "a" a in
  let* v := byref_get __Block_byref_a_0 "a" a in
  let* n := numberWithInt snd v in
  void (NSLog "SKBlockLocationObj_mi_1" [p; n]).

Definition __SKAutoReleaseTestObj__init_block_func_0 (snd : senders) (__cself obj idx stop : val) : OM val :=
  void (NSLog "SKAutoReleaseTestObj_mi_0" []).

(** Functions of blocks called with the arguments of their types. *)
Definition bf0 (f : senders -> val -> OM val) : block_func :=
  fun snd cself args => match args with [] => f snd cself | _ => ofault end.
Definition bf_int (f : senders -> val -> Z -> OM val) : block_func :=
  fun snd cself args => match args with [VInt a] => f snd cself a | _ => ofault end.
Definition bf_int2 (f : senders -> val -> Z -> Z -> OM val) : block_func :=
  fun snd cself args => match args with [VInt a; VInt b] => f snd cself a b | _ => ofault end.
Definition bf_id (f : senders -> val -> val -> OM val) : block_func :=
  fun snd cself args => match args with [a] => f snd cself a | _ => ofault end.
Definition bf_id3 (f : senders -> val -> val -> val -> val -> OM val) : block_func :=
  fun snd cself args => match args with [a; b; c] => f snd cself a b c | _ => ofault end.

Definition block_funcs (call : val -> list val -> OM val) : list (string * block_func) :=
  [("__SKBlockVC__myBlockOne_block_func_0", bf0 __SKBlockVC__myBlockOne_block_func_0);
   ("__SKBlockVC__myBlockOne_block_func_1", bf_int __SKBlockVC__myBlockOne_block_func_1);
   ("__SKBlockVC__myBlockOne_block_func_2", bf_int __SKBlockVC__myBlockOne_block_func_2);
   ("__SKBlockVC__myBlockOne_block_func_3", bf0 __SKBlockVC__myBlockOne_block_func_3);
   ("__SKBlockVC__myBlockOne_block_func_4", bf_int2 __SKBlockVC__myBlockOne_block_func_4);
   ("__SKBlockVC__blockAutoConn_block_func_0", bf0 __SKBlockVC__blockAutoConn_block_func_0);
   ("__SKBlockVC__blockBlock_block_func_0", bf0 __SKBlockVC__blockBlock_block_func_0);
   ("__SKBlockVC__printCopyRetainCount_block_func_0", bf_int2 __SKBlockVC__printCopyRetainCount_block_func_0);
   ("__SKBlockVC__blockExample_block_func_0", bf_int2 __SKBlockVC__blockExample_block_func_0);
   ("__SKBlockVC__blockExample_block_func_1", bf_int2 __SKBlockVC__blockExample_block_func_1);
   ("__SKBlockVC__blockExample_block_func_2", bf_int2 __SKBlockVC__blockExample_block_func_2);
   ("__SKBlockVC__testBlockHaha_block_func_0", bf0 __SKBlockVC__testBlockHaha_block_func_0);
   ("__SKBlockVC__testBlockHaha_block_func_1", bf_id __SKBlockVC__testBlockHaha_block_func_1);
   ("__SKBlockVC__blockTestAutoInLine_block_func_0", bf_int __SKBlockVC__blockTestAutoInLine_block_func_0);
   ("__SKBlockVC__blockTestAutoInLine_block_func_1", bf_int __SKBlockVC__blockTestAutoInLine_block_func_1);
   ("__SKBlockVC__blockTestAutoInLine_block_func_2", bf0 __SKBlockVC__blockTestAutoInLine_block_func_2);
   ("__SKBlockVC__blockTestAutoInLine_block_func_3", bf_id __SKBlockVC__blockTestAutoInLine_block_func_3);
   ("__SKBlockVC__linkTest_block_func_0", bf_id (__SKBlockVC__linkTest_block_func_0 call));
   ("__SKBlockVC__testGCD_block_func_0", bf0 __SKBlockVC__testGCD_block_func_0);
   ("__SKBlockVC__blockLocation_block_func_0", bf0 __SKBlockVC__blockLocation_block_func_0);
   ("__SKBlockLocationObj__blockLocation_block_func_0", bf0 __SKBlockLocationObj__blockLocation_block_func_0);
   ("__SKAutoReleaseTestObj__init_block_func_0", bf_id3 __SKAutoReleaseTestObj__init_block_func_0)].

(** Calling an address as a function: of these files, only the functions of blocks
    have their address taken, and they expect the block first; any other value
    is data. *)
Definition call_address (snd : senders) (f : val) (args : list val) : OM val :=
  match f, args with
  | VStatic name, cself :: args =>
      match find_named (block_funcs (fun _ _ => otimeout)) name with Some g => g snd cself args | None => ofault end
  | _, _ => ofault
  end.

(** [((T)((__block_impl * )b)->FuncPtr)((__block_impl * )b, args)] *)
Definition call_block (snd : senders) (b : val) (args : list val) : OM val :=
  let* f := load_slot b (OFFSETOFIVAR __block_impl "FuncPtr") in
  match f with
  | VStatic name =>
      match find_named (block_funcs (call_address snd)) name with Some g => g snd b args | None => ofault end
  | _ => ofault
  end.

End BlockFunctions.

(** ** The methods of SKBlockVC *)

Section BlockMethods.
Context (OBJC_IVAR : string -> string -> Z) (P : platform).

Local Abbreviation call_block := (call_block OBJC_IVAR).
Local Abbreviation call_address := (call_address OBJC_IVAR).

Definition to_int (v : val) : OM Z := match v with VInt z => oret z | _ => ofault end.

(** The structures of a function on the stack, freed at its end. *)
Fixpoint pop (locals : list val) : OM unit :=
  match locals with [] => oret tt | p :: locals' => free p ;; pop locals' end.

Definition _I_SKBlockVC_viewDidLoad (snd : senders) (self : val) : OM val :=
  let* _ := msgSendSuper snd "SKBlockVC" self "viewDidLoad" [] in
  let* _ := send0 snd self "blockTestAutoInLine" in
  let* view := send0 snd self "view" in
  let* color := send0 snd (VClass "UIColor") "whiteColor" in
  let* _ := msgSend snd view "setBackgroundColor:" [color] in
  let* _ := send0 snd self "test_canRetainCycle" in
  let* _ := send0 snd self "testGCD" in
  let* _ := send0 snd self "blockLocation" in
  oret nil.

(** The block that the getter returns is called as a function. *)
Definition _I_SKBlockVC_myBlockOne (snd : senders) (self : val) : OM val :=
  let* MyBlockOne := __SKBlockVC__myBlockOne_block_impl_0 "__SKBlockVC__myBlockOne_block_func_0"
                       "__SKBlockVC__myBlockOne_block_desc_0_DATA" in
  let* _ := call_block snd MyBlockOne [] in
  let* MyBlockTwo := __SKBlockVC__myBlockOne_block_impl_1 "__SKBlockVC__myBlockOne_block_func_1"
                       "__SKBlockVC__myBlockOne_block_desc_1_DATA" in
  let* _ := call_block snd MyBlockTwo [VInt 20] in
  let* MyBlockThree := __SKBlockVC__myBlockOne_block_impl_2 "__SKBlockVC__myBlockOne_block_func_2"
                         "__SKBlockVC__myBlockOne_block_desc_2_DATA" in
  let* r := call_block snd MyBlockThree [VInt 30] in
  let* r := to_int r in
  let* n := numberWithInt snd r in
  NSLog "SKBlockVC_mi_3" [n] ;;
  let* MyBlockFour := __SKBlockVC__myBlockOne_block_impl_3 "__SKBlockVC__myBlockOne_block_func_3"
                        "__SKBlockVC__myBlockOne_block_desc_3_DATA" in
  let* s := call_block snd MyBlockFour [] in
  NSLog "SKBlockVC_mi_5" [s] ;;
  let* b := __SKBlockVC__myBlockOne_block_impl_4 "__SKBlockVC__myBlockOne_block_func_4"
              "__SKBlockVC__myBlockOne_block_desc_4_DATA" in
  let* _ := msgSend snd self "setBlockFive:" [b] in
  let* f := send0 snd self "blockFive" in
  let* r := call_address snd f [VInt 30; VInt 50] in
  let* r := to_int r in
  let* n := numberWithInt snd r in
  NSLog "SKBlockVC_mi_6" [n] ;;
  void (pop [b; MyBlockFour; MyBlockThree; MyBlockTwo; MyBlockOne]).

Definition _I_SKBlockVC_blockAutoConn (snd : senders) (self : val) : OM val :=
  let* age := byref_init __Block_byref_age_0 "age" 10 in
  let* _ := msgSend snd self "setAgeTest:" [VInt 10] in
  let* p := byref_addr __Block_byref_age_0 "age" age in
  NSLog "SKBlockVC_mi_7" [p] ;;
  NSLog "SKBlockVC_mi_8" [addr self (OBJC_IVAR "SKBlockVC" "_ageTest")] ;;
  let* block := __SKBlockVC__blockAutoConn_block_impl_0 "__SKBlockVC__blockAutoConn_block_func_0"
                  "__SKBlockVC__blockAutoConn_block_desc_0_DATA" self age BLOCK_FLAGS in
  byref_set __Block_byref_age_0 "age" age 18 ;;
  let* p := byref_addr __Block_byref_age_0 "age" age in
  NSLog "SKBlockVC_mi_13" [p] ;;
  let* t := send0 snd self "ageTest" in
  let* n := numberWithInteger snd t in
  NSLog "SKBlockVC_mi_14" [n] ;;
  NSLog "SKBlockVC_mi_15" [addr self (OBJC_IVAR "SKBlockVC" "_ageTest")] ;;
  let* _ := call_block snd block [] in
  void (pop [block; age]).

Definition _I_SKBlockVC_blockBlock (snd : senders) (self : val) : OM val :=
  let* age := byref_init __Block_byref_age_1 "age" 10 in
  let* m := alloc_init snd "TestModel" in
  let* testModel := local m in
  let* p := byref_addr __Block_byref_age_1 "age" age in
  let* v := byref_get __Block_byref_age_1 "age" age in
  let* n := numberWithInt snd v in
  NSLog "SKBlockVC_mi_16" [p; n] ;;
  NSLog "SKBlockVC_mi_17" [addr testModel 0; m] ;;
  let* block := __SKBlockVC__blockBlock_block_impl_0 "__SKBlockVC__blockBlock_block_func_0"
                  "__SKBlockVC__blockBlock_block_desc_0_DATA" m age BLOCK_FLAGS in
  byref_set __Block_byref_age_1 "age" age 20 ;;
  let* _ := call_block snd block [] in
  let* p := byref_addr __Block_byref_age_1 "age" age in
  let* v := byref_get __Block_byref_age_1 "age" age in
  let* n := numberWithInt snd v in
  NSLog "SKBlockVC_mi_20" [p; n] ;;
  NSLog "SKBlockVC_mi_21" [addr testModel 0; m] ;;
  void (pop [block; testModel; age]).

Definition _I_SKBlockVC_blockCopyAction (snd : senders) (self : val) : OM val := oret nil.

Definition _I_SKBlockVC_printCopyRetainCount (snd : senders) (self : val) : OM val :=
  let* b := __SKBlockVC__printCopyRetainCount_block_impl_0 "__SKBlockVC__printCopyRetainCount_block_func_0"
              "__SKBlockVC__printCopyRetainCount_block_desc_0_DATA" in
  let* _ := msgSend snd self "setBlockFive:" [b] in
  let* f := send0 snd self "blockFive" in
  let* f := send0 snd f "copy" in
  let* f := send0 snd f "copy" in
  let* n := CFGetRetainCount P f in
  printf "retain count = %ld\n" [VInt n] ;;
  void (pop [b]).

Definition _I_SKBlockVC_blockForward (snd : senders) (self : val) : OM val := oret nil.

Definition _I_SKBlockVC_retainCycleIML (snd : senders) (self : val) : OM val := oret nil.

(** The block that the getter [sumOf] returns is called as a function. *)
Definition _I_SKBlockVC_blockExample (snd : senders) (self : val) : OM val :=
  let* sum := __SKBlockVC__blockExample_block_impl_0 "__SKBlockVC__blockExample_block_func_0"
                "__SKBlockVC__blockExample_block_desc_0_DATA" in
  let* r := call_block snd sum [VInt 20; VInt 30] in
  let* r := to_int r in
  let* n := numberWithInt snd r in
  NSLog "SKBlockVC_mi_22" [n] ;;
  let* block := __SKBlockVC__blockExample_block_impl_1 "__SKBlockVC__blockExample_block_func_1"
                  "__SKBlockVC__blockExample_block_desc_1_DATA" in
  let* r := call_block snd block [VInt 2; VInt 3] in
  let* r := to_int r in
  let* n := numberWithInt snd r in
  NSLog "SKBlockVC_mi_23" [n] ;;
  let* b := __SKBlockVC__blockExample_block_impl_2 "__SKBlockVC__blockExample_block_func_2"
              "__SKBlockVC__blockExample_block_desc_2_DATA" in
  let* _ := msgSend snd self "setSumOf:" [b] in
  let* f := send0 snd self "sumOf" in
  let* r := call_address snd f [VInt 10; VInt 2] in
  let* r := to_int r in
  let* n := numberWithInt snd r in
  NSLog "SKBlockVC_mi_24" [n] ;;
  void (pop [b; block; sum]).

Definition _I_SKBlockVC_testBlockHaha (snd : senders) (self : val) : OM val :=
  let* b0 := __SKBlockVC__testBlockHaha_block_impl_0 "__SKBlockVC__testBlockHaha_block_func_0"
               "__SKBlockVC__testBlockHaha_block_desc_0_DATA" in
  let* _ := msgSend snd self "testTimeConsume:" [b0] in
  let* b1 := __SKBlockVC__testBlockHaha_block_impl_1 "__SKBlockVC__testBlockHaha_block_func_1"
               "__SKBlockVC__testBlockHaha_block_desc_1_DATA" in
  let* _ := msgSend snd self "testTimeConsumeOne:" [b1] in
  void (pop [b1; b0]).

Definition _I_SKBlockVC_testTimeConsume_ (snd : senders) (self middleBlock : val) : OM val :=
  let* startTime := CACurrentMediaTime P in
  let* _ := call_block snd middleBlock [] in
  let* endTime := CACurrentMediaTime P in
  oret (d_sub P endTime startTime).

Definition _I_SKBlockVC_testTimeConsumeOne_ (snd : senders) (self middleBlock : val) : OM val :=
  let* startTime := CACurrentMediaTime P in
  let* _ := call_block snd middleBlock [VStatic "SKBlockVC_mi_27"] in
  let* endTime := CACurrentMediaTime P in
  oret (d_sub P endTime startTime).

Definition _I_SKBlockVC_blockCallBack (snd : senders) (self : val) : OM val := oret nil.

(** The bodies of the two loops of [blockTestAutoInLine]; a block of a loop body
    ends with its round. *)
Definition auto_round_0 (snd : senders) (i : Z) : OM unit :=
  let* blt := __SKBlockVC__blockTestAutoInLine_block_impl_0 "__SKBlockVC__blockTestAutoInLine_block_func_0"
                "__SKBlockVC__blockTestAutoInLine_block_desc_0_DATA" i in
  let* _ := call_block snd blt [VInt 2] in
  pop [blt].

Definition auto_round_1 (snd : senders) (i : Z) : OM unit :=
  let k := i in
  let* blk := __SKBlockVC__blockTestAutoInLine_block_impl_1 "__SKBlockVC__blockTestAutoInLine_block_func_1"
                "__SKBlockVC__blockTestAutoInLine_block_desc_1_DATA" in
  let* _ := call_block snd blk [VInt k] in
  pop [blk].

(** [for (int i = 0; i < 10; i++) body(i)]: [fuel] rounds are enough for ten. *)
Fixpoint for_to_10 (fuel : nat) (body : Z -> OM unit) (i : Z) : OM unit :=
  match fuel with
  | O => otimeout
  | S fuel' => if i <? 10 then body i ;; for_to_10 fuel' body (s32 (i + 1)) else oret tt
  end.

Definition _I_SKBlockVC_blockTestAutoInLine (snd : senders) (self : val) : OM val :=
  for_to_10 11 (auto_round_0 snd) 0 ;;
  for_to_10 11 (auto_round_1 snd) 0 ;;
  let* x := byref_init __Block_byref_val_2 "val" 0 in
  let* b := __SKBlockVC__blockTestAutoInLine_block_impl_2 "__SKBlockVC__blockTestAutoInLine_block_func_2"
              "__SKBlockVC__blockTestAutoInLine_block_desc_2_DATA" x BLOCK_FLAGS in
  let* blk := send0 snd b "copy" in
  let* v := byref_get __Block_byref_val_2 "val" x in
  byref_set __Block_byref_val_2 "val" x (s32 (v + 1)) ;;
  let* _ := call_block snd blk [] in
  let* n := CFGetRetainCount P blk in
  printf "retain count = %ld\n" [VInt n] ;;
  let* array := msgSend snd (VClass "NSMutableArray") "arrayWithCapacity:" [VInt 3] in
  let* blm := __SKBlockVC__blockTestAutoInLine_block_impl_3 "__SKBlockVC__blockTestAutoInLine_block_func_3"
                "__SKBlockVC__blockTestAutoInLine_block_desc_3_DATA" array BLOCK_FLAGS in
  let* o := alloc_init snd "NSObject" in
  let* _ := call_block snd blm [o] in
  let* o := alloc_init snd "NSObject" in
  let* _ := call_block snd blm [o] in
  let* o := alloc_init snd "NSObject" in
  let* _ := call_block snd blm [o] in
  void (pop [blm; b; x]).

Definition _I_SKBlockVC_testTimeCaluate (snd : senders) (self : val) : OM val :=
  let* startTime := CFAbsoluteTimeGetCurrent P in
  let* now := CFAbsoluteTimeGetCurrent P in
  let endTime := d_sub P now startTime in
  void (NSLog "SKBlockVC_mi_29" [d_mul P endTime (d_of_literal P "1000.0")]).

(** Unsigned 64-bit arithmetic; a zero denominator is undefined. *)
Definition _I_SKBlockVC_timeOfMach (snd : senders) (self : val) : OM val :=
  let* timebase := mach_timebase_info P in
  let '(numer, denom) := timebase in
  let* start := mach_absolute_time P in
  let* fin := mach_absolute_time P in
  if denom =? 0 then ofault else
  let cost := u64 (u64 (fin - start) * numer) / denom in
  void (NSLog "SKBlockVC_mi_30"
          [d_mul P (d_div P (d_of_u64 P cost) (d_of_u64 P 1000000000)) (d_of_literal P "1000.0")]).

Definition _I_SKBlockVC_testExpandedProperty (snd : senders) (self : val) : OM val :=
  let* expand := alloc_init snd "TestExpand" in
  let* _ := msgSend snd expand "setMustProperty:" [VStatic "SKBlockVC_mi_31"] in
  let* _ := send0 snd expand "testExpanded" in
  let* s := send0 snd expand "mustProperty" in
  void (NSLog "SKBlockVC_mi_32" [s]).

Definition _I_SKBlockVC_tempArrayTemp (snd : senders) (self : val) : OM val :=
  let* model := alloc_init snd "TestModel" in
  let* _ := msgSend snd model "setName:" [VStatic "SKBlockVC_mi_33"] in
  let* two := numberWithInt snd 2 in
  let* array := msgSend snd (VClass "NSMutableArray") "arrayWithObjects:" [VStatic "SKBlockVC_mi_34"; model; two; nil] in
  let* _ := msgSend snd self "testArray:" [array] in
  oret nil.

Definition _I_SKBlockVC_testArray_ (snd : senders) (self array : val) : OM val :=
  let* _ := msgSend snd self "setDataArry:" [array] in
  let* a := send0 snd self "dataArry" in
  let* _ := msgSend snd a "removeObjectAtIndex:" [VInt 0] in
  oret nil.

Definition _I_SKBlockVC_OSSpinLock (snd : senders) (self : val) : OM val := oret nil.

Definition _I_SKBlockVC_testStr (snd : senders) (self : val) : OM val :=
  let* _ := msgSend snd self "setTempStr:" [VStatic "SKBlockVC_mi_35"] in
  let* a := send0 snd (VClass "NSMutableString") "alloc" in
  let* muteableStr := msgSend snd a "initWithString:" [VStatic "SKBlockVC_mi_36"] in
  let* _ := msgSend snd self "setTempStr:" [muteableStr] in
  let* s := send0 snd self "tempStr" in
  void (NSLog "SKBlockVC_mi_37" [s]).

Definition _I_SKBlockVC_linkTest (snd : senders) (self : val) : OM val :=
  let* b := __SKBlockVC__linkTest_block_impl_0 "__SKBlockVC__linkTest_block_func_0"
              "__SKBlockVC__linkTest_block_desc_0_DATA" in
  let* result := msgSend snd (VClass "NSString") "sk_makeTool:" [b] in
  NSLog "SKBlockVC_mi_38" [result] ;;
  void (pop [b]).

Definition _I_SKBlockVC_testLength (snd : senders) (self : val) : OM val :=
  let* numberofMax := msgSend snd self "lengthOfLongestSubstring:" [VStatic "SKBlockVC_mi_39"] in
  void (NSLog "SKBlockVC_mi_40" [numberofMax]).

(** What the rounds log, boxed: [j], [i], [k] and the maximum. *)
Fixpoint log_rounds (snd : senders) (log : list round) : OM unit :=
  match log with
  | [] => oret tt
  | (j, i, k, max) :: log' =>
      let* nj := numberWithInteger snd (VInt j) in
      let* ni := numberWithInteger snd (VInt i) in
      let* nk := numberWithInteger snd (VInt k) in
      let* nmax := numberWithInteger snd (VInt max) in
      NSLog "SKBlockVC_mi_41" [nj; ni; nk; nmax] ;;
      log_rounds snd log'
  end.

(** The loops read the string only, so that their rounds and what each logs can be
    listed first. *)
Definition _I_SKBlockVC_lengthOfLongestSubstring_ (snd : senders) (self str : val) : OM val :=
  let* r := lift (lengthOfLongestSubstring (string_units P str)) in
  let '(max, log) := r in
  log_rounds snd log ;;
  oret (VInt max).

Definition _I_SKBlockVC_test_canRetainCycle (snd : senders) (self : val) : OM val := oret nil.

Definition _I_SKBlockVC_testGCD (snd : senders) (self : val) : OM val :=
  let* b := __SKBlockVC__testGCD_block_impl_0 "__SKBlockVC__testGCD_block_func_0"
              "__SKBlockVC__testGCD_block_desc_0_DATA" self BLOCK_FLAGS in
  dispatch_async P (dispatch_get_main_queue P) b ;;
  void (pop [b]).

Definition _I_SKBlockVC_blockLocation (snd : senders) (self : val) : OM val :=
  let log fmt a :=
    let* p := byref_addr __Block_byref_a_3 "a" a in
    let* v := byref_get __Block_byref_a_3 "a" a in
    let* n := numberWithInt snd v in
    NSLog fmt [p; n] in
  let* a := byref_init __Block_byref_a_3 "a" 10 in
  log "SKBlockVC_mi_42" a ;;
  let* blockValueTest := __SKBlockVC__blockLocation_block_impl_0 "__SKBlockVC__blockLocation_block_func_0"
                           "__SKBlockVC__blockLocation_block_desc_0_DATA" a BLOCK_FLAGS in
  log "SKBlockVC_mi_44" a ;;
  let* _ := call_block snd blockValueTest [] in
  log "SKBlockVC_mi_45" a ;;
  void (pop [blockValueTest; a]).

Definition _I_SKBlockVC_dealloc (snd : senders) (self : val) : OM val := void (NSLog "SKBlockVC_mi_46" []).

Definition ivar_get (c ivar : string) (self : val) : OM val := load_slot self (OBJC_IVAR c ivar).
Definition ivar_set (c ivar : string) (self v : val) : OM val := void (store_slot self (OBJC_IVAR c ivar) v).

Definition _I_SKBlockVC_tempStr (snd : senders) (self : val) : OM val := ivar_get "SKBlockVC" "_tempStr" self.
Definition _I_SKBlockVC_setTempStr_ (snd : senders) (self tempStr : val) : OM val := ivar_set "SKBlockVC" "_tempStr" self tempStr.
Definition _I_SKBlockVC_dataArry (snd : senders) (self : val) : OM val := ivar_get "SKBlockVC" "_dataArry" self.
Definition _I_SKBlockVC_setDataArry_ (snd : senders) (self dataArry : val) : OM val := ivar_set "SKBlockVC" "_dataArry" self dataArry.
Definition _I_SKBlockVC_model (snd : senders) (self : val) : OM val := ivar_get "SKBlockVC" "_model" self.
Definition _I_SKBlockVC_setModel_ (snd : senders) (self model : val) : OM val :=
  void (objc_setProperty snd self (OFFSETOFIVAR SKBlockVC_IMPL "_model") model false 1).
Definition _I_SKBlockVC_blockFive (snd : senders) (self : val) : OM val := ivar_get "SKBlockVC" "_blockFive" self.
Definition _I_SKBlockVC_setBlockFive_ (snd : senders) (self blockFive : val) : OM val :=
  void (objc_setProperty snd self (OFFSETOFIVAR SKBlockVC_IMPL "_blockFive") blockFive false 1).
Definition _I_SKBlockVC_blockCycle (snd : senders) (self : val) : OM val := ivar_get "SKBlockVC" "_blockCycle" self.
Definition _I_SKBlockVC_setBlockCycle_ (snd : senders) (self blockCycle : val) : OM val :=
  ivar_set "SKBlockVC" "_blockCycle" self blockCycle.
Definition _I_SKBlockVC_ageTest (snd : senders) (self : val) : OM val := ivar_get "SKBlockVC" "_ageTest" self.
Definition _I_SKBlockVC_setAgeTest_ (snd : senders) (self ageTest : val) : OM val := ivar_set "SKBlockVC" "_ageTest" self ageTest.
Definition _I_SKBlockVC_sumOf (snd : senders) (self : val) : OM val := ivar_get "SKBlockVC" "_sumOf" self.
Definition _I_SKBlockVC_setSumOf_ (snd : senders) (self sumOf : val) : OM val :=
  void (objc_setProperty snd self (OFFSETOFIVAR SKBlockVC_IMPL "_sumOf") sumOf false 1).
Definition _I_SKBlockVC_is_canFly (snd : senders) (self : val) : OM val := ivar_get "SKBlockVC" "_is_canFly" self.
(** The parameter and the ivar are a BOOL: a caller passes a value that is one byte already. *)
Definition _I_SKBlockVC_setIs_canFly_ (snd : senders) (self is_canFly : val) : OM val :=
  ivar_set "SKBlockVC" "_is_canFly" self is_canFly.
Definition _I_SKBlockVC_block_Cycle (snd : senders) (self : val) : OM val := ivar_get "SKBlockVC" "_block_Cycle" self.
Definition _I_SKBlockVC_setBlock_Cycle_ (snd : senders) (self block_Cycle : val) : OM val :=
  ivar_set "SKBlockVC" "_block_Cycle" self block_Cycle.
Definition _I_SKBlockVC_notification (snd : senders) (self : val) : OM val := ivar_get "SKBlockVC" "_notification" self.
Definition _I_SKBlockVC_setNotification_ (snd : senders) (self notification : val) : OM val :=
  ivar_set "SKBlockVC" "_notification" self notification.

(** ** SKBlockLocationObj and SKAutoReleaseTestObj *)

Definition _I_SKBlockLocationObj_init (snd : senders) (self : val) : OM val :=
  let* self := msgSendSuper snd "SKBlockLocationObj" self "init" [] in
  oret self.

Definition _C_SKBlockLocationObj_load (snd : senders) (self : val) : OM val :=
  let* obj := alloc_init snd "SKBlockLocationObj" in
  let* _ := send0 snd obj "blockLocation" in
  oret nil.

Definition _I_SKBlockLocationObj_blockLocation (snd : senders) (self : val) : OM val :=
  let log fmt a :=
    let* p := byref_addr __Block_byref_a_0 "a" a in
    let* v := byref_get __Block_byref_a_0 "a" a in
    let* n := numberWithInt snd v in
    NSLog fmt [p; n] in
  let* a := byref_init __Block_byref_a_0 "a" 10 in
  log "SKBlockLocationObj_mi_0" a ;;
  let* foo := __SKBlockLocationObj__blockLocation_block_impl_0 "__SKBlockLocationObj__blockLocation_block_func_0"
                "__SKBlockLocationObj__blockLocation_block_desc_0_DATA" a BLOCK_FLAGS in
  log "SKBlockLocationObj_mi_2" a ;;
  let* _ := call_block snd foo [] in
  log "SKBlockLocationObj_mi_3" a ;;
  void (pop [foo; a]).

(** The autorelease pool of the block scope is empty. *)
Definition _I_SKAutoReleaseTestObj_init (snd : senders) (self : val) : OM val :=
  let* self := msgSendSuper snd "SKAutoReleaseTestObj" self "init" [] in
  (if decide (self = nil) then oret tt else
     let* one := numberWithInt snd 1 in
     let* three := numberWithInt snd 3 in
     let* array := msgSend snd (VClass "NSArray") "arrayWithObjects:" [one; three; nil] in
     let* b := __SKAutoReleaseTestObj__init_block_impl_0 "__SKAutoReleaseTestObj__init_block_func_0"
                 "__SKAutoReleaseTestObj__init_block_desc_0_DATA" in
     let* _ := msgSend snd array "enumerateObjectsUsingBlock:" [b] in
     pop [b]) ;;
  oret self.

(** ** The functions the method lists name *)

Definition block_imps : list (string * imp) :=
  [("_I_SKBlockVC_viewDidLoad", imp0 _I_SKBlockVC_viewDidLoad);
   ("_I_SKBlockVC_myBlockOne", imp0 _I_SKBlockVC_myBlockOne);
   ("_I_SKBlockVC_blockAutoConn", imp0 _I_SKBlockVC_blockAutoConn);
   ("_I_SKBlockVC_blockBlock", imp0 _I_SKBlockVC_blockBlock);
   ("_I_SKBlockVC_blockCopyAction", imp0 _I_SKBlockVC_blockCopyAction);
   ("_I_SKBlockVC_printCopyRetainCount", imp0 _I_SKBlockVC_printCopyRetainCount);
   ("_I_SKBlockVC_blockForward", imp0 _I_SKBlockVC_blockForward);
   ("_I_SKBlockVC_retainCycleIML", imp0 _I_SKBlockVC_retainCycleIML);
   ("_I_SKBlockVC_blockExample", imp0 _I_SKBlockVC_blockExample);
   ("_I_SKBlockVC_testBlockHaha", imp0 _I_SKBlockVC_testBlockHaha);
   ("_I_SKBlockVC_testTimeConsume_", imp1 _I_SKBlockVC_testTimeConsume_);
   ("_I_SKBlockVC_testTimeConsumeOne_", imp1 _I_SKBlockVC_testTimeConsumeOne_);
   ("_I_SKBlockVC_blockCallBack", imp0 _I_SKBlockVC_blockCallBack);
   ("_I_SKBlockVC_blockTestAutoInLine", imp0 _I_SKBlockVC_blockTestAutoInLine);
   ("_I_SKBlockVC_testTimeCaluate", imp0 _I_SKBlockVC_testTimeCaluate);
   ("_I_SKBlockVC_timeOfMach", imp0 _I_SKBlockVC_timeOfMach);
   ("_I_SKBlockVC_testExpandedProperty", imp0 _I_SKBlockVC_testExpandedProperty);
   ("_I_SKBlockVC_tempArrayTemp", imp0 _I_SKBlockVC_tempArrayTemp);
   ("_I_SKBlockVC_testArray_", imp1 _I_SKBlockVC_testArray_);
   ("_I_SKBlockVC_OSSpinLock", imp0 _I_SKBlockVC_OSSpinLock);
   ("_I_SKBlockVC_testStr", imp0 _I_SKBlockVC_testStr);
   ("_I_SKBlockVC_linkTest", imp0 _I_SKBlockVC_linkTest);
   ("_I_SKBlockVC_testLength", imp0 _I_SKBlockVC_testLength);
   ("_I_SKBlockVC_lengthOfLongestSubstring_", imp1 _I_SKBlockVC_lengthOfLongestSubstring_);
   ("_I_SKBlockVC_test_canRetainCycle", imp0 _I_SKBlockVC_test_canRetainCycle);
   ("_I_SKBlockVC_testGCD", imp0 _I_SKBlockVC_testGCD);
   ("_I_SKBlockVC_blockLocation", imp0 _I_SKBlockVC_blockLocation);
   ("_I_SKBlockVC_dealloc", imp0 _I_SKBlockVC_dealloc);
   ("_I_SKBlockVC_tempStr", imp0 _I_SKBlockVC_tempStr);
   ("_I_SKBlockVC_setTempStr_", imp1 _I_SKBlockVC_setTempStr_);
   ("_I_SKBlockVC_dataArry", imp0 _I_SKBlockVC_dataArry);
   ("_I_SKBlockVC_setDataArry_", imp1 _I_SKBlockVC_setDataArry_);
   ("_I_SKBlockVC_model", imp0 _I_SKBlockVC_model);
   ("_I_SKBlockVC_setModel_", imp1 _I_SKBlockVC_setModel_);
   ("_I_SKBlockVC_blockFive", imp0 _I_SKBlockVC_blockFive);
   ("_I_SKBlockVC_setBlockFive_", imp1 _I_SKBlockVC_setBlockFive_);
   ("_I_SKBlockVC_blockCycle", imp0 _I_SKBlockVC_blockCycle);
   ("_I_SKBlockVC_setBlockCycle_", imp1 _I_SKBlockVC_setBlockCycle_);
   ("_I_SKBlockVC_ageTest", imp0 _I_SKBlockVC_ageTest);
   ("_I_SKBlockVC_setAgeTest_", imp1 _I_SKBlockVC_setAgeTest_);
   ("_I_SKBlockVC_sumOf", imp0 _I_SKBlockVC_sumOf);
   ("_I_SKBlockVC_setSumOf_", imp1 _I_SKBlockVC_setSumOf_);
   ("_I_SKBlockVC_is_canFly", imp0 _I_SKBlockVC_is_canFly);
   ("_I_SKBlockVC_setIs_canFly_", imp1 _I_SKBlockVC_setIs_canFly_);
   ("_I_SKBlockVC_block_Cycle", imp0 _I_SKBlockVC_block_Cycle);
   ("_I_SKBlockVC_setBlock_Cycle_", imp1 _I_SKBlockVC_setBlock_Cycle_);
   ("_I_SKBlockVC_notification", imp0 _I_SKBlockVC_notification);
   ("_I_SKBlockVC_setNotification_", imp1 _I_SKBlockVC_setNotification_);
   ("_I_SKBlockLocationObj_init", imp0 _I_SKBlockLocationObj_init);
   ("_C_SKBlockLocationObj_load", imp0 _C_SKBlockLocationObj_load);
   ("_I_SKBlockLocationObj_blockLocation", imp0 _I_SKBlockLocationObj_blockLocation);
   ("_I_SKAutoReleaseTestObj_init", imp0 _I_SKAutoReleaseTestObj_init)].

End BlockMethods.
