(* ===== verification/ProgramRuntime.v ===== *)
(** * The program as it runs

    The 20 lowered files loaded into the runtime: the class objects after the
    set-up hooks, the categories in any load order, the realized ivar offsets
    and the method implementations; what a message to one of the program's
    objects comes to. *)

From Stdlib Require Import ZArith Lia Bool String Permutation.
From stdpp Require Import base list gmap strings.
From S2P Require Import Prelude ObjCData ObjCImages ObjCImagesSpec IvarLayout MethodList ObjCRuntime MethodCache LoweredMethods BlocksRuntime LoweredBlocks.

Local Open Scope string_scope.
Local Open Scope Z_scope.

Definition program : metadata := load_images images.
Definition program_catlist : list string := concat (map img_catlist images).

(** The class objects are evaluated by [vm_compute] only. *)
#[global] Opaque program.

(** An instance of NSObject is its isa; the other framework classes have the
    sizes the system gives them. *)
Definition import_size (fw_size : string -> Z) (sym : string) : Z :=
  if decide (sym = class_sym "NSObject") then sizeof_struct NSObject_IMPL else fw_size sym.

(** The value of OBJC_IVAR_$_<class>$<ivar> once the class is realized. *)
Definition realized_ivar (fw_size : string -> Z) (c ivar : string) : Z :=
  match realize (import_size fw_size) 20 program (class_sym c) with
  | Some r =>
      match List.filter (fun iv => String.eqb (iv_name iv) ivar) (default [] (rt_ivars r)) with
      | iv :: _ => default (-1) (iv_offset iv)
      | [] => -1
      end
  | None => -1
  end.

(** ** Method lookup in the program *)

(** The method a class object has itself, by precedence. *)
Definition own_method (S : metadata) (catlist : list string) (F : framework) (sym sel : string) : option IMP :=
  match find_method sel (precedence (is_meta S sym) (base_methods S sym) (cats_of S catlist sym)) with
  | Some m => Some (Imp (_imp m))
  | None => if framework_responds S F sym sel then Some (FrameworkImp sym) else None
  end.

Fixpoint own_chain (S : metadata) (catlist : list string) (F : framework) (n : nat) (cur : option string) (sel : string)
  : outcome (option IMP) :=
  match cur with
  | None => Ret None
  | Some c =>
      match n with
      | O => Fault
      | Datatypes.S n' =>
          match own_method S catlist F c sel with
          | Some i => Ret (Some i)
          | None => own_chain S catlist F n' (superclass_of S F c) sel
          end
      end
  end.

(** The system gives different selectors different addresses. *)
Definition selectors_uniqued (F : framework) : Prop :=
  forall s t, sel_addr F s = sel_addr F t -> s = t.

(** Lists of all classes and categories of the program are short. *)
Definition short_list (l : option (ent_list _objc_method)) : bool :=
  match l with Some l => (length (entries l) <? 1000)%nat | None => true end.

Lemma short_list_ok l : short_list (Some l) = true -> Z.of_nat (length (entries l)) < 2 ^ 32.
Proof. simpl. rewrite Nat.ltb_lt. lia. Qed.

Lemma program_short :
  Forall (fun p => short_list (baseMethods (ro p.2)) = true) (map_to_list (classes program)) /\
  Forall (fun p => short_list (instance_methods p.2) = true /\ short_list (class_methods p.2) = true)
    (map_to_list (categories program)).
Proof. apply (bool_decide_unpack _). vm_compute. exact I. Qed.

Lemma cats_of_category S catlist sym k : k ∈ cats_of S catlist sym -> exists s, categories S !! s = Some k.
Proof.
  unfold cats_of. rewrite list_elem_of_In, filter_In, <- list_elem_of_In. intros [Hk _].
  apply list_elem_of_omap in Hk as (s & _ & Hs). eauto.
Qed.

Lemma program_small catlist sym :
  small_lists (is_meta program sym) (base_methods program sym) (cats_of program catlist sym).
Proof.
  destruct program_short as [Hb Hc]. rewrite Forall_forall in Hb. rewrite Forall_forall in Hc.
  unfold small_lists. apply Forall_app. split.
  - apply Forall_forall. intros l Hl. apply list_elem_of_omap in Hl as (k & Hk & Hl).
    rewrite elem_of_reverse in Hk.
    destruct (cats_of_category _ _ _ _ Hk) as (s & Hs). apply elem_of_map_to_list in Hs.
    apply short_list_ok. rewrite <- Hl. unfold category_methods. destruct (is_meta program sym); by apply (Hc _ Hs).
  - unfold base_methods. destruct (classes program !! sym) as [c|] eqn:Ec; [|constructor].
    apply elem_of_map_to_list in Ec. specialize (Hb _ Ec). simpl in Hb.
    destruct (baseMethods (ro c)) as [l|]; constructor; [|done]. by apply short_list_ok.
Qed.

Lemma getMethod_own catlist F sym sel : selectors_uniqued F ->
  getMethodNoSuper_nolock program catlist F sym sel = Ret (own_method program catlist F sym sel).
Proof.
  intros Hu. unfold getMethodNoSuper_nolock. rewrite methodizeClass_search; [done|exact Hu|apply program_small].
Qed.

Lemma search_chain_own catlist F n cur sel : selectors_uniqued F ->
  search_chain program catlist F n cur sel = own_chain program catlist F n cur sel.
Proof.
  intros Hu. revert cur. induction n as [|n IH]; intros [c|]; simpl; [done..| |done].
  rewrite getMethod_own by done. simpl. by destruct (own_method program catlist F c sel).
Qed.

Lemma lookup_own catlist F cls sel r : selectors_uniqued F ->
  own_chain program catlist F 16 (Some cls) sel = Ret r -> lookup_method program catlist F cls sel = Ret r.
Proof.
  intros Hu Hr. unfold lookup_method. eapply search_chain_mono; [by rewrite search_chain_own|].
  unfold unreasonableClassCount. lia.
Qed.

(** ** The order of the categories does not matter *)

Lemma find_method_perm sel l l' : l ≡ₚ l' -> NoDup (map _cmd l) -> find_method sel l = find_method sel l'.
Proof.
  unfold find_method. intros Hp. induction Hp as [|m l l' Hp IH|m1 m2 l|l1 l2 l3 Hp1 IH1 Hp2 IH2]; simpl; intros Hn; [done|..].
  - apply NoDup_cons in Hn as [_ Hn]. destruct (String.eqb (_cmd m) sel); [done|by apply IH].
  - apply NoDup_cons in Hn as [Hn _].
    destruct (String.eqb (_cmd m1) sel) eqn:E1, (String.eqb (_cmd m2) sel) eqn:E2; try done.
    apply String.eqb_eq in E1, E2. rewrite elem_of_cons in Hn. destruct Hn. left. congruence.
  - rewrite IH1 by done. apply IH2. by rewrite <- Hp1.
Qed.

Lemma list_filter_perm {A} (f : A -> bool) l l' : l ≡ₚ l' -> List.filter f l ≡ₚ List.filter f l'.
Proof.
  induction 1 as [|x l l' _ IH|x y l|l1 l2 l3 _ IH1 _ IH2]; simpl; [done|..].
  - destruct (f x); [by apply perm_skip|done].
  - destruct (f x), (f y); done || apply perm_swap.
  - by etrans.
Qed.

(** The class objects that have categories. *)
Definition extended_classes : list string :=
  ["OBJC_CLASS_$_NSObject"; "OBJC_METACLASS_$_NSObject"; "OBJC_CLASS_$_TestExpand"; "OBJC_METACLASS_$_TestExpand"].

Lemma cats_of_none S catlist (ext : list string) sym : sym ∉ ext -> "" ∉ ext ->
  Forall (fun k => default "" (cls k) ∈ ext /\ default "" (cls k ≫= ISA S) ∈ ext)
    (omap (fun k => categories S !! k) catlist) ->
  cats_of S catlist sym = [].
Proof.
  intros Hn He. unfold cats_of. induction 1 as [|k l [H1 H2] Hl IH]; [done|]. cbn [List.filter].
  rewrite bool_decide_eq_false_2; [done|]. intros Hs.
  destruct (is_meta S sym); rewrite Hs in *; done.
Qed.

Lemma cats_of_others sym : sym ∉ extended_classes -> cats_of program program_catlist sym = [].
Proof.
  intros Hn. apply (cats_of_none _ _ extended_classes); [done|..]; apply (bool_decide_unpack _); vm_compute; exact I.
Qed.

Lemma own_method_any_order catlist F sym sel : catlist ≡ₚ program_catlist ->
  own_method program catlist F sym sel = own_method program program_catlist F sym sel.
Proof.
  intros Hp. unfold own_method, precedence.
  set (isM := is_meta program sym). rewrite !find_method_app.
  assert (He : find_method sel (concat (map entries (omap (category_methods isM) (reverse (cats_of program catlist sym)))))
    = find_method sel (concat (map entries (omap (category_methods isM) (reverse (cats_of program program_catlist sym)))))).
  2: { by rewrite He. }
  assert (Hcats : cats_of program catlist sym ≡ₚ cats_of program program_catlist sym).
  { unfold cats_of. apply list_filter_perm. by apply omap_Permutation. }
  symmetry. apply find_method_perm.
  - rewrite <- !flat_map_concat_map. apply Permutation_flat_map. apply omap_Permutation. by rewrite !reverse_Permutation.
  - destruct (decide (sym ∈ extended_classes)) as [Hin|Hout].
    + assert (Hall : Forall (fun sym => NoDup (map _cmd (concat (map entries
        (omap (category_methods (is_meta program sym)) (reverse (cats_of program program_catlist sym)))))))
        extended_classes) by (apply (bool_decide_unpack _); vm_compute; exact I).
      rewrite Forall_forall in Hall. by apply Hall.
    + rewrite cats_of_others by done. constructor.
Qed.

Lemma own_chain_any_order catlist F n cur sel : catlist ≡ₚ program_catlist ->
  own_chain program catlist F n cur sel = own_chain program program_catlist F n cur sel.
Proof.
  intros Hp. revert cur. induction n as [|n IH]; intros [c|]; cbn [own_chain]; [done..| |done].
  rewrite own_method_any_order by done. destruct (own_method program program_catlist F c sel); [done|apply IH].
Qed.

(** ** Sending messages to the program's objects *)

Section Program.
Context (F : framework) (catlist : list string) (fw_size : string -> Z) (P : platform).

Definition program_imps : list (string * imp) :=
  lowered_imps (realized_ivar fw_size) (NSStringFromClass P) ++ block_imps (realized_ivar fw_size) P.

(** The senders of the program with [k] nested sends. *)
Definition rt (k : nat) : senders := runtime program catlist F program_imps k.

Definition ok (w : world) : Prop := coherent program catlist F w.

Lemma ok_caches w w' : caches w' = caches w -> ok w -> ok w'.
Proof. intros He Hc cls sel i. rewrite He. apply Hc. Qed.

(** The method a class of the program answers a selector with. *)
Definition method_of (sym sel : string) : outcome (option IMP) :=
  own_chain program program_catlist F 16 (Some sym) sel.

(** A step that leaves everything but the caches alone. *)
Definition quiet (w w' : world) : Prop := same_state w w' /\ (ok w -> ok w').

#[export] Instance quiet_preorder : PreOrder quiet.
Proof.
  split; [done|]. intros w1 w2 w3 [H1 H2] [H3 H4]. split; [by etrans|auto].
Qed.

Context (Hu : selectors_uniqued F) (Hp : catlist ≡ₚ program_catlist).

Lemma lookup_method_of sym sel r : method_of sym sel = Ret r -> lookup_method program catlist F sym sel = Ret r.
Proof. intros Hm. apply lookup_own; [done|]. by rewrite own_chain_any_order. Qed.

Lemma msgSend_dispatch k self sym sel args i w :
  ok w -> self <> nil -> receiver_class program w self = Some sym -> method_of sym sel = Ret (Some i) ->
  exists w', same_state w w' /\ ok w' /\
    msgSend (rt (Datatypes.S k)) self sel args w = call_imp program catlist F program_imps (rt k) i self sel args w'.
Proof.
  intros Hok Hn Hr Hm%lookup_method_of.
  destruct (lookUpImpOrForward_found _ _ _ (rt k) sym sel i w Hok Hm) as (w' & Hw & H1 & H2).
  exists w'. split_and!; [done..|]. unfold rt. cbn [runtime msgSend]. rewrite decide_False, Hr by done.
  unfold obnd. fold (rt k). by rewrite Hw.
Qed.

Lemma msgSendSuper_dispatch k c self sup sel args i w :
  ok w -> superclass_of program F (class_sym c) = Some sup -> method_of sup sel = Ret (Some i) ->
  exists w', same_state w w' /\ ok w' /\
    msgSendSuper (rt (Datatypes.S k)) c self sel args w
    = call_imp program catlist F program_imps (rt k) i self sel args w'.
Proof.
  intros Hok Hs Hm%lookup_method_of.
  destruct (lookUpImpOrForward_found _ _ _ (rt k) sup sel i w Hok Hm) as (w' & Hw & H1 & H2).
  exists w'. split_and!; [done..|]. unfold rt. cbn [runtime msgSendSuper]. rewrite Hs.
  unfold obnd. fold (rt k). by rewrite Hw.
Qed.

(** A message to an object runs the implementation the lookup names. *)
Lemma send_object k o c slots sel args name f w :
  ok w -> heap w !! o = Some (mk_obj c slots) ->
  method_of (class_sym c) sel = Ret (Some (Imp name)) -> find_imp program_imps name = Some f ->
  exists w', same_state w w' /\ ok w' /\ msgSend (rt (Datatypes.S k)) (VObj o) sel args w = f (rt k) (VObj o) args w'.
Proof.
  intros Hok Ho Hm Hf.
  destruct (msgSend_dispatch k (VObj o) (class_sym c) sel args (Imp name) w) as (w' & H1 & H2 & H3);
    [done|done|simpl; by rewrite Ho|done|].
  exists w'. split_and!; [done..|]. rewrite H3. cbn [call_imp]. by rewrite Hf.
Qed.

(** The class object of NSObject or of its metaclass. *)
Definition NSObject_sym (isMeta : bool) : string := if isMeta then meta_sym "NSObject" else class_sym "NSObject".

(** A message that reaches a method of NSObject. *)
Lemma send_NSObject k isMeta self sym sel args r w :
  ok w -> self <> nil -> receiver_class program w self = Some sym ->
  method_of sym sel = Ret (Some (FrameworkImp (NSObject_sym isMeta))) ->
  NSObject_method program catlist F (rt k) isMeta self sel args = Some r ->
  exists w', same_state w w' /\ ok w' /\ msgSend (rt (Datatypes.S k)) self sel args w = r w'.
Proof.
  intros Hok Hn Hr Hm Hf.
  destruct (msgSend_dispatch k self sym sel args _ w Hok Hn Hr Hm) as (w' & H1 & H2 & H3).
  exists w'. split_and!; [exact H1|exact H2|]. rewrite H3. cbn [call_imp]. unfold NSObject_sym.
  destruct isMeta; [rewrite decide_False by discriminate|]; rewrite decide_True by reflexivity; by rewrite Hf.
Qed.

Lemma super_NSObject k c sup self sel args r w :
  ok w -> superclass_of program F (class_sym c) = Some sup ->
  method_of sup sel = Ret (Some (FrameworkImp (NSObject_sym false))) ->
  NSObject_method program catlist F (rt k) false self sel args = Some r ->
  exists w', same_state w w' /\ ok w' /\ msgSendSuper (rt (Datatypes.S k)) c self sel args w = r w'.
Proof.
  intros Hok Hs Hm Hf.
  destruct (msgSendSuper_dispatch k c self _ sel args _ w Hok Hs Hm) as (w' & H1 & H2 & H3).
  exists w'. split_and!; [exact H1|exact H2|]. rewrite H3. cbn [call_imp]. unfold NSObject_sym.
  rewrite decide_True by reflexivity. by rewrite Hf.
Qed.

(** A new instance: the other objects stay what they are. *)
Lemma send_alloc k c w :
  ok w -> is_program_class program c = true ->
  method_of (meta_sym c) "alloc" = Ret (Some (FrameworkImp (NSObject_sym true))) ->
  exists o w', msgSend (rt (Datatypes.S k)) (VClass c) "alloc" [] w = Ret (VObj o, w') /\ ok w' /\
    heap w !! o = None /\ heap w' = <[o := mk_obj c ∅]> (heap w) /\
    associations w' = associations w /\ events w' = events w.
Proof.
  intros Hok Hc Hm.
  destruct (send_NSObject k true (VClass c) (meta_sym c) "alloc" [] (class_createInstance c) w Hok)
    as (w' & (Hh & Ha & He) & Hok' & Hs); [discriminate|simpl; by rewrite Hc|exact Hm|reflexivity|].
  exists (fresh (dom (heap w'))), (mk_world (<[fresh (dom (heap w')) := mk_obj c ∅]> (heap w')) (associations w')
    (events w') (caches w')).
  split_and!; [exact Hs|exact Hok'| |by rewrite Hh|done|done].
  rewrite Hh. apply not_elem_of_dom, is_fresh.
Qed.

(** -init of a class that inherits it from NSObject. *)
Lemma send_init k o c slots w :
  ok w -> heap w !! o = Some (mk_obj c slots) ->
  method_of (class_sym c) "init" = Ret (Some (FrameworkImp (NSObject_sym false))) ->
  exists w', msgSend (rt (Datatypes.S k)) (VObj o) "init" [] w = Ret (VObj o, w') /\ same_state w w' /\ ok w'.
Proof.
  intros Hok Ho Hm.
  destruct (send_NSObject k false (VObj o) (class_sym c) "init" [] (oret (VObj o)) w Hok)
    as (w' & Hs & Hok' & H); [discriminate|simpl; by rewrite Ho|exact Hm|reflexivity|].
  exists w'. split_and!; [exact H|exact Hs|exact Hok'].
Qed.

Lemma send_nil k sel args w : msgSend (rt (Datatypes.S k)) nil sel args w = Ret (nil, w).
Proof. done. Qed.

(** ** Objects of the frameworks *)

Definition framework_value (v : val) : Prop :=
  match v with VInt z => z <> 0 | VStatic _ => True | _ => False end.

Lemma send_framework_value k v sel args w : framework_value v ->
  msgSend (rt (Datatypes.S k)) v sel args w = fw_call F (rt k) v sel args w.
Proof.
  intros Hv. unfold rt. cbn [runtime msgSend]. rewrite decide_False; [by destruct v|].
  intros ->. by apply Hv.
Qed.

Lemma send_framework_class k c sel args w : is_program_class program c = false ->
  msgSend (rt (Datatypes.S k)) (VClass c) sel args w = fw_call F (rt k) (VClass c) sel args w.
Proof. intros Hc. unfold rt. cbn [runtime msgSend]. rewrite decide_False by discriminate. simpl. by rewrite Hc. Qed.

(** Copying [v] gives [v'] and does nothing else to the program. *)
Definition copies (sel : string) (args : list val) (v v' : val) : Prop :=
  (v = nil /\ v' = nil) \/
  (framework_value v /\ forall snd w, fw_call F snd v sel args w = Ret (v', w)).

Lemma send_copies k sel args v v' w : copies sel args v v' ->
  msgSend (rt (Datatypes.S k)) v sel args w = Ret (v', w).
Proof.
  intros [[-> ->]|[Hv Hc]]; [done|]. rewrite send_framework_value by done. apply Hc.
Qed.

End Program.

(** From here on a message is computed through the lemmas above. *)
#[global] Opaque rt method_of.
