(* ===== verification/LoweredSpec.v ===== *)
(** * What the lowered methods do

    The behaviour of the program's methods when they are sent through the
    runtime: synthesized accessors, categories and associated objects, the
    message-send demonstrations. *)

From Stdlib Require Import ZArith Lia Bool String Permutation.
From stdpp Require Import base list gmap strings.
From S2P Require Import Prelude ObjCData ObjCImages ObjCImagesSpec IvarLayout MethodList ObjCRuntime MethodCache LoweredMethods LoweredBlocks ProgramRuntime.

Local Open Scope string_scope.
Local Open Scope Z_scope.
Local Open Scope list_scope.

(** A lookup in the loaded program is evaluated. *)
Ltac lookup := vm_compute; reflexivity.

Section Lowered.
Context (F : framework) (catlist : list string) (fw_size : string -> Z) (P : platform).
Context (Hu : selectors_uniqued F) (Hp : catlist ≡ₚ program_catlist).

Local Abbreviation rt := (rt F catlist fw_size P).
Local Abbreviation ok := (ok F catlist).
Local Abbreviation imps := (program_imps fw_size P).
Local Abbreviation ivar := (realized_ivar fw_size).

(** The world with other objects, or one more event. *)
Definition with_heap (h : gmap positive obj) (w : world) : world :=
  mk_world h (associations w) (events w) (caches w).

(** ** Synthesized accessors *)

(** A property and the functions behind its getter and setter. *)
Record property := mk_property {
  p_class : string; p_getter : string; p_setter : string; p_ivar : string;
  p_get_imp : string; p_set_imp : string }.

Definition implemented (p : property) (get set : imp) : Prop :=
  method_of F (class_sym (p_class p)) (p_getter p) = Ret (Some (Imp (p_get_imp p))) /\
  method_of F (class_sym (p_class p)) (p_setter p) = Ret (Some (Imp (p_set_imp p))) /\
  find_imp imps (p_get_imp p) = Some get /\ find_imp imps (p_set_imp p) = Some set.

Definition load_imp (off : Z) : imp := imp0 (fun _ self => load_slot self off).
Definition store_imp (off : Z) : imp := imp1 (fun _ self v => void (store_slot self off v)).
Definition copy_imp (off : Z) : imp := imp1 (fun snd self v => void (objc_setProperty snd self off v false 1)).

(** What a round trip through setter and getter shows: the object has the new
    value in the slot of the property and in no other, nothing else changes but
    the log, and the getter returns the value. *)
Definition accessor_roundtrip (k : nat) (p : property) (o : positive) (slots : gmap Z val) (w : world)
    (v stored : val) (log : list event) : Prop :=
  exists w1 w2,
    msgSend (rt k) (VObj o) (p_setter p) [v] w = Ret (nil, w1) /\ ok w1 /\
    heap w1 = <[o := mk_obj (p_class p) (<[ivar (p_class p) (p_ivar p) := stored]> slots)]> (heap w) /\
    associations w1 = associations w /\ events w1 = log ++ events w /\
    msgSend (rt k) (VObj o) (p_getter p) [] w1 = Ret (stored, w2) /\ same_state w1 w2 /\ ok w2.

(** A getter that reads a slot. *)
Lemma send_load k o c slots sel name off w :
  method_of F (class_sym c) sel = Ret (Some (Imp name)) -> find_imp imps name = Some (load_imp off) ->
  ok w -> heap w !! o = Some (mk_obj c slots) ->
  exists w', msgSend (rt (S k)) (VObj o) sel [] w = Ret (default nil (slots !! off), w') /\ same_state w w' /\ ok w'.
Proof.
  intros Hm Hf Hok Ho.
  destruct (send_object F catlist fw_size P Hu Hp k o c slots sel [] _ _ w Hok Ho Hm Hf)
    as (w' & Hs & Hok' & ->).
  exists w'. split_and!; [|exact Hs|exact Hok'].
  unfold load_imp, imp0, load_slot. destruct Hs as (Hh & _ & _). by rewrite Hh, Ho.
Qed.

Lemma direct_roundtrip k p o slots w v :
  implemented p (load_imp (ivar (p_class p) (p_ivar p))) (store_imp (ivar (p_class p) (p_ivar p))) ->
  ok w -> heap w !! o = Some (mk_obj (p_class p) slots) ->
  accessor_roundtrip (S k) p o slots w v v [].
Proof.
  intros (Hg & Hs & Hgi & Hsi) Hok Ho.
  destruct (send_object F catlist fw_size P Hu Hp k o _ slots (p_setter p) [v] _ _ w Hok Ho Hs Hsi)
    as (w' & (Hh & Ha & He) & Hok' & Hset).
  set (w1 := with_heap (<[o := mk_obj (p_class p) (<[ivar (p_class p) (p_ivar p) := v]> slots)]> (heap w)) w').
  assert (Hw1 : msgSend (rt (S k)) (VObj o) (p_setter p) [v] w = Ret (nil, w1)).
  { rewrite Hset. unfold store_imp, imp1, void, obnd, store_slot. by rewrite Hh, Ho. }
  assert (Ho1 : heap w1 !! o = Some (mk_obj (p_class p) (<[ivar (p_class p) (p_ivar p) := v]> slots)))
    by apply lookup_insert_eq.
  destruct (send_load k o _ _ _ _ _ w1 Hg Hgi Hok' Ho1) as (w2 & Hget & Hs2 & Hok2).
  rewrite lookup_insert_eq in Hget. exists w1, w2.
  split_and!; [exact Hw1|exact Hok'|reflexivity|exact Ha|exact He|exact Hget|exact Hs2|exact Hok2].
Qed.

(** The release of the value a setter replaces. *)
Definition released (v : val) : list event := if decide (v = nil) then [] else [E_release v].

Lemma objc_release_spec v w :
  objc_release v w = Ret (tt, mk_world (heap w) (associations w) (released v ++ events w) (caches w)).
Proof. unfold objc_release, released. destruct (decide _); [by destruct w|done]. Qed.

Lemma objc_setProperty_copy k o c slots off v v' w :
  off <> 0 -> heap w !! o = Some (mk_obj c slots) -> copies F "copyWithZone:" [nil] v v' ->
  objc_setProperty (rt (S k)) (VObj o) off v false 1 w
  = Ret (tt, mk_world (<[o := mk_obj c (<[off := v']> slots)]> (heap w)) (associations w)
               (released (default nil (slots !! off)) ++ events w) (caches w)).
Proof.
  intros Hoff Ho Hc. unfold objc_setProperty, reallySetProperty.
  destruct (off =? 0) eqn:E; zbool; [done|]. change (negb (1 =? 0) && negb (1 =? MUTABLE_COPY)) with true. cbv iota.
  unfold obnd at 1. rewrite send_copies with (v' := v') by done.
  unfold obnd, load_slot. rewrite Ho. unfold store_slot. rewrite Ho. by rewrite objc_release_spec.
Qed.

(** A setter that stores a copy in a slot. *)
Lemma send_copy k o c slots sel name off v v' w :
  method_of F (class_sym c) sel = Ret (Some (Imp name)) -> find_imp imps name = Some (copy_imp off) -> off <> 0 ->
  ok w -> heap w !! o = Some (mk_obj c slots) -> copies F "copyWithZone:" [nil] v v' ->
  exists w', msgSend (rt (S (S k))) (VObj o) sel [v] w = Ret (nil, w') /\ ok w' /\
    heap w' = <[o := mk_obj c (<[off := v']> slots)]> (heap w) /\ associations w' = associations w /\
    events w' = released (default nil (slots !! off)) ++ events w.
Proof.
  intros Hm Hf Hoff Hok Ho Hc.
  destruct (send_object F catlist fw_size P Hu Hp (S k) o c slots sel [v] _ _ w Hok Ho Hm Hf)
    as (w' & (Hh & Ha & He) & Hok' & Hset).
  exists (mk_world (<[o := mk_obj c (<[off := v']> slots)]> (heap w)) (associations w')
               (released (default nil (slots !! off)) ++ events w') (caches w')).
  split_and!; [|exact Hok'|reflexivity|exact Ha|by cbn [events]; rewrite He].
  rewrite Hset. unfold copy_imp, imp1, void. unfold obnd.
  rewrite (objc_setProperty_copy k o c slots off v v' w'); [by rewrite Hh|done|by rewrite Hh|done].
Qed.

(** What a setter with the compile-time offset [off] and the getter, which uses the realized offset,
    do: the copy is in the slot at [off], what was there is released, and the getter returns
    what is in the slot of the ivar then. *)
Definition copy_accessors (k : nat) (p : property) (off : Z) (o : positive) (slots : gmap Z val) (w : world)
    (v v' : val) : Prop :=
  exists w1 w2,
    msgSend (rt k) (VObj o) (p_setter p) [v] w = Ret (nil, w1) /\ ok w1 /\
    heap w1 = <[o := mk_obj (p_class p) (<[off := v']> slots)]> (heap w) /\
    associations w1 = associations w /\ events w1 = released (default nil (slots !! off)) ++ events w /\
    msgSend (rt k) (VObj o) (p_getter p) [] w1
      = Ret (default nil (<[off := v']> slots !! ivar (p_class p) (p_ivar p)), w2) /\ same_state w1 w2 /\ ok w2.

Lemma copy_accessors_spec k p off o slots w v v' :
  implemented p (load_imp (ivar (p_class p) (p_ivar p))) (copy_imp off) -> off <> 0 ->
  ok w -> heap w !! o = Some (mk_obj (p_class p) slots) -> copies F "copyWithZone:" [nil] v v' ->
  copy_accessors (S (S k)) p off o slots w v v'.
Proof.
  intros (Hg & Hs & Hgi & Hsi) Hoff Hok Ho Hc.
  destruct (send_copy k o _ slots _ _ off v v' w Hs Hsi Hoff Hok Ho Hc) as (w1 & Hw1 & Hok1 & Hh & Ha & He).
  assert (Ho1 : heap w1 !! o = Some (mk_obj (p_class p) (<[off := v']> slots)))
    by (rewrite Hh; apply lookup_insert_eq).
  destruct (send_load (S k) o _ _ _ _ _ w1 Hg Hgi Hok1 Ho1) as (w2 & Hget & Hs2 & Hok2).
  exists w1, w2. split_and!; assumption.
Qed.

(** With the realized offset that is a round trip. *)
Lemma copy_accessors_roundtrip k p off o slots w v v' : off = ivar (p_class p) (p_ivar p) ->
  copy_accessors k p off o slots w v v' ->
  accessor_roundtrip k p o slots w v v' (released (default nil (slots !! off))).
Proof.
  intros -> (w1 & w2 & H1 & H2 & H3 & H4 & H5 & H6 & H7). rewrite lookup_insert_eq in H6.
  by exists w1, w2.
Qed.

(** The properties whose setter stores the value itself. *)
Definition direct_properties : list property :=
  [mk_property "SKObjectObject" "ObjectObjectString" "setObjectObjectString:" "_ObjectObjectString"
     "_I_SKObjectObject_ObjectObjectString" "_I_SKObjectObject_setObjectObjectString_";
   mk_property "SKSubObject" "subObjectString" "setSubObjectString:" "_subObjectString"
     "_I_SKSubObject_subObjectString" "_I_SKSubObject_setSubObjectString_";
   mk_property "SKSubObject" "priObjectString" "setPriObjectString:" "_priObjectString"
     "_I_SKSubObject_priObjectString" "_I_SKSubObject_setPriObjectString_";
   mk_property "SKTraggedPointTest" "intValue" "setIntValue:" "_intValue"
     "_I_SKTraggedPointTest_intValue" "_I_SKTraggedPointTest_setIntValue_";
   mk_property "SKBlockVC" "tempStr" "setTempStr:" "_tempStr"
     "_I_SKBlockVC_tempStr" "_I_SKBlockVC_setTempStr_";
   mk_property "SKBlockVC" "dataArry" "setDataArry:" "_dataArry"
     "_I_SKBlockVC_dataArry" "_I_SKBlockVC_setDataArry_";
   mk_property "SKBlockVC" "blockCycle" "setBlockCycle:" "_blockCycle"
     "_I_SKBlockVC_blockCycle" "_I_SKBlockVC_setBlockCycle_";
   mk_property "SKBlockVC" "ageTest" "setAgeTest:" "_ageTest"
     "_I_SKBlockVC_ageTest" "_I_SKBlockVC_setAgeTest_";
   mk_property "SKBlockVC" "is_canFly" "setIs_canFly:" "_is_canFly"
     "_I_SKBlockVC_is_canFly" "_I_SKBlockVC_setIs_canFly_";
   mk_property "SKBlockVC" "block_Cycle" "setBlock_Cycle:" "_block_Cycle"
     "_I_SKBlockVC_block_Cycle" "_I_SKBlockVC_setBlock_Cycle_";
   mk_property "SKBlockVC" "notification" "setNotification:" "_notification"
     "_I_SKBlockVC_notification" "_I_SKBlockVC_setNotification_"].

(** All the properties whose setter stores a copy through [objc_setProperty], each with the
    offset that its file was compiled with, which the setter passes. *)
Definition copy_properties : list (property * Z) :=
  [(mk_property "SubDemo" "firstName" "setFirstName:" "_firstName"
      "_I_SubDemo_firstName" "_I_SubDemo_setFirstName_", OFFSETOFIVAR SubDemo_IMPL "_firstName");
   (mk_property "PropertyDemo" "firstName" "setFirstName:" "_firstName"
      "_I_PropertyDemo_firstName" "_I_PropertyDemo_setFirstName_", OFFSETOFIVAR PropertyDemo_IMPL "_firstName");
   (mk_property "SKPropertyTestModel" "title" "setTitle:" "_title"
      "_I_SKPropertyTestModel_title" "_I_SKPropertyTestModel_setTitle_", OFFSETOFIVAR SKPropertyTestModel_IMPL "_title");
   (mk_property "SKProprtyModel" "timeStamps" "setTimeStamps:" "instanceTimeStamps"
      "_I_SKProprtyModel_timeStamps" "_I_SKProprtyModel_setTimeStamps_", OFFSETOFIVAR SKProprtyModel_IMPL "instanceTimeStamps");
   (mk_property "SKProprtyModel" "animal" "setAnimal:" "animal"
      "_I_SKProprtyModel_animal" "_I_SKProprtyModel_setAnimal_", OFFSETOFIVAR SKProprtyModel_IMPL "animal");
   (mk_property "SKProprtyModel" "mouse" "setMouse:" "_mouse"
      "_I_SKProprtyModel_mouse" "_I_SKProprtyModel_setMouse_", OFFSETOFIVAR SKProprtyModel_IMPL "_mouse");
   (mk_property "SKProprtyModel" "upAndDown" "setUpAndDown:" "_upAndDown"
      "_I_SKProprtyModel_upAndDown" "_I_SKProprtyModel_setUpAndDown_", OFFSETOFIVAR SKProprtyModel_IMPL "_upAndDown");
   (mk_property "SKProprtyModel" "foo" "setFoo:" "_foo"
      "_I_SKProprtyModel_foo" "_I_SKProprtyModel_setFoo_", OFFSETOFIVAR SKProprtyModel_IMPL "_foo");
   (mk_property "SKProprtyModel" "stringValue" "setStringValue:" "_stringValue"
      "_I_SKProprtyModel_stringValue" "_I_SKProprtyModel_setStringValue_", OFFSETOFIVAR SKProprtyModel_IMPL "_stringValue");
   (mk_property "SSDemo" "lastName" "setLastName:" "_lastName"
      "_I_SSDemo_lastName" "_I_SSDemo_setLastName_", OFFSETOFIVAR SSDemo_IMPL "_lastName");
   (mk_property "SKBlockVC" "model" "setModel:" "_model"
      "_I_SKBlockVC_model" "_I_SKBlockVC_setModel_", OFFSETOFIVAR SKBlockVC_IMPL "_model");
   (mk_property "SKBlockVC" "blockFive" "setBlockFive:" "_blockFive"
      "_I_SKBlockVC_blockFive" "_I_SKBlockVC_setBlockFive_", OFFSETOFIVAR SKBlockVC_IMPL "_blockFive");
   (mk_property "SKBlockVC" "sumOf" "setSumOf:" "_sumOf"
      "_I_SKBlockVC_sumOf" "_I_SKBlockVC_setSumOf_", OFFSETOFIVAR SKBlockVC_IMPL "_sumOf")].

Lemma direct_implemented : Forall (fun p =>
  implemented p (load_imp (ivar (p_class p) (p_ivar p))) (store_imp (ivar (p_class p) (p_ivar p)))) direct_properties.
Proof. repeat (apply Forall_cons; split; [split_and!; [lookup|lookup|reflexivity|reflexivity]|]); constructor. Qed.

Lemma copy_implemented : Forall (fun x =>
  implemented x.1 (load_imp (ivar (p_class x.1) (p_ivar x.1))) (copy_imp x.2) /\ x.2 <> 0) copy_properties.
Proof.
  repeat (apply Forall_cons; split; [split; [split_and!; [lookup|lookup|reflexivity|reflexivity]|vm_compute; discriminate]|]).
  constructor.
Qed.

(** Where all superclasses are known at compile time and had the layout they have at run time, the offset is the
    realized one. *)
Lemma copy_offsets : Forall (fun x => p_class x.1 <> "SSDemo" -> p_class x.1 <> "SKBlockVC" ->
  x.2 = ivar (p_class x.1) (p_ivar x.1)) copy_properties.
Proof.
  repeat (apply Forall_cons; split; [first [intros H _; exfalso; apply H; reflexivity|intros _ H; exfalso; apply H; reflexivity|intros _ _; lookup]|]).
  constructor.
Qed.

(** C26. Every synthesized property whose setter stores the value itself round-trips: a message to
    the setter stores the value in the slot the realized layout gives the ivar, changes no other
    slot, object, association or log entry, and a message to the getter returns the value. *)
Theorem direct_properties_roundtrip (k : nat) (p : property) (o : positive) (slots : gmap Z val) (w : world) (v : val) :
  p ∈ direct_properties -> ok w -> heap w !! o = Some (mk_obj (p_class p) slots) ->
  accessor_roundtrip (S k) p o slots w v v [].
Proof.
  intros Hin Hok Ho. pose proof direct_implemented as Hall. rewrite Forall_forall in Hall.
  by apply direct_roundtrip; [apply Hall| |].
Qed.

(** C27. The 13 copy properties of the files: a message to the setter stores what -copyWithZone:
    returned (nil for nil) in the slot at the offset the file was compiled with, and releases the
    value it replaces there, exactly once and only if there was one; the getter then returns what
    is in the slot of the realized ivar.  For the nine properties of the classes other than
    SSDemo and SKBlockVC the two offsets are the same, whatever the sizes of the framework's classes, so that
    the property round-trips. *)
Theorem copy_properties_roundtrip (k : nat) (p : property) (off : Z) (o : positive) (slots : gmap Z val) (w : world) (v v' : val) :
  (p, off) ∈ copy_properties -> ok w -> heap w !! o = Some (mk_obj (p_class p) slots) ->
  copies F "copyWithZone:" [nil] v v' ->
  copy_accessors (S (S k)) p off o slots w v v' /\
  (p_class p <> "SSDemo" -> p_class p <> "SKBlockVC" ->
   off = ivar (p_class p) (p_ivar p) /\
   accessor_roundtrip (S (S k)) p o slots w v v' (released (default nil (slots !! ivar (p_class p) (p_ivar p))))).
Proof.
  intros Hin Hok Ho Hc. pose proof copy_implemented as Hall. rewrite Forall_forall in Hall.
  destruct (Hall _ Hin) as [Himp Hoff]. pose proof (copy_accessors_spec k p off o slots w v v' Himp Hoff Hok Ho Hc) as Hacc.
  split; [exact Hacc|]. intros H1 H2. pose proof copy_offsets as Heq. rewrite Forall_forall in Heq.
  pose proof (Heq _ Hin H1 H2) as E. simpl in E. split; [exact E|]. rewrite <- E. by apply copy_accessors_roundtrip.
Qed.

(** ** The setter of SSDemo *)

(** [__OFFSETOFIVAR__(struct SSDemo, _lastName)] is the offset of the ivar of the
    superclass. *)
Lemma SSDemo_setter_imp :
  find_imp imps "_I_SSDemo_setLastName_" = Some (copy_imp (ivar "SubDemo" "_firstName")).
Proof.
  assert (He : OFFSETOFIVAR SSDemo_IMPL "_lastName" = ivar "SubDemo" "_firstName") by lookup.
  rewrite <- He. reflexivity.
Qed.

(** C28. The setter of SSDemo.lastName loses its value: it passes the offset the file was compiled
    with, which after the superclass SubDemo was laid out is the slot of SubDemo.firstName.  After
    setLastName: the property lastName still has its old value and firstName has been replaced (and
    its value released). *)
Theorem SSDemo_setter_overwrites_firstName (k : nat) (o : positive) (slots : gmap Z val) (w : world) (v v' : val) :
  ok w -> heap w !! o = Some (mk_obj "SSDemo" slots) -> copies F "copyWithZone:" [nil] v v' ->
  let first := ivar "SubDemo" "_firstName" in let last := ivar "SSDemo" "_lastName" in
  first <> last /\
  exists w1 w2 w3,
    msgSend (rt (S (S k))) (VObj o) "setLastName:" [v] w = Ret (nil, w1) /\
    events w1 = released (default nil (slots !! first)) ++ events w /\
    msgSend (rt (S (S k))) (VObj o) "lastName" [] w1 = Ret (default nil (slots !! last), w2) /\
    msgSend (rt (S (S k))) (VObj o) "firstName" [] w2 = Ret (v', w3).
Proof.
  intros Hok Ho Hc first last.
  assert (Hne : first <> last) by (vm_compute; discriminate). split; [exact Hne|].
  assert (H0 : first <> 0) by (vm_compute; discriminate).
  destruct (send_copy k o "SSDemo" slots "setLastName:" _ first v v' w ltac:(lookup) SSDemo_setter_imp H0 Hok Ho Hc)
    as (w1 & Hw1 & Hok1 & Hh & Ha & He).
  assert (Ho1 : heap w1 !! o = Some (mk_obj "SSDemo" (<[first := v']> slots)))
    by (rewrite Hh; apply lookup_insert_eq).
  destruct (send_load (S k) o "SSDemo" _ "lastName" "_I_SSDemo_lastName" last w1 ltac:(lookup) eq_refl Hok1 Ho1)
    as (w2 & Hw2 & (Hh2 & _ & _) & Hok2).
  rewrite lookup_insert_ne in Hw2 by exact Hne. rewrite <- Hh2 in Ho1.
  destruct (send_load (S k) o "SSDemo" _ "firstName" "_I_SubDemo_firstName" first w2 ltac:(lookup) eq_refl Hok2 Ho1)
    as (w3 & Hw3 & _ & _).
  rewrite lookup_insert_eq in Hw3. exists w1, w2, w3. split_and!; assumption.
Qed.

(** ** Associated objects *)

(** What an association with a copy policy holds after a store. *)
Definition copied_entry (v : val) : option (val * Z) :=
  if decide (v = nil) then None else Some (v, OBJC_ASSOCIATION_COPY).

(** What the store releases. *)
Definition released_entry (e : option (val * Z)) : list event :=
  match e with
  | Some (v, policy) => if has_bits policy OBJC_ASSOCIATION_SETTER_RETAIN then released v else []
  | None => []
  end.

Lemma assoc_find_put w o key e o' key' w' :
  assoc_put o key e w = Ret (tt, w') ->
  assoc_find w' o' key' = if decide (o' = o /\ key' = key) then Some e else assoc_find w o' key'.
Proof.
  unfold assoc_put. intros [= <-]. unfold assoc_find. simpl.
  destruct (decide (o' = o)) as [->|Hne]; [rewrite lookup_insert_eq|rewrite lookup_insert_ne by done].
  - destruct (decide (key' = key)) as [->|Hk].
    + rewrite decide_True by done. apply lookup_insert_eq.
    + rewrite decide_False by tauto. rewrite lookup_insert_ne by done. by destruct (associations w !! o).
  - by rewrite decide_False by tauto.
Qed.

Lemma assoc_find_erase w o key o' key' w' :
  assoc_erase o key w = Ret (tt, w') ->
  assoc_find w' o' key' = if decide (o' = o /\ key' = key) then None else assoc_find w o' key'.
Proof.
  unfold assoc_erase. intros [= <-]. unfold assoc_find. simpl. rewrite lookup_alter.
  destruct (decide (o = o')) as [<-|Hne].
  - destruct (associations w !! o) as [refs|]; simpl; [|by destruct (decide _)].
    destruct (decide (key' = key)) as [->|Hk].
    + rewrite decide_True by done. apply lookup_delete_eq.
    + rewrite decide_False by tauto. by rewrite lookup_delete_ne.
  - by rewrite decide_False by (intros [-> _]; done).
Qed.

(** Releasing the association that was replaced. *)
Lemma ReleaseValue_spec (old : option (val * Z)) w :
  ReleaseValue old w = Ret (tt, mk_world (heap w) (associations w) (released_entry old ++ events w) (caches w)).
Proof.
  destruct old as [[v policy]|]; simpl; [|by destruct w].
  unfold releaseValue, released. destruct (decide (v = nil)) as [->|Hn].
  - destruct (has_bits _ _); by destruct w.
  - destruct (has_bits _ _); [|by destruct w]. rewrite objc_release_spec. unfold released. by rewrite decide_False.
Qed.

(** A store with the copy policy. *)
Lemma objc_setAssociatedObject_copy k o key v v' w : copies F "copy" [] v v' ->
  exists w', objc_setAssociatedObject (rt (S k)) (VObj o) key v OBJC_ASSOCIATION_COPY w = Ret (tt, w') /\
    heap w' = heap w /\ caches w' = caches w /\
    events w' = released_entry (assoc_find w o key) ++ events w /\
    forall o' key', assoc_find w' o' key' =
      if decide (o' = o /\ key' = key) then copied_entry v' else assoc_find w o' key'.
Proof.
  intros Hc. unfold objc_setAssociatedObject, _object_set_associative_reference.
  rewrite decide_False by (intros [[=] _]).
  assert (Hacq : (if decide (v = nil) then oret nil else acquireValue (rt (S k)) v OBJC_ASSOCIATION_COPY) w = Ret (v', w)).
  { destruct (decide (v = nil)) as [->|Hn]; [destruct Hc as [[_ ->]|[Hv _]]; [done|by destruct Hv]|].
    apply (send_copies F catlist fw_size P k "copy" [] v v' w Hc). }
  unfold obnd at 1. rewrite Hacq. unfold obnd at 1, assoc_get.
  unfold obnd. unfold copied_entry. destruct (decide (v' = nil)) as [->|Hv'].
  - destruct (assoc_find w o key) as [e|] eqn:Ee.
    + unfold assoc_erase. rewrite ReleaseValue_spec. eexists. split_and!; [reflexivity|done..|].
      intros o' key'. exact (assoc_find_erase w o key o' key' _ eq_refl).
    + unfold oret. rewrite ReleaseValue_spec. eexists. split_and!; [reflexivity|done..|]. intros o' key'.
      destruct (decide (o' = o /\ key' = key)) as [[-> ->]|]; done.
  - unfold assoc_put. rewrite ReleaseValue_spec. eexists. split_and!; [reflexivity|done..|].
    intros o' key'. exact (assoc_find_put w o key _ o' key' _ eq_refl).
Qed.

(** Reading an association with the copy policy returns it retained and
    autoreleased. *)
Lemma objc_getAssociatedObject_copy o key v w : assoc_find w o key = copied_entry v ->
  exists w', objc_getAssociatedObject (VObj o) key w = Ret (v, w') /\
    heap w' = heap w /\ associations w' = associations w /\ caches w' = caches w /\
    events w' = (if decide (v = nil) then [] else [E_autorelease v; E_retain v]) ++ events w.
Proof.
  intros Hf. unfold objc_getAssociatedObject, _object_get_associative_reference, obnd, assoc_get. rewrite Hf.
  unfold copied_entry. destruct (decide (v = nil)) as [->|Hn]; [by exists w|].
  change (has_bits OBJC_ASSOCIATION_COPY OBJC_ASSOCIATION_GETTER_RETAIN) with true.
  change (has_bits OBJC_ASSOCIATION_COPY OBJC_ASSOCIATION_GETTER_AUTORELEASE) with true.
  rewrite bool_decide_eq_false_2 by done. unfold objc_retain, objc_autorelease. rewrite !decide_False by done.
  eexists. split_and!; reflexivity.
Qed.

(** A pair of accessors that keep a copy in an association. *)
Definition assoc_set_imp (log : list event) (key : string) : imp :=
  imp1 (fun snd self v => fun w =>
    void (objc_setAssociatedObject snd self key v OBJC_ASSOCIATION_COPY)
      (mk_world (heap w) (associations w) (log ++ events w) (caches w))).
Definition assoc_get_imp (log : list event) (key : string) : imp :=
  imp0 (fun _ self => fun w =>
    objc_getAssociatedObject self key (mk_world (heap w) (associations w) (log ++ events w) (caches w))).

(** The round trip through an association: the objects keep their slots, the
    other associations their values, and the getter returns the copy. *)
Definition association_roundtrip (k : nat) (o : positive) (setter getter key : string) (v v' : val) (w : world) : Prop :=
  exists w1 w2,
    msgSend (rt k) (VObj o) setter [v] w = Ret (nil, w1) /\ heap w1 = heap w /\ ok w1 /\
    (forall o' key', assoc_find w1 o' key' =
       if decide (o' = o /\ key' = key) then copied_entry v' else assoc_find w o' key') /\
    msgSend (rt k) (VObj o) getter [] w1 = Ret (v', w2) /\ heap w2 = heap w /\
    associations w2 = associations w1 /\ ok w2.

Lemma assoc_accessors k o c slots setter getter sname gname f g slog glog key v v' w :
  method_of F (class_sym c) setter = Ret (Some (Imp sname)) ->
  method_of F (class_sym c) getter = Ret (Some (Imp gname)) ->
  find_imp imps sname = Some f -> (forall snd self a w, f snd self [a] w = assoc_set_imp slog key snd self [a] w) ->
  find_imp imps gname = Some g -> (forall snd self w, g snd self [] w = assoc_get_imp glog key snd self [] w) ->
  ok w -> heap w !! o = Some (mk_obj c slots) -> copies F "copy" [] v v' ->
  association_roundtrip (S (S k)) o setter getter key v v' w.
Proof.
  intros Hms Hmg Hf Hs Hg' Hg Hok Ho Hc.
  destruct (send_object F catlist fw_size P Hu Hp (S k) o c slots setter [v] _ _ w Hok Ho Hms Hf)
    as (w' & (Hh & Ha & He) & Hok' & Hset).
  rewrite Hs in Hset. unfold assoc_set_imp, imp1, void in Hset. unfold obnd in Hset.
  destruct (objc_setAssociatedObject_copy k o key v v'
    (mk_world (heap w') (associations w') (slog ++ events w') (caches w')) Hc) as (w1 & Hw1 & Hh1 & Hc1 & _ & Hf1).
  rewrite Hw1 in Hset. simpl in Hh1, Hc1.
  assert (Hok1 : ok w1) by exact (ok_caches F catlist w' w1 Hc1 Hok').
  assert (Ho1 : heap w1 !! o = Some (mk_obj c slots)) by (rewrite Hh1, Hh; exact Ho).
  destruct (send_object F catlist fw_size P Hu Hp (S k) o c slots getter [] _ _ w1 Hok1 Ho1 Hmg Hg')
    as (w2 & (Hh2 & Ha2 & He2) & Hok2 & Hget).
  rewrite Hg in Hget. unfold assoc_get_imp, imp0 in Hget.
  destruct (objc_getAssociatedObject_copy o key v'
    (mk_world (heap w2) (associations w2) (glog ++ events w2) (caches w2))) as (w3 & Hw3 & Hh3 & Ha3 & Hc3 & _).
  { unfold assoc_find in *. cbn [associations]. rewrite Ha2. rewrite Hf1.
    rewrite decide_True by (split; reflexivity). reflexivity. }
  rewrite Hw3 in Hget. cbn [heap associations caches] in Hh3, Ha3, Hc3.
  exists w1, w3. split_and!; [exact Hset|congruence|exact Hok1| |exact Hget|congruence|congruence|].
  - intros o' key'. rewrite Hf1. unfold assoc_find. cbn [associations]. rewrite Ha. reflexivity.
  - exact (ok_caches F catlist w2 w3 Hc3 Hok2).
Qed.

(** The classes of the program whose superclass chain ends at NSObject. *)
Fixpoint root_class (k : nat) (sym : string) : string :=
  match k with
  | O => sym
  | S k' =>
      match classes program !! sym with
      | Some c => match superclass c with Some p => root_class k' p | None => sym end
      | None => sym
      end
  end.

Definition nsobject_classes : list string :=
  List.filter (fun c => String.eqb (root_class 16 (class_sym c)) (class_sym "NSObject"))
    (omap (fun p => if Z.odd (ro_flags (ro p.2)) then None else Some (ro_name (ro p.2)))
       (concat (map img_objects images))).

Definition answers (sel name : string) (c : string) : bool :=
  match method_of F (class_sym c) sel with Ret (Some (Imp n)) => String.eqb n name | _ => false end.

Lemma answers_spec sel name (l : list string) : forallb (answers sel name) l = true ->
  forall c, c ∈ l -> method_of F (class_sym c) sel = Ret (Some (Imp name)).
Proof.
  rewrite forallb_forall. intros Hall c Hc%list_elem_of_In. specialize (Hall c Hc). unfold answers in Hall.
  destruct (method_of F (class_sym c) sel) as [[[n| |]|]| |]; try discriminate.
  apply String.eqb_eq in Hall. by rewrite Hall.
Qed.

(** The accessors that categories add keep their values: on an instance of TestExpand the
    accessors of the category TestExpand(Additions) are the ones that run, whatever the load order,
    and on an instance of any class of the program below NSObject the accessors of
    NSObject(Addition); what was set is returned, copied, from the association, no slot of any object
    and no other association changes, and nil clears it. *)
Theorem category_properties_roundtrip (k : nat) (o : positive) (c : string) (slots : gmap Z val) (w : world) (v v' : val) :
  ok w -> heap w !! o = Some (mk_obj c slots) -> copies F "copy" [] v v' ->
  (c = "TestExpand" -> association_roundtrip (S (S k)) o "setMustProperty:" "mustProperty" "thisisname" v v' w) /\
  (c ∈ nsobject_classes -> association_roundtrip (S (S k)) o "setMustBeCount:" "mustBeCount" "MustBeCount" v v' w).
Proof.
  intros Hok Ho Hc. split.
  - intros ->. apply (assoc_accessors k o "TestExpand" slots "setMustProperty:" "mustProperty"
      "_I_TestExpand_Additions_setMustProperty_" "_I_TestExpand_Additions_mustProperty"
      (imp1 _I_TestExpand_Additions_setMustProperty_) (imp0 _I_TestExpand_Additions_mustProperty)
      [E_log "TestExpand_Additions_mi_0" []] [E_log "TestExpand_Additions_mi_1" []]);
      [lookup|lookup|reflexivity|reflexivity|reflexivity|reflexivity|exact Hok|exact Ho|exact Hc].
  - intros Hin. apply (assoc_accessors k o c slots "setMustBeCount:" "mustBeCount"
      "_I_NSObject_Addition_setMustBeCount_" "_I_NSObject_Addition_mustBeCount"
      (imp1 _I_NSObject_Addition_setMustBeCount_) (imp0 _I_NSObject_Addition_mustBeCount) [] []);
      [apply (answers_spec _ _ nsobject_classes); [lookup|exact Hin]
      |apply (answers_spec _ _ nsobject_classes); [lookup|exact Hin]
      |reflexivity|by intros ??? []|reflexivity|by intros ?? []|exact Hok|exact Ho|exact Hc].
Qed.

(** The class's own accessors do not keep the value: TestExpand's setter assigns its parameter
    to itself, so calling it only logs, and the getter then returns what the slot held before. *)
Theorem TestExpand_own_setter_stores_nothing (snd : senders) (o : positive) (ob : obj) (v : val) (w : world) :
  heap w !! o = Some ob ->
  exists w1 w2,
    _I_TestExpand_setMustProperty_ snd (VObj o) v w = Ret (nil, w1) /\
    heap w1 = heap w /\ associations w1 = associations w /\
    _I_TestExpand_mustProperty ivar snd (VObj o) w1
    = Ret (default nil (o_slots ob !! ivar "TestExpand" "_mustProperty"), w2).
Proof.
  intros Ho. set (log1 := E_log "TestExpand_mi_0" [] :: events w).
  exists (mk_world (heap w) (associations w) log1 (caches w)),
    (mk_world (heap w) (associations w) (E_log "TestExpand_mi_1" [] :: log1) (caches w)).
  split_and!; [reflexivity..|].
  unfold _I_TestExpand_mustProperty, NSLog, emit, obnd, load_slot. simpl. rewrite Ho. reflexivity.
Qed.

(** Reading an association that is not there. *)
Lemma objc_getAssociatedObject_missing o key w : assoc_find w o key = None ->
  objc_getAssociatedObject (VObj o) key w = Ret (nil, w).
Proof.
  intros Hf. unfold objc_getAssociatedObject, _object_get_associative_reference, obnd, assoc_get. by rewrite Hf.
Qed.

Definition timeValue_set_key : string := "NSObject_SKRuntimeAssociatedObject_mi_0".
Definition timeValue_get_key : string := "NSObject_SKRuntimeAssociatedObject_mi_1".

(** NSObject(SKRuntimeAssociatedObject).timeValue does not round-trip: setter and getter pass
    two different constant strings as the key, so what is set is not found by the getter, which
    returns nil unless something else stored under its key. *)
Theorem timeValue_is_lost (k : nat) (o : positive) (c : string) (slots : gmap Z val) (w : world) (v v' : val) :
  c ∈ nsobject_classes -> ok w -> heap w !! o = Some (mk_obj c slots) -> copies F "copy" [] v v' ->
  assoc_find w o timeValue_get_key = None ->
  exists w1 w2,
    msgSend (rt (S (S k))) (VObj o) "setTimeValue:" [v] w = Ret (nil, w1) /\
    assoc_find w1 o timeValue_set_key = copied_entry v' /\
    msgSend (rt (S (S k))) (VObj o) "timeValue" [] w1 = Ret (nil, w2).
Proof.
  intros Hin Hok Ho Hc Hnone.
  destruct (send_object F catlist fw_size P Hu Hp (S k) o c slots "setTimeValue:" [v]
    "_I_NSObject_SKRuntimeAssociatedObject_setTimeValue_" (imp1 _I_NSObject_SKRuntimeAssociatedObject_setTimeValue_)
    w Hok Ho) as (w' & (Hh & Ha & He) & Hok' & Hset);
    [apply (answers_spec _ _ nsobject_classes); [lookup|exact Hin]|reflexivity|].
  unfold imp1, _I_NSObject_SKRuntimeAssociatedObject_setTimeValue_, void in Hset. unfold obnd in Hset.
  destruct (objc_setAssociatedObject_copy k o timeValue_set_key v v' w' Hc) as (w1 & Hw1 & Hh1 & Hc1 & _ & Hf1).
  unfold timeValue_set_key in Hw1 at 1. rewrite Hw1 in Hset.
  destruct (send_object F catlist fw_size P Hu Hp (S k) o c slots "timeValue" []
    "_I_NSObject_SKRuntimeAssociatedObject_timeValue" (imp0 _I_NSObject_SKRuntimeAssociatedObject_timeValue) w1)
    as (w2 & (_ & Ha2 & _) & _ & Hget);
    [exact (ok_caches F catlist w' w1 Hc1 Hok')|rewrite Hh1, Hh; exact Ho
    |apply (answers_spec _ _ nsobject_classes); [lookup|exact Hin]|reflexivity|].
  unfold imp0, _I_NSObject_SKRuntimeAssociatedObject_timeValue in Hget.
  rewrite objc_getAssociatedObject_missing in Hget.
  - exists w1, w2. split_and!; [exact Hset| |exact Hget]. rewrite Hf1. apply decide_True. split; reflexivity.
  - fold timeValue_get_key. unfold assoc_find in *. rewrite Ha2, Hf1, decide_False by (intros [_ [=]]).
    rewrite Ha. exact Hnone.
Qed.

End Lowered.
