(* ===== verification/MessageSpec.v ===== *)
(** * The message-send demonstrations

    SKRuntimePerson, SKSubObject, SKTraggedPointTest and SKMessageSendAction: what
    their methods do when the runtime runs them. *)

From Stdlib Require Import ZArith Lia Bool String Permutation.
From stdpp Require Import base list gmap strings.
From S2P Require Import Prelude ObjCData ObjCImages ObjCImagesSpec IvarLayout MethodList ObjCRuntime MethodCache LoweredMethods LoweredBlocks ProgramRuntime LoweredSpec.

Local Open Scope string_scope.
Local Open Scope Z_scope.
Local Open Scope list_scope.

Section Messages.
Context (F : framework) (catlist : list string) (fw_size : string -> Z) (P : platform).
Context (Hu : selectors_uniqued F) (Hp : catlist ≡ₚ program_catlist).

Local Abbreviation rt := (rt F catlist fw_size P).
Local Abbreviation ok := (ok F catlist).
Local Abbreviation imps := (program_imps fw_size P).
Local Abbreviation ivar := (realized_ivar fw_size).

(** A new object of a class of the program that inherits +alloc and -init. *)
Lemma send_alloc_init k c w :
  ok w -> is_program_class program c = true ->
  method_of F (meta_sym c) "alloc" = Ret (Some (FrameworkImp (NSObject_sym true))) ->
  method_of F (class_sym c) "init" = Ret (Some (FrameworkImp (NSObject_sym false))) ->
  exists p w1 w2, msgSend (rt (S k)) (VClass c) "alloc" [] w = Ret (VObj p, w1) /\
    msgSend (rt (S k)) (VObj p) "init" [] w1 = Ret (VObj p, w2) /\ ok w2 /\
    heap w !! p = None /\ heap w2 = <[p := mk_obj c ∅]> (heap w) /\
    associations w2 = associations w /\ events w2 = events w.
Proof.
  intros Hok Hc Ha Hi.
  destruct (send_alloc F catlist fw_size P Hu Hp k c w Hok Hc Ha)
    as (p & w1 & Hw1 & Hok1 & Hn & Hh1 & Ha1 & He1).
  destruct (send_init F catlist fw_size P Hu Hp k p c ∅ w1 Hok1) as (w2 & Hw2 & (Hh2 & Ha2 & He2) & Hok2);
    [rewrite Hh1; apply lookup_insert_eq|exact Hi|].
  exists p, w1, w2. split_and!; [exact Hw1|exact Hw2|exact Hok2|exact Hn|congruence..].
Qed.

(** A method that only logs. *)
Definition log_imp (fmt : string) : imp := imp0 (fun _ _ => void (NSLog fmt [])).

Lemma send_log k o c slots sel name fmt w :
  method_of F (class_sym c) sel = Ret (Some (Imp name)) -> find_imp imps name = Some (log_imp fmt) ->
  ok w -> heap w !! o = Some (mk_obj c slots) ->
  exists w', msgSend (rt (S k)) (VObj o) sel [] w = Ret (nil, w') /\ ok w' /\
    heap w' = heap w /\ associations w' = associations w /\ events w' = E_log fmt [] :: events w.
Proof.
  intros Hm Hf Hok Ho.
  destruct (send_object F catlist fw_size P Hu Hp k o c slots sel [] _ _ w Hok Ho Hm Hf)
    as (w' & (Hh & Ha & He) & Hok' & Hs).
  exists (mk_world (heap w') (associations w') (E_log fmt [] :: events w') (caches w')).
  split_and!; [rewrite Hs; reflexivity|exact Hok'|exact Hh|exact Ha|cbn [events]; by rewrite He].
Qed.

(** ** SKRuntimePerson *)

(** Messages to nil and by selector: -[SKRuntimePerson takeAction] sends motherMethod to the nil
    that personMethod returned and logs nil, and -[SKRuntimePerson testMsgSendAction] runs foo twice,
    once through performSelector: and once directly; both create one new person and change no other
    object. *)
Theorem SKRuntimePerson_messages (k : nat) (o : positive) (slots : gmap Z val) (w : world) :
  ok w -> heap w !! o = Some (mk_obj "SKRuntimePerson" slots) ->
  (exists p w', msgSend (rt (S (S k))) (VObj o) "takeAction" [] w = Ret (nil, w') /\
     heap w !! p = None /\ heap w' = <[p := mk_obj "SKRuntimePerson" ∅]> (heap w) /\
     events w' = E_log "SKRuntimePerson_mi_0" [nil] :: events w) /\
  (exists p w', msgSend (rt (S (S (S k)))) (VObj o) "testMsgSendAction" [] w = Ret (nil, w') /\
     heap w !! p = None /\ heap w' = <[p := mk_obj "SKRuntimePerson" ∅]> (heap w) /\
     events w' = E_log "SKRuntimePerson_mi_1" [] :: E_log "SKRuntimePerson_mi_1" [] :: events w).
Proof.
  intros Hok Ho. split.
  - destruct (send_object F catlist fw_size P Hu Hp (S k) o "SKRuntimePerson" slots "takeAction" []
      "_I_SKRuntimePerson_takeAction" (imp0 _I_SKRuntimePerson_takeAction) w Hok Ho ltac:(lookup) eq_refl)
      as (w0 & (Hh0 & Ha0 & He0) & Hok0 & Hs).
    destruct (send_alloc_init k "SKRuntimePerson" w0 Hok0 ltac:(lookup) ltac:(lookup) ltac:(lookup))
      as (p & w1 & w2 & Hw1 & Hw2 & Hok2 & Hn & Hh2 & Ha2 & He2).
    destruct (send_object F catlist fw_size P Hu Hp k p "SKRuntimePerson" ∅ "personMethod" []
      "_I_SKRuntimePerson_personMethod" (imp0 _I_SKRuntimePerson_personMethod) w2 Hok2) as (w3 & (Hh3 & Ha3 & He3) & Hok3 & Hw3);
      [rewrite Hh2; apply lookup_insert_eq|lookup|reflexivity|].
    exists p, (mk_world (heap w3) (associations w3) (E_log "SKRuntimePerson_mi_0" [nil] :: events w3) (caches w3)).
    split_and!; [|by rewrite <- Hh0|cbn [heap]; congruence|cbn [events]; congruence].
    rewrite Hs. unfold imp0, _I_SKRuntimePerson_takeAction, obnd. rewrite Hw1, Hw2, Hw3. reflexivity.
  - destruct (send_object F catlist fw_size P Hu Hp (S (S k)) o "SKRuntimePerson" slots "testMsgSendAction" []
      "_I_SKRuntimePerson_testMsgSendAction" (imp0 _I_SKRuntimePerson_testMsgSendAction) w Hok Ho ltac:(lookup) eq_refl)
      as (w0 & (Hh0 & Ha0 & He0) & Hok0 & Hs).
    destruct (send_alloc_init (S k) "SKRuntimePerson" w0 Hok0 ltac:(lookup) ltac:(lookup) ltac:(lookup))
      as (p & w1 & w2 & Hw1 & Hw2 & Hok2 & Hn & Hh2 & Ha2 & He2).
    assert (Ho2 : heap w2 !! p = Some (mk_obj "SKRuntimePerson" ∅)) by (rewrite Hh2; apply lookup_insert_eq).
    destruct (send_NSObject F catlist fw_size P Hu Hp (S k) false (VObj p) "OBJC_CLASS_$_SKRuntimePerson"
      "performSelector:" [VSel "foo"] (msgSend (rt (S k)) (VObj p) "foo" []) w2 Hok2) as (w3 & (Hh3 & Ha3 & He3) & Hok3 & Hw3);
      [discriminate|simpl; rewrite Ho2; reflexivity|lookup|reflexivity|].
    destruct (send_log k p "SKRuntimePerson" ∅ "foo" "_I_SKRuntimePerson_foo" "SKRuntimePerson_mi_1" w3)
      as (w4 & Hw4 & Hok4 & Hh4 & Ha4 & He4); [lookup|reflexivity|exact Hok3|by rewrite Hh3|].
    destruct (send_log (S k) p "SKRuntimePerson" ∅ "foo" "_I_SKRuntimePerson_foo" "SKRuntimePerson_mi_1" w4)
      as (w5 & Hw5 & Hok5 & Hh5 & Ha5 & He5); [lookup|reflexivity|exact Hok4|by rewrite Hh4, Hh3|].
    exists p, w5. split_and!; [|by rewrite <- Hh0|congruence|congruence].
    rewrite Hs. unfold imp0, _I_SKRuntimePerson_testMsgSendAction, obnd. rewrite Hw1, Hw2, Hw3, Hw4, Hw5. reflexivity.
Qed.

(** ** SKSubObject *)

(** -class, sent to the object or to super, is the class of the object. *)
Lemma send_class k o c slots w :
  method_of F (class_sym c) "class" = Ret (Some (FrameworkImp (NSObject_sym false))) ->
  ok w -> heap w !! o = Some (mk_obj c slots) ->
  exists w', msgSend (rt (S k)) (VObj o) "class" [] w = Ret (VClass c, w') /\ same_state w w' /\ ok w'.
Proof.
  intros Hm Hok Ho.
  destruct (send_NSObject F catlist fw_size P Hu Hp k false (VObj o) (class_sym c) "class" []
    (object_getClass (VObj o)) w Hok) as (w' & Hs & Hok' & H);
    [discriminate|simpl; by rewrite Ho|exact Hm|reflexivity|].
  exists w'. split_and!; [|exact Hs|exact Hok']. rewrite H. destruct Hs as (Hh & _ & _).
  unfold object_getClass. by rewrite Hh, Ho.
Qed.

Lemma super_class k sub sup o c slots w :
  superclass_of program F (class_sym sub) = Some sup ->
  method_of F sup "class" = Ret (Some (FrameworkImp (NSObject_sym false))) ->
  ok w -> heap w !! o = Some (mk_obj c slots) ->
  exists w', msgSendSuper (rt (S k)) sub (VObj o) "class" [] w = Ret (VClass c, w') /\ same_state w w' /\ ok w'.
Proof.
  intros Hsup Hm Hok Ho.
  destruct (super_NSObject F catlist fw_size P Hu Hp k sub sup (VObj o) "class" []
    (object_getClass (VObj o)) w Hok Hsup Hm eq_refl) as (w' & Hs & Hok' & H).
  exists w'. split_and!; [|exact Hs|exact Hok']. rewrite H. destruct Hs as (Hh & _ & _).
  unfold object_getClass. by rewrite Hh, Ho.
Qed.

(** -[SKSubObject init] shows that super does not change the receiver: both log lines print the
    class of the object itself, SKSubObject, the one obtained from self and the one obtained from
    super; the object is returned unchanged. *)
Theorem SKSubObject_init_logs_same_class (k : nat) (o : positive) (slots : gmap Z val) (w : world) :
  ok w -> heap w !! o = Some (mk_obj "SKSubObject" slots) ->
  let sub := VClass "SKSubObject" in
  exists w', msgSend (rt (S (S k))) (VObj o) "init" [] w = Ret (VObj o, w') /\
    heap w' = heap w /\ associations w' = associations w /\
    events w' = E_log "SKSubObject_mi_3" [NSStringFromClass P sub; sub] ::
                E_log "SKSubObject_mi_2" [NSStringFromClass P sub; sub] :: events w.
Proof.
  intros Hok Ho sub.
  destruct (send_object F catlist fw_size P Hu Hp (S k) o "SKSubObject" slots "init" []
    "_I_SKSubObject_init" (imp0 (_I_SKSubObject_init (NSStringFromClass P))) w Hok Ho ltac:(lookup) eq_refl)
    as (w0 & (Hh0 & Ha0 & He0) & Hok0 & Hs).
  destruct (super_NSObject F catlist fw_size P Hu Hp k "SKSubObject" "OBJC_CLASS_$_SKObjectObject"
    (VObj o) "init" [] (oret (VObj o)) w0 Hok0 ltac:(lookup) ltac:(lookup) eq_refl) as (w1 & (Hh1 & Ha1 & He1) & Hok1 & Hw1).
  destruct (send_class k o "SKSubObject" slots w1 ltac:(lookup) Hok1) as (w2 & Hw2 & (Hh2 & Ha2 & He2) & Hok2);
    [congruence|].
  destruct (send_class k o "SKSubObject" slots w2 ltac:(lookup) Hok2) as (w3 & Hw3 & (Hh3 & Ha3 & He3) & Hok3);
    [congruence|].
  set (w4 := mk_world (heap w3) (associations w3)
    (E_log "SKSubObject_mi_2" [NSStringFromClass P sub; sub] :: events w3) (caches w3)).
  assert (Hok4 : ok w4) by exact (ok_caches F catlist w3 w4 eq_refl Hok3).
  destruct (super_class k "SKSubObject" "OBJC_CLASS_$_SKObjectObject" o "SKSubObject" slots w4
    ltac:(lookup) ltac:(lookup) Hok4) as (w5 & Hw5 & (Hh5 & Ha5 & He5) & Hok5); [unfold w4; cbn [heap]; congruence|].
  destruct (super_class k "SKSubObject" "OBJC_CLASS_$_SKObjectObject" o "SKSubObject" slots w5
    ltac:(lookup) ltac:(lookup) Hok5) as (w6 & Hw6 & (Hh6 & Ha6 & He6) & Hok6); [unfold w4 in Hh5; cbn [heap] in Hh5; congruence|].
  exists (mk_world (heap w6) (associations w6) (E_log "SKSubObject_mi_3" [NSStringFromClass P sub; sub] :: events w6) (caches w6)).
  unfold w4 in Hh5, Ha5, He5. cbn [heap associations events] in *.
  split_and!; [|congruence|congruence|congruence].
  rewrite Hs. unfold imp0, _I_SKSubObject_init, obnd. rewrite Hw1. unfold oret at 1.
  rewrite decide_False by discriminate. rewrite Hw2, Hw3. unfold NSLog, emit. fold sub. fold w4.
  rewrite Hw5, Hw6. reflexivity.
Qed.

(** ** SKTraggedPointTest *)

(** -[SKTraggedPointTest testIntValue] sets the property to 5 and then writes the ivar of the
    same property directly: the object ends with 15, and no other slot changes. *)
Theorem testIntValue_leaves_15 (k : nat) (o : positive) (slots : gmap Z val) (w : world) :
  ok w -> heap w !! o = Some (mk_obj "SKTraggedPointTest" slots) ->
  exists w1 w2, msgSend (rt (S (S k))) (VObj o) "testIntValue" [] w = Ret (nil, w1) /\
    heap w1 = <[o := mk_obj "SKTraggedPointTest" (<[ivar "SKTraggedPointTest" "_intValue" := VInt 15]> slots)]> (heap w) /\
    events w1 = events w /\
    msgSend (rt (S (S k))) (VObj o) "intValue" [] w1 = Ret (VInt 15, w2).
Proof.
  intros Hok Ho. set (off := ivar "SKTraggedPointTest" "_intValue").
  destruct (send_object F catlist fw_size P Hu Hp (S k) o "SKTraggedPointTest" slots "testIntValue" []
    "_I_SKTraggedPointTest_testIntValue" (imp0 (_I_SKTraggedPointTest_testIntValue ivar)) w Hok Ho ltac:(lookup) eq_refl)
    as (w0 & (Hh0 & Ha0 & He0) & Hok0 & Hs).
  assert (Ho0 : heap w0 !! o = Some (mk_obj "SKTraggedPointTest" slots)) by congruence.
  destruct (send_object F catlist fw_size P Hu Hp k o "SKTraggedPointTest" slots "setIntValue:" [VInt 5]
    "_I_SKTraggedPointTest_setIntValue_" (store_imp off) w0 Hok0 Ho0 ltac:(lookup) eq_refl)
    as (w1 & (Hh1 & Ha1 & He1) & Hok1 & Hw1).
  assert (Ho1 : heap w1 !! o = Some (mk_obj "SKTraggedPointTest" slots)) by congruence.
  set (w3 := mk_world (<[o := mk_obj "SKTraggedPointTest" (<[off := VInt 15]> slots)]> (heap w)) (associations w1)
               (events w1) (caches w1)).
  assert (Hset : msgSend (rt (S (S k))) (VObj o) "testIntValue" [] w = Ret (nil, w3)).
  { rewrite Hs. unfold imp0, _I_SKTraggedPointTest_testIntValue, obnd. rewrite Hw1.
    unfold store_imp, imp1, void, obnd, store_slot. rewrite Ho1. cbn [oret heap associations events caches].
    rewrite lookup_insert_eq. cbn [o_isa o_slots]. fold off. rewrite !insert_insert_eq. unfold w3.
    do 2 f_equal. by rewrite Hh1, Hh0. }
  destruct (send_load F catlist fw_size P Hu Hp (S k) o "SKTraggedPointTest" (<[off := VInt 15]> slots)
    "intValue" "_I_SKTraggedPointTest_intValue" off w3 ltac:(lookup) eq_refl) as (w4 & Hw4 & _ & _);
    [exact (ok_caches F catlist w1 w3 eq_refl Hok1)|apply lookup_insert_eq|].
  rewrite lookup_insert_eq in Hw4. exists w3, w4.
  split_and!; [exact Hset|reflexivity|unfold w3; cbn [events]; congruence|exact Hw4].
Qed.

(** ** SKMessageSendAction *)

Definition action : string := "OBJC_CLASS_$_SKMessageSendAction".
Definition unrecognized : string := "testUnrecognizedSelector".

Lemma action_unimplemented : fw_responds F (class_sym "NSObject") unrecognized = false ->
  method_of F action unrecognized = Ret None.
Proof. intros Hf. vm_compute in Hf |- *. by rewrite Hf. Qed.

(** A message whose lookup ends in forwarding goes to the system's forwarding. *)
Lemma send_forward k o c slots sel args w w' :
  heap w !! o = Some (mk_obj c slots) ->
  lookUpImpOrForward program catlist F (rt k) (class_sym c) sel w = Ret (Forward, w') ->
  msgSend (rt (S k)) (VObj o) sel args w = fw_forward F (rt k) (VObj o) sel args w'.
Proof.
  intros Ho Hl. Transparent ProgramRuntime.rt. unfold ProgramRuntime.rt in *. Opaque ProgramRuntime.rt.
  cbn [runtime msgSend]. rewrite decide_False by discriminate. cbn [receiver_class]. rewrite Ho.
  change (class_sym <$> (o_isa <$> Some (mk_obj c slots))) with (Some (class_sym c)).
  unfold obnd. rewrite Hl. reflexivity.
Qed.

(** A selector nobody implements: the first testUnrecognizedSelector sent to an
    SKMessageSendAction asks its resolveInstanceMethod:, which logs and answers YES without adding a
    method, and the message then goes to forwarding; the outcome is cached, so sending it again goes
    to forwarding at once, without the log. *)
Theorem unrecognized_selector_forwarded (k : nat) (o : positive) (slots : gmap Z val) (w : world) :
  fw_responds F (class_sym "NSObject") unrecognized = false ->
  ok w -> heap w !! o = Some (mk_obj "SKMessageSendAction" slots) -> caches w !! (action, unrecognized) = None ->
  exists w', ok w' /\ heap w' = heap w /\ associations w' = associations w /\
    events w' = E_log "SKMessageSendAction_mi_0" [] :: events w /\
    msgSend (rt (S (S k))) (VObj o) unrecognized [] w = fw_forward F (rt (S k)) (VObj o) unrecognized [] w' /\
    msgSend (rt (S (S k))) (VObj o) unrecognized [] w' = fw_forward F (rt (S k)) (VObj o) unrecognized [] w'.
Proof.
  intros Hf Hok Ho Hnone.
  destruct (lookUpImpOrForward_unimplemented program catlist F (rt (S k)) action unrecognized
    "OBJC_METACLASS_$_SKMessageSendAction" (Imp "_C_SKMessageSendAction_resolveInstanceMethod_")
    [E_log "SKMessageSendAction_mi_0" []] w Hok) as (w' & Hl & Hok' & Hh & Ha & He & Hc).
  - lookup.
  - lookup.
  - exact Hnone.
  - apply lookup_method_of; [exact Hu|exact Hp|by apply action_unimplemented].
  - apply lookup_method_of; [exact Hu|exact Hp|lookup].
  - intros w0 (Hh0 & Ha0 & He0) Hok0.
    assert (Hcv : class_value program action = VClass "SKMessageSendAction") by lookup. rewrite Hcv.
    destruct (msgSend_dispatch F catlist fw_size P Hu Hp k (VClass "SKMessageSendAction")
      "OBJC_METACLASS_$_SKMessageSendAction" "resolveInstanceMethod:" [VSel unrecognized]
      (Imp "_C_SKMessageSendAction_resolveInstanceMethod_") w0 Hok0) as (w1 & (Hh1 & Ha1 & He1) & Hok1 & Hs);
      [discriminate|lookup|lookup|].
    exists (VInt 1), (mk_world (heap w1) (associations w1) (E_log "SKMessageSendAction_mi_0" [] :: events w1) (caches w1)).
    split_and!; [rewrite Hs; reflexivity|exact Hok1|cbn [heap]; congruence|cbn [associations]; congruence
                |cbn [events]; by rewrite He1, He0].
  - exists w'. split_and!; [exact Hok'|exact Hh|exact Ha|exact He|by eapply send_forward|].
    eapply send_forward; [rewrite Hh; exact Ho|].
    unfold lookUpImpOrForward, retry, obnd, cache_getImp.
    change (class_sym "SKMessageSendAction") with action. rewrite Hc. reflexivity.
Qed.

End Messages.
