(* ===== verification/RuntimeSamples.v ===== *)
(** * The runtime on concrete worlds

    A concrete system and concrete objects on which the theorems about the
    lowered methods are applied. *)

From Stdlib Require Import ZArith Lia Bool String Permutation.
From stdpp Require Import base list gmap strings.
From S2P Require Import Prelude ObjCData ObjCImages ObjCImagesSpec IvarLayout MethodList ObjCRuntime MethodCache LoweredMethods LoweredBlocks ProgramRuntime LoweredSpec MessageSpec.

Local Open Scope string_scope.
Local Open Scope Z_scope.
Local Open Scope list_scope.

(** A system whose objects are their own copies and answer nothing else. *)
Definition sample_framework : framework :=
  mk_framework name_number 0 (fun _ => None) (fun _ _ => false)
    (fun _ v sel _ => oret (if String.eqb sel "copy" || String.eqb sel "copyWithZone:" then v else nil))
    (fun _ _ _ _ => oret nil).

Lemma sample_uniqued : selectors_uniqued sample_framework.
Proof. exact name_number_inj. Qed.

(** One object, nothing associated, nothing logged, nothing cached. *)
Definition one_object (c : string) (slots : gmap Z val) : world :=
  mk_world {[ 1%positive := mk_obj c slots ]} ∅ [] ∅.

Lemma one_object_ok c slots : ok sample_framework program_catlist (one_object c slots).
Proof. intros cls sel i. simpl. rewrite lookup_empty. discriminate. Qed.

Lemma one_object_heap c slots : heap (one_object c slots) !! 1%positive = Some (mk_obj c slots).
Proof. apply lookup_singleton_eq. Qed.

Lemma static_copies sel args l : sel = "copy" \/ sel = "copyWithZone:" ->
  copies sample_framework sel args (VStatic l) (VStatic l).
Proof. intros [->| ->]; right; split; done. Qed.

Local Abbreviation size8 := (fun _ : string => 8).
(** A system with a clock that stands still and a queue that runs nothing. *)
Definition sample_platform : platform :=
  mk_platform (fun v => v) (fun _ => [98; 97; 99; 100; 98; 98; 98]) (VStatic "main_queue") (fun _ _ => oret tt)
    (fun _ => oret 1) (oret (VInt 0)) (oret (VInt 0)) (oret (1, 1)) (oret 0)
    (fun _ => VInt 0) (fun z => VInt z) (fun a _ => a) (fun a _ => a) (fun a _ => a).

Local Abbreviation same := sample_platform.

Ltac sample_world := first [exact sample_uniqued|reflexivity|apply one_object_ok|apply one_object_heap
  |apply static_copies; tauto].

Lemma method_cache_transparent_witness :
  exists w', lookUpImpNoResolver program program_catlist sample_framework "OBJC_CLASS_$_SKSubObject" "printClass"
      (one_object "SKSubObject" ∅) = Ret (Imp "_I_SKObjectObject_printClass", w') /\
    coherent program program_catlist sample_framework w'.
Proof.
  destruct (method_cache_transparent program program_catlist sample_framework "OBJC_CLASS_$_SKSubObject" "printClass"
    (Some (Imp "_I_SKObjectObject_printClass")) (one_object "SKSubObject" ∅)) as [(w' & Hw & _ & Hc & _) _].
  - apply one_object_ok.
  - apply lookup_own; [exact sample_uniqued|lookup].
  - exists w'. split; [exact Hw|exact Hc].
Defined.

Lemma lookup_answers_once_witness :
  exists i w', lookUpImpOrForward program program_catlist sample_framework (mk_senders (fun _ _ _ => oret nil) (fun _ _ _ _ => oret nil))
      "OBJC_CLASS_$_SKSubObject" "printClass" w' = Ret (i, w').
Proof.
  destruct (lookUpImpOrForward_found program program_catlist sample_framework
    (mk_senders (fun _ _ _ => oret nil) (fun _ _ _ _ => oret nil))
    "OBJC_CLASS_$_SKSubObject" "printClass" (Imp "_I_SKObjectObject_printClass") (one_object "SKSubObject" ∅))
    as (w' & Hw & _ & _); [apply one_object_ok|apply lookup_own; [exact sample_uniqued|lookup]|].
  exists (Imp "_I_SKObjectObject_printClass"), w'.
  exact (lookup_answers_once program program_catlist sample_framework _ _ _ _ _ _ _ Hw).
Defined.

Lemma direct_properties_roundtrip_witness :
  accessor_roundtrip sample_framework program_catlist size8 same 1
    (mk_property "SKSubObject" "subObjectString" "setSubObjectString:" "_subObjectString"
       "_I_SKSubObject_subObjectString" "_I_SKSubObject_setSubObjectString_")
    1%positive ∅ (one_object "SKSubObject" ∅) (VStatic "title") (VStatic "title") [].
Proof.
  apply (direct_properties_roundtrip sample_framework program_catlist size8 same); try sample_world.
  right. left.
Defined.

Lemma copy_properties_roundtrip_witness :
  accessor_roundtrip sample_framework program_catlist size8 same 2
    (mk_property "SubDemo" "firstName" "setFirstName:" "_firstName"
       "_I_SubDemo_firstName" "_I_SubDemo_setFirstName_")
    1%positive ∅ (one_object "SubDemo" ∅) (VStatic "a") (VStatic "a") [].
Proof.
  apply (copy_properties_roundtrip sample_framework program_catlist size8 same) with (off := OFFSETOFIVAR SubDemo_IMPL "_firstName");
    try sample_world; [left|discriminate|discriminate].
Defined.

(** The setters of SKBlockVC pass the right offset only if UIViewController has the size the file was compiled with. *)
Example block_copy_offsets :
  Forall (fun iv => OFFSETOFIVAR SKBlockVC_IMPL iv = realized_ivar (fun _ => 8) "SKBlockVC" iv) ["_model"; "_blockFive"; "_sumOf"] /\
  Forall (fun iv => OFFSETOFIVAR SKBlockVC_IMPL iv <> realized_ivar (fun _ => 64) "SKBlockVC" iv) ["_model"; "_blockFive"; "_sumOf"].
Proof. split; repeat (apply Forall_cons; split; [vm_compute; (reflexivity || discriminate)|]); constructor. Qed.

Lemma SSDemo_setter_overwrites_firstName_witness :
  exists w1 w2 w3,
    msgSend (rt sample_framework program_catlist size8 same 2) (VObj 1) "setLastName:" [VStatic "last"]
      (one_object "SSDemo" {[ 8 := VStatic "first" ]}) = Ret (nil, w1) /\
    msgSend (rt sample_framework program_catlist size8 same 2) (VObj 1) "lastName" [] w1 = Ret (nil, w2) /\
    msgSend (rt sample_framework program_catlist size8 same 2) (VObj 1) "firstName" [] w2 = Ret (VStatic "last", w3).
Proof.
  destruct (SSDemo_setter_overwrites_firstName sample_framework program_catlist size8 same sample_uniqued (reflexivity _)
    0 1%positive {[ 8 := VStatic "first" ]} (one_object "SSDemo" {[ 8 := VStatic "first" ]}) (VStatic "last") (VStatic "last"))
    as (_ & w1 & w2 & w3 & H1 & _ & H2 & H3); try sample_world.
  exists w1, w2, w3. split; [exact H1|]. split; [|exact H3]. rewrite H2. vm_compute. reflexivity.
Defined.

Lemma category_properties_roundtrip_witness :
  association_roundtrip sample_framework program_catlist size8 same 2 1%positive
    "setMustProperty:" "mustProperty" "thisisname" (VStatic "a") (VStatic "a") (one_object "TestExpand" ∅).
Proof.
  apply (category_properties_roundtrip sample_framework program_catlist size8 same sample_uniqued (reflexivity _)
    0 1%positive "TestExpand" ∅); sample_world.
Defined.

Lemma TestExpand_own_setter_stores_nothing_witness :
  exists w1, _I_TestExpand_setMustProperty_ (mk_senders (fun _ _ _ => oret nil) (fun _ _ _ _ => oret nil)) (VObj 1)
      (VStatic "a") (one_object "TestExpand" ∅) = Ret (nil, w1) /\ heap w1 = heap (one_object "TestExpand" ∅).
Proof.
  destruct (TestExpand_own_setter_stores_nothing size8 (mk_senders (fun _ _ _ => oret nil) (fun _ _ _ _ => oret nil))
    1%positive (mk_obj "TestExpand" ∅) (VStatic "a") (one_object "TestExpand" ∅) (one_object_heap _ _))
    as (w1 & _ & H1 & H2 & _ & _).
  exists w1. split; [exact H1|exact H2].
Defined.

Lemma timeValue_is_lost_witness :
  exists w1 w2,
    msgSend (rt sample_framework program_catlist size8 same 2) (VObj 1) "setTimeValue:" [VStatic "t"]
      (one_object "SKSubObject" ∅) = Ret (nil, w1) /\
    msgSend (rt sample_framework program_catlist size8 same 2) (VObj 1) "timeValue" [] w1 = Ret (nil, w2).
Proof.
  destruct (timeValue_is_lost sample_framework program_catlist size8 same sample_uniqued (reflexivity _)
    0 1%positive "SKSubObject" ∅ (one_object "SKSubObject" ∅) (VStatic "t") (VStatic "t")) as (w1 & w2 & H1 & _ & H2);
    try sample_world.
  - apply (bool_decide_unpack _). vm_compute. exact I.
  - exists w1, w2. split; [exact H1|exact H2].
Defined.

Lemma SKRuntimePerson_messages_witness :
  exists w', msgSend (rt sample_framework program_catlist size8 same 2) (VObj 1) "takeAction" []
      (one_object "SKRuntimePerson" ∅) = Ret (nil, w') /\ events w' = [E_log "SKRuntimePerson_mi_0" [nil]].
Proof.
  destruct (SKRuntimePerson_messages sample_framework program_catlist size8 same sample_uniqued (reflexivity _)
    0 1%positive ∅ (one_object "SKRuntimePerson" ∅)) as [(p & w' & H1 & _ & _ & H2) _]; try sample_world.
  exists w'. split; [exact H1|exact H2].
Defined.

Lemma SKSubObject_init_logs_same_class_witness :
  exists w', msgSend (rt sample_framework program_catlist size8 same 2) (VObj 1) "init" []
      (one_object "SKSubObject" ∅) = Ret (VObj 1, w') /\
    events w' = [E_log "SKSubObject_mi_3" [VClass "SKSubObject"; VClass "SKSubObject"];
                 E_log "SKSubObject_mi_2" [VClass "SKSubObject"; VClass "SKSubObject"]].
Proof.
  destruct (SKSubObject_init_logs_same_class sample_framework program_catlist size8 same sample_uniqued (reflexivity _)
    0 1%positive ∅ (one_object "SKSubObject" ∅)) as (w' & H1 & _ & _ & H2); try sample_world.
  exists w'. split; [exact H1|exact H2].
Defined.

Lemma testIntValue_leaves_15_witness :
  exists w1 w2, msgSend (rt sample_framework program_catlist size8 same 2) (VObj 1) "testIntValue" []
      (one_object "SKTraggedPointTest" ∅) = Ret (nil, w1) /\
    msgSend (rt sample_framework program_catlist size8 same 2) (VObj 1) "intValue" [] w1 = Ret (VInt 15, w2).
Proof.
  destruct (testIntValue_leaves_15 sample_framework program_catlist size8 same sample_uniqued (reflexivity _)
    0 1%positive ∅ (one_object "SKTraggedPointTest" ∅)) as (w1 & w2 & H1 & _ & _ & H2); try sample_world.
  exists w1, w2. split; [exact H1|exact H2].
Defined.

Lemma unrecognized_selector_forwarded_witness :
  exists w', msgSend (rt sample_framework program_catlist size8 same 2) (VObj 1) unrecognized []
      (one_object "SKMessageSendAction" ∅) = Ret (nil, w') /\ events w' = [E_log "SKMessageSendAction_mi_0" []].
Proof.
  destruct (unrecognized_selector_forwarded sample_framework program_catlist size8 same sample_uniqued (reflexivity _)
    0 1%positive ∅ (one_object "SKMessageSendAction" ∅)) as (w' & _ & _ & _ & He & Hs & _); try sample_world.
  exists w'. split; [exact Hs|exact He].
Defined.
