(* ===== verification/BlocksSpec.v ===== *)
(** * What the blocks runtime guarantees

    Reference counts, the sharing of __block variables between the stack and
    copied blocks, and copying and releasing of blocks. *)

From Stdlib Require Import ZArith Lia Bool String.
From stdpp Require Import base list gmap strings.
From S2P Require Import Prelude Endian ObjCData ObjCRuntime BlocksRuntime.

Local Open Scope string_scope.
Local Open Scope Z_scope.
Local Open Scope list_scope.
Local Open Scope objc_scope.

(** ** Reference counts *)

(** The logical count in the flags: bits 1 to 15. *)
Definition refcount (flags : Z) : Z := (flags / 2) mod 2 ^ 15.

Definition flags_ok (flags : Z) : Prop := 0 <= flags < 2 ^ 31.

Lemma land_mask flags : 0 <= flags -> Z.land flags BLOCK_REFCOUNT_MASK = 2 * refcount flags.
Proof.
  intros Hf. unfold refcount, BLOCK_REFCOUNT_MASK.
  replace 0xfffe with (Z.shiftl (Z.ones 15) 1) by reflexivity.
  replace (2 * ((flags / 2) mod 2 ^ 15)) with (Z.shiftl (Z.land (Z.shiftr flags 1) (Z.ones 15)) 1).
  2: { rewrite Z.shiftl_mul_pow2, Z.land_ones, Z.shiftr_div_pow2 by lia. rewrite Z.mul_comm. reflexivity. }
  apply Z.bits_inj'. intros i Hi. rewrite Z.land_spec, !Z.shiftl_spec by lia.
  destruct (decide (i = 0)) as [->|].
  - rewrite !(Z.testbit_neg_r _ (0 - 1)) by lia. by rewrite andb_false_r.
  - rewrite Z.land_spec, Z.shiftr_spec by lia. by replace (i - 1 + 1) with i by lia.
Qed.

Lemma refcount_range flags : 0 <= refcount flags < 2 ^ 15.
Proof. apply Z.mod_pos_bound. lia. Qed.

(** The flags as count, deallocating bit and the rest. *)
Lemma flags_split flags : 0 <= flags ->
  flags = flags / 2 ^ 16 * 2 ^ 16 + 2 * refcount flags + flags mod 2.
Proof.
  intros Hf. unfold refcount.
  rewrite (Z.div_mod flags 2) at 1 by lia.
  rewrite (Z.div_mod (flags / 2) (2 ^ 15)) at 1 by lia.
  replace (flags / 2 ^ 16) with (flags / 2 / 2 ^ 15); [lia|].
  rewrite Z.div_div by lia. f_equal.
Qed.

Lemma split_refcount hi rc d : 0 <= rc < 2 ^ 15 -> 0 <= d < 2 ->
  refcount (hi * 2 ^ 16 + 2 * rc + d) = rc /\ (hi * 2 ^ 16 + 2 * rc + d) / 2 ^ 16 = hi /\
  (hi * 2 ^ 16 + 2 * rc + d) mod 2 = d.
Proof.
  intros Hrc Hd. change (2 ^ 16) with 65536. change (2 ^ 15) with 32768 in *. unfold refcount. change (2 ^ 15) with 32768.
  replace (hi * 65536 + 2 * rc + d) with (d + (hi * 32768 + rc) * 2) by lia.
  rewrite Z.div_add, Z.mod_add by lia. rewrite (Z.div_small d), (Z.mod_small d) by lia.
  split_and!; [|..|done].
  - replace (0 + (hi * 32768 + rc)) with (rc + hi * 32768) by lia.
    rewrite Z.mod_add by lia. apply Z.mod_small. lia.
  - replace (d + (hi * 32768 + rc) * 2) with (2 * rc + d + hi * 65536) by lia.
    rewrite Z.div_add by lia. rewrite Z.div_small; lia.
Qed.

(** The bits above the count. *)
Definition same_kind (flags flags' : Z) : Prop := flags' / 2 ^ 16 = flags / 2 ^ 16.

Lemma latching_incr_spec flags : flags_ok flags ->
  let flags' := (latching_incr_int flags).1 in
  flags_ok flags' /\ same_kind flags flags' /\ flags' mod 2 = flags mod 2 /\
  refcount flags' = Z.min (refcount flags + 1) (2 ^ 15 - 1).
Proof.
  intros Hf. pose proof Hf as [H0 H1]. unfold latching_incr_int. rewrite land_mask by done.
  pose proof (refcount_range flags) as Hr. pose proof (flags_split flags H0) as Hs.
  pose proof (Z.mod_pos_bound flags 2 ltac:(lia)) as Hm. pose proof (Z.div_pos flags (2 ^ 16) H0 ltac:(lia)) as Hp.
  unfold BLOCK_REFCOUNT_MASK. change 0xfffe with 65534.
  change (2 ^ 15) with 32768 in *. change (2 ^ 16) with 65536 in *.
  destruct (_ =? _) eqn:E; zbool; cbn [fst].
  - unfold same_kind. split_and!; [done|done|done|lia].
  - set (hi := flags / 65536) in *. set (rc := refcount flags) in *. set (d := flags mod 2) in *.
    assert (Hhi : hi < 32768) by (unfold hi; apply Z.div_lt_upper_bound; unfold flags_ok in Hf; lia).
    replace (flags + 2) with (hi * 2 ^ 16 + 2 * (rc + 1) + d) by (change (2 ^ 16) with 65536; lia).
    rewrite swrap_id by (change (2 ^ 16) with 65536; change (2 ^ (32 - 1)) with 2147483648; lia).
    destruct (split_refcount hi (rc + 1) d) as (H2 & H3 & H4); [change (2 ^ 15) with 32768; lia|lia|].
    unfold same_kind, flags_ok. change (2 ^ 16) with 65536 in *. rewrite H2, H3, H4.
    change (2 ^ 31) with 2147483648. fold hi. split_and!; lia.
Qed.

Lemma dealloc_bits flags : 0 <= flags ->
  Z.land flags (Z.lor BLOCK_REFCOUNT_MASK BLOCK_DEALLOCATING) = 2 * refcount flags + flags mod 2.
Proof.
  intros Hf. change (Z.lor BLOCK_REFCOUNT_MASK BLOCK_DEALLOCATING) with (Z.ones 16).
  rewrite Z.land_ones by lia. rewrite (flags_split flags Hf) at 1.
  pose proof (refcount_range flags). pose proof (Z.mod_pos_bound flags 2 ltac:(lia)).
  change (2 ^ 15) with 32768 in *. change (2 ^ 16) with 65536.
  replace (flags / 65536 * 65536 + 2 * refcount flags + flags mod 2)
    with (2 * refcount flags + flags mod 2 + flags / 65536 * 65536) by lia.
  rewrite Z.mod_add by lia. apply Z.mod_small. lia.
Qed.

(** The decrement: latched counts stay, the last one marks the memory as
    deallocating and says so. *)
Lemma latching_decr_spec flags : flags_ok flags ->
  let '(flags', dealloc) := latching_decr_int_should_deallocate flags in
  flags_ok flags' /\ same_kind flags flags' /\
  (refcount flags = 0 \/ refcount flags = 2 ^ 15 - 1 -> flags' = flags /\ dealloc = false) /\
  (0 < refcount flags < 2 ^ 15 - 1 ->
     refcount flags' = refcount flags - 1 /\ dealloc = (refcount flags =? 1) && (flags mod 2 =? 0) /\
     flags' mod 2 = if dealloc then 1 else flags mod 2).
Proof.
  intros Hf. pose proof Hf as [H0 H1]. unfold latching_decr_int_should_deallocate. rewrite land_mask, dealloc_bits by done.
  pose proof (refcount_range flags) as Hr. pose proof (flags_split flags H0) as Hs.
  pose proof (Z.mod_pos_bound flags 2 ltac:(lia)) as Hm. pose proof (Z.div_pos flags (2 ^ 16) H0 ltac:(lia)) as Hp.
  unfold BLOCK_REFCOUNT_MASK. change 0xfffe with 65534.
  change (2 ^ 15) with 32768 in *. change (2 ^ 16) with 65536 in *.
  destruct (2 * refcount flags =? 65534) eqn:E1; zbool; [split_and!; [done|done|done|lia]|].
  destruct (2 * refcount flags =? 0) eqn:E2; zbool; [split_and!; [done|done|done|lia]|].
  set (hi := flags / 65536) in *. set (rc := refcount flags) in *. set (d := flags mod 2) in *.
  assert (Hhi : hi < 32768) by (unfold hi; apply Z.div_lt_upper_bound; unfold flags_ok in Hf; lia).
  destruct (2 * rc + d =? 2) eqn:E3; zbool.
  - assert (rc = 1 /\ d = 0) as [Hrc Hd] by lia.
    replace (flags - 1) with (hi * 2 ^ 16 + 2 * 0 + 1) by (change (2 ^ 16) with 65536; lia).
    rewrite swrap_id by (change (2 ^ 16) with 65536; change (2 ^ (32 - 1)) with 2147483648; lia).
    destruct (split_refcount hi 0 1) as (H2 & H3 & H4); [change (2 ^ 15) with 32768; lia|lia|].
    unfold same_kind, flags_ok. change (2 ^ 16) with 65536 in *. rewrite H2, H3, H4. rewrite Hrc, Hd.
    change (2 ^ 31) with 2147483648. fold hi. split_and!; [lia|lia|done|lia|]. intros _. split_and!; [lia|done|done].
  - replace (flags - 2) with (hi * 2 ^ 16 + 2 * (rc - 1) + d) by (change (2 ^ 16) with 65536; lia).
    rewrite swrap_id by (change (2 ^ 16) with 65536; change (2 ^ (32 - 1)) with 2147483648; lia).
    destruct (split_refcount hi (rc - 1) d) as (H2 & H3 & H4); [change (2 ^ 15) with 32768; lia|lia|].
    unfold same_kind, flags_ok. change (2 ^ 16) with 65536 in *. rewrite H2, H3, H4.
    change (2 ^ 31) with 2147483648. fold hi. split_and!; [lia|lia|done|lia|]. intros _. split_and!; [lia| |done].
    destruct (rc =? 1) eqn:E4, (d =? 0) eqn:E5; zbool; simpl; lia || done.
Qed.

(** *** Single flags *)

Lemma flag_testbit f k : 0 <= k -> flag f (2 ^ k) = Z.testbit f k.
Proof.
  intros Hk. unfold flag. destruct (Z.testbit f k) eqn:E.
  - destruct (_ =? 0) eqn:E0; zbool; [|done].
    assert (Ht : Z.testbit (Z.land f (2 ^ k)) k = true) by (rewrite Z.land_spec, E, Z.pow2_bits_true by lia; done).
    by rewrite E0, Z.bits_0 in Ht.
  - replace (Z.land f (2 ^ k)) with 0; [done|]. apply Z.bits_inj'. intros i Hi. rewrite Z.bits_0, Z.land_spec.
    destruct (decide (i = k)) as [->|]; [by rewrite E|]. rewrite Z.pow2_bits_false by lia. by rewrite andb_false_r.
Qed.

Lemma flag_lor a b bits : flag (Z.lor a b) bits = flag a bits || flag b bits.
Proof.
  unfold flag. rewrite Z.land_lor_distr_l.
  destruct (Z.lor _ _ =? 0) eqn:E; zbool.
  - apply Z.lor_eq_0_iff in E as [-> ->]. done.
  - destruct (Z.land a bits =? 0) eqn:E1, (Z.land b bits =? 0) eqn:E2; zbool; try done.
    rewrite E1, E2 in E. done.
Qed.

(** Counting does not touch the flags above the count. *)
Lemma same_kind_flag f f' k : same_kind f f' -> 16 <= k -> flag f' (2 ^ k) = flag f (2 ^ k).
Proof.
  intros Hk Hle. rewrite !flag_testbit by lia. unfold same_kind in Hk.
  rewrite <- !Z.shiftr_div_pow2 in Hk by lia.
  replace k with (k - 16 + 16) by lia. rewrite <- !Z.shiftr_spec by lia. by rewrite Hk.
Qed.

Lemma flags_ok_lor a b : flags_ok a -> flags_ok b -> flags_ok (Z.lor a b).
Proof.
  intros Ha Hb. apply (in_u_of_bits 31); [lia|apply Z.lor_nonneg; split; [apply Ha|apply Hb]|].
  intros i Hi. rewrite Z.lor_spec. rewrite !(testbit_in_u 31) by (done || lia). done.
Qed.

(** ** Memory *)

(** The slots of the object at [o]. *)
Definition slots_at (w : world) (o : positive) : option (gmap Z val) := o_slots <$> heap w !! o.

Definition slot_at (w : world) (o : positive) (off : Z) : val :=
  default nil (slots_at w o ≫= fun s => s !! off).

Definition with_slot (w : world) (o : positive) (off : Z) (v : val) : world :=
  mk_world (alter (fun ob => mk_obj (o_isa ob) (<[off := v]> (o_slots ob))) o (heap w))
    (associations w) (events w) (caches w).

Definition allocated (w : world) (o : positive) : Prop := is_Some (heap w !! o).

Lemma load_slot_at w o off : allocated w o -> load_slot (VObj o) off w = Ret (slot_at w o off, w).
Proof. intros [ob Ho]. unfold load_slot, slot_at, slots_at. by rewrite Ho. Qed.

Lemma load_int_at w o off z : allocated w o -> slot_at w o off = VInt z -> load_int (VObj o) off w = Ret (z, w).
Proof. intros Ho Hs. unfold load_int, obnd. rewrite load_slot_at by done. by rewrite Hs. Qed.

Lemma store_slot_at w o off v : allocated w o -> store_slot (VObj o) off v w = Ret (tt, with_slot w o off v).
Proof.
  intros [ob Ho]. unfold store_slot, with_slot. rewrite Ho. do 3 f_equal. apply map_eq. intros p.
  destruct (decide (p = o)) as [->|]; [by rewrite lookup_insert_eq, lookup_alter_eq, Ho|].
  by rewrite lookup_insert_ne, lookup_alter_ne.
Qed.

Lemma allocated_with_slot w o off v p : allocated (with_slot w o off v) p <-> allocated w p.
Proof.
  unfold allocated, with_slot. simpl. destruct (decide (o = p)) as [->|]; [|by rewrite lookup_alter_ne].
  rewrite lookup_alter_eq. by destruct (heap w !! p); split; intros [? [=]]; eexists.
Qed.

Lemma slot_with_slot w o off v p q : allocated w o ->
  slot_at (with_slot w o off v) p q = if decide (p = o /\ q = off) then v else slot_at w p q.
Proof.
  intros [ob Ho]. unfold slot_at, slots_at, with_slot. simpl.
  destruct (decide (p = o)) as [->|Hp].
  - rewrite lookup_alter_eq, Ho. simpl. destruct (decide (q = off)) as [->|Hq].
    + rewrite decide_True by done. by rewrite lookup_insert_eq.
    + rewrite decide_False by tauto. by rewrite lookup_insert_ne.
  - rewrite lookup_alter_ne by done. by rewrite decide_False by tauto.
Qed.

Lemma isa_with_slot w o off v p : o_isa <$> heap (with_slot w o off v) !! p = o_isa <$> heap w !! p.
Proof.
  unfold with_slot. simpl. destruct (decide (o = p)) as [->|]; [|by rewrite lookup_alter_ne].
  rewrite lookup_alter_eq. by destruct (heap w !! p).
Qed.

(** Allocation gives a new object with no fields. *)
Lemma malloc_at isa w : exists o w', malloc isa w = Ret (VObj o, w') /\ ~ allocated w o /\ allocated w' o /\
  (forall p, p <> o -> heap w' !! p = heap w !! p) /\ (forall q, slot_at w' o q = nil) /\
  associations w' = associations w /\ events w' = events w /\ caches w' = caches w.
Proof.
  set (o := fresh (dom (heap w))). assert (Ho : heap w !! o = None) by apply not_elem_of_dom, is_fresh.
  eexists o, _. split_and!; [reflexivity|..|done|done|done].
  - intros [ob Hob]. congruence.
  - unfold allocated. simpl. rewrite lookup_insert_eq. eauto.
  - intros p Hp. simpl. by rewrite lookup_insert_ne.
  - intros q. unfold slot_at, slots_at. simpl. rewrite lookup_insert_eq. simpl. by rewrite lookup_empty.
Qed.

Lemma slot_at_heap w w' o q : heap w' !! o = heap w !! o -> slot_at w' o q = slot_at w o q.
Proof. intros He. unfold slot_at, slots_at. by rewrite He. Qed.

(** A copy of fields. *)
Lemma move_fields_at dst src lo hi w : allocated w dst -> allocated w src ->
  exists w', move_fields (VObj dst) (VObj src) lo hi w = Ret (tt, w') /\
    (forall p, allocated w' p <-> allocated w p) /\
    (forall p, p <> dst -> heap w' !! p = heap w !! p) /\
    (forall q, lo <= q < hi -> slot_at w' dst q = slot_at w src q) /\
    (forall q, ~ (lo <= q < hi) -> slot_at w' dst q = slot_at w dst q) /\
    associations w' = associations w /\ events w' = events w /\ caches w' = caches w.
Proof.
  intros [od Hd] [os Hs]. eexists. unfold move_fields. rewrite Hd, Hs. split_and!; [reflexivity|..|done|done|done]; simpl.
  - intros p. unfold allocated. simpl. destruct (decide (p = dst)) as [->|].
    + rewrite lookup_insert_eq, Hd. split; eauto.
    + by rewrite lookup_insert_ne.
  - intros p Hp. by rewrite lookup_insert_ne.
  - intros q Hq. unfold slot_at, slots_at. simpl. rewrite lookup_insert_eq, Hs. simpl.
    rewrite lookup_union, !map_lookup_filter. simpl.
    destruct (o_slots os !! q) as [v|]; simpl.
    + rewrite option_guard_True by lia. simpl. by destruct (_ ≫= _).
    + destruct (o_slots od !! q) as [v|]; simpl; [|done]. by rewrite option_guard_False by lia.
  - intros q Hq. unfold slot_at, slots_at. simpl. rewrite lookup_insert_eq, Hd. simpl.
    rewrite lookup_union, !map_lookup_filter. simpl.
    destruct (o_slots os !! q) as [u|]; simpl; [rewrite option_guard_False by lia; simpl|];
      (destruct (o_slots od !! q) as [v|]; simpl; [by rewrite option_guard_True by lia|done]).
Qed.

Lemma obnd_Ret {A B} (c : OM A) (k : A -> OM B) w a w' : c w = Ret (a, w') -> obnd c k w = k a w'.
Proof. intros He. unfold obnd. by rewrite He. Qed.

(** ** Sharing a __block variable *)

(** The state around memory: everything that is not objects. *)
Definition same_rest (w w' : world) : Prop :=
  associations w' = associations w /\ events w' = events w /\ caches w' = caches w.

#[export] Instance same_rest_preorder : PreOrder same_rest.
Proof.
  split; [done|]. intros w1 w2 w3 (H1 & H2 & H3) (H4 & H5 & H6). split_and!; by etrans.
Qed.

(** [p->__forwarding->x], read and written. *)
Definition variable_get (p : val) (off : Z) : OM val :=
  let* f := load_slot p off_forwarding in load_slot f off.
Definition variable_set (p : val) (off : Z) (v : val) : OM unit :=
  let* f := load_slot p off_forwarding in store_slot f off v.

(** The structure at [p] forwards to [c], which is where the variable lives. *)
Definition byref_at (w : world) (p c : positive) : Prop :=
  allocated w p /\ allocated w c /\ slot_at w p off_forwarding = VObj c /\ slot_at w c off_forwarding = VObj c.

Lemma variable_get_at w p c off : byref_at w p c -> variable_get (VObj p) off w = Ret (slot_at w c off, w).
Proof.
  intros (Hp & Hc & Hf & _). unfold variable_get, obnd. rewrite load_slot_at by done. rewrite Hf. by rewrite load_slot_at.
Qed.

Lemma variable_set_at w p c off v : byref_at w p c -> variable_set (VObj p) off v w = Ret (tt, with_slot w c off v).
Proof.
  intros (Hp & Hc & Hf & _). unfold variable_set, obnd. rewrite load_slot_at by done. rewrite Hf. by rewrite store_slot_at.
Qed.

(** Whoever forwards to the same place sees the same variable. *)
Lemma byref_shared w p p' c off v : byref_at w p c -> byref_at w p' c -> off <> off_forwarding ->
  exists w', variable_set (VObj p) off v w = Ret (tt, w') /\ variable_get (VObj p') off w' = Ret (v, w') /\
    byref_at w' p c /\ byref_at w' p' c.
Proof.
  intros Hp Hp' Hoff. exists (with_slot w c off v). rewrite (variable_set_at w p c) by done.
  assert (Hk : forall q, byref_at w q c -> byref_at (with_slot w c off v) q c).
  { intros q (H1 & H2 & H3 & H4). unfold byref_at. rewrite !allocated_with_slot.
    rewrite !slot_with_slot by done. rewrite !decide_False by (intros [_ ?]; congruence). done. }
  split_and!; [done|..|by apply Hk|by apply Hk].
  rewrite (variable_get_at _ p' c) by by apply Hk. pose proof Hp as (_ & Hc & _).
  rewrite slot_with_slot by done. by rewrite decide_True.
Qed.

(** The count after the first copy: one for the copied block, one for the stack. *)
Lemma initial_refcount f : refcount f = 0 -> refcount (Z.lor f _Byref_flag_initial_value) = 2.
Proof.
  unfold refcount. replace 2 with (2 ^ 1) at 1 3 by done.
  rewrite <- !Z.shiftr_div_pow2, <- !Z.land_ones by lia. rewrite Z.shiftr_lor, Z.land_lor_distr_l.
  intros ->. reflexivity.
Qed.

Section Byref.
Context (byref_helper : string -> option (list val -> OM unit)).

Local Abbreviation assign := (_Block_byref_assign_copy byref_helper).

(** What a step leaves alone, given the fields it may write. *)
Definition frame (w w' : world) (may : positive -> Z -> Prop) : Prop :=
  (forall o q, ~ may o q -> slot_at w' o q = slot_at w o q) /\
  (forall o, allocated w o -> allocated w' o) /\ same_rest w w'.

Lemma frame_trans w1 w2 w3 may1 may2 may : frame w1 w2 may1 -> frame w2 w3 may2 ->
  (forall o q, may1 o q -> may o q) -> (forall o q, may2 o q -> may o q) -> frame w1 w3 may.
Proof.
  intros (H1 & H2 & H3) (H4 & H5 & H6) Hm1 Hm2. split_and!; [|auto|by etrans].
  intros o q Hn. rewrite H4 by auto. apply H1. auto.
Qed.

Lemma frame_store w o off v : allocated w o ->
  frame w (with_slot w o off v) (fun p q => p = o /\ q = off).
Proof.
  intros Ho. split_and!; [|intros p; by rewrite allocated_with_slot|done].
  intros p q Hn. rewrite slot_with_slot by done. by rewrite decide_False.
Qed.

(** The first copy moves the variable to the heap and leaves a forwarding pointer. *)
Lemma copy_stack_byref_spec p f size w :
  allocated w p -> slot_at w p off_byref_flags = VInt f -> slot_at w p off_byref_size = VInt size ->
  flag f BLOCK_BYREF_HAS_COPY_DISPOSE = false ->
  exists c w', copy_stack_byref byref_helper (VObj p) BLOCK_FIELD_IS_BYREF w = Ret (tt, w') /\
    ~ allocated w c /\ byref_at w' p c /\ byref_at w' c c /\
    slot_at w' c off_byref_flags = VInt (Z.lor f _Byref_flag_initial_value) /\ slot_at w' c off_byref_size = VInt size /\
    (forall q, sizeof_byref <= q < size -> slot_at w' c q = slot_at w p q) /\
    frame w w' (fun o q => o = c \/ (o = p /\ q = off_forwarding)).
Proof.
  intros Hp Hfl Hsz Hcd. unfold copy_stack_byref.
  rewrite (obnd_Ret _ _ _ _ _ (load_int_at w p _ size Hp Hsz)), (obnd_Ret _ _ _ _ _ (load_int_at w p _ f Hp Hfl)).
  destruct (malloc_at "" w) as (c & w1 & Hm & Hnc & Hc1 & Hh1 & Hs1 & Hrest1).
  assert (Hcp : c <> p) by (intros ->; done).
  assert (Hp1 : allocated w1 p) by (unfold allocated; rewrite Hh1 by done; done).
  rewrite (obnd_Ret _ _ _ _ _ Hm), (obnd_Ret _ _ _ _ _ (store_slot_at w1 c _ _ Hc1)).
  set (w2 := with_slot w1 c _ _). assert (Hc2 : allocated w2 c) by by apply allocated_with_slot.
  rewrite (obnd_Ret _ _ _ _ _ (store_slot_at w2 c _ _ Hc2)). set (w3 := with_slot w2 c _ _).
  assert (Hp3 : allocated w3 p) by by do 2 apply allocated_with_slot.
  rewrite (obnd_Ret _ _ _ _ _ (store_slot_at w3 p _ _ Hp3)). set (w4 := with_slot w3 p _ _).
  assert (Hc4 : allocated w4 c) by by do 2 apply allocated_with_slot.
  rewrite (obnd_Ret _ _ _ _ _ (store_slot_at w4 c _ _ Hc4)). set (w5 := with_slot w4 c _ _).
  change (Z.land BLOCK_FIELD_IS_BYREF (Z.lor BLOCK_FIELD_IS_BYREF BLOCK_FIELD_IS_WEAK)
    =? Z.lor BLOCK_FIELD_IS_BYREF BLOCK_FIELD_IS_WEAK) with false. cbv iota.
  rewrite (obnd_Ret (oret tt) _ w5 tt w5 eq_refl), Hcd.
  destruct (move_fields_at c p sizeof_byref size w5) as (w6 & Hmv & Hal & Hoth & Hin & Hout & Hrest6);
    [by apply allocated_with_slot|by do 2 apply allocated_with_slot|].
  assert (Hslot : forall o q, slot_at w5 o q =
    if decide (o = c /\ q = off_byref_size) then VInt size else
    if decide (o = p /\ q = off_forwarding) then VObj c else
    if decide (o = c /\ q = off_forwarding) then VObj c else
    if decide (o = c /\ q = off_byref_flags) then VInt (Z.lor f _Byref_flag_initial_value) else slot_at w1 o q).
  { intros o q. unfold w5. rewrite slot_with_slot by done. unfold w4. rewrite slot_with_slot by done.
    unfold w3. rewrite slot_with_slot by done. unfold w2. by rewrite slot_with_slot. }
  assert (Halc : forall o, allocated w1 o -> allocated w6 o).
  { intros o Ho. apply Hal. by do 4 apply allocated_with_slot. }
  assert (Hc6 : forall q, q < sizeof_byref -> slot_at w6 c q = slot_at w5 c q)
    by (intros q Hq; apply Hout; lia).
  assert (Hp6 : forall o q, o <> c -> slot_at w6 o q = slot_at w5 o q)
    by (intros o q Ho; apply slot_at_heap, Hoth, Ho).
  assert (Hfc : slot_at w6 c off_forwarding = VObj c) by (rewrite Hc6, Hslot by done; rewrite !decide_False by (intros [? ?]; done); by rewrite decide_True).
  assert (Hfp : slot_at w6 p off_forwarding = VObj c).
  { rewrite Hp6, Hslot by done. rewrite decide_False by (intros [? _]; done). by rewrite decide_True. }
  exists c, w6. split_and!; [exact Hmv|exact Hnc|..].
  - split_and!; [by apply Halc|by apply Halc|done|done].
  - split_and!; [by apply Halc|by apply Halc|done|done].
  - rewrite Hc6, Hslot by done. rewrite !decide_False by (intros [? ?]; done). by rewrite decide_True.
  - rewrite Hc6, Hslot by done. by rewrite decide_True.
  - intros q Hq. rewrite Hin by done. rewrite Hslot. unfold off_byref_size, off_forwarding, off_byref_flags, sizeof_byref in *.
    rewrite !decide_False by (intros [? ?]; lia || done). apply slot_at_heap. by apply Hh1.
  - split_and!; [|intros o Ho; apply Halc; unfold allocated; rewrite Hh1; [done|by intros ->]
                |etrans; [exact Hrest1|exact Hrest6]].
    intros o q Hn. apply Decidable.not_or in Hn as [Hn1 Hn2]. rewrite Hp6, Hslot by done.
    rewrite !decide_False by tauto. apply slot_at_heap. by apply Hh1.
Qed.

(** A well-formed __block variable without helpers, reached through [p] and living
    at [c]: either still on the stack, not counted, or on the heap, counted. *)
Record byref_ok (w : world) (p c : positive) (f size : Z) : Prop := mk_byref_ok {
  bo_at : byref_at w p c;
  bo_flags : slot_at w c off_byref_flags = VInt f;
  bo_size : slot_at w c off_byref_size = VInt size;
  bo_range : flags_ok f;
  bo_nogc : flag f BLOCK_BYREF_IS_GC = false;
  bo_nohelper : flag f BLOCK_BYREF_HAS_COPY_DISPOSE = false;
  bo_stack : refcount f = 0 -> c = p;
  bo_heap : refcount f <> 0 -> flag f BLOCK_BYREF_NEEDS_FREE = true }.

(** The count after one more block captured the variable. *)
Definition captured_count (n : Z) : Z := if n =? 0 then 2 else Z.min (n + 1) (2 ^ 15 - 1).

Lemma byref_ok_frame w w' p c f size may : byref_ok w p c f size -> frame w w' may ->
  ~ may p off_forwarding -> ~ may c off_forwarding -> ~ may c off_byref_flags -> ~ may c off_byref_size ->
  byref_ok w' p c f size.
Proof.
  intros [(H1 & H2 & H3 & H4) H5 H6 H7 H8 H9 H10 H11] (Hs & Ha & _) Hm1 Hm2 Hm3 Hm4.
  constructor; try done; rewrite ?Hs by done; [|done|done].
  unfold byref_at. rewrite !Hs by done. split_and!; auto.
Qed.

Lemma byref_copy_ok f : flags_ok f -> refcount f = 0 ->
  flag f BLOCK_BYREF_IS_GC = false -> flag f BLOCK_BYREF_HAS_COPY_DISPOSE = false ->
  let f' := Z.lor f _Byref_flag_initial_value in
  flags_ok f' /\ refcount f' = 2 /\ flag f' BLOCK_BYREF_IS_GC = false /\
  flag f' BLOCK_BYREF_HAS_COPY_DISPOSE = false /\ flag f' BLOCK_BYREF_NEEDS_FREE = true.
Proof.
  intros Hf Hrc Hg Hh. simpl. rewrite !flag_lor, Hg, Hh, initial_refcount by done.
  split_and!; [|done|done|done|].
  - apply flags_ok_lor; [done|]. split; vm_compute; congruence.
  - apply orb_true_iff. right. reflexivity.
Qed.

(** What capturing a variable establishes; see the theorem below. *)
Definition captured (d : positive) (off : Z) (p c : positive) (f size : Z) (w : world) : Prop :=
  exists c' f' w', _Block_byref_assign_copy byref_helper (VObj d) off (VObj p) BLOCK_FIELD_IS_BYREF w = Ret (tt, w') /\
    slot_at w' d off = VObj c' /\
    byref_ok w' p c' f' size /\ byref_ok w' c' c' f' size /\
    refcount f' = captured_count (refcount f) /\
    (forall q, sizeof_byref <= q < size -> slot_at w' c' q = slot_at w c q) /\
    (if refcount f =? 0 then ~ allocated w c' else c' = c) /\
    frame w w' (fun o q => (o = c' /\ (q = off_byref_flags \/ ~ allocated w c')) \/
                           (o = p /\ q = off_forwarding) \/ (o = d /\ q = off)).

Lemma byref_assign_first d off p c f size w :
  allocated w d -> d <> p -> d <> c -> byref_ok w p c f size -> refcount f = 0 -> captured d off p c f size w.
Proof.
  intros Hd Hdp Hdc [Hat Hfl Hsz Hf Hg Hh Hst Hhp] E. pose proof Hat as (Hp & Hc & Hfp & Hfc).
  unfold captured, _Block_byref_assign_copy.
  rewrite (obnd_Ret _ _ _ _ _ (load_slot_at w p off_forwarding Hp)), Hfp.
  rewrite (obnd_Ret _ _ _ _ _ (load_int_at w c _ f Hc Hfl)), Hg, land_mask by apply Hf.
  unfold captured_count.
  rewrite E. pose proof (Hst E) as ->. cbn [Z.mul Z.eqb].
  destruct (copy_stack_byref_spec p f size w Hp Hfl Hsz Hh) as (c' & w1 & Hrun & Hnc & Hpc & Hcc & Hfl1 & Hsz1 & Hval & Hfr).
  destruct (byref_copy_ok f Hf E Hg Hh) as (Hf1 & Hr1 & Hg1 & Hh1 & Hn1).
  rewrite (obnd_Ret _ _ _ _ _ Hrun). pose proof Hpc as (Hp1 & Hc1 & Hfp1 & _).
  rewrite (obnd_Ret _ _ _ _ _ (load_slot_at w1 p off_forwarding Hp1)), Hfp1.
  assert (Hd1 : allocated w1 d) by by apply Hfr. assert (Hdc' : d <> c') by by intros ->.
  rewrite (store_slot_at w1 d off _ Hd1). pose proof (frame_store w1 d off (VObj c') Hd1) as Hfr2.
  set (w2 := with_slot w1 d off (VObj c')) in *.
  assert (Hok : forall q, byref_at w1 q c' -> q <> d -> byref_ok w2 q c' (Z.lor f _Byref_flag_initial_value) size).
  { intros q Hq Hqd. apply (byref_ok_frame w1 w2 q c' _ _ _) with (2 := Hfr2); [|intros [? ?]; congruence..].
    constructor; try done. rewrite Hr1. lia. }
  exists c', (Z.lor f _Byref_flag_initial_value), w2. split_and!; [done|..].
  + unfold w2. rewrite slot_with_slot by done. by rewrite decide_True.
  + apply Hok; [exact Hpc|congruence].
  + apply Hok; [exact Hcc|congruence].
  + exact Hr1.
  + intros q Hq. destruct Hfr2 as (Hs2 & _). rewrite Hs2 by (intros [? ?]; congruence). by apply Hval.
  + exact Hnc.
  + apply (frame_trans _ _ _ _ _ _ Hfr Hfr2); [|tauto]. intros o q [->|?]; tauto.
Qed.

Lemma byref_assign_again d off p c f size w :
  allocated w d -> d <> p -> d <> c -> byref_ok w p c f size -> refcount f <> 0 -> captured d off p c f size w.
Proof.
  intros Hd Hdp Hdc [Hat Hfl Hsz Hf Hg Hh Hst Hhp] E. pose proof Hat as (Hp & Hc & Hfp & Hfc).
  unfold captured, _Block_byref_assign_copy.
  rewrite (obnd_Ret _ _ _ _ _ (load_slot_at w p off_forwarding Hp)), Hfp.
  rewrite (obnd_Ret _ _ _ _ _ (load_int_at w c _ f Hc Hfl)), Hg, land_mask by apply Hf.
  unfold captured_count.
  rewrite (Hhp E). destruct (refcount f =? 0) eqn:E1; zbool; [done|].
  destruct (2 * refcount f =? 0) eqn:E2; zbool; [lia|].
  destruct (latching_incr_spec f Hf) as (Hf1 & Hk1 & _ & Hr1). set (f1 := (latching_incr_int f).1) in *.
  rewrite (obnd_Ret _ _ _ _ _ (store_slot_at w c off_byref_flags (VInt f1) Hc)).
  pose proof (frame_store w c off_byref_flags (VInt f1) Hc) as Hfr1. set (w1 := with_slot w c _ _) in *.
  assert (Hp1 : allocated w1 p) by by apply Hfr1. assert (Hd1 : allocated w1 d) by by apply Hfr1.
  rewrite (obnd_Ret _ _ _ _ _ (load_slot_at w1 p off_forwarding Hp1)).
  assert (Hs1 : forall o q, q <> off_byref_flags -> slot_at w1 o q = slot_at w o q)
    by (intros o q Hq; apply Hfr1; intros [_ ?]; done).
  rewrite Hs1, Hfp by done. rewrite (store_slot_at w1 d off _ Hd1).
  pose proof (frame_store w1 d off (VObj c) Hd1) as Hfr2. set (w2 := with_slot w1 d off (VObj c)) in *.
  pose proof (refcount_range f) as Hrr.
  assert (Hok : forall q, byref_at w q c -> q <> d -> (f1 = f1 -> True) -> byref_ok w2 q c f1 size).
  { intros q (Hq1 & Hq2 & Hq3 & Hq4) Hqd _.
    apply (byref_ok_frame w1 w2 q c _ _ _) with (2 := Hfr2); [|intros [? ?]; congruence..].
    constructor; [|..|rewrite Hr1; lia|].
    - unfold byref_at. rewrite !Hs1 by done. split_and!; try done; by apply Hfr1.
    - unfold w1. rewrite slot_with_slot by done. by rewrite decide_True.
    - by rewrite Hs1.
    - done.
    - rewrite <- Hg. apply (same_kind_flag f f1 27 Hk1). lia.
    - rewrite <- Hh. apply (same_kind_flag f f1 25 Hk1). lia.
    - intros _. rewrite <- (Hhp E). apply (same_kind_flag f f1 24 Hk1). lia. }
  exists c, f1, w2. split_and!; [done|..].
  + unfold w2. rewrite slot_with_slot by done. by rewrite decide_True.
  + apply Hok; [exact Hat|congruence|done].
  + apply Hok; [done|congruence|done].
  + exact Hr1.
  + intros q Hq. destruct Hfr2 as (Hs2 & _). rewrite Hs2 by (intros [? ?]; congruence). apply Hs1.
    unfold sizeof_byref, off_byref_flags in *. lia.
  + done.
  + apply (frame_trans _ _ _ _ _ _ Hfr1 Hfr2); tauto.
Qed.

(** Capturing a __block variable ([_Block_byref_assign_copy]): the field of the new block, the
    stack structure and the heap structure all lead to one place, which holds the value the variable
    had; a variable that was on the stack moves to the heap with a count of two (the block and the
    stack frame), one that was there already is counted once more (latching at the maximum); no other
    memory changes. *)
Theorem byref_assign_shares (d : positive) (off : Z) (p c : positive) (f size : Z) (w : world) :
  allocated w d -> d <> p -> d <> c -> byref_ok w p c f size ->
  exists c' f' w', _Block_byref_assign_copy byref_helper (VObj d) off (VObj p) BLOCK_FIELD_IS_BYREF w = Ret (tt, w') /\
    slot_at w' d off = VObj c' /\
    byref_ok w' p c' f' size /\ byref_ok w' c' c' f' size /\
    refcount f' = captured_count (refcount f) /\
    (forall q, sizeof_byref <= q < size -> slot_at w' c' q = slot_at w c q) /\
    (if refcount f =? 0 then ~ allocated w c' else c' = c) /\
    frame w w' (fun o q => (o = c' /\ (q = off_byref_flags \/ ~ allocated w c')) \/
                           (o = p /\ q = off_forwarding) \/ (o = d /\ q = off)).
Proof.
  intros Hd Hdp Hdc Hok. destruct (decide (refcount f = 0)) as [E|E].
  - exact (byref_assign_first d off p c f size w Hd Hdp Hdc Hok E).
  - exact (byref_assign_again d off p c f size w Hd Hdp Hdc Hok E).
Qed.
End Byref.

(** ** Copying and releasing a block that is on the heap *)

Section HeapBlocks.
Context (descriptors : string -> option Block_descriptor)
        (byref_helper : string -> option (list val -> OM unit))
        (retain release destruct_instance : val -> OM unit).

Local Abbreviation block_copy := (_Block_copy descriptors byref_helper retain).
Local Abbreviation block_release := (_Block_release descriptors byref_helper release destruct_instance).

(** A block on the heap with its flags. *)
Record heap_block (w : world) (b : positive) (f : Z) : Prop := mk_heap_block {
  hb_alloc : allocated w b;
  hb_flags : slot_at w b off_flags = VInt f;
  hb_range : flags_ok f;
  hb_free : flag f BLOCK_NEEDS_FREE = true;
  hb_nogc : flag f BLOCK_IS_GC = false;
  hb_noglobal : flag f BLOCK_IS_GLOBAL = false }.









(** The last release of a block without helpers frees it: its memory is gone and nothing else
    changes but what destroying the instance does. *)
Theorem last_release_frees (k : nat) (b : positive) (f : Z) (w : world) :
  heap_block w b f -> refcount f = 1 -> f mod 2 = 0 -> flag f BLOCK_HAS_COPY_DISPOSE = false ->
  (forall w1, allocated w1 b -> destruct_instance (VObj b) w1 = Ret (tt, w1)) ->
  exists w2, block_release (S k) (VObj b) w = Ret (tt, w2) /\ ~ allocated w2 b /\ same_rest w w2 /\
    forall o, o <> b -> heap w2 !! o = heap w !! o.
Proof.
  intros [H1 H2 H3 H4 H5 H6] Hr Hm Hcd Hdi. cbn [_Block_release]. rewrite decide_False by done.
  rewrite (obnd_Ret _ _ _ _ _ (load_int_at w b _ f H1 H2)), H6, H5.
  assert (Hgf : (Z.land f (Z.lor BLOCK_IS_GC BLOCK_NEEDS_FREE) =? 0) = false).
  { apply Z.eqb_neq. intros E. rewrite Z.land_lor_distr_r in E. apply Z.lor_eq_0_iff in E as [_ E].
    unfold flag in H4. by rewrite E in H4. }
  rewrite Hgf. pose proof (latching_decr_spec f H3) as Hd.
  destruct (latching_decr_int_should_deallocate f) as [f' dealloc]. destruct Hd as (Hf' & Hk & _ & Hd).
  destruct Hd as (_ & Hde & _); [lia|]. rewrite Hr, Hm in Hde. simpl in Hde. subst dealloc.
  rewrite (obnd_Ret _ _ _ _ _ (store_slot_at w b _ _ H1)). set (w1 := with_slot w b _ _).
  assert (Hcd' : flag f' BLOCK_HAS_COPY_DISPOSE = false) by (rewrite <- Hcd; apply (same_kind_flag f f' 25 Hk); lia).
  rewrite Hcd', (obnd_Ret (oret tt) _ w1 tt w1 eq_refl).
  assert (Hb1 : allocated w1 b) by by apply allocated_with_slot.
  rewrite (obnd_Ret _ _ _ _ _ (Hdi w1 Hb1)). destruct Hb1 as [ob Hob]. unfold free. rewrite Hob.
  eexists. split; [reflexivity|]. split; [|split].
  - intros [x Hx]. simpl in Hx. by rewrite lookup_delete_eq in Hx.
  - repeat split.
  - intros o Ho. simpl. rewrite lookup_delete_ne by done. unfold w1, with_slot. simpl. by rewrite lookup_alter_ne.
Qed.

End HeapBlocks.
