(* ===== verification/BlockMethodsSpec.v ===== *)
(** * What the block methods do

    The methods of the block files run on the program's runtime and on the blocks
    runtime: __block variables are shared with the blocks that capture them,
    before and after a copy, and blocks that the lowered code calls as functions
    are faults. *)

From Stdlib Require Import ZArith Lia Bool String.
From stdpp Require Import base list gmap strings.
From S2P Require Import Prelude ObjCData ObjCImages ObjCImagesSpec IvarLayout MethodList ObjCRuntime MethodCache LoweredMethods LongestSubstring BlocksRuntime LoweredBlocks ProgramRuntime LoweredSpec MessageSpec BlocksSpec.

Local Open Scope string_scope.
Local Open Scope Z_scope.
Local Open Scope list_scope.
Local Open Scope objc_scope.

(** ** Steps on memory *)

(** Memory with one object set, and with one freed. *)
Definition put (w : world) (o : positive) (ob : obj) : world :=
  mk_world (<[o := ob]> (heap w)) (associations w) (events w) (caches w).
Definition drop_obj (w : world) (o : positive) : world :=
  mk_world (delete o (heap w)) (associations w) (events w) (caches w).
Definition logged (w : world) (e : event) : world :=
  mk_world (heap w) (associations w) (e :: events w) (caches w).

Lemma put_put w o x y : put (put w o x) o y = put w o y.
Proof. unfold put. simpl. by rewrite insert_insert_eq. Qed.

Lemma put_lookup w o ob : heap (put w o ob) !! o = Some ob.
Proof. simpl. by rewrite lookup_insert_eq. Qed.

Lemma put_other w o ob p : p <> o -> heap (put w o ob) !! p = heap w !! p.
Proof. intros Hne. simpl. by rewrite lookup_insert_ne. Qed.

Lemma malloc_step isa w : exists o, heap w !! o = None /\ malloc isa w = Ret (VObj o, put w o (mk_obj isa ∅)).
Proof. exists (fresh (dom (heap w))). split; [apply not_elem_of_dom, is_fresh|reflexivity]. Qed.

Lemma load_step w o ob off : heap w !! o = Some ob ->
  load_slot (VObj o) off w = Ret (default nil (o_slots ob !! off), w).
Proof. intros H. simpl. by rewrite H. Qed.

Lemma store_step w o ob off v : heap w !! o = Some ob ->
  store_slot (VObj o) off v w = Ret (tt, put w o (mk_obj (o_isa ob) (<[off := v]> (o_slots ob)))).
Proof. intros H. simpl. by rewrite H. Qed.

Lemma free_step w o ob : heap w !! o = Some ob -> free (VObj o) w = Ret (tt, drop_obj w o).
Proof. intros H. simpl. by rewrite H. Qed.

(** ** Structures *)

(** The structure of a __block variable [x] of type int at [a], which forwards to [f]. *)
Definition byref_obj (f : positive) (flags v : Z) : obj :=
  mk_obj "" (<[24 := VInt v]> (<[20 := VInt 32]> (<[16 := VInt flags]> (<[8 := VObj f]> ∅)))).

Record byref_layout (s : c_struct) (x : string) : Prop := mk_layout {
  bl_forwarding : OFFSETOFIVAR s "__forwarding" = 8;
  bl_flags : OFFSETOFIVAR s "__flags" = 16;
  bl_size : OFFSETOFIVAR s "__size" = 20;
  bl_var : OFFSETOFIVAR s x = 24;
  bl_sizeof : sizeof_struct s = 32 }.

Ltac layout := constructor; vm_compute; reflexivity.

Lemma byref_init_step s x v w : byref_layout s x ->
  exists a, heap w !! a = None /\ byref_init s x v w = Ret (VObj a, put w a (byref_obj a 0 v)).
Proof.
  intros [H1 H2 H3 H4 H5]. destruct (malloc_step "" w) as (a & Ha & Hm). exists a. split; [done|].
  unfold byref_init. rewrite H1, H2, H3, H4, H5. rewrite (obnd_Ret _ _ _ _ _ Hm).
  rewrite (obnd_Ret _ _ _ _ _ (store_step _ _ _ _ _ (put_lookup _ _ _))), put_put.
  rewrite (obnd_Ret _ _ _ _ _ (store_step _ _ _ _ _ (put_lookup _ _ _))), put_put.
  rewrite (obnd_Ret _ _ _ _ _ (store_step _ _ _ _ _ (put_lookup _ _ _))), put_put.
  by rewrite (obnd_Ret _ _ _ _ _ (store_step _ _ _ _ _ (put_lookup _ _ _))), put_put.
Qed.

(** A step of a sequence. *)
Tactic Notation "ostep" uconstr(H) := rewrite (obnd_Ret _ _ _ _ _ H).

(** The variable is what the structure it forwards to holds. *)
Section ByrefSteps.
Context (s : c_struct) (x : string) (Hl : byref_layout s x).
Context (w : world) (a f : positive) (fl fl' v v' : Z).
Context (Ha : heap w !! a = Some (byref_obj f fl v)) (Hf : heap w !! f = Some (byref_obj f fl' v')).

Lemma byref_forward : load_slot (VObj a) 8 w = Ret (VObj f, w).
Proof. by rewrite (load_step _ _ _ _ Ha). Qed.

Lemma byref_get_step : byref_get s x (VObj a) w = Ret (v', w).
Proof.
  unfold byref_get. destruct Hl as [-> _ _ -> _]. ostep byref_forward. unfold load_int.
  by ostep (load_step _ _ _ 24 Hf).
Qed.

Lemma byref_addr_step : byref_addr s x (VObj a) w = Ret (VAddr f 24, w).
Proof. unfold byref_addr. destruct Hl as [-> _ _ -> _]. by ostep byref_forward. Qed.

Lemma byref_set_step u : byref_set s x (VObj a) u w = Ret (tt, put w f (byref_obj f fl' u)).
Proof.
  unfold byref_set. destruct Hl as [-> _ _ -> _]. ostep byref_forward.
  rewrite (store_step _ _ _ _ _ Hf). unfold byref_obj. simpl. by rewrite insert_insert_eq.
Qed.
End ByrefSteps.

(** A block structure with its captured members. *)
Definition block_obj (isa : string) (flags : Z) (fp desc : string) (captured : gmap Z val) : obj :=
  mk_obj isa (<[24 := VStatic desc]> (<[16 := VStatic fp]> (<[8 := VInt flags]> captured))).

(** Reading the members of the two kinds of structure. *)
Lemma block_obj_members isa flags fp desc captured :
  o_slots (block_obj isa flags fp desc captured) !! off_flags = Some (VInt flags) /\
  o_slots (block_obj isa flags fp desc captured) !! off_invoke = Some (VStatic fp) /\
  o_slots (block_obj isa flags fp desc captured) !! off_descriptor = Some (VStatic desc).
Proof.
  unfold block_obj, off_flags, off_invoke, off_descriptor. cbn [o_slots]. split_and!.
  - by rewrite !lookup_insert_ne, lookup_insert_eq by lia.
  - by rewrite lookup_insert_ne, lookup_insert_eq by lia.
  - by rewrite lookup_insert_eq.
Qed.

Lemma byref_obj_members f flags v :
  o_slots (byref_obj f flags v) !! off_forwarding = Some (VObj f) /\
  o_slots (byref_obj f flags v) !! off_byref_flags = Some (VInt flags) /\
  o_slots (byref_obj f flags v) !! off_byref_size = Some (VInt 32).
Proof. by vm_compute. Qed.

Lemma load_some w o ob off v : heap w !! o = Some ob -> o_slots ob !! off = Some v -> load_slot (VObj o) off w = Ret (v, w).
Proof. intros Ho Hv. by rewrite (load_step _ _ _ off Ho), Hv. Qed.

(** A literal whose member initialisers store [captured]. *)
Lemma block_literal_step captures (captured : gmap Z val) fp desc flags w :
  (forall b, heap w !! b = None ->
     captures (VObj b) (put w b (mk_obj "_NSConcreteStackBlock" ∅))
     = Ret (tt, put w b (mk_obj "_NSConcreteStackBlock" captured))) ->
  exists b, heap w !! b = None /\
    block_impl_with captures fp desc flags w
    = Ret (VObj b, put w b (block_obj "_NSConcreteStackBlock" flags fp desc captured)).
Proof.
  intros Hc. destruct (malloc_step "_NSConcreteStackBlock" w) as (b & Hb & Hm). exists b. split; [done|].
  unfold block_impl_with. ostep Hm. ostep (Hc b Hb).
  replace (OFFSETOFIVAR __block_impl "Flags") with 8 by reflexivity.
  replace (OFFSETOFIVAR __block_impl "FuncPtr") with 16 by reflexivity.
  replace (OFFSETOFIVAR plain_block_impl "Desc") with 24 by reflexivity.
  ostep (store_step _ _ _ 8 (VInt flags) (put_lookup w b _)). rewrite put_put.
  ostep (store_step _ _ _ 16 (VStatic fp) (put_lookup w b _)). rewrite put_put.
  ostep (store_step _ _ _ 24 (VStatic desc) (put_lookup w b _)). by rewrite put_put.
Qed.

Lemma plain_literal_step fp desc flags w :
  exists b, heap w !! b = None /\
    block_impl_init fp desc flags w = Ret (VObj b, put w b (block_obj "_NSConcreteStackBlock" flags fp desc ∅)).
Proof. by apply block_literal_step. Qed.

(** A literal that captures one __block variable or one other value. *)
Lemma byref_literal_step s member bs x a fl v fp desc flags w :
  byref_layout bs x -> OFFSETOFIVAR s member = 32 -> heap w !! a = Some (byref_obj a fl v) ->
  exists b, heap w !! b = None /\
    block_impl_with (fun b => capture_byref b s member bs (VObj a)) fp desc flags w
    = Ret (VObj b, put w b (block_obj "_NSConcreteStackBlock" flags fp desc {[32 := VObj a]})).
Proof.
  intros Hl Hs Ha. apply block_literal_step. intros b Hb. unfold capture_byref.
  destruct Hl as [-> _ _ _ _]. rewrite Hs.
  assert (Hab : heap (put w b (mk_obj "_NSConcreteStackBlock" ∅)) !! a = Some (byref_obj a fl v)).
  { simpl. rewrite lookup_insert_ne; [done|]. intros ->. congruence. }
  ostep (load_step _ _ _ 8 Hab). rewrite (store_step _ _ _ _ _ (put_lookup w b _)), put_put. done.
Qed.

Lemma value_literal_step s member u fp desc flags w :
  OFFSETOFIVAR s member = 32 ->
  exists b, heap w !! b = None /\
    block_impl_with (fun b => capture b s member u) fp desc flags w
    = Ret (VObj b, put w b (block_obj "_NSConcreteStackBlock" flags fp desc {[32 := u]})).
Proof.
  intros Hs. apply block_literal_step. intros b Hb. unfold capture. rewrite Hs.
  by rewrite (store_step _ _ _ _ _ (put_lookup w b _)), put_put.
Qed.

(** A call of a block runs its function. *)
Lemma call_block_step OBJC_IVAR snd w b isa flags fp desc captured args g :
  heap w !! b = Some (block_obj isa flags fp desc captured) ->
  find_named (block_funcs OBJC_IVAR (call_address OBJC_IVAR snd)) fp = Some g ->
  call_block OBJC_IVAR snd (VObj b) args w = g snd (VObj b) args w.
Proof.
  intros Hb Hg. unfold call_block. replace (OFFSETOFIVAR __block_impl "FuncPtr") with 16 by reflexivity.
  assert (E : default nil (o_slots (block_obj isa flags fp desc captured) !! 16) = VStatic fp).
  { unfold block_obj. cbn [o_slots]. by rewrite lookup_insert_ne, lookup_insert_eq by lia. }
  ostep (load_step _ _ _ 16 Hb). by rewrite E, Hg.
Qed.

(** What a block structure holds at 32. *)
Lemma captured_step w b isa flags fp desc u rest :
  heap w !! b = Some (block_obj isa flags fp desc (<[32 := u]> rest)) ->
  load_slot (VObj b) 32 w = Ret (u, w).
Proof. intros Hb. rewrite (load_step _ _ _ 32 Hb). unfold block_obj. cbn [o_slots].
  by rewrite !(lookup_insert_ne _ _ 32), lookup_insert_eq by lia. Qed.

(** ** Copying a block that captures one __block variable *)

Lemma drop_put w b ob : heap w !! b = None -> drop_obj (put w b ob) b = w.
Proof. intros Hb. destruct w. unfold drop_obj. simpl in *. by rewrite delete_insert_id. Qed.

Lemma put_comm w o p x y : o <> p -> put (put w o x) p y = put (put w p y) o x.
Proof. intros Hne. unfold put. simpl. by rewrite insert_insert_ne. Qed.

Lemma set_isa_step w o ob isa : heap w !! o = Some ob -> set_isa_of (VObj o) isa w = Ret (tt, put w o (mk_obj isa (o_slots ob))).
Proof. intros H. simpl. by rewrite H. Qed.

Lemma move_step w d s od os lo hi : heap w !! d = Some od -> heap w !! s = Some os ->
  move_fields (VObj d) (VObj s) lo hi w
  = Ret (tt, put w d (mk_obj (o_isa od) (filter (fun p => lo <= p.1 < hi) (o_slots os) ∪
                                         filter (fun p => ~ (lo <= p.1 < hi)) (o_slots od)))).
Proof. intros Hd Hs. simpl. by rewrite Hd, Hs. Qed.

Lemma load_int_step w o ob off z : heap w !! o = Some ob -> o_slots ob !! off = Some (VInt z) ->
  load_int (VObj o) off w = Ret (z, w).
Proof. intros Ho Hs. unfold load_int. ostep (load_step _ _ _ off Ho). by rewrite Hs. Qed.

(** The flags of a copied block and of a copied variable. *)
Definition MALLOC_FLAGS : Z := 587202562.
Definition MALLOC_BYREF_FLAGS : Z := 16777220.

Lemma copy_stack_byref_step h w a v : heap w !! a = Some (byref_obj a 0 v) ->
  exists c, heap w !! c = None /\
    copy_stack_byref h (VObj a) 8 w
    = Ret (tt, put (put w a (byref_obj c 0 v)) c (byref_obj c MALLOC_BYREF_FLAGS v)).
Proof.
  intros Ha. destruct (malloc_step "" w) as (c & Hc & Hm). exists c. split; [done|].
  assert (Hca : c <> a) by congruence. unfold copy_stack_byref.
  ostep (load_int_step w a _ off_byref_size 32 Ha eq_refl). ostep (load_int_step w a _ off_byref_flags 0 Ha eq_refl).
  ostep Hm. ostep (store_step _ _ _ _ _ (put_lookup w c _)). rewrite put_put.
  ostep (store_step _ _ _ _ _ (put_lookup w c _)). rewrite put_put.
  assert (Ha' : forall x, heap (put w c x) !! a = Some (byref_obj a 0 v)) by (intros x; by rewrite put_other).
  ostep (store_step _ _ _ _ _ (Ha' _)). rewrite put_comm by done.
  ostep (store_step _ _ _ _ _ (put_lookup _ c _)). rewrite put_put.
  change (_ =? _) with false. cbv iota. rewrite (obnd_Ret (oret tt) _ _ tt _ eq_refl).
  change (flag 0 BLOCK_BYREF_HAS_COPY_DISPOSE) with false. cbv iota.
  rewrite (move_step _ _ _ _ (mk_obj "" (<[8 := VObj c]> (o_slots (byref_obj a 0 v)))) sizeof_byref 32 (put_lookup _ c _));
    [|rewrite put_other by congruence; apply put_lookup].
  rewrite put_put. reflexivity.
Qed.

(** A stack block that captures a __block variable of the stack: block and variable
    move to the heap, and the structure on the stack forwards to the copy. *)
Lemma copy_block_step h retain k w a b isa fp desc dispose v :
  heap w !! a = Some (byref_obj a 0 v) ->
  heap w !! b = Some (block_obj isa BLOCK_FLAGS fp desc {[32 := VObj a]}) ->
  descriptor_table desc = Some (mk_descriptor 40 [(32, 8)] dispose) ->
  exists b' c, heap w !! b' = None /\ heap w !! c = None /\ b' <> c /\
    _Block_copy descriptor_table h retain (S k) (VObj b) w
    = Ret (VObj b', put (put (put w a (byref_obj c 0 v)) c (byref_obj c MALLOC_BYREF_FLAGS v))
                        b' (block_obj "_NSConcreteMallocBlock" MALLOC_FLAGS fp desc {[32 := VObj c]})).
Proof.
  intros Ha Hb Hd. destruct (malloc_step "" w) as (b' & Hb' & Hm). exists b'.
  assert (Hne : b' <> b /\ b' <> a) by (split; congruence). destruct Hne as [Hbb Hba].
  assert (Hoth : forall x p, p <> b' -> heap (put w b' x) !! p = heap w !! p) by (intros; by apply put_other).
  unfold _Block_copy. cbn [_Block_copy_internal]. rewrite decide_False by discriminate.
  ostep (load_int_step w b _ off_flags BLOCK_FLAGS Hb (proj1 (block_obj_members _ _ _ _ _))).
  change (flag BLOCK_FLAGS BLOCK_NEEDS_FREE) with false. change (flag BLOCK_FLAGS BLOCK_IS_GC) with false.
  change (flag BLOCK_FLAGS BLOCK_IS_GLOBAL) with false. cbv iota.
  assert (Hdesc : descriptor_of descriptor_table (VObj b) w = Ret (mk_descriptor 40 [(32, 8)] dispose, w)).
  { unfold descriptor_of. 
    ostep (load_some _ _ _ off_descriptor _ Hb (proj2 (proj2 (block_obj_members _ _ _ _ _)))). by rewrite Hd. }
  ostep Hdesc. ostep Hm. cbn [desc_size desc_copy].
  assert (Hbp : heap (put w b' (mk_obj "" ∅)) !! b = heap w !! b) by (apply Hoth; congruence). rewrite Hb in Hbp.
  ostep (move_step _ _ _ _ _ 0 40 (put_lookup w b' _) Hbp). rewrite put_put.
  ostep (store_step _ _ _ _ _ (put_lookup w b' _)). rewrite put_put.
  ostep (set_isa_step _ _ _ _ (put_lookup w b' _)). rewrite put_put.
  change (flag _ BLOCK_HAS_COPY_DISPOSE) with true. cbv iota.
  match goal with |- context [put w b' ?X] => replace X with
    (block_obj "_NSConcreteMallocBlock" MALLOC_FLAGS fp desc {[32 := VObj a]}) by (vm_compute; reflexivity) end.
  set (w1 := put w b' _). assert (Ha1 : heap w1 !! a = Some (byref_obj a 0 v)) by (unfold w1; rewrite Hoth by congruence; done).
  destruct (copy_stack_byref_step h w1 a v Ha1) as (c & Hc & Hcopy).
  assert (Hcb : c <> b') by (intros ->; unfold w1 in Hc; by rewrite put_lookup in Hc).
  assert (Hca : c <> a) by congruence.
  assert (Hc0 : heap w !! c = None) by (rewrite <- Hc; symmetry; by apply Hoth).
  exists c. split_and!; [exact Hb'|exact Hc0|congruence|].
  assert (Hb1 : heap w1 !! b = Some (block_obj isa BLOCK_FLAGS fp desc {[32 := VObj a]}))
    by (unfold w1; rewrite Hoth by congruence; exact Hb).
  set (w2 := put (put w1 a (byref_obj c 0 v)) c (byref_obj c MALLOC_BYREF_FLAGS v)) in *.
  assert (Ha2 : heap w2 !! a = Some (byref_obj c 0 v)).
  { unfold w2. rewrite put_other by congruence. apply put_lookup. }
  assert (Hb2 : heap w2 !! b' = heap w1 !! b') by (unfold w2; rewrite !put_other by congruence; done).
  unfold w1 in Hb2. rewrite put_lookup in Hb2.
  rewrite (obnd_Ret _ _ w1 tt (put w2 b' (block_obj "_NSConcreteMallocBlock" MALLOC_FLAGS fp desc {[32 := VObj c]}))).
  - unfold oret. do 2 f_equal. unfold w2, w1. rewrite (put_comm w b' a), (put_comm _ b' c), put_put by congruence. reflexivity.
  - cbn [copy_helper]. ostep (captured_step _ _ _ _ _ _ _ _ Hb1). unfold _Block_object_assign_with.
    change (Z.land 8 BLOCK_ALL_COPY_DISPOSE_FLAGS) with 8. change (8 =? BLOCK_FIELD_IS_OBJECT) with false.
    change (8 =? BLOCK_FIELD_IS_BLOCK) with false. 
    change ((8 =? Z.lor BLOCK_FIELD_IS_BYREF BLOCK_FIELD_IS_WEAK) || (8 =? BLOCK_FIELD_IS_BYREF)) with true. cbv iota.
    rewrite (obnd_Ret _ _ w1 tt (put w2 b' (block_obj "_NSConcreteMallocBlock" MALLOC_FLAGS fp desc {[32 := VObj c]})));
      [reflexivity|].
    unfold _Block_byref_assign_copy. 
    ostep (load_some _ _ _ off_forwarding _ Ha1 (proj1 (byref_obj_members _ _ _))).
    ostep (load_int_step w1 a _ off_byref_flags 0 Ha1 (proj1 (proj2 (byref_obj_members _ _ _)))).
    change (flag 0 BLOCK_BYREF_IS_GC) with false. change (Z.land 0 BLOCK_REFCOUNT_MASK =? 0) with true. cbv iota.
    ostep Hcopy. ostep (load_some _ _ _ off_forwarding _ Ha2 (proj1 (byref_obj_members _ _ _))).
    by rewrite (store_step _ _ _ _ _ Hb2).
Qed.

(** ** The program *)

Section BlockMethods.
Context (F : framework) (catlist : list string) (fw_size : string -> Z) (P : platform).
Context (Hu : selectors_uniqued F) (Hp : catlist ≡ₚ program_catlist).

Local Abbreviation rt := (rt F catlist fw_size P).
Local Abbreviation ok := (ok F catlist).
Local Abbreviation ivar := (realized_ivar fw_size).

(** Boxing a number with [sel] makes [number z] and does nothing else to the program. *)
Definition boxes (sel : string) (number : Z -> val) : Prop :=
  forall snd z w, fw_call F snd (VClass "NSNumber") sel [VInt z] w = Ret (number z, w).

Section Boxed.
Context (number : Z -> val) (Hbox : boxes "numberWithInt:" number).

Lemma box_int k z w : numberWithInt (rt (S k)) z w = Ret (number z, w).
Proof. unfold numberWithInt. rewrite send_framework_class by lookup. apply Hbox. Qed.

(** Logging the address and the value of a __block variable. *)
Definition log_variable (s : c_struct) (x : string) (snd : senders) (fmt : string) (a : val) : OM unit :=
  let* p := byref_addr s x a in
  let* v := byref_get s x a in
  let* n := numberWithInt snd v in
  NSLog fmt [p; n].

Lemma log_variable_step s x k fmt w a f fl fl' v v' :
  byref_layout s x -> heap w !! a = Some (byref_obj f fl v) -> heap w !! f = Some (byref_obj f fl' v') ->
  log_variable s x (rt (S k)) fmt (VObj a) w = Ret (tt, logged w (E_log fmt [VAddr f 24; number v'])).
Proof.
  intros Hl Ha Hf. unfold log_variable. ostep (byref_addr_step s x Hl w a f fl v Ha). ostep (byref_get_step s x Hl w a f fl fl' v v' Ha Hf).
  by ostep (box_int k v' w).
Qed.

(** The heap after the two stack structures of a function are freed again. *)
Lemma frame_popped (h : gmap positive obj) (a b : positive) (x y z : obj) : h !! a = None -> b <> a -> h !! b = None ->
  delete a (delete b (<[a := z]> (<[b := y]> (<[a := x]> h)))) = h.
Proof.
  intros Ha Hb Hab. rewrite (insert_insert_ne _ a b) by done. rewrite insert_insert_eq.
  rewrite delete_insert_eq. rewrite (delete_insert_ne) by done. rewrite delete_insert_eq.
  rewrite (delete_id _ b) by done. by apply delete_id.
Qed.

(** What the two methods log: the variable is at one address all along. *)
Definition location_logs (labels : list string) (a : positive) : list event :=
  zip_with (fun l z => E_log l [VAddr a 24; number z]) labels [15; 15; 10; 10].

(** The common text of -[SKBlockVC blockLocation] and -[SKBlockLocationObj blockLocation]. *)
Definition location_func (s bs : c_struct) (l : string) (snd : senders) (cself : val) : OM val :=
  let* a := load_slot cself (OFFSETOFIVAR bs "a") in
  byref_set s "a" a 15 ;;
  let* p := byref_addr s "a" a in
  let* v := byref_get s "a" a in
  let* n := numberWithInt snd v in
  void (NSLog l [p; n]).

Definition location_method (s bs : c_struct) (fp desc l1 l2 l4 : string) (snd : senders) : OM val :=
  let* a := byref_init s "a" 10 in
  log_variable s "a" snd l1 a ;;
  let* blk := block_impl_with (fun b => capture_byref b bs "a" s a) fp desc BLOCK_FLAGS in
  log_variable s "a" snd l2 a ;;
  let* _ := call_block ivar snd blk [] in
  log_variable s "a" snd l4 a ;;
  void (pop [blk; a]).

Lemma location_func_step s bs k l w a b isa flags fp desc v : byref_layout s "a" -> OFFSETOFIVAR bs "a" = 32 ->
  heap w !! a = Some (byref_obj a 0 v) ->
  heap w !! b = Some (block_obj isa flags fp desc {[32 := VObj a]}) ->
  location_func s bs l (rt (S k)) (VObj b) w
  = Ret (nil, logged (put w a (byref_obj a 0 15)) (E_log l [VAddr a 24; number 15])).
Proof.
  intros Hl Hs Ha Hb. unfold location_func. rewrite Hs. ostep (captured_step _ _ _ _ _ _ _ _ Hb).
  ostep (byref_set_step s "a" Hl w a a 0 0 v v Ha Ha 15).
  ostep (byref_addr_step s "a" Hl _ a a _ _ (put_lookup w a _)).
  ostep (byref_get_step s "a" Hl _ a a _ _ _ _ (put_lookup w a _) (put_lookup w a _)). by ostep (box_int k 15 _).
Qed.

Lemma location_method_run s bs fp desc l1 l2 l3 l4 k w : byref_layout s "a" -> OFFSETOFIVAR bs "a" = 32 ->
  (forall snd, exists g, find_named (block_funcs ivar (call_address ivar snd)) fp = Some g /\
     forall b, g snd b [] = location_func s bs l3 snd b) ->
  exists a, heap w !! a = None /\
    location_method s bs fp desc l1 l2 l4 (rt (S k)) w
    = Ret (nil, mk_world (heap w) (associations w) (location_logs [l4; l3; l2; l1] a ++ events w) (caches w)).
Proof.
  intros Hl Hs Hg. unfold location_method.
  destruct (byref_init_step _ _ 10 w Hl) as (a & Ha & Hi). exists a. split; [exact Ha|]. ostep Hi.
  set (w1 := put w a (byref_obj a 0 10)). assert (Ha1 : heap w1 !! a = Some (byref_obj a 0 10)) by apply put_lookup.
  ostep (log_variable_step _ _ k _ w1 a a 0 0 10 10 Hl Ha1 Ha1). set (w2 := logged w1 _).
  destruct (byref_literal_step bs "a" s "a" a 0 10 fp desc BLOCK_FLAGS w2 Hl Hs Ha1) as (b & Hb & Hlit).
  assert (Hab : a <> b) by (intros ->; change (heap w2) with (heap w1) in Hb; congruence).
  ostep Hlit. set (w3 := put w2 b _).
  assert (Ha3 : heap w3 !! a = Some (byref_obj a 0 10)) by (unfold w3; by rewrite put_other).
  ostep (log_variable_step _ _ k _ w3 a a 0 0 10 10 Hl Ha3 Ha3). set (w4 := logged w3 _).
  assert (Hb4 : heap w4 !! b = heap w3 !! b) by done. unfold w3 in Hb4. rewrite put_lookup in Hb4.
  destruct (Hg (rt (S k))) as (g & Hfg & Hgb).
  rewrite (obnd_Ret _ _ _ _ _ (eq_trans (call_block_step _ _ _ _ _ _ _ _ _ [] g Hb4 Hfg)
    (eq_trans (f_equal (fun c : OM val => c w4) (Hgb (VObj b)))
      (location_func_step s bs k l3 w4 a b _ _ _ _ 10 Hl Hs Ha3 Hb4)))).
  set (w5 := logged _ _). assert (Ha5 : heap w5 !! a = Some (byref_obj a 0 15)) by apply put_lookup.
  ostep (log_variable_step _ _ k _ w5 a a 0 0 15 15 Hl Ha5 Ha5). set (w6 := logged w5 _).
  assert (Hb6 : heap w6 !! b = heap w4 !! b) by (apply (put_other w4 a _ b); congruence). rewrite Hb4 in Hb6.
  unfold void, pop. rewrite (obnd_Ret (free (VObj b) ;; free (VObj a) ;; oret tt) _ w6 tt (drop_obj (drop_obj w6 b) a)).
  2: { ostep (free_step _ _ _ Hb6). assert (Ha7 : heap (drop_obj w6 b) !! a = Some (byref_obj a 0 15)).
       { simpl. by rewrite lookup_delete_ne, lookup_insert_eq. }
       by ostep (free_step _ _ _ Ha7). }
  unfold oret, drop_obj. do 2 f_equal. cbn [heap w6 w5 w4 w3 w2 w1 logged put]. f_equal.
  apply frame_popped; [exact Ha|congruence|].
  change (heap w2) with (heap (put w a (byref_obj a 0 10))) in Hb. by rewrite put_other in Hb.
Qed.

(** The classes with a method blockLocation, and what it logs, last line first. *)
Definition location_classes : list (string * list string) :=
  [("SKBlockVC", ["SKBlockVC_mi_45"; "SKBlockVC_mi_43"; "SKBlockVC_mi_44"; "SKBlockVC_mi_42"]);
   ("SKBlockLocationObj",
     ["SKBlockLocationObj_mi_3"; "SKBlockLocationObj_mi_1"; "SKBlockLocationObj_mi_2"; "SKBlockLocationObj_mi_0"])].

(** blockLocation, in both classes that have it: the __block variable is logged as 10 before and
    after the block literal is created, as 15 in the block and as 15 after the call, at one and the
    same address in all four lines; the stack structures are gone at the end and no other memory
    changes. *)
Theorem blockLocation_logs (k : nat) (o : positive) (c : string) (labels : list string) (slots : gmap Z val) (w : world) :
  (c, labels) ∈ location_classes -> ok w -> heap w !! o = Some (mk_obj c slots) ->
  exists a w', msgSend (rt (S (S k))) (VObj o) "blockLocation" [] w = Ret (nil, w') /\ ok w' /\
    heap w !! a = None /\ heap w' = heap w /\ associations w' = associations w /\
    events w' = zip_with (fun l z => E_log l [VAddr a 24; number z]) labels [15; 15; 10; 10] ++ events w.
Proof.
  intros Hc Hok Ho.
  assert (Hrun : forall name f s bs fp desc l1 l2 l3 l4,
    method_of F (class_sym c) "blockLocation" = Ret (Some (Imp name)) -> find_imp (program_imps fw_size P) name = Some f ->
    (forall snd self, f snd self [] = location_method s bs fp desc l1 l2 l4 snd) ->
    byref_layout s "a" -> OFFSETOFIVAR bs "a" = 32 ->
    (forall snd, exists g, find_named (block_funcs ivar (call_address ivar snd)) fp = Some g /\
       forall b, g snd b [] = location_func s bs l3 snd b) ->
    labels = [l4; l3; l2; l1] ->
    exists a w', msgSend (rt (S (S k))) (VObj o) "blockLocation" [] w = Ret (nil, w') /\ ok w' /\
      heap w !! a = None /\ heap w' = heap w /\ associations w' = associations w /\
      events w' = location_logs labels a ++ events w).
  { intros name f s bs fp desc l1 l2 l3 l4 Hm Hf Hbody Hl Hs Hg ->.
    destruct (send_object F catlist fw_size P Hu Hp (S k) o c slots "blockLocation" [] name f w Hok Ho Hm Hf)
      as (w1 & (Hh & Ha & He) & Hok1 & Hsend).
    destruct (location_method_run s bs fp desc l1 l2 l3 l4 k w1 Hl Hs Hg) as (a & Hfresh & Hres).
    exists a. eexists. split; [rewrite Hsend, Hbody; exact Hres|]. cbn [heap associations events].
    rewrite Hh, Ha, He in *. split_and!; [|exact Hfresh|reflexivity..].
    exact (ok_caches F catlist w1 _ eq_refl Hok1). }
  unfold location_classes in Hc. rewrite !elem_of_cons, elem_of_nil in Hc. destruct Hc as [Hc|[Hc|[]]]; injection Hc as -> ->.
  - apply (Hrun "_I_SKBlockVC_blockLocation" _ __Block_byref_a_3 __SKBlockVC__blockLocation_block_impl_0_struct
      "__SKBlockVC__blockLocation_block_func_0" "__SKBlockVC__blockLocation_block_desc_0_DATA"
      "SKBlockVC_mi_42" "SKBlockVC_mi_44" "SKBlockVC_mi_43" "SKBlockVC_mi_45" ltac:(lookup) eq_refl);
      [reflexivity|layout|reflexivity| |reflexivity]. intros snd. eexists. split; reflexivity.
  - apply (Hrun "_I_SKBlockLocationObj_blockLocation" _ __Block_byref_a_0 __SKBlockLocationObj__blockLocation_block_impl_0_struct
      "__SKBlockLocationObj__blockLocation_block_func_0" "__SKBlockLocationObj__blockLocation_block_desc_0_DATA"
      "SKBlockLocationObj_mi_0" "SKBlockLocationObj_mi_2" "SKBlockLocationObj_mi_1" "SKBlockLocationObj_mi_3" ltac:(lookup) eq_refl);
      [reflexivity|layout|reflexivity| |reflexivity]. intros snd. eexists. split; reflexivity.
Qed.

End Boxed.
(** ** -[SKBlockVC blockTestAutoInLine] *)

(** The rounds of the loops leave memory as it was. *)
Lemma auto_round_0_step snd i w : auto_round_0 ivar snd i w = Ret (tt, w).
Proof.
  unfold auto_round_0, __SKBlockVC__blockTestAutoInLine_block_impl_0.
  destruct (value_literal_step __SKBlockVC__blockTestAutoInLine_block_impl_0_struct "i" (VInt i)
    "__SKBlockVC__blockTestAutoInLine_block_func_0" "__SKBlockVC__blockTestAutoInLine_block_desc_0_DATA" 0 w eq_refl)
    as (b & Hb & Hlit).
  ostep Hlit. pose proof (put_lookup w b (block_obj "_NSConcreteStackBlock" 0
    "__SKBlockVC__blockTestAutoInLine_block_func_0" "__SKBlockVC__blockTestAutoInLine_block_desc_0_DATA" {[32 := VInt i]})) as Hp1.
  set (w1 := put w b _) in *.
  assert (Hcall : call_block ivar snd (VObj b) [VInt 2] w1 = Ret (VInt (s32 (2 * i)), w1)).
  { rewrite (call_block_step ivar snd w1 b _ _ _ _ _ [VInt 2] _ Hp1 eq_refl). cbn [bf_int].
    unfold __SKBlockVC__blockTestAutoInLine_block_func_0, load_int. rewrite (obnd_Ret _ _ w1 i w1); [done|].
    replace (OFFSETOFIVAR _ "i") with 32 by reflexivity. by ostep (captured_step _ _ _ _ _ _ _ _ Hp1). }
  ostep Hcall. unfold pop. ostep (free_step _ _ _ Hp1). unfold oret, w1. by rewrite drop_put.
Qed.

Lemma auto_round_1_step snd i w : auto_round_1 ivar snd i w = Ret (tt, w).
Proof.
  unfold auto_round_1, __SKBlockVC__blockTestAutoInLine_block_impl_1.
  destruct (plain_literal_step "__SKBlockVC__blockTestAutoInLine_block_func_1" "__SKBlockVC__blockTestAutoInLine_block_desc_1_DATA" 0 w)
    as (b & Hb & Hlit).
  cbv zeta. ostep Hlit. pose proof (put_lookup w b (block_obj "_NSConcreteStackBlock" 0
    "__SKBlockVC__blockTestAutoInLine_block_func_1" "__SKBlockVC__blockTestAutoInLine_block_desc_1_DATA" ∅)) as Hp1.
  set (w1 := put w b _) in *.
  rewrite (obnd_Ret _ _ w1 (VInt i) w1) by (apply (call_block_step ivar snd w1 b _ _ _ _ _ [VInt i] _ Hp1 eq_refl)).
  unfold pop. ostep (free_step _ _ _ Hp1). unfold oret, w1. by rewrite drop_put.
Qed.

Lemma for_to_10_quiet fuel body i w : 0 <= i <= 10 -> (Z.to_nat (10 - i) < fuel)%nat ->
  (forall j, body j w = Ret (tt, w)) -> for_to_10 fuel body i w = Ret (tt, w).
Proof.
  revert i. induction fuel as [|fuel IH]; intros i Hi Hf Hb; [lia|]. cbn [for_to_10].
  destruct (i <? 10) eqn:E; zbool; [|done]. ostep (Hb i). rewrite swrap_id by lia. apply IH; [lia|lia|done].
Qed.

(** -[NSBlock copy] and -[NSBlock copyWithZone:] are the copy of the blocks runtime. *)
Definition copies_blocks (sel : string) (args : list val) (nesting : nat) : Prop :=
  exists sym, method_of F (class_sym "_NSConcreteStackBlock") sel = Ret (Some (FrameworkImp sym)) /\
    sym <> class_sym "NSObject" /\ sym <> meta_sym "NSObject" /\
    forall snd b w, fw_call F snd (VObj b) sel args w
      = _Block_copy descriptor_table (fun _ => None) (fun v => objc_retain v ;; oret tt) (S nesting) (VObj b) w.

(** Framework messages that do nothing to the program's own memory. *)
Definition harmless (v : val) (sel : string) (args : list val) : Prop :=
  forall snd w, exists r, fw_call F snd v sel args w = Ret (r, w).

(** A mutable array and plain objects of the frameworks. *)
Record arrays_and_objects (array object : val) : Prop := mk_arrays {
  ao_array : framework_value array;
  ao_object : framework_value object;
  ao_capacity : forall snd w, fw_call F snd (VClass "NSMutableArray") "arrayWithCapacity:" [VInt 3] w = Ret (array, w);
  ao_add : forall v, harmless array "addObject:" [v];
  ao_count : harmless array "count" [];
  ao_box : forall v, harmless (VClass "NSNumber") "numberWithUnsignedInteger:" [v];
  ao_alloc : forall snd w, fw_call F snd (VClass "NSObject") "alloc" [] w = Ret (object, w);
  ao_init : forall snd w, fw_call F snd object "init" [] w = Ret (object, w) }.

Lemma copy_message sel args nesting k b w : copies_blocks sel args nesting -> ok w ->
  (o_isa <$> heap w !! b) = Some "_NSConcreteStackBlock" ->
  exists w', same_state w w' /\ ok w' /\
    msgSend (rt (S k)) (VObj b) sel args w
    = _Block_copy descriptor_table (fun _ => None) (fun v => objc_retain v ;; oret tt) (S nesting) (VObj b) w'.
Proof.
  intros (sym & Hm & Hn1 & Hn2 & Hcall) Hok Hb.
  destruct (msgSend_dispatch F catlist fw_size P Hu Hp k (VObj b) (class_sym "_NSConcreteStackBlock") sel args
    (FrameworkImp sym) w Hok ltac:(discriminate)) as (w' & Hs & Hok' & Hsend); [|exact Hm|].
  - simpl. destruct (heap w !! b); simpl in *; congruence.
  - exists w'. split_and!; [exact Hs|exact Hok'|]. rewrite Hsend. cbn [call_imp].
    rewrite !decide_False by done. apply Hcall.
Qed.

Lemma alloc_object array object k w : arrays_and_objects array object ->
  alloc_init (rt (S k)) "NSObject" w = Ret (object, w).
Proof.
  intros [H1 H2 H3 H4 H5 H6 H7 H8]. unfold alloc_init, send0.
  rewrite (obnd_Ret _ _ w object w); [|rewrite send_framework_class by lookup; apply H7].
  rewrite send_framework_value by done. apply H8.
Qed.

(** The block with the array: only the log grows. *)
Lemma array_block_call array object k w b flags desc : arrays_and_objects array object ->
  heap w !! b = Some (block_obj "_NSConcreteStackBlock" flags "__SKBlockVC__blockTestAutoInLine_block_func_3" desc {[32 := array]}) ->
  exists e, call_block ivar (rt (S k)) (VObj b) [object] w = Ret (nil, logged w e).
Proof.
  intros [H1 H2 H3 H4 H5 H6 H7 H8] Hb.
  rewrite (call_block_step ivar _ w b _ _ _ _ _ [object] _ Hb eq_refl). cbn [bf_id].
  unfold __SKBlockVC__blockTestAutoInLine_block_func_3. replace (OFFSETOFIVAR _ "array") with 32 by reflexivity.
  ostep (captured_step _ _ _ _ _ _ _ _ Hb).
  destruct (H4 object (rt k) w) as (r1 & E1). destruct (H5 (rt k) w) as (r2 & E2). destruct (H6 r2 (rt k) w) as (r3 & E3).
  unfold send0. rewrite (obnd_Ret _ _ w r1 w) by (by rewrite send_framework_value).
  rewrite (obnd_Ret _ _ w r2 w) by (by rewrite send_framework_value).
  rewrite (obnd_Ret _ _ w r3 w) by (rewrite send_framework_class by lookup; exact E3).
  by eexists.
Qed.

(** The part of the method with the array, from a memory with the two structures [b], [x] on the stack. *)
Definition array_part (snd : senders) (b x : val) : OM val :=
  let* array := msgSend snd (VClass "NSMutableArray") "arrayWithCapacity:" [VInt 3] in
  let* blm := __SKBlockVC__blockTestAutoInLine_block_impl_3 "__SKBlockVC__blockTestAutoInLine_block_func_3"
                "__SKBlockVC__blockTestAutoInLine_block_desc_3_DATA" array BLOCK_FLAGS in
  let* o := alloc_init snd "NSObject" in
  let* _ := call_block ivar snd blm [o] in
  let* o := alloc_init snd "NSObject" in
  let* _ := call_block ivar snd blm [o] in
  let* o := alloc_init snd "NSObject" in
  let* _ := call_block ivar snd blm [o] in
  void (pop [blm; b; x]).

Lemma array_part_run array object k w b x : arrays_and_objects array object ->
  is_Some (heap w !! b) -> is_Some (heap w !! x) -> b <> x ->
  exists es, array_part (rt (S k)) (VObj b) (VObj x) w
    = Ret (nil, mk_world (delete x (delete b (heap w))) (associations w) (es ++ events w) (caches w)).
Proof.
  intros Hao [ob Hb] [ox Hx] Hbx. unfold array_part.
  rewrite (obnd_Ret _ _ w array w) by (rewrite send_framework_class by lookup; apply Hao).
  unfold __SKBlockVC__blockTestAutoInLine_block_impl_3.
  destruct (value_literal_step __SKBlockVC__blockTestAutoInLine_block_impl_3_struct "array" array
    "__SKBlockVC__blockTestAutoInLine_block_func_3" "__SKBlockVC__blockTestAutoInLine_block_desc_3_DATA" BLOCK_FLAGS w eq_refl)
    as (m & Hm & Hlit).
  ostep Hlit. set (w1 := put w m _). assert (Hm1 : heap w1 !! m = Some _) by apply put_lookup.
  ostep (alloc_object array object k w1 Hao).
  destruct (array_block_call array object k w1 m _ _ Hao Hm1) as (e1 & Hc1). ostep Hc1.
  ostep (alloc_object array object k (logged w1 e1) Hao).
  destruct (array_block_call array object k (logged w1 e1) m _ _ Hao Hm1) as (e2 & Hc2). ostep Hc2.
  ostep (alloc_object array object k (logged (logged w1 e1) e2) Hao).
  destruct (array_block_call array object k (logged (logged w1 e1) e2) m _ _ Hao Hm1) as (e3 & Hc3). ostep Hc3.
  set (w2 := logged _ e3). exists [e3; e2; e1].
  assert (Hbm : b <> m /\ x <> m) by (split; congruence). destruct Hbm as [Hbm Hxm].
  assert (Hb2 : heap (drop_obj w2 m) !! b = Some ob) by (simpl; rewrite lookup_delete_ne, lookup_insert_ne by done; done).
  assert (Hx2 : heap (drop_obj (drop_obj w2 m) b) !! x = Some ox)
    by (simpl; rewrite !lookup_delete_ne, lookup_insert_ne by done; done).
  unfold void, pop. rewrite (obnd_Ret _ _ w2 tt (drop_obj (drop_obj (drop_obj w2 m) b) x)).
  - unfold oret, drop_obj. do 2 f_equal. cbn [heap w2 w1 logged put]. f_equal. by rewrite delete_insert_id.
  - ostep (free_step w2 m _ Hm1). ostep (free_step _ b _ Hb2). by ostep (free_step _ x _ Hx2).
Qed.

(** The heap at the end: the copies stay, the structures on the stack go. *)
Lemma auto_heap (h : gmap positive obj) (x b b' c : positive) (o1 o2 o3 o4 o5 o6 : obj) :
  h !! x = None -> h !! b = None -> b <> x -> b' <> x -> b' <> b -> c <> x -> c <> b -> b' <> c ->
  delete x (delete b (<[c := o6]> (<[b' := o5]> (<[c := o4]> (<[x := o3]> (<[b := o2]> (<[x := o1]> h)))))))
  = <[b' := o5]> (<[c := o6]> h).
Proof.
  intros. apply map_eq. intros p.
  destruct (decide (p = x)) as [->|]; [by rewrite lookup_delete_eq, !lookup_insert_ne|].
  destruct (decide (p = b)) as [->|]; [by rewrite lookup_delete_ne, lookup_delete_eq, !lookup_insert_ne|].
  rewrite !lookup_delete_ne by done. destruct (decide (p = c)) as [->|].
  - by rewrite lookup_insert_eq, lookup_insert_ne, lookup_insert_eq.
  - rewrite (lookup_insert_ne _ c) by done. destruct (decide (p = b')) as [->|]; [by rewrite !lookup_insert_eq|].
    by rewrite !lookup_insert_ne.
Qed.

(** [++val] in the block that was copied. *)
Lemma increment_block_call snd w b c fl isa flags desc v :
  heap w !! b = Some (block_obj isa flags "__SKBlockVC__blockTestAutoInLine_block_func_2" desc {[32 := VObj c]}) ->
  heap w !! c = Some (byref_obj c fl v) ->
  call_block ivar snd (VObj b) [] w = Ret (nil, put w c (byref_obj c fl (s32 (v + 1)))).
Proof.
  intros Hb Hc. assert (Hl : byref_layout __Block_byref_val_2 "val") by layout.
  rewrite (call_block_step ivar snd w b _ _ _ _ _ [] _ Hb eq_refl). cbn [bf0].
  unfold __SKBlockVC__blockTestAutoInLine_block_func_2. replace (OFFSETOFIVAR _ "val") with 32 by reflexivity.
  ostep (captured_step _ _ _ _ _ _ _ _ Hb). ostep (byref_get_step _ _ Hl w c c fl fl v v Hc Hc).
  unfold void. by ostep (byref_set_step _ _ Hl w c c fl fl v v Hc Hc (s32 (v + 1))).
Qed.

(** blockTestAutoInLine copies a block that increments a __block variable: the increment of the
    method, which goes through the structure on the stack, and the increment of the block act on one
    variable, which is 2 in the end; it lives on the heap with the copied block, both still
    referenced because nothing releases them, and every structure on the stack is gone. *)
Theorem blockTestAutoInLine_shares (k nesting : nat) (o : positive) (slots : gmap Z val) (array object : val) (w : world) :
  copies_blocks "copy" [] nesting -> arrays_and_objects array object ->
  (forall v w1, exists n, CFGetRetainCount P v w1 = Ret (n, w1)) ->
  ok w -> heap w !! o = Some (mk_obj "SKBlockVC" slots) ->
  exists b c w', msgSend (rt (S (S k))) (VObj o) "blockTestAutoInLine" [] w = Ret (nil, w') /\ ok w' /\
    heap w !! b = None /\ heap w !! c = None /\ b <> c /\ associations w' = associations w /\
    heap w' = <[b := block_obj "_NSConcreteMallocBlock" MALLOC_FLAGS "__SKBlockVC__blockTestAutoInLine_block_func_2"
                       "__SKBlockVC__blockTestAutoInLine_block_desc_2_DATA" {[32 := VObj c]}]>
              (<[c := byref_obj c MALLOC_BYREF_FLAGS 2]> (heap w)).
Proof.
  intros Hcopy Hao Hrc Hok Ho. assert (Hl : byref_layout __Block_byref_val_2 "val") by layout.
  destruct (send_object F catlist fw_size P Hu Hp (S k) o "SKBlockVC" slots "blockTestAutoInLine" []
    "_I_SKBlockVC_blockTestAutoInLine" (imp0 (_I_SKBlockVC_blockTestAutoInLine ivar P)) w Hok Ho ltac:(lookup) eq_refl)
    as (w0 & (Hh & Ha & He) & Hok0 & Hsend).
  rewrite Hsend, <- Hh, <- Ha. clear Hsend Ho Hok. unfold imp0, _I_SKBlockVC_blockTestAutoInLine.
  rewrite (obnd_Ret _ _ w0 tt w0) by (apply for_to_10_quiet; [lia|lia|intros j; apply auto_round_0_step]).
  rewrite (obnd_Ret _ _ w0 tt w0) by (apply for_to_10_quiet; [lia|lia|intros j; apply auto_round_1_step]).
  destruct (byref_init_step _ _ 0 w0 Hl) as (x & Hx & Hinit). ostep Hinit.
  set (w1 := put w0 x _). assert (Hx1 : heap w1 !! x = Some (byref_obj x 0 0)) by apply put_lookup.
  unfold __SKBlockVC__blockTestAutoInLine_block_impl_2.
  destruct (byref_literal_step __SKBlockVC__blockTestAutoInLine_block_impl_2_struct "val" _ _ x 0 0
    "__SKBlockVC__blockTestAutoInLine_block_func_2" "__SKBlockVC__blockTestAutoInLine_block_desc_2_DATA" BLOCK_FLAGS w1 Hl eq_refl Hx1)
    as (b & Hb & Hlit). ostep Hlit.
  assert (Hbx : b <> x) by congruence. set (w2 := put w1 b _).
  assert (Hb2 : heap w2 !! b = Some _) by apply put_lookup.
  assert (Hx2 : heap w2 !! x = Some (byref_obj x 0 0)) by (unfold w2; by rewrite put_other).
  destruct (copy_message _ _ nesting k b w2 Hcopy (ok_caches F catlist w0 _ eq_refl Hok0)) as (w3 & (Hh3 & Ha3 & He3) & Hok3 & Hsend).
  { by rewrite Hb2. }
  rewrite <- Hh3 in Hb2, Hx2.
  destruct (copy_block_step (fun _ => None) (fun v => objc_retain v ;; oret tt) nesting w3 x b _ _ _
    __SKBlockVC__blockTestAutoInLine_block_dispose_2 0 Hx2 Hb2 eq_refl) as (b' & c & Hb' & Hc & Hbc & Hrun).
  rewrite (obnd_Ret _ _ _ _ _ (eq_trans Hsend Hrun)). set (w4 := put (put _ c _) b' _).
  assert (Hne : b' <> x /\ b' <> b /\ c <> x /\ c <> b) by (split_and!; congruence). destruct Hne as (N1 & N2 & N3 & N4).
  assert (Hx4 : heap w4 !! x = Some (byref_obj c 0 0)).
  { unfold w4. rewrite !put_other by congruence. apply put_lookup. }
  assert (Hc4 : heap w4 !! c = Some (byref_obj c MALLOC_BYREF_FLAGS 0)).
  { unfold w4. rewrite put_other by congruence. apply put_lookup. }
  assert (Hb4 : heap w4 !! b' = Some _) by apply put_lookup.
  ostep (byref_get_step _ _ Hl w4 x c _ _ _ _ Hx4 Hc4). ostep (byref_set_step _ _ Hl w4 x c _ _ _ _ Hx4 Hc4 (s32 (0 + 1))).
  set (w5 := put w4 c _). assert (Hb5 : heap w5 !! b' = heap w4 !! b') by (unfold w5; rewrite put_other by congruence; done).
  rewrite Hb4 in Hb5.
  ostep (increment_block_call _ w5 b' c _ _ _ _ _ Hb5 (put_lookup w4 c _)). unfold w5. rewrite put_put. set (w6 := put w4 c _).
  destruct (Hrc (VObj b') w6) as (n & Hn). ostep Hn. rewrite (obnd_Ret _ _ w6 tt (logged w6 (E_log "retain count = %ld\n" [VInt n])) eq_refl).
  set (w7 := logged w6 _). fold (array_part (rt (S k)) (VObj b) (VObj x)).
  destruct (array_part_run array object k w7 b x Hao) as (es & Hres).
  { unfold w7, w6, w4. cbn [heap logged]. rewrite !put_other by congruence. by rewrite Hb2. }
  { unfold w7, w6. cbn [heap logged]. rewrite put_other by congruence. by rewrite Hx4. }
  { exact Hbx. }
  exists b', c. eexists. split; [exact Hres|]. rewrite Hh3 in Hb', Hc.
  split; [exact (ok_caches F catlist w3 _ eq_refl Hok3)|].
  cbn [heap associations w7 w6 w4 logged put]. rewrite Hh3, Ha3. cbn [heap associations w2 w1 put] in *.
  rewrite !lookup_insert_ne in Hb', Hc by congruence.
  split_and!; [exact Hb'|exact Hc|exact Hbc|reflexivity|].
  rewrite lookup_insert_ne in Hb by congruence. by apply auto_heap.
Qed.

(** ** Blocks called as functions *)

(** A copy of a block without captured variables. *)
Lemma copy_plain_step h retain k w b fp desc :
  heap w !! b = Some (block_obj "_NSConcreteStackBlock" 0 fp desc ∅) ->
  descriptor_table desc = Some (mk_descriptor 32 [] []) ->
  exists b', heap w !! b' = None /\
    _Block_copy descriptor_table h retain (S k) (VObj b) w
    = Ret (VObj b', put w b' (block_obj "_NSConcreteMallocBlock" (Z.lor BLOCK_NEEDS_FREE 2) fp desc ∅)).
Proof.
  intros Hb Hd. destruct (malloc_step "" w) as (b' & Hb' & Hm). exists b'. split; [exact Hb'|].
  assert (Hbb : b <> b') by congruence.
  unfold _Block_copy. cbn [_Block_copy_internal]. rewrite decide_False by discriminate.
  ostep (load_int_step w b _ off_flags 0 Hb (proj1 (block_obj_members _ _ _ _ _))).
  change (flag 0 BLOCK_NEEDS_FREE) with false. change (flag 0 BLOCK_IS_GC) with false.
  change (flag 0 BLOCK_IS_GLOBAL) with false. cbv iota.
  assert (Hdesc : descriptor_of descriptor_table (VObj b) w = Ret (mk_descriptor 32 [] [], w)).
  { unfold descriptor_of. ostep (load_some _ _ _ off_descriptor _ Hb (proj2 (proj2 (block_obj_members _ _ _ _ _)))). by rewrite Hd. }
  ostep Hdesc. ostep Hm. cbn [desc_size desc_copy].
  assert (Hbp : heap (put w b' (mk_obj "" ∅)) !! b = heap w !! b) by (apply put_other; congruence). rewrite Hb in Hbp.
  ostep (move_step _ _ _ _ _ 0 32 (put_lookup w b' _) Hbp). rewrite put_put.
  ostep (store_step _ _ _ _ _ (put_lookup w b' _)). rewrite put_put.
  ostep (set_isa_step _ _ _ _ (put_lookup w b' _)). rewrite put_put.
  match goal with |- context [put w b' ?X] => replace X with
    (block_obj "_NSConcreteMallocBlock" (Z.lor BLOCK_NEEDS_FREE 2) fp desc ∅) by (vm_compute; reflexivity) end.
  change (flag _ BLOCK_HAS_COPY_DISPOSE) with false. cbv iota. reflexivity.
Qed.

(** The setter of a block property, with the offset the file was compiled with. *)
Lemma set_block_property nesting k o c slots off b fp desc w : copies_blocks "copyWithZone:" [nil] nesting ->
  ok w -> off <> 0 -> heap w !! o = Some (mk_obj c slots) ->
  heap w !! b = Some (block_obj "_NSConcreteStackBlock" 0 fp desc ∅) -> b <> o ->
  descriptor_table desc = Some (mk_descriptor 32 [] []) ->
  exists b' w', objc_setProperty (rt (S k)) (VObj o) off (VObj b) false 1 w = Ret (tt, w') /\ ok w' /\
    heap w' !! o = Some (mk_obj c (<[off := VObj b']> slots)).
Proof.
  intros Hcopy Hok Hoff Ho Hb Hbo Hd. unfold objc_setProperty, reallySetProperty.
  destruct (off =? 0) eqn:E; zbool; [done|]. change (negb (1 =? 0) && negb (1 =? MUTABLE_COPY)) with true. cbv iota.
  destruct (copy_message _ _ nesting k b w Hcopy Hok) as (w1 & (Hh & Ha & He) & Hok1 & Hsend); [by rewrite Hb|].
  rewrite <- Hh in Hb, Ho.
  destruct (copy_plain_step (fun _ => None) (fun v => objc_retain v ;; oret tt) nesting w1 b fp desc Hb Hd) as (b' & Hb' & Hrun).
  rewrite (obnd_Ret _ _ _ _ _ (eq_trans Hsend Hrun)).
  assert (Hob : o <> b') by congruence. set (w2 := put w1 b' _).
  assert (Ho2 : heap w2 !! o = Some (mk_obj c slots)) by (unfold w2; by rewrite put_other).
  ostep (load_step _ _ _ off Ho2). ostep (store_step _ _ _ off (VObj b') Ho2). rewrite objc_release_spec.
  exists b'. eexists. split_and!; [reflexivity|exact (ok_caches F catlist w1 _ eq_refl Hok1)|]. exact (put_lookup w2 o _).
Qed.

Section Boxed2.
Context (number : Z -> val) (Hbox : boxes "numberWithInt:" number).

(** blockExample does not return as lowered: it calls the block that the property sumOf holds as
    if it were a C function (the call does not go through FuncPtr), so that it jumps to data.
    Whatever the receiver held, if the ivar of sumOf did not hold the address of a function, the
    method faults. *)
Theorem blockExample_faults (k nesting : nat) (o : positive) (slots : gmap Z val) (w : world) :
  copies_blocks "copyWithZone:" [nil] nesting ->
  ok w -> heap w !! o = Some (mk_obj "SKBlockVC" slots) ->
  (forall f, slots !! ivar "SKBlockVC" "_sumOf" <> Some (VStatic f)) ->
  msgSend (rt (S (S (S k)))) (VObj o) "blockExample" [] w = Fault.
Proof.
  intros Hcopy Hok Ho Hold.
  destruct (send_object F catlist fw_size P Hu Hp (S (S k)) o "SKBlockVC" slots "blockExample" []
    "_I_SKBlockVC_blockExample" (imp0 (_I_SKBlockVC_blockExample ivar)) w Hok Ho ltac:(lookup) eq_refl)
    as (w0 & (Hh & Ha & He) & Hok0 & Hsend).
  rewrite Hsend. rewrite <- Hh in Ho. clear Hsend. unfold imp0, _I_SKBlockVC_blockExample.
  unfold __SKBlockVC__blockExample_block_impl_0, __SKBlockVC__blockExample_block_impl_1, __SKBlockVC__blockExample_block_impl_2.
  destruct (plain_literal_step "__SKBlockVC__blockExample_block_func_0" "__SKBlockVC__blockExample_block_desc_0_DATA" 0 w0)
    as (s & Hs & L1). ostep L1. set (w1 := put w0 s _).
  rewrite (obnd_Ret _ _ w1 (VInt 600) w1) by exact (call_block_step ivar _ w1 s _ _ _ _ _ _ _ (put_lookup w0 s _) eq_refl).
  rewrite (obnd_Ret (to_int (VInt 600)) _ w1 600 w1 eq_refl). ostep (box_int number Hbox (S k) 600 w1).
  rewrite (obnd_Ret _ _ w1 tt (logged w1 (E_log "SKBlockVC_mi_22" [number 600])) eq_refl). set (w2 := logged w1 _).
  destruct (plain_literal_step "__SKBlockVC__blockExample_block_func_1" "__SKBlockVC__blockExample_block_desc_1_DATA" 0 w2)
    as (t & Ht & L2). ostep L2. set (w3 := put w2 t _).
  rewrite (obnd_Ret _ _ w3 (VInt 36) w3) by exact (call_block_step ivar _ w3 t _ _ _ _ _ _ _ (put_lookup w2 t _) eq_refl).
  rewrite (obnd_Ret (to_int (VInt 36)) _ w3 36 w3 eq_refl). ostep (box_int number Hbox (S k) 36 w3).
  rewrite (obnd_Ret _ _ w3 tt (logged w3 (E_log "SKBlockVC_mi_23" [number 36])) eq_refl). set (w4 := logged w3 _).
  destruct (plain_literal_step "__SKBlockVC__blockExample_block_func_2" "__SKBlockVC__blockExample_block_desc_2_DATA" 0 w4)
    as (b & Hb & L3). ostep L3. set (w5 := put w4 b _).
  assert (Ho2 : heap w2 !! o = Some (mk_obj "SKBlockVC" slots)).
  { change (heap w2) with (heap w1). unfold w1. rewrite put_other by congruence. exact Ho. }
  assert (Ho4 : heap w4 !! o = Some (mk_obj "SKBlockVC" slots)).
  { change (heap w4) with (heap w3). unfold w3. rewrite put_other by congruence. exact Ho2. }
  assert (Hbo : b <> o) by congruence.
  assert (Ho5 : heap w5 !! o = Some (mk_obj "SKBlockVC" slots)) by (unfold w5; rewrite put_other by congruence; exact Ho4).
  assert (Hok5 : ok w5) by exact (ok_caches F catlist w0 _ eq_refl Hok0).
  destruct (send_object F catlist fw_size P Hu Hp (S k) o "SKBlockVC" slots "setSumOf:" [VObj b] "_I_SKBlockVC_setSumOf_"
    _ w5 Hok5 Ho5 ltac:(lookup) eq_refl) as (w6 & (Hh6 & Ha6 & He6) & Hok6 & Hset).
  assert (Hb6 : heap w6 !! b = Some (block_obj "_NSConcreteStackBlock" 0 "__SKBlockVC__blockExample_block_func_2"
    "__SKBlockVC__blockExample_block_desc_2_DATA" ∅)) by (rewrite Hh6; apply put_lookup).
  rewrite <- Hh6 in Ho5.
  destruct (set_block_property nesting k o "SKBlockVC" slots (OFFSETOFIVAR SKBlockVC_IMPL "_sumOf") b _ _ w6 Hcopy Hok6
    ltac:(vm_compute; discriminate) Ho5 Hb6 Hbo ltac:(lookup)) as (b' & w7 & Hprop & Hok7 & Ho7).
  rewrite (obnd_Ret _ _ w5 nil w7) by (rewrite Hset; unfold imp1, _I_SKBlockVC_setSumOf_, void; by ostep Hprop).
  destruct (send_load F catlist fw_size P Hu Hp (S k) o "SKBlockVC" _ "sumOf" "_I_SKBlockVC_sumOf" (ivar "SKBlockVC" "_sumOf")
    w7 ltac:(lookup) eq_refl Hok7 Ho7) as (w8 & Hget & _ & _).
  unfold send0. ostep Hget. set (f := default nil _).
  assert (Hf : forall l, f <> VStatic l).
  { intros l. unfold f. destruct (decide (OFFSETOFIVAR SKBlockVC_IMPL "_sumOf" = ivar "SKBlockVC" "_sumOf")) as [E|E].
    - rewrite E, lookup_insert_eq. discriminate.
    - rewrite lookup_insert_ne by exact E. specialize (Hold l).
      destruct (slots !! ivar "SKBlockVC" "_sumOf"); simpl; congruence. }
  assert (Hfault : call_address ivar (rt (S (S k))) f [VInt 10; VInt 2] w8 = Fault).
  { unfold call_address. destruct f as [z|l|l|l|p|l|p q]; try reflexivity. by destruct (Hf l). }
  unfold obnd at 1. by rewrite Hfault.
Qed.

End Boxed2.
End BlockMethods.

(** ** Linking *)

(** The functions that the method lists of the classes and categories name. *)
Definition listed (l : option (ent_list _objc_method)) : list string :=
  match l with Some l => map _imp (entries l) | None => [] end.
Definition program_listed : list string :=
  concat (map (fun p => listed (baseMethods (ro p.2))) (map_to_list (classes program))) ++
  concat (map (fun p => listed (instance_methods p.2) ++ listed (class_methods p.2)) (map_to_list (categories program))).

(** Every function that a method list of the 20 files names is one of the program's
    implementations, each is defined once, and there is no implementation that no list names: a
    message never reaches a function that is missing. *)
Theorem methods_implemented (fw_size : string -> Z) (P : platform) :
  NoDup (map fst (program_imps fw_size P)) /\
  forall name, name ∈ map fst (program_imps fw_size P) <-> name ∈ program_listed.
Proof.
  assert (H : NoDup (map fst (program_imps fw_size P)) /\
    Forall (fun n => n ∈ program_listed) (map fst (program_imps fw_size P)) /\
    Forall (fun n => n ∈ map fst (program_imps fw_size P)) program_listed)
    by (apply (bool_decide_unpack _); vm_compute; exact I).
  destruct H as (H1 & H2 & H3). rewrite Forall_forall in H2. rewrite Forall_forall in H3. split; [exact H1|].
  intros name. split; [apply H2|apply H3].
Qed.
