(* ===== verification/BlocksSamples.v ===== *)
(** * Samples of the blocks component

    Concrete states and a concrete system on which the theorems about blocks
    apply. *)

From Stdlib Require Import ZArith Lia Bool String.
From stdpp Require Import base list gmap strings.
From S2P Require Import Prelude ObjCData ObjCImages ObjCImagesSpec IvarLayout MethodList ObjCRuntime MethodCache LoweredMethods LongestSubstring BlocksRuntime LoweredBlocks ProgramRuntime LoweredSpec MessageSpec RuntimeSamples BlocksSpec BlockMethodsSpec.

Local Open Scope string_scope.
Local Open Scope Z_scope.
Local Open Scope list_scope.
Local Open Scope objc_scope.

(** ** The blocks runtime *)

(** A new block at 2, and a __block variable with value 7 on the stack at 1. *)
Definition sample_world : world :=
  mk_world {[ 1%positive := byref_obj 1 0 7;
              2%positive := block_obj "_NSConcreteMallocBlock" MALLOC_FLAGS "f" "d" ∅ ]} ∅ [] ∅.

Definition no_helper : string -> option (list val -> OM unit) := fun _ => None.
Definition nothing : val -> OM unit := fun _ => oret tt.

Lemma sample_byref : byref_ok sample_world 1 1 0 32.
Proof. constructor; try by vm_compute. split_and!; by eexists || by vm_compute. Qed.

Lemma byref_assign_shares_witness :
  exists c' f' w', _Block_byref_assign_copy no_helper (VObj 2) 32 (VObj 1) BLOCK_FIELD_IS_BYREF sample_world = Ret (tt, w') /\
    slot_at w' 2 32 = VObj c' /\ byref_ok w' 1 c' f' 32 /\ refcount f' = 2.
Proof.
  destruct (byref_assign_shares no_helper 2 32 1 1 0 32 sample_world) as (c' & f' & w' & H1 & H2 & H3 & _ & H5 & _);
    [by eexists|discriminate|discriminate|exact sample_byref|].
  exists c', f', w'. split_and!; [exact H1|exact H2|exact H3|exact H5].
Defined.



(** A block without captured variables, counted once. *)
Definition plain_world : world :=
  mk_world {[ 2%positive := block_obj "_NSConcreteMallocBlock" (Z.lor BLOCK_NEEDS_FREE 2) "f" "d" ∅ ]} ∅ [] ∅.

Lemma last_release_frees_witness :
  exists w2, _Block_release descriptor_table no_helper nothing nothing 1 (VObj 2) plain_world = Ret (tt, w2) /\
    ~ allocated w2 2.
Proof.
  destruct (last_release_frees descriptor_table no_helper nothing nothing 0 2 (Z.lor BLOCK_NEEDS_FREE 2) plain_world)
    as (w2 & H1 & H2 & _); [constructor; by eexists || by vm_compute|reflexivity|reflexivity|reflexivity|reflexivity|].
  exists w2. split; [exact H1|exact H2].
Defined.

(** ** The program with a system that copies blocks *)

Definition retain_object : val -> OM unit := fun v => objc_retain v ;; oret tt.

(** Numbers are their values, arrays and objects are constants, copying a block is
    the blocks runtime's copy. *)
Definition block_framework : framework :=
  mk_framework name_number 0 (fun _ => None)
    (fun sym sel => String.eqb sym (class_sym "_NSConcreteStackBlock") && (String.eqb sel "copy" || String.eqb sel "copyWithZone:"))
    (fun _ v sel args =>
       match v, args with
       | VObj b, _ => _Block_copy descriptor_table (fun _ => None) retain_object 1 (VObj b)
       | _, [VInt z] => oret (if String.eqb sel "arrayWithCapacity:" then VStatic "array" else VInt z)
       | _, _ => oret (VStatic "object")
       end)
    (fun _ _ _ _ => oret nil).

Lemma block_framework_uniqued : selectors_uniqued block_framework.
Proof. exact name_number_inj. Qed.

Definition controller : world := one_object "SKBlockVC" ∅.

Lemma controller_ok : ok block_framework program_catlist controller.
Proof. intros cls sel i. simpl. rewrite lookup_empty. discriminate. Qed.

Lemma block_framework_copies sel args : sel = "copy" \/ sel = "copyWithZone:" ->
  copies_blocks block_framework sel args 0.
Proof.
  intros Hs. exists (class_sym "_NSConcreteStackBlock"). split_and!; [|discriminate|discriminate|reflexivity].
  destruct Hs as [->| ->]; lookup.
Qed.

Lemma block_framework_boxes : boxes block_framework "numberWithInt:" (fun z => VInt z).
Proof. intros snd z w. reflexivity. Qed.

Lemma block_framework_arrays : arrays_and_objects block_framework (VStatic "array") (VStatic "object").
Proof.
  constructor; try done; try (intros snd w; reflexivity).
  - intros v snd w. by destruct v; eexists.
  - intros snd w. by eexists.
  - intros v snd w. by destruct v; eexists.
Qed.

Local Abbreviation run := (rt block_framework program_catlist (fun _ => 8) sample_platform).

Lemma blockLocation_logs_witness :
  exists a w', msgSend (run 2) (VObj 1) "blockLocation" [] controller = Ret (nil, w') /\ heap w' = heap controller /\
    events w' = zip_with (fun l z => E_log l [VAddr a 24; VInt z])
      ["SKBlockVC_mi_45"; "SKBlockVC_mi_43"; "SKBlockVC_mi_44"; "SKBlockVC_mi_42"] [15; 15; 10; 10] ++ events controller.
Proof.
  destruct (blockLocation_logs block_framework program_catlist (fun _ => 8) sample_platform block_framework_uniqued
    ltac:(reflexivity) (fun z => VInt z) block_framework_boxes 0 1 "SKBlockVC"
    ["SKBlockVC_mi_45"; "SKBlockVC_mi_43"; "SKBlockVC_mi_44"; "SKBlockVC_mi_42"] ∅ controller)
    as (a & w' & H1 & _ & _ & H2 & _ & H3); [by left|exact controller_ok|apply one_object_heap|].
  exists a, w'. split_and!; [exact H1|exact H2|exact H3].
Defined.

Lemma blockTestAutoInLine_shares_witness :
  exists b c w', msgSend (run 2) (VObj 1) "blockTestAutoInLine" [] controller = Ret (nil, w') /\ b <> c /\
    heap w' !! c = Some (byref_obj c MALLOC_BYREF_FLAGS 2).
Proof.
  destruct (blockTestAutoInLine_shares block_framework program_catlist (fun _ => 8) sample_platform block_framework_uniqued
    ltac:(reflexivity) 0 0 1 ∅ (VStatic "array") (VStatic "object") controller)
    as (b & c & w' & H1 & _ & _ & _ & H2 & _ & H3);
    [apply block_framework_copies; by left|exact block_framework_arrays|intros v w1; by eexists|exact controller_ok
    |apply one_object_heap|].
  exists b, c, w'. split_and!; [exact H1|exact H2|]. rewrite H3, lookup_insert_ne by exact H2. apply lookup_insert_eq.
Defined.

Lemma blockExample_faults_witness : msgSend (run 3) (VObj 1) "blockExample" [] controller = Fault.
Proof.
  apply (blockExample_faults block_framework program_catlist (fun _ => 8) sample_platform block_framework_uniqued
    ltac:(reflexivity) (fun z => VInt z) block_framework_boxes 0 0 1 ∅ controller);
    [apply block_framework_copies; by right|exact controller_ok|apply one_object_heap|].
  intros f. rewrite lookup_empty. discriminate.
Defined.
