(* ===== verification/RetainCount.v ===== *)
(** * Retain counts

    Reference counting in the runtime: the packed isa field with its inline count
    (isa.h), the inline retain and release of objc-object.h and the side tables
    of NSObject.mm that take over when the inline count overflows.

    An object is its address; [isas] is the first word of every object.  The side
    tables are striped by address; as an object uses the table of its stripe only,
    their counts are one map, and [held] are the stripes whose lock is held.
    [stores] are the outcomes of the exclusive stores to come: one may fail
    spuriously, and [false] makes it fail. *)

From Stdlib Require Import ZArith Lia Bool.
From stdpp Require Import base list gmap.
From S2P Require Import Prelude.

Local Open Scope Z_scope.

(** ** State *)

Inductive notice := N_dealloc (this : Z) | N_overrelease (this : Z).

Record rcs := mk_rcs {
  isas : gmap Z Z;
  refcnts : gmap Z Z;
  held : gset Z;
  stores : list bool;
  notices : list notice }.

Definition RM (A : Type) : Type := rcs -> outcome (A * rcs).

Definition rret {A} (a : A) : RM A := fun s => Ret (a, s).
Definition rbnd {A B} (c : RM A) (k : A -> RM B) : RM B :=
  fun s => match c s with Ret (a, s') => k a s' | Fault => Fault | OutOfFuel => OutOfFuel end.
Definition rfault {A} : RM A := fun _ => Fault.
Definition rtimeout {A} : RM A := fun _ => OutOfFuel.

Declare Scope rc_scope.
Delimit Scope rc_scope with rc.
Notation "'do' x '<-' e ';' k" := (rbnd e (fun x => k))
  (at level 10, x name, e at level 100, k at level 200) : rc_scope.
Notation "e ;; k" := (rbnd e (fun _ => k)) (at level 100, right associativity) : rc_scope.
Local Open Scope rc_scope.

(** [assert] *)
Definition rassert (b : bool) : RM unit := if b then rret tt else rfault.

(** ** The isa field (isa.h) *)

Inductive arch := arm64 | x86_64.

#[export] Instance arch_eq_dec : EqDecision arch.
Proof. solve_decision. Defined.

(** The bit positions and widths of the packed fields; [extra_rc] is the last. *)
Definition rc_shift (a : arch) : Z := match a with arm64 => 45 | x86_64 => 56 end.
Definition rc_bits (a : arch) : Z := match a with arm64 => 19 | x86_64 => 8 end.
Definition shiftcls_bits (a : arch) : Z := match a with arm64 => 33 | x86_64 => 44 end.
Definition RC_ONE (a : arch) : Z := 2 ^ rc_shift a.
Definition RC_HALF (a : arch) : Z := 2 ^ (rc_bits a - 1).
Definition ISA_MASK (a : arch) : Z := match a with arm64 => 0x0000000ffffffff8 | x86_64 => 0x00007ffffffffff8 end.
Definition ISA_MAGIC_VALUE (a : arch) : Z := match a with arm64 => 0x000001a000000001 | x86_64 => 0x001d800000000001 end.

Definition nonpointer (bits : Z) : bool := Z.testbit bits 0.
Definition has_assoc (bits : Z) : bool := Z.testbit bits 1.
Definition has_cxx_dtor (bits : Z) : bool := Z.testbit bits 2.
Definition shiftcls (a : arch) (bits : Z) : Z := Z.shiftr bits 3 mod 2 ^ shiftcls_bits a.
Definition weakly_referenced (a : arch) (bits : Z) : bool := Z.testbit bits (rc_shift a - 3).
Definition deallocating (a : arch) (bits : Z) : bool := Z.testbit bits (rc_shift a - 2).
Definition has_sidetable_rc (a : arch) (bits : Z) : bool := Z.testbit bits (rc_shift a - 1).
Definition extra_rc (a : arch) (bits : Z) : Z := Z.shiftr bits (rc_shift a).

Definition set_bit (i : Z) (b : bool) (bits : Z) : Z := if b then Z.setbit bits i else Z.clearbit bits i.
Definition set_has_assoc : bool -> Z -> Z := set_bit 1.
Definition set_has_cxx_dtor : bool -> Z -> Z := set_bit 2.
Definition set_shiftcls (a : arch) (v bits : Z) : Z :=
  Z.lor (Z.ldiff bits (Z.shiftl (Z.ones (shiftcls_bits a)) 3)) (Z.shiftl (v mod 2 ^ shiftcls_bits a) 3).
Definition set_weakly_referenced (a : arch) : bool -> Z -> Z := set_bit (rc_shift a - 3).
Definition set_deallocating (a : arch) : bool -> Z -> Z := set_bit (rc_shift a - 2).
Definition set_has_sidetable_rc (a : arch) : bool -> Z -> Z := set_bit (rc_shift a - 1).
(** Assigning the bit field keeps the low bits of the value. *)
Definition set_extra_rc (a : arch) (v bits : Z) : Z :=
  bits mod 2 ^ rc_shift a + (v mod 2 ^ rc_bits a) * 2 ^ rc_shift a.

(** [__builtin_addcl] and [__builtin_subcl] without carry in. *)
Definition addc (lhs rhs : Z) : Z * bool := (u64 (lhs + rhs), 2 ^ 64 <=? lhs + rhs).
Definition subc (lhs rhs : Z) : Z * bool := (u64 (lhs - rhs), lhs <? rhs).

(** ** Memory and locks *)

Definition LoadExclusive (this : Z) : RM Z :=
  fun s => match isas s !! this with Some bits => Ret (bits, s) | None => Fault end.

Definition StoreExclusive (this value : Z) : RM bool :=
  fun s => match isas s !! this, stores s with
  | None, _ => Fault
  | Some _, false :: rest => Ret (false, mk_rcs (isas s) (refcnts s) (held s) rest (notices s))
  | Some _, rest =>
      Ret (true, mk_rcs (<[this := value]> (isas s)) (refcnts s) (held s) (tail rest) (notices s))
  end.

Definition notify (n : notice) : RM unit :=
  fun s => Ret (tt, mk_rcs (isas s) (refcnts s) (held s) (stores s) (n :: notices s)).

(** StripedMap in objc-private.h *)
Definition StripeCount (a : arch) : Z := match a with arm64 => 8 | x86_64 => 64 end.
Definition indexForPointer (a : arch) (addr : Z) : Z :=
  Z.lxor (Z.shiftr addr 4) (Z.shiftr addr 9) mod StripeCount a.

(** The locks are not recursive: locking twice is a deadlock, unlocking a lock that
    is not held a fatal error. *)
Definition lock_stripe (i : Z) : RM unit :=
  fun s => if decide (i ∈ held s) then Fault
           else Ret (tt, mk_rcs (isas s) (refcnts s) ({[i]} ∪ held s) (stores s) (notices s)).
Definition unlock_stripe (i : Z) : RM unit :=
  fun s => if decide (i ∈ held s) then Ret (tt, mk_rcs (isas s) (refcnts s) (held s ∖ {[i]}) (stores s) (notices s))
           else Fault.

Definition refcnt_find (this : Z) : RM (option Z) := fun s => Ret (refcnts s !! this, s).
(** [table.refcnts[this]] makes an entry of zero if there is none. *)
Definition refcnt_get (this : Z) : RM Z := fun s => Ret (default 0 (refcnts s !! this), s).
Definition refcnt_set (this v : Z) : RM unit :=
  fun s => Ret (tt, mk_rcs (isas s) (<[this := v]> (refcnts s)) (held s) (stores s) (notices s)).
Definition refcnt_erase (this : Z) : RM unit :=
  fun s => Ret (tt, mk_rcs (isas s) (delete this (refcnts s)) (held s) (stores s) (notices s)).

Section Arch.
Context (a : arch).

Definition _OBJC_TAG_MASK : Z := match a with arm64 => Z.shiftl 1 63 | x86_64 => 1 end.
Definition isTaggedPointer (this : Z) : bool := Z.land this _OBJC_TAG_MASK =? _OBJC_TAG_MASK.

Definition sidetable_lock (this : Z) : RM unit := lock_stripe (indexForPointer a this).
Definition sidetable_unlock (this : Z) : RM unit := unlock_stripe (indexForPointer a this).
Definition unlock_if (b : bool) (this : Z) : RM unit := if b then sidetable_unlock this else rret tt.

(** ** Side tables (NSObject.mm) *)

Definition SIDE_TABLE_WEAKLY_REFERENCED : Z := Z.shiftl 1 0.
Definition SIDE_TABLE_DEALLOCATING : Z := Z.shiftl 1 1.
Definition SIDE_TABLE_RC_ONE : Z := Z.shiftl 1 2.
Definition SIDE_TABLE_RC_PINNED : Z := Z.shiftl 1 63.
Definition SIDE_TABLE_RC_SHIFT : Z := 2.
Definition SIDE_TABLE_FLAG_MASK : Z := SIDE_TABLE_RC_ONE - 1.

Definition has (v bits : Z) : bool := negb (Z.land v bits =? 0).

Definition assert_isa (this : Z) (np : bool) : RM unit :=
  do bits <- LoadExclusive this; rassert (Bool.eqb (nonpointer bits) np).

Definition assert_no_flags (v : Z) : RM unit :=
  rassert (negb (has v SIDE_TABLE_DEALLOCATING)) ;; rassert (negb (has v SIDE_TABLE_WEAKLY_REFERENCED)).

Definition sidetable_moveExtraRC_nolock (this extra : Z) (isDeallocating weaklyReferenced : bool) : RM unit :=
  assert_isa this false ;;
  do oldRefcnt <- refcnt_get this;
  assert_no_flags oldRefcnt ;;
  let '(refcnt, carry) := addc oldRefcnt (u64 (Z.shiftl extra SIDE_TABLE_RC_SHIFT)) in
  let refcnt := if carry then SIDE_TABLE_RC_PINNED else refcnt in
  let refcnt := if isDeallocating then Z.lor refcnt SIDE_TABLE_DEALLOCATING else refcnt in
  let refcnt := if weaklyReferenced then Z.lor refcnt SIDE_TABLE_WEAKLY_REFERENCED else refcnt in
  refcnt_set this refcnt.

Definition sidetable_addExtraRC_nolock (this delta_rc : Z) : RM bool :=
  assert_isa this true ;;
  do oldRefcnt <- refcnt_get this;
  assert_no_flags oldRefcnt ;;
  if has oldRefcnt SIDE_TABLE_RC_PINNED then rret true else
  let '(newRefcnt, carry) := addc oldRefcnt (u64 (Z.shiftl delta_rc SIDE_TABLE_RC_SHIFT)) in
  if carry then refcnt_set this (Z.lor SIDE_TABLE_RC_PINNED (Z.land oldRefcnt SIDE_TABLE_FLAG_MASK)) ;; rret true
  else refcnt_set this newRefcnt ;; rret false.

Definition sidetable_subExtraRC_nolock (this delta_rc : Z) : RM Z :=
  assert_isa this true ;;
  do it <- refcnt_find this;
  match it with
  | None => rret 0
  | Some oldRefcnt =>
      if oldRefcnt =? 0 then rret 0 else
      assert_no_flags oldRefcnt ;;
      let newRefcnt := u64 (oldRefcnt - u64 (Z.shiftl delta_rc SIDE_TABLE_RC_SHIFT)) in
      rassert (newRefcnt <? oldRefcnt) ;;
      refcnt_set this newRefcnt ;;
      rret delta_rc
  end.

Definition sidetable_getExtraRC_nolock (this : Z) : RM Z :=
  assert_isa this true ;;
  do it <- refcnt_find this;
  rret (match it with None => 0 | Some v => Z.shiftr v SIDE_TABLE_RC_SHIFT end).

Definition sidetable_retain (this : Z) : RM Z :=
  assert_isa this false ;;
  sidetable_lock this ;;
  do v <- refcnt_get this;
  refcnt_set this (if has v SIDE_TABLE_RC_PINNED then v else u64 (v + SIDE_TABLE_RC_ONE)) ;;
  sidetable_unlock this ;;
  rret this.

Definition sidetable_tryRetain (this : Z) : RM bool :=
  assert_isa this false ;;
  do it <- refcnt_find this;
  match it with
  | None => refcnt_set this SIDE_TABLE_RC_ONE ;; rret true
  | Some v =>
      if has v SIDE_TABLE_DEALLOCATING then rret false
      else if negb (has v SIDE_TABLE_RC_PINNED) then refcnt_set this (u64 (v + SIDE_TABLE_RC_ONE)) ;; rret true
      else rret true
  end.

Definition sidetable_retainCount (this : Z) : RM Z :=
  sidetable_lock this ;;
  do it <- refcnt_find this;
  sidetable_unlock this ;;
  rret (match it with None => 1 | Some v => u64 (1 + Z.shiftr v SIDE_TABLE_RC_SHIFT) end).

Definition sidetable_isDeallocating (this : Z) : RM bool :=
  do it <- refcnt_find this;
  rret (match it with None => false | Some v => has v SIDE_TABLE_DEALLOCATING end).

Definition sidetable_isWeaklyReferenced (this : Z) : RM bool :=
  sidetable_lock this ;;
  do it <- refcnt_find this;
  sidetable_unlock this ;;
  rret (match it with None => false | Some v => has v SIDE_TABLE_WEAKLY_REFERENCED end).

Definition sidetable_setWeaklyReferenced_nolock (this : Z) : RM unit :=
  assert_isa this false ;;
  do v <- refcnt_get this;
  refcnt_set this (Z.lor v SIDE_TABLE_WEAKLY_REFERENCED).

Definition sidetable_release (this : Z) (performDealloc : bool) : RM bool :=
  assert_isa this false ;;
  sidetable_lock this ;;
  do it <- refcnt_find this;
  do do_dealloc <- match it with
    | None => refcnt_set this SIDE_TABLE_DEALLOCATING ;; rret true
    | Some v =>
        if v <? SIDE_TABLE_DEALLOCATING then refcnt_set this (Z.lor v SIDE_TABLE_DEALLOCATING) ;; rret true
        else if negb (has v SIDE_TABLE_RC_PINNED) then refcnt_set this (u64 (v - SIDE_TABLE_RC_ONE)) ;; rret false
        else rret false
    end;
  sidetable_unlock this ;;
  (if do_dealloc && performDealloc then notify (N_dealloc this) else rret tt) ;;
  rret do_dealloc.

(** ** Retain and release (objc-object.h)

    [fuel] bounds the rounds of the loops; every round but three follows a store
    that failed. *)

Fixpoint rootRetain_loop (fuel : nat) (this : Z) (tryRetain handleOverflow sideTableLocked : bool) : RM Z :=
  match fuel with
  | O => rtimeout
  | S fuel' =>
      do oldisa <- LoadExclusive this;
      if negb (nonpointer oldisa) then
        unlock_if (negb tryRetain && sideTableLocked) this ;;
        (if tryRetain then do ok <- sidetable_tryRetain this; rret (if ok : bool then this else 0)
         else sidetable_retain this)
      else if tryRetain && deallocating a oldisa then
        unlock_if (negb tryRetain && sideTableLocked) this ;; rret 0
      else
        let '(bits, carry) := addc oldisa (RC_ONE a) in
        if carry && negb handleOverflow then rootRetain_loop fuel' this tryRetain true false
        else
          (if carry && negb tryRetain && negb sideTableLocked then sidetable_lock this else rret tt) ;;
          let sideTableLocked := sideTableLocked || carry in
          let newisa := if carry then set_has_sidetable_rc a true (set_extra_rc a (RC_HALF a) bits) else bits in
          do stored <- StoreExclusive this newisa;
          if negb stored then rootRetain_loop fuel' this tryRetain handleOverflow sideTableLocked
          else
            (if carry then sidetable_addExtraRC_nolock this (RC_HALF a) ;; rret tt else rret tt) ;;
            unlock_if (negb tryRetain && sideTableLocked) this ;;
            rret this
  end.

Definition rootRetain_with (fuel : nat) (this : Z) (tryRetain handleOverflow : bool) : RM Z :=
  if isTaggedPointer this then rret this else rootRetain_loop fuel this tryRetain handleOverflow false.

Definition rootRetain (fuel : nat) (this : Z) : RM Z := rootRetain_with fuel this false false.

Definition rootTryRetain (fuel : nat) (this : Z) : RM bool :=
  do r <- rootRetain_with fuel this true false; rret (negb (r =? 0)).

(** From the comment "Really deallocate". *)
Definition really_deallocate (retry : bool -> RM bool) (this newisa : Z) (performDealloc sideTableLocked : bool) : RM bool :=
  if deallocating a newisa then
    unlock_if sideTableLocked this ;; notify (N_overrelease this) ;; rret false
  else
    do stored <- StoreExclusive this (set_deallocating a true newisa);
    if negb stored then retry sideTableLocked
    else
      unlock_if sideTableLocked this ;;
      (if performDealloc then notify (N_dealloc this) else rret tt) ;;
      rret true.

(** The borrowed counts go into the inline count; a second attempt follows a failed
    store at once. *)
Definition store_borrowed (this oldisa borrowed : Z) : RM bool :=
  do stored <- StoreExclusive this (set_extra_rc a (borrowed - 1) oldisa);
  if stored : bool then rret true else
  do oldisa2 <- LoadExclusive this;
  if negb (nonpointer oldisa2) then rret false else
  let '(bits2, overflow) := addc oldisa2 (u64 (RC_ONE a * (borrowed - 1))) in
  if overflow then rret false else StoreExclusive this bits2.

Fixpoint rootRelease_loop (fuel : nat) (this : Z) (performDealloc handleUnderflow sideTableLocked : bool) : RM bool :=
  match fuel with
  | O => rtimeout
  | S fuel' =>
      let retry := rootRelease_loop fuel' this performDealloc handleUnderflow in
      do oldisa <- LoadExclusive this;
      if negb (nonpointer oldisa) then
        unlock_if sideTableLocked this ;; sidetable_release this performDealloc
      else
        let '(bits, carry) := subc oldisa (RC_ONE a) in
        if negb carry then
          do stored <- StoreExclusive this bits;
          if negb stored then retry sideTableLocked
          else unlock_if sideTableLocked this ;; rret false
        else if has_sidetable_rc a oldisa then
          if negb handleUnderflow then rootRelease_loop fuel' this performDealloc true false
          else if negb sideTableLocked then sidetable_lock this ;; retry true
          else
            do borrowed <- sidetable_subExtraRC_nolock this (RC_HALF a);
            if 0 <? borrowed then
              do stored <- store_borrowed this oldisa borrowed;
              if negb stored then sidetable_addExtraRC_nolock this borrowed ;; retry sideTableLocked
              else sidetable_unlock this ;; rret false
            else really_deallocate retry this oldisa performDealloc sideTableLocked
        else really_deallocate retry this oldisa performDealloc sideTableLocked
  end.

Definition rootRelease_with (fuel : nat) (this : Z) (performDealloc handleUnderflow : bool) : RM bool :=
  if isTaggedPointer this then rret false else rootRelease_loop fuel this performDealloc handleUnderflow false.

Definition rootRelease (fuel : nat) (this : Z) : RM bool := rootRelease_with fuel this true false.
Definition rootReleaseShouldDealloc (fuel : nat) (this : Z) : RM bool := rootRelease_with fuel this false false.

Definition rootRetainCount (this : Z) : RM Z :=
  if isTaggedPointer this then rret this else
  sidetable_lock this ;;
  do bits <- LoadExclusive this;
  if nonpointer bits then
    let rc := 1 + extra_rc a bits in
    do rc <- (if has_sidetable_rc a bits then do e <- sidetable_getExtraRC_nolock this; rret (u64 (rc + e)) else rret rc);
    sidetable_unlock this ;; rret rc
  else sidetable_unlock this ;; sidetable_retainCount this.

(** ** The other operations on isa *)

(** What these functions ask of a class.  The option [DisableNonpointerIsa] is off. *)
Record class_info := mk_class_info {
  cls_addr : Z;
  cls_hasCxxDtor : bool;
  cls_isFuture : bool;
  cls_requireRawIsa : bool }.

(** Callers ask this of classes that are not future classes. *)
Definition cls_canAllocNonpointer (cls : class_info) : bool := negb (cls_requireRawIsa cls).

Definition set_isa_bits (this bits : Z) : RM unit :=
  fun s => Ret (tt, mk_rcs (<[this := bits]> (isas s)) (refcnts s) (held s) (stores s) (notices s)).

Definition ISA (this : Z) : RM Z :=
  rassert (negb (isTaggedPointer this)) ;;
  do bits <- LoadExclusive this;
  rret (Z.land bits (ISA_MASK a)).

Definition packed_isa (cls : class_info) (hasCxxDtor : bool) (bits : Z) : Z :=
  set_shiftcls a (Z.shiftr (cls_addr cls) 3) (set_has_cxx_dtor hasCxxDtor bits).

Definition initIsa (this : Z) (cls : class_info) (np hasCxxDtor : bool) : RM unit :=
  rassert (negb (isTaggedPointer this)) ;;
  (if np then rassert (negb (cls_requireRawIsa cls)) else rret tt) ;;
  set_isa_bits this (if np then packed_isa cls hasCxxDtor (ISA_MAGIC_VALUE a) else cls_addr cls).

Definition initClassIsa (this : Z) (cls : class_info) : RM unit :=
  initIsa this cls (negb (cls_requireRawIsa cls)) false.

Definition initInstanceIsa (this : Z) (cls : class_info) (hasCxxDtor : bool) : RM unit :=
  rassert (negb (cls_requireRawIsa cls)) ;;
  rassert (Bool.eqb hasCxxDtor (cls_hasCxxDtor cls)) ;;
  initIsa this cls true hasCxxDtor.

(** The loop of [changeIsa]; the result is the old class. *)
Fixpoint changeIsa_loop (fuel : nat) (this : Z) (newCls : class_info) (sideTableLocked : bool) : RM Z :=
  match fuel with
  | O => rtimeout
  | S fuel' =>
      do oldisa <- LoadExclusive this;
      let stay := ((oldisa =? 0) || nonpointer oldisa) && negb (cls_isFuture newCls) && cls_canAllocNonpointer newCls in
      let transcribe := negb stay && nonpointer oldisa in
      let newisa := if stay then packed_isa newCls (cls_hasCxxDtor newCls) (if oldisa =? 0 then ISA_MAGIC_VALUE a else oldisa) else cls_addr newCls in
      (if transcribe && negb sideTableLocked then sidetable_lock this else rret tt) ;;
      let sideTableLocked := sideTableLocked || transcribe in
      do stored <- StoreExclusive this newisa;
      if negb stored then changeIsa_loop fuel' this newCls sideTableLocked
      else
        (if transcribe then
           sidetable_moveExtraRC_nolock this (extra_rc a oldisa) (deallocating a oldisa) (weakly_referenced a oldisa)
         else rret tt) ;;
        unlock_if sideTableLocked this ;;
        rret (if nonpointer oldisa then Z.shiftl (shiftcls a oldisa) 3 else oldisa)
  end.

Definition changeIsa (fuel : nat) (this : Z) (newCls : class_info) : RM Z :=
  rassert (negb (isTaggedPointer this)) ;; changeIsa_loop fuel this newCls false.

Definition hasAssociatedObjects (this : Z) : RM bool :=
  if isTaggedPointer this then rret true else
  do bits <- LoadExclusive this; rret (if nonpointer bits then has_assoc bits else true).

Fixpoint setHasAssociatedObjects_loop (fuel : nat) (this : Z) : RM unit :=
  match fuel with
  | O => rtimeout
  | S fuel' =>
      do oldisa <- LoadExclusive this;
      if negb (nonpointer oldisa) || has_assoc oldisa then rret tt else
      do stored <- StoreExclusive this (set_has_assoc true oldisa);
      if negb stored then setHasAssociatedObjects_loop fuel' this else rret tt
  end.
Definition setHasAssociatedObjects (fuel : nat) (this : Z) : RM unit :=
  if isTaggedPointer this then rret tt else setHasAssociatedObjects_loop fuel this.

Definition isWeaklyReferenced (this : Z) : RM bool :=
  rassert (negb (isTaggedPointer this)) ;;
  do bits <- LoadExclusive this;
  if nonpointer bits then rret (weakly_referenced a bits) else sidetable_isWeaklyReferenced this.

Fixpoint setWeaklyReferenced_nolock (fuel : nat) (this : Z) : RM unit :=
  match fuel with
  | O => rtimeout
  | S fuel' =>
      do oldisa <- LoadExclusive this;
      if negb (nonpointer oldisa) then sidetable_setWeaklyReferenced_nolock this else
      if weakly_referenced a oldisa then rret tt else
      do stored <- StoreExclusive this (set_weakly_referenced a true oldisa);
      if negb stored then setWeaklyReferenced_nolock fuel' this else rret tt
  end.

Definition rootIsDeallocating (this : Z) : RM bool :=
  if isTaggedPointer this then rret false else
  do bits <- LoadExclusive this;
  if nonpointer bits then rret (deallocating a bits) else sidetable_isDeallocating this.

End Arch.
