(* ===== verification/RetainCountSpec.v ===== *)
(** * What retain and release guarantee

    The inline count and the side table together behave as one counter: retain
    adds one, release takes one away or starts deallocation, through every
    overflow, borrow and failed store. *)

From Stdlib Require Import ZArith Lia Bool.
From stdpp Require Import base list gmap.
From S2P Require Import Prelude RetainCount.

Local Open Scope Z_scope.
Local Open Scope rc_scope.

Lemma rbnd_Ret {A B} (c : RM A) (k : A -> RM B) s x s' : c s = Ret (x, s') -> rbnd c k s = k x s'.
Proof. intros He. unfold rbnd. by rewrite He. Qed.

Tactic Notation "rstep" uconstr(H) := rewrite (rbnd_Ret _ _ _ _ _ H).

(** ** The packed fields *)

Section Spec.
Context (a : arch).

Definition isa_ok (bits : Z) : Prop := 0 <= bits < 2 ^ 64.
Definition low (bits : Z) : Z := bits mod 2 ^ rc_shift a.

Lemma isa_split bits : bits = low bits + extra_rc a bits * 2 ^ rc_shift a.
Proof.
  unfold low, extra_rc. rewrite Z.shiftr_div_pow2 by (destruct a; simpl; lia).
  rewrite (Z.div_mod bits (2 ^ rc_shift a)) at 1 by (destruct a; discriminate). lia.
Qed.

Lemma isa_parts l e : 0 <= l < 2 ^ rc_shift a ->
  low (l + e * 2 ^ rc_shift a) = l /\ extra_rc a (l + e * 2 ^ rc_shift a) = e.
Proof.
  intros Hl. assert (0 < 2 ^ rc_shift a) by lia. unfold low, extra_rc.
  rewrite Z.shiftr_div_pow2 by (destruct a; simpl; lia). rewrite Z.mod_add, Z.div_add by lia.
  rewrite Z.mod_small, Z.div_small by lia. lia.
Qed.

Lemma low_range bits : 0 <= low bits < 2 ^ rc_shift a.
Proof. apply Z.mod_pos_bound. destruct a; reflexivity. Qed.

Lemma extra_range bits : isa_ok bits -> 0 <= extra_rc a bits < 2 ^ rc_bits a.
Proof.
  intros Hb. pose proof (low_range bits) as Hl. pose proof (isa_split bits) as Hs. unfold isa_ok in Hb.
  destruct a; simpl rc_shift in *; simpl rc_bits; lia.
Qed.

Lemma isa_ok_parts l e : 0 <= l < 2 ^ rc_shift a -> 0 <= e < 2 ^ rc_bits a -> isa_ok (l + e * 2 ^ rc_shift a).
Proof. unfold isa_ok. destruct a; simpl rc_shift; simpl rc_bits; lia. Qed.

(** The flags are in the low part. *)
Lemma testbit_low bits i : 0 <= i < rc_shift a -> Z.testbit bits i = Z.testbit (low bits) i.
Proof. intros Hi. unfold low. symmetry. apply Z.mod_pow2_bits_low. lia. Qed.

Lemma low_flags bits bits' : low bits = low bits' ->
  nonpointer bits = nonpointer bits' /\ has_assoc bits = has_assoc bits' /\ has_cxx_dtor bits = has_cxx_dtor bits' /\
  weakly_referenced a bits = weakly_referenced a bits' /\ deallocating a bits = deallocating a bits' /\
  has_sidetable_rc a bits = has_sidetable_rc a bits'.
Proof.
  intros Hl. unfold nonpointer, has_assoc, has_cxx_dtor, weakly_referenced, deallocating, has_sidetable_rc.
  split_and!; rewrite testbit_low, Hl, <- testbit_low by (destruct a; simpl; lia); reflexivity.
Qed.

(** Adding and taking one count. *)
Lemma addc_isa bits : isa_ok bits ->
  addc bits (RC_ONE a)
  = if extra_rc a bits + 1 =? 2 ^ rc_bits a then (low bits, true) else (bits + RC_ONE a, false).
Proof.
  intros Hb. pose proof (extra_range bits Hb) as He. pose proof (low_range bits) as Hl. pose proof (isa_split bits) as Hs.
  unfold isa_ok, addc, RC_ONE, wrap in *. destruct (_ =? _) eqn:E; zbool.
  - f_equal; [|apply Z.leb_le; destruct a; simpl rc_shift in *; simpl rc_bits in *; lia].
    replace (bits + 2 ^ rc_shift a) with (low bits + 1 * 2 ^ 64) by (destruct a; simpl rc_shift in *; simpl rc_bits in *; lia).
    rewrite Z.mod_add by lia. apply Z.mod_small. destruct a; simpl rc_shift in *; lia.
  - f_equal; [apply Z.mod_small|apply Z.leb_gt]; destruct a; simpl rc_shift in *; simpl rc_bits in *; lia.
Qed.

Lemma add_one bits : low (bits + RC_ONE a) = low bits /\ extra_rc a (bits + RC_ONE a) = extra_rc a bits + 1.
Proof.
  pose proof (isa_parts (low bits) (extra_rc a bits + 1) (low_range bits)) as H.
  replace (low bits + (extra_rc a bits + 1) * 2 ^ rc_shift a) with (bits + RC_ONE a) in H; [exact H|].
  rewrite (isa_split bits) at 1. unfold RC_ONE. lia.
Qed.

Lemma subc_isa bits : isa_ok bits ->
  subc bits (RC_ONE a) = (if extra_rc a bits =? 0 then u64 (bits - RC_ONE a) else bits - RC_ONE a, extra_rc a bits =? 0).
Proof.
  intros Hb. pose proof (extra_range bits Hb) as He. pose proof (low_range bits) as Hl. pose proof (isa_split bits) as Hs.
  unfold isa_ok, subc, RC_ONE in *. destruct (extra_rc a bits =? 0) eqn:E; zbool.
  - f_equal. apply Z.ltb_lt. destruct a; simpl rc_shift in *; lia.
  - f_equal; [apply wrap_id; unfold in_u|apply Z.ltb_ge]; destruct a; simpl rc_shift in *; simpl rc_bits in *; lia.
Qed.

Lemma sub_one bits : low (bits - RC_ONE a) = low bits /\ extra_rc a (bits - RC_ONE a) = extra_rc a bits - 1.
Proof.
  pose proof (isa_parts (low bits) (extra_rc a bits - 1) (low_range bits)) as H.
  replace (low bits + (extra_rc a bits - 1) * 2 ^ rc_shift a) with (bits - RC_ONE a) in H; [exact H|].
  rewrite (isa_split bits) at 1. unfold RC_ONE. lia.
Qed.

Lemma set_extra_spec v bits : 0 <= v < 2 ^ rc_bits a ->
  low (set_extra_rc a v bits) = low bits /\ extra_rc a (set_extra_rc a v bits) = v /\ isa_ok (set_extra_rc a v bits).
Proof.
  intros Hv. unfold set_extra_rc. rewrite Z.mod_small with (a := v) by done. fold (low bits).
  destruct (isa_parts (low bits) v (low_range bits)) as [H1 H2]. split_and!; [done|done|].
  apply isa_ok_parts; [apply low_range|done].
Qed.

Lemma parts_testbit l e j : 0 <= l < 2 ^ rc_shift a -> 0 <= j ->
  Z.testbit (l + e * 2 ^ rc_shift a) j = if j <? rc_shift a then Z.testbit l j else Z.testbit e (j - rc_shift a).
Proof.
  intros Hl Hj. assert (Hs : 0 <= rc_shift a) by (destruct a; simpl; lia). destruct (j <? rc_shift a) eqn:E; zbool.
  - rewrite <- (Z.mod_pow2_bits_low (l + _) (rc_shift a) j) by lia. rewrite Z.mod_add, Z.mod_small by lia. done.
  - replace j with (j - rc_shift a + rc_shift a) at 1 by lia. rewrite <- Z.div_pow2_bits by lia.
    rewrite Z.div_add, Z.div_small by lia. done.
Qed.

(** Setting a flag below the count. *)
Lemma set_bit_spec i bits : 0 <= i < rc_shift a -> isa_ok bits ->
  isa_ok (set_bit i true bits) /\ extra_rc a (set_bit i true bits) = extra_rc a bits /\
  low (set_bit i true bits) = Z.setbit (low bits) i.
Proof.
  intros Hi Hb. unfold set_bit.
  assert (Hsl : 0 <= Z.setbit (low bits) i < 2 ^ rc_shift a).
  { pose proof (low_range bits) as Hl. rewrite Z.setbit_spec'. split; [apply Z.lor_nonneg; lia|].
    apply Z.log2_lt_cancel. rewrite Z.log2_lor by lia. rewrite !Z.log2_pow2 by lia.
    apply Z.max_lub_lt; [|lia]. destruct (decide (low bits = 0)) as [->|]; [simpl; lia|]. apply Z.log2_lt_pow2; lia. }
  assert (He : Z.setbit bits i = Z.setbit (low bits) i + extra_rc a bits * 2 ^ rc_shift a).
  { rewrite (isa_split bits) at 1. pose proof (low_range bits) as Hl.
    apply Z.bits_inj'. intros j Hj. rewrite Z.setbit_eqb by lia. rewrite !parts_testbit by done.
    destruct (j <? rc_shift a) eqn:E; zbool; [by rewrite Z.setbit_eqb by lia|].
    by replace (i =? j) with false by (symmetry; apply Z.eqb_neq; lia). }
  rewrite He. destruct (isa_parts (Z.setbit (low bits) i) (extra_rc a bits) Hsl) as [H1 H2].
  split_and!; [|done|done]. apply isa_ok_parts; [done|by apply extra_range].
Qed.

Lemma set_bit_testbit i j bits : 0 <= i < rc_shift a -> 0 <= j < rc_shift a -> isa_ok bits ->
  Z.testbit (set_bit i true bits) j = (i =? j) || Z.testbit bits j.
Proof. intros Hi Hj Hb. unfold set_bit. by rewrite Z.setbit_eqb by lia. Qed.

(** ** Steps on the state *)

Definition with_isa (s : rcs) (this bits : Z) : rcs :=
  mk_rcs (<[this := bits]> (isas s)) (refcnts s) (held s) (stores s) (notices s).
Definition with_cnt (s : rcs) (this v : Z) : rcs :=
  mk_rcs (isas s) (<[this := v]> (refcnts s)) (held s) (stores s) (notices s).
Definition with_held (s : rcs) (h : gset Z) : rcs := mk_rcs (isas s) (refcnts s) h (stores s) (notices s).
Definition with_stores (s : rcs) (l : list bool) : rcs := mk_rcs (isas s) (refcnts s) (held s) l (notices s).
Definition with_notice (s : rcs) (n : notice) : rcs := mk_rcs (isas s) (refcnts s) (held s) (stores s) (n :: notices s).

Lemma rc_load s this bits : isas s !! this = Some bits -> LoadExclusive this s = Ret (bits, s).
Proof. intros H. unfold LoadExclusive. by rewrite H. Qed.

(** A store fails, using up one outcome, or succeeds. *)
Lemma store_cases s this old v : isas s !! this = Some old ->
  (exists rest, stores s = false :: rest /\ StoreExclusive this v s = Ret (false, with_stores s rest)) \/
  StoreExclusive this v s = Ret (true, with_stores (with_isa s this v) (tail (stores s))).
Proof.
  intros H. unfold StoreExclusive. rewrite H. destruct (stores s) as [|[] rest] eqn:E; [by right|by right|left; eauto].
Qed.

Lemma lock_step s this : indexForPointer a this ∉ held s ->
  sidetable_lock a this s = Ret (tt, with_held s ({[indexForPointer a this]} ∪ held s)).
Proof. intros H. unfold sidetable_lock, lock_stripe. by rewrite decide_False. Qed.

Lemma unlock_step s this h : indexForPointer a this ∉ h -> held s = {[indexForPointer a this]} ∪ h ->
  sidetable_unlock a this s = Ret (tt, with_held s h).
Proof.
  intros Hn Hh. unfold sidetable_unlock, unlock_stripe. rewrite decide_True by set_solver.
  do 2 f_equal. unfold with_held. f_equal. rewrite Hh. set_solver.
Qed.

(** ** An object with a packed isa *)

(** Its first word, and its entry in the side table: a multiple of what an overflow
    moves, present only if the isa says so. *)
Record counted (s : rcs) (this bits side : Z) : Prop := mk_counted {
  c_isa : isas s !! this = Some bits;
  c_ok : isa_ok bits;
  c_np : nonpointer bits = true;
  c_side : default 0 (refcnts s !! this) = side;
  c_mult : side mod (4 * RC_HALF a) = 0;
  c_range : 0 <= side < 2 ^ 63;
  c_flag : side <> 0 -> has_sidetable_rc a bits = true }.

(** The retain count without the first. *)
Definition count (bits side : Z) : Z := extra_rc a bits + side / 4.

Lemma side_mod_4 side : side mod (4 * RC_HALF a) = 0 -> side mod 4 = 0.
Proof.
  intros H. apply Z.mod_divide in H; [|destruct a; discriminate]. destruct H as [k Hk]. apply Z.mod_divide; [lia|].
  exists (k * RC_HALF a). lia.
Qed.

Lemma land_low v i : 0 <= i < 2 -> v mod 4 = 0 -> Z.land v (2 ^ i) = 0.
Proof.
  intros Hi Hv. apply Z.bits_inj'. intros j Hj. rewrite Z.land_spec, Z.bits_0, Z.pow2_bits_eqb by lia.
  destruct (i =? j) eqn:E; zbool; [subst j|by rewrite andb_false_r].
  rewrite <- (Z.mod_pow2_bits_low v 2 i) by lia. change (2 ^ 2) with 4. by rewrite Hv, Z.bits_0.
Qed.

Lemma no_flags_step s v : v mod 4 = 0 -> assert_no_flags v s = Ret (tt, s).
Proof.
  intros Hv. unfold assert_no_flags, has, SIDE_TABLE_DEALLOCATING, SIDE_TABLE_WEAKLY_REFERENCED.
  change (Z.shiftl 1 1) with (2 ^ 1). change (Z.shiftl 1 0) with (2 ^ 0). by rewrite !land_low by (done || lia).
Qed.

Lemma not_pinned v : 0 <= v < 2 ^ 63 -> has v SIDE_TABLE_RC_PINNED = false.
Proof.
  intros Hv. unfold has, SIDE_TABLE_RC_PINNED. apply negb_false_iff, Z.eqb_eq.
  apply Z.bits_inj'. intros j Hj. rewrite Z.land_spec, Z.bits_0. change (Z.shiftl 1 63) with (2 ^ 63).
  rewrite Z.pow2_bits_eqb by lia. destruct (63 =? j) eqn:E; zbool; [subst j|by rewrite andb_false_r].
  rewrite <- (Z.mod_small v (2 ^ 63)) by done. by rewrite Z.mod_pow2_bits_high by lia.
Qed.

Lemma half_range : 0 < RC_HALF a < 2 ^ 20 /\ 2 * RC_HALF a = 2 ^ rc_bits a.
Proof. destruct a; split; reflexivity || (split; reflexivity). Qed.

Lemma assert_isa_step s this bits : isas s !! this = Some bits ->
  assert_isa this (nonpointer bits) s = Ret (tt, s).
Proof. intros H. unfold assert_isa. rstep (rc_load s this bits H). by destruct (nonpointer bits). Qed.

(** Half of the inline counts into the side table, or back. *)
Lemma addExtraRC_step s this bits side : counted s this bits side -> side + 4 * RC_HALF a < 2 ^ 63 ->
  sidetable_addExtraRC_nolock this (RC_HALF a) s = Ret (false, with_cnt s this (side + 4 * RC_HALF a)).
Proof.
  intros [H1 H2 H3 H4 H5 H6 H7] Hr. pose proof half_range as [Hh _]. unfold sidetable_addExtraRC_nolock. rewrite <- H3.
  rstep (assert_isa_step s this bits H1). rewrite (rbnd_Ret _ _ s side s) by (unfold refcnt_get; by rewrite H4).
  rstep (no_flags_step s side (side_mod_4 side H5)). rewrite not_pinned by done.
  unfold SIDE_TABLE_RC_SHIFT. rewrite Z.shiftl_mul_pow2 by lia. change (2 ^ 2) with 4.
  rewrite (wrap_id 64 (RC_HALF a * 4)) by (unfold in_u; lia). unfold addc.
  replace (2 ^ 64 <=? side + RC_HALF a * 4) with false by (symmetry; apply Z.leb_gt; lia). cbv iota.
  rewrite wrap_id by (unfold in_u; lia). by replace (side + RC_HALF a * 4) with (side + 4 * RC_HALF a) by lia.
Qed.

Lemma subExtraRC_step s this bits side : counted s this bits side ->
  sidetable_subExtraRC_nolock this (RC_HALF a) s
  = if side =? 0 then Ret (0, s) else Ret (RC_HALF a, with_cnt s this (side - 4 * RC_HALF a)).
Proof.
  intros [H1 H2 H3 H4 H5 H6 H7]. pose proof half_range as [Hh _]. unfold sidetable_subExtraRC_nolock. rewrite <- H3.
  rstep (assert_isa_step s this bits H1). unfold refcnt_find, rbnd at 1.
  destruct (refcnts s !! this) as [v|]; simpl in H4; subst; [|done].
  destruct (side =? 0) eqn:E; zbool; [done|]. rstep (no_flags_step s side (side_mod_4 side H5)).
  assert (Hge : 4 * RC_HALF a <= side).
  { apply Z.mod_divide in H5 as [k Hk]; [|lia]. destruct (Z.le_gt_cases k 0); nia. }
  unfold SIDE_TABLE_RC_SHIFT. rewrite Z.shiftl_mul_pow2 by lia. change (2 ^ 2) with 4.
  rewrite (wrap_id 64 (RC_HALF a * 4)) by (unfold in_u; lia). rewrite wrap_id by (unfold in_u; lia).
  replace (side - RC_HALF a * 4) with (side - 4 * RC_HALF a) by lia. unfold rassert.
  by replace (side - 4 * RC_HALF a <? side) with true by (symmetry; apply Z.ltb_lt; lia).
Qed.

(** ** Retain *)

(** What an operation on [this] leaves alone: the other objects; and it only uses up outcomes of stores. *)
Definition frame (this : Z) (s s' : rcs) : Prop :=
  (forall o, o <> this -> isas s' !! o = isas s !! o /\ refcnts s' !! o = refcnts s !! o) /\
  (length (stores s') <= length (stores s))%nat.

#[export] Instance frame_preorder this : PreOrder (frame this).
Proof.
  split; [intros s; by split|]. intros s1 s2 s3 [F1 L1] [F2 L2]. split; [|lia].
  intros o Ho. destruct (F1 o Ho) as [A1 B1], (F2 o Ho) as [A2 B2]. by rewrite A2, B2.
Qed.

Lemma frame_same this s s' : isas s' = isas s -> refcnts s' = refcnts s -> (length (stores s') <= length (stores s))%nat ->
  frame this s s'.
Proof. intros Hi Hr Hl. split; [|done]. by rewrite Hi, Hr. Qed.

(** The flags of the isa but the one for the side table. *)
Definition flags_kept (bits bits' : Z) : Prop :=
  low bits' = low bits \/ low bits' = Z.setbit (low bits) (rc_shift a - 1).

Lemma flags_kept_spec bits bits' : flags_kept bits bits' ->
  nonpointer bits' = nonpointer bits /\ deallocating a bits' = deallocating a bits /\
  weakly_referenced a bits' = weakly_referenced a bits /\ (has_sidetable_rc a bits = true -> has_sidetable_rc a bits' = true).
Proof.
  unfold nonpointer, deallocating, weakly_referenced, has_sidetable_rc.
  intros H. rewrite !(testbit_low bits), !(testbit_low bits') by (destruct a; simpl; lia).
  destruct H as [H|H]; rewrite H; [tauto|]. rewrite !Z.setbit_eqb by (destruct a; simpl; lia).
  split_and!; [destruct a; reflexivity..|]. intros _. rewrite Z.eqb_refl. done.
Qed.

Lemma counted_same s s' this bits side : counted s this bits side -> isas s' = isas s -> refcnts s' = refcnts s ->
  counted s' this bits side.
Proof. intros [H1 H2 H3 H4 H5 H6 H7] Hi Hr. constructor; try done; [by rewrite Hi|by rewrite Hr]. Qed.

Lemma counted_isa s this bits side bits' l : counted s this bits side -> isa_ok bits' -> nonpointer bits' = true ->
  (side <> 0 -> has_sidetable_rc a bits' = true) -> counted (with_stores (with_isa s this bits') l) this bits' side.
Proof. intros [H1 H2 H3 H4 H5 H6 H7] Ho Hn Hf. constructor; try done. simpl. by rewrite lookup_insert_eq. Qed.

Lemma counted_cnt s this bits side side' : counted s this bits side -> side' mod (4 * RC_HALF a) = 0 -> 0 <= side' < 2 ^ 63 ->
  (side' <> 0 -> has_sidetable_rc a bits = true) -> counted (with_cnt s this side') this bits side'.
Proof. intros [H1 H2 H3 H4 H5 H6 H7] Hm Hr Hf. constructor; try done. simpl. by rewrite lookup_insert_eq. Qed.

Lemma frame_isa this s bits : frame this s (with_stores (with_isa s this bits) (tail (stores s))).
Proof. split; [|simpl; destruct (stores s); simpl; lia]. intros o Ho. simpl. by rewrite lookup_insert_ne. Qed.

Lemma frame_cnt this s s' v : frame this s s' -> frame this s (with_cnt s' this v).
Proof. intros [Hf Hl]. split; [|done]. intros o Ho. destruct (Hf o Ho) as [H1 H2]. simpl. by rewrite lookup_insert_ne. Qed.

(** The new isa of a retain: one more inline, or half of the counts inline and the rest to move. *)
Lemma retain_isa bits : isa_ok bits -> nonpointer bits = true ->
  let '(b, carry) := addc bits (RC_ONE a) in
  let bits' := if carry : bool then set_has_sidetable_rc a true (set_extra_rc a (RC_HALF a) b) else b in
  isa_ok bits' /\ flags_kept bits bits' /\
  (if carry : bool then has_sidetable_rc a bits' = true else True) /\
  extra_rc a bits' + (if carry : bool then RC_HALF a else 0) = extra_rc a bits + 1.
Proof.
  intros Hb Hn. pose proof half_range as [Hh Hh2]. pose proof (extra_range bits Hb) as He.
  rewrite addc_isa by done. destruct (_ =? _) eqn:E; zbool.
  - destruct (set_extra_spec (RC_HALF a) (low bits)) as (Hl & Hx & Hok); [lia|].
    assert (Hi : 0 <= rc_shift a - 1 < rc_shift a) by (destruct a; simpl; lia).
    destruct (set_bit_spec (rc_shift a - 1) _ Hi Hok) as (Hok' & Hx' & Hl').
    assert (Hll : low (low bits) = low bits) by (unfold low; apply Zmod_mod).
    unfold set_has_sidetable_rc. split_and!; [exact Hok'|right; by rewrite Hl', Hl, Hll| |lia].
    unfold has_sidetable_rc. rewrite set_bit_testbit by done. by rewrite Z.eqb_refl.
  - destruct (add_one bits) as [Hl Hx]. split_and!; [|by left|done|lia].
    rewrite (isa_split bits). unfold RC_ONE.
    replace (low bits + extra_rc a bits * 2 ^ rc_shift a + 2 ^ rc_shift a) with
      (low bits + (extra_rc a bits + 1) * 2 ^ rc_shift a) by lia.
    apply isa_ok_parts; [apply low_range|lia].
Qed.

(** One object, one more reference: the loop of [rootRetain] from any of its states.  [h] are the
    locks that the caller holds. *)
Lemma retain_loop_spec fuel this tryRetain ho lk s bits side (h : gset Z) :
  counted s this bits side -> side + 4 * RC_HALF a < 2 ^ 63 ->
  (tryRetain = true -> deallocating a bits = false) ->
  (tryRetain = false -> indexForPointer a this ∉ h) ->
  held s = (if negb tryRetain && lk then {[indexForPointer a this]} ∪ h else h) ->
  (ho = false -> lk = false) -> (length (stores s) + (if ho then 0 else 1) < fuel)%nat ->
  exists s' bits' side', rootRetain_loop a fuel this tryRetain ho lk s = Ret (this, s') /\
    counted s' this bits' side' /\ count bits' side' = count bits side + 1 /\ side' <= side + 4 * RC_HALF a /\
    flags_kept bits bits' /\ held s' = h /\ notices s' = notices s /\ frame this s s'.
Proof.
  revert s ho lk. induction fuel as [|fuel IH]; intros s ho lk Hc Hr Hd Hi Hh Hlk Hfuel; [lia|].
  pose proof Hc as [H1 H2 H3 H4 H5 H6 H7]. cbn [rootRetain_loop]. rstep (rc_load s this bits H1). rewrite H3. cbn [negb].
  replace (tryRetain && deallocating a bits) with false by (destruct tryRetain; [by rewrite Hd|done]).
  pose proof (retain_isa bits H2 H3) as Hisa. destruct (addc bits (RC_ONE a)) as [b carry].
  destruct Hisa as (Hok & Hfl & Hsd & Hex). destruct (flags_kept_spec _ _ Hfl) as (Hnp & _ & _ & Hsf). rewrite H3 in Hnp.
  destruct (carry && negb ho) eqn:Eov.
  { apply andb_true_iff in Eov as [-> ->%negb_true_iff]. rewrite (Hlk eq_refl) in *.
    apply IH; [done..| |lia|]; [by destruct tryRetain|simpl in *; lia]. }
  (* the lock is taken for an overflow *)
  set (lk' := lk || carry) in *.
  assert (Hlock : exists s1, (if carry && negb tryRetain && negb lk then sidetable_lock a this else rret tt) s = Ret (tt, s1) /\
    isas s1 = isas s /\ refcnts s1 = refcnts s /\ stores s1 = stores s /\ notices s1 = notices s /\
    held s1 = (if negb tryRetain && lk' then {[indexForPointer a this]} ∪ h else h)).
  { unfold lk'. destruct carry, tryRetain, lk; cbn [andb negb orb] in *; try (exists s; done).
    exists (with_held s ({[indexForPointer a this]} ∪ held s)). rewrite lock_step by (rewrite Hh; by apply Hi). by rewrite Hh. }
  destruct Hlock as (s1 & Hlock & Hi1 & Hr1 & Hs1 & Hn1 & Hh1). rstep Hlock.
  pose proof (counted_same s s1 this bits side Hc Hi1 Hr1) as Hc1.
  set (bits' := if carry then _ else _) in *.
  destruct (store_cases s1 this bits bits' (c_isa _ _ _ _ Hc1)) as [(rest & Hst & Hstore)|Hstore]; rstep Hstore; cbn [negb].
  - destruct (IH (with_stores s1 rest) ho lk') as (s' & b' & sd' & Hrun & Hrest); try done.
    + by apply (counted_same s1).
    + intros ->. unfold lk'. rewrite (Hlk eq_refl). rewrite andb_true_r in Eov. by rewrite Eov.
    + cbn [stores with_stores]. rewrite Hs1 in Hst. rewrite Hst in Hfuel. simpl in Hfuel. lia.
    + exists s', b', sd'. split; [exact Hrun|]. destruct Hrest as (A1 & A2 & A3 & A4 & A5 & A6 & A7). split_and!; try done.
      * by rewrite A6.
      * etrans; [|exact A7]. apply frame_same; [done..|]. simpl. rewrite <- Hs1, Hst. simpl. lia.
  - set (s2 := with_stores _ _).
    assert (Hc2 : counted s2 this bits' side).
    { apply (counted_isa s1 this bits); [done|done|done|]. intros Hne. apply Hsf, H7, Hne. }
    assert (Hf2 : frame this s s2) by (etrans; [|apply (frame_isa this s1 bits')]; apply frame_same; [done..|by rewrite Hs1]).
    assert (Hmove : exists s3 side3, (if carry then sidetable_addExtraRC_nolock this (RC_HALF a) ;; rret tt else rret tt) s2
        = Ret (tt, s3) /\ counted s3 this bits' side3 /\ side3 = side + (if carry then 4 * RC_HALF a else 0) /\
        held s3 = held s2 /\ notices s3 = notices s2 /\ frame this s s3).
    { destruct carry; [|exists s2, side; split_and!; try done; lia].
      exists (with_cnt s2 this (side + 4 * RC_HALF a)), (side + 4 * RC_HALF a). split_and!; try done.
      - by rstep (addExtraRC_step s2 this bits' side Hc2 Hr).
      - apply (counted_cnt s2 this bits' side); [done| |pose proof half_range; lia|done].
        replace (side + 4 * RC_HALF a) with (side + 1 * (4 * RC_HALF a)) by lia. rewrite Z.mod_add by (pose proof half_range; lia). done.
      - by apply frame_cnt. }
    destruct Hmove as (s3 & side3 & Hmove & Hc3 & Hside3 & Hh3 & Hn3 & Hf3). rstep Hmove.
    assert (Hun : unlock_if a (negb tryRetain && lk') this s3 = Ret (tt, with_held s3 h)).
    { unfold unlock_if. change (held s3 = held s1) in Hh3. rewrite Hh1 in Hh3. destruct (negb tryRetain && lk') eqn:El.
      - apply unlock_step; [|done]. apply Hi. by destruct tryRetain.
      - destruct s3; simpl in *. by subst. }
    rstep Hun. exists (with_held s3 h), bits', side3. split_and!; try done.
    + by apply (counted_same s3).
    + unfold count. subst side3. destruct carry; [|rewrite Z.add_0_r; lia].
      replace ((side + 4 * RC_HALF a) / 4) with (side / 4 + RC_HALF a); [lia|].
      rewrite (Z.mul_comm 4). by rewrite Z.div_add by lia.
    + subst side3. pose proof half_range. destruct carry; lia.
    + cbn [notices with_held]. by rewrite Hn3.
Qed.

(** ** Release *)

Lemma store_borrowed_spec s this bits : isas s !! this = Some bits -> isa_ok bits -> nonpointer bits = true -> extra_rc a bits = 0 ->
  (exists rest, (length rest < length (stores s))%nat /\
     store_borrowed a this bits (RC_HALF a) s = Ret (false, with_stores s rest)) \/
  (exists rest, (length rest <= length (stores s))%nat /\ store_borrowed a this bits (RC_HALF a) s
     = Ret (true, with_stores (with_isa s this (set_extra_rc a (RC_HALF a - 1) bits)) rest)).
Proof.
  intros H1 H2 H3 H4. pose proof half_range as [Hh Hh2]. unfold store_borrowed.
  destruct (store_cases s this bits (set_extra_rc a (RC_HALF a - 1) bits) H1) as [(rest & Hst & Hstore)|Hstore]; rstep Hstore.
  2: { right. eexists. split; [|reflexivity]. destruct (stores s); simpl; lia. }
  rstep (rc_load (with_stores s rest) this bits H1). rewrite H3. cbn [negb].
  assert (Hs : set_extra_rc a (RC_HALF a - 1) bits = bits + RC_ONE a * (RC_HALF a - 1)).
  { unfold set_extra_rc. fold (low bits). rewrite Z.mod_small by lia. pose proof (isa_split bits) as E. rewrite H4 in E.
    unfold RC_ONE. lia. }
  destruct (set_extra_spec (RC_HALF a - 1) bits) as (_ & _ & Hok); [lia|]. rewrite Hs in Hok. unfold isa_ok in Hok, H2.
  assert (0 <= RC_ONE a * (RC_HALF a - 1)) by (unfold RC_ONE; nia).
  rewrite (wrap_id 64 (RC_ONE a * _)) by (unfold in_u; lia). unfold addc. rewrite wrap_id by (unfold in_u; lia).
  replace (2 ^ 64 <=? _) with false by (symmetry; apply Z.leb_gt; lia).
  destruct (store_cases (with_stores s rest) this bits (bits + RC_ONE a * (RC_HALF a - 1)) H1) as [(rest2 & Hst2 & Hstore2)|Hstore2].
  - left. exists rest2. rewrite Hstore2. simpl in Hst2. rewrite Hst, Hst2. split; [simpl; lia|done].
  - right. exists (tail rest). rewrite Hstore2, Hs, Hst. split; [destruct rest; simpl; lia|done].
Qed.

(** The three things a release does. *)
Definition released_one (this : Z) (performDealloc : bool) (s s' : rcs) (bits side bits' side' : Z) (r : bool) : Prop :=
  if count bits side =? 0 then
    side' = side /\
    if deallocating a bits then r = false /\ bits' = bits /\ notices s' = N_overrelease this :: notices s
    else r = true /\ bits' = set_deallocating a true bits /\
         notices s' = (if performDealloc then [N_dealloc this] else []) ++ notices s
  else r = false /\ count bits' side' = count bits side - 1 /\ low bits' = low bits /\ notices s' = notices s.

Lemma unlock_if_step s this lk h : (lk = true -> indexForPointer a this ∉ h) ->
  held s = (if lk then {[indexForPointer a this]} ∪ h else h) -> unlock_if a lk this s = Ret (tt, with_held s h).
Proof.
  intros Hi Hh. unfold unlock_if. destruct lk; [by apply unlock_step; [apply Hi|]|]. destruct s; simpl in *. by subst.
Qed.

Lemma set_deallocating_spec bits : isa_ok bits -> nonpointer bits = true ->
  isa_ok (set_deallocating a true bits) /\ extra_rc a (set_deallocating a true bits) = extra_rc a bits /\
  nonpointer (set_deallocating a true bits) = true /\ deallocating a (set_deallocating a true bits) = true /\
  has_sidetable_rc a (set_deallocating a true bits) = has_sidetable_rc a bits /\
  weakly_referenced a (set_deallocating a true bits) = weakly_referenced a bits.
Proof.
  intros Hok Hn. assert (Hi : 0 <= rc_shift a - 2 < rc_shift a) by (destruct a; simpl; lia).
  destruct (set_bit_spec (rc_shift a - 2) bits Hi Hok) as (H1 & H2 & _).
  unfold set_deallocating, deallocating, has_sidetable_rc, weakly_referenced, nonpointer in *.
  rewrite !set_bit_testbit by (done || (destruct a; simpl; lia)).
  split_and!; [done|done|by rewrite Hn, orb_true_r|by rewrite Z.eqb_refl|destruct a; reflexivity..].
Qed.

(** The end of a release that finds no count left. *)
Lemma really_deallocate_spec retry s this bits side perform lk h :
  counted s this bits side -> count bits side = 0 ->
  (lk = true -> indexForPointer a this ∉ h) -> held s = (if lk then {[indexForPointer a this]} ∪ h else h) ->
  (exists rest, stores s = false :: rest /\ deallocating a bits = false /\
     really_deallocate a retry this bits perform lk s = retry lk (with_stores s rest)) \/
  (exists s' bits' r, really_deallocate a retry this bits perform lk s = Ret (r, s') /\ counted s' this bits' side /\
     released_one this perform s s' bits side bits' side r /\ held s' = h /\ frame this s s').
Proof.
  intros Hc H0 Hi Hh. pose proof Hc as [H1 H2 H3 H4 H5 H6 H7]. unfold really_deallocate, released_one. rewrite H0. cbn [Z.eqb].
  destruct (deallocating a bits) eqn:Ed.
  - right. rstep (unlock_if_step s this lk h Hi Hh). eexists _, bits, false. split_and!; [reflexivity| |done..].
    by apply (counted_same s).
  - destruct (set_deallocating_spec bits H2 H3) as (D1 & D2 & D3 & D4 & D5 & _).
    destruct (store_cases s this bits (set_deallocating a true bits) H1) as [(rest & Hst & Hstore)|Hstore]; rstep Hstore.
    + left. exists rest. split_and!; done.
    + right. cbn [negb]. set (s1 := with_stores _ _).
      assert (Hh1 : held s1 = held s) by done. rewrite Hh in Hh1. rstep (unlock_if_step s1 this lk h Hi Hh1).
      assert (Hc1 : counted s1 this (set_deallocating a true bits) side)
        by (apply (counted_isa s this bits); [done|done|done|by rewrite D5]).
      exists (mk_rcs (isas s1) (refcnts s1) h (stores s1) ((if perform then [N_dealloc this] else []) ++ notices s)),
        (set_deallocating a true bits), true.
      split_and!; [by destruct perform| |done..|exact (frame_isa this s _)]. by apply (counted_same s1).
Qed.

(** The outcome of a release that is carried out in a state with the same object. *)
Definition release_done (this : Z) (perform : bool) (s : rcs) (bits side : Z) (h : gset Z) (o : outcome (bool * rcs)) : Prop :=
  exists s' bits' side' r, o = Ret (r, s') /\ counted s' this bits' side' /\
    released_one this perform s s' bits side bits' side' r /\ side' <= side /\ held s' = h /\ frame this s s'.

Lemma release_done_same this perform s s1 bits side h o : frame this s s1 -> notices s1 = notices s ->
  release_done this perform s1 bits side h o -> release_done this perform s bits side h o.
Proof.
  intros Hf Hn (s' & b & sd & r & H1 & H2 & H3 & H4 & H5 & H6). exists s', b, sd, r. split_and!; try done.
  - unfold released_one in *. by rewrite Hn in H3.
  - by etrans.
Qed.

Lemma frame_stores this s rest : stores s = false :: rest -> frame this s (with_stores s rest).
Proof. intros Hs. apply frame_same; [done..|]. rewrite Hs. simpl. lia. Qed.

Lemma release_loop_spec fuel this (perform hu lk : bool) s bits side (h : gset Z) :
  counted s this bits side -> indexForPointer a this ∉ h ->
  held s = (if lk then {[indexForPointer a this]} ∪ h else h) ->
  (hu = false -> lk = false) -> (length (stores s) + (if hu then 0 else 1) + (if lk then 0 else 1) < fuel)%nat ->
  release_done this perform s bits side h (rootRelease_loop a fuel this perform hu lk s).
Proof.
  revert s hu lk. induction fuel as [|fuel IH]; intros s hu lk Hc Hi Hh Hlk Hfuel; [lia|].
  pose proof Hc as [H1 H2 H3 H4 H5 H6 H7]. pose proof half_range as [Hhf Hhf2]. pose proof (extra_range bits H2) as He.
  cbn [rootRelease_loop]. rstep (rc_load s this bits H1). rewrite H3. cbn [negb].
  rewrite subc_isa by done. destruct (extra_rc a bits =? 0) eqn:E0; zbool; cbn [negb].
  - (* underflow *)
    assert (Hdealloc : count bits side = 0 -> release_done this perform s bits side h
      (really_deallocate a (rootRelease_loop a fuel this perform hu) this bits perform lk s)).
    { intros Hz. destruct (really_deallocate_spec (rootRelease_loop a fuel this perform hu) s this bits side perform lk h Hc Hz (fun _ => Hi) Hh)
        as [(rest & Hst & _ & Hrun)|(s' & b' & r & Hrun & A1 & A2 & A3 & A4)]; rewrite Hrun.
      - apply (release_done_same _ _ s (with_stores s rest)); [by apply frame_stores|done|].
        apply IH; [by apply (counted_same s)|exact Hi|exact Hh|exact Hlk|].
        cbn [stores with_stores]. rewrite Hst in Hfuel. simpl in Hfuel. lia.
      - exists s', b', side, r. split_and!; try done. }
    destruct (has_sidetable_rc a bits) eqn:Esd.
    2: { apply Hdealloc. unfold count. destruct (decide (side = 0)) as [->|Hne]; [by rewrite E0|]. by specialize (H7 Hne). }
    destruct hu; cbn [negb].
    2: { rewrite (Hlk eq_refl) in *. apply IH; [exact Hc|exact Hi|exact Hh|done|simpl in *; lia]. }
    destruct lk; cbn [negb].
    2: { assert (Hi' : indexForPointer a this ∉ held s) by by rewrite Hh. rstep (lock_step s this Hi'). rewrite Hh.
         apply (release_done_same _ _ s (with_held s ({[indexForPointer a this]} ∪ h))); [by apply frame_same|done|].
         apply IH; [by apply (counted_same s)|exact Hi|done|done|simpl in *; lia]. }
    unfold rbnd at 1. rewrite (subExtraRC_step s this bits side Hc). destruct (side =? 0) eqn:Es; zbool.
    { cbn [Z.ltb Z.compare]. apply Hdealloc. unfold count. by rewrite E0, Es. }
    replace (0 <? RC_HALF a) with true by (symmetry; apply Z.ltb_lt; lia).
    assert (Hge : 4 * RC_HALF a <= side) by (apply Z.mod_divide in H5 as [k Hk]; [|lia]; destruct (Z.le_gt_cases k 0); nia).
    set (side1 := side - 4 * RC_HALF a). set (s1 := with_cnt s this side1).
    assert (Hc1 : counted s1 this bits side1).
    { apply (counted_cnt s this bits side); [done| |unfold side1; lia|done]. unfold side1.
      replace (side - 4 * RC_HALF a) with (side + (-1) * (4 * RC_HALF a)) by lia. by rewrite Z.mod_add by lia. }
    destruct (store_borrowed_spec s1 this bits (c_isa _ _ _ _ Hc1) H2 H3 E0) as [(rest & Hlen & Hst)|(rest & Hlen & Hst)]; rstep Hst; cbn [negb].
    + (* both stores failed: the counts go back *)
      assert (Hc2 : counted (with_stores s1 rest) this bits side1) by by apply (counted_same s1).
      assert (Hr1 : side1 + 4 * RC_HALF a < 2 ^ 63) by (unfold side1; lia). rstep (addExtraRC_step _ this bits side1 Hc2 Hr1).
      replace (side1 + 4 * RC_HALF a) with side by (unfold side1; lia).
      set (s3 := with_cnt (with_stores s1 rest) this side).
      apply (release_done_same _ _ s s3); [|done|].
      * apply frame_cnt. split; [|simpl in *; lia]. intros p Hp. simpl. by rewrite lookup_insert_ne.
      * apply IH; [by apply (counted_cnt _ this bits side1)|exact Hi|exact Hh|done|].
        cbn [stores s3 with_cnt with_stores s1] in *. lia.
    + (* borrowed *)
      set (s2 := with_stores _ rest). destruct (set_extra_spec (RC_HALF a - 1) bits) as (X1 & X2 & X3); [lia|].
      set (bits' := set_extra_rc a (RC_HALF a - 1) bits) in *.
      destruct (low_flags bits' bits X1) as (N1 & _ & _ & _ & _ & N2).
      assert (Hc2 : counted s2 this bits' side1).
      { apply (counted_isa s1 this bits); [done|done|by rewrite N1|]. intros _. by rewrite N2. }
      rstep (unlock_step s2 this h Hi Hh). exists (with_held s2 h), bits', side1, false. split_and!; try done.
      * by apply (counted_same s2).
      * unfold released_one. assert (Hd : side / 4 = side1 / 4 + RC_HALF a).
        { replace side with (side1 + RC_HALF a * 4) by (unfold side1; lia). by rewrite Z.div_add by lia. }
        assert (0 <= side1 / 4) by (apply Z.div_pos; unfold side1; lia).
        replace (count bits side =? 0) with false by (symmetry; apply Z.eqb_neq; unfold count; lia).
        split_and!; [done|unfold count; lia|done|done].
      * unfold side1. lia.
      * split; [|simpl in *; lia]. intros p Hp. simpl. by rewrite !lookup_insert_ne.
  - (* one less inline *)
    destruct (sub_one bits) as [X1 X2]. set (bits' := bits - RC_ONE a) in *.
    destruct (low_flags bits' bits X1) as (N1 & _ & _ & _ & _ & N2).
    assert (Hok : isa_ok bits').
    { rewrite (isa_split bits'), X1, X2. apply isa_ok_parts; [apply low_range|lia]. }
    destruct (store_cases s this bits bits' H1) as [(rest & Hst & Hstore)|Hstore]; rstep Hstore; cbn [negb].
    + apply (release_done_same _ _ s (with_stores s rest)); [by apply frame_stores|done|].
      apply IH; [by apply (counted_same s)|exact Hi|exact Hh|exact Hlk|]. cbn [stores with_stores]. rewrite Hst in Hfuel. simpl in Hfuel. lia.
    + set (s2 := with_stores _ _). assert (Hh2 : held s2 = held s) by done. rewrite Hh in Hh2.
      rstep (unlock_if_step s2 this lk h (fun _ => Hi) Hh2).
      exists (with_held s2 h), bits', side, false. split_and!; try done.
      * apply (counted_same s2); try done. apply (counted_isa s this bits); [done|done|by rewrite N1|]. by rewrite N2.
      * unfold released_one. assert (0 <= side / 4) by (apply Z.div_pos; lia).
        replace (count bits side =? 0) with false by (symmetry; apply Z.eqb_neq; unfold count; lia).
        split_and!; [done|unfold count; lia|done|done].
      * exact (frame_isa this s _).
Qed.

(** ** The retain count *)

Lemma count_nonneg s this bits side : counted s this bits side -> 0 <= extra_rc a bits /\ 0 <= side / 4 /\ side <= 4 * count bits side + 3.
Proof.
  intros [H1 H2 H3 H4 H5 H6 H7]. pose proof (extra_range bits H2) as He. unfold count.
  pose proof (Z.div_mod side 4 ltac:(lia)). pose proof (Z.mod_pos_bound side 4 ltac:(lia)). lia.
Qed.

Lemma retainCount_spec s this bits side : counted s this bits side -> isTaggedPointer a this = false ->
  indexForPointer a this ∉ held s -> rootRetainCount a this s = Ret (1 + count bits side, s).
Proof.
  intros Hc Ht Hi. pose proof Hc as [H1 H2 H3 H4 H5 H6 H7]. destruct (count_nonneg _ _ _ _ Hc) as (P1 & P2 & _).
  unfold rootRetainCount. rewrite Ht. rstep (lock_step s this Hi). set (s1 := with_held _ _).
  assert (Hc1 : counted s1 this bits side) by by apply (counted_same s). rstep (rc_load s1 this bits H1). rewrite H3.
  assert (Hrc : (if has_sidetable_rc a bits then do e <- sidetable_getExtraRC_nolock this; rret (u64 (1 + extra_rc a bits + e))
      else rret (1 + extra_rc a bits)) s1 = Ret (1 + count bits side, s1)).
  { pose proof (extra_range bits H2) as He. assert (side / 4 < 2 ^ 61) by (apply Z.div_lt_upper_bound; lia).
    assert (2 ^ rc_bits a <= 2 ^ 20) by (destruct a; discriminate).
    destruct (has_sidetable_rc a bits) eqn:Esd.
    - rewrite (rbnd_Ret _ _ s1 (side / 4) s1).
      + unfold rret, count. do 2 f_equal. rewrite wrap_id; [lia|]. unfold in_u. lia.
      + unfold sidetable_getExtraRC_nolock. rewrite <- H3. rstep (assert_isa_step s1 this bits H1). unfold refcnt_find, rbnd at 1.
        cbn [refcnts s1 with_held]. destruct (refcnts s !! this) as [v|]; simpl in H4; subst; [|done].
        unfold SIDE_TABLE_RC_SHIFT. by rewrite Z.shiftr_div_pow2 by lia.
    - destruct (decide (side = 0)) as [->|Hne]; [|by specialize (H7 Hne)]. unfold rret, count. rewrite Z.div_0_l by lia. do 2 f_equal. lia. }
  rstep Hrc. rstep (unlock_step s1 this (held s) Hi eq_refl). unfold rret, s1. by destruct s.
Qed.

End Spec.
