(* ===== verification/ObjectSpec.v ===== *)
(** * Objects as their clients see them

    Every operation on an object's header, whichever representation its isa has: the
    packed isa with the overflow in the side table, or the raw class pointer with
    everything in the side table.  An object is an abstract record of its references,
    flags and class; the operations of objc-object.h refine the operations on that
    record, also across [changeIsa], which moves an object from the first to the second
    representation. *)

From Stdlib Require Import ZArith Lia Bool.
From stdpp Require Import base list gmap.
From S2P Require Import Prelude RetainCount RetainCountSpec.

Local Open Scope Z_scope.
Local Open Scope rc_scope.

Section Object.
Context (a : arch).

Lemma rbnd_rret {A B} (c : RM A) (f : A -> B) s x s' : c s = Ret (x, s') -> (do y <- c; rret (f y)) s = Ret (f x, s').
Proof. intros H. by rstep H. Qed.

(** ** Bits of a packed isa *)

Lemma set_bit_bits i b bits j : 0 <= i -> 0 <= j ->
  Z.testbit (set_bit i b bits) j = if i =? j then b else Z.testbit bits j.
Proof.
  intros Hi Hj. unfold set_bit. destruct b.
  - rewrite Z.setbit_eqb by lia. by destruct (i =? j).
  - rewrite Z.clearbit_eqb by lia. destruct (i =? j); [by rewrite andb_false_r|by rewrite andb_true_r].
Qed.

Definition in_shiftcls (j : Z) : bool := (3 <=? j) && (j <? 3 + shiftcls_bits a).

Lemma shiftcls_bits_pos : 0 < shiftcls_bits a < 45.
Proof. destruct a; split; reflexivity. Qed.

Lemma ISA_MASK_bits j : 0 <= j -> Z.testbit (ISA_MASK a) j = in_shiftcls j.
Proof.
  intros Hj. pose proof shiftcls_bits_pos. unfold in_shiftcls.
  replace (ISA_MASK a) with (Z.shiftl (Z.ones (shiftcls_bits a)) 3) by (destruct a; reflexivity).
  rewrite Z.shiftl_spec by lia. destruct (3 <=? j) eqn:E; zbool; [|by rewrite Z.testbit_neg_r by lia].
  destruct (j <? 3 + shiftcls_bits a) eqn:E2; zbool; [by rewrite Z.ones_spec_low by lia|by rewrite Z.ones_spec_high by lia].
Qed.

Lemma packed_isa_bits cls dtor bits j : 0 <= j ->
  Z.testbit (packed_isa a cls dtor bits) j
  = if in_shiftcls j then Z.testbit (cls_addr cls) j else if 2 =? j then dtor else Z.testbit bits j.
Proof.
  intros Hj. pose proof shiftcls_bits_pos as Hp. unfold packed_isa, set_shiftcls, set_has_cxx_dtor.
  rewrite Z.lor_spec, Z.ldiff_spec, set_bit_bits by lia.
  rewrite !Z.shiftl_spec by lia. unfold in_shiftcls. destruct (3 <=? j) eqn:E; zbool.
  - destruct (j <? 3 + shiftcls_bits a) eqn:E2; zbool; simpl.
    + rewrite Z.ones_spec_low by lia. rewrite Z.mod_pow2_bits_low by lia. rewrite Z.shiftr_spec by lia.
      rewrite andb_false_r. simpl. f_equal. lia.
    + rewrite Z.ones_spec_high by lia. rewrite Z.mod_pow2_bits_high by lia. by rewrite orb_false_r, andb_true_r.
  - rewrite !(Z.testbit_neg_r _ (j - 3)) by lia. by rewrite orb_false_r, andb_true_r.
Qed.

Lemma isa_ok_bits bits : 0 <= bits -> (forall j, 64 <= j -> Z.testbit bits j = false) -> isa_ok bits.
Proof.
  intros H0 Hj. split; [done|]. destruct (decide (bits = 0)) as [->|Hne]; [reflexivity|].
  apply Z.log2_lt_cancel. rewrite Z.log2_pow2 by lia.
  destruct (Z.lt_ge_cases (Z.log2 bits) 64) as [|Hge]; [done|]. exfalso.
  specialize (Hj _ Hge). rewrite Z.bit_log2 in Hj by lia. discriminate.
Qed.

Lemma isa_ok_high bits j : isa_ok bits -> 64 <= j -> Z.testbit bits j = false.
Proof. intros Hb Hj. rewrite <- (Z.mod_small bits (2 ^ 64)) by exact Hb. by apply Z.mod_pow2_bits_high. Qed.

(** The count depends on its own bits only. *)
Lemma extra_same bits bits' : (forall j, rc_shift a <= j -> Z.testbit bits' j = Z.testbit bits j) -> extra_rc a bits' = extra_rc a bits.
Proof.
  intros H. apply Z.bits_inj'. intros j Hj. unfold extra_rc. rewrite !Z.shiftr_spec by lia. apply H.
  destruct a; simpl; lia.
Qed.

(** The class of an isa of either form. *)
Definition isa_class (bits : Z) : Z := Z.land bits (ISA_MASK a).

Lemma isa_class_same bits bits' : (forall j, in_shiftcls j = true -> Z.testbit bits' j = Z.testbit bits j) ->
  isa_class bits' = isa_class bits.
Proof.
  intros H. apply Z.bits_inj'. intros j Hj. unfold isa_class. rewrite !Z.land_spec, ISA_MASK_bits by lia.
  destruct (in_shiftcls j) eqn:E; [by rewrite H|by rewrite !andb_false_r].
Qed.

Lemma in_shiftcls_low j : in_shiftcls j = true -> 3 <= j < rc_shift a - 3.
Proof. unfold in_shiftcls. intros H. apply andb_true_iff in H as [H1 H2]; zbool. destruct a; simpl in *; lia. Qed.

Lemma isa_class_flags bits bits' : flags_kept a bits bits' -> isa_class bits' = isa_class bits.
Proof.
  intros H. apply isa_class_same. intros j Hj. apply in_shiftcls_low in Hj.
  rewrite (testbit_low a bits'), (testbit_low a bits) by lia. destruct H as [->| ->]; [done|]. rewrite Z.setbit_eqb by (destruct a; simpl; lia).
  by replace (rc_shift a - 1 =? j) with false by (symmetry; apply Z.eqb_neq; lia).
Qed.

Lemma shiftcls_class bits : Z.shiftl (shiftcls a bits) 3 = isa_class bits.
Proof.
  pose proof shiftcls_bits_pos as Hp. apply Z.bits_inj'. intros j Hj. unfold isa_class, shiftcls.
  rewrite Z.land_spec, ISA_MASK_bits, Z.shiftl_spec by lia. unfold in_shiftcls. destruct (3 <=? j) eqn:E; zbool.
  2: { rewrite Z.testbit_neg_r by lia. by rewrite andb_false_r. }
  destruct (j <? 3 + shiftcls_bits a) eqn:E2; zbool; simpl.
  - rewrite Z.mod_pow2_bits_low, Z.shiftr_spec, andb_true_r by lia. f_equal. lia.
  - by rewrite Z.mod_pow2_bits_high, andb_false_r by lia.
Qed.

(** A class is aligned and below the end of the addresses that the field holds. *)
Definition class_ok (c : Z) : Prop := 0 < c < 2 ^ (3 + shiftcls_bits a) /\ c mod 8 = 0.

Lemma class_ok_bits c j : class_ok c -> 0 <= j -> in_shiftcls j = false -> Z.testbit c j = false.
Proof.
  intros [Hc H8] Hj Hi. pose proof shiftcls_bits_pos as Hp. unfold in_shiftcls in Hi. destruct (Z.lt_ge_cases j 3).
  - rewrite <- (Z.mod_pow2_bits_low c 3 j) by lia. change (2 ^ 3) with 8. by rewrite H8, Z.bits_0.
  - replace (3 <=? j) with true in Hi by (symmetry; by apply Z.leb_le). apply Z.ltb_ge in Hi.
    rewrite <- (Z.mod_small c (2 ^ (3 + shiftcls_bits a))) by lia. by apply Z.mod_pow2_bits_high; lia.
Qed.

Lemma class_ok_class c : class_ok c -> isa_class c = c.
Proof.
  intros Hc. apply Z.bits_inj'. intros j Hj. unfold isa_class. rewrite Z.land_spec, ISA_MASK_bits by lia.
  destruct (in_shiftcls j) eqn:E; [by rewrite andb_true_r|]. by rewrite andb_false_r, class_ok_bits.
Qed.

Lemma class_ok_raw c : class_ok c -> nonpointer c = false /\ c <> 0 /\ isa_ok c.
Proof.
  intros Hc. split_and!; [by apply class_ok_bits|destruct Hc; lia|]. destruct Hc as [Hc _]. unfold isa_ok. destruct a; simpl in Hc; lia.
Qed.

(** Writing the class of a packed isa keeps the rest. *)
Lemma packed_isa_spec cls dtor bits : isa_ok bits -> class_ok (cls_addr cls) ->
  isa_ok (packed_isa a cls dtor bits) /\ isa_class (packed_isa a cls dtor bits) = cls_addr cls /\
  extra_rc a (packed_isa a cls dtor bits) = extra_rc a bits /\ nonpointer (packed_isa a cls dtor bits) = nonpointer bits /\
  weakly_referenced a (packed_isa a cls dtor bits) = weakly_referenced a bits /\
  deallocating a (packed_isa a cls dtor bits) = deallocating a bits /\
  has_sidetable_rc a (packed_isa a cls dtor bits) = has_sidetable_rc a bits.
Proof.
  intros Hb Hc. assert (Hhigh : forall j, rc_shift a - 3 <= j -> Z.testbit (packed_isa a cls dtor bits) j = Z.testbit bits j).
  { intros j Hj. rewrite packed_isa_bits by (destruct a; simpl in Hj; lia). destruct (in_shiftcls j) eqn:E.
    - apply in_shiftcls_low in E. lia.
    - by replace (2 =? j) with false by (symmetry; apply Z.eqb_neq; destruct a; simpl in Hj; lia). }
  split_and!.
  - apply isa_ok_bits.
    + unfold packed_isa, set_shiftcls, set_has_cxx_dtor. apply Z.lor_nonneg. split.
      * apply Z.ldiff_nonneg. left. unfold set_bit. destruct Hb. destruct dtor; [rewrite Z.setbit_spec'|rewrite Z.clearbit_spec'].
        -- apply Z.lor_nonneg. lia.
        -- apply Z.ldiff_nonneg. lia.
      * apply Z.shiftl_nonneg, Z.mod_pos_bound. destruct a; reflexivity.
    + intros j Hj. rewrite Hhigh by (destruct a; simpl; lia). by apply isa_ok_high.
  - etrans; [|exact (class_ok_class _ Hc)]. apply isa_class_same. intros j Hj.
    rewrite packed_isa_bits by (apply in_shiftcls_low in Hj; lia). by rewrite Hj.
  - apply extra_same. intros j Hj. apply Hhigh. lia.
  - unfold nonpointer. rewrite packed_isa_bits by lia. done.
  - apply Hhigh. lia.
  - apply Hhigh. lia.
  - apply Hhigh. lia.
Qed.


(** ** Objects *)

(** References beyond the first, the two flags, the class, and whether the isa is a raw pointer. *)
Record obj := mk_obj { refs : Z; dying : bool; weak : bool; class : Z; raw : bool }.

Inductive obj_op :=
| O_retain | O_tryRetain | O_release | O_retainCount | O_changeIsa (c : class_info)
| O_setWeaklyReferenced | O_isWeaklyReferenced | O_isDeallocating | O_ISA.

Definition set_refs (n : Z) (o : obj) : obj := mk_obj n (dying o) (weak o) (class o) (raw o).

(** The new state, the result and what is reported. *)
Definition obj_step (this : Z) (op : obj_op) (o : obj) : obj * Z * list notice :=
  match op with
  | O_retain => (set_refs (refs o + 1) o, this, [])
  | O_tryRetain => if dying o then (o, 0, []) else (set_refs (refs o + 1) o, 1, [])
  | O_release =>
      if refs o =? 0 then
        if dying o then (o, 0, [N_overrelease this])
        else (mk_obj 0 true (weak o) (class o) (raw o), 1, [N_dealloc this])
      else (set_refs (refs o - 1) o, 0, [])
  | O_retainCount => (o, 1 + refs o, [])
  | O_changeIsa c =>
      (mk_obj (refs o) (dying o) (weak o) (cls_addr c) (raw o || cls_isFuture c || cls_requireRawIsa c), class o, [])
  | O_setWeaklyReferenced => (mk_obj (refs o) (dying o) true (class o) (raw o), 0, [])
  | O_isWeaklyReferenced => (o, Z.b2z (weak o), [])
  | O_isDeallocating => (o, Z.b2z (dying o), [])
  | O_ISA => (o, class o, [])
  end.

Fixpoint obj_run (this : Z) (ops : list obj_op) (o : obj) : obj * list Z * list notice :=
  match ops with
  | [] => (o, [], [])
  | op :: ops' =>
      let '(o1, r, ns) := obj_step this op o in
      let '(o2, rs, ns') := obj_run this ops' o1 in
      (o2, r :: rs, ns' ++ ns)
  end.

(** What the client owes: valid classes, and no release of an object with a raw isa that is
    already being deallocated and has no reference left. *)
Definition op_ok (op : obj_op) (o : obj) : Prop :=
  match op with
  | O_release => (raw o && dying o && (refs o =? 0)) = false
  | O_changeIsa c => class_ok (cls_addr c)
  | _ => True
  end.

Fixpoint ops_ok (this : Z) (ops : list obj_op) (o : obj) : Prop :=
  match ops with [] => True | op :: ops' => op_ok op o /\ ops_ok this ops' (obj_step this op o).1.1 end.

(** The runtime's operations. *)
Definition rc_step (fuel : nat) (this : Z) (op : obj_op) : RM Z :=
  match op with
  | O_retain => rootRetain a fuel this
  | O_tryRetain => do b <- rootTryRetain a fuel this; rret (Z.b2z b)
  | O_release => do b <- rootRelease a fuel this; rret (Z.b2z b)
  | O_retainCount => rootRetainCount a this
  | O_changeIsa c => changeIsa a fuel this c
  | O_setWeaklyReferenced => setWeaklyReferenced_nolock a fuel this ;; rret 0
  | O_isWeaklyReferenced => do b <- isWeaklyReferenced a this; rret (Z.b2z b)
  | O_isDeallocating => do b <- rootIsDeallocating a this; rret (Z.b2z b)
  | O_ISA => ISA a this
  end.

Fixpoint rc_run (fuel : nat) (this : Z) (ops : list obj_op) : RM (list Z) :=
  match ops with
  | [] => rret []
  | op :: ops' => do r <- rc_step fuel this op; do rs <- rc_run fuel this ops'; rret (r :: rs)
  end.

(** ** The two representations *)

Definition packed_rep (s : rcs) (this : Z) (o : obj) : Prop :=
  exists bits side, counted a s this bits side /\
    o = mk_obj (count a bits side) (deallocating a bits) (weakly_referenced a bits) (isa_class bits) false.

(** The entry of an object with a raw isa. *)
Definition side_word (r : Z) (d w : bool) : Z := 4 * r + 2 * Z.b2z d + Z.b2z w.

Definition raw_rep (s : rcs) (this : Z) (o : obj) : Prop :=
  isas s !! this = Some (class o) /\ class_ok (class o) /\ raw o = true /\ 0 <= refs o < 2 ^ 61 /\
  default 0 (refcnts s !! this) = side_word (refs o) (dying o) (weak o).

Definition represents (s : rcs) (this : Z) (o : obj) : Prop := packed_rep s this o \/ raw_rep s this o.

Lemma represents_same s s' this o : represents s this o -> isas s' = isas s -> refcnts s' = refcnts s -> represents s' this o.
Proof.
  intros [(bits & side & Hc & Ho)|Hr] Hi Hs.
  - left. exists bits, side. split; [|done]. by apply (counted_same a s).
  - right. unfold raw_rep. by rewrite Hi, Hs.
Qed.

(** A computation that carries out an abstract step. *)
Definition does (this : Z) (c : RM Z) (s : rcs) (st : obj * Z * list notice) : Prop :=
  exists s', c s = Ret (st.1.2, s') /\ represents s' this st.1.1 /\ held s' = held s /\ frame this s s' /\
    notices s' = st.2 ++ notices s.

(** ** Words of the side table *)

Lemma side_word_bits r d w : Z.testbit (side_word r d w) 0 = w /\ Z.testbit (side_word r d w) 1 = d.
Proof.
  unfold side_word. replace (4 * r + 2 * Z.b2z d + Z.b2z w) with (2 * (2 * r + Z.b2z d) + Z.b2z w) by lia.
  split; [apply Z.testbit_0_r|]. etrans; [by apply (Z.testbit_succ_r _ _ 0)|]. apply Z.testbit_0_r.
Qed.

Lemma has_pow2 v i : 0 <= i -> has v (2 ^ i) = Z.testbit v i.
Proof.
  intros Hi. unfold has. destruct (Z.testbit v i) eqn:E.
  - apply negb_true_iff, Z.eqb_neq. intros H. assert (Hb : Z.testbit (Z.land v (2 ^ i)) i = true)
      by (rewrite Z.land_spec, E, Z.pow2_bits_true by lia; done). by rewrite H, Z.bits_0 in Hb.
  - apply negb_false_iff, Z.eqb_eq. apply Z.bits_inj'. intros j Hj. rewrite Z.land_spec, Z.bits_0, Z.pow2_bits_eqb by lia.
    destruct (i =? j) eqn:Ej; zbool; [subst; by rewrite E|by rewrite andb_false_r].
Qed.

Lemma lor_pow2 v i : 0 <= i -> Z.lor v (2 ^ i) = if Z.testbit v i then v else v + 2 ^ i.
Proof.
  intros Hi. destruct (Z.testbit v i) eqn:E.
  - apply Z.bits_inj'. intros j Hj. rewrite Z.lor_spec, Z.pow2_bits_eqb by lia.
    destruct (i =? j) eqn:Ej; zbool; [subst; by rewrite E|by rewrite orb_false_r].
  - symmetry. apply Z.add_nocarry_lor. pose proof (has_pow2 v i Hi) as H. rewrite E in H. unfold has in H.
    by apply negb_false_iff, Z.eqb_eq in H.
Qed.

Lemma b2z_range b : 0 <= Z.b2z b <= 1.
Proof. by destruct b. Qed.

Section Word.
Context (r : Z) (d w : bool) (Hr : 0 <= r < 2 ^ 61).

Lemma word_range : 0 <= side_word r d w < 2 ^ 63.
Proof. unfold side_word. pose proof (b2z_range d). pose proof (b2z_range w). lia. Qed.
Lemma word_dying : has (side_word r d w) SIDE_TABLE_DEALLOCATING = d.
Proof. etrans; [by apply (has_pow2 _ 1)|]. apply side_word_bits. Qed.
Lemma word_weak : has (side_word r d w) SIDE_TABLE_WEAKLY_REFERENCED = w.
Proof. etrans; [by apply (has_pow2 _ 0)|]. apply side_word_bits. Qed.
Lemma word_pinned : has (side_word r d w) SIDE_TABLE_RC_PINNED = false.
Proof. apply not_pinned, word_range. Qed.
Lemma word_refs : Z.shiftr (side_word r d w) SIDE_TABLE_RC_SHIFT = r.
Proof.
  unfold SIDE_TABLE_RC_SHIFT. rewrite Z.shiftr_div_pow2 by lia. change (2 ^ 2) with 4. unfold side_word.
  pose proof (b2z_range d). pose proof (b2z_range w). symmetry. apply Z.div_unique with (2 * Z.b2z d + Z.b2z w); lia.
Qed.
Lemma word_set_dying : Z.lor (side_word r d w) SIDE_TABLE_DEALLOCATING = side_word r true w.
Proof.
  etrans; [by apply (lor_pow2 _ 1)|]. rewrite (proj2 (side_word_bits r d w)). unfold side_word. destruct d; simpl Z.b2z; lia.
Qed.
Lemma word_set_weak : Z.lor (side_word r d w) SIDE_TABLE_WEAKLY_REFERENCED = side_word r d true.
Proof.
  etrans; [by apply (lor_pow2 _ 0)|]. rewrite (proj1 (side_word_bits r d w)). unfold side_word. destruct w; simpl Z.b2z; lia.
Qed.
Lemma word_last : (side_word r d w <? SIDE_TABLE_DEALLOCATING) = (r =? 0) && negb d.
Proof.
  change SIDE_TABLE_DEALLOCATING with 2. unfold side_word. pose proof (b2z_range w). destruct (r =? 0) eqn:E; zbool.
  - subst. destruct d; simpl Z.b2z; [apply Z.ltb_ge|apply Z.ltb_lt]; lia.
  - apply Z.ltb_ge. pose proof (b2z_range d). lia.
Qed.
Lemma word_retain : u64 (side_word r d w + SIDE_TABLE_RC_ONE) = side_word (r + 1) d w.
Proof. rewrite wrap_id; change SIDE_TABLE_RC_ONE with 4; [unfold side_word; lia|]. unfold in_u. pose proof word_range. lia. Qed.
Lemma word_release : 0 < r -> u64 (side_word r d w - SIDE_TABLE_RC_ONE) = side_word (r - 1) d w.
Proof.
  intros H. rewrite wrap_id; change SIDE_TABLE_RC_ONE with 4; [unfold side_word; lia|]. unfold in_u. pose proof word_range.
  unfold side_word in *. pose proof (b2z_range d). pose proof (b2z_range w). lia.
Qed.

End Word.


(** ** Objects with a raw isa *)

Section Raw.
Context (this : Z) (s : rcs) (o : obj) (fuel : nat).
Context (Hrep : raw_rep s this o) (Hn : refs o < 2 ^ 60) (Ht : isTaggedPointer a this = false).
Context (Hi : indexForPointer a this ∉ held s) (Hfuel : (length (stores s) + 2 < fuel)%nat).

#[local] Abbreviation word o := (side_word (refs o) (dying o) (weak o)).

Lemma raw_load s' : isas s' = isas s -> LoadExclusive this s' = Ret (class o, s').
Proof. intros He. apply rc_load. rewrite He. apply Hrep. Qed.

Lemma raw_np : nonpointer (class o) = false /\ class o <> 0.
Proof. destruct Hrep as (_ & Hc & _). destruct (class_ok_raw _ Hc) as (? & ? & _). done. Qed.

Lemma raw_assert s' : isas s' = isas s -> assert_isa this false s' = Ret (tt, s').
Proof. intros He. rewrite <- (proj1 raw_np). apply assert_isa_step. rewrite He. apply Hrep. Qed.

Lemma raw_get s' : refcnts s' = refcnts s -> refcnt_get this s' = Ret (word o, s').
Proof. intros He. unfold refcnt_get. rewrite He. destruct Hrep as (_ & _ & _ & _ & ->). done. Qed.

(** The search of an absent entry counts as one of zero. *)
Lemma raw_find s' : refcnts s' = refcnts s ->
  refcnt_find this s' = Ret (Some (word o), s') \/ (refcnt_find this s' = Ret (None, s') /\ refs o = 0 /\ dying o = false /\ weak o = false).
Proof.
  clear Hn Ht Hi Hfuel. intros He. unfold refcnt_find. rewrite He. destruct Hrep as (_ & _ & _ & Hr & Hw). destruct (refcnts s !! this) as [v|]; simpl in Hw.
  - left. by subst.
  - right. unfold side_word in Hw. destruct (dying o), (weak o); simpl Z.b2z in Hw; split_and!; lia || done.
Qed.

Lemma raw_cnt o' : raw o' = true -> class o' = class o -> 0 <= refs o' < 2 ^ 61 -> represents (with_cnt s this (word o')) this o'.
Proof.
  destruct Hrep as (H1 & H2 & H3 & H4 & H5). intros Hr Hc Hb. right. split_and!; try (done || lia).
  - by rewrite Hc.
  - by rewrite Hc.
  - simpl. by rewrite lookup_insert_eq.
Qed.

Lemma set_step s' p v : refcnt_set p v s' = Ret (tt, with_cnt s' p v).
Proof. done. Qed.

(** A step that ends in writing the entry, or in the same state. *)
Lemma does_cnt c o' r : c s = Ret (r, with_cnt s this (word o')) -> raw o' = true -> class o' = class o -> 0 <= refs o' < 2 ^ 61 ->
  does this c s (o', r, []).
Proof. intros He H1 H2 H3. eexists. split_and!; [exact He|by apply raw_cnt|done| |done]. by apply frame_cnt. Qed.

Lemma does_same c r : c s = Ret (r, s) -> does this c s (o, r, []).
Proof. intros He. exists s. split_and!; [exact He|by right|done..]. Qed.

Lemma raw_range : raw o = true /\ 0 <= refs o < 2 ^ 60.
Proof. destruct Hrep as (_ & _ & H & H' & _). split; [done|lia]. Qed.

Lemma raw_retain : does this (rootRetain a fuel this) s (obj_step this O_retain o).
Proof.
  destruct raw_range as [Hraw Hr]. assert (Hr' : 0 <= refs o < 2 ^ 61) by lia.
  apply (does_cnt _ (set_refs (refs o + 1) o)); [|done|done|simpl; lia].
  unfold rootRetain, rootRetain_with. rewrite Ht. destruct fuel as [|fuel']; [lia|]. cbn [rootRetain_loop].
  rstep (raw_load s eq_refl). rewrite (proj1 raw_np). cbn [negb andb unlock_if]. unfold rbnd at 1, rret at 1, sidetable_retain.
  rstep (raw_assert s eq_refl). rstep (lock_step a s this Hi). set (s1 := with_held _ _). rstep (raw_get s1 eq_refl).
  rewrite word_pinned, word_retain by done. rstep (set_step s1 this (word (set_refs (refs o + 1) o))).
  rstep (unlock_step a (with_cnt s1 this _) this (held s) Hi eq_refl). by destruct s.
Qed.

Lemma raw_tryRetain : this <> 0 ->
  does this (do b <- rootTryRetain a fuel this; rret (Z.b2z b)) s (obj_step this O_tryRetain o).
Proof.
  intros H0. destruct raw_range as [Hraw Hr]. assert (Hr' : 0 <= refs o < 2 ^ 61) by lia.
  set (o1 := set_refs (refs o + 1) o).
  assert (Hside : sidetable_tryRetain this s = Ret (negb (dying o), if dying o then s else with_cnt s this (word o1))).
  { unfold sidetable_tryRetain. rstep (raw_assert s eq_refl). destruct (raw_find s eq_refl) as [Hf|(Hf & E1 & E2 & E3)]; rstep Hf.
    - rewrite word_dying. destruct (dying o) eqn:Ed; [done|]. rewrite word_pinned, word_retain by done. cbn [negb].
      unfold o1. rewrite <- Ed. done.
    - unfold o1. rewrite E2. simpl. by rewrite E1, E2, E3. }
  assert (Hrun : rootTryRetain a fuel this s = Ret (negb (dying o), if dying o then s else with_cnt s this (word o1))).
  { unfold rootTryRetain, rootRetain_with. rewrite Ht. destruct fuel as [|fuel']; [lia|]. cbn [rootRetain_loop].
    unfold rbnd at 1. rstep (raw_load s eq_refl). rewrite (proj1 raw_np). cbn [negb andb unlock_if]. unfold rbnd at 1, rret at 1.
    rstep Hside. unfold rret. destruct (dying o); simpl; [done|]. by replace (this =? 0) with false by (symmetry; apply Z.eqb_neq; lia). }
  cbn [obj_step]. destruct (dying o) eqn:Ed.
  - apply does_same. by rstep Hrun.
  - apply (does_cnt _ o1); [by rstep Hrun|done|done|simpl; lia].
Qed.

(** The side table's release. *)
Lemma raw_release : op_ok O_release o ->
  does this (do b <- rootRelease a fuel this; rret (Z.b2z b)) s (obj_step this O_release o).
Proof.
  intros Hok. destruct raw_range as [Hraw Hr]. assert (Hr' : 0 <= refs o < 2 ^ 61) by lia.
  unfold op_ok in Hok. rewrite Hraw in Hok. cbn [andb] in Hok.
  assert (Hrun : rootRelease a fuel this s = sidetable_release a this true s).
  { unfold rootRelease, rootRelease_with. rewrite Ht. destruct fuel as [|fuel']; [lia|]. cbn [rootRelease_loop].
    rstep (raw_load s eq_refl). by rewrite (proj1 raw_np). }
  unfold does. unfold rbnd at 1. rewrite Hrun. unfold sidetable_release. rstep (raw_assert s eq_refl). rstep (lock_step a s this Hi).
  set (s1 := with_held _ _). set (o' := (obj_step this O_release o).1.1).
  set (last := (refs o =? 0) && negb (dying o)).
  assert (Hside : forall k : bool -> RM bool, rbnd (refcnt_find this) (fun it => rbnd
      match it with
      | None => refcnt_set this SIDE_TABLE_DEALLOCATING ;; rret true
      | Some v =>
          if v <? SIDE_TABLE_DEALLOCATING then refcnt_set this (Z.lor v SIDE_TABLE_DEALLOCATING) ;; rret true
          else if negb (has v SIDE_TABLE_RC_PINNED) then refcnt_set this (u64 (v - SIDE_TABLE_RC_ONE)) ;; rret false
          else rret false
      end k) s1 = k last (with_cnt s1 this (word o'))).
  { intros k. unfold last, o'. cbn [obj_step]. destruct (raw_find s1 eq_refl) as [Hf|(Hf & E1 & E2 & E3)]; rstep Hf.
    - rewrite word_last by done. destruct (refs o =? 0) eqn:E0, (dying o) eqn:Ed; zbool; cbn [andb negb fst].
      + discriminate Hok.
      + rewrite word_set_dying by done. by rewrite E0.
      + rewrite word_pinned, word_release by (done || lia). unfold set_refs; cbn [refs dying weak]; by rewrite Ed.
      + rewrite word_pinned, word_release by (done || lia). unfold set_refs; cbn [refs dying weak]; by rewrite Ed.
    - rewrite E1, E2. cbn [Z.eqb andb negb fst]. by rewrite E3. }
  rewrite Hside. rstep (unlock_step a (with_cnt s1 this _) this (held s) Hi eq_refl). rewrite andb_true_r.
  assert (Ho' : raw o' = true /\ class o' = class o /\ 0 <= refs o' < 2 ^ 61).
  { unfold o'. cbn [obj_step]. destruct (refs o =? 0) eqn:E0, (dying o) eqn:Ed; zbool; simpl; split_and!; try done; lia. }
  destruct Ho' as (Hraw' & Hc' & Hr1). pose proof (raw_cnt o' Hraw' Hc' Hr1) as Hrep'.
  assert (Hst : obj_step this O_release o = (o', Z.b2z last, if last then [N_dealloc this] else [])).
  { unfold o', last. cbn [obj_step]. destruct (refs o =? 0) eqn:E0, (dying o) eqn:Ed; try done. }
  rewrite Hst. exists (mk_rcs (isas s) (<[this := word o']> (refcnts s)) (held s) (stores s) ((if last then [N_dealloc this] else []) ++ notices s)).
  split_and!; [by destruct last|by apply (represents_same (with_cnt s this (word o')))|done| |done].
  etrans; [by apply (frame_cnt this s s (word o'))|]. by apply frame_same.
Qed.

Lemma raw_retainCount : does this (rootRetainCount a this) s (obj_step this O_retainCount o).
Proof.
  destruct raw_range as [Hraw Hr]. apply does_same. unfold rootRetainCount. rewrite Ht. rstep (lock_step a s this Hi).
  set (s1 := with_held _ _). rstep (raw_load s1 eq_refl). rewrite (proj1 raw_np). rstep (unlock_step a s1 this (held s) Hi eq_refl).
  replace (with_held s1 (held s)) with s by (unfold s1; by destruct s).
  unfold sidetable_retainCount. rstep (lock_step a s this Hi). fold s1.
  assert (Hf : exists it, refcnt_find this s1 = Ret (it, s1) /\ match it with None => 1 | Some v => u64 (1 + Z.shiftr v SIDE_TABLE_RC_SHIFT) end = 1 + refs o).
  { destruct (raw_find s1 eq_refl) as [Hf|(Hf & E1 & _)]; eexists; split; [exact Hf| |exact Hf|].
    - cbv iota. rewrite word_refs by lia. apply wrap_id. unfold in_u. lia.
    - by rewrite E1. }
  destruct Hf as (it & Hf & He). rstep Hf. rstep (unlock_step a s1 this (held s) Hi eq_refl). unfold rret. rewrite He.
  unfold s1. by destruct s.
Qed.

Lemma raw_isWeaklyReferenced :
  does this (do b <- isWeaklyReferenced a this; rret (Z.b2z b)) s (obj_step this O_isWeaklyReferenced o).
Proof.
  apply does_same. apply (rbnd_rret _ Z.b2z). unfold isWeaklyReferenced. rewrite Ht. unfold rbnd at 1, rassert. cbn [negb].
  unfold rret at 1. rstep (raw_load s eq_refl). rewrite (proj1 raw_np). unfold sidetable_isWeaklyReferenced.
  rstep (lock_step a s this Hi). set (s1 := with_held _ _).
  assert (Hs1 : with_held s1 (held s) = s) by (unfold s1; by destruct s).
  destruct (raw_find s1 eq_refl) as [Hf|(Hf & _ & _ & E3)]; rstep Hf; rstep (unlock_step a s1 this (held s) Hi eq_refl);
    unfold rret; rewrite Hs1; [by rewrite word_weak|by rewrite E3].
Qed.

Lemma raw_isDeallocating : does this (do b <- rootIsDeallocating a this; rret (Z.b2z b)) s (obj_step this O_isDeallocating o).
Proof.
  apply does_same. apply (rbnd_rret _ Z.b2z). unfold rootIsDeallocating. rewrite Ht. rstep (raw_load s eq_refl).
  rewrite (proj1 raw_np). unfold sidetable_isDeallocating.
  destruct (raw_find s eq_refl) as [Hf|(Hf & _ & E2 & _)]; rstep Hf; unfold rret; [by rewrite word_dying|by rewrite E2].
Qed.

Lemma raw_setWeaklyReferenced :
  does this (setWeaklyReferenced_nolock a fuel this ;; rret 0) s (obj_step this O_setWeaklyReferenced o).
Proof.
  destruct raw_range as [Hraw Hr]. apply does_cnt; [|done|done|simpl; lia]. apply (rbnd_rret _ (fun _ => 0) s tt).
  destruct fuel as [|fuel']; [lia|]. cbn [setWeaklyReferenced_nolock]. rstep (raw_load s eq_refl). rewrite (proj1 raw_np). cbn [negb].
  unfold sidetable_setWeaklyReferenced_nolock. rstep (raw_assert s eq_refl). rstep (raw_get s eq_refl). by rewrite word_set_weak.
Qed.

Lemma raw_ISA : does this (ISA a this) s (obj_step this O_ISA o).
Proof.
  apply does_same. unfold ISA. rewrite Ht. unfold rbnd at 1, rassert, rret at 1. cbn [negb]. rstep (raw_load s eq_refl).
  destruct Hrep as (_ & Hc & _). unfold rret. pose proof (class_ok_class _ Hc) as He. unfold isa_class in He. by rewrite He.
Qed.

End Raw.

(** A raw isa stays raw. *)
Lemma raw_changeIsa_loop c fuel this s o : raw_rep s this o -> class_ok (cls_addr c) -> (length (stores s) < fuel)%nat ->
  does this (changeIsa_loop a fuel this c false) s (obj_step this (O_changeIsa c) o).
Proof.
  revert s. induction fuel as [|fuel IH]; intros s Hrep Hc Hf; [lia|]. pose proof Hrep as (H1 & H2 & H3 & H4 & H5).
  destruct (class_ok_raw _ H2) as (Hnp & Hne & _). unfold does. cbn [changeIsa_loop]. rstep (rc_load s this _ H1). rewrite Hnp.
  replace (class o =? 0) with false by (symmetry; by apply Z.eqb_neq). cbn [orb andb negb]. unfold rbnd at 1, rret at 1.
  destruct (store_cases s this (class o) (cls_addr c) H1) as [(rest & Hst & Hs)|Hs]; rstep Hs; cbn [negb].
  - destruct (IH (with_stores s rest)) as (s' & R & P & L & F & N); [done|done|rewrite Hst in Hf; simpl in *; lia|].
    exists s'. split_and!; try done. etrans; [by apply frame_stores|done].
  - eexists. split_and!; [reflexivity| |done|apply frame_isa|done]. right. split_and!; try done; simpl.
    + by rewrite lookup_insert_eq.
    + by rewrite H3.
    + lia.
    + lia.
Qed.


(** ** Objects with a packed isa *)

Lemma set_bit_class i bits : rc_shift a - 3 <= i -> isa_class (set_bit i true bits) = isa_class bits.
Proof.
  intros Hi. apply isa_class_same. intros j Hj. apply in_shiftcls_low in Hj. rewrite set_bit_bits by (destruct a; simpl in *; lia).
  by replace (i =? j) with false by (symmetry; apply Z.eqb_neq; lia).
Qed.

Section Packed.
Context (this : Z) (s : rcs) (bits side : Z) (fuel : nat).
Context (Hc : counted a s this bits side) (Hn : count a bits side < 2 ^ 60) (Ht : isTaggedPointer a this = false).
Context (Hi : indexForPointer a this ∉ held s) (Hfuel : (length (stores s) + 2 < fuel)%nat).

Definition view (b sd : Z) : obj := mk_obj (count a b sd) (deallocating a b) (weakly_referenced a b) (isa_class b) false.
#[local] Abbreviation o := (view bits side).

Lemma packed_view s' b sd : counted a s' this b sd -> represents s' this (view b sd).
Proof. intros H. left. by exists b, sd. Qed.

Lemma packed_load : LoadExclusive this s = Ret (bits, s) /\ nonpointer bits = true.
Proof. destruct Hc as [H1 _ H3 _ _ _ _]. split; [by apply rc_load|done]. Qed.

Lemma packed_same c r : c s = Ret (r, s) -> does this c s (o, r, []).
Proof. intros He. exists s. split_and!; [exact He|by apply packed_view|done..]. Qed.

Lemma packed_room : side + 4 * RC_HALF a < 2 ^ 63 /\ 0 <= side / 4 /\ 0 <= extra_rc a bits.
Proof. destruct (count_nonneg _ _ _ _ _ Hc) as (P1 & P2 & P3). pose proof (half_range a). lia. Qed.

(** One more inline or in the side table. *)
Lemma view_retain b sd : flags_kept a bits b -> count a b sd = count a bits side + 1 -> view b sd = set_refs (refs o + 1) o.
Proof. intros F E. destruct (flags_kept_spec _ _ _ F) as (_ & D & W & _). unfold view, set_refs. simpl. by rewrite E, D, W, (isa_class_flags _ _ F). Qed.

Lemma packed_retain : does this (rootRetain a fuel this) s (obj_step this O_retain o).
Proof.
  unfold rootRetain, rootRetain_with. rewrite Ht.
  destruct (retain_loop_spec a fuel this false false false s bits side (held s)) as (s' & b & sd & R & C & E & _ & F & A1 & A2 & A3);
    [done|apply packed_room|done..|lia|].
  exists s'. split_and!; try done. cbn [obj_step fst]. rewrite <- (view_retain b sd F E). by apply packed_view.
Qed.

Lemma packed_tryRetain : this <> 0 -> does this (do r <- rootTryRetain a fuel this; rret (Z.b2z r)) s (obj_step this O_tryRetain o).
Proof.
  clear Hi. intros H0. cbn [obj_step dying view]. unfold rootTryRetain, rootRetain_with. rewrite Ht. destruct (deallocating a bits) eqn:Ed.
  - apply packed_same. apply (rbnd_rret _ Z.b2z _ false), (rbnd_rret _ (fun r => negb (r =? 0)) _ 0).
    destruct fuel as [|fuel']; [lia|]. cbn [rootRetain_loop]. destruct packed_load as [L N]. rstep L. by rewrite N, Ed.
  - destruct (retain_loop_spec a fuel this true false false s bits side (held s)) as (s' & b & sd & R & C & E & _ & F & A1 & A2 & A3);
      [done|apply packed_room|done..|lia|].
    exists s'. split_and!; try done.
    + apply (rbnd_rret _ Z.b2z _ true). rstep R. unfold rret. by replace (this =? 0) with false by (symmetry; apply Z.eqb_neq; lia).
    + cbn [fst]. rewrite <- (view_retain b sd F E). by apply packed_view.
Qed.

Lemma packed_release : does this (do r <- rootRelease a fuel this; rret (Z.b2z r)) s (obj_step this O_release o).
Proof.
  unfold rootRelease, rootRelease_with. rewrite Ht.
  destruct (release_loop_spec a fuel this true false false s bits side (held s)) as (s' & b & sd & r & R & C & D & _ & A1 & A2);
    [done..|lia|].
  exists s'. rstep R. unfold rret, released_one in *. cbn [obj_step refs dying view]. destruct (count a bits side =? 0) eqn:E0; zbool.
  - destruct D as [-> D]. destruct (deallocating a bits) eqn:Ed; destruct D as (-> & -> & D).
    + split_and!; try done. by apply packed_view.
    + split_and!; try done. replace (mk_obj _ _ _ _ _) with (view (set_deallocating a true bits) side); [by apply packed_view|].
      pose proof Hc as [H1 H2 H3 _ _ _ _]. destruct (set_deallocating_spec a bits H2 H3) as (_ & X & _ & Y & _ & W).
      unfold view, count in *. cbn [weak class raw view]. rewrite X, Y, W, E0. f_equal. apply set_bit_class. lia.
  - destruct D as (-> & D1 & D2 & D3). split_and!; try done. cbn [fst].
    replace (set_refs _ _) with (view b sd); [by apply packed_view|]. destruct (low_flags a _ _ D2) as (_ & _ & _ & W & Y & _).
    assert (F : flags_kept a bits b) by by left. unfold view, set_refs. simpl. by rewrite D1, W, Y, (isa_class_flags _ _ F).
Qed.

Lemma packed_retainCount : does this (rootRetainCount a this) s (obj_step this O_retainCount o).
Proof. apply packed_same. by apply retainCount_spec. Qed.

Lemma packed_isWeaklyReferenced :
  does this (do b <- isWeaklyReferenced a this; rret (Z.b2z b)) s (obj_step this O_isWeaklyReferenced o).
Proof.
  apply packed_same, (rbnd_rret _ Z.b2z). unfold isWeaklyReferenced. rewrite Ht. unfold rbnd at 1, rassert, rret at 1. cbn [negb].
  destruct packed_load as [L N]. rstep L. by rewrite N.
Qed.

Lemma packed_isDeallocating : does this (do b <- rootIsDeallocating a this; rret (Z.b2z b)) s (obj_step this O_isDeallocating o).
Proof. apply packed_same, (rbnd_rret _ Z.b2z). unfold rootIsDeallocating. rewrite Ht. destruct packed_load as [L N]. rstep L. by rewrite N. Qed.

Lemma packed_ISA : does this (ISA a this) s (obj_step this O_ISA o).
Proof.
  apply packed_same. unfold ISA. rewrite Ht. unfold rbnd at 1, rassert, rret at 1. cbn [negb]. by rstep (proj1 packed_load).
Qed.

End Packed.

Lemma packed_setWeak_loop fuel this s bits side : counted a s this bits side -> (length (stores s) < fuel)%nat ->
  does this (setWeaklyReferenced_nolock a fuel this ;; rret 0) s (obj_step this O_setWeaklyReferenced (view bits side)).
Proof.
  revert s. induction fuel as [|fuel IH]; intros s Hc Hf; [lia|]. pose proof Hc as [H1 H2 H3 H4 H5 H6 H7].
  cbn [setWeaklyReferenced_nolock obj_step]. unfold does, rbnd at 1. rstep (rc_load s this bits H1). rewrite H3. cbn [negb].
  assert (Hb : 0 <= rc_shift a - 3 < rc_shift a) by (destruct a; simpl; lia). destruct (weakly_referenced a bits) eqn:Ew.
  { exists s. split_and!; try done. left. exists bits, side. simpl. by rewrite Ew. }
  destruct (set_bit_spec a (rc_shift a - 3) bits Hb H2) as (Hok & Hex & _). set (bits' := set_weakly_referenced a true bits).
  destruct (store_cases s this bits bits' H1) as [(rest & Hst & Hs)|Hs]; rstep Hs; cbn [negb].
  - destruct (IH (with_stores s rest)) as (s' & R & P & L & F & N); [by apply (counted_same a s)|rewrite Hst in Hf; simpl in *; lia|].
    exists s'. split_and!; try done. etrans; [by apply frame_stores|done].
  - assert (Hbit : forall j, 0 <= j < rc_shift a -> Z.testbit bits' j = (rc_shift a - 3 =? j) || Z.testbit bits j)
      by (intros j Hj; by apply (set_bit_testbit a)).
    assert (Hfl : nonpointer bits' = true /\ has_sidetable_rc a bits' = has_sidetable_rc a bits /\
      deallocating a bits' = deallocating a bits /\ weakly_referenced a bits' = true).
    { unfold nonpointer, has_sidetable_rc, deallocating, weakly_referenced in *. rewrite !Hbit by (destruct a; simpl; lia).
      rewrite H3. destruct a; split_and!; reflexivity || apply orb_true_r. }
    destruct Hfl as (F1 & F2 & F3 & F4). eexists. split_and!; [reflexivity| |done|apply frame_isa|done].
    left. exists bits', side. split; [apply (counted_isa a s this bits); [done|done|done|by rewrite F2]|].
    cbn [fst]. unfold view, count in *. cbn [refs dying class raw view]. rewrite F3, F4. f_equal; [by rewrite (Hex : extra_rc a bits' = _)|].
    symmetry. apply set_bit_class. lia.
Qed.


(** ** From one representation to the other *)

Lemma moveExtraRC_step s this isa bits side d w : isas s !! this = Some isa -> nonpointer isa = false ->
  default 0 (refcnts s !! this) = side -> side mod 4 = 0 -> 0 <= side / 4 -> 0 <= extra_rc a bits -> count a bits side < 2 ^ 60 ->
  sidetable_moveExtraRC_nolock this (extra_rc a bits) d w s = Ret (tt, with_cnt s this (side_word (count a bits side) d w)).
Proof.
  intros H1 H2 H3 H4 H5 H6 H7. assert (Hside : side = 4 * (side / 4)) by (pose proof (Z.div_mod side 4 ltac:(lia)); lia).
  unfold sidetable_moveExtraRC_nolock. rewrite <- H2. rstep (assert_isa_step s this isa H1).
  rewrite (rbnd_Ret _ _ s side s) by (unfold refcnt_get; by rewrite H3). rstep (no_flags_step s side H4).
  unfold SIDE_TABLE_RC_SHIFT. rewrite Z.shiftl_mul_pow2 by lia. change (2 ^ 2) with 4. unfold count in *.
  rewrite (wrap_id 64 (extra_rc a bits * 4)) by (unfold in_u; lia). unfold addc.
  replace (2 ^ 64 <=? side + extra_rc a bits * 4) with false by (symmetry; apply Z.leb_gt; lia). cbv iota beta zeta.
  rewrite wrap_id by (unfold in_u; lia).
  replace (side + extra_rc a bits * 4) with (side_word (extra_rc a bits + side / 4) false false) by (unfold side_word; simpl Z.b2z; lia).
  destruct d, w; rewrite ?word_set_dying, ?word_set_weak by lia; done.
Qed.

Lemma packed_changeIsa_loop c fuel this s bits side (lk : bool) (h : gset Z) :
  counted a s this bits side -> count a bits side < 2 ^ 60 -> class_ok (cls_addr c) -> indexForPointer a this ∉ h ->
  held s = (if lk then {[indexForPointer a this]} ∪ h else h) -> (lk = true -> cls_isFuture c || cls_requireRawIsa c = true) ->
  (length (stores s) < fuel)%nat ->
  exists s', changeIsa_loop a fuel this c lk s = Ret (isa_class bits, s') /\
    represents s' this (obj_step this (O_changeIsa c) (view bits side)).1.1 /\ held s' = h /\ frame this s s' /\ notices s' = notices s.
Proof.
  revert s lk. induction fuel as [|fuel IH]; intros s lk Hc Hn Hcls Hi Hh Hlk Hf; [lia|]. pose proof Hc as [H1 H2 H3 H4 H5 H6 H7].
  cbn [changeIsa_loop]. rstep (rc_load s this bits H1). rewrite H3.
  assert (Hz : (bits =? 0) = false) by (apply Z.eqb_neq; intros ->; discriminate). rewrite Hz. cbn [orb andb].
  rewrite andb_true_r. unfold cls_canAllocNonpointer. cbn [obj_step fst raw view orb]. rewrite shiftcls_class.
  replace (negb (cls_isFuture c) && negb (cls_requireRawIsa c)) with (negb (cls_isFuture c || cls_requireRawIsa c)) by apply negb_orb.
  set (raw' := cls_isFuture c || cls_requireRawIsa c) in *. rewrite negb_involutive.
  (* the lock *)
  set (lk' := lk || raw') in *. assert (Hlk' : lk' = raw') by (unfold lk'; destruct lk; [by rewrite Hlk|done]).
  assert (Hlock : exists s1, (if raw' && negb lk then sidetable_lock a this else rret tt) s = Ret (tt, s1) /\
    isas s1 = isas s /\ refcnts s1 = refcnts s /\ stores s1 = stores s /\ notices s1 = notices s /\
    held s1 = (if lk' then {[indexForPointer a this]} ∪ h else h)).
  { rewrite Hlk'. destruct raw' eqn:Er, lk; cbn [andb negb]; try (by exists s; rewrite Hh); try (by discriminate Hlk).
    exists (with_held s ({[indexForPointer a this]} ∪ held s)). rewrite lock_step by by rewrite Hh. by rewrite Hh. }
  destruct Hlock as (s1 & Hlock & Hi1 & Hr1 & Hs1 & Hn1 & Hh1). rstep Hlock.
  pose proof (counted_same a s s1 this bits side Hc Hi1 Hr1) as Hc1. set (newisa := if negb raw' then _ else _).
  assert (Hf1 : frame this s s1) by (apply frame_same; [done..|by rewrite Hs1]).
  destruct (store_cases s1 this bits newisa (c_isa _ _ _ _ _ Hc1)) as [(rest & Hst & Hstore)|Hstore]; rstep Hstore; cbn [negb].
  - destruct (IH (with_stores s1 rest) lk') as (s' & R & P & L & F & N); try done.
    + by apply (counted_same a s1).
    + by rewrite Hlk'.
    + simpl. rewrite <- Hs1, Hst in Hf. simpl in Hf. lia.
    + exists s'. split_and!; try done; [|by rewrite N]. etrans; [exact Hf1|]. etrans; [by apply frame_stores|done].
  - set (s2 := with_stores _ _). assert (Hf2 : frame this s s2) by (etrans; [exact Hf1|apply frame_isa]).
    assert (Hh2 : held s2 = (if lk' then {[indexForPointer a this]} ∪ h else h)) by done. rewrite Hlk' in *. destruct raw'; cbn [negb] in *.
    + rewrite (rbnd_Ret _ _ s2 tt (with_cnt s2 this (side_word (count a bits side) (deallocating a bits) (weakly_referenced a bits)))).
      * rewrite (rbnd_Ret _ _ _ tt (with_held (with_cnt s2 this (side_word (count a bits side) (deallocating a bits) (weakly_referenced a bits))) h))
          by (by apply unlock_step).
        eexists. split_and!; [reflexivity| |done| |done].
        -- right. destruct (count_nonneg _ _ _ _ _ Hc) as (P1 & P2 & _). split_and!; try done; simpl.
           ++ by rewrite lookup_insert_eq.
           ++ unfold count. lia.
           ++ lia.
           ++ by rewrite lookup_insert_eq.
        -- etrans; [by apply (frame_cnt this s s2)|]. by apply frame_same.
      * destruct (count_nonneg _ _ _ _ _ Hc) as (P1 & P2 & _). apply (moveExtraRC_step s2 this (cls_addr c)); try done.
        -- simpl. by rewrite lookup_insert_eq.
        -- by apply (class_ok_raw _ Hcls).
        -- simpl. by rewrite Hr1.
        -- by apply (side_mod_4 a).
    + unfold rbnd at 1, rret at 1, unlock_if, rbnd, rret. exists s2. split_and!; try done. left.
      destruct (packed_isa_spec c (cls_hasCxxDtor c) bits H2 Hcls) as (K1 & K2 & K3 & K4 & K5 & K6 & K7). fold newisa in K1, K2, K3, K4, K5, K6, K7.
      exists newisa, side. split.
      * apply (counted_isa a s1 this bits); [done|done|by rewrite K4|by rewrite K7].
      * unfold count in *. by rewrite K2, K3, K5, K6.
Qed.


(** ** Refinement *)

Lemma represents_refs s this o : represents s this o -> 0 <= refs o.
Proof.
  intros [(b & sd & Hc & ->)|(_ & _ & _ & H & _)]; [|lia]. destruct (count_nonneg _ _ _ _ _ Hc) as (P1 & P2 & _). simpl. unfold count. lia.
Qed.

Lemma obj_step_grows this op o : 0 <= refs o -> 0 <= refs (obj_step this op o).1.1 <= refs o + 1.
Proof. destruct op; simpl; repeat case_match; simpl; zbool; lia. Qed.

Lemma changeIsa_untag fuel this c s : isTaggedPointer a this = false -> changeIsa a fuel this c s = changeIsa_loop a fuel this c false s.
Proof. intros Ht. unfold changeIsa. by rewrite Ht. Qed.

Lemma packed_step fuel this op s bits side : counted a s this bits side -> count a bits side < 2 ^ 60 -> op_ok op (view bits side) -> this <> 0 ->
  isTaggedPointer a this = false -> indexForPointer a this ∉ held s -> (length (stores s) + 2 < fuel)%nat ->
  does this (rc_step fuel this op) s (obj_step this op (view bits side)).
Proof.
  intros Hc Hn Hok H0 Ht Hi Hf. destruct op; cbn [rc_step].
  - by apply packed_retain.
  - by apply packed_tryRetain.
  - by apply packed_release.
  - by apply packed_retainCount.
  - destruct (packed_changeIsa_loop c fuel this s bits side false (held s)) as (s' & R & P & L & F & N); [done..|lia|].
    exists s'. split_and!; try done. by rewrite changeIsa_untag.
  - apply packed_setWeak_loop; [done|lia].
  - by apply packed_isWeaklyReferenced.
  - by apply packed_isDeallocating.
  - by apply packed_ISA.
Qed.

Lemma raw_step fuel this op s o : raw_rep s this o -> refs o < 2 ^ 60 -> op_ok op o -> this <> 0 ->
  isTaggedPointer a this = false -> indexForPointer a this ∉ held s -> (length (stores s) + 2 < fuel)%nat ->
  does this (rc_step fuel this op) s (obj_step this op o).
Proof.
  intros Hr Hn Hok H0 Ht Hi Hf. destruct op; cbn [rc_step].
  - by apply raw_retain.
  - by apply raw_tryRetain.
  - by apply raw_release.
  - by apply (raw_retainCount _ _ _ fuel).
  - destruct (raw_changeIsa_loop c fuel this s o) as (s' & R & P); [done..|lia|]. exists s'. by rewrite changeIsa_untag.
  - by apply raw_setWeaklyReferenced.
  - by eapply raw_isWeaklyReferenced.
  - by eapply raw_isDeallocating.
  - by apply raw_ISA.
Qed.

Lemma rc_step_refines fuel this op s o : represents s this o -> refs o < 2 ^ 60 -> op_ok op o -> this <> 0 ->
  isTaggedPointer a this = false -> indexForPointer a this ∉ held s -> (length (stores s) + 2 < fuel)%nat ->
  does this (rc_step fuel this op) s (obj_step this op o).
Proof. intros [(b & sd & Hc & ->)|Hr] Hn; [by apply packed_step|by apply raw_step]. Qed.

(** The operations that do not take the lock, which their callers hold. *)
Definition nolock (op : obj_op) : bool :=
  match op with O_tryRetain | O_setWeaklyReferenced | O_isDeallocating | O_ISA => true | _ => false end.

Lemma nolock_step_refines fuel this op s o : nolock op = true -> represents s this o -> refs o < 2 ^ 60 -> this <> 0 ->
  isTaggedPointer a this = false -> (length (stores s) + 2 < fuel)%nat -> does this (rc_step fuel this op) s (obj_step this op o).
Proof.
  intros Hop [(b & sd & Hc & ->)|Hr] Hn H0 Ht Hf; destruct op; try discriminate Hop; cbn [rc_step].
  - by apply packed_tryRetain.
  - apply packed_setWeak_loop; [done|lia].
  - by apply packed_isDeallocating.
  - by apply packed_ISA.
  - by apply raw_tryRetain.
  - by apply raw_setWeaklyReferenced.
  - by apply raw_isDeallocating.
  - by apply raw_ISA.
Qed.

Lemma represents_local s s' this o : represents s this o -> isas s' !! this = isas s !! this -> refcnts s' !! this = refcnts s !! this ->
  represents s' this o.
Proof.
  intros [(bits & side & [H1 H2 H3 H4 H5 H6 H7] & Ho)|Hr] Hi Hs.
  - left. exists bits, side. split; [|done]. constructor; try done; [by rewrite Hi|by rewrite Hs].
  - right. unfold raw_rep. by rewrite Hi, Hs.
Qed.

(** A caller of the operations on [this]. *)
Record usable (fuel : nat) (this : Z) (s : rcs) (ops : list obj_op) (o : obj) : Prop := mk_usable {
  us_rep : represents s this o;
  us_room : refs o + Z.of_nat (length ops) < 2 ^ 60;
  us_ops : ops_ok this ops o;
  us_this : this <> 0 /\ isTaggedPointer a this = false;
  us_lock : indexForPointer a this ∉ held s;
  us_fuel : (length (stores s) + 2 < fuel)%nat }.

Lemma rc_run_obj fuel this ops s o : usable fuel this s ops o ->
  exists s', rc_run fuel this ops s = Ret ((obj_run this ops o).1.2, s') /\ represents s' this (obj_run this ops o).1.1 /\
    held s' = held s /\ frame this s s' /\ notices s' = (obj_run this ops o).2 ++ notices s.
Proof.
  revert s o. induction ops as [|op ops IH]; intros s o [Hr Hn Hok [H0 Ht] Hi Hf]; [exists s; by split_and!|].
  pose proof (represents_refs _ _ _ Hr) as Hpos. cbn [length ops_ok] in *. destruct Hok as [Hok Hoks].
  assert (Hn' : refs o < 2 ^ 60) by lia.
  destruct (rc_step_refines fuel this op s o Hr Hn' Hok H0 Ht Hi Hf) as (s1 & R1 & P1 & L1 & F1 & N1).
  pose proof (obj_step_grows this op o Hpos) as Hg.
  destruct (IH s1 (obj_step this op o).1.1) as (s2 & R2 & P2 & L2 & F2 & N2).
  { constructor; try done; [lia|by rewrite L1|destruct F1; lia]. }
  exists s2. cbn [rc_run]. rstep R1. rstep R2. cbn [obj_run].
  destruct (obj_step this op o) as [[o1 r] ns]. cbn [fst snd] in *.
  destruct (obj_run this ops o1) as [[o2 rs] ns']. cbn [fst snd] in *. split_and!; try done.
  - by rewrite L2.
  - by etrans.
  - by rewrite N2, N1, app_assoc.
Qed.

(** C3. Whatever sequence of retains, tried retains, releases, counts, class changes and weak
    marks is applied to an object, and whichever exclusive stores fail on the way, the header
    bits and the side table together behave as one record of references, flags and class: the
    results, the reports of deallocation and over-release and the final state are the record's,
    no other object changes and every lock is given back.  The caller's part: an object with a raw
    isa that is being deallocated is not released again. *)
Theorem object_run_refines fuel this ops s o : usable fuel this s ops o ->
  exists s', rc_run fuel this ops s = Ret ((obj_run this ops o).1.2, s') /\ represents s' this (obj_run this ops o).1.1 /\
    held s' = held s /\ frame this s s' /\ notices s' = (obj_run this ops o).2 ++ notices s.
Proof. apply rc_run_obj. Qed.

(** ** Deallocation *)

#[local] Instance notice_eq_dec : EqDecision notice.
Proof. solve_decision. Defined.

Definition deallocs (this : Z) (ns : list notice) : nat := length (filter (eq (N_dealloc this)) ns).

Lemma deallocs_app this l k : deallocs this (l ++ k) = (deallocs this l + deallocs this k)%nat.
Proof. unfold deallocs. by rewrite filter_app, length_app. Qed.

Lemma deallocs_self this : deallocs this [N_dealloc this] = 1%nat.
Proof. unfold deallocs. by rewrite (filter_cons_True _ (N_dealloc this) []). Qed.

(** Retains and releases alone: at some point a release finds [n] further references gone. *)
Fixpoint owners_gone (n : Z) (ops : list obj_op) : bool :=
  match ops with
  | [] => false
  | O_release :: ops' => if n =? 0 then true else owners_gone (n - 1) ops'
  | (O_retain | O_tryRetain) :: ops' => owners_gone (n + 1) ops'
  | _ :: ops' => owners_gone n ops'
  end.

Lemma run_dying this ops o : dying o = true -> deallocs this (obj_run this ops o).2 = 0%nat.
Proof.
  revert o. induction ops as [|op ops IH]; intros o Hd; [done|]. cbn [obj_run].
  assert (H : dying (obj_step this op o).1.1 = true /\ deallocs this (obj_step this op o).2 = 0%nat)
    by (destruct op; simpl; rewrite ?Hd; repeat case_match; simpl; try done).
  destruct (obj_step this op o) as [[o1 r] ns]. destruct H as [H1 H2]. specialize (IH o1 H1). cbn [fst snd] in *.
  destruct (obj_run this ops o1) as [[o2 rs] ns']. cbn [snd] in *. by rewrite deallocs_app, IH, H2.
Qed.

Lemma run_deallocs this ops o : dying o = false -> deallocs this (obj_run this ops o).2 = (if owners_gone (refs o) ops then 1 else 0)%nat.
Proof.
  revert o. induction ops as [|op ops IH]; intros o Hd; [done|]. cbn [obj_run].
  assert (H : let st := obj_step this op o in
    (dying st.1.1 = false /\ deallocs this st.2 = 0%nat /\ owners_gone (refs o) (op :: ops) = owners_gone (refs st.1.1) ops) \/
    (dying st.1.1 = true /\ deallocs this st.2 = 1%nat /\ owners_gone (refs o) (op :: ops) = true)).
  { destruct op; simpl; rewrite ?Hd; try (left; done). destruct (refs o =? 0); [right|by left].
    split_and!; [done|apply deallocs_self|done]. }
  destruct (obj_step this op o) as [[o1 r] ns]. cbn [fst snd] in *. pose proof (run_dying this ops o1) as Hdie. specialize (IH o1).
  destruct (obj_run this ops o1) as [[o2 rs] ns']. cbn [snd] in *. rewrite deallocs_app.
  destruct H as [(H1 & H2 & H3)|(H1 & H2 & H3)]; rewrite H3, H2; [rewrite IH by done; lia|by rewrite Hdie].
Qed.

(** Releases less retains. *)
Fixpoint balance (ops : list obj_op) : Z :=
  match ops with
  | [] => 0
  | O_release :: ops' => balance ops' + 1
  | (O_retain | O_tryRetain) :: ops' => balance ops' - 1
  | _ :: ops' => balance ops'
  end.

Lemma balance_gone ops n : 0 <= n -> n < balance ops -> owners_gone n ops = true.
Proof.
  revert n. induction ops as [|op ops IH]; intros n Hn Hb; cbn [balance] in Hb; [lia|].
  destruct op; cbn [owners_gone]; try (apply IH; lia). destruct (n =? 0) eqn:E; [done|]. zbool. apply IH; lia.
Qed.

Lemma deallocs_elem this ns : deallocs this ns <> 0%nat -> N_dealloc this ∈ ns.
Proof.
  intros H. unfold deallocs in H. destruct (filter (eq (N_dealloc this)) ns) as [|x l] eqn:E; [done|].
  assert (Hx : x ∈ filter (eq (N_dealloc this)) ns) by (rewrite E; left). apply list_elem_of_filter in Hx as [<- Hx]. done.
Qed.

Lemma run_stays_dying this ops o : dying o = true -> dying (obj_run this ops o).1.1 = true.
Proof.
  revert o. induction ops as [|op ops IH]; intros o Hd; [done|]. cbn [obj_run].
  assert (H : dying (obj_step this op o).1.1 = true) by (destruct op; simpl; rewrite ?Hd; repeat case_match; simpl; try done).
  destruct (obj_step this op o) as [[o1 r] ns]. specialize (IH o1 H). by destruct (obj_run this ops o1) as [[o2 rs] ns'].
Qed.

Lemma run_dies this ops o : dying o = false -> deallocs this (obj_run this ops o).2 <> 0%nat -> dying (obj_run this ops o).1.1 = true.
Proof.
  revert o. induction ops as [|op ops IH]; intros o Hd Hn; [done|]. cbn [obj_run] in *.
  assert (H : dying (obj_step this op o).1.1 = false -> deallocs this (obj_step this op o).2 = 0%nat)
    by (destruct op; simpl; rewrite ?Hd; repeat case_match; simpl; try done).
  destruct (obj_step this op o) as [[o1 r] ns]. pose proof (run_stays_dying this ops o1) as Hs. specialize (IH o1). cbn [fst snd] in *.
  destruct (obj_run this ops o1) as [[o2 rs] ns']. cbn [fst snd] in *. rewrite deallocs_app in Hn.
  destruct (dying o1); [by apply Hs|]. apply IH; [done|]. rewrite H in Hn by done. lia.
Qed.

Lemma rep_isDeallocating this s o : represents s this o -> isTaggedPointer a this = false -> dying o = true ->
  rootIsDeallocating a this s = Ret (true, s).
Proof.
  intros Hr Ht Hd. unfold rootIsDeallocating. rewrite Ht. destruct Hr as [(b & sd & [H1 _ H3 _ _ _ _] & ->)|Hr].
  - rstep (rc_load s this b H1). rewrite H3. simpl in Hd. by rewrite Hd.
  - rstep (raw_load this s o Hr s eq_refl). rewrite (proj1 (raw_np this s o Hr)). unfold sidetable_isDeallocating.
    destruct (raw_find this s o Hr s eq_refl) as [Hf|(Hf & _ & E & _)]; [|by rewrite E in Hd]. rstep Hf. unfold rret. by rewrite word_dying, Hd.
Qed.

(** C32. An object is told to deallocate at most once, and exactly when a release finds that no
    other reference is left. *)
Theorem dealloc_exactly_once fuel this ops s o : usable fuel this s ops o -> dying o = false ->
  exists s' rs, rc_run fuel this ops s = Ret (rs, s') /\
    deallocs this (notices s') = (deallocs this (notices s) + if owners_gone (refs o) ops then 1 else 0)%nat.
Proof.
  intros Hu Hd. destruct (rc_run_obj _ _ _ _ _ Hu) as (s' & R & _ & _ & _ & N). exists s', (obj_run this ops o).1.2. split; [done|].
  rewrite N, deallocs_app, run_deallocs by done. lia.
Qed.

(** C33. Once the releases of an object outnumber its retains, so that no owner is left, the runtime
    has sent it its dealloc message, whatever the order of the operations and however many of the
    exclusive stores failed. *)
Theorem unowned_object_deallocates fuel this ops s o : usable fuel this s ops o -> dying o = false -> refs o < balance ops ->
  exists s' rs, rc_run fuel this ops s = Ret (rs, s') /\ N_dealloc this ∈ notices s' /\ rootIsDeallocating a this s' = Ret (true, s').
Proof.
  intros Hu Hd Hb. destruct (rc_run_obj _ _ _ _ _ Hu) as (s' & R & P & L & _ & N). exists s', (obj_run this ops o).1.2.
  pose proof Hu as [Hr _ _ [H0 Ht] Hi _]. pose proof (represents_refs _ _ _ Hr) as Hn.
  pose proof (run_deallocs this ops o Hd) as Hone. rewrite balance_gone in Hone by done. split_and!; [done| |].
  - rewrite N. apply elem_of_app. left. by apply deallocs_elem; rewrite Hone.
  - apply rep_isDeallocating with (o := (obj_run this ops o).1.1); [done|done|]. apply run_dies; [done|]. by rewrite Hone.
Qed.


(** ** New objects *)

Lemma magic_isa : isa_ok (ISA_MAGIC_VALUE a) /\ extra_rc a (ISA_MAGIC_VALUE a) = 0 /\ nonpointer (ISA_MAGIC_VALUE a) = true /\
  weakly_referenced a (ISA_MAGIC_VALUE a) = false /\ deallocating a (ISA_MAGIC_VALUE a) = false /\
  has_sidetable_rc a (ISA_MAGIC_VALUE a) = false.
Proof. destruct a; vm_compute; split_and!; done. Qed.

(** A new instance, with a packed or a raw isa, is an object of its class that one owner holds,
    and making it changes no other object. *)
Theorem initIsa_fresh this cls np dtor s : isTaggedPointer a this = false -> class_ok (cls_addr cls) ->
  np && cls_requireRawIsa cls = false -> refcnts s !! this = None ->
  exists s', initIsa a this cls np dtor s = Ret (tt, s') /\ represents s' this (mk_obj 0 false false (cls_addr cls) (negb np)) /\
    held s' = held s /\ frame this s s'.
Proof.
  intros Ht Hc Hnp Hr. unfold initIsa. rewrite Ht. exists (with_isa s this (if np then packed_isa a cls dtor (ISA_MAGIC_VALUE a) else cls_addr cls)).
  split_and!; [destruct np; [simpl in Hnp; by rewrite Hnp|done]| |done|split; [|done]; intros o Ho; simpl; by rewrite lookup_insert_ne].
  destruct magic_isa as (M1 & M2 & M3 & M4 & M5 & M6). destruct np; [left|right].
  - destruct (packed_isa_spec cls dtor _ M1 Hc) as (K1 & K2 & K3 & K4 & K5 & K6 & K7). exists (packed_isa a cls dtor (ISA_MAGIC_VALUE a)), 0. split.
    + constructor; [simpl; by rewrite lookup_insert_eq|done|by rewrite K4|simpl; by rewrite Hr|by apply Z.mod_0_l; destruct a|lia|done].
    + unfold count. by rewrite K2, K3, K5, K6, M2, M4, M5.
  - split_and!; try done; simpl; [by rewrite lookup_insert_eq|by rewrite Hr].
Qed.

(** The operations on an entry of any value. *)
Section Entry.
Context (fuel : nat) (this isa v : Z) (s : rcs).
Context (H1 : isas s !! this = Some isa) (Hnp : nonpointer isa = false) (Hv : refcnts s !! this = Some v).
Context (Ht : isTaggedPointer a this = false) (Hi : indexForPointer a this ∉ held s).

Lemma relock : with_held (with_held s ({[indexForPointer a this]} ∪ held s)) (held s) = s.
Proof. by destruct s. Qed.

Lemma entry_assert : assert_isa this false s = Ret (tt, s).
Proof. rewrite <- Hnp. by apply assert_isa_step. Qed.

Lemma entry_release : (v <? SIDE_TABLE_DEALLOCATING) = false ->
  rootRelease a (S fuel) this s = Ret (false, if has v SIDE_TABLE_RC_PINNED then s else with_cnt s this (u64 (v - SIDE_TABLE_RC_ONE))).
Proof.
  intros Hd. unfold rootRelease, rootRelease_with. rewrite Ht. cbn [rootRelease_loop]. rstep (rc_load s this isa H1). rewrite Hnp. cbn [negb].
  unfold unlock_if, rbnd at 1, rret at 1, sidetable_release. rstep entry_assert. rstep (lock_step a s this Hi). set (s1 := with_held _ _).
  rewrite (rbnd_Ret _ _ s1 (Some v) s1) by (unfold refcnt_find; cbn [refcnts s1 with_held]; by rewrite Hv). rewrite Hd.
  destruct (has v SIDE_TABLE_RC_PINNED); cbn [negb].
  - unfold rbnd at 1, rret at 1. rstep (unlock_step a s1 this (held s) Hi eq_refl). unfold s1. by rewrite relock.
  - rewrite (rbnd_Ret _ _ s1 false (with_cnt s1 this (u64 (v - SIDE_TABLE_RC_ONE)))) by done.
    rstep (unlock_step a (with_cnt s1 this (u64 (v - SIDE_TABLE_RC_ONE))) this (held s) Hi eq_refl). by destruct s.
Qed.

Lemma entry_retain_pinned : has v SIDE_TABLE_RC_PINNED = true -> rootRetain a (S fuel) this s = Ret (this, s).
Proof.
  intros Hp. unfold rootRetain, rootRetain_with. rewrite Ht. cbn [rootRetain_loop]. rstep (rc_load s this isa H1). rewrite Hnp. cbn [negb andb].
  unfold unlock_if, rbnd at 1, rret at 1, sidetable_retain. rstep entry_assert. rstep (lock_step a s this Hi). set (s1 := with_held _ _).
  rewrite (rbnd_Ret _ _ s1 v s1) by (unfold refcnt_get; cbn [refcnts s1 with_held]; by rewrite Hv). rewrite Hp.
  rstep (set_step s1 this v). replace (with_cnt s1 this v) with s1
    by (unfold s1, with_cnt, with_held; destruct s; simpl in *; f_equal; symmetry; by apply insert_id).
  rstep (unlock_step a s1 this (held s) Hi eq_refl). unfold s1. by rewrite relock.
Qed.

Lemma entry_retainCount : rootRetainCount a this s = Ret (u64 (1 + Z.shiftr v SIDE_TABLE_RC_SHIFT), s).
Proof.
  unfold rootRetainCount. rewrite Ht. rstep (lock_step a s this Hi). set (s1 := with_held _ _). rstep (rc_load s1 this isa H1). rewrite Hnp.
  assert (Hs : with_held s1 (held s) = s) by apply relock. rstep (unlock_step a s1 this (held s) Hi eq_refl). rewrite Hs.
  unfold sidetable_retainCount. rstep (lock_step a s this Hi). fold s1.
  rewrite (rbnd_Ret _ _ s1 (Some v) s1) by (unfold refcnt_find; cbn [refcnts s1 with_held]; by rewrite Hv).
  rstep (unlock_step a s1 this (held s) Hi eq_refl). by rewrite Hs.
Qed.

End Entry.

(** Releasing an object with a raw isa once more while it is being deallocated is not reported:
    the count in the side table wraps around, the object claims 2^62 references, and from then on
    retains and releases change nothing. *)
Theorem raw_overrelease_unnoticed fuel this s o : raw_rep s this o -> refs o = 0 -> dying o = true ->
  isTaggedPointer a this = false -> indexForPointer a this ∉ held s -> fuel <> O ->
  exists s', rootRelease a fuel this s = Ret (false, s') /\ notices s' = notices s /\ rootRetainCount a this s' = Ret (2 ^ 62, s') /\
    rootRelease a fuel this s' = Ret (false, s') /\ rootRetain a fuel this s' = Ret (this, s').
Proof.
  intros Hr H0 Hd Ht Hi Hf. destruct fuel as [|fuel]; [done|]. pose proof Hr as (H1 & H2 & _ & _ & H5). rewrite H0, Hd in H5.
  destruct (class_ok_raw _ H2) as (Hnp & _). set (v := side_word 0 true (weak o)) in *. set (v' := u64 (v - 4)).
  assert (Hv : refcnts s !! this = Some v) by (destruct (refcnts s !! this); simpl in H5; [by subst|unfold v in H5; by destruct (weak o)]).
  assert (Hv' : (v' <? SIDE_TABLE_DEALLOCATING) = false /\ has v' SIDE_TABLE_RC_PINNED = true /\ u64 (1 + Z.shiftr v' SIDE_TABLE_RC_SHIFT) = 2 ^ 62)
    by (unfold v', v; by destruct (weak o)). destruct Hv' as (V1 & V2 & V3).
  assert (V0 : (v <? SIDE_TABLE_DEALLOCATING) = false /\ has v SIDE_TABLE_RC_PINNED = false) by (unfold v; by destruct (weak o)).
  destruct V0 as [V0 V0']. exists (with_cnt s this v'). assert (Hv2 : refcnts (with_cnt s this v') !! this = Some v') by (simpl; by rewrite lookup_insert_eq).
  split_and!; [|done|by rewrite (entry_retainCount this (class o) v'), V3| |].
  - by rewrite (entry_release fuel this (class o) v), V0'.
  - by rewrite (entry_release fuel this (class o) v'), V2.
  - by rewrite (entry_retain_pinned fuel this (class o) v').
Qed.

End Object.
