(* ===== verification/ObjectSamples.v ===== *)
(** * Objects: concrete runs

    Instances of the theorems of ObjectSpec.v. *)

From Stdlib Require Import ZArith Lia Bool.
From stdpp Require Import base list gmap.
From S2P Require Import Prelude RetainCount RetainCountSpec ObjectSpec.

Local Open Scope Z_scope.

Definition sample_this : Z := 0x10000.
Definition sample_class : class_info := mk_class_info 0x20000 false false false.
Definition sample_raw_class : class_info := mk_class_info 0x20100 false false true.

(** A new instance on x86_64, and stores that fail at times. *)
Definition sample_state : rcs :=
  mk_rcs {[sample_this := packed_isa x86_64 sample_class false (ISA_MAGIC_VALUE x86_64)]} ∅ ∅ [false; true; true; false; false; true; false] [].
Definition sample_obj : obj := mk_obj 0 false false 0x20000 false.

Lemma sample_rep : represents x86_64 sample_state sample_this sample_obj.
Proof.
  left. exists (packed_isa x86_64 sample_class false (ISA_MAGIC_VALUE x86_64)), 0. split; [|vm_compute; reflexivity].
  constructor; try (vm_compute; reflexivity); [vm_compute; split; congruence|lia|done].
Defined.

(** Enough retains to overflow the inline count of eight bits, then the release of half of them, a
    weak mark, a move to a class that needs raw isas, and the rest of the releases. *)
Definition sample_ops : list obj_op :=
  replicate 260 O_retain ++ [O_retainCount] ++ replicate 140 O_release ++
  [O_setWeaklyReferenced; O_changeIsa sample_raw_class; O_isWeaklyReferenced; O_retainCount] ++ replicate 121 O_release ++
  [O_tryRetain; O_isDeallocating; O_ISA].

Lemma sample_usable : usable x86_64 11 sample_this sample_state sample_ops sample_obj.
Proof.
  constructor; [exact sample_rep|vm_compute; reflexivity| |vm_compute; split; congruence|set_solver|vm_compute; lia].
  vm_compute. repeat (split; [done|]). repeat split; done.
Qed.

Lemma object_run_refines_witness : exists s', rc_run x86_64 11 sample_this sample_ops sample_state
    = Ret (replicate 260 sample_this ++ [261] ++ replicate 140 0 ++ [0; 0x20000; 1; 121] ++ replicate 120 0 ++ [1; 0; 1; 0x20100], s') /\
  notices s' = [N_dealloc sample_this].
Proof.
  destruct (object_run_refines x86_64 11 sample_this sample_ops sample_state sample_obj sample_usable) as (s' & R & _ & _ & _ & N).
  exists s'. split; [etrans; [exact R|]; vm_compute; reflexivity|etrans; [exact N|]; vm_compute; reflexivity].
Defined.

Lemma dealloc_exactly_once_witness : exists s' rs, rc_run x86_64 11 sample_this sample_ops sample_state = Ret (rs, s') /\
  deallocs sample_this (notices s') = 1%nat.
Proof.
  destruct (dealloc_exactly_once x86_64 11 sample_this sample_ops sample_state sample_obj sample_usable eq_refl) as (s' & rs & R & D).
  exists s', rs. split; [exact R|]. etrans; [exact D|]. vm_compute. reflexivity.
Defined.

Lemma unowned_object_deallocates_witness : exists s' rs,
  rc_run x86_64 11 sample_this [O_retain; O_release; O_retainCount; O_release] sample_state = Ret (rs, s') /\
  N_dealloc sample_this ∈ notices s' /\ rootIsDeallocating x86_64 sample_this s' = Ret (true, s').
Proof.
  apply (unowned_object_deallocates x86_64 11 sample_this _ sample_state sample_obj); [|reflexivity|vm_compute; reflexivity].
  constructor; [exact sample_rep|vm_compute; reflexivity|vm_compute; tauto|vm_compute; split; congruence|set_solver|vm_compute; lia].
Defined.

Lemma initIsa_fresh_witness : exists s', initIsa arm64 sample_this sample_class true false (mk_rcs ∅ ∅ ∅ [] []) = Ret (tt, s') /\
  represents arm64 s' sample_this (mk_obj 0 false false 0x20000 false) /\ held s' = ∅ /\ frame sample_this (mk_rcs ∅ ∅ ∅ [] []) s'.
Proof. apply (initIsa_fresh arm64 sample_this sample_class true false (mk_rcs ∅ ∅ ∅ [] [])); vm_compute; try reflexivity; by repeat split. Defined.

(** An object with a raw isa whose deallocation has begun. *)
Definition raw_state : rcs := mk_rcs {[sample_this := 0x20100]} {[sample_this := 2]} ∅ [] [].

Lemma raw_overrelease_unnoticed_witness : exists s', rootRelease arm64 1 sample_this raw_state = Ret (false, s') /\ notices s' = [] /\
  rootRetainCount arm64 sample_this s' = Ret (2 ^ 62, s') /\ rootRelease arm64 1 sample_this s' = Ret (false, s') /\
  rootRetain arm64 1 sample_this s' = Ret (sample_this, s').
Proof.
  apply (raw_overrelease_unnoticed arm64 1 sample_this raw_state (mk_obj 0 true false 0x20100 true)); try (vm_compute; reflexivity).
  - split_and!; vm_compute; try reflexivity; try congruence; by repeat split.
  - set_solver.
  - discriminate.
Defined.
