(* ===== verification/WeakTable.v ===== *)
(** * The weak table

    objc-weak.h and objc-weak.mm: for every weakly referenced object the set of the
    addresses of the weak variables that refer to it.  Small sets are arrays of four
    inside the entry, large ones hash sets with linear probing; the entries themselves
    are in a hash table with linear probing.  Both kinds of table remember the largest
    displacement ever used and stop a search there.

    Pointers are disguised by negation in the tables; here they are written plainly, and
    nil is 0.  An array is a list; reading outside it is a fault, as is the fatal error
    [bad_weak_table]. *)

From Stdlib Require Import ZArith Lia Bool.
From stdpp Require Import base list gmap.
From S2P Require Import Prelude.

Local Open Scope Z_scope.

(** ** Data *)

Definition WEAK_INLINE_COUNT : Z := 4.
Definition REFERRERS_OUT_OF_LINE : Z := 2.

(** The union of an entry; which of its members is in use is read off two bits of its second word. *)
Inductive referrers_t :=
| Inline (inline_referrers : list Z)
| OutOfLine (referrers : list Z) (num_refs mask max_hash_displacement : Z).

Record weak_entry_t := mk_entry { referent : Z; e_refs : referrers_t }.

(** [weak_entries] may be null. *)
Record weak_table_t := mk_table {
  weak_entries : option (list weak_entry_t);
  num_entries : Z;
  mask : Z;
  max_hash_displacement : Z }.

(** Zeroed memory. *)
Definition nil_entry : weak_entry_t := mk_entry 0 (Inline [0; 0; 0; 0]).
Definition empty_table : weak_table_t := mk_table None 0 0 0.

Definition new_entry (newReferent newReferrer : Z) : weak_entry_t := mk_entry newReferent (Inline [newReferrer; 0; 0; 0]).

Definition out_of_line (r : referrers_t) : bool := match r with Inline _ => false | OutOfLine _ _ _ _ => true end.

(** [TABLE_SIZE], of the mask of a table or of an entry *)
Definition TABLE_SIZE (mask : Z) : Z := if mask =? 0 then 0 else mask + 1.

(** ** Disguised pointers and the words of the union *)

Definition disguise (ptr : Z) : Z := u64 (- ptr).
Definition undisguise (val : Z) : Z := u64 (- val).

(** The four words of the union; [array] is where an out-of-line set has its array. *)
Definition words (array : Z) (r : referrers_t) : list Z :=
  match r with
  | Inline slots => map disguise slots
  | OutOfLine _ num m disp => [array; Z.lor (Z.shiftl num 2) REFERRERS_OUT_OF_LINE; m; disp]
  end.

(** [out_of_line_ness] as the machine reads it *)
Definition out_of_line_ness (ws : list Z) : Z := Z.land (nth 1 ws 0) 3.

(** ** Hashing *)

(** [__builtin_bswap64] *)
Definition bswap64 (x : Z) : Z :=
  foldr (fun i acc => Z.lor (Z.shiftl (Z.land (Z.shiftr x (8 * i)) 255) (8 * (7 - i))) acc) 0 [0; 1; 2; 3; 4; 5; 6; 7].

Definition ptr_hash (key : Z) : Z :=
  let key := Z.lxor key (Z.shiftr key 4) in
  let key := u64 (key * 0x8a970be7488fda55) in
  let key := Z.lxor key (bswap64 key) in
  u32 key.

Definition hash_pointer (key : Z) : Z := ptr_hash key.
Definition w_hash_pointer (key : Z) : Z := ptr_hash key.

Definition at_ {A} (l : list A) (i : Z) : outcome A := of_option (l !! Z.to_nat i).

(** The search for a free slot; the slots of the outer table are the referents of its entries. *)
Fixpoint probe_free (fuel : nat) (slots : list Z) (mask begin index hash_displacement : Z) : outcome (Z * Z) :=
  match fuel with
  | O => OutOfFuel
  | S fuel' =>
      let! slot := at_ slots index in
      if slot =? 0 then Ret (index, hash_displacement) else
      let index := Z.land (index + 1) mask in
      if index =? begin then Fault (* bad_weak_table *)
      else probe_free fuel' slots mask begin index (hash_displacement + 1)
  end.

(** The search for a key, as far as the largest displacement. *)
Fixpoint probe_find (fuel : nat) (slots : list Z) (mask max_hash_displacement key begin index hash_displacement : Z) : outcome (option Z) :=
  match fuel with
  | O => OutOfFuel
  | S fuel' =>
      let! slot := at_ slots index in
      if slot =? key then Ret (Some index) else
      let index := Z.land (index + 1) mask in
      if index =? begin then Fault (* bad_weak_table *)
      else if max_hash_displacement <? hash_displacement + 1 then Ret None
      else probe_find fuel' slots mask max_hash_displacement key begin index (hash_displacement + 1)
  end.

(** ** Sets of referrers *)

(** The loop of [grow_refs_and_insert] over the old array. *)
Fixpoint rehash (append : referrers_t -> Z -> outcome referrers_t) (old_refs : list Z) (num_refs : Z) (r : referrers_t) : outcome referrers_t :=
  match old_refs with
  | [] => Ret r
  | ref :: old' =>
      if num_refs <=? 0 then Ret r
      else if negb (ref =? 0) then let! r' := append r ref in rehash append old' (num_refs - 1) r'
      else rehash append old' num_refs r
  end.

Definition grow_refs_and_insert (append : referrers_t -> Z -> outcome referrers_t) (r : referrers_t) (new_referrer : Z) : outcome referrers_t :=
  match r with
  | Inline _ => Fault
  | OutOfLine old_refs num_refs mask _ =>
      let old_size := TABLE_SIZE mask in
      let new_size := if old_size =? 0 then 8 else old_size * 2 in
      let mask := new_size - 1 in
      let! r := rehash append old_refs num_refs (OutOfLine (replicate (Z.to_nat (TABLE_SIZE mask)) 0) 0 mask 0) in
      append r new_referrer
  end.

(** The first free slot of the inline array. *)
Fixpoint insert_inline (slots : list Z) (new_referrer : Z) : option (list Z) :=
  match slots with
  | [] => None
  | s :: slots' => if s =? 0 then Some (new_referrer :: slots') else option_map (cons s) (insert_inline slots' new_referrer)
  end.

(** The part of [append_referrer] after the assertion that the set is out of line. *)
Definition append_out_of_line (append : referrers_t -> Z -> outcome referrers_t) (r : referrers_t) (new_referrer : Z) : outcome referrers_t :=
  match r with
  | Inline _ => Fault
  | OutOfLine refs num mask disp =>
      if TABLE_SIZE mask * 3 / 4 <=? num then grow_refs_and_insert append r new_referrer else
      let begin := Z.land (w_hash_pointer new_referrer) mask in
      let! res := probe_free (length refs) refs mask begin begin 0 in let '(index, hash_displacement) := res in
      Ret (OutOfLine (<[Z.to_nat index := new_referrer]> refs) (num + 1) mask (Z.max disp hash_displacement))
  end.

(** [depth] bounds the nesting of [append_referrer] in [grow_refs_and_insert]. *)
Fixpoint append_referrer (depth : nat) (r : referrers_t) (new_referrer : Z) : outcome referrers_t :=
  match depth with
  | O => OutOfFuel
  | S depth' =>
      match r with
      | Inline slots =>
          match insert_inline slots new_referrer with
          | Some slots' => Ret (Inline slots')
          | None => append_out_of_line (append_referrer depth') (OutOfLine slots WEAK_INLINE_COUNT (WEAK_INLINE_COUNT - 1) 0) new_referrer
          end
      | OutOfLine _ _ _ _ => append_out_of_line (append_referrer depth') r new_referrer
      end
  end.

Fixpoint remove_inline (slots : list Z) (old_referrer : Z) : option (list Z) :=
  match slots with
  | [] => None
  | s :: slots' => if s =? old_referrer then Some (0 :: slots') else option_map (cons s) (remove_inline slots' old_referrer)
  end.

(** The second component: an unknown variable was reported. *)
Definition remove_referrer (r : referrers_t) (old_referrer : Z) : outcome (referrers_t * bool) :=
  match r with
  | Inline slots =>
      Ret (match remove_inline slots old_referrer with Some slots' => (Inline slots', false) | None => (r, true) end)
  | OutOfLine refs num mask disp =>
      let begin := Z.land (w_hash_pointer old_referrer) mask in
      let! found := probe_find (length refs) refs mask disp old_referrer begin begin 0 in
      Ret (match found with
           | Some index => (OutOfLine (<[Z.to_nat index := 0]> refs) (num - 1) mask disp, false)
           | None => (r, true)
           end)
  end.

(** ** The table of entries *)

Definition entries_of (t : weak_table_t) : list weak_entry_t := default [] (weak_entries t).

Definition weak_entry_insert (t : weak_table_t) (e : weak_entry_t) : outcome weak_table_t :=
  match weak_entries t with
  | None => Fault
  | Some es =>
      let begin := Z.land (hash_pointer (referent e)) (mask t) in
      let! res := probe_free (length es) (map referent es) (mask t) begin begin 0 in let '(index, hash_displacement) := res in
      Ret (mk_table (Some (<[Z.to_nat index := e]> es)) (num_entries t + 1) (mask t) (Z.max (max_hash_displacement t) hash_displacement))
  end.

(** The loop of [weak_resize] over the old entries. *)
Fixpoint reinsert (old_entries : list weak_entry_t) (t : weak_table_t) : outcome weak_table_t :=
  match old_entries with
  | [] => Ret t
  | e :: old' => if negb (referent e =? 0) then let! t' := weak_entry_insert t e in reinsert old' t' else reinsert old' t
  end.

Definition weak_resize (t : weak_table_t) (new_size : Z) : outcome weak_table_t :=
  let t' := mk_table (Some (replicate (Z.to_nat new_size) nil_entry)) 0 (new_size - 1) 0 in
  match weak_entries t with None => Ret t' | Some old_entries => reinsert old_entries t' end.

Definition weak_grow_maybe (t : weak_table_t) : outcome weak_table_t :=
  let old_size := TABLE_SIZE (mask t) in
  if old_size * 3 / 4 <=? num_entries t then weak_resize t (if old_size =? 0 then 64 else old_size * 2) else Ret t.

Definition weak_compact_maybe (t : weak_table_t) : outcome weak_table_t :=
  let old_size := TABLE_SIZE (mask t) in
  if (1024 <=? old_size) && (num_entries t <=? old_size / 16) then weak_resize t (old_size / 8) else Ret t.

(** The entry at an index. *)
Definition set_entry (t : weak_table_t) (index : Z) (e : weak_entry_t) : weak_table_t :=
  mk_table (Some (<[Z.to_nat index := e]> (entries_of t))) (num_entries t) (mask t) (max_hash_displacement t).

Definition weak_entry_remove (t : weak_table_t) (index : Z) : outcome weak_table_t :=
  let t := set_entry t index nil_entry in
  weak_compact_maybe (mk_table (weak_entries t) (num_entries t - 1) (mask t) (max_hash_displacement t)).

Definition weak_entry_for_referent (t : weak_table_t) (ref : Z) : outcome (option Z) :=
  if ref =? 0 then Fault else
  match weak_entries t with
  | None => Ret None
  | Some es =>
      let begin := Z.land (hash_pointer ref) (mask t) in
      probe_find (length es) (map referent es) (mask t) (max_hash_displacement t) ref begin begin 0
  end.

(** The test of [weak_unregister_no_lock] for an empty entry.  The first word of the union of an entry
    that is out of line is the address of its array, which is not null. *)
Definition is_empty (r : referrers_t) : bool :=
  match r with
  | OutOfLine _ _ _ _ => false
  | Inline slots => forallb (fun s => s =? 0) slots
  end.

(** The second component: an unknown variable was reported. *)
Definition weak_unregister_no_lock (t : weak_table_t) (ref referrer : Z) : outcome (weak_table_t * bool) :=
  if ref =? 0 then Ret (t, false) else
  let! found := weak_entry_for_referent t ref in
  match found with
  | None => Ret (t, false)
  | Some index =>
      let! e := at_ (entries_of t) index in
      let! res := remove_referrer (e_refs e) referrer in let '(r, reported) := res in
      let t := set_entry t index (mk_entry (referent e) r) in
      if is_empty r then let! t := weak_entry_remove t index in Ret (t, reported) else Ret (t, reported)
  end.

(** [weak_register_no_lock] from the point where the object is known to be viable. *)
Definition weak_register_viable (t : weak_table_t) (ref referrer : Z) : outcome weak_table_t :=
  let! found := weak_entry_for_referent t ref in
  match found with
  | Some index =>
      let! e := at_ (entries_of t) index in
      let! r := append_referrer 2 (e_refs e) referrer in
      Ret (set_entry t index (mk_entry (referent e) r))
  | None => let! t := weak_grow_maybe t in weak_entry_insert t (new_entry ref referrer)
  end.

(** ** Clearing *)

(** The weak variables, by address. *)
Abbreviation vars := (gmap Z Z).

(** The loop over the referrers; the second component counts the reports of variables that hold another object. *)
Fixpoint zero_out (m : vars) (referrers : list Z) (ref : Z) : outcome (vars * nat) :=
  match referrers with
  | [] => Ret (m, O)
  | p :: ps =>
      if p =? 0 then zero_out m ps ref else
      match m !! p with
      | None => Fault
      | Some v =>
          if v =? ref then zero_out (<[p := 0]> m) ps ref
          else let! res := zero_out m ps ref in let '(m', n) := res in Ret (m', if v =? 0 then n else S n)
      end
  end.

Definition slots_of (r : referrers_t) : list Z := match r with Inline slots => slots | OutOfLine refs _ _ _ => refs end.

Definition weak_clear_no_lock (t : weak_table_t) (m : vars) (ref : Z) : outcome (weak_table_t * vars * nat) :=
  let! found := weak_entry_for_referent t ref in
  match found with
  | None => Ret (t, m, O)
  | Some index =>
      let! e := at_ (entries_of t) index in
      let! res := zero_out m (slots_of (e_refs e)) ref in let '(m', n) := res in
      let! t := weak_entry_remove t index in
      Ret (t, m', n)
  end.
