(* ===== verification/Probing.v ===== *)
(** * Linear probing

    The hash tables of the weak table: a search for a free slot always finds one, a search
    for a key within the largest displacement is complete, and insertion and removal keep
    the table in order. *)

From Stdlib Require Import ZArith Lia Bool.
From stdpp Require Import base list.
From S2P Require Import Prelude WeakTable.

Local Open Scope Z_scope.

Lemma land_pow2_mask k x : 0 <= k -> Z.land x (2 ^ k - 1) = x mod 2 ^ k.
Proof. intros Hk. rewrite <- Z.land_ones by done. f_equal. rewrite Z.ones_equiv. lia. Qed.

(** ** The occupied slots *)

Definition live (slots : list Z) : list Z := filter (fun x => x <> 0) slots.

Lemma elem_of_live x slots : x ∈ live slots <-> x ∈ slots /\ x <> 0.
Proof. unfold live. rewrite list_elem_of_filter. tauto. Qed.

Lemma live_app l l' : live (l ++ l') = live l ++ live l'.
Proof. apply filter_app. Qed.

Lemma live_cons x l : live (x :: l) = if x =? 0 then live l else x :: live l.
Proof.
  unfold live. destruct (x =? 0) eqn:E; zbool; [rewrite filter_cons_False by lia; done|by rewrite filter_cons_True].
Qed.

Lemma live_all l : Forall (fun x => x <> 0) l -> live l = l.
Proof. induction 1 as [|x l Hx _ IH]; [done|]. rewrite live_cons, IH. by replace (x =? 0) with false by (symmetry; by apply Z.eqb_neq). Qed.

Lemma live_free l : (length (live l) < length l)%nat -> 0 ∈ l.
Proof.
  induction l as [|x l IH]; simpl; [lia|]. rewrite live_cons. destruct (x =? 0) eqn:E; zbool; [subst; left|].
  simpl. intros H. right. apply IH. lia.
Qed.

Lemma live_replicate n : live (replicate n 0) = [].
Proof. induction n as [|n IH]; [done|]. simpl. by rewrite live_cons. Qed.

(** Replacing one slot. *)
Lemma live_split slots i old x : slots !! i = Some old ->
  exists l l', live slots = l ++ (if old =? 0 then [] else [old]) ++ l' /\ live (<[i := x]> slots) = l ++ (if x =? 0 then [] else [x]) ++ l'.
Proof.
  intros Hi. exists (live (take i slots)), (live (drop (S i) slots)). split.
  - rewrite <- (take_drop_middle slots i old Hi) at 1. rewrite live_app, live_cons. by destruct (old =? 0).
  - rewrite insert_take_drop by (by eapply lookup_lt_Some). rewrite live_app, live_cons. by destruct (x =? 0).
Qed.

Lemma live_insert slots i x : slots !! i = Some 0 -> x <> 0 -> live (<[i := x]> slots) ≡ₚ x :: live slots.
Proof.
  intros Hi Hx. destruct (live_split slots i 0 x Hi) as (l & l' & -> & ->). simpl.
  replace (x =? 0) with false by (symmetry; by apply Z.eqb_neq). simpl. by rewrite Permutation_middle.
Qed.

Lemma live_remove slots i x : slots !! i = Some x -> x <> 0 -> live slots ≡ₚ x :: live (<[i := 0]> slots).
Proof.
  intros Hi Hx. destruct (live_split slots i x 0 Hi) as (l & l' & -> & ->). simpl.
  replace (x =? 0) with false by (symmetry; by apply Z.eqb_neq). simpl. by rewrite Permutation_middle.
Qed.

Section Probe.
Context (slots : list Z) (k : Z).
Context (Hk : 0 <= k) (Hlen : Z.of_nat (length slots) = 2 ^ k).

#[local] Abbreviation n := (2 ^ k).
#[local] Abbreviation slot i := (nth (Z.to_nat i) slots 0).

(** The slot at a displacement. *)
Definition pos (b d : Z) : Z := (b + d) mod n.

Lemma n_pos : 0 < n.
Proof. clear Hlen slots. by apply Z.pow_pos_nonneg. Qed.

Lemma pos_range b d : 0 <= pos b d < n.
Proof. clear Hlen slots. apply Z.mod_pos_bound, n_pos. Qed.

Lemma pos_0 b : 0 <= b < n -> pos b 0 = b.
Proof. clear Hlen slots. intros Hb. unfold pos. rewrite Z.add_0_r. by apply Z.mod_small. Qed.

Lemma pos_next b d : Z.land (pos b d + 1) (n - 1) = pos b (d + 1).
Proof. clear Hlen slots. rewrite land_pow2_mask by done. unfold pos. rewrite Z.add_mod_idemp_l by (pose proof n_pos; lia). f_equal. lia. Qed.

Lemma pos_begin b d : 0 <= b < n -> 0 < d <= n -> pos b d = b -> d = n.
Proof. clear Hlen slots. intros Hb Hd He. unfold pos in He. assert (Hn : n <> 0) by (pose proof n_pos; lia). pose proof (Z.div_mod (b + d) n Hn) as H. rewrite He in H. pose proof n_pos as Hp.
  generalize dependent n. intros N Hb Hd He Hn H Hp. set (q := (b + d) / N) in *. assert (q = 1) by nia. nia. Qed.

(** The displacement of a slot. *)
Lemma pos_dist b h i : 0 <= i < n -> b = h mod n -> pos b ((i - h) mod n) = i.
Proof. clear Hlen slots.
  intros Hi ->. unfold pos. rewrite <- Z.add_mod by (pose proof n_pos; lia). replace (h + (i - h)) with i by lia. by apply Z.mod_small.
Qed.

Lemma at_slot i : 0 <= i < n -> at_ slots i = Ret (slot i) /\ slots !! Z.to_nat i = Some (slot i).
Proof.
  intros Hi. assert (Hlt : (Z.to_nat i < length slots)%nat) by lia. unfold at_.
  assert (He : slots !! Z.to_nat i = Some (slot i)).
  { destruct (lookup_lt_is_Some_2 slots _ Hlt) as [x Hx]. by rewrite (nth_lookup_Some _ _ 0 x Hx). }
  by rewrite He.
Qed.

(** A run of occupied slots is no longer than the number of occupied slots. *)
Lemma run_occupied b e : 0 <= b < n -> 0 <= e <= n -> (forall d, 0 <= d < e -> slot (pos b d) <> 0) -> e <= Z.of_nat (length (live slots)).
Proof.
  intros Hb He Hrun. set (rot := drop (Z.to_nat b) slots ++ take (Z.to_nat b) slots).
  assert (Hperm : live rot ≡ₚ live slots).
  { unfold rot. rewrite live_app, Permutation_app_comm, <- live_app. by rewrite take_drop. }
  assert (Hrl : length rot = length slots) by (unfold rot; rewrite length_app, length_drop, length_take; lia).
  assert (Hall : Forall (fun x => x <> 0) (take (Z.to_nat e) rot)).
  { apply Forall_lookup. intros i x Hi. apply lookup_take_Some in Hi as [Hi Hlt]. specialize (Hrun (Z.of_nat i)). 
    assert (Hr : (0 <= Z.of_nat i < e)) by lia. specialize (Hrun Hr). unfold rot in Hi. apply lookup_app_Some in Hi as [Hi|[Hge Hi]].
    - rewrite lookup_drop in Hi. assert (b + Z.of_nat i < n) by (apply lookup_lt_Some in Hi; lia).
      unfold pos in Hrun. rewrite Z.mod_small in Hrun by lia.
      replace (Z.to_nat (b + Z.of_nat i)) with (Z.to_nat b + i)%nat in Hrun by lia. by rewrite (nth_lookup_Some _ _ 0 x Hi) in Hrun.
    - rewrite length_drop in Hge, Hi. apply lookup_take_Some in Hi as [Hi _].
      unfold pos in Hrun. replace (b + Z.of_nat i) with (b + Z.of_nat i - n + 1 * n) in Hrun by lia.
      rewrite Z.mod_add, Z.mod_small in Hrun by lia.
      replace (Z.to_nat (b + Z.of_nat i - n)) with (i - (length slots - Z.to_nat b))%nat in Hrun by lia.
      by rewrite (nth_lookup_Some _ _ 0 x Hi) in Hrun. }
  rewrite <- Hperm. rewrite <- (take_drop (Z.to_nat e) rot), live_app, length_app, (live_all _ Hall), length_take. lia.
Qed.

(** ** Searching for a free slot *)

Lemma probe_free_run fuel b d : 0 <= b < n -> 0 <= d < n -> (forall d', 0 <= d' < d -> slot (pos b d') <> 0) ->
  n - d <= Z.of_nat fuel -> (length (live slots) < length slots)%nat ->
  exists e, probe_free fuel slots (n - 1) b (pos b d) d = Ret (pos b e, e) /\ d <= e < n /\ slot (pos b e) = 0 /\
    forall d', 0 <= d' < e -> slot (pos b d') <> 0.
Proof.
  intros Hb. revert d. induction fuel as [|fuel IH]; intros d Hd Hrun Hf Hfree; [lia|]. cbn [probe_free].
  rewrite (proj1 (at_slot (pos b d) (pos_range b d))). cbn [obind]. destruct (slot (pos b d) =? 0) eqn:E; zbool.
  { exists d. split_and!; try done; lia. }
  assert (Hrun' : forall d', 0 <= d' < d + 1 -> slot (pos b d') <> 0).
  { intros d' Hd'. destruct (decide (d' = d)) as [->|]; [done|]. apply Hrun. lia. }
  assert (Hd1 : d + 1 < n).
  { destruct (Z.lt_ge_cases (d + 1) n); [done|]. pose proof (run_occupied b (d + 1) Hb ltac:(lia) Hrun'). lia. }
  rewrite pos_next. replace (pos b (d + 1) =? b) with false.
  2: { symmetry. apply Z.eqb_neq. intros He. apply pos_begin in He; lia. }
  destruct (IH (d + 1)) as (e & He & Hr & Hz & Hall); [lia|done|lia|done|]. exists e. split_and!; try done; lia.
Qed.

(** ** Searching for a key *)

Lemma probe_find_run fuel key maxd b d : 0 <= b < n -> 0 <= d <= maxd -> maxd < n - 1 -> n - d <= Z.of_nat fuel ->
  (exists e, probe_find fuel slots (n - 1) maxd key b (pos b d) d = Ret (Some (pos b e)) /\ slot (pos b e) = key) \/
  (probe_find fuel slots (n - 1) maxd key b (pos b d) d = Ret None /\ forall e, d <= e <= maxd -> slot (pos b e) <> key).
Proof.
  intros Hb. revert d. induction fuel as [|fuel IH]; intros d Hd Hm Hf; [lia|]. cbn [probe_find].
  rewrite (proj1 (at_slot (pos b d) (pos_range b d))). cbn [obind]. destruct (slot (pos b d) =? key) eqn:E; zbool.
  { left. by exists d. }
  rewrite pos_next. replace (pos b (d + 1) =? b) with false.
  2: { symmetry. apply Z.eqb_neq. intros He. apply pos_begin in He; lia. }
  assert (Hstep : forall e, d <= e <= maxd -> e = d \/ d + 1 <= e <= maxd) by lia.
  destruct (maxd <? d + 1) eqn:Em; zbool.
  - right. split; [done|]. intros e He. destruct (Hstep e He) as [->|]; [done|lia].
  - destruct (IH (d + 1)) as [(e & He & Hs)|[He Hs]]; [lia|done|lia|left; by exists e|].
    right. split; [done|]. intros e Hr. destruct (Hstep e Hr) as [->|]; [done|by apply Hs].
Qed.

End Probe.

(** ** Tables in order *)

Record hash_ok (slots : list Z) (h : Z -> Z) (k num maxd : Z) : Prop := mk_hash_ok {
  ho_k : 2 <= k;
  ho_len : Z.of_nat (length slots) = 2 ^ k;
  ho_num : num = Z.of_nat (length (live slots));
  ho_max : 0 <= maxd < 2 ^ k - 1;
  ho_uniq : NoDup (live slots);
  ho_disp : forall i p, slots !! i = Some p -> p <> 0 -> (Z.of_nat i - h p) mod 2 ^ k <= maxd }.

Lemma hash_empty h k : 2 <= k -> hash_ok (replicate (Z.to_nat (2 ^ k)) 0) h k 0 0.
Proof.
  intros Hk. assert (H4 : 2 ^ 2 <= 2 ^ k) by (apply Z.pow_le_mono_r; lia). constructor; rewrite ?live_replicate, ?length_replicate; try done; try lia.
  - constructor.
  - intros i p Hi. apply lookup_replicate_1 in Hi as [-> _]. done.
Qed.

Section Table.
Context (slots : list Z) (h : Z -> Z) (k num maxd : Z) (Hok : hash_ok slots h k num maxd).

#[local] Abbreviation home key := (Z.land (h key) (2 ^ k - 1)).

Lemma home_mod key : home key = h key mod 2 ^ k.
Proof. apply land_pow2_mask. destruct Hok; lia. Qed.

Lemma home_range key : 0 <= home key < 2 ^ k.
Proof. rewrite home_mod. apply Z.mod_pos_bound, n_pos. destruct Hok; lia. Qed.

(** A search for a key finds its slot, or rightly nothing. *)
Lemma hash_find key : key <> 0 ->
  (exists i, probe_find (length slots) slots (2 ^ k - 1) maxd key (home key) (home key) 0 = Ret (Some i) /\ 0 <= i < 2 ^ k /\ slots !! Z.to_nat i = Some key) \/
  (probe_find (length slots) slots (2 ^ k - 1) maxd key (home key) (home key) 0 = Ret None /\ key ∉ slots).
Proof.
  intros Hkey. destruct Hok as [H1 H2 H3 H4 H5 H6]. assert (Hk : 0 <= k) by lia. pose proof (home_range key) as Hb.
  destruct (probe_find_run slots k Hk H2 (length slots) key maxd (home key) 0 Hb) as [(e & He & Hs)|[He Hs]]; [lia..| |];
    rewrite (pos_0 k _ Hb) in He.
  - left. exists (pos k (home key) e). pose proof (pos_range k Hk (home key) e) as Hr. split_and!; try lia; [done|].
    rewrite (proj2 (at_slot slots k Hk H2 _ Hr)). by rewrite Hs.
  - right. split; [done|]. intros [i Hi]%list_elem_of_lookup. pose proof (H6 i key Hi Hkey) as Hd.
    assert (Hir : 0 <= Z.of_nat i < 2 ^ k) by (apply lookup_lt_Some in Hi; lia).
    pose proof (Z.mod_pos_bound (Z.of_nat i - h key) (2 ^ k) ltac:(lia)) as Hm.
    apply (Hs ((Z.of_nat i - h key) mod 2 ^ k)); [lia|]. rewrite (pos_dist k Hk _ (h key)) by (done || apply home_mod).
    by rewrite Nat2Z.id, (nth_lookup_Some _ _ 0 key Hi).
Qed.

(** A search for a free slot ends, and a new key may go there. *)
Lemma hash_insert key : key <> 0 -> key ∉ slots -> num < 2 ^ k - 1 ->
  exists i d, probe_free (length slots) slots (2 ^ k - 1) (home key) (home key) 0 = Ret (i, d) /\ 0 <= i < 2 ^ k /\
    slots !! Z.to_nat i = Some 0 /\ hash_ok (<[Z.to_nat i := key]> slots) h k (num + 1) (Z.max maxd d).
Proof.
  intros Hkey Hnew Hn. destruct Hok as [H1 H2 H3 H4 H5 H6]. assert (Hk : 0 <= k) by lia. pose proof (home_range key) as Hb.
  destruct (probe_free_run slots k Hk H2 (length slots) (home key) 0 Hb) as (d & He & Hd & Hz & Hrun); [lia..|].
  rewrite (pos_0 k _ Hb) in He. pose proof (pos_range k Hk (home key) d) as Hr. set (i := pos k (home key) d) in *.
  assert (Hi : slots !! Z.to_nat i = Some 0) by (rewrite (proj2 (at_slot slots k Hk H2 _ Hr)); by rewrite Hz).
  pose proof (run_occupied slots k Hk H2 (home key) d Hb ltac:(lia) Hrun) as Hdn. pose proof (live_insert slots (Z.to_nat i) key Hi Hkey) as Hl.
  exists i, d. split_and!; try done; try lia. constructor; rewrite ?length_insert; try done; try lia.
  - rewrite Hl. simpl. lia.
  - rewrite Hl. constructor; [|done]. by rewrite elem_of_live; intros [? _].
  - intros j p Hj Hp. destruct (decide (j = Z.to_nat i)) as [->|Hne].
    + rewrite list_lookup_insert_eq in Hj by (by eapply lookup_lt_Some). injection Hj as <-. rewrite Z2Nat.id by lia.
      unfold i, pos. rewrite home_mod. rewrite Zminus_mod_idemp_l.
      replace (h key mod 2 ^ k + d - h key) with (d + (h key mod 2 ^ k - h key)) by lia.
      rewrite (Z.mod_eq (h key) (2 ^ k)) by lia. replace (d + _) with (d + (- (h key / 2 ^ k)) * 2 ^ k) by lia.
      rewrite Z.mod_add, Z.mod_small by lia. lia.
    + rewrite list_lookup_insert_ne in Hj by done. pose proof (H6 j p Hj Hp). lia.
Qed.

Lemma hash_remove i key : slots !! i = Some key -> key <> 0 -> hash_ok (<[i := 0]> slots) h k (num - 1) maxd.
Proof.
  intros Hi Hkey. destruct Hok as [H1 H2 H3 H4 H5 H6]. pose proof (live_remove slots i key Hi Hkey) as Hl.
  constructor; rewrite ?length_insert; try done.
  - rewrite H3, Hl. simpl. lia.
  - rewrite Hl in H5. by apply NoDup_cons in H5 as [_ ?].
  - intros j p Hj Hp. destruct (decide (j = i)) as [->|Hne].
    + rewrite list_lookup_insert_eq in Hj by (by eapply lookup_lt_Some). congruence.
    + rewrite list_lookup_insert_ne in Hj by done. by apply H6.
Qed.

End Table.
