(* ===== verification/WeakTableSpec.v ===== *)
(** * What the weak table guarantees

    The table is a set of pairs of an object and a weak variable.  Registering adds a pair,
    unregistering takes one away, clearing takes all pairs of an object away and zeroes
    their variables, through every change of representation; the fatal error of a table
    without a free slot is never reached. *)

From Stdlib Require Import ZArith Lia Bool Permutation.
From stdpp Require Import base list gmap.
From S2P Require Import Prelude WeakTable Probing.

Local Open Scope Z_scope.

Opaque ptr_hash.

(** ** The union *)

(** The tag bits distinguish the members of the union: a disguised pointer to a pointer has them clear. *)
Theorem tag_distinguishes array r :
  (forall p, p ∈ slots_of r -> p mod 8 = 0) -> (forall s, r = Inline s -> length s = 4%nat) ->
  (out_of_line_ness (words array r) =? REFERRERS_OUT_OF_LINE) = out_of_line r.
Proof.
  intros Hal Hlen. destruct r as [slots|refs num m d]; unfold out_of_line_ness; simpl.
  - specialize (Hlen slots eq_refl). destruct slots as [|a [|b slots]]; try discriminate Hlen. simpl.
    assert (Hb : b mod 8 = 0) by (apply Hal; right; left).
    replace (Z.land (disguise b) 3) with 0; [done|]. symmetry. change 3 with (Z.ones 2). rewrite Z.land_ones by lia.
    unfold disguise, wrap. change (2 ^ 64) with (4 * 2 ^ 62). change (2 ^ 2) with 4.
    rewrite Z.rem_mul_r by lia. rewrite Z.add_mod by lia. rewrite (Z.mul_comm 4), Z.mod_mul, Z.add_0_r, !Zmod_mod by lia.
    assert (Hb4 : b = b / 8 * 8) by (pose proof (Z.div_mod b 8 ltac:(lia)); lia).
    rewrite Hb4. replace (- (b / 8 * 8)) with ((- (b / 8) * 2) * 4) by lia. by rewrite Z.mod_mul.
  - unfold REFERRERS_OUT_OF_LINE. replace (Z.land (Z.lor (Z.shiftl num 2) 2) 3) with 2; [done|].
    symmetry. change 3 with (Z.ones 2). apply Z.bits_inj'. intros j Hj. rewrite Z.land_spec, Z.lor_spec, Z.shiftl_spec by lia.
    destruct (Z.lt_ge_cases j 2).
    + rewrite Z.ones_spec_low by lia. rewrite (Z.testbit_neg_r num) by lia. by rewrite andb_true_r.
    + rewrite Z.ones_spec_high, andb_false_r by lia. symmetry. apply Z.bits_above_log2; [lia|]. change (Z.log2 2) with 1. lia.
Qed.

(** ** Sets of referrers *)

Definition elems (r : referrers_t) : list Z := live (slots_of r).

Definition refs_ok (r : referrers_t) : Prop :=
  match r with
  | Inline slots => length slots = 4%nat /\ NoDup (live slots)
  | OutOfLine refs num m d => exists k, 3 <= k /\ m = 2 ^ k - 1 /\ hash_ok refs w_hash_pointer k num d /\ num <= 2 ^ k * 3 / 4
  end.

Lemma insert_inline_spec slots p : p <> 0 ->
  match insert_inline slots p with
  | Some slots' => length slots' = length slots /\ live slots' ≡ₚ p :: live slots
  | None => live slots = slots
  end.
Proof.
  intros Hp. induction slots as [|s slots IH]; [done|]. simpl. rewrite live_cons. destruct (s =? 0) eqn:E; zbool.
  - split; [done|]. rewrite live_cons. by replace (p =? 0) with false by (symmetry; by apply Z.eqb_neq).
  - destruct (insert_inline slots p) as [slots'|]; simpl; [|by f_equal]. destruct IH as [H1 H2]. split; [by f_equal|].
    rewrite live_cons. replace (s =? 0) with false by (symmetry; by apply Z.eqb_neq). etrans; [apply perm_skip, H2|apply perm_swap].
Qed.

Lemma table_size_pow k : 1 <= k -> TABLE_SIZE (2 ^ k - 1) = 2 ^ k.
Proof.
  intros Hk. unfold TABLE_SIZE. assert (2 ^ 1 <= 2 ^ k) by (apply Z.pow_le_mono_r; lia).
  replace (2 ^ k - 1 =? 0) with false by (symmetry; apply Z.eqb_neq; lia). lia.
Qed.

Lemma not_live p slots : p <> 0 -> p ∉ live slots -> p ∉ slots.
Proof. intros Hp Hn He. apply Hn. by apply elem_of_live. Qed.

(** An addition to a table that is less than three quarters full. *)
Lemma append_fits append refs num k d p : 3 <= k -> hash_ok refs w_hash_pointer k num d -> num < 2 ^ k * 3 / 4 -> p <> 0 -> p ∉ live refs ->
  exists refs' d', append_out_of_line append (OutOfLine refs num (2 ^ k - 1) d) p = Ret (OutOfLine refs' (num + 1) (2 ^ k - 1) d') /\
    hash_ok refs' w_hash_pointer k (num + 1) d' /\ live refs' ≡ₚ p :: live refs.
Proof.
  intros Hk Hok Hn Hp Hnew. unfold append_out_of_line. rewrite table_size_pow by lia.
  replace (2 ^ k * 3 / 4 <=? num) with false by (symmetry; apply Z.leb_gt; lia).
  assert (Hfree : num < 2 ^ k - 1).
  { assert (2 ^ 3 <= 2 ^ k) by (apply Z.pow_le_mono_r; lia). pose proof (Z.mul_div_le (2 ^ k * 3) 4 ltac:(lia)). lia. }
  destruct (hash_insert refs w_hash_pointer k num d Hok p Hp (not_live _ _ Hp Hnew) Hfree) as (i & e & He & Hi & H0 & Hok').
  rewrite He. simpl. eexists _, _. split_and!; [reflexivity|done|by apply live_insert].
Qed.

(** Rehashing into a table with room for all. *)
Lemma rehash_fits old r_refs r_num k r_d : 3 <= k -> hash_ok r_refs w_hash_pointer k r_num r_d ->
  Z.of_nat (length (live old)) + r_num <= 2 ^ k * 3 / 4 -> NoDup (live old ++ live r_refs) ->
  exists refs' d', rehash (append_referrer 1) old (Z.of_nat (length (live old))) (OutOfLine r_refs r_num (2 ^ k - 1) r_d)
      = Ret (OutOfLine refs' (Z.of_nat (length (live old)) + r_num) (2 ^ k - 1) d') /\
    hash_ok refs' w_hash_pointer k (Z.of_nat (length (live old)) + r_num) d' /\ live refs' ≡ₚ live old ++ live r_refs.
Proof.
  intros Hk. revert r_refs r_num r_d. induction old as [|x old IH]; intros r_refs r_num r_d Hok Hn Hd.
  { simpl. eexists _, _. by split_and!. }
  cbn [rehash]. rewrite live_cons in *. destruct (x =? 0) eqn:E; zbool; cbn [negb].
  - destruct (_ <=? 0) eqn:El; zbool; [|by apply IH].
    assert (Hnil : live old = []) by (destruct (live old); [done|simpl in El; lia]). rewrite Hnil in *. simpl. eexists _, _. by split_and!.
  - cbn [length app] in *. replace (_ <=? 0) with false by (symmetry; apply Z.leb_gt; lia).
    apply NoDup_cons in Hd as [Hx Hd]. assert (Hlt : r_num < 2 ^ k * 3 / 4) by lia.
    destruct (append_fits (append_referrer 0) r_refs r_num k r_d x Hk Hok Hlt E) as (refs1 & d1 & H1 & H2 & H3); [set_solver|].
    change (append_referrer 1 (OutOfLine r_refs r_num (2 ^ k - 1) r_d) x)
      with (append_out_of_line (append_referrer 0) (OutOfLine r_refs r_num (2 ^ k - 1) r_d) x). rewrite H1. cbn [obind].
    replace (Z.of_nat (S (length (live old))) - 1) with (Z.of_nat (length (live old))) by lia.
    destruct (IH refs1 (r_num + 1) d1 H2) as (refs2 & d2 & R1 & R2 & R3); [lia| |].
    + rewrite H3, <- Permutation_middle. by constructor.
    + exists refs2, d2. replace (Z.of_nat (S (length (live old))) + r_num) with (Z.of_nat (length (live old)) + (r_num + 1)) by lia.
      split_and!; [done|done|]. by rewrite R3, H3, <- Permutation_middle.
Qed.

(** Growing: an array of a power of two slots, of which any number is in use. *)
Lemma grow_fits old num k d p : 2 <= k -> Z.of_nat (length old) = 2 ^ k -> num = Z.of_nat (length (live old)) -> NoDup (live old) ->
  p <> 0 -> p ∉ live old ->
  exists refs' d', grow_refs_and_insert (append_referrer 1) (OutOfLine old num (2 ^ k - 1) d) p = Ret (OutOfLine refs' (num + 1) (2 ^ (k + 1) - 1) d') /\
    hash_ok refs' w_hash_pointer (k + 1) (num + 1) d' /\ num + 1 <= 2 ^ (k + 1) * 3 / 4 /\ live refs' ≡ₚ p :: live old.
Proof.
  intros Hk Hlen Hnum Hd Hp Hnew. unfold grow_refs_and_insert. rewrite table_size_pow by lia.
  assert (H4 : 2 ^ 2 <= 2 ^ k) by (apply Z.pow_le_mono_r; lia). change (2 ^ 2) with 4 in H4.
  replace (2 ^ k =? 0) with false by (symmetry; apply Z.eqb_neq; lia).
  replace (2 ^ k * 2) with (2 ^ (k + 1)) by (rewrite Z.pow_add_r by lia; lia). rewrite table_size_pow by lia.
  assert (Hle : num <= 2 ^ k) by (rewrite Hnum, <- Hlen; apply Nat2Z.inj_le, length_filter).
  assert (H38 : num + 1 <= 2 ^ (k + 1) * 3 / 4).
  { rewrite Z.pow_add_r by lia. apply Z.div_le_lower_bound; lia. }
  destruct (rehash_fits old (replicate (Z.to_nat (2 ^ (k + 1))) 0) 0 (k + 1) 0) as (refs1 & d1 & R1 & R2 & R3);
    [lia|apply hash_empty; lia|lia|by rewrite live_replicate, app_nil_r|].
  rewrite Hnum in *. rewrite R1. cbn [obind]. rewrite Z.add_0_r in *. rewrite live_replicate, app_nil_r in R3.
  destruct (append_fits (append_referrer 0) refs1 _ (k + 1) d1 p ltac:(lia) R2) as (refs2 & d2 & A1 & A2 & A3); [lia|done|by rewrite R3|].
  exists refs2, d2. split_and!; [exact A1|done|lia|by rewrite A3, R3].
Qed.

(** Adding a variable to the set of an object. *)
Lemma append_spec r p : refs_ok r -> p <> 0 -> p ∉ elems r ->
  exists r', append_referrer 2 r p = Ret r' /\ refs_ok r' /\ elems r' ≡ₚ p :: elems r.
Proof.
  intros Hok Hp Hnew. unfold elems in *. destruct r as [slots|refs num m d]; cbn [append_referrer].
  - destruct Hok as [Hlen Hd]. pose proof (insert_inline_spec slots p Hp) as Hi. destruct (insert_inline slots p) as [slots'|].
    + destruct Hi as [H1 H2]. exists (Inline slots'). split_and!; [done| |done]. split; [by rewrite H1|]. rewrite H2. by constructor.
    + unfold append_out_of_line. change (TABLE_SIZE (WEAK_INLINE_COUNT - 1) * 3 / 4 <=? WEAK_INLINE_COUNT) with true. cbv iota.
      destruct (grow_fits slots WEAK_INLINE_COUNT 2 0 p) as (refs' & d' & G1 & G2 & G3 & G4); try done; [by rewrite Hlen|by rewrite Hi, Hlen|].
      exists (OutOfLine refs' (WEAK_INLINE_COUNT + 1) (2 ^ (2 + 1) - 1) d'). split_and!; [exact G1| |done].
      exists 3. split_and!; done.
  - destruct Hok as (k & Hk & -> & Hok & Hload). destruct (Z.lt_ge_cases num (2 ^ k * 3 / 4)) as [Hlt|Hge].
    + destruct (append_fits (append_referrer 1) refs num k d p Hk Hok Hlt Hp Hnew) as (refs' & d' & A1 & A2 & A3).
      exists (OutOfLine refs' (num + 1) (2 ^ k - 1) d'). split_and!; [exact A1| |done]. exists k. split_and!; try done. lia.
    + unfold append_out_of_line. rewrite table_size_pow by lia. replace (2 ^ k * 3 / 4 <=? num) with true by (symmetry; apply Z.leb_le; lia).
      destruct Hok as [O1 O2 O3 O4 O5 O6].
      destruct (grow_fits refs num k d p) as (refs' & d' & G1 & G2 & G3 & G4); try done.
      exists (OutOfLine refs' (num + 1) (2 ^ (k + 1) - 1) d'). split_and!; [exact G1| |done]. exists (k + 1). split_and!; try done. lia.
Qed.

Lemma remove_inline_spec slots p : p <> 0 ->
  match remove_inline slots p with
  | Some slots' => length slots' = length slots /\ live slots ≡ₚ p :: live slots'
  | None => p ∉ slots
  end.
Proof.
  intros Hp. induction slots as [|s slots IH]; [set_solver|]. simpl. rewrite live_cons. destruct (s =? p) eqn:E; zbool.
  - subst s. split; [done|]. rewrite live_cons. by replace (p =? 0) with false by (symmetry; by apply Z.eqb_neq).
  - destruct (remove_inline slots p) as [slots'|]; simpl; [|set_solver]. destruct IH as [H1 H2]. split; [by f_equal|].
    rewrite live_cons. destruct (s =? 0); [done|]. etrans; [apply perm_skip, H2|apply perm_swap].
Qed.

(** Taking a variable out of the set, or reporting that it is not there. *)
Lemma remove_spec r p : refs_ok r -> p <> 0 ->
  (p ∈ elems r /\ exists r', remove_referrer r p = Ret (r', false) /\ refs_ok r' /\ elems r ≡ₚ p :: elems r') \/
  (p ∉ elems r /\ remove_referrer r p = Ret (r, true)).
Proof.
  intros Hok Hp. unfold elems in *. destruct r as [slots|refs num m d]; unfold remove_referrer.
  - destruct Hok as [Hlen Hd]. pose proof (remove_inline_spec slots p Hp) as Hi. destruct (remove_inline slots p) as [slots'|].
    + left. destruct Hi as [H1 H2]. split; [simpl; rewrite H2; left|]. exists (Inline slots'). split_and!; [done| |done].
      split; [by rewrite H1|]. rewrite H2 in Hd. by apply NoDup_cons in Hd as [_ ?].
    + right. split; [|done]. simpl. by rewrite elem_of_live; intros [? _].
  - destruct Hok as (k & Hk & -> & Hok & Hload).
    destruct (hash_find refs w_hash_pointer k num d Hok p Hp) as [(i & F1 & F2 & F3)|[F1 F2]]; rewrite F1; cbn [obind].
    + left. simpl slots_of. split; [apply elem_of_live; split; [by eapply list_elem_of_lookup_2|done]|].
      eexists. split_and!; [reflexivity| |by apply live_remove]. exists k. split_and!; try done; [by eapply hash_remove|lia].
    + right. split; [|done]. simpl. by rewrite elem_of_live; intros [? _].
Qed.

(** ** The table as a set of pairs *)

Definition entry_pairs (e : weak_entry_t) : list (Z * Z) :=
  if referent e =? 0 then [] else pair (referent e) <$> elems (e_refs e).
Definition pairs_l (es : list weak_entry_t) : list (Z * Z) := es ≫= entry_pairs.
Definition pairs (t : weak_table_t) : gset (Z * Z) := list_to_set (pairs_l (entries_of t)).

Lemma elem_of_entry_pairs x p e : (x, p) ∈ entry_pairs e <-> referent e = x /\ x <> 0 /\ p ∈ elems (e_refs e).
Proof.
  unfold entry_pairs. destruct (referent e =? 0) eqn:E; zbool.
  - rewrite E. split; [by intros ?%elem_of_nil|intros (<- & ? & _); done].
  - rewrite list_elem_of_fmap. split.
    + intros (q & [= -> ->] & Hq). done.
    + intros (<- & _ & Hp). by exists p.
Qed.

Lemma entry_pairs_nil e : referent e = 0 -> entry_pairs e = [].
Proof. intros H. unfold entry_pairs. by rewrite H. Qed.

Lemma pairs_insert es i old e : es !! i = Some old ->
  exists l l', pairs_l es = l ++ entry_pairs old ++ l' /\ pairs_l (<[i := e]> es) = l ++ entry_pairs e ++ l'.
Proof.
  intros Hi. exists (pairs_l (take i es)), (pairs_l (drop (S i) es)). unfold pairs_l. split.
  - rewrite <- (take_drop_middle es i old Hi) at 1. by rewrite bind_app.
  - rewrite insert_take_drop by (by eapply lookup_lt_Some). by rewrite bind_app.
Qed.

(** Entries of a table of size [2 ^ k]. *)
Definition entries_ok (k : Z) (es : list weak_entry_t) (num maxd : Z) : Prop :=
  hash_ok (map referent es) hash_pointer k num maxd /\ Forall (fun e => referent e <> 0 -> refs_ok (e_refs e)) es.

Definition table_ok (t : weak_table_t) : Prop :=
  match weak_entries t with
  | None => num_entries t = 0 /\ mask t = 0 /\ max_hash_displacement t = 0
  | Some es => exists k, 6 <= k /\ mask t = 2 ^ k - 1 /\ entries_ok k es (num_entries t) (max_hash_displacement t) /\ num_entries t <= 2 ^ k * 3 / 4
  end.

Lemma map_insert {A B} (f : A -> B) l i x : map f (<[i := x]> l) = <[i := f x]> (map f l).
Proof. apply (list_fmap_insert f). Qed.

Lemma entry_insert_spec k es num maxd e : entries_ok k es num maxd -> referent e <> 0 -> refs_ok (e_refs e) -> referent e ∉ map referent es ->
  num < 2 ^ k - 1 ->
  exists es' maxd', weak_entry_insert (mk_table (Some es) num (2 ^ k - 1) maxd) e = Ret (mk_table (Some es') (num + 1) (2 ^ k - 1) maxd') /\
    entries_ok k es' (num + 1) maxd' /\ pairs_l es' ≡ₚ entry_pairs e ++ pairs_l es /\
    live (map referent es') ≡ₚ referent e :: live (map referent es).
Proof.
  intros [Hok Hall] H0 Hr Hnew Hn. unfold weak_entry_insert. cbn [weak_entries mask].
  destruct (hash_insert _ _ _ _ _ Hok (referent e) H0 Hnew Hn) as (i & d & He & Hi & Hz & Hok'). rewrite length_map in He. rewrite He. cbn [obind].
  assert (Hold : exists old, es !! Z.to_nat i = Some old /\ referent old = 0).
  { rewrite list_lookup_fmap in Hz. destruct (es !! Z.to_nat i) as [old|] eqn:E; simpl in Hz; [|done]. exists old. split; [done|congruence]. }
  destruct Hold as (old & Hold & Ho0). eexists _, _. split_and!; [reflexivity| | |].
  - split; [by rewrite map_insert|]. apply Forall_insert; [done|by intros _].
  - destruct (pairs_insert es _ old e Hold) as (l & l' & -> & ->). rewrite (entry_pairs_nil old Ho0). cbn [app].
    rewrite !app_assoc. by rewrite (Permutation_app_comm l).
  - rewrite map_insert. by apply live_insert.
Qed.

Lemma reinsert_spec k old es num maxd : entries_ok k es num maxd -> Forall (fun e => referent e <> 0 -> refs_ok (e_refs e)) old ->
  NoDup (live (map referent old) ++ live (map referent es)) -> Z.of_nat (length (live (map referent old))) + num < 2 ^ k ->
  exists es' maxd', reinsert old (mk_table (Some es) num (2 ^ k - 1) maxd)
      = Ret (mk_table (Some es') (num + Z.of_nat (length (live (map referent old)))) (2 ^ k - 1) maxd') /\
    entries_ok k es' (num + Z.of_nat (length (live (map referent old)))) maxd' /\ pairs_l es' ≡ₚ pairs_l old ++ pairs_l es /\
    live (map referent es') ≡ₚ live (map referent old) ++ live (map referent es).
Proof.
  revert es num maxd. induction old as [|e old IH]; intros es num maxd Hok Hall Hd Hn.
  { simpl. rewrite Z.add_0_r. eexists _, _. by split_and!. }
  apply Forall_cons in Hall as [He Hall]. cbn [reinsert map] in *. rewrite live_cons in *. destruct (referent e =? 0) eqn:E; zbool; cbn [negb].
  - destruct (IH es num maxd Hok Hall Hd Hn) as (es' & maxd' & R1 & R2 & R3 & R4). exists es', maxd'. split_and!; [done|done| |done].
    unfold pairs_l in *. cbn [mbind list_bind]. by rewrite (entry_pairs_nil e E).
  - cbn [app length] in *. apply NoDup_cons in Hd as [Hx Hd].
    destruct (entry_insert_spec k es num maxd e Hok E (He E)) as (es1 & maxd1 & I1 & I2 & I3 & I4).
    { apply not_live; [done|]. set_solver. }
    { lia. }
    rewrite I1. cbn [obind]. destruct (IH es1 (num + 1) maxd1 I2 Hall) as (es' & maxd' & R1 & R2 & R3 & R4).
    + rewrite I4, <- Permutation_middle. by constructor.
    + lia.
    + exists es', maxd'. replace (num + Z.of_nat (S (length (live (map referent old))))) with (num + 1 + Z.of_nat (length (live (map referent old)))) by lia.
      split_and!; [done|done| |by rewrite R4, I4, <- Permutation_middle]. rewrite R3, I3. unfold pairs_l. cbn [mbind list_bind]. rewrite !app_assoc.
      by rewrite (Permutation_app_comm (mbind _ _) (entry_pairs e)).
Qed.

(** Changing the size keeps the pairs. *)
Lemma resize_spec k k' es num maxd m : entries_ok k es num maxd -> 2 <= k' -> num < 2 ^ k' ->
  exists es' maxd', weak_resize (mk_table (Some es) num m maxd) (2 ^ k') = Ret (mk_table (Some es') num (2 ^ k' - 1) maxd') /\
    entries_ok k' es' num maxd' /\ pairs_l es' ≡ₚ pairs_l es /\ live (map referent es') ≡ₚ live (map referent es).
Proof.
  intros [Hok Hall] Hk Hn. unfold weak_resize. cbn [weak_entries]. set (fresh := replicate (Z.to_nat (2 ^ k')) nil_entry).
  assert (Hmap : map referent fresh = replicate (Z.to_nat (2 ^ k')) 0) by (unfold fresh; generalize (Z.to_nat (2 ^ k')); by induction n; simpl; f_equal).
  assert (Hnil : pairs_l fresh = []) by (unfold fresh, pairs_l; generalize (Z.to_nat (2 ^ k')); by induction n).
  destruct Hok as [O1 O2 O3 O4 O5 O6].
  destruct (reinsert_spec k' es fresh 0 0) as (es' & maxd' & R1 & R2 & R3 & R4).
  - split; [rewrite Hmap; by apply hash_empty|]. apply Forall_replicate. done.
  - done.
  - by rewrite Hmap, live_replicate, app_nil_r.
  - lia.
  - rewrite Hmap, live_replicate, app_nil_r in R4. rewrite Hnil, app_nil_r in R3. exists es', maxd'. rewrite O3. by split_and!.
Qed.

(** ** Searching the table *)

Lemma entry_for_referent_spec t x : table_ok t -> x <> 0 ->
  (exists i e, weak_entry_for_referent t x = Ret (Some i) /\ at_ (entries_of t) i = Ret e /\ entries_of t !! Z.to_nat i = Some e /\ referent e = x) \/
  (weak_entry_for_referent t x = Ret None /\ x ∉ map referent (entries_of t)).
Proof.
  intros Ht Hx. unfold weak_entry_for_referent, table_ok, entries_of in *. replace (x =? 0) with false by (symmetry; by apply Z.eqb_neq).
  destruct (weak_entries t) as [es|]; simpl default; [|right; split; [done|by intros ?%elem_of_nil]].
  destruct Ht as (k & Hk & -> & [Hok _] & _). destruct (hash_find _ _ _ _ _ Hok x Hx) as [(i & F1 & F2 & F3)|[F1 F2]]; rewrite length_map in F1.
  - left. rewrite list_lookup_fmap in F3. destruct (es !! Z.to_nat i) as [e|] eqn:E; simpl in F3; [|done]. exists i, e.
    split_and!; [done|unfold at_; by rewrite E|done|congruence].
  - by right.
Qed.

Lemma not_referent x p t : x ∉ map referent (entries_of t) -> (x, p) ∉ pairs t.
Proof.
  intros Hx Hp. unfold pairs, pairs_l in Hp. apply elem_of_list_to_set, list_elem_of_bind in Hp as (e & He & Hin).
  apply elem_of_entry_pairs in He as (<- & _ & _). apply Hx. by apply (list_elem_of_fmap_2 referent).
Qed.

(** ** Changing one entry *)

Lemma elem_of_pairs_l es y p : (y, p) ∈ pairs_l es <-> exists j e, es !! j = Some e /\ (y, p) ∈ entry_pairs e.
Proof.
  unfold pairs_l. rewrite list_elem_of_bind. split.
  - intros (e & He & [j Hj]%list_elem_of_lookup). by exists j, e.
  - intros (j & e & Hj & He). exists e. split; [done|by eapply list_elem_of_lookup_2].
Qed.

Lemma live_unique slots i j x : NoDup (live slots) -> slots !! i = Some x -> slots !! j = Some x -> x <> 0 -> i = j.
Proof.
  intros Hd Hi Hj Hx. destruct (decide (i = j)) as [|Hne]; [done|]. exfalso. rewrite (live_remove slots i x Hi Hx) in Hd.
  apply NoDup_cons in Hd as [Hn _]. apply Hn, elem_of_live. split; [|done]. apply (list_elem_of_lookup_2 _ j). by rewrite list_lookup_insert_ne.
Qed.

(** The pairs after the entry of [referent e] was replaced. *)
Lemma pairs_replace k es num maxd i e e' y p : entries_ok k es num maxd -> es !! i = Some e -> referent e <> 0 ->
  (y, p) ∈ pairs_l (<[i := e']> es) <-> (y, p) ∈ entry_pairs e' \/ (y <> referent e /\ (y, p) ∈ pairs_l es).
Proof.
  intros [[_ _ _ _ Hd _] _] Hi He. assert (Hlt : (i < length es)%nat) by (by eapply lookup_lt_Some).
  rewrite !elem_of_pairs_l. split.
  - intros (j & e1 & Hj & H1). destruct (decide (j = i)) as [->|Hne].
    + rewrite list_lookup_insert_eq in Hj by done. left. congruence.
    + rewrite list_lookup_insert_ne in Hj by done. right. split; [|by exists j, e1].
      apply elem_of_entry_pairs in H1 as (Hy & _ & _). intros Heq. apply Hne, (live_unique (map referent es) j i (referent e)); try done.
      * rewrite list_lookup_fmap, Hj. simpl. congruence.
      * by rewrite list_lookup_fmap, Hi.
  - intros [H1|(Hy & j & e1 & Hj & H1)].
    + exists i, e'. split; [by apply list_lookup_insert_eq|done].
    + destruct (decide (j = i)) as [->|Hne].
      * apply elem_of_entry_pairs in H1 as (<- & _). congruence.
      * exists j, e1. split; [by rewrite list_lookup_insert_ne|done].
Qed.

Lemma set_entry_spec t i e r : table_ok t -> entries_of t !! Z.to_nat i = Some e -> referent e <> 0 -> refs_ok r ->
  table_ok (set_entry t i (mk_entry (referent e) r)) /\
  forall y p, (y, p) ∈ pairs (set_entry t i (mk_entry (referent e) r)) <-> (if decide (y = referent e) then p ∈ elems r else (y, p) ∈ pairs t).
Proof.
  intros Ht Hi He Hr. unfold table_ok, set_entry, pairs, entries_of in *. simpl. destruct (weak_entries t) as [es|]; [|done].
  simpl in *. destruct Ht as (k & Hk & Hm & Hes & Hload). pose proof Hes as [Hok Hall]. split.
  - exists k. split_and!; try done. split.
    + rewrite map_insert. simpl. rewrite list_insert_id; [done|]. by rewrite list_lookup_fmap, Hi.
    + apply Forall_insert; [done|]. by intros _.
  - intros y p. rewrite !elem_of_list_to_set, (pairs_replace k es _ _ (Z.to_nat i) e) by done. rewrite elem_of_entry_pairs. simpl.
    destruct (decide (y = referent e)) as [->|]; rewrite ?elem_of_list_to_set; intuition congruence.
Qed.

(** ** Removing an entry *)

Lemma pow2_eighth k : 10 <= k -> 2 ^ k / 8 = 2 ^ (k - 3) /\ 2 ^ k / 16 = 2 ^ (k - 4).
Proof.
  intros Hk. split.
  - change 8 with (2 ^ 3). by rewrite <- Z.pow_sub_r by lia.
  - change 16 with (2 ^ 4). by rewrite <- Z.pow_sub_r by lia.
Qed.

Lemma compact_spec k es num maxd : 6 <= k -> entries_ok k es num maxd -> num <= 2 ^ k * 3 / 4 ->
  exists t', weak_compact_maybe (mk_table (Some es) num (2 ^ k - 1) maxd) = Ret t' /\ table_ok t' /\ pairs_l (entries_of t') ≡ₚ pairs_l es.
Proof.
  intros Hk Hok Hload. unfold weak_compact_maybe. cbn [mask num_entries]. rewrite table_size_pow by lia. destruct (_ && _) eqn:E; zbool.
  - assert (Hk10 : 10 <= k) by (apply (Z.pow_le_mono_r_iff 2); [lia..|]; change (2 ^ 10) with 1024; lia).
    destruct (pow2_eighth k Hk10) as [E8 E16]. rewrite E8. rewrite E16 in *.
    assert (Hpow : 2 ^ (k - 3) = 2 * 2 ^ (k - 4)) by (rewrite <- Z.pow_succ_r by lia; f_equal; lia).
    assert (0 < 2 ^ (k - 4)) by (apply Z.pow_pos_nonneg; lia).
    destruct (resize_spec k (k - 3) es num maxd (2 ^ k - 1) Hok) as (es' & maxd' & R1 & R2 & R3 & _); [lia|lia|].
    exists (mk_table (Some es') num (2 ^ (k - 3) - 1) maxd'). split_and!; [done| |done]. exists (k - 3). simpl. split_and!; try done; try lia.
    apply Z.div_le_lower_bound; lia.
  - eexists. split_and!; [reflexivity| |done]. exists k. by split_and!.
Qed.

Lemma entry_remove_spec t i e : table_ok t -> entries_of t !! Z.to_nat i = Some e -> referent e <> 0 ->
  exists t', weak_entry_remove t i = Ret t' /\ table_ok t' /\ forall y p, (y, p) ∈ pairs t' <-> y <> referent e /\ (y, p) ∈ pairs t.
Proof.
  intros Ht Hi He. unfold table_ok, weak_entry_remove, set_entry, pairs, entries_of in *. simpl. destruct (weak_entries t) as [es|]; [|done].
  simpl in *. destruct Ht as (k & Hk & -> & Hes & Hload). pose proof Hes as [Hok Hall].
  assert (Hok' : entries_ok k (<[Z.to_nat i := nil_entry]> es) (num_entries t - 1) (max_hash_displacement t)).
  { split; [|by apply Forall_insert]. rewrite map_insert. apply (hash_remove _ _ _ _ _ Hok _ (referent e)); [|done].
    by rewrite list_lookup_fmap, Hi. }
  destruct (compact_spec k _ _ _ Hk Hok') as (t' & C1 & C2 & C3); [lia|]. exists t'. split_and!; [done|done|].
  intros y p. rewrite C3, !elem_of_list_to_set, (pairs_replace k es (num_entries t) (max_hash_displacement t) (Z.to_nat i) e) by done.
  rewrite (entry_pairs_nil nil_entry eq_refl), elem_of_nil. tauto.
Qed.

(** ** The entry of an object *)

Lemma entry_refs_ok t i e : table_ok t -> entries_of t !! Z.to_nat i = Some e -> referent e <> 0 -> refs_ok (e_refs e).
Proof.
  intros Ht Hi He. unfold table_ok, entries_of in *. destruct (weak_entries t) as [es|]; [|done]. destruct Ht as (k & _ & _ & [_ Hall] & _).
  rewrite Forall_lookup in Hall. by apply (Hall (Z.to_nat i)).
Qed.

Lemma refs_nodup r : refs_ok r -> NoDup (elems r).
Proof. destruct r as [slots|refs num m d]; [by intros [_ ?]|]. intros (k & _ & _ & [_ _ _ _ Hd _] & _). done. Qed.

(** The pairs of an object are those of its entry. *)
Lemma entry_pairs_of t i e q : table_ok t -> entries_of t !! Z.to_nat i = Some e -> referent e <> 0 ->
  (referent e, q) ∈ pairs t <-> q ∈ elems (e_refs e).
Proof.
  intros Ht Hi He. destruct (set_entry_spec t i e (e_refs e) Ht Hi He (entry_refs_ok t i e Ht Hi He)) as [_ Hs]. specialize (Hs (referent e) q).
  rewrite decide_True in Hs by done. rewrite <- Hs. replace (mk_entry (referent e) (e_refs e)) with e by by destruct e.
  unfold pairs, set_entry. simpl. by rewrite list_insert_id.
Qed.

Lemma pair_nonnil y q t : (y, q) ∈ pairs t -> y <> 0.
Proof. unfold pairs. rewrite elem_of_list_to_set, elem_of_pairs_l. intros (j & e & _ & He). by apply elem_of_entry_pairs in He as (_ & ? & _). Qed.

Lemma is_empty_elems r : is_empty r = true -> elems r = [].
Proof.
  destruct r as [slots|]; [|done]. unfold elems. simpl. induction slots as [|s slots IH]; [done|]. simpl. rewrite live_cons.
  destruct (s =? 0); [done|discriminate].
Qed.

(** ** Growing *)

Lemma grow_spec t : table_ok t ->
  exists k es maxd, weak_grow_maybe t = Ret (mk_table (Some es) (num_entries t) (2 ^ k - 1) maxd) /\ 6 <= k /\
    entries_ok k es (num_entries t) maxd /\ num_entries t < 2 ^ k * 3 / 4 /\ pairs_l es ≡ₚ pairs_l (entries_of t) /\
    live (map referent es) ≡ₚ live (map referent (entries_of t)).
Proof.
  intros Ht. unfold weak_grow_maybe, table_ok, entries_of in *. destruct t as [[es|] num m maxd]; simpl in *.
  - destruct Ht as (k & Hk & -> & Hok & Hload). rewrite table_size_pow by lia.
    assert (Hp : 2 ^ 6 <= 2 ^ k) by (apply Z.pow_le_mono_r; lia). change (2 ^ 6) with 64 in Hp.
    destruct (2 ^ k * 3 / 4 <=? num) eqn:E; zbool; [|by exists k, es, maxd; split_and!].
    replace (2 ^ k =? 0) with false by (symmetry; apply Z.eqb_neq; lia).
    assert (Hpow : 2 ^ (k + 1) = 2 * 2 ^ k) by (rewrite Z.pow_add_r by lia; lia).
    assert (Hle : 2 ^ k * 3 / 4 <= 2 ^ k) by (apply Z.div_le_upper_bound; lia).
    replace (2 ^ k * 2) with (2 ^ (k + 1)) by lia. destruct (resize_spec k (k + 1) es num maxd (2 ^ k - 1) Hok) as (es' & maxd' & R1 & R2 & R3 & R4); [lia..|].
    exists (k + 1), es', maxd'. split_and!; try done; [lia|]. apply Z.lt_le_trans with (2 ^ k + 1); [lia|]. apply Z.div_le_lower_bound; lia.
  - destruct Ht as (-> & -> & ->). exists 6, (replicate 64 nil_entry), 0. simpl TABLE_SIZE. cbn [Z.leb Z.compare Z.eqb Z.mul].
    assert (Hmap : map referent (replicate 64 nil_entry) = replicate (Z.to_nat (2 ^ 6)) 0) by reflexivity.
    split_and!; [reflexivity|done| |done|done|by rewrite Hmap, live_replicate].
    split; [rewrite Hmap; by apply hash_empty|by apply Forall_replicate].
Qed.

Lemma new_entry_spec x p : x <> 0 -> p <> 0 -> refs_ok (e_refs (new_entry x p)) /\ entry_pairs (new_entry x p) = [(x, p)].
Proof.
  intros Hx Hp. assert (Hl : live [p; 0; 0; 0] = [p]) by (rewrite !live_cons; by replace (p =? 0) with false by (symmetry; by apply Z.eqb_neq)).
  split; [split; [done|rewrite Hl; apply NoDup_singleton]|]. unfold entry_pairs, elems, new_entry. simpl.
  replace (x =? 0) with false by (symmetry; by apply Z.eqb_neq). by rewrite Hl.
Qed.

(** ** Registering *)

Lemma register_spec t x p : table_ok t -> x <> 0 -> p <> 0 -> (x, p) ∉ pairs t ->
  exists t', weak_register_viable t x p = Ret t' /\ table_ok t' /\ pairs t' = {[(x, p)]} ∪ pairs t.
Proof.
  intros Ht Hx Hp Hnew. unfold weak_register_viable.
  destruct (entry_for_referent_spec t x Ht Hx) as [(i & e & F1 & F2 & F3 & F4)|[F1 F2]]; rewrite F1; cbn [obind].
  - rewrite F2. cbn [obind]. subst x. pose proof (entry_refs_ok t i e Ht F3 Hx) as Hr.
    assert (Hpe : forall q, (referent e, q) ∈ pairs t <-> q ∈ elems (e_refs e)) by (intros q; by apply (entry_pairs_of t i)).
    destruct (append_spec (e_refs e) p Hr Hp) as (r' & A1 & A2 & A3); [by rewrite <- Hpe|]. rewrite A1. cbn [obind].
    destruct (set_entry_spec t i e r' Ht F3 Hx A2) as [S1 S2]. eexists. split_and!; [reflexivity|done|].
    apply set_eq. intros [y q]. rewrite S2, elem_of_union, elem_of_singleton. destruct (decide (y = referent e)) as [->|Hy].
    + rewrite A3, elem_of_cons, Hpe. split; [intros [->|]; tauto|intros [[= ->]|]; tauto].
    + split; [tauto|intros [[= -> _]|]; done].
  - destruct (grow_spec t Ht) as (k & es & maxd & G1 & G2 & G3 & G4 & G5 & G6). rewrite G1. cbn [obind].
    destruct (new_entry_spec x p Hx Hp) as [N1 N2].
    assert (Hfree : num_entries t < 2 ^ k - 1) by (assert (2 ^ 6 <= 2 ^ k) by (apply Z.pow_le_mono_r; lia); pose proof (Z.mul_div_le (2 ^ k * 3) 4 ltac:(lia)); lia).
    destruct (entry_insert_spec k es (num_entries t) maxd (new_entry x p) G3 Hx N1) as (es' & maxd' & I1 & I2 & I3 & _); [|done|].
    { apply not_live; [done|]. rewrite G6. by rewrite elem_of_live; intros [? _]. }
    rewrite I1. eexists. split_and!; [reflexivity| |].
    + exists k. simpl. split_and!; try done. lia.
    + unfold pairs. simpl. rewrite I3, N2, G5. done.
Qed.

(** ** Unregistering *)

Lemma unregister_spec t x p : table_ok t -> p <> 0 ->
  exists t' reported, weak_unregister_no_lock t x p = Ret (t', reported) /\ table_ok t' /\ pairs t' = pairs t ∖ {[(x, p)]} /\
    ((x, p) ∈ pairs t -> reported = false).
Proof.
  intros Ht Hp. unfold weak_unregister_no_lock. destruct (x =? 0) eqn:Ex; zbool.
  { exists t, false. split_and!; try done. apply set_eq. intros [y q]. rewrite elem_of_difference, elem_of_singleton.
    split; [|tauto]. intros Hyq. split; [done|]. intros [= -> ->]. by apply pair_nonnil in Hyq. }
  destruct (entry_for_referent_spec t x Ht Ex) as [(i & e & F1 & F2 & F3 & F4)|[F1 F2]]; rewrite F1; cbn [obind].
  2: { exists t, false. split_and!; try done. pose proof (not_referent x p t F2). set_solver. }
  rewrite F2. cbn [obind]. subst x. pose proof (entry_refs_ok t i e Ht F3 Ex) as Hr.
  assert (Hpe : forall q, (referent e, q) ∈ pairs t <-> q ∈ elems (e_refs e)) by (intros q; by apply (entry_pairs_of t i)).
  assert (Hrem : exists r' reported, remove_referrer (e_refs e) p = Ret (r', reported) /\ refs_ok r' /\
    (forall q, q ∈ elems r' <-> q ∈ elems (e_refs e) /\ q <> p) /\ ((referent e, p) ∈ pairs t -> reported = false)).
  { destruct (remove_spec (e_refs e) p Hr Hp) as [(H1 & r' & H2 & H3 & H4)|(H1 & H2)].
    - exists r', false. split_and!; try done. assert (Hn : p ∉ elems r') by (pose proof (refs_nodup _ Hr) as Hd; rewrite H4 in Hd; by apply NoDup_cons in Hd as [? _]).
      intros q. rewrite H4, elem_of_cons. split; [intros Hq; split; [by right|by intros ->]|tauto].
    - exists (e_refs e), true. split_and!; try done; [|rewrite Hpe; done]. intros q. split; [intros Hq; split; [done|by intros ->]|tauto]. }
  destruct Hrem as (r' & reported & R1 & R2 & R3 & R4). rewrite R1. cbn [obind].
  destruct (set_entry_spec t i e r' Ht F3 Ex R2) as [S1 S2].
  assert (Hset : forall y q, (y, q) ∈ pairs (set_entry t i (mk_entry (referent e) r')) <-> (y, q) ∈ pairs t ∖ {[(referent e, p)]}).
  { intros y q. rewrite S2, elem_of_difference, elem_of_singleton. destruct (decide (y = referent e)) as [->|Hy].
    - rewrite R3, Hpe. split; [intros [? ?]; split; [done|congruence]|intros [? Hn]; split; [done|]; intros ->; done].
    - split; [intros; split; [done|congruence]|tauto]. }
  destruct (is_empty r') eqn:Ee.
  - assert (Hi : entries_of (set_entry t i (mk_entry (referent e) r')) !! Z.to_nat i = Some (mk_entry (referent e) r'))
      by (simpl; apply list_lookup_insert_eq; by eapply lookup_lt_Some).
    destruct (entry_remove_spec _ i _ S1 Hi Ex) as (t' & E1 & E2 & E3). rewrite E1. cbn [obind]. exists t', reported. split_and!; try done.
    apply set_eq. intros [y q]. rewrite E3, Hset. simpl. split; [tauto|]. intros Hyq. split; [|done]. intros ->.
    apply Hset in Hyq. rewrite S2 in Hyq. rewrite decide_True in Hyq by done. by rewrite (is_empty_elems r' Ee) in Hyq; apply elem_of_nil in Hyq.
  - eexists _, reported. split_and!; [reflexivity|done| |done]. apply set_eq. by intros [y q].
Qed.

(** ** Clearing *)

(** The variables after those in [ps] that hold [x] were zeroed. *)
Definition zeroed (ps : Z -> bool) (x : Z) (m : vars) : vars := map_imap (fun q v => Some (if ps q && (v =? x) then 0 else v)) m.

Lemma lookup_zeroed ps x m q : zeroed ps x m !! q = (fun v => if ps q && (v =? x) then 0 else v) <$> m !! q.
Proof. unfold zeroed. rewrite map_lookup_imap. by destruct (m !! q). Qed.

Lemma zeroed_none ps x m : (forall q, ps q = false) -> zeroed ps x m = m.
Proof. intros H. apply map_eq. intros q. rewrite lookup_zeroed, H. by destruct (m !! q). Qed.

Lemma zero_out_spec m ps x : x <> 0 -> (forall q, q ∈ live ps -> is_Some (m !! q)) ->
  exists n, zero_out m ps x = Ret (zeroed (fun q => bool_decide (q ∈ live ps)) x m, n) /\
    ((forall q v, q ∈ live ps -> m !! q = Some v -> v = x \/ v = 0) -> n = O).
Proof.
  intros Hx. revert m. induction ps as [|p ps IH]; intros m Hm.
  { exists O. split; [|done]. simpl. do 2 f_equal. symmetry. by apply zeroed_none. }
  cbn [zero_out]. rewrite live_cons in *. destruct (p =? 0) eqn:E; zbool; [by apply IH|].
  destruct (Hm p) as [v Hv]; [left|]. rewrite Hv.
  assert (Hz : forall m', (forall q, m' !! q = if decide (q = p) then Some (if v =? x then 0 else v) else m !! q) ->
    zeroed (fun q => bool_decide (q ∈ live ps)) x m' = zeroed (fun q => bool_decide (q ∈ p :: live ps)) x m).
  { intros m' Hm'. apply map_eq. intros q. rewrite !lookup_zeroed, Hm'. destruct (decide (q = p)) as [->|Hne].
    - rewrite Hv. simpl. rewrite (bool_decide_true (p ∈ p :: live ps)) by left. f_equal. cbn [andb].
      destruct (v =? x) eqn:Ev; zbool.
      + replace (0 =? x) with false by (symmetry; apply Z.eqb_neq; lia). by rewrite andb_false_r.
      + replace (v =? x) with false by (symmetry; by apply Z.eqb_neq). by rewrite andb_false_r.
    - replace (bool_decide (q ∈ p :: live ps)) with (bool_decide (q ∈ live ps)); [done|]. apply bool_decide_ext. set_solver. }
  destruct (v =? x) eqn:Ev; zbool.
  - destruct (IH (<[p := 0]> m)) as (n & R & Hn).
    { intros q Hq. destruct (decide (q = p)) as [->|]; [rewrite lookup_insert_eq|rewrite lookup_insert_ne by done; apply Hm]; [done|by right]. }
    exists n. split.
    + rewrite R. do 2 f_equal. apply Hz. intros q. destruct (decide (q = p)) as [->|]; [by rewrite lookup_insert_eq|by rewrite lookup_insert_ne].
    + intros Hall. apply Hn. intros q w Hq Hw. destruct (decide (q = p)) as [->|]; [rewrite lookup_insert_eq in Hw; right; congruence|].
      rewrite lookup_insert_ne in Hw by done. apply (Hall q); [by right|done].
  - destruct (IH m) as (n & R & Hn); [intros q Hq; apply Hm; by right|]. rewrite R. cbn [obind]. eexists. split.
    + do 2 f_equal. apply Hz. intros q. destruct (decide (q = p)) as [->|]; [|done]. by rewrite Hv.
    + intros Hall. destruct (Hall p v ltac:(left) Hv) as [->| ->]; [done|]. apply Hn. intros q w Hq Hw. apply (Hall q); [by right|done].
Qed.

Lemma clear_spec t m x : table_ok t -> x <> 0 -> (forall q, (x, q) ∈ pairs t -> is_Some (m !! q)) ->
  exists t' n, weak_clear_no_lock t m x = Ret (t', zeroed (fun q => bool_decide ((x, q) ∈ pairs t)) x m, n) /\ table_ok t' /\
    pairs t' = filter (fun pr => pr.1 <> x) (pairs t) /\ ((forall q v, (x, q) ∈ pairs t -> m !! q = Some v -> v = x \/ v = 0) -> n = O).
Proof.
  intros Ht Hx Hm. unfold weak_clear_no_lock.
  destruct (entry_for_referent_spec t x Ht Hx) as [(i & e & F1 & F2 & F3 & F4)|[F1 F2]]; rewrite F1; cbn [obind].
  - rewrite F2. cbn [obind]. subst x.
    assert (Hpe : forall q, (referent e, q) ∈ pairs t <-> q ∈ elems (e_refs e)) by (intros q; by apply (entry_pairs_of t i)).
    destruct (zero_out_spec m (slots_of (e_refs e)) (referent e) Hx) as (n & Z1 & Z2); [intros q Hq; apply Hm; by apply Hpe|].
    rewrite Z1. cbn [obind]. destruct (entry_remove_spec t i e Ht F3 Hx) as (t' & E1 & E2 & E3). rewrite E1. cbn [obind].
    exists t', n. split_and!; [|done| |].
    + do 3 f_equal. apply map_eq. intros q. rewrite !lookup_zeroed. f_equal. by rewrite (bool_decide_ext _ _ (Hpe q)).
    + apply set_eq. intros [y q]. rewrite E3, elem_of_filter. done.
    + intros Hall. apply Z2. intros q v Hq. apply Hall. by apply Hpe.
  - exists t, O. split_and!; try done.
    + do 3 f_equal. symmetry. apply zeroed_none. intros q. apply bool_decide_false. by apply not_referent.
    + apply set_eq. intros [y q]. rewrite elem_of_filter. simpl. split; [|tauto]. intros Hyq. split; [|done]. intros ->. by apply (not_referent x q t F2).
Qed.

(** ** Refinement *)

Inductive weak_op := W_register (x p : Z) | W_unregister (x p : Z) | W_clear (x : Z).

Definition weak_step (op : weak_op) (st : weak_table_t * vars) : outcome (weak_table_t * vars) :=
  let '(t, m) := st in
  match op with
  | W_register x p => let! t := weak_register_viable t x p in Ret (t, m)
  | W_unregister x p => let! res := weak_unregister_no_lock t x p in Ret (res.1, m)
  | W_clear x => let! res := weak_clear_no_lock t m x in Ret res.1
  end.

Fixpoint weak_run (ops : list weak_op) (st : weak_table_t * vars) : outcome (weak_table_t * vars) :=
  match ops with [] => Ret st | op :: ops' => let! st := weak_step op st in weak_run ops' st end.

(** A set of pairs and the variables. *)
Definition abs_step (op : weak_op) (st : gset (Z * Z) * vars) : gset (Z * Z) * vars :=
  let '(ps, m) := st in
  match op with
  | W_register x p => ({[(x, p)]} ∪ ps, m)
  | W_unregister x p => (ps ∖ {[(x, p)]}, m)
  | W_clear x => (filter (fun pr => pr.1 <> x) ps, zeroed (fun q => bool_decide ((x, q) ∈ ps)) x m)
  end.

Definition abs_run (ops : list weak_op) (st : gset (Z * Z) * vars) : gset (Z * Z) * vars := foldl (fun st op => abs_step op st) st ops.

(** What the callers take care of: objects and variables are not nil, a variable is not registered
    twice, and registered variables exist. *)
Definition wop_ok (op : weak_op) (st : gset (Z * Z) * vars) : bool :=
  match op with
  | W_register x p => negb (x =? 0) && negb (p =? 0) && negb (bool_decide ((x, p) ∈ st.1)) && bool_decide (is_Some (st.2 !! p))
  | W_unregister _ p => negb (p =? 0)
  | W_clear x => negb (x =? 0)
  end.

Fixpoint wops_ok (ops : list weak_op) (st : gset (Z * Z) * vars) : bool :=
  match ops with [] => true | op :: ops' => wop_ok op st && wops_ok ops' (abs_step op st) end.

(** The state invariant: the table is in order and registered variables exist. *)
Definition weak_inv (t : weak_table_t) (m : vars) : Prop := table_ok t /\ forall x q, (x, q) ∈ pairs t -> is_Some (m !! q).

Lemma weak_step_refines op t m : weak_inv t m -> wop_ok op (pairs t, m) = true ->
  exists t' m', weak_step op (t, m) = Ret (t', m') /\ weak_inv t' m' /\ (pairs t', m') = abs_step op (pairs t, m).
Proof.
  intros [Ht Hm] Hok. destruct op as [x p|x p|x]; simpl in *; zbool.
  - rename select (bool_decide (_ ∈ _) = false) into Hn. apply bool_decide_eq_false in Hn. rename select (bool_decide _ = true) into Hp. apply bool_decide_eq_true in Hp.
    destruct (register_spec t x p Ht) as (t' & R & Ht' & Hpr); [done..|]. rewrite R. cbn [obind]. exists t', m. split_and!; [done| |by rewrite Hpr].
    split; [done|]. intros y q. rewrite Hpr, elem_of_union, elem_of_singleton. intros [[= -> ->]|Hq]; [done|by apply (Hm y)].
  - destruct (unregister_spec t x p Ht) as (t' & r & R & Ht' & Hpr & _); [done|]. rewrite R. cbn [obind]. exists t', m. split_and!; [done| |by rewrite Hpr].
    split; [done|]. intros y q. rewrite Hpr, elem_of_difference. intros [Hq _]. by apply (Hm y).
  - destruct (clear_spec t m x Ht) as (t' & n & R & Ht' & Hpr & _); [done|intros q; apply Hm|]. rewrite R. cbn [obind fst]. eexists _, _.
    split_and!; [reflexivity| |by rewrite Hpr]. split; [done|]. intros y q. rewrite Hpr, elem_of_filter. intros [_ Hq].
    rewrite lookup_zeroed. destruct (Hm y q Hq) as [v ->]. done.
Qed.

(** C10. Whatever weak variables are registered with and unregistered from whatever objects, and
    whichever objects are cleared, in any order and any number, the weak table holds exactly the
    registered pairs, clearing an object zeroes exactly the variables registered with it that hold
    it, and the fatal error of a table without a free slot is never reached: through the four inline
    slots, the growing hash sets, the growing and shrinking table and the holes that removals leave. *)
Theorem weak_table_refines ops t m : weak_inv t m -> wops_ok ops (pairs t, m) = true ->
  exists t' m', weak_run ops (t, m) = Ret (t', m') /\ weak_inv t' m' /\ (pairs t', m') = abs_run ops (pairs t, m).
Proof.
  revert t m. induction ops as [|op ops IH]; intros t m Hinv Hok; [by exists t, m|]. cbn [wops_ok] in Hok. apply andb_true_iff in Hok as [Hop Hops].
  destruct (weak_step_refines op t m Hinv Hop) as (t1 & m1 & R1 & I1 & A1). rewrite <- A1 in Hops.
  destruct (IH t1 m1 I1 Hops) as (t2 & m2 & R2 & I2 & A2). exists t2, m2. cbn [weak_run]. rewrite R1. cbn [obind]. split_and!; [done|done|].
  rewrite A2, A1. done.
Qed.
