(* ===== verification/WeakRefs.v ===== *)
(** * Weak references

    NSObject.mm: storing, loading, copying, moving and destroying weak variables, and what
    deallocation does to them, over the object headers of RetainCount.v and the weak tables
    of WeakTable.v.  Every side table has a lock and a weak table of its own; an object uses
    the side table of its stripe.

    The classes of the program are a parameter: what the runtime asks of a class, the methods
    that a class may override, [+initialize], C++ destructors and associated objects. *)

From Stdlib Require Import ZArith Lia Bool.
From stdpp Require Import base list gmap.
From S2P Require Import Prelude RetainCount WeakTable.

Local Open Scope Z_scope.

(** ** State *)

Record ws := mk_ws {
  hdrs : rcs;
  tables : gmap Z weak_table_t;
  wv : gmap Z Z;
  reports : nat }.

Definition WM (A : Type) : Type := ws -> outcome (A * ws).

Definition wret {A} (a : A) : WM A := fun s => Ret (a, s).
Definition wbnd {A B} (c : WM A) (k : A -> WM B) : WM B :=
  fun s => match c s with Ret (a, s') => k a s' | Fault => Fault | OutOfFuel => OutOfFuel end.
Definition wfault {A} : WM A := fun _ => Fault.
Definition wtimeout {A} : WM A := fun _ => OutOfFuel.

Declare Scope weak_scope.
Delimit Scope weak_scope with weak.
Notation "'do' x '<-' e ';' k" := (wbnd e (fun x => k))
  (at level 10, x name, e at level 100, k at level 200) : weak_scope.
Notation "e ;; k" := (wbnd e (fun _ => k)) (at level 100, right associativity) : weak_scope.
Local Open Scope weak_scope.

Definition wassert (b : bool) : WM unit := if b then wret tt else wfault.
Definition wask {A} (f : ws -> A) : WM A := fun s => Ret (f s, s).

(** An operation on the headers. *)
Definition hdr {A} (c : RM A) : WM A :=
  fun s => match c (hdrs s) with
           | Ret (x, h) => Ret (x, mk_ws h (tables s) (wv s) (reports s))
           | Fault => Fault
           | OutOfFuel => OutOfFuel
           end.

(** A variable. *)
Definition get_var (location : Z) : WM Z :=
  fun s => match wv s !! location with Some v => Ret (v, s) | None => Fault end.
Definition set_var (location v : Z) : WM unit :=
  fun s => match wv s !! location with
           | Some _ => Ret (tt, mk_ws (hdrs s) (tables s) (<[location := v]> (wv s)) (reports s))
           | None => Fault
           end.

(** The weak table of a side table; all are empty at first. *)
Definition table_at (s : ws) (i : Z) : weak_table_t := default empty_table (tables s !! i).

Definition on_table {A} (i : Z) (f : weak_table_t -> gmap Z Z -> outcome (A * weak_table_t * gmap Z Z * nat)) : WM A :=
  fun s => match f (table_at s i) (wv s) with
           | Ret (x, t, m, n) => Ret (x, mk_ws (hdrs s) (<[i := t]> (tables s)) m (reports s + n))
           | Fault => Fault
           | OutOfFuel => OutOfFuel
           end.

Definition unregister (i ref location : Z) : WM unit :=
  on_table i (fun t m => let! res := weak_unregister_no_lock t ref location in Ret (tt, res.1, m, if res.2 then 1%nat else O)).
Definition register (i ref location : Z) : WM unit :=
  on_table i (fun t m => let! t' := weak_register_viable t ref location in Ret (tt, t', m, O)).
Definition clear (i ref : Z) : WM unit :=
  on_table i (fun t m => let! res := weak_clear_no_lock t m ref in Ret (tt, res.1.1, res.1.2, res.2)).

(** ** The classes of the program *)

Record classes := mk_classes {
  taggedClass : Z -> Z;
  isInitialized : Z -> ws -> bool;
  thisThreadIsInitializing : Z -> ws -> bool;
  hasCustomRR : Z -> ws -> bool;
  class_initialize : Z -> Z -> WM unit;
  (** no result: the method is not implemented and forwards *)
  allowsWeakReference : Z -> WM (option bool);
  retainWeakReference : Z -> WM (option bool);
  send_retain : Z -> WM Z;
  send_release : Z -> WM unit;
  object_cxxDestruct : Z -> WM unit;
  object_remove_assocations : Z -> WM unit }.

Section Weak.
Context (a : arch) (cs : classes) (fuel : nat).

Definition stripe (ptr : Z) : Z := indexForPointer a ptr.

(** ** Locks: two side tables, in the order of their addresses *)

Definition lock (i : Z) : WM unit := hdr (lock_stripe i).
Definition unlock (i : Z) : WM unit := hdr (unlock_stripe i).

Definition lockTwo (haveOld haveNew : bool) (lock1 lock2 : Z) : WM unit :=
  match haveOld, haveNew with
  | true, true => if lock1 <? lock2 then lock lock1 ;; lock lock2
                  else lock lock2 ;; (if negb (lock2 =? lock1) then lock lock1 else wret tt)
  | true, false => lock lock1
  | false, _ => lock lock2
  end.

Definition unlockTwo (haveOld haveNew : bool) (lock1 lock2 : Z) : WM unit :=
  match haveOld, haveNew with
  | true, true => unlock lock1 ;; (if negb (lock2 =? lock1) then unlock lock2 else wret tt)
  | true, false => unlock lock1
  | false, _ => unlock lock2
  end.

Definition getIsa (obj : Z) : WM Z := if isTaggedPointer a obj then wret (taggedClass cs obj) else hdr (ISA a obj).

(** ** Registration *)

Definition weak_register_no_lock (i ref location : Z) (crashIfDeallocating : bool) : WM Z :=
  if (ref =? 0) || isTaggedPointer a ref then wret ref else
  do cls <- hdr (ISA a ref);
  do custom <- wask (hasCustomRR cs cls);
  do viable <- (if negb custom then do d <- hdr (rootIsDeallocating a ref); wret (Some (negb d))
                else allowsWeakReference cs ref);
  match viable with
  | None => wret 0
  | Some false => if crashIfDeallocating then wfault else wret 0
  | Some true => register i ref location ;; wret ref
  end.

(** ** Storing *)

Fixpoint storeWeak_loop (n : nat) (haveOld haveNew crashIfDeallocating : bool) (location newObj previouslyInitializedClass : Z) : WM Z :=
  match n with
  | O => wtimeout
  | S n' =>
      do oldObj <- (if haveOld then get_var location else wret 0);
      let oldTable := stripe oldObj in
      let newTable := stripe newObj in
      lockTwo haveOld haveNew oldTable newTable ;;
      do now <- (if haveOld then get_var location else wret 0);
      if haveOld && negb (now =? oldObj) then
        unlockTwo haveOld haveNew oldTable newTable ;;
        storeWeak_loop n' haveOld haveNew crashIfDeallocating location newObj previouslyInitializedClass
      else
      do again <- (if haveNew && negb (newObj =? 0) then
                     do cls <- getIsa newObj;
                     do inited <- wask (isInitialized cs cls);
                     wret (if negb (cls =? previouslyInitializedClass) && negb inited then Some cls else None)
                   else wret None);
      match again with
      | Some cls =>
          unlockTwo haveOld haveNew oldTable newTable ;;
          class_initialize cs cls newObj ;;
          storeWeak_loop n' haveOld haveNew crashIfDeallocating location newObj cls
      | None =>
          (if haveOld then unregister oldTable oldObj location else wret tt) ;;
          do stored <- (if haveNew then
                          do v <- weak_register_no_lock newTable newObj location crashIfDeallocating;
                          (if negb (v =? 0) && negb (isTaggedPointer a v) then hdr (setWeaklyReferenced_nolock a fuel v) else wret tt) ;;
                          set_var location v ;;
                          wret v
                        else wret newObj);
          unlockTwo haveOld haveNew oldTable newTable ;;
          wret stored
      end
  end.

Definition storeWeak (haveOld haveNew crashIfDeallocating : bool) (location newObj : Z) : WM Z :=
  wassert (haveOld || haveNew) ;;
  wassert (haveNew || (newObj =? 0)) ;;
  storeWeak_loop fuel haveOld haveNew crashIfDeallocating location newObj 0.

Definition objc_storeWeak (location newObj : Z) : WM Z := storeWeak true true true location newObj.
Definition objc_storeWeakOrNil (location newObj : Z) : WM Z := storeWeak true true false location newObj.

Definition objc_initWeak (location newObj : Z) : WM Z :=
  if newObj =? 0 then set_var location 0 ;; wret 0 else storeWeak false true true location newObj.
Definition objc_initWeakOrNil (location newObj : Z) : WM Z :=
  if newObj =? 0 then set_var location 0 ;; wret 0 else storeWeak false true false location newObj.

Definition objc_destroyWeak (location : Z) : WM unit := storeWeak true false false location 0 ;; wret tt.

(** ** Loading *)

Fixpoint objc_loadWeakRetained_loop (n : nat) (location : Z) : WM Z :=
  match n with
  | O => wtimeout
  | S n' =>
      do obj <- get_var location;
      if obj =? 0 then wret 0 else
      if isTaggedPointer a obj then wret obj else
      let table := stripe obj in
      lock table ;;
      do now <- get_var location;
      if negb (now =? obj) then unlock table ;; objc_loadWeakRetained_loop n' location else
      do cls <- hdr (ISA a obj);
      do custom <- wask (hasCustomRR cs cls);
      if negb custom then
        do inited <- wask (isInitialized cs cls);
        wassert inited ;;
        do ok <- hdr (rootTryRetain a fuel obj);
        unlock table ;;
        wret (if ok : bool then obj else 0)
      else
        do inited <- wask (fun s => isInitialized cs cls s || thisThreadIsInitializing cs cls s);
        if inited : bool then
          do ok <- retainWeakReference cs obj;
          unlock table ;;
          wret (match ok with Some true => obj | _ => 0 end)
        else unlock table ;; class_initialize cs cls obj ;; objc_loadWeakRetained_loop n' location
  end.

Definition objc_loadWeakRetained (location : Z) : WM Z := objc_loadWeakRetained_loop fuel location.

Definition retain (obj : Z) : WM Z :=
  wassert (negb (isTaggedPointer a obj)) ;;
  do cls <- hdr (ISA a obj);
  do custom <- wask (hasCustomRR cs cls);
  if negb custom then hdr (rootRetain a fuel obj) else send_retain cs obj.

Definition objc_retain (obj : Z) : WM Z :=
  if obj =? 0 then wret obj else if isTaggedPointer a obj then wret obj else retain obj.

Definition release (obj : Z) : WM unit :=
  wassert (negb (isTaggedPointer a obj)) ;;
  do cls <- hdr (ISA a obj);
  do custom <- wask (hasCustomRR cs cls);
  if negb custom then hdr (rootRelease a fuel obj) ;; wret tt else send_release cs obj.

Definition objc_release (obj : Z) : WM unit :=
  if obj =? 0 then wret tt else if isTaggedPointer a obj then wret tt else release obj.

Definition objc_copyWeak (dst src : Z) : WM unit :=
  do obj <- objc_loadWeakRetained src;
  objc_initWeak dst obj ;;
  objc_release obj.

Definition objc_moveWeak (dst src : Z) : WM unit :=
  objc_copyWeak dst src ;;
  objc_destroyWeak src ;;
  set_var src 0.

(** ** Deallocation

    The assertion that the object has left the side table is made in debug builds only. *)

Definition clearDeallocating_slow (this : Z) : WM unit :=
  do bits <- hdr (LoadExclusive this);
  wassert (nonpointer bits && (weakly_referenced a bits || has_sidetable_rc a bits)) ;;
  lock (stripe this) ;;
  (if weakly_referenced a bits then clear (stripe this) this else wret tt) ;;
  (if has_sidetable_rc a bits then hdr (refcnt_erase this) else wret tt) ;;
  unlock (stripe this).

Definition sidetable_clearDeallocating (this : Z) : WM unit :=
  lock (stripe this) ;;
  do it <- hdr (refcnt_find this);
  (match it with
   | None => wret tt
   | Some v => (if has v SIDE_TABLE_WEAKLY_REFERENCED then clear (stripe this) this else wret tt) ;; hdr (refcnt_erase this)
   end) ;;
  unlock (stripe this).

Definition clearDeallocating (this : Z) : WM unit :=
  do bits <- hdr (LoadExclusive this);
  if negb (nonpointer bits) then sidetable_clearDeallocating this
  else if weakly_referenced a bits || has_sidetable_rc a bits then clearDeallocating_slow this
  else wret tt.

(** [hasCxxDtor] of an object; that of a raw isa is the class's. *)
Definition objc_destructInstance (clsHasCxxDtor : Z -> bool) (obj : Z) : WM unit :=
  if obj =? 0 then wret tt else
  do bits <- hdr (LoadExclusive obj);
  do assoc <- hdr (hasAssociatedObjects a obj);
  let cxx := if nonpointer bits then has_cxx_dtor bits else clsHasCxxDtor bits in
  (if cxx then object_cxxDestruct cs obj else wret tt) ;;
  (if assoc : bool then object_remove_assocations cs obj else wret tt) ;;
  clearDeallocating obj.

Definition free_object (obj : Z) : RM unit :=
  fun s => Ret (tt, mk_rcs (delete obj (isas s)) (refcnts s) (held s) (stores s) (notices s)).

Definition object_dispose (clsHasCxxDtor : Z -> bool) (obj : Z) : WM unit :=
  if obj =? 0 then wret tt else objc_destructInstance clsHasCxxDtor obj ;; hdr (free_object obj).

Definition rootDealloc (clsHasCxxDtor : Z -> bool) (this : Z) : WM unit :=
  if isTaggedPointer a this then wret tt else
  do bits <- hdr (LoadExclusive this);
  if nonpointer bits && negb (weakly_referenced a bits) && negb (has_assoc bits) && negb (has_cxx_dtor bits) && negb (has_sidetable_rc a bits)
  then hdr (free_object this)
  else object_dispose clsHasCxxDtor this.

End Weak.
