(* ===== verification/WeakRefsSpec.v ===== *)
(** * What weak references guarantee

    Object headers, side tables and weak tables together: a weak variable holds an object or
    nil; loading it retains the object or yields nil once deallocation has begun; when the
    object goes away every weak variable that held it is nil. *)

From Stdlib Require Import ZArith Lia Bool.
From stdpp Require Import base list gmap.
From S2P Require Import Prelude RetainCount RetainCountSpec ObjectSpec WeakTable WeakTableSpec WeakRefs.

Local Open Scope Z_scope.
Local Open Scope weak_scope.

Lemma wbnd_Ret {A B} (c : WM A) (k : A -> WM B) s x s' : c s = Ret (x, s') -> wbnd c k s = k x s'.
Proof. intros He. unfold wbnd. by rewrite He. Qed.

Lemma wbnd_assoc {A B C} (c : WM A) (k : A -> WM B) (k' : B -> WM C) s : wbnd (wbnd c k) k' s = wbnd c (fun x => wbnd (k x) k') s.
Proof. unfold wbnd. by destruct (c s) as [[]| |]. Qed.

Tactic Notation "wstep" uconstr(H) := rewrite (wbnd_Ret _ _ _ _ _ H).

Definition with_hdrs (s : ws) (h : rcs) : ws := mk_ws h (tables s) (wv s) (reports s).
Definition with_vars (s : ws) (m : gmap Z Z) : ws := mk_ws (hdrs s) (tables s) m (reports s).

Lemma hdr_run {A} (c : RM A) s x h : c (hdrs s) = Ret (x, h) -> hdr c s = Ret (x, with_hdrs s h).
Proof. intros H. unfold hdr. by rewrite H. Qed.

Lemma get_run s q v : wv s !! q = Some v -> get_var q s = Ret (v, s).
Proof. intros H. unfold get_var. by rewrite H. Qed.

Lemma set_run s q v w : wv s !! q = Some w -> set_var q v s = Ret (tt, with_vars s (<[q := v]> (wv s))).
Proof. intros H. unfold set_var. by rewrite H. Qed.

Section Spec.
Context (a : arch) (cs : classes) (fuel : nat).

(** ** Locks *)

Definition lockset (haveOld haveNew : bool) (i j : Z) : gset Z := (if haveOld then {[i]} else ∅) ∪ (if haveNew then {[j]} else ∅).

Lemma lock_run s i : i ∉ held (hdrs s) -> lock i s = Ret (tt, with_hdrs s (with_held (hdrs s) ({[i]} ∪ held (hdrs s)))).
Proof. intros H. apply hdr_run. unfold lock_stripe. by rewrite decide_False. Qed.

Lemma unlock_run s i : i ∈ held (hdrs s) -> unlock i s = Ret (tt, with_hdrs s (with_held (hdrs s) (held (hdrs s) ∖ {[i]}))).
Proof. intros H. apply hdr_run. unfold unlock_stripe. by rewrite decide_True. Qed.

Lemma with_held_twice s h h' : with_hdrs (with_hdrs s (with_held (hdrs s) h)) (with_held (with_held (hdrs s) h) h') = with_hdrs s (with_held (hdrs s) h').
Proof. done. Qed.

Lemma lockTwo_run s (ho hn : bool) i j : ho || hn = true -> held (hdrs s) = ∅ ->
  lockTwo ho hn i j s = Ret (tt, with_hdrs s (with_held (hdrs s) (lockset ho hn i j))).
Proof.
  intros Hb Hh. assert (Hone : forall l k, k = {[l]} -> lock l s = Ret (tt, with_hdrs s (with_held (hdrs s) k))).
  { intros l k ->. rewrite lock_run by (rewrite Hh; set_solver). rewrite Hh. by rewrite union_empty_r_L. }
  assert (Htwo : forall l l', l <> l' -> wbnd (lock l) (fun _ => lock l') s = Ret (tt, with_hdrs s (with_held (hdrs s) ({[l']} ∪ {[l]})))).
  { intros l l' Hne. wstep (Hone l {[l]} eq_refl). rewrite lock_run; [by rewrite with_held_twice|]. simpl. set_solver. }
  unfold lockTwo, lockset. destruct ho, hn; try discriminate Hb.
  - destruct (i <? j) eqn:E; zbool; [rewrite Htwo by lia; by rewrite (union_comm_L {[i]})|].
    destruct (j =? i) eqn:E2; zbool; cbn [negb].
    + subst. wstep (Hone i {[i]} eq_refl). by rewrite union_idemp_L.
    + by rewrite Htwo.
  - apply Hone. set_solver.
  - apply Hone. set_solver.
Qed.

Lemma unlockTwo_run s (ho hn : bool) i j : ho || hn = true -> held (hdrs s) = lockset ho hn i j ->
  unlockTwo ho hn i j s = Ret (tt, with_hdrs s (with_held (hdrs s) ∅)).
Proof.
  intros Hb Hh. unfold unlockTwo, lockset in *. destruct ho, hn; try discriminate Hb.
  - assert (Hi : i ∈ held (hdrs s)) by (rewrite Hh; set_solver). wstep (unlock_run s i Hi). destruct (j =? i) eqn:E; zbool; cbn [negb].
    + unfold wret. do 3 f_equal. rewrite Hh. subst. f_equal. set_solver.
    + rewrite unlock_run by (simpl; rewrite Hh; set_solver). rewrite with_held_twice. simpl. do 3 f_equal. rewrite Hh. f_equal. set_solver.
  - rewrite unlock_run by (rewrite Hh; set_solver). do 3 f_equal. rewrite Hh. f_equal. set_solver.
  - rewrite unlock_run by (rewrite Hh; set_solver). do 3 f_equal. rewrite Hh. f_equal. set_solver.
Qed.

(** ** Registrations, over all tables *)

Definition reg (s : ws) (x q : Z) : Prop := (x, q) ∈ pairs (table_at s (stripe a x)).

Definition tables_ok (s : ws) : Prop := forall i, table_ok (table_at s i) /\ forall x q, (x, q) ∈ pairs (table_at s i) -> stripe a x = i.

Lemma empty_table_ok : table_ok empty_table /\ pairs empty_table = ∅.
Proof. by split. Qed.

Lemma table_at_insert s h i t m n j : table_at (mk_ws h (<[i := t]> (tables s)) m n) j = if decide (j = i) then t else table_at s j.
Proof. unfold table_at. simpl. destruct (decide (j = i)) as [->|]; [by rewrite lookup_insert_eq|by rewrite lookup_insert_ne]. Qed.

(** The tables after one of them was changed. *)
Lemma on_table_ok s i t m n : tables_ok s -> table_ok t -> (forall x q, (x, q) ∈ pairs t -> stripe a x = i) ->
  tables_ok (mk_ws (hdrs s) (<[i := t]> (tables s)) m n) /\
  forall x q, reg (mk_ws (hdrs s) (<[i := t]> (tables s)) m n) x q <-> if decide (stripe a x = i) then (x, q) ∈ pairs t else reg s x q.
Proof.
  intros Hs Ht Hp. split.
  - intros j. rewrite table_at_insert. destruct (decide (j = i)) as [->|]; [done|apply Hs].
  - intros x q. unfold reg. rewrite table_at_insert. by destruct (decide (stripe a x = i)).
Qed.

Lemma unregister_run s x q : tables_ok s -> q <> 0 ->
  exists s', unregister (stripe a x) x q s = Ret (tt, s') /\ hdrs s' = hdrs s /\ wv s' = wv s /\ tables_ok s' /\
    (forall y p, reg s' y p <-> reg s y p /\ (y, p) <> (x, q)).
Proof.
  intros Hs Hq. destruct (Hs (stripe a x)) as [Ht Hst]. destruct (unregister_spec _ x q Ht Hq) as (t' & r & R & Ht' & Hp & _).
  unfold unregister, on_table. rewrite R. cbn [obind fst snd].
  destruct (on_table_ok s (stripe a x) t' (wv s) (reports s + if r then 1 else 0) Hs Ht') as [O1 O2].
  { intros y p. rewrite Hp, elem_of_difference. intros [Hy _]. by apply (Hst y p). }
  eexists. split_and!; [reflexivity|done|done|exact O1|]. intros y p. rewrite O2. unfold reg.
  destruct (decide (stripe a y = stripe a x)) as [->|Hne].
  - rewrite Hp, elem_of_difference, elem_of_singleton. done.
  - split; [intros Hy; split; [done|congruence]|tauto].
Qed.

Lemma register_run s x q : tables_ok s -> x <> 0 -> q <> 0 -> ~ reg s x q ->
  exists s', register (stripe a x) x q s = Ret (tt, s') /\ hdrs s' = hdrs s /\ wv s' = wv s /\ tables_ok s' /\
    (forall y p, reg s' y p <-> reg s y p \/ (y, p) = (x, q)).
Proof.
  intros Hs Hx Hq Hn. destruct (Hs (stripe a x)) as [Ht Hst]. destruct (register_spec _ x q Ht Hx Hq Hn) as (t' & R & Ht' & Hp).
  unfold register, on_table. rewrite R. cbn [obind]. destruct (on_table_ok s (stripe a x) t' (wv s) (reports s + 0) Hs Ht') as [O1 O2].
  { intros y p. rewrite Hp, elem_of_union, elem_of_singleton. intros [[= -> ->]|Hy]; [done|by apply (Hst y p)]. }
  eexists. split_and!; [reflexivity|done|done|exact O1|]. intros y p. rewrite O2. unfold reg.
  destruct (decide (stripe a y = stripe a x)) as [->|Hne].
  - rewrite Hp, elem_of_union, elem_of_singleton. tauto.
  - split; [tauto|intros [|[= -> ->]]; done].
Qed.

Lemma clear_run s x : tables_ok s -> x <> 0 -> (forall q, reg s x q -> is_Some (wv s !! q)) ->
  exists s', clear (stripe a x) x s = Ret (tt, s') /\ hdrs s' = hdrs s /\ tables_ok s' /\
    wv s' = zeroed (fun q => bool_decide ((x, q) ∈ pairs (table_at s (stripe a x)))) x (wv s) /\
    (forall y p, reg s' y p <-> reg s y p /\ y <> x).
Proof.
  intros Hs Hx Hv. destruct (Hs (stripe a x)) as [Ht Hst]. destruct (clear_spec _ (wv s) x Ht Hx Hv) as (t' & n & R & Ht' & Hp & _).
  unfold clear, on_table. rewrite R. cbn [obind fst snd].
  destruct (on_table_ok s (stripe a x) t' (zeroed (fun q => bool_decide ((x, q) ∈ pairs (table_at s (stripe a x)))) x (wv s)) (reports s + n) Hs Ht') as [O1 O2].
  { intros y p. rewrite Hp, elem_of_filter. intros [_ Hy]. by apply (Hst y p). }
  eexists. split_and!; [reflexivity|done|exact O1|done|]. intros y p. rewrite O2. unfold reg.
  destruct (decide (stripe a y = stripe a x)) as [->|Hne].
  - rewrite Hp, elem_of_filter. simpl. tauto.
  - split; [intros Hy; split; [done|congruence]|tauto].
Qed.


(** ** The abstract system: objects and weak variables *)

Record sys := mk_sys { objects : gmap Z obj; weaks : gmap Z Z }.

(** A class that is initialized and does not override reference counting. *)
Definition plain (c : Z) : Prop := forall s, hasCustomRR cs c s = false /\ isInitialized cs c s = true.

(** The address of an object. *)
Definition object_ptr (x : Z) : Prop := x <> 0 /\ isTaggedPointer a x = false.

Record models (locks : gset Z) (s : ws) (A : sys) : Prop := mk_models {
  m_objs : forall x o, objects A !! x = Some o -> represents a (hdrs s) x o /\ object_ptr x /\ plain (class o) /\ 0 <= refs o < 2 ^ 60;
  m_vars : forall q v, weaks A !! q = Some v -> wv s !! q = Some v /\ q <> 0;
  m_held : held (hdrs s) = locks;
  m_fuel : (length (stores (hdrs s)) + 2 < fuel)%nat;
  m_tables : tables_ok s;
  m_reg : forall x q, reg s x q <-> weaks A !! q = Some x /\ object_ptr x;
  m_target : forall q x, weaks A !! q = Some x -> object_ptr x -> exists o, objects A !! x = Some o /\ weak o = true }.

Definition set_obj (x : Z) (o : obj) (A : sys) : sys := mk_sys (<[x := o]> (objects A)) (weaks A).

Lemma set_obj_id A x o : objects A !! x = Some o -> set_obj x o A = A.
Proof. intros H. unfold set_obj. rewrite insert_id by done. by destruct A. Qed.

Lemma models_locks L L' s A : models L s A -> models L' (with_hdrs s (with_held (hdrs s) L')) A.
Proof.
  intros [H1 H2 H3 H4 H5 H6 H7]. constructor; try done. intros x o Hx. destruct (H1 x o Hx) as (Hr & Hrest). split; [|done].
  by apply (represents_same a (hdrs s)).
Qed.

(** An operation on the header of an object. *)
Lemma hdr_step L s A x o c st : models L s A -> objects A !! x = Some o -> does a x c (hdrs s) st ->
  plain (class st.1.1) -> refs st.1.1 < 2 ^ 60 -> (weak o = true -> weak st.1.1 = true) ->
  exists s', hdr c s = Ret (st.1.2, s') /\ models L s' (set_obj x st.1.1 A) /\ wv s' = wv s /\ notices (hdrs s') = st.2 ++ notices (hdrs s).
Proof.
  intros [H1 H2 H3 H4 H5 H6 H7] Hx (h & R & P & Hh & [F1 F2] & N) Hpl Hrf Hw. exists (with_hdrs s h). split; [by apply hdr_run|].
  split_and!; [|done|done]. constructor; try done.
  - intros y o' Hy. simpl in *. destruct (decide (y = x)) as [->|Hne].
    + rewrite lookup_insert_eq in Hy. injection Hy as <-. destruct (H1 x o Hx) as (_ & ? & _). split_and!; try done. by apply represents_refs in P.
    + rewrite lookup_insert_ne in Hy by done. destruct (H1 y o' Hy) as (Hr & Hrest). split; [|done].
      destruct (F1 y Hne) as [Fi Fr]. by apply (represents_local a (hdrs s)).
  - simpl. by rewrite Hh.
  - simpl in *. lia.
  - intros q y Hq Hy. destruct (H7 q y Hq Hy) as (o' & Ho' & Hwo). simpl. destruct (decide (y = x)) as [->|Hne].
    + exists st.1.1. rewrite lookup_insert_eq. split; [done|]. apply Hw. congruence.
    + exists o'. by rewrite lookup_insert_ne.
Qed.

(** The result of a boolean operation. *)
Lemma hdr_bool (c : RM bool) s b' z s' : hdr (rbnd c (fun b => rret (Z.b2z b))) s = Ret (z, s') -> z = Z.b2z b' -> hdr c s = Ret (b', s').
Proof.
  unfold hdr, rbnd, rret. destruct (c (hdrs s)) as [[b h]| |]; try discriminate. intros [= Hz Hs] Hb. subst.
  destruct b, b'; try discriminate; done.
Qed.

(** The operations that the weak machinery applies to an object while it holds the lock. *)
Section Locked.
Context (L : gset Z) (s : ws) (A : sys) (x : Z) (o : obj) (HM : models L s A) (Hx : objects A !! x = Some o).

Lemma locked_does op : nolock op = true -> does a x (rc_step a fuel x op) (hdrs s) (obj_step x op o).
Proof.
  destruct HM as [H1 _ _ H4 _ _ _]. destruct (H1 x o Hx) as (Hr & [H0 Ht] & _ & Hn). intros Hop. apply nolock_step_refines; try done. lia.
Qed.

Lemma object_plain : plain (class o) /\ object_ptr x /\ 0 <= refs o < 2 ^ 60.
Proof. destruct HM as [H1 _ _ _ _ _ _]. by destruct (H1 x o Hx) as (_ & ? & ? & ?). Qed.

Lemma ISA_run : exists s', hdr (ISA a x) s = Ret (class o, s') /\ models L s' A /\ wv s' = wv s.
Proof.
  destruct object_plain as (Hp & _ & Hn). destruct (hdr_step L s A x o _ _ HM Hx (locked_does O_ISA eq_refl)) as (s' & R & M & V & _); [done|simpl; lia|done|].
  exists s'. split_and!; try done. cbn [obj_step fst] in M. by rewrite (set_obj_id A x o Hx) in M.
Qed.

Lemma isDeallocating_run : exists s', hdr (rootIsDeallocating a x) s = Ret (dying o, s') /\ models L s' A /\ wv s' = wv s.
Proof.
  destruct object_plain as (Hp & _ & Hn).
  destruct (hdr_step L s A x o _ _ HM Hx (locked_does O_isDeallocating eq_refl)) as (s' & R & M & V & _); [done|simpl; lia|done|].
  exists s'. split_and!; try done; [by apply (hdr_bool _ _ _ _ _ R)|]. cbn [obj_step fst] in M. by rewrite (set_obj_id A x o Hx) in M.
Qed.

Lemma tryRetain_run : refs o + 1 < 2 ^ 60 ->
  exists s', hdr (rootTryRetain a fuel x) s = Ret (negb (dying o), s') /\
    models L s' (if dying o then A else set_obj x (set_refs (refs o + 1) o) A) /\ wv s' = wv s.
Proof.
  intros Hroom. destruct object_plain as (Hp & _ & Hn).
  assert (Hst : obj_step x O_tryRetain o = (if dying o then o else set_refs (refs o + 1) o, Z.b2z (negb (dying o)), [])) by (simpl; by destruct (dying o)).
  destruct (hdr_step L s A x o _ _ HM Hx (locked_does O_tryRetain eq_refl)) as (s' & R & M & V & _);
    [rewrite Hst; simpl; by destruct (dying o)|rewrite Hst; simpl; destruct (dying o); simpl; lia|rewrite Hst; simpl; by destruct (dying o)|].
  rewrite Hst in R, M. cbn [fst snd] in R, M. exists s'. split_and!; try done; [by apply (hdr_bool _ _ _ _ _ R)|].
  destruct (dying o); [by rewrite (set_obj_id A x o Hx) in M|done].
Qed.

End Locked.


(** ** Assigning to a variable *)

Definition drop_var (q : Z) (A : sys) : sys := mk_sys (objects A) (delete q (weaks A)).

(** Marks an object as weakly referenced. *)
Definition mark (x : Z) (A : sys) : sys :=
  match objects A !! x with Some o => set_obj x (mk_obj (refs o) (dying o) true (class o) (raw o)) A | None => A end.

Definition assign (q v : Z) (A : sys) : sys := mk_sys (objects (mark v A)) (<[q := v]> (weaks A)).

(** What a store of [x] stores; no value: the program is stopped. *)
Definition new_value (crash : bool) (x : Z) (A : sys) : option Z :=
  if (x =? 0) || isTaggedPointer a x then Some x
  else match objects A !! x with
       | None => None
       | Some o => if dying o then (if crash then None else Some 0) else Some x
       end.

Lemma unregister_step L s A q old : models L s A -> weaks A !! q = Some old ->
  exists s', unregister (stripe a old) old q s = Ret (tt, s') /\ models L s' (drop_var q A) /\ wv s' = wv s.
Proof.
  intros [H1 H2 H3 H4 H5 H6 H7] Hq. destruct (H2 q old Hq) as [_ Hq0].
  destruct (unregister_run s old q H5 Hq0) as (s' & R & Eh & Ev & Ht & Hreg). exists s'. split_and!; [done| |done].
  constructor; rewrite ?Eh, ?Ev; try done.
  - intros p v Hp. simpl in Hp. apply H2. by apply lookup_delete_Some in Hp as [_ ?].
  - intros y p. rewrite Hreg, H6. simpl. rewrite lookup_delete_Some. split.
    + intros [[Hp Hy] Hne]. split_and!; try done. intros ->. congruence.
    + intros [[Hne Hp] Hy]. split; [done|congruence].
  - intros p y Hp Hy. apply (H7 p); [|done]. simpl in Hp. by apply lookup_delete_Some in Hp as [_ ?].
Qed.

Lemma models_var L s s' A q v : models L s A -> hdrs s' = hdrs s -> wv s' = <[q := v]> (wv s) -> tables_ok s' -> q <> 0 -> weaks A !! q = None ->
  (forall y p, reg s' y p <-> reg s y p \/ (object_ptr v /\ (y, p) = (v, q))) ->
  (object_ptr v -> exists o, objects A !! v = Some o /\ weak o = true) -> models L s' (mk_sys (objects A) (<[q := v]> (weaks A))).
Proof.
  intros [H1 H2 H3 H4 H5 H6 H7] Eh Ev Ht Hq0 Hq Hreg Hv. constructor; rewrite ?Eh; try done.
  - intros p w Hp. simpl in Hp. rewrite Ev. destruct (decide (p = q)) as [->|Hne].
    + rewrite lookup_insert_eq in *. done.
    + rewrite lookup_insert_ne in * by done. by apply H2.
  - intros y p. rewrite Hreg, H6. simpl. destruct (decide (p = q)) as [->|Hne].
    + rewrite lookup_insert_eq. split; [intros [[? _]|[? [= ->]]]; [congruence|done]|intros [[= ->] ?]; by right].
    + rewrite lookup_insert_ne by done. split; [intros [?|[_ [= _ ?]]]; [done|congruence]|by left].
  - intros p y Hp Hy. simpl in *. destruct (decide (p = q)) as [->|Hne].
    + rewrite lookup_insert_eq in Hp. injection Hp as ->. by apply Hv.
    + rewrite lookup_insert_ne in Hp by done. by apply (H7 p).
Qed.

Lemma mark_none x A : objects A !! x = None -> mark x A = A.
Proof. intros H. unfold mark. by rewrite H. Qed.

(** The end of a store: from the registration of the new value on. *)
Definition finish_store (i x q : Z) (crash : bool) : WM Z :=
  do v <- weak_register_no_lock a cs i x q crash;
  (if negb (v =? 0) && negb (isTaggedPointer a v) then hdr (setWeaklyReferenced_nolock a fuel v) else wret tt) ;;
  set_var q v ;;
  wret v.

Lemma store_plain_value L s A q v w : models L s A -> q <> 0 -> weaks A !! q = None -> wv s !! q = Some w -> ~ object_ptr v ->
  (do v <- wret v;
   (if negb (v =? 0) && negb (isTaggedPointer a v) then hdr (setWeaklyReferenced_nolock a fuel v) else wret tt) ;; set_var q v ;; wret v) s
  = Ret (v, with_vars s (<[q := v]> (wv s))) /\ models L (with_vars s (<[q := v]> (wv s))) (assign q v A).
Proof.
  intros HM Hq0 Hq Hw Hv. split.
  - unfold wbnd at 1, wret at 1. assert (Hc : negb (v =? 0) && negb (isTaggedPointer a v) = false).
    { destruct (v =? 0) eqn:E, (isTaggedPointer a v) eqn:E2; try done. exfalso. apply Hv. zbool. done. }
    rewrite Hc. unfold wbnd at 1, wret at 1. by wstep (set_run s q v w Hw).
  - unfold assign. rewrite mark_none.
    + apply (models_var L s); try done; [apply HM|]. intros y p. split; [by left|intros [?|[? _]]; done].
    + destruct (objects A !! v) as [o|] eqn:E; [|done]. exfalso. apply Hv. by apply (m_objs _ _ _ HM v o).
Qed.

Lemma finish_store_run L s A q x v w crash : models L s A -> q <> 0 -> weaks A !! q = None -> wv s !! q = Some w ->
  new_value crash x A = Some v ->
  exists s', finish_store (stripe a x) x q crash s = Ret (v, s') /\ models L s' (assign q v A) /\ wv s' = <[q := v]> (wv s).
Proof.
  intros HM Hq0 Hq Hw Hnv. unfold finish_store, weak_register_no_lock, new_value in *. destruct ((x =? 0) || isTaggedPointer a x) eqn:Ex.
  { injection Hnv as <-. destruct (store_plain_value L s A q x w) as [R M]; try done.
    - intros [H0 Ht]. rewrite Ht, orb_false_r in Ex. zbool. done.
    - eexists. by split_and!. }
  destruct (objects A !! x) as [o|] eqn:Hx; [|discriminate Hnv].
  destruct (ISA_run L s A x o HM Hx) as (s1 & R1 & M1 & V1). destruct (object_plain L s A x o HM Hx) as (Hp & [H0 Ht] & Hn).
  rewrite <- V1 in Hw. rewrite <- V1.
  destruct (isDeallocating_run L s1 A x o M1 Hx) as (s2 & R2 & M2 & V2). rewrite <- V2 in Hw. rewrite <- V2.
  assert (Hreg : forall k : option bool -> WM Z, wbnd (hdr (ISA a x)) (fun cls => wbnd (wask (hasCustomRR cs cls)) (fun custom =>
    wbnd (if negb custom then do d <- hdr (rootIsDeallocating a x); wret (Some (negb d)) else allowsWeakReference cs x) k)) s = k (Some (negb (dying o))) s2).
  { intros k. wstep R1. unfold wask, wbnd at 1. destruct (Hp s1) as [-> _]. cbn [negb]. unfold wbnd at 1. wstep R2. done. }
  unfold wbnd at 1. rewrite Hreg. destruct (dying o) eqn:Ed; cbn [negb].
  - destruct crash; [discriminate Hnv|]. injection Hnv as <-. destruct (store_plain_value L s2 A q 0 w) as [R M]; try done.
    + by intros [? _].
    + eexists. split_and!; [exact R|exact M|done].
  - injection Hnv as <-. set (o' := mk_obj (refs o) (dying o) true (class o) (raw o)).
    assert (Hnr : ~ reg s2 x q) by (rewrite (m_reg _ _ _ M2); intros [? _]; congruence).
    destruct (register_run s2 x q (m_tables _ _ _ M2) H0 Hq0 Hnr) as (s3 & R3 & Eh & Ev & Ht3 & Hr3).
    rewrite (wbnd_Ret _ _ _ _ _ R3). unfold wret at 1.
    replace (negb (x =? 0) && negb (isTaggedPointer a x)) with true by (rewrite Ht; symmetry; apply andb_true_iff; split; [apply negb_true_iff; by apply Z.eqb_neq|done]).
    (* the mark, seen from the state before the registration *)
    destruct (hdr_step L s2 A x o _ _ M2 Hx (locked_does L s2 A x o M2 Hx O_setWeaklyReferenced eq_refl)) as (s2' & R4 & M4 & V4 & _); [done|simpl; lia|done|].
    assert (Hset : exists h, hdr (setWeaklyReferenced_nolock a fuel x) s3 = Ret (tt, with_hdrs s3 h) /\ s2' = with_hdrs s2 h).
    { unfold hdr in R4 |- *. rewrite Eh. cbn [rc_step] in R4. unfold rbnd in R4.
      destruct (setWeaklyReferenced_nolock a fuel x (hdrs s2)) as [[[] h]| |]; try discriminate R4. exists h. split; [done|]. by injection R4 as <-. }
    destruct Hset as (h & R5 & ->). rewrite (wbnd_Ret _ _ _ _ _ R5).
    assert (Hw3 : wv (with_hdrs s3 h) !! q = Some w) by (simpl; by rewrite Ev).
    rewrite (wbnd_Ret _ _ _ _ _ (set_run (with_hdrs s3 h) q x w Hw3)). unfold wret. eexists. split_and!; [reflexivity| |simpl; by rewrite Ev].
    unfold assign, mark. rewrite Hx. apply (models_var L (with_hdrs s2 h) _ (set_obj x o' A) q x); try done.
    + simpl. by rewrite Ev.
    + intros y p. etrans; [apply Hr3|]. unfold object_ptr. intuition.
    + intros _. exists o'. simpl. by rewrite lookup_insert_eq.
Qed.


Lemma drop_none q A : weaks A !! q = None -> drop_var q A = A.
Proof. intros H. unfold drop_var. rewrite delete_id by done. by destruct A. Qed.

(** The value that is stored into [q]: with [hn], [x] or nil. *)
Definition stores_value (hn crash : bool) (x : Z) (A : sys) (v : Z) : Prop :=
  if hn then new_value crash x A = Some v /\ (isTaggedPointer a x = true -> plain (taggedClass cs x)) else x = 0 /\ v = 0.

(** The classes of the objects are initialized. *)
Lemma initialized_run L s A (hn : bool) crash x v : models L s A -> stores_value hn crash x A v ->
  exists s', (if hn && negb (x =? 0) then
                do cls <- getIsa a cs x;
                do inited <- wask (isInitialized cs cls);
                wret (if negb (cls =? 0) && negb inited then Some cls else None)
              else wret None) s = Ret (None, s') /\ models L s' A /\ wv s' = wv s.
Proof.
  intros HM Hv. destruct (hn && negb (x =? 0)) eqn:E; [|by exists s]. zbool. subst hn. destruct Hv as [Hv Htag]. unfold getIsa.
  assert (Hdone : forall c s', plain c -> (do inited <- wask (isInitialized cs c); wret (if negb (c =? 0) && negb inited then Some c else None)) s' = Ret (None, s')).
  { intros c s' Hp. unfold wask, wbnd, wret. destruct (Hp s') as [_ ->]. by rewrite andb_false_r. }
  destruct (isTaggedPointer a x) eqn:Et.
  - exists s. split_and!; try done. unfold wbnd at 1, wret at 1. by rewrite Hdone by by apply Htag.
  - unfold new_value in Hv. rewrite Et in Hv. replace (x =? 0) with false in Hv by (symmetry; by apply Z.eqb_neq). simpl in Hv.
    destruct (objects A !! x) as [o|] eqn:Hx; [|discriminate Hv]. destruct (ISA_run L s A x o HM Hx) as (s1 & R1 & M1 & V1).
    exists s1. split_and!; try done. wstep R1. rewrite Hdone; [done|]. by apply (object_plain L s A x o HM Hx).
Qed.

Lemma storeWeak_run s A (ho hn crash : bool) q x v : models ∅ s A -> ho || hn = true ->
  (if ho then is_Some (weaks A !! q) else weaks A !! q = None /\ q <> 0 /\ is_Some (wv s !! q)) -> stores_value hn crash x A v ->
  exists s', storeWeak a cs fuel ho hn crash q x s = Ret (v, s') /\ models ∅ s' (if hn then assign q v (drop_var q A) else drop_var q A) /\
    wv s' = (if hn then <[q := v]> (wv s) else wv s).
Proof.
  intros HM Hb Hq Hv. unfold storeWeak. rewrite Hb. unfold wassert at 1, wbnd at 1, wret at 1.
  assert (Hx0 : hn || (x =? 0) = true) by (destruct hn; [done|]; destruct Hv as [-> _]; done). rewrite Hx0. unfold wassert at 1, wbnd at 1, wret at 1.
  pose proof (m_fuel _ _ _ HM) as Hfu. assert (Hn : exists n, fuel = S n) by (destruct fuel as [|n]; [lia|by exists n]).
  destruct Hn as [n Hn]. replace (storeWeak_loop a cs fuel fuel) with (storeWeak_loop a cs fuel (S n)) by by rewrite <- Hn. cbn [storeWeak_loop].
  (* the old value *)
  assert (Hold : exists old, q <> 0 /\ is_Some (wv s !! q) /\ (forall s', wv s' = wv s -> (if ho then get_var q else wret 0) s' = Ret (old, s')) /\
    (if ho then weaks A !! q = Some old else weaks A !! q = None)).
  { destruct ho.
    - destruct Hq as [old Hq]. destruct (m_vars _ _ _ HM q old Hq) as [Hw H0]. exists old. split_and!; try done. intros s' E. apply get_run. by rewrite E.
    - destruct Hq as (Hq & H0 & Hw). exists 0. by split_and!. }
  destruct Hold as (old & Hq0 & [w Hw] & Hget & Hold). rewrite (wbnd_Ret _ _ _ _ _ (Hget s eq_refl)).
  set (LS := lockset ho hn (stripe a old) (stripe a x)).
  rewrite (wbnd_Ret _ _ _ _ _ (lockTwo_run s ho hn (stripe a old) (stripe a x) Hb (m_held _ _ _ HM))). fold LS.
  set (s1 := with_hdrs s _). assert (M1 : models LS s1 A) by by apply (models_locks ∅). rewrite (wbnd_Ret _ _ _ _ _ (Hget s1 eq_refl)).
  rewrite Z.eqb_refl. cbn [negb]. rewrite andb_false_r.
  destruct (initialized_run LS s1 A hn crash x v M1 Hv) as (s2 & R2 & M2 & V2). rewrite (wbnd_Ret _ _ _ _ _ R2).
  assert (V2' : wv s2 = wv s) by by rewrite V2.
  assert (Hun : exists s3, (if ho then unregister (stripe a old) old q else wret tt) s2 = Ret (tt, s3) /\ models LS s3 (drop_var q A) /\ wv s3 = wv s).
  { destruct ho.
    - destruct (unregister_step LS s2 A q old M2 Hold) as (s3 & R3 & M3 & V3). exists s3. split_and!; try done. by rewrite V3.
    - exists s2. rewrite (drop_none q A Hold). done. }
  destruct Hun as (s3 & R3 & M3 & V3). rewrite (wbnd_Ret _ _ _ _ _ R3).
  assert (Hst : exists s4, (if hn then finish_store (stripe a x) x q crash else wret x) s3 = Ret (v, s4) /\
    models LS s4 (if hn then assign q v (drop_var q A) else drop_var q A) /\ wv s4 = (if hn then <[q := v]> (wv s) else wv s)).
  { destruct hn.
    - destruct Hv as [Hv _]. rewrite <- V3. apply (finish_store_run LS s3 (drop_var q A) q x v w crash); try done; [simpl; by rewrite lookup_delete_eq|by rewrite V3].
    - destruct Hv as [-> ->]. by exists s3. }
  destruct Hst as (s4 & R4 & M4 & V4). unfold finish_store in R4. rewrite (wbnd_Ret _ _ _ _ _ R4).
  rewrite (wbnd_Ret _ _ _ _ _ (unlockTwo_run s4 ho hn (stripe a old) (stripe a x) Hb (m_held _ _ _ M4))). unfold wret. eexists. split_and!; [reflexivity| |done].
  by apply (models_locks LS).
Qed.


(** ** Loading *)

(** The object that a load retains. *)
Definition loaded (v : Z) (A : sys) : Z * sys :=
  match objects A !! v with
  | None => (v, A)
  | Some o => if dying o then (0, A) else (v, set_obj v (set_refs (refs o + 1) o) A)
  end.

Definition room (v : Z) (A : sys) : Prop := forall o, objects A !! v = Some o -> refs o + 1 < 2 ^ 60.

Lemma models_ptr L s A x o : models L s A -> objects A !! x = Some o -> x <> 0 /\ isTaggedPointer a x = false.
Proof. intros HM Hx. by apply (m_objs _ _ _ HM x o). Qed.

Lemma load_run s A q v : models ∅ s A -> weaks A !! q = Some v -> room v A ->
  exists s', objc_loadWeakRetained a cs fuel q s = Ret ((loaded v A).1, s') /\ models ∅ s' (loaded v A).2 /\ wv s' = wv s.
Proof.
  intros HM Hq Hroom. destruct (m_vars _ _ _ HM q v Hq) as [Hw _]. pose proof (m_fuel _ _ _ HM) as Hfu.
  unfold objc_loadWeakRetained. assert (Hn : exists n, fuel = S n) by (destruct fuel as [|n]; [lia|by exists n]).
  destruct Hn as [n Hn]. replace (objc_loadWeakRetained_loop a cs fuel fuel) with (objc_loadWeakRetained_loop a cs fuel (S n)) by by rewrite <- Hn.
  cbn [objc_loadWeakRetained_loop]. wstep (get_run s q v Hw). unfold loaded. destruct (objects A !! v) as [o|] eqn:Hx.
  2: { exists s. destruct (v =? 0) eqn:E0; zbool; [by subst|]. destruct (isTaggedPointer a v) eqn:Et; [done|].
       destruct (m_target _ _ _ HM q v Hq (conj E0 Et)) as (o & Ho & _). congruence. }
  destruct (models_ptr _ _ _ _ _ HM Hx) as [H0 Ht]. replace (v =? 0) with false by (symmetry; by apply Z.eqb_neq). rewrite Ht.
  assert (Hl : stripe a v ∉ held (hdrs s)) by (rewrite (m_held _ _ _ HM); set_solver). wstep (lock_run s (stripe a v) Hl).
  rewrite (m_held _ _ _ HM), union_empty_r_L. set (s1 := with_hdrs s _). assert (M1 : models {[stripe a v]} s1 A) by by apply (models_locks ∅).
  wstep (get_run s1 q v Hw). rewrite Z.eqb_refl. cbn [negb]. destruct (ISA_run _ s1 A v o M1 Hx) as (s2 & R2 & M2 & V2). wstep R2.
  destruct (object_plain _ s1 A v o M1 Hx) as (Hp & _). unfold wask at 1. unfold wbnd at 1. destruct (Hp s2) as [Ec Ei]. rewrite Ec. cbn [negb].
  unfold wask at 1. unfold wbnd at 1. rewrite Ei. unfold wassert, wbnd at 1, wret at 1.
  destruct (tryRetain_run _ s2 A v o M2 Hx (Hroom o Hx)) as (s3 & R3 & M3 & V3). wstep R3.
  assert (Hu : stripe a v ∈ held (hdrs s3)) by (rewrite (m_held _ _ _ M3); set_solver). wstep (unlock_run s3 (stripe a v) Hu). unfold wret.
  replace (held (hdrs s3) ∖ {[stripe a v]}) with (∅ : gset Z) by (rewrite (m_held _ _ _ M3); set_solver).
  exists (with_hdrs s3 (with_held (hdrs s3) ∅)). assert (V : wv s3 = wv s) by (by rewrite V3, V2). apply (models_locks _ ∅) in M3.
  destruct (dying o); split_and!; done.
Qed.

(** ** Releasing *)

Definition released (x : Z) (A : sys) : sys :=
  match objects A !! x with Some o => set_obj x (obj_step x O_release o).1.1 A | None => A end.

Definition may_release (x : Z) (A : sys) : Prop := forall o, objects A !! x = Some o -> op_ok a O_release o.

Lemma release_run s A x : models ∅ s A -> (x = 0 \/ isTaggedPointer a x = true \/ is_Some (objects A !! x)) -> may_release x A ->
  exists s', objc_release a cs fuel x s = Ret (tt, s') /\ models ∅ s' (released x A) /\ wv s' = wv s.
Proof.
  intros HM Hx Hok. unfold objc_release, released. destruct (x =? 0) eqn:E0; zbool.
  { subst. exists s. destruct (objects A !! 0) as [o|] eqn:E; [|done]. by destruct (models_ptr _ _ _ _ _ HM E). }
  destruct (isTaggedPointer a x) eqn:Et.
  { exists s. destruct (objects A !! x) as [o|] eqn:E; [|done]. destruct (models_ptr _ _ _ _ _ HM E). congruence. }
  destruct Hx as [?|[?|[o Hx]]]; [done|done|]. rewrite Hx. unfold release. rewrite Et. unfold wassert, wbnd at 1, wret at 1. cbn [negb].
  destruct (ISA_run _ s A x o HM Hx) as (s1 & R1 & M1 & V1). wstep R1. destruct (object_plain _ s A x o HM Hx) as (Hp & _ & Hn).
  unfold wask, wbnd at 1. destruct (Hp s1) as [-> _]. cbn [negb].
  assert (Hd : does a x (rc_step a fuel x O_release) (hdrs s1) (obj_step x O_release o)).
  { destruct (m_objs _ _ _ M1 x o Hx) as (Hr & _). apply rc_step_refines; try done; [lia|by apply Hok| |apply M1].
    rewrite (m_held _ _ _ M1). set_solver. }
  assert (Hst : plain (class (obj_step x O_release o).1.1) /\ refs (obj_step x O_release o).1.1 < 2 ^ 60 /\ (weak o = true -> weak (obj_step x O_release o).1.1 = true)).
  { simpl. destruct (refs o =? 0), (dying o); simpl; split_and!; try done; lia. }
  destruct Hst as (S1 & S2 & S3). destruct (hdr_step ∅ s1 A x o _ _ M1 Hx Hd S1 S2 S3) as (s2 & R2 & M2 & V2 & _).
  assert (Hb : exists b, hdr (rootRelease a fuel x) s1 = Ret (b, s2)).
  { unfold hdr in *. cbn [rc_step] in R2. unfold rbnd, rret in R2. destruct (rootRelease a fuel x (hdrs s1)) as [[b h]| |]; try discriminate R2.
    exists b. by injection R2 as _ <-. }
  destruct Hb as [b Hb]. exists s2. wstep Hb. split_and!; [done|done|by rewrite V2].
Qed.


(** ** Initializing, copying and moving *)

(** Storage that holds no weak variable. *)
Definition fresh (q : Z) (s : ws) (A : sys) : Prop := weaks A !! q = None /\ q <> 0 /\ is_Some (wv s !! q).

Lemma nil_run s A q : models ∅ s A -> fresh q s A ->
  exists s', set_var q 0 s = Ret (tt, s') /\ models ∅ s' (assign q 0 A) /\ wv s' = <[q := 0]> (wv s).
Proof.
  intros HM (Hq & Hq0 & [w Hw]). destruct (store_plain_value ∅ s A q 0 w HM Hq0 Hq Hw) as [_ M]; [by intros [? _]|].
  eexists. split_and!; [by apply (set_run s q 0 w)|exact M|done].
Qed.

Lemma init_run s A crash q x v : models ∅ s A -> fresh q s A -> new_value crash x A = Some v -> (isTaggedPointer a x = true -> plain (taggedClass cs x)) ->
  exists s', (if x =? 0 then set_var q 0 ;; wret 0 else storeWeak a cs fuel false true crash q x) s = Ret (v, s') /\ models ∅ s' (assign q v A) /\
    wv s' = <[q := v]> (wv s).
Proof.
  intros HM Hq Hv Ht. destruct (x =? 0) eqn:E0; zbool.
  - subst x. injection Hv as <-. destruct (nil_run s A q HM Hq) as (s' & R & M & V). exists s'. split_and!; try done. by wstep R.
  - destruct (storeWeak_run s A false true crash q x v HM eq_refl Hq (conj Hv Ht)) as (s' & R & M & V). destruct Hq as (Hq & _).
    exists s'. rewrite (drop_none q A Hq) in M. done.
Qed.

(** Retaining an object, pointing a variable to it and releasing it leaves the variable. *)
Lemma copy_balance q v o A : objects A !! v = Some o -> dying o = false -> 0 <= refs o ->
  released v (assign q v (set_obj v (set_refs (refs o + 1) o) A)) = assign q v A.
Proof.
  intros Hv Hd Hn. unfold released, assign, mark, set_obj. cbn [objects weaks]. rewrite lookup_insert_eq, Hv. cbn [objects weaks]. rewrite lookup_insert_eq.
  cbn [obj_step refs set_refs dying]. replace (refs o + 1 =? 0) with false by (symmetry; apply Z.eqb_neq; lia). cbn [fst].
  unfold set_obj. cbn [objects weaks]. rewrite !insert_insert_eq. do 2 f_equal. unfold set_refs. simpl. f_equal. lia.
Qed.

Lemma copy_run s A dst src v : models ∅ s A -> weaks A !! src = Some v -> fresh dst s A -> room v A -> (isTaggedPointer a v = true -> plain (taggedClass cs v)) ->
  exists s', objc_copyWeak a cs fuel dst src s = Ret (tt, s') /\ models ∅ s' (assign dst (loaded v A).1 A) /\ wv s' = <[dst := (loaded v A).1]> (wv s).
Proof.
  intros HM Hsrc Hdst Hroom Ht. unfold objc_copyWeak. destruct (load_run s A src v HM Hsrc Hroom) as (s1 & R1 & M1 & V1). wstep R1.
  assert (Hfr : fresh dst s1 (loaded v A).2).
  { destruct Hdst as (H1 & H2 & H3). split_and!; try done; [|by rewrite V1]. unfold loaded. destruct (objects A !! v) as [o|]; [|done]. by destruct (dying o). }
  assert (Hcase : (loaded v A = (v, A) /\ objects A !! v = None /\ (v = 0 \/ isTaggedPointer a v = true)) \/
    (exists o, objects A !! v = Some o /\ ((dying o = true /\ loaded v A = (0, A)) \/ (dying o = false /\ loaded v A = (v, set_obj v (set_refs (refs o + 1) o) A))))).
  { unfold loaded. destruct (objects A !! v) as [o|] eqn:Hv.
    - right. exists o. split; [done|]. destruct (dying o); [by left|by right].
    - left. split_and!; try done. destruct (decide (v = 0)) as [|H0]; [by left|]. destruct (isTaggedPointer a v) eqn:E; [by right|].
      destruct (m_target _ _ _ HM src v Hsrc (conj H0 E)) as (o & Ho & _). congruence. }
  unfold objc_initWeak. destruct Hcase as [(E & Hv & Hn)|(o & Hv & [[Hd E]|[Hd E]])]; rewrite E in *; cbn [fst snd] in *.
  - assert (Hnv : new_value true v A = Some v) by (unfold new_value; destruct Hn as [->| ->]; [done|by rewrite orb_true_r]).
    destruct (init_run s1 A true dst v v M1 Hfr Hnv Ht) as (s2 & R2 & M2 & V2). wstep R2.
    destruct (release_run s2 (assign dst v A) v M2) as (s3 & R3 & M3 & V3); [tauto| |].
    { intros o. unfold assign. rewrite mark_none by done. simpl. congruence. }
    exists s3. split_and!; [done| |by rewrite V3, V2, V1]. unfold released, assign in *. rewrite mark_none in * by done. simpl in *. by rewrite Hv in M3.
  - destruct (nil_run s1 A dst M1 Hfr) as (s2 & R2 & M2 & V2). exists s2. cbn [Z.eqb]. unfold wbnd at 1 2. rewrite R2. split_and!; [done|done|by rewrite V2, V1].
  - destruct (models_ptr _ _ _ _ _ HM Hv) as [H0 Htv].
    assert (Hnv : new_value true v (set_obj v (set_refs (refs o + 1) o) A) = Some v).
    { unfold new_value. rewrite Htv. replace (v =? 0) with false by (symmetry; by apply Z.eqb_neq). simpl. rewrite lookup_insert_eq. simpl. by rewrite Hd. }
    destruct (init_run s1 _ true dst v v M1 Hfr Hnv Ht) as (s2 & R2 & M2 & V2). wstep R2.
    destruct (release_run s2 _ v M2) as (s3 & R3 & M3 & V3).
    { right. right. unfold assign, mark. simpl. rewrite lookup_insert_eq. simpl. by rewrite lookup_insert_eq. }
    { intros o'. unfold assign, mark. simpl. rewrite lookup_insert_eq. simpl. rewrite lookup_insert_eq. intros [= <-]. simpl. by rewrite Hd, andb_false_r. }
    exists s3. split_and!; [done| |by rewrite V3, V2, V1]. rewrite copy_balance in M3; try done. by apply (m_objs _ _ _ HM v o).
Qed.

Lemma move_run s A dst src v : models ∅ s A -> weaks A !! src = Some v -> fresh dst s A -> room v A -> (isTaggedPointer a v = true -> plain (taggedClass cs v)) ->
  exists s', objc_moveWeak a cs fuel dst src s = Ret (tt, s') /\ models ∅ s' (assign src 0 (drop_var src (assign dst (loaded v A).1 A))) /\
    wv s' = <[src := 0]> (<[dst := (loaded v A).1]> (wv s)).
Proof.
  intros HM Hsrc Hdst Hroom Ht. unfold objc_moveWeak. destruct (copy_run s A dst src v HM Hsrc Hdst Hroom Ht) as (s1 & R1 & M1 & V1). wstep R1.
  assert (Hne : dst <> src) by (intros ->; destruct Hdst; congruence).
  assert (Hs1 : weaks (assign dst (loaded v A).1 A) !! src = Some v) by (unfold assign; simpl; by rewrite lookup_insert_ne).
  destruct (storeWeak_run s1 _ true false false src 0 0 M1 eq_refl) as (s2 & R2 & M2 & V2); [by exists v|done|].
  unfold objc_destroyWeak. unfold wbnd at 1 2. rewrite R2. unfold wret. destruct (m_vars _ _ _ HM src v Hsrc) as [Hw Hs0].
  destruct (nil_run s2 _ src M2) as (s3 & R3 & M3 & V3).
  { split_and!; [simpl; by rewrite lookup_delete_eq|done|]. rewrite V2, V1, lookup_insert_ne by done. by exists v. }
  exists s3. split_and!; [done|done|by rewrite V3, V2, V1].
Qed.


(** ** Deallocation *)

(** The variables that held [x] are nil. *)
Definition zero_weaks (x : Z) (m : gmap Z Z) : gmap Z Z := (fun v => if v =? x then 0 else v) <$> m.

(** The object is gone. *)
Definition bury (x : Z) (A : sys) : sys := mk_sys (delete x (objects A)) (zero_weaks x (weaks A)).

Lemma zero_weaks_none x m : (forall q, m !! q <> Some x) -> zero_weaks x m = m.
Proof.
  intros H. apply map_eq. intros q. unfold zero_weaks. rewrite lookup_fmap. destruct (m !! q) as [v|] eqn:E; [|done]. simpl.
  destruct (v =? x) eqn:Ev; [|done]. zbool. subst. by apply H in E.
Qed.

Lemma clear_step L s A x o : models L s A -> objects A !! x = Some o ->
  exists s', clear (stripe a x) x s = Ret (tt, s') /\ hdrs s' = hdrs s /\ models L s' (mk_sys (objects A) (zero_weaks x (weaks A))) /\
    (forall q, is_Some (wv s !! q) -> is_Some (wv s' !! q)).
Proof.
  intros [H1 H2 H3 H4 H5 H6 H7] Hx. destruct (H1 x o Hx) as (_ & Hptr & _).
  destruct (clear_run s x H5) as (s' & R & Eh & Ht & Ev & Hreg); [apply Hptr| |].
  { intros q Hq. apply H6 in Hq as [Hq _]. apply H2 in Hq as [Hq _]. by exists x. }
  assert (Hz : forall q v, zero_weaks x (weaks A) !! q = Some v <-> exists w, weaks A !! q = Some w /\ v = if w =? x then 0 else w).
  { intros q v. unfold zero_weaks. rewrite lookup_fmap. split.
    - intros (w & -> & Hw)%fmap_Some. by exists w.
    - intros (w & -> & ->). done. }
  assert (Hnz : forall y, object_ptr y -> forall q, zero_weaks x (weaks A) !! q = Some y <-> weaks A !! q = Some y /\ y <> x).
  { intros y [Hy0 _] q. rewrite Hz. split.
    - intros (w & Hw & ->). destruct (w =? x) eqn:E; zbool; [done|]. split; [done|]. intros ->. done.
    - intros [Hy Hne]. exists y. split; [done|]. by replace (y =? x) with false by (symmetry; by apply Z.eqb_neq). }
  exists s'. split_and!; [done|done| |].
  2: { intros q [v Hv]. rewrite Ev, lookup_zeroed, Hv. done. }
  constructor; rewrite ?Eh; try done.
  - intros q v Hv. apply Hz in Hv as (w & Hw & ->). destruct (H2 q w Hw) as [Hwv Hq0]. split; [|done]. rewrite Ev, lookup_zeroed, Hwv. simpl. f_equal.
    destruct (w =? x) eqn:E; zbool; [|by rewrite andb_false_r]. subst w. rewrite andb_true_r.
    rewrite bool_decide_true; [done|]. by apply (H6 x q).
  - intros y q. rewrite Hreg, H6. simpl. split.
    + intros [[Hq Hy] Hne]. split; [|done]. by apply Hnz.
    + intros [Hq Hy]. apply Hnz in Hq as [Hq Hne]; [|done]. done.
  - intros q y Hq Hy. apply Hnz in Hq as [Hq _]; [|done]. by apply (H7 q).
Qed.

Lemma forget_object L s A x : models L s A -> (forall q, weaks A !! q <> Some x) -> models L s (mk_sys (delete x (objects A)) (weaks A)).
Proof.
  intros [H1 H2 H3 H4 H5 H6 H7] Hx. constructor; try done.
  - intros y o' Hy. simpl in Hy. apply lookup_delete_Some in Hy as [_ Hy]. by apply H1.
  - intros q y Hq Hy. destruct (H7 q y Hq Hy) as (o' & Ho' & Hw). exists o'. split; [|done]. simpl. rewrite lookup_delete_ne; [done|].
    intros ->. by apply (Hx q).
Qed.

(** A change of the header of an address without object. *)
Lemma stranger_run L s A x (f : RM unit) h : models L s A -> objects A !! x = None -> f (hdrs s) = Ret (tt, h) -> held h = held (hdrs s) ->
  frame x (hdrs s) h -> hdr f s = Ret (tt, with_hdrs s h) /\ models L (with_hdrs s h) A.
Proof.
  intros [H1 H2 H3 H4 H5 H6 H7] Hx Hf Hh [F1 F2]. split; [by apply hdr_run|]. constructor; try done.
  - intros y o Hy. destruct (H1 y o Hy) as (Hr & Hrest). split; [|done]. assert (Hne : y <> x) by congruence. destruct (F1 y Hne) as [A1 A2].
    by apply (represents_local a (hdrs s)).
  - simpl. by rewrite Hh.
  - simpl in *. lia.
Qed.

Lemma erase_frame x h : frame x h (mk_rcs (isas h) (delete x (refcnts h)) (held h) (stores h) (notices h)).
Proof. split; [|done]. intros o Ho. simpl. by rewrite lookup_delete_ne. Qed.

(** Clearing the variables if the object was marked, and erasing its counts. *)
Definition clear_and_erase (x : Z) (w e : bool) : WM unit :=
  (if w then clear (stripe a x) x else wret tt) ;; (if e then hdr (refcnt_erase x) else wret tt).

Lemma clear_and_erase_run L s A x o e : models L s A -> objects A !! x = Some o ->
  exists s', clear_and_erase x (weak o) e s = Ret (tt, s') /\ models L s' (bury x A) /\ (forall q, is_Some (wv s !! q) -> is_Some (wv s' !! q)).
Proof.
  intros HM Hx. unfold clear_and_erase.
  assert (Hclear : exists s1, (if weak o then clear (stripe a x) x else wret tt) s = Ret (tt, s1) /\ models L s1 (bury x A) /\
    (forall q, is_Some (wv s !! q) -> is_Some (wv s1 !! q))).
  { destruct (models_ptr _ _ _ _ _ HM Hx) as [H0 Ht]. destruct (weak o) eqn:Ew.
    - destruct (clear_step L s A x o HM Hx) as (s1 & R & _ & M & Hd). exists s1. split_and!; try done. apply (forget_object _ _ _ x) in M; [done|].
      intros q. simpl. unfold zero_weaks. rewrite lookup_fmap. destruct (weaks A !! q) as [v|]; simpl; [|done].
      destruct (v =? x) eqn:E; zbool; congruence.
    - exists s. split_and!; try done. assert (Hno : forall q, weaks A !! q <> Some x).
      { intros q Hq. destruct (m_target _ _ _ HM q x Hq (conj H0 Ht)) as (o' & Ho' & Hw). congruence. }
      unfold bury. rewrite zero_weaks_none by done. by apply forget_object. }
  destruct Hclear as (s1 & R1 & M1 & D1). wstep R1. destruct e; [|by exists s1].
  set (h := hdrs s1). destruct (stranger_run L s1 (bury x A) x (refcnt_erase x) (mk_rcs (isas h) (delete x (refcnts h)) (held h) (stores h) (notices h)) M1) as [R2 M2]; [simpl; by rewrite lookup_delete_eq|done|done|apply erase_frame|].
  eexists. split_and!; [exact R2|exact M2|done].
Qed.

(** The lock around it. *)
Lemma locked_run s A A' x (c : WM unit) : models ∅ s A ->
  (forall s1, models {[stripe a x]} s1 A -> wv s1 = wv s -> exists s2, c s1 = Ret (tt, s2) /\ models {[stripe a x]} s2 A' /\
     (forall q, is_Some (wv s !! q) -> is_Some (wv s2 !! q))) ->
  exists s', (lock (stripe a x) ;; c ;; unlock (stripe a x)) s = Ret (tt, s') /\ models ∅ s' A' /\ (forall q, is_Some (wv s !! q) -> is_Some (wv s' !! q)).
Proof.
  intros HM Hc. assert (Hl : stripe a x ∉ held (hdrs s)) by (rewrite (m_held _ _ _ HM); set_solver). wstep (lock_run s (stripe a x) Hl).
  rewrite (m_held _ _ _ HM), union_empty_r_L. destruct (Hc (with_hdrs s (with_held (hdrs s) {[stripe a x]}))) as (s2 & R2 & M2 & D2); [by apply (models_locks ∅)|done|].
  wstep R2. assert (Hu : stripe a x ∈ held (hdrs s2)) by (rewrite (m_held _ _ _ M2); set_solver). rewrite (unlock_run s2 (stripe a x) Hu).
  eexists. split_and!; [reflexivity| |done]. replace (held (hdrs s2) ∖ {[stripe a x]}) with (∅ : gset Z) by (rewrite (m_held _ _ _ M2); set_solver).
  by apply (models_locks {[stripe a x]}).
Qed.


(** What is found in the header of an object. *)
Lemma header_run s x o : represents a (hdrs s) x o ->
  exists bits, hdr (LoadExclusive x) s = Ret (bits, s) /\ nonpointer bits = negb (raw o) /\
    (raw o = false -> weakly_referenced a bits = weak o) /\
    (raw o = true -> exists it, refcnts (hdrs s) !! x = it /\ match it with Some v => has v SIDE_TABLE_WEAKLY_REFERENCED = weak o | None => weak o = false end).
Proof.
  assert (Hs : with_hdrs s (hdrs s) = s) by by destruct s.
  intros [(bits & side & [H1 H2 H3 _ _ _ _] & ->)|Hr].
  - exists bits. split_and!; try done. rewrite <- Hs at 2. apply hdr_run. by apply rc_load.
  - pose proof Hr as (H1 & H2 & H3 & _ & _). exists (class o). rewrite H3. destruct (class_ok_raw _ _ H2) as (Hnp & _). split_and!; try done.
    + rewrite <- Hs at 2. apply hdr_run. by apply rc_load.
    + intros _. exists (refcnts (hdrs s) !! x). split; [done|]. destruct (raw_find a x (hdrs s) o Hr (hdrs s) eq_refl) as [Hf|(Hf & _ & _ & E)].
      * unfold refcnt_find in Hf. injection Hf as ->. apply word_weak.
      * unfold refcnt_find in Hf. injection Hf as ->. done.
Qed.

Lemma clearDeallocating_run s A x o : models ∅ s A -> objects A !! x = Some o ->
  exists s', clearDeallocating a x s = Ret (tt, s') /\ models ∅ s' (bury x A) /\ (forall q, is_Some (wv s !! q) -> is_Some (wv s' !! q)).
Proof.
  intros HM Hx. destruct (m_objs _ _ _ HM x o Hx) as (Hrep & _). destruct (header_run s x o Hrep) as (bits & R & Hnp & Hpk & Hrw).
  unfold clearDeallocating. wstep R. rewrite Hnp, negb_involutive. destruct (raw o) eqn:Eraw.
  - (* everything is in the side table *)
    unfold sidetable_clearDeallocating.
    destruct (locked_run s A (bury x A) x (do it <- hdr (refcnt_find x);
      match it with
      | None => wret tt
      | Some v => (if has v SIDE_TABLE_WEAKLY_REFERENCED then clear (stripe a x) x else wret tt) ;; hdr (refcnt_erase x)
      end) HM) as (s' & R' & M' & D').
    { intros s1 M1 V1. destruct (m_objs _ _ _ M1 x o Hx) as (Hrep1 & _). destruct (header_run s1 x o Hrep1) as (b1 & _ & _ & _ & Hrw1).
      destruct (Hrw1 Eraw) as (it & Hit & Hw). assert (Hf : hdr (refcnt_find x) s1 = Ret (it, s1)).
      { replace s1 with (with_hdrs s1 (hdrs s1)) at 2 by by destruct s1. apply hdr_run. unfold refcnt_find. by rewrite Hit. }
      wstep Hf. rewrite <- V1. destruct it as [v|]; [|].
      - rewrite Hw. apply (clear_and_erase_run _ s1 A x o true M1 Hx).
      - pose proof (clear_and_erase_run _ s1 A x o false M1 Hx) as Hc. by rewrite Hw in Hc. }
    exists s'. by split_and!.
  - rewrite (Hpk eq_refl). destruct (weak o || has_sidetable_rc a bits) eqn:Ec.
    + unfold clearDeallocating_slow. wstep R. rewrite Hnp, (Hpk eq_refl), Ec. unfold wassert. cbn [andb negb]. unfold wbnd at 1, wret at 1.
      destruct (locked_run s A (bury x A) x (clear_and_erase x (weak o) (has_sidetable_rc a bits)) HM) as (s' & R' & M' & D').
      { intros s1 M1 V1. rewrite <- V1. by apply clear_and_erase_run. }
      exists s'. split_and!; try done. rewrite <- R'. unfold clear_and_erase. unfold wbnd at 1 4. destruct (lock (stripe a x) s) as [[u s1]| |]; [|done..].
      by rewrite wbnd_assoc.
    + apply orb_false_iff in Ec as [Ew _]. pose proof (clear_and_erase_run ∅ s A x o false HM Hx) as Hc. by rewrite Ew in Hc.
Qed.


(** The rest of [object_dispose]. *)
Definition dispose (x : Z) : WM unit := clearDeallocating a x ;; hdr (free_object x).

Lemma free_frame x h : frame x h (mk_rcs (delete x (isas h)) (refcnts h) (held h) (stores h) (notices h)).
Proof. split; [|done]. intros o Ho. simpl. by rewrite lookup_delete_ne. Qed.

Lemma free_run s A x : models ∅ s A -> objects A !! x = None -> exists s', hdr (free_object x) s = Ret (tt, s') /\ models ∅ s' A /\ wv s' = wv s.
Proof.
  intros HM Hx. set (h := hdrs s).
  destruct (stranger_run ∅ s A x (free_object x) (mk_rcs (delete x (isas h)) (refcnts h) (held h) (stores h) (notices h)) HM) as [R M];
    [done|done|done|apply free_frame|]. eexists. split_and!; [exact R|exact M|done].
Qed.

Lemma dispose_run s A x o : models ∅ s A -> objects A !! x = Some o ->
  exists s', dispose x s = Ret (tt, s') /\ models ∅ s' (bury x A) /\ (forall q, is_Some (wv s !! q) -> is_Some (wv s' !! q)).
Proof.
  intros HM Hx. destruct (clearDeallocating_run s A x o HM Hx) as (s1 & R1 & M1 & D1).
  destruct (free_run s1 (bury x A) x M1) as (s2 & R2 & M2 & V2); [simpl; by rewrite lookup_delete_eq|].
  exists s2. unfold dispose. wstep R1. split_and!; [done|done|]. by rewrite V2.
Qed.

(** ** Retaining *)

Lemma retain_run s A x o : models ∅ s A -> objects A !! x = Some o -> refs o + 1 < 2 ^ 60 ->
  exists s', objc_retain a cs fuel x s = Ret (x, s') /\ models ∅ s' (set_obj x (set_refs (refs o + 1) o) A) /\ wv s' = wv s.
Proof.
  intros HM Hx Hroom. destruct (models_ptr _ _ _ _ _ HM Hx) as [H0 Ht]. unfold objc_retain, retain. rewrite Ht.
  replace (x =? 0) with false by (symmetry; by apply Z.eqb_neq). unfold wassert, wbnd at 1, wret at 1. cbn [negb].
  destruct (ISA_run _ s A x o HM Hx) as (s1 & R1 & M1 & V1). wstep R1. destruct (object_plain _ s A x o HM Hx) as (Hp & _ & Hn).
  unfold wask, wbnd at 1. destruct (Hp s1) as [-> _]. cbn [negb].
  assert (Hd : does a x (rc_step a fuel x O_retain) (hdrs s1) (obj_step x O_retain o)).
  { destruct (m_objs _ _ _ M1 x o Hx) as (Hr & _). apply rc_step_refines; try done; [lia| |apply M1]. rewrite (m_held _ _ _ M1). set_solver. }
  destruct (hdr_step ∅ s1 A x o _ _ M1 Hx Hd) as (s2 & R2 & M2 & V2 & _); [done|simpl; lia|done|]. exists s2. split_and!; [done|done|by rewrite V2].
Qed.

(** ** The system *)

Context (mem : gset Z).
Context (tagged_plain : forall x, isTaggedPointer a x = true -> plain (taggedClass cs x)).

Inductive sop :=
| S_init (crash : bool) (q x : Z) | S_store (crash : bool) (q x : Z) | S_destroy (q : Z) | S_load (q : Z)
| S_copy (dst src : Z) | S_move (dst src : Z) | S_retain (x : Z) | S_release (x : Z) | S_dealloc (x : Z).

Definition sop_run (op : sop) : WM Z :=
  match op with
  | S_init true q x => objc_initWeak a cs fuel q x
  | S_init false q x => objc_initWeakOrNil a cs fuel q x
  | S_store true q x => objc_storeWeak a cs fuel q x
  | S_store false q x => objc_storeWeakOrNil a cs fuel q x
  | S_destroy q => objc_destroyWeak a cs fuel q ;; wret 0
  | S_load q => objc_loadWeakRetained a cs fuel q
  | S_copy dst src => objc_copyWeak a cs fuel dst src ;; wret 0
  | S_move dst src => objc_moveWeak a cs fuel dst src ;; wret 0
  | S_retain x => objc_retain a cs fuel x
  | S_release x => objc_release a cs fuel x ;; wret 0
  | S_dealloc x => dispose x ;; wret 0
  end.

Fixpoint sops_run (ops : list sop) : WM (list Z) :=
  match ops with [] => wret [] | op :: ops' => do r <- sop_run op; do rs <- sops_run ops'; wret (r :: rs) end.

Definition is_fresh (q : Z) (A : sys) : bool := bool_decide (q ∈ mem) && bool_decide (weaks A !! q = None).
Definition has_room (v : Z) (A : sys) : bool := match objects A !! v with Some o => refs o + 1 <? 2 ^ 60 | None => true end.

(** The new state and the result; nothing when the caller breaks the rules. *)
Definition sop_spec (op : sop) (A : sys) : option (sys * Z) :=
  match op with
  | S_init crash q x => if is_fresh q A then v ← new_value crash x A; Some (assign q v A, v) else None
  | S_store crash q x => _ ← weaks A !! q; v ← new_value crash x A; Some (assign q v (drop_var q A), v)
  | S_destroy q => _ ← weaks A !! q; Some (drop_var q A, 0)
  | S_load q => v ← weaks A !! q; if has_room v A then Some ((loaded v A).2, (loaded v A).1) else None
  | S_copy dst src => v ← weaks A !! src; if is_fresh dst A && has_room v A then Some (assign dst (loaded v A).1 A, 0) else None
  | S_move dst src =>
      v ← weaks A !! src;
      if is_fresh dst A && has_room v A then Some (assign src 0 (drop_var src (assign dst (loaded v A).1 A)), 0) else None
  | S_retain x => o ← objects A !! x; if has_room x A then Some (set_obj x (set_refs (refs o + 1) o) A, x) else None
  | S_release x => o ← objects A !! x; if raw o && dying o && (refs o =? 0) then None else Some (released x A, 0)
  | S_dealloc x => o ← objects A !! x; if dying o then Some (bury x A, 0) else None
  end.

Fixpoint sops_spec (ops : list sop) (A : sys) : option (sys * list Z) :=
  match ops with
  | [] => Some (A, [])
  | op :: ops' => st ← sop_spec op A; rest ← sops_spec ops' st.1; Some (rest.1, st.2 :: rest.2)
  end.

(** The whole state. *)
Definition sound (s : ws) (A : sys) : Prop := models ∅ s A /\ forall q, q ∈ mem -> q <> 0 /\ is_Some (wv s !! q).


Lemma sound_next s s' A A' : sound s A -> models ∅ s' A' -> (forall q, is_Some (wv s !! q) -> is_Some (wv s' !! q)) -> sound s' A'.
Proof. intros [_ Hm] HM Hd. split; [done|]. intros q Hq. destruct (Hm q Hq) as [H0 Hw]. split; [done|by apply Hd]. Qed.

Lemma grows_insert (m : gmap Z Z) p v q : is_Some (m !! q) -> is_Some (<[p := v]> m !! q).
Proof. intros Hq. destruct (decide (q = p)) as [->|]; [by rewrite lookup_insert_eq|by rewrite lookup_insert_ne]. Qed.

Lemma is_fresh_ok q s A : sound s A -> is_fresh q A = true -> fresh q s A.
Proof.
  intros [_ Hm] Hf. unfold is_fresh in Hf. apply andb_true_iff in Hf as [H1 H2]. apply bool_decide_eq_true in H1, H2. destruct (Hm q H1). by split_and!.
Qed.

Lemma has_room_ok v A : has_room v A = true -> room v A.
Proof. unfold has_room, room. intros H o Ho. rewrite Ho in H. by apply Z.ltb_lt. Qed.

Ltac from_option :=
  repeat match goal with
  | H : (_ ≫= _) = Some _ |- _ => let y := fresh "y" in let E := fresh "E" in apply bind_Some in H as (y & E & H)
  | H : (if ?b then _ else _) = Some _ |- _ => let E := fresh "E" in destruct b eqn:E; [|discriminate H]
  | H : Some _ = Some _ |- _ => injection H as <- <-
  end.

Lemma sop_refines op s A A' r : sound s A -> sop_spec op A = Some (A', r) -> exists s', sop_run op s = Ret (r, s') /\ sound s' A'.
Proof.
  intros HS Hop. pose proof HS as [HM _]. destruct op as [crash q x|crash q x|q|q|dst src|dst src|x|x|x]; cbn [sop_spec] in Hop.
  - from_option. destruct (init_run s A crash q x y HM (is_fresh_ok _ _ _ HS E) E0 (tagged_plain x)) as (s' & R & M & V). exists s'.
    split; [by destruct crash|]. apply (sound_next s s' A); try done. intros p. rewrite V. apply grows_insert.
  - from_option. destruct (storeWeak_run s A true true crash q x y0 HM eq_refl) as (s' & R & M & V); [by rewrite E|exact (conj E0 (tagged_plain x))|]. exists s'.
    split; [by destruct crash|]. apply (sound_next s s' A); try done. intros p. rewrite V. apply grows_insert.
  - from_option. destruct (storeWeak_run s A true false false q 0 0 HM eq_refl) as (s' & R & M & V); [by rewrite E|done|]. exists s'.
    split; [cbn [sop_run]; unfold objc_destroyWeak; by unfold wbnd at 1 2; rewrite R|]. apply (sound_next s s' A); try done. by rewrite V.
  - from_option. destruct (load_run s A q y HM E (has_room_ok _ _ E0)) as (s' & R & M & V). exists s'. split; [done|].
    apply (sound_next s s' A); try done. by rewrite V.
  - from_option. apply andb_true_iff in E0 as [E1 E2].
    destruct (copy_run s A dst src y HM E (is_fresh_ok _ _ _ HS E1) (has_room_ok _ _ E2) (tagged_plain y)) as (s' & R & M & V). exists s'.
    split; [cbn [sop_run]; by wstep R|]. apply (sound_next s s' A); try done. intros p. rewrite V. apply grows_insert.
  - from_option. apply andb_true_iff in E0 as [E1 E2].
    destruct (move_run s A dst src y HM E (is_fresh_ok _ _ _ HS E1) (has_room_ok _ _ E2) (tagged_plain y)) as (s' & R & M & V). exists s'.
    split; [cbn [sop_run]; by wstep R|]. apply (sound_next s s' A); try done. intros p Hp. rewrite V. by apply grows_insert, grows_insert.
  - from_option. destruct (retain_run s A x y HM E (has_room_ok _ _ E0 y E)) as (s' & R & M & V). exists s'. split; [done|].
    apply (sound_next s s' A); try done. by rewrite V.
  - apply bind_Some in Hop as (o & Ho & Hop). destruct (raw o && dying o && (refs o =? 0)) eqn:Eb; [discriminate Hop|]. injection Hop as <- <-.
    destruct (release_run s A x HM) as (s' & R & M & V); [right; right; by exists o|intros o' Ho'; by simplify_eq|]. exists s'.
    split; [cbn [sop_run]; by wstep R|]. apply (sound_next s s' A); try done. by rewrite V.
  - from_option. destruct (dispose_run s A x y HM E) as (s' & R & M & D). exists s'. split; [cbn [sop_run]; by wstep R|]. by apply (sound_next s s' A).
Qed.

Lemma sops_refine ops s A A' rs : sound s A -> sops_spec ops A = Some (A', rs) -> exists s', sops_run ops s = Ret (rs, s') /\ sound s' A'.
Proof.
  revert s A rs. induction ops as [|op ops IH]; intros s A rs HS Hops; cbn [sops_spec] in Hops.
  - injection Hops as <- <-. by exists s.
  - apply bind_Some in Hops as ([A1 r] & E & Hops). apply bind_Some in Hops as ([A2 rs'] & E' & Hops). injection Hops as <- <-.
    destruct (sop_refines op s A A1 r HS E) as (s1 & R1 & S1). destruct (IH s1 A1 rs' S1 E') as (s2 & R2 & S2).
    exists s2. cbn [sops_run]. wstep R1. wstep R2. done.
Qed.

(** C4. Any sequence of initializing, assigning, loading, copying, moving and destroying weak
    variables, of retaining, releasing and deallocating objects, carried out by the header bits, the
    side tables with their locks and the hash tables of weak references, behaves as on a plain map of
    variables and objects: a store of an object that is being deallocated stores nil (or stops the
    program, as asked), a load retains the object or yields nil, and deallocation zeroes the
    variables. *)
Theorem weak_references_refine ops s A A' rs : sound s A -> sops_spec ops A = Some (A', rs) ->
  exists s', sops_run ops s = Ret (rs, s') /\ sound s' A'.
Proof. apply sops_refine. Qed.

(** C15. Weak variables never dangle: after any such sequence the memory of every weak variable holds
    nil, a tagged pointer or the address of an object that has not been deallocated. *)
Theorem weak_variables_never_dangle ops s A A' rs : sound s A -> sops_spec ops A = Some (A', rs) ->
  exists s', sops_run ops s = Ret (rs, s') /\
    forall q v, weaks A' !! q = Some v -> wv s' !! q = Some v /\
      (v = 0 \/ isTaggedPointer a v = true \/ exists o, objects A' !! v = Some o /\ represents a (hdrs s') v o).
Proof.
  intros HS Hops. destruct (sops_refine ops s A A' rs HS Hops) as (s' & R & HM & _). exists s'. split; [done|]. intros q v Hq.
  destruct (m_vars _ _ _ HM q v Hq) as [Hw _]. split; [done|]. destruct (decide (v = 0)) as [|H0]; [by left|right].
  destruct (isTaggedPointer a v) eqn:Et; [by left|right]. destruct (m_target _ _ _ HM q v Hq (conj H0 Et)) as (o & Ho & _). exists o.
  split; [done|]. by apply (m_objs _ _ _ HM v o).
Qed.

(** When an object is disposed of, each variable that held it reads nil and each other variable
    what it read before. *)
Theorem dispose_zeroes_weak_variables s A x o : models ∅ s A -> objects A !! x = Some o ->
  exists s', dispose x s = Ret (tt, s') /\
    forall q v, weaks A !! q = Some v -> wv s' !! q = Some (if v =? x then 0 else v).
Proof.
  intros HM Hx. destruct (dispose_run s A x o HM Hx) as (s' & R & M & _). exists s'. split; [done|]. intros q v Hq.
  apply (m_vars _ _ _ M q). simpl. unfold zero_weaks. by rewrite lookup_fmap, Hq.
Qed.

End Spec.
