(* ===== verification/WeakSamples.v ===== *)
(** * Weak references: concrete runs

    Instances of the theorems of WeakTableSpec.v and WeakRefsSpec.v. *)

From Stdlib Require Import ZArith Lia Bool.
From stdpp Require Import base list gmap.
From S2P Require Import Prelude RetainCount RetainCountSpec ObjectSpec WeakTable WeakTableSpec WeakRefs WeakRefsSpec.

Local Open Scope Z_scope.

Lemma no_pairs x q : (x, q) ∈ pairs empty_table -> False.
Proof. rewrite (proj2 empty_table_ok). apply not_elem_of_empty. Qed.

(** ** The table *)

Definition sample_vars : gmap Z Z := list_to_map ((fun k => (8 * k, 4096)) <$> [1; 2; 3; 4; 5; 6]).

(** Six variables of one object, which no longer fit into the entry; then two are given up and the object is cleared. *)
Definition sample_wops : list weak_op :=
  (W_register 4096 <$> [8; 16; 24; 32; 40; 48]) ++ [W_unregister 4096 16; W_register 8192 16; W_unregister 4096 48; W_clear 4096].

Lemma weak_table_refines_witness : exists t' m', weak_run sample_wops (empty_table, sample_vars) = Ret (t', m') /\ pairs t' = {[(8192, 16)]} /\
  m' !! 8 = Some 0 /\ m' !! 16 = Some 4096 /\ m' !! 48 = Some 4096.
Proof.
  destruct (weak_table_refines sample_wops empty_table sample_vars) as (t' & m' & R & _ & E).
  - split; [done|]. intros x q Hq. by apply no_pairs in Hq.
  - vm_compute. reflexivity.
  - exists t', m'. assert (Hp : pairs t' = (abs_run sample_wops (pairs empty_table, sample_vars)).1) by exact (f_equal fst E).
    assert (Hm : m' = (abs_run sample_wops (pairs empty_table, sample_vars)).2) by exact (f_equal snd E).
    split; [exact R|]. rewrite Hp, Hm. split_and!; vm_compute; reflexivity.
Defined.

(** An entry whose set has left the inline array stays in the table when its last variable is unregistered:
    the test for emptiness then reads the address of the array as a variable. *)
Definition after (n : nat) : outcome (weak_table_t * gmap Z Z) :=
  weak_run ((W_register 4096 <$> take n [8; 16; 24; 32; 40]) ++ (W_unregister 4096 <$> take n [8; 16; 24; 32; 40])) (empty_table, sample_vars).

Example emptied_set_stays :
  (let! st := after 4 in Ret (num_entries st.1)) = Ret 0 /\ (let! st := after 5 in Ret (num_entries st.1)) = Ret 1 /\
  (let! st := after 5 in Ret (bool_decide (pairs st.1 = ∅))) = Ret true.
Proof. vm_compute. by split_and!. Qed.

(** ** The system *)

Definition the_class : Z := 0x20000.
Definition the_object : Z := 0x10000.

(** Every class is initialized and none overrides anything. *)
Definition simple_classes : classes :=
  mk_classes (fun _ => 0) (fun _ _ => true) (fun _ _ => false) (fun _ _ => false) (fun _ _ => wret tt)
    (fun _ => wret None) (fun _ => wret None) (fun x => wret x) (fun _ => wret tt) (fun _ => wret tt) (fun _ => wret tt).

Definition storage : list Z := [0x30000; 0x30008; 0x30010; 0x30018; 0x30020; 0x30028].
Definition storage_set : gset Z := list_to_set storage.

Definition start_ws : ws :=
  mk_ws (mk_rcs {[the_object := packed_isa arm64 (mk_class_info the_class false false false) false (ISA_MAGIC_VALUE arm64)]} ∅ ∅ [false; true; false] [])
    ∅ (list_to_map ((fun q => (q, 0xdead)) <$> storage)) O.
Definition start_sys : sys := mk_sys {[the_object := mk_obj 0 false false the_class false]} ∅.

Lemma start_rep : represents arm64 (hdrs start_ws) the_object (mk_obj 0 false false the_class false).
Proof.
  left. exists (packed_isa arm64 (mk_class_info the_class false false false) false (ISA_MAGIC_VALUE arm64)), 0. split; [|vm_compute; reflexivity].
  constructor; try (vm_compute; reflexivity); [vm_compute; split; congruence|lia|done].
Qed.

Lemma start_models : models arm64 simple_classes 10 ∅ start_ws start_sys.
Proof.
  constructor.
  - intros x o Hx. unfold start_sys in Hx. cbn [objects] in Hx. apply lookup_singleton_Some in Hx as [<- <-]. split_and!; [exact start_rep|vm_compute; split; congruence|by split|simpl; lia|simpl; lia].
  - done.
  - done.
  - simpl. lia.
  - intros i. split; [done|]. intros x q Hq. by apply no_pairs in Hq.
  - intros x q. split; [|by intros [? _]]. intros Hq. by apply no_pairs in Hq.
  - done.
Qed.

Lemma start_sound : sound arm64 simple_classes 10 storage_set start_ws start_sys.
Proof.
  split; [exact start_models|]. intros q Hq. apply elem_of_list_to_set in Hq.
  repeat (apply elem_of_cons in Hq as [->|Hq]; [split; [discriminate|vm_compute; by eexists]|]). by apply elem_of_nil in Hq.
Qed.

Lemma sample_tagged : forall x, isTaggedPointer arm64 x = true -> plain simple_classes (taggedClass simple_classes x).
Proof. by intros x _ s. Qed.

(** Five weak variables for one object, of which one is moved; loads retain it until the last release starts
    its deallocation; then a store of it stores nil, and at its end all variables are nil. *)
Definition sample_sops : list sop :=
  [S_init true 0x30000 the_object; S_copy 0x30008 0x30000; S_copy 0x30010 0x30000; S_init true 0x30018 the_object; S_move 0x30020 0x30018;
   S_load 0x30020; S_store true 0x30010 0; S_release the_object; S_init true 0x30028 the_object; S_release the_object; S_load 0x30000;
   S_store false 0x30010 the_object; S_dealloc the_object; S_load 0x30000; S_load 0x30020; S_destroy 0x30028].

Definition sample_results : list Z := [the_object; 0; 0; the_object; 0; the_object; 0; 0; the_object; 0; 0; 0; 0; 0; 0; 0].

Definition final_sys : sys := default start_sys (fst <$> sops_spec arm64 storage_set sample_sops start_sys).

Lemma sample_spec : sops_spec arm64 storage_set sample_sops start_sys = Some (final_sys, sample_results).
Proof. vm_compute. reflexivity. Qed.

Lemma weak_references_refine_witness : exists s', sops_run arm64 simple_classes 10 sample_sops start_ws = Ret (sample_results, s') /\
  sound arm64 simple_classes 10 storage_set s' final_sys.
Proof. exact (weak_references_refine arm64 simple_classes 10 storage_set sample_tagged sample_sops start_ws start_sys final_sys sample_results start_sound sample_spec). Defined.

Lemma weak_variables_never_dangle_witness : exists s', sops_run arm64 simple_classes 10 sample_sops start_ws = Ret (sample_results, s') /\
  wv s' !! 0x30000 = Some 0 /\ wv s' !! 0x30020 = Some 0.
Proof.
  destruct (weak_variables_never_dangle arm64 simple_classes 10 storage_set sample_tagged sample_sops start_ws start_sys final_sys sample_results start_sound sample_spec)
    as (s' & R & H). exists s'. split; [exact R|]. split; [apply (H 0x30000)|apply (H 0x30020)]; vm_compute; reflexivity.
Defined.

Lemma dispose_zeroes_weak_variables_witness : exists s', dispose arm64 the_object start_ws = Ret (tt, s') /\
  forall q v, weaks start_sys !! q = Some v -> wv s' !! q = Some (if v =? the_object then 0 else v).
Proof. apply (dispose_zeroes_weak_variables arm64 simple_classes 10 start_ws start_sys the_object (mk_obj 0 false false the_class false)); [exact start_models|reflexivity]. Defined.
