(* ===== verification/AutoreleasePool.v ===== *)
(** * Autorelease pools

    NSObject.mm: the stack of pages on which a thread keeps the objects to release when a
    pool is popped.  The pages of a thread are linked in both directions; here they are a
    list from the coldest page on, so that parent and child are the neighbours in the list.
    A page has an address, which is a multiple of its size, and its contents below [next].

    The debugging options [DebugPoolAllocation], [DebugMissingPools] and [PrintPoolHiwat] are
    off, the program is linked against a recent SDK, so that a bad pop is fatal, and the magic
    numbers that detect overwritten pages are left out.  The assertions of the code are kept:
    one that fails is a fault.

    Releasing an object may run code of the program, which may autorelease more objects and
    open pools of its own: [script] says what a release does with the pools, given all the
    objects released so far, the present one first.  [new_page] is the allocator, given the
    addresses in use. *)

From Stdlib Require Import ZArith Lia Bool.
From stdpp Require Import base list.
From S2P Require Import Prelude.

Local Open Scope Z_scope.

(** ** State *)

Record page := mk_page { page_addr : Z; contents : list Z }.

(** The thread-local word. *)
Inductive tls_value := T_nil | T_placeholder | T_page (addr : Z).

(** [released] are the objects that were released, the last first. *)
Record pool := mk_pool { pages : list page; tls : tls_value; released : list Z }.

Definition PM (A : Type) : Type := pool -> outcome (A * pool).

Definition pret {A} (x : A) : PM A := fun s => Ret (x, s).
Definition pbnd {A B} (c : PM A) (k : A -> PM B) : PM B :=
  fun s => match c s with Ret (x, s') => k x s' | Fault => Fault | OutOfFuel => OutOfFuel end.
Definition pfault {A} : PM A := fun _ => Fault.
Definition ptimeout {A} : PM A := fun _ => OutOfFuel.

Declare Scope pool_scope.
Delimit Scope pool_scope with pool.
Notation "'do' x '<-' e ';' k" := (pbnd e (fun x => k))
  (at level 10, x name, e at level 100, k at level 200) : pool_scope.
Notation "e ;; k" := (pbnd e (fun _ => k)) (at level 100, right associativity) : pool_scope.
Local Open Scope pool_scope.

Definition passert (b : bool) : PM unit := if b then pret tt else pfault.

(** What the code of the program does with the pools: [@autoreleasepool] blocks nest. *)
Inductive cmd := C_autorelease (obj : Z) | C_pool (body : list cmd).

Definition POOL_BOUNDARY : Z := 0.
Definition EMPTY_POOL_PLACEHOLDER : Z := 1.
(** [sizeof(AutoreleasePoolPage)] *)
Definition header_size : Z := 56.

Section Pool.
Context (SIZE : Z) (script : list Z -> list cmd) (new_page : list Z -> Z).

(** ** Pages *)

Definition begin_ (p : page) : Z := page_addr p + header_size.
Definition end_ (p : page) : Z := page_addr p + SIZE.
Definition next_ (p : page) : Z := begin_ p + 8 * Z.of_nat (length (contents p)).
Definition empty_ (p : page) : bool := next_ p =? begin_ p.
Definition full (p : page) : bool := next_ p =? end_ p.
Definition lessThanHalfFull (p : page) : bool := (next_ p - begin_ p) / 8 <? ((end_ p - begin_ p) / 8) / 2.

Definition page_at (i : nat) : PM page := fun s => match pages s !! i with Some p => Ret (p, s) | None => Fault end.
Definition set_page (i : nat) (p : page) : PM unit :=
  fun s => Ret (tt, mk_pool (<[i := p]> (pages s)) (tls s) (released s)).
Definition page_count : PM nat := fun s => Ret (length (pages s), s).

(** The page with an address. *)
Definition page_index (addr : Z) : PM nat :=
  fun s => match list_find (fun p => page_addr p = addr) (pages s) with Some (i, _) => Ret (i, s) | None => Fault end.

Definition hotPage : PM (option nat) :=
  fun s => match tls s with T_page addr => pbnd (page_index addr) (fun i => pret (Some i)) s | _ => Ret (None, s) end.
Definition setHotPage (i : nat) : PM unit :=
  do p <- page_at i; fun s => Ret (tt, mk_pool (pages s) (T_page (page_addr p)) (released s)).
Definition get_tls : PM tls_value := fun s => Ret (tls s, s).
Definition set_tls (v : tls_value) : PM unit := fun s => Ret (tt, mk_pool (pages s) v (released s)).
Definition haveEmptyPoolPlaceholder : PM bool := fun s => Ret (match tls s with T_placeholder => true | _ => false end, s).
Definition setEmptyPoolPlaceholder : PM Z :=
  do v <- get_tls;
  passert (match v with T_nil => true | _ => false end) ;;
  set_tls T_placeholder ;;
  pret EMPTY_POOL_PLACEHOLDER.
(** The first page, when there is a hot one. *)
Definition coldPage : PM (option nat) := do hot <- hotPage; pret (match hot with Some _ => Some O | None => None end).

Definition add (i : nat) (obj : Z) : PM Z :=
  do p <- page_at i;
  passert (negb (full p)) ;;
  set_page i (mk_page (page_addr p) (contents p ++ [obj])) ;;
  pret (next_ p).

(** A new page, the child of the last or the first of all. *)
Definition new_last : PM unit :=
  fun s => Ret (tt, mk_pool (pages s ++ [mk_page (new_page (map page_addr (pages s))) []]) (tls s) (released s)).
Definition new_first : PM unit := fun s => Ret (tt, mk_pool [mk_page (new_page []) []] (tls s) (released s)).

(** [kill] deletes the page and its children; the destructor asserts that they are empty. *)
Definition kill (i : nat) : PM unit :=
  fun s =>
    if forallb empty_ (drop i (pages s)) then Ret (tt, mk_pool (take i (pages s)) (tls s) (released s)) else Fault.

(** ** Adding *)

(** The loop of [autoreleaseFullPage]: the next page that is not full. *)
Fixpoint next_nonfull (fuel : nat) (i : nat) : PM nat :=
  match fuel with
  | O => ptimeout
  | S fuel' =>
      do n <- page_count;
      (if (S i <? n)%nat then pret tt else new_last) ;;
      do p <- page_at (S i);
      if full p then next_nonfull fuel' (S i) else pret (S i)
  end.

Definition autoreleaseFullPage (obj : Z) (i : nat) : PM Z :=
  do p <- page_at i;
  passert (full p) ;;
  do n <- page_count;
  do j <- next_nonfull (S n) i;
  setHotPage j ;;
  add j obj.

Definition autoreleaseNoPage (obj : Z) : PM Z :=
  do placeholder <- haveEmptyPoolPlaceholder;
  if negb placeholder && (obj =? POOL_BOUNDARY) then setEmptyPoolPlaceholder
  else
    new_first ;;
    setHotPage O ;;
    (if placeholder : bool then add O POOL_BOUNDARY ;; pret tt else pret tt) ;;
    add O obj.

Definition autoreleaseFast (obj : Z) : PM Z :=
  do hot <- hotPage;
  match hot with
  | Some i => do p <- page_at i; if negb (full p) then add i obj else autoreleaseFullPage obj i
  | None => autoreleaseNoPage obj
  end.

Definition autorelease (obj : Z) : PM Z := passert (negb (obj =? 0)) ;; autoreleaseFast obj ;; pret obj.

Definition push : PM Z := autoreleaseFast POOL_BOUNDARY.

(** ** Releasing *)

(** The inner loop of [releaseUntil]: the hot page, or the first parent that is not empty. *)
Fixpoint skip_empty (i : nat) : PM nat :=
  do p <- page_at i;
  if empty_ p then match i with O => pfault | S i' => setHotPage i' ;; skip_empty i' end else pret i.

(** Takes the topmost entry of a page. *)
Definition take_last (i : nat) : PM Z :=
  do p <- page_at i;
  match last (contents p) with
  | None => pfault
  | Some obj => set_page i (mk_page (page_addr p) (removelast (contents p))) ;; pret obj
  end.

Definition pageForPointer (p : Z) : PM nat :=
  let offset := p mod SIZE in
  passert (header_size <=? offset) ;;
  page_index (p - offset).

(** The test of [pop] that a token is a boundary, or the start of the coldest page. *)
Definition check_token (i : nat) (slot : nat) : PM unit :=
  do p <- page_at i;
  match contents p !! slot with
  | Some v => if v =? POOL_BOUNDARY then pret tt else passert ((slot =? 0)%nat && (i =? 0)%nat)
  | None => passert ((slot =? 0)%nat && (i =? 0)%nat)
  end.

(** After [releaseUntil], [pop] keeps at most one empty child. *)
Definition trim (i : nat) : PM unit :=
  do n <- page_count;
  if (S i <? n)%nat then
    do p <- page_at i;
    if lessThanHalfFull p then kill (S i)
    else if (S (S i) <? n)%nat then kill (S (S i)) else pret tt
  else pret tt.

(** The release itself; what the program does in it follows. *)
Definition send_release (obj : Z) : PM unit := fun s => Ret (tt, mk_pool (pages s) (tls s) (obj :: released s)).
Definition log : PM (list Z) := fun s => Ret (released s, s).

(** The check at the end of [releaseUntil]. *)
Definition children_empty (i : nat) : PM unit := fun s => passert (forallb empty_ (drop (S i) (pages s))) s.

(** [k] bounds the rounds of the loops and the nesting of calls. *)
Fixpoint releaseUntil (k : nat) (i : nat) (stop : Z) : PM unit :=
  match k with
  | O => ptimeout
  | S k' =>
      do p <- page_at i;
      if next_ p =? stop then setHotPage i ;; children_empty i
      else
        do hot <- hotPage;
        match hot with
        | None => pfault
        | Some h =>
            do j <- skip_empty h;
            do obj <- take_last j;
            (if negb (obj =? POOL_BOUNDARY) then send_release obj ;; (do l <- log; run_cmds k' (script l)) else pret tt) ;;
            releaseUntil k' i stop
        end
  end

with pop (k : nat) (token : Z) : PM unit :=
  match k with
  | O => ptimeout
  | S k' =>
      if token =? EMPTY_POOL_PLACEHOLDER then
        do cold <- coldPage;
        match cold with
        | Some c => do p <- page_at c; pop k' (begin_ p)
        | None => set_tls T_nil
        end
      else
        do i <- pageForPointer token;
        let slot := Z.to_nat ((token mod SIZE - header_size) / 8) in
        check_token i slot ;;
        releaseUntil k' i token ;;
        trim i
  end

with run_cmds (k : nat) (cs : list cmd) : PM unit :=
  match k with
  | O => ptimeout
  | S k' =>
      match cs with
      | [] => pret tt
      | C_autorelease obj :: cs' => autorelease obj ;; run_cmds k' cs'
      | C_pool body :: cs' => do token <- push; run_cmds k' body ;; pop k' token ;; run_cmds k' cs'
      end
  end.

(** The end of a thread: the destructor of the key, called with its value after the thread
    library has cleared it. *)
Definition tls_dealloc (k : nat) (v : tls_value) : PM unit :=
  match v with
  | T_placeholder => pret tt
  | _ =>
      set_tls v ;;
      do cold <- coldPage;
      (match cold with
       | None => pret tt
       | Some c =>
           do p <- page_at c;
           (if negb (empty_ p) then pop k (begin_ p) else pret tt) ;;
           kill c
       end) ;;
      set_tls T_nil
  end.

End Pool.
