(* ===== verification/PoolStack.v ===== *)
(** * The stack behind the autorelease pools

    The abstract specification of the pools: one stack of objects and boundaries, and the
    objects released so far.  An [@autoreleasepool] block leaves the stack as it found it and
    releases, the last first, what was autoreleased in it, also by the releases themselves;
    whatever is autoreleased is released once or still waits. *)

From Stdlib Require Import ZArith Lia Bool.
From stdpp Require Import base list.
From S2P Require Import Prelude AutoreleasePool.

Local Open Scope Z_scope.

(** The stack, the topmost entry last, and the objects released so far. *)
Definition stack_state : Type := list Z * list Z.

(** What a list of commands autoreleases itself. *)
Fixpoint autos (c : cmd) : list Z :=
  match c with C_autorelease x => [x] | C_pool body => concat (map autos body) end.
Definition all_autos (cs : list cmd) : list Z := concat (map autos cs).

(** The objects on the stack. *)
Definition objs (sg : list Z) : list Z := filter (fun x => x <> 0) sg.

(** How often an object is in a list. *)
Definition times (x : Z) (l : list Z) : nat := count_occ Z.eq_dec l x.

Lemma times_app x l l' : times x (l ++ l') = (times x l + times x l')%nat.
Proof. apply count_occ_app. Qed.
Lemma times_Permutation l l' : (forall x, times x l = times x l') -> l ≡ₚ l'.
Proof. intros H. by apply (Permutation_count_occ Z.eq_dec). Qed.
Lemma objs_app sg sg' : objs (sg ++ sg') = objs sg ++ objs sg'.
Proof. apply filter_app. Qed.
Lemma objs_one x : x <> 0 -> objs [x] = [x].
Proof. intros H. unfold objs. by rewrite filter_cons_True. Qed.

Section Stack.
Context (script : list Z -> list cmd).

(** Taking entries off the stack until [n] are left, and running commands. *)
Inductive drain : nat -> stack_state -> stack_state -> Prop :=
| drain_done n sg l : length sg = n -> drain n (sg, l) (sg, l)
| drain_boundary n sg l r : (n <= length sg)%nat -> drain n (sg, l) r -> drain n (sg ++ [POOL_BOUNDARY], l) r
| drain_object n sg x l s1 r :
    x <> 0 -> (n <= length sg)%nat -> runs (script (x :: l)) (sg, x :: l) s1 -> drain n s1 r -> drain n (sg ++ [x], l) r
with runs : list cmd -> stack_state -> stack_state -> Prop :=
| runs_nil s : runs [] s s
| runs_autorelease x cs sg l r : x <> 0 -> runs cs (sg ++ [x], l) r -> runs (C_autorelease x :: cs) (sg, l) r
| runs_pool body cs sg l s1 s2 r :
    runs body (sg ++ [POOL_BOUNDARY], l) s1 -> drain (length sg) s1 s2 -> runs cs s2 r -> runs (C_pool body :: cs) (sg, l) r.

Scheme drain_ind' := Induction for drain Sort Prop
with runs_ind' := Induction for runs Sort Prop.
Combined Scheme drain_runs_ind from drain_ind', runs_ind'.

(** ** The discipline of the stack *)

Lemma stack_discipline :
  (forall n s r, drain n s r -> (n <= length s.1)%nat -> r.1 = take n s.1) /\
  (forall cs s r, runs cs s r -> exists t, r.1 = s.1 ++ t).
Proof.
  apply (drain_runs_ind (fun n s r _ => (n <= length s.1)%nat -> r.1 = take n s.1) (fun cs s r _ => exists t, r.1 = s.1 ++ t)); simpl.
  - intros n sg l <- _. by rewrite firstn_all.
  - intros n sg l r Hn _ IH _. rewrite IH by done. by rewrite take_app_le.
  - intros n sg x l s1 r Hx Hn _ [t Ht] _ IH _. rewrite IH by (rewrite Ht, length_app; lia). rewrite Ht, !take_app_le by lia. done.
  - intros s. exists []. by rewrite app_nil_r.
  - intros x cs sg l r Hx _ [t Ht]. exists (x :: t). by rewrite Ht, <- app_assoc.
  - intros body cs sg l s1 s2 r _ [t Ht] _ IHd _ [t' Ht']. exists t'. rewrite Ht'. rewrite IHd by (rewrite Ht, !length_app; lia).
    rewrite Ht, <- app_assoc, take_app_length. done.
Qed.

Lemma drain_takes n s r : drain n s r -> (n <= length s.1)%nat -> r.1 = take n s.1.
Proof. apply stack_discipline. Qed.
Lemma runs_extends cs s r : runs cs s r -> exists t, r.1 = s.1 ++ t.
Proof. apply stack_discipline. Qed.
Lemma runs_grows cs s r : runs cs s r -> (length s.1 <= length r.1)%nat.
Proof. intros H. destruct (runs_extends _ _ _ H) as [t ->]. rewrite length_app. lia. Qed.

(** A pool leaves the stack as it was before it was pushed. *)
Lemma pool_restores body sg l r : runs [C_pool body] (sg, l) r -> r.1 = sg.
Proof.
  intros H. inversion H as [| |b cs sg0 l0 s1 s2 r' Hb Hd Hc]; subst. inversion Hc; subst.
  destruct (runs_extends _ _ _ Hb) as [t Ht]. simpl in Ht.
  rewrite (drain_takes _ _ _ Hd) by (rewrite Ht, !length_app; lia). by rewrite Ht, <- app_assoc, take_app_length.
Qed.

(** ** The empty stack and the single boundary *)

Lemma drain_nil l r : drain 0 ([], l) r -> r = ([], l).
Proof. intros H. inversion H; subst; [done|by destruct sg|by destruct sg]. Qed.

Lemma drain_placeholder l r : drain 0 ([POOL_BOUNDARY], l) r -> r = ([], l).
Proof.
  intros H. remember ([POOL_BOUNDARY], l) as s eqn:Es. remember 0%nat as m eqn:Em. destruct H as [n sg l' E|n sg l' r _ Hd|n sg x l' s1 r Hx]; injection Es as Es El; subst n.
  - by subst.
  - destruct sg as [|? [|]]; [|done..]. subst. by apply drain_nil.
  - apply (app_inj_tail sg [] x POOL_BOUNDARY) in Es as [_ ->]. by unfold POOL_BOUNDARY in Hx.
Qed.

(** ** Conservation *)

(** What the releases of [rel] autoreleased, when [l] was released before. *)
Fixpoint caused (l rel : list Z) : list Z :=
  match rel with [] => [] | x :: rel' => all_autos (script (x :: rel' ++ l)) ++ caused l rel' end.

Lemma caused_app l rel rel' : caused l (rel ++ rel') = caused (rel' ++ l) rel ++ caused l rel'.
Proof. induction rel as [|x rel IH]; simpl; [done|]. by rewrite IH, !app_assoc. Qed.

(** Every autoreleased object is released or waits on the stack. *)
Definition conserves (s r : stack_state) (more : list Z) : Prop :=
  exists rel, r.2 = rel ++ s.2 /\
    forall x, (times x (objs r.1) + times x rel = times x (objs s.1) + times x more + times x (caused s.2 rel))%nat.

Lemma conserves_trans s1 s2 s3 m1 m2 :
  conserves s1 s2 m1 -> conserves s2 s3 m2 -> conserves s1 s3 (m1 ++ m2).
Proof.
  intros (r1 & A1 & A2) (r2 & B1 & B2). exists (r2 ++ r1). split; [by rewrite B1, A1, app_assoc|].
  intros x. specialize (A2 x). specialize (B2 x). rewrite A1 in B2. rewrite caused_app, !times_app. lia.
Qed.

Lemma conserves_push sg l x : x <> 0 -> conserves (sg, l) (sg ++ [x], l) [x].
Proof. intros Hx. exists []. split; [done|]. intros y. simpl. rewrite objs_app, objs_one, times_app by done. simpl. lia. Qed.
Lemma conserves_boundary sg l : conserves (sg, l) (sg ++ [POOL_BOUNDARY], l) [] /\ conserves (sg ++ [POOL_BOUNDARY], l) (sg, l) [].
Proof. split; exists []; (split; [done|]); intros y; simpl; rewrite objs_app, times_app; change (objs [POOL_BOUNDARY]) with (@nil Z); simpl; lia. Qed.
Lemma conserves_release sg l x s : 
  x <> 0 -> conserves (sg, x :: l) s (all_autos (script (x :: l))) -> conserves (sg ++ [x], l) s [].
Proof.
  intros Hx (rel & A1 & A2). exists (rel ++ [x]). split; [by rewrite A1, <- app_assoc|].
  intros y. specialize (A2 y). rewrite caused_app. simpl in *. rewrite objs_app, objs_one, !times_app by done. simpl. lia.
Qed.

Lemma stack_conserves :
  (forall n s r, drain n s r -> conserves s r []) /\ (forall cs s r, runs cs s r -> conserves s r (all_autos cs)).
Proof.
  apply (drain_runs_ind (fun n s r _ => conserves s r []) (fun cs s r _ => conserves s r (all_autos cs))).
  - intros n sg l _. exists []. split; [done|]. intros x; simpl; lia.
  - intros n sg l r _ _ IH. apply (conserves_trans _ _ _ [] [] (proj2 (conserves_boundary sg l)) IH).
  - intros n sg x l s1 r Hx _ _ IH1 _ IH2. apply (conserves_trans _ _ _ [] [] (conserves_release _ _ _ _ Hx IH1) IH2).
  - intros s. exists []. split; [done|]. intros x; simpl; lia.
  - intros x cs sg l r Hx _ IH. apply (conserves_trans _ _ _ [x] (all_autos cs) (conserves_push sg l x Hx) IH).
  - intros body cs sg l s1 s2 r _ IHb _ IHd _ IHc.
    apply (conserves_trans _ s2 _ (all_autos body) (all_autos cs)); [|done].
    apply (conserves_trans _ _ _ [] (all_autos body) (proj1 (conserves_boundary sg l))).
    rewrite <- (app_nil_r (all_autos body)). by apply (conserves_trans _ s1).
Qed.

(** ** Termination *)

(** Objects have ranks, and what a release autoreleases is of a lower rank than the object. *)
Fixpoint below (rank : Z -> nat) (b : nat) (c : cmd) : Prop :=
  match c with
  | C_autorelease x => x <> 0 /\ (rank x < b)%nat
  | C_pool body => fold_right (fun c P => below rank b c /\ P) True body
  end.

Definition all_below rank b (cs : list cmd) : Prop := fold_right (fun c P => below rank b c /\ P) True cs.

Lemma all_below_cons rank b c cs : all_below rank b (c :: cs) <-> below rank b c /\ all_below rank b cs.
Proof. done. Qed.

Definition decreasing (rank : Z -> nat) : Prop := forall x l, x <> 0 -> all_below rank (rank x) (script (x :: l)).

Fixpoint cmd_size (c : cmd) : nat := match c with C_autorelease _ => 1 | C_pool body => S (list_sum (map cmd_size body)) end.
Definition cmds_size (cs : list cmd) : nat := list_sum (map cmd_size cs).

Lemma cmd_size_pos c : (0 < cmd_size c)%nat.
Proof. destruct c; simpl; lia. Qed.

Section Termination.
Context (rank : Z -> nat) (Hdec : decreasing rank).

(** The entries above height [n] are of ranks below [b]. *)
Definition top_below (b n : nat) (sg : list Z) : Prop := Forall (fun x => x <> 0 -> (rank x < b)%nat) (drop n sg).

Lemma top_below_app b n sg t : (n <= length sg)%nat -> top_below b n (sg ++ t) <-> top_below b n sg /\ Forall (fun x => x <> 0 -> (rank x < b)%nat) t.
Proof. intros H. unfold top_below. rewrite drop_app_le by done. apply Forall_app. Qed.

Definition run_total (b : nat) : Prop :=
  forall cs, all_below rank b cs -> forall sg l n, (n <= length sg)%nat -> top_below b n sg ->
    exists r, runs cs (sg, l) r /\ top_below b n r.1.
Definition drain_total (b : nat) : Prop :=
  forall sg l n, (n <= length sg)%nat -> top_below b n sg -> exists r, drain n (sg, l) r.

Lemma run_total_of_drain b : drain_total b -> run_total b.
Proof.
  intros Hd cs. remember (cmds_size cs) as m eqn:Hm. revert cs Hm. induction (lt_wf m) as [m _ IH]. intros [|c cs] -> Hb sg l n Hn Ht.
  { exists (sg, l). split; [constructor|done]. }
  apply all_below_cons in Hb as [Hc Hb]. unfold cmds_size in IH. simpl in IH. pose proof (cmd_size_pos c).
  destruct c as [x|body]; simpl in Hc, IH.
  - destruct Hc as [Hx Hr]. destruct (IH (cmds_size cs) ltac:(unfold cmds_size; lia) cs eq_refl Hb (sg ++ [x]) l n) as (r & A & B).
    + rewrite length_app; lia.
    + apply top_below_app; [done|]. split; [done|]. by constructor.
    + exists r. split; [by constructor|done].
  - destruct (IH (cmds_size body) ltac:(unfold cmds_size; lia) body eq_refl Hc (sg ++ [POOL_BOUNDARY]) l (length sg)) as (s1 & A & B).
    + rewrite length_app; lia.
    + apply top_below_app; [done|]. split; [unfold top_below; by rewrite drop_all|]. constructor; [|done]. unfold POOL_BOUNDARY. done.
    + destruct s1 as [sg1 l1]. pose proof (runs_grows _ _ _ A) as Hg. simpl in Hg, B. rewrite length_app in Hg.
      destruct (Hd sg1 l1 (length sg) ltac:(lia) B) as [s2 D]. 
      pose proof (pool_restores body sg l s2 ltac:(econstructor; [done|done|constructor])) as Hs2. destruct s2 as [sg2 l2]. simpl in Hs2. subst sg2.
      destruct (IH (cmds_size cs) ltac:(unfold cmds_size; lia) cs eq_refl Hb sg l2 n Hn Ht) as (r & E & F).
      exists r. split; [by econstructor|done].
Qed.

Lemma below_mono b b' c : (b <= b')%nat -> below rank b c -> below rank b' c.
Proof.
  intros Hle. revert c. fix IH 1. intros [x|body]; simpl; [intros [? ?]; split; [done|lia]|].
  revert body. fix IHb 1. intros [|c cs]; simpl; [done|]. intros [H1 H2]. split; [by apply IH|by apply IHb].
Qed.
Lemma all_below_mono b b' cs : (b <= b')%nat -> all_below rank b cs -> all_below rank b' cs.
Proof.
  intros Hle. induction cs as [|c cs IH]; [done|]. rewrite !all_below_cons. intros [H1 H2].
  split; [by apply (below_mono b)|by apply IH].
Qed.

(** Draining to a height in two steps. *)
Lemma drain_drain m n s s1 r : drain m s s1 -> (n <= m)%nat -> drain n s1 r -> drain n s r.
Proof.
  intros H. induction H as [n' sg l Hl|n' sg l r' Hl H IH|n' sg x l s' r' Hx Hl Hr H IH]; intros Hn Hd; [done|..].
  - apply drain_boundary; [lia|by apply IH].
  - apply (drain_object _ _ _ _ s'); [done|lia|done|by apply IH].
Qed.

(** Draining when the objects of the top can be released down to their own height. *)
Lemma drain_each b :
  (forall sg x l, x <> 0 -> (rank x < b)%nat -> exists l', drain (length sg) (sg ++ [x], l) (sg, l')) -> drain_total b.
Proof.
  intros Hone sg l n Hn Ht. remember (length sg) as m eqn:Hm. revert sg l Hm Hn Ht.
  induction m as [|m IH]; intros sg l Hm Hn Ht; [exists (sg, l); constructor; lia|].
  destruct (decide (n = S m)) as [->|Hne]; [exists (sg, l); by constructor|].
  destruct (exists_last (l := sg)) as (sg' & x & ->); [by intros ->|]. rewrite length_app in Hm. simpl in Hm.
  apply top_below_app in Ht as [Ht Hx]; [|lia]. rewrite Forall_singleton in Hx.
  destruct (decide (x = 0)) as [->|Hx0].
  - destruct (IH sg' l ltac:(lia) ltac:(lia) Ht) as [r Hdr]. exists r. apply drain_boundary; [lia|done].
  - destruct (Hone sg' x l Hx0 (Hx Hx0)) as [l' Hd]. destruct (IH sg' l' ltac:(lia) ltac:(lia) Ht) as [r Hdr].
    exists r. apply (drain_drain _ _ _ _ _ Hd); [lia|done].
Qed.

Lemma drain_total_step b : run_total b -> drain_total b -> drain_total (S b).
Proof.
  intros Hr Hd. apply drain_each. intros sg x l Hx0 Hx.
  assert (Hb : all_below rank b (script (x :: l))) by (apply (all_below_mono (rank x)); [lia|by apply Hdec]).
  destruct (Hr _ Hb sg (x :: l) (length sg) ltac:(lia)) as ([sg1 l1] & A & B); [unfold top_below; by rewrite drop_all|].
  pose proof (runs_grows _ _ _ A) as Hg. simpl in Hg, B.
  destruct (Hd sg1 l1 (length sg) Hg B) as [[sg2 l2] D]. destruct (runs_extends _ _ _ A) as [t Ht]. simpl in Ht.
  pose proof (drain_takes _ _ _ D Hg) as E. simpl in E. rewrite Ht, take_app_length in E. subst sg2.
  exists l2. by apply (drain_object _ _ _ _ (sg1, l1)).
Qed.

Lemma totals b : drain_total b /\ run_total b.
Proof.
  induction b as [|b [IHd IHr]].
  - assert (drain_total 0) by (apply drain_each; intros; lia). split; [done|by apply run_total_of_drain].
  - assert (drain_total (S b)) by (by apply drain_total_step). split; [done|by apply run_total_of_drain].
Qed.

Lemma runs_total cs b sg l : all_below rank b cs -> exists r, runs cs (sg, l) r.
Proof.
  intros Hb. destruct (proj2 (totals b) cs Hb sg l (length sg) ltac:(lia)) as (r & H & _); [unfold top_below; by rewrite drop_all|].
  by exists r.
Qed.

Lemma drain_all_total sg l : exists r, drain 0 (sg, l) r.
Proof.
  set (b := S (list_max (map rank sg))). apply (proj1 (totals b)); [lia|].
  unfold top_below. rewrite drop_0. apply Forall_forall. intros x Hx _. unfold b.
  apply Nat.lt_succ_r. pose proof (proj1 (list_max_le (map rank sg) _) (Nat.le_refl _)) as HF. rewrite List.Forall_forall in HF.
  apply HF. apply in_map. by apply list_elem_of_In.
Qed.

End Termination.
End Stack.
