(* ===== verification/AutoreleasePoolSpec.v ===== *)
(** * The pages of the autorelease pools implement the stack

    [rep] relates the pages of a thread to the stack of [PoolStack]: the pages below the hot
    one are full, those above it empty.  Pushing, autoreleasing and popping refine the
    operations of the stack, and none of the assertions of the code fails. *)

From Stdlib Require Import ZArith Lia Bool.
From stdpp Require Import base list.
From S2P Require Import Prelude AutoreleasePool PoolStack.

Local Open Scope Z_scope.
Local Open Scope pool_scope.

Lemma pbnd_Ret {A B} (c : PM A) (k : A -> PM B) s x s' : c s = Ret (x, s') -> pbnd c k s = k x s'.
Proof. intros He. unfold pbnd. by rewrite He. Qed.

Tactic Notation "pstep" uconstr(H) := rewrite (pbnd_Ret _ _ _ _ _ H).

(** What the pools rely on of the allocator: pages are aligned to their size, and a new page
    is not one in use. *)
Class PageAllocator (SIZE : Z) (new_page : list Z -> Z) : Prop := {
  page_aligned : forall used, new_page used mod SIZE = 0;
  page_fresh : forall used, new_page used ∉ used;
}.

(** The address of the page at an index. *)
Definition addr_of (st : pool) (i : nat) : option Z := page_addr <$> pages st !! i.

Section Pages.
Context (C : nat) (SIZE : Z) (script : list Z -> list cmd) (new_page : list Z -> Z).
Context (HC : (2 <= C)%nat) (HSIZE : SIZE = header_size + 8 * Z.of_nat C).
Context {Halloc : PageAllocator SIZE new_page}.

Definition full_page (p : page) : Prop := length (contents p) = C.
Definition empty_page (p : page) : Prop := contents p = [].

(** The pages below the hot one, the hot one and those above it. *)
Record wf_pages (bs : list page) (p : page) (es : list page) : Prop := {
  wf_full : Forall full_page bs;
  wf_room : (length (contents p) <= C)%nat;
  wf_empty : Forall empty_page es;
  wf_aligned : Forall (fun q => page_addr q mod SIZE = 0) (bs ++ p :: es);
  wf_distinct : NoDup (map page_addr (bs ++ p :: es));
}.

Inductive rep : pool -> stack_state -> Prop :=
| rep_nil l : rep (mk_pool [] T_nil l) ([], l)
| rep_placeholder l : rep (mk_pool [] T_placeholder l) ([POOL_BOUNDARY], l)
| rep_pages bs p es l :
    wf_pages bs p es -> rep (mk_pool (bs ++ p :: es) (T_page (page_addr p)) l) (concat (map contents bs) ++ contents p, l).

(** The pages that hold the lowest [n] entries and the next one stay where they are. *)
Definition keeps (n : nat) (st st' : pool) : Prop :=
  forall i a, (i <= n / C)%nat -> addr_of st i = Some a -> addr_of st' i = Some a.

Lemma keeps_refl n st : keeps n st st.
Proof. by intros i a. Qed.
Lemma keeps_trans n st st1 st2 : keeps n st st1 -> keeps n st1 st2 -> keeps n st st2.
Proof. intros H1 H2 i a Hi Ha. by apply H2, H1. Qed.
Lemma keeps_mono m n st st' : (n <= m)%nat -> keeps m st st' -> keeps n st st'.
Proof. intros Hle H i a Hi. apply H. pose proof (Nat.Div0.div_le_mono n m C Hle). lia. Qed.

(** A token stands for a height of the stack. *)
Definition token_at (a : Z) (n : nat) : Z := a + header_size + 8 * Z.of_nat (n mod C).
Definition token_ok (st : pool) (n : nat) (token : Z) : Prop :=
  (n = O /\ token = EMPTY_POOL_PLACEHOLDER) \/ exists a, addr_of st (n / C) = Some a /\ token = token_at a n.

Lemma token_keeps n st st' token : keeps n st st' -> token_ok st n token -> token_ok st' n token.
Proof. intros Hk [H|(a & Ha & Ht)]; [by left|]. right. exists a. split; [by apply Hk|done]. Qed.

(** ** Pages *)

Lemma empty_eq (q : page) : empty_ q = (length (contents q) =? 0)%nat.
Proof. unfold empty_, next_. destruct (Nat.eqb_spec (length (contents q)) 0); lia. Qed.
Lemma full_eq (q : page) : full SIZE q = (length (contents q) =? C)%nat.
Proof. unfold full, next_, end_, begin_. destruct (Nat.eqb_spec (length (contents q)) C); lia. Qed.
Lemma next_eq (q : page) n : (next_ q =? token_at (page_addr q) n) = (length (contents q) =? n mod C)%nat.
Proof. unfold next_, begin_, token_at. destruct (Nat.eqb_spec (length (contents q)) (n mod C)); lia. Qed.

Lemma all_empty es : Forall empty_page es -> forallb empty_ es = true.
Proof. intros H. apply forallb_forall. intros q Hq. rewrite List.Forall_forall in H. rewrite empty_eq. by rewrite (H q Hq). Qed.

Lemma below_height bs : Forall full_page bs -> length (concat (map contents bs)) = (length bs * C)%nat.
Proof. induction 1 as [|q bs Hq H IH]; simpl; [done|]. rewrite length_app, IH, Hq. lia. Qed.

Lemma page_at_mid bs p es v l : page_at (length bs) (mk_pool (bs ++ p :: es) v l) = Ret (p, mk_pool (bs ++ p :: es) v l).
Proof. unfold page_at. simpl. by rewrite list_lookup_middle. Qed.

Lemma set_page_mid bs p q es v l : set_page (length bs) q (mk_pool (bs ++ p :: es) v l) = Ret (tt, mk_pool (bs ++ q :: es) v l).
Proof. unfold set_page. simpl. by rewrite insert_app_r_alt, Nat.sub_diag by lia. Qed.

Lemma find_distinct (ps : list page) i p : NoDup (map page_addr ps) -> ps !! i = Some p ->
  list_find (fun q => page_addr q = page_addr p) ps = Some (i, p).
Proof.
  intros Hnd Hi. apply list_find_Some. split_and!; [done|done|]. intros j q Hj Hlt Heq.
  assert (i = j); [|lia]. apply (NoDup_lookup _ _ _ (page_addr p) Hnd); rewrite list_lookup_fmap; [by rewrite Hi|by rewrite Hj, <- Heq].
Qed.

Lemma page_index_spec ps i p v l : NoDup (map page_addr ps) -> ps !! i = Some p ->
  page_index (page_addr p) (mk_pool ps v l) = Ret (i, mk_pool ps v l).
Proof. intros Hnd Hi. unfold page_index. simpl. by rewrite (find_distinct ps i p). Qed.

Lemma hotPage_mid bs p es l : wf_pages bs p es ->
  hotPage (mk_pool (bs ++ p :: es) (T_page (page_addr p)) l) = Ret (Some (length bs), mk_pool (bs ++ p :: es) (T_page (page_addr p)) l).
Proof.
  intros Hwf. unfold hotPage. simpl. pstep (page_index_spec _ (length bs) p _ _ (wf_distinct _ _ _ Hwf) (list_lookup_middle _ _ _ _ eq_refl)). done.
Qed.

Lemma setHotPage_mid bs p es v l : setHotPage (length bs) (mk_pool (bs ++ p :: es) v l) = Ret (tt, mk_pool (bs ++ p :: es) (T_page (page_addr p)) l).
Proof. unfold setHotPage. by pstep (page_at_mid bs p es v l). Qed.

Lemma add_mid bs p es v l x : (length (contents p) < C)%nat ->
  add SIZE (length bs) x (mk_pool (bs ++ p :: es) v l) =
    Ret (next_ p, mk_pool (bs ++ mk_page (page_addr p) (contents p ++ [x]) :: es) v l).
Proof.
  intros Hlt. unfold add. pstep (page_at_mid bs p es v l). rewrite full_eq, (proj2 (Nat.eqb_neq _ _)) by lia. simpl.
  unfold passert, pret at 1. unfold pbnd at 1. by pstep (set_page_mid bs p _ es v l).
Qed.

(** ** Changes of the pages *)

(** A page with other contents keeps the addresses. *)
Lemma wf_contents bs p es c : wf_pages bs p es -> (length c <= C)%nat -> wf_pages bs (mk_page (page_addr p) c) es.
Proof.
  intros [H1 H2 H3 H4 H5] Hc. split; [done|done|done| |].
  - apply Forall_app in H4 as [A B]. inversion_clear B. apply Forall_app. split; [done|]. by constructor.
  - revert H5. by rewrite !map_app.
Qed.

Lemma wf_next bs p e es : wf_pages bs p (e :: es) -> full_page p -> wf_pages (bs ++ [p]) e es.
Proof.
  intros [H1 H2 H3 H4 H5] Hp. inversion_clear H3. split; try (by rewrite <- app_assoc).
  - apply Forall_app. split; [done|]. by constructor.
  - match goal with He : empty_page e |- _ => rewrite He end. simpl. lia.
  - done.
Qed.

Lemma wf_prev bs p e es : wf_pages (bs ++ [p]) e es -> empty_page e -> wf_pages bs p (e :: es).
Proof.
  intros [H1 H2 H3 H4 H5] He. apply Forall_app in H1 as [A B]. rewrite Forall_singleton in B. rewrite <- app_assoc in H4, H5.
  split; [done|unfold full_page in B; lia|by constructor|done|done].
Qed.

Lemma wf_cut bs p es k : wf_pages bs p es -> wf_pages bs p (take k es).
Proof.
  intros [H1 H2 H3 H4 H5]. split; [done|done|by apply Forall_take| |].
  - rewrite <- (take_drop k es), app_comm_cons, app_assoc in H4. by apply Forall_app in H4 as [? _].
  - rewrite <- (take_drop k es), app_comm_cons, app_assoc, map_app in H5. by apply NoDup_app in H5 as [? _].
Qed.

Lemma wf_new bs p : wf_pages bs p [] -> wf_pages bs p [mk_page (new_page (map page_addr (bs ++ [p]))) []].
Proof.
  intros [H1 H2 H3 H4 H5]. change (p :: [?q]) with ([p] ++ [q]). split; [done|done|by repeat constructor| |].
  - change (p :: [?q]) with ([p] ++ [q]). rewrite app_assoc. apply Forall_app. split; [done|]. constructor; [apply (page_aligned (new_page := new_page))|done].
  - change (p :: [?q]) with ([p] ++ [q]). rewrite app_assoc, map_app. apply NoDup_app. split; [done|]. split; [|apply NoDup_singleton].
    intros a Ha Hin. rewrite map_cons in Hin. apply list_elem_of_singleton in Hin. subst a. by apply (page_fresh (new_page := new_page) _ Ha).
Qed.

Lemma wf_first c : (length c <= C)%nat -> wf_pages [] (mk_page (new_page []) c) [].
Proof. intros Hc. split; [done|done|done| |]; simpl; [by constructor; [apply (page_aligned (new_page := new_page))|]|apply NoDup_singleton]. Qed.

(** ** Autoreleasing and pushing *)

Lemma add_fits bs p es l x : wf_pages bs p es -> (length (contents p) < C)%nat ->
  let st := mk_pool (bs ++ p :: es) (T_page (page_addr p)) l in
  let n := length (concat (map contents bs) ++ contents p) in
  exists st', add SIZE (length bs) x st = Ret (next_ p, st') /\
    rep st' ((concat (map contents bs) ++ contents p) ++ [x], l) /\
    (forall i, addr_of st' i = addr_of st i) /\ addr_of st' (n / C) = Some (page_addr p) /\ next_ p = token_at (page_addr p) n.
Proof.
  intros Hwf Hlt st n.
  assert (Hn : n = (length bs * C + length (contents p))%nat) by (unfold n; rewrite length_app, below_height; [done|apply Hwf]).
  assert (Hdiv : (n / C = length bs)%nat) by (rewrite Hn, Nat.div_add_l, Nat.div_small; lia).
  assert (Hmod : (n mod C = length (contents p))%nat) by (rewrite Hn, Nat.add_comm, Nat.Div0.mod_add, Nat.mod_small; lia).
  set (p' := mk_page (page_addr p) (contents p ++ [x])).
  exists (mk_pool (bs ++ p' :: es) (T_page (page_addr p')) l). split_and!.
  - by apply add_mid.
  - rewrite <- app_assoc. apply (rep_pages bs p'). apply wf_contents; [done|]. rewrite length_app. simpl. lia.
  - intros i. unfold addr_of. simpl. rewrite <- !list_lookup_fmap. f_equal. by rewrite !fmap_app.
  - rewrite Hdiv. unfold addr_of. simpl. by rewrite list_lookup_middle.
  - unfold next_, begin_, token_at. by rewrite Hmod.
Qed.

Lemma next_nonfull_child fuel bs p e es v l : empty_page e ->
  next_nonfull SIZE new_page (S fuel) (length bs) (mk_pool (bs ++ p :: e :: es) v l) = Ret (S (length bs), mk_pool (bs ++ p :: e :: es) v l).
Proof.
  intros He. cbn [next_nonfull]. unfold page_count. unfold pbnd at 1. simpl pages.
  rewrite (proj2 (Nat.ltb_lt _ _)) by (rewrite length_app; simpl; lia).
  unfold pret at 1, pbnd at 1. pose proof (page_at_mid (bs ++ [p]) e es v l) as H.
  rewrite length_app, Nat.add_1_r, <- app_assoc in H. simpl app in H. pstep H.
  rewrite full_eq, He, (proj2 (Nat.eqb_neq _ _)) by (simpl; lia). done.
Qed.

Lemma next_nonfull_new fuel bs p v l : let e := mk_page (new_page (map page_addr (bs ++ [p]))) [] in
  next_nonfull SIZE new_page (S fuel) (length bs) (mk_pool (bs ++ [p]) v l) = Ret (S (length bs), mk_pool (bs ++ [p; e]) v l).
Proof.
  intros e. cbn [next_nonfull]. unfold page_count. unfold pbnd at 1. simpl pages.
  rewrite (proj2 (Nat.ltb_ge _ _)) by (rewrite length_app; simpl; lia).
  unfold new_last. unfold pbnd at 1. simpl pages. simpl tls. simpl released. fold e.
  pose proof (page_at_mid (bs ++ [p]) e [] v l) as H. rewrite length_app, Nat.add_1_r in H. pstep H.
  rewrite full_eq, (proj2 (Nat.eqb_neq _ _)) by (simpl; lia). unfold pret. by rewrite <- app_assoc.
Qed.

(** The hot page is full: its child, or a new page, takes the object. *)
Lemma autoreleaseFullPage_spec bs p es l x : wf_pages bs p es -> full_page p ->
  let st := mk_pool (bs ++ p :: es) (T_page (page_addr p)) l in
  let n := length (concat (map contents bs) ++ contents p) in
  exists tok st' a, autoreleaseFullPage SIZE new_page x (length bs) st = Ret (tok, st') /\
    rep st' ((concat (map contents bs) ++ contents p) ++ [x], l) /\
    keeps n st st' /\ addr_of st' (n / C) = Some a /\ tok = token_at a n.
Proof.
  intros Hwf Hfull st n.
  assert (exists e es1, wf_pages bs p (e :: es1) /\ empty_page e /\
    (forall i a, addr_of st i = Some a -> addr_of (mk_pool (bs ++ p :: e :: es1) (T_page (page_addr p)) l) i = Some a) /\
    next_nonfull SIZE new_page (S (length (pages st))) (length bs) st = Ret (S (length bs), mk_pool (bs ++ p :: e :: es1) (T_page (page_addr p)) l))
    as (e & es1 & Hwf1 & He & Hk & Hnext).
  { destruct es as [|e es1].
    - eexists _, []. split_and!; [by apply wf_new|done| |apply next_nonfull_new].
      intros i a. unfold addr_of. simpl. rewrite <- !list_lookup_fmap, !fmap_app. simpl.
      intros Hi. pose proof (lookup_lt_Some _ _ _ Hi) as Hlt. rewrite length_app in Hlt. simpl in Hlt.
      change (page_addr p :: [?b]) with ([page_addr p] ++ [b]). rewrite app_assoc. by apply lookup_app_l_Some.
    - exists e, es1. split_and!; [done| |intros i a Hi; exact Hi|apply next_nonfull_child]; pose proof (wf_empty _ _ _ Hwf) as HE; by inversion_clear HE. }
  assert (Hr : (length (contents e) < C)%nat) by (rewrite He; simpl; lia).
  destruct (add_fits (bs ++ [p]) e es1 l x (wf_next _ _ _ _ Hwf1 Hfull) Hr) as (st' & A1 & A2 & A3 & A4 & A5).
  rewrite He, map_app, concat_app in A2, A4, A5. simpl in A2, A4, A5. rewrite !app_nil_r in A2, A4, A5. fold n in A4, A5.
  rewrite length_app, Nat.add_1_r, <- app_assoc in A1. rewrite <- app_assoc in A3. simpl app in A1, A3.
  exists (next_ e), st', (page_addr e). split_and!; [|done| |done|done].
  - unfold autoreleaseFullPage. pstep (page_at_mid bs p es (T_page (page_addr p)) l). rewrite full_eq, Hfull, Nat.eqb_refl.
    unfold passert, pret at 1. unfold pbnd at 1. unfold page_count. unfold pbnd at 1. pstep Hnext.
    pose proof (setHotPage_mid (bs ++ [p]) e es1 (T_page (page_addr p)) l) as Hs. rewrite length_app, Nat.add_1_r, <- app_assoc in Hs. simpl app in Hs.
    by pstep Hs.
  - intros i a _ Hi. rewrite A3. by apply Hk.
Qed.

Lemma autoreleaseNoPage_spec v l x sg :
  (v = T_nil /\ sg = [] \/ v = T_placeholder /\ sg = [POOL_BOUNDARY]) ->
  exists tok st', autoreleaseNoPage SIZE new_page x (mk_pool [] v l) = Ret (tok, st') /\
    rep st' (sg ++ [x], l) /\ token_ok st' (length sg) tok.
Proof.
  assert (Hroom : (length (@nil Z) < C)%nat) by (simpl; lia).
  set (e := mk_page (new_page []) []). pose proof (wf_first [] (Nat.lt_le_incl _ _ Hroom)) as Hwf. fold e in Hwf.
  intros [[-> ->]|[-> ->]].
  - unfold autoreleaseNoPage. destruct (Z.eqb_spec x POOL_BOUNDARY) as [->|Hx].
    { eexists _, _. split_and!; [reflexivity|apply rep_placeholder|by left]. }
    destruct (add_fits [] e [] l x Hwf Hroom) as (st' & A1 & A2 & _ & A4 & A5). simpl in A1, A2, A4, A5.
    exists (next_ e), st'. split_and!; [exact A1|exact A2|]. right. by exists (page_addr e).
  - destruct (add_fits [] e [] l POOL_BOUNDARY Hwf Hroom) as (st1 & A1 & _).
    set (e1 := mk_page (new_page []) [POOL_BOUNDARY]).
    destruct (add_fits [] e1 [] l x) as (st' & B1 & B2 & _ & B4 & B5); [apply wf_first; simpl; lia|simpl; lia|]. simpl in B1, B2, B4, B5.
    exists (next_ e1), st'. split_and!; [|exact B2|right; by exists (page_addr e1)].
    unfold autoreleaseNoPage, haveEmptyPoolPlaceholder, new_first. simpl. unfold pbnd at 1. simpl. unfold pbnd at 1. simpl. unfold pbnd at 1. simpl.
    unfold pbnd. rewrite (add_mid [] e [] _ l POOL_BOUNDARY Hroom). simpl. done.
Qed.

(** Adding an entry refines pushing it on the stack. *)
Lemma autoreleaseFast_spec st sg l x : rep st (sg, l) ->
  exists tok st', autoreleaseFast SIZE new_page x st = Ret (tok, st') /\
    rep st' (sg ++ [x], l) /\ keeps (length sg) st st' /\ token_ok st' (length sg) tok.
Proof.
  intros Hrep. inversion Hrep as [l0 E1 E2|l0 E1 E2|bs p es l0 Hwf E1 E2]; subst.
  - destruct (autoreleaseNoPage_spec T_nil l x []) as (tok & st' & A & B & D); [by left|]. exists tok, st'. split_and!; [done..|by intros i a|done].
  - destruct (autoreleaseNoPage_spec T_placeholder l x [POOL_BOUNDARY]) as (tok & st' & A & B & D); [by right|]. exists tok, st'. split_and!; [done..|by intros i a|done].
  - unfold autoreleaseFast. pstep (hotPage_mid bs p es l Hwf). pstep (page_at_mid bs p es (T_page (page_addr p)) l). rewrite full_eq.
    destruct (Nat.eqb_spec (length (contents p)) C) as [Hf|Hf]; simpl negb; cbv iota.
    + destruct (autoreleaseFullPage_spec bs p es l x Hwf Hf) as (tok & st' & a & A & B & D & E & F).
      exists tok, st'. split_and!; [done..|]. right. by exists a.
    + pose proof (wf_room _ _ _ Hwf). destruct (add_fits bs p es l x Hwf) as (st' & A & B & D & E & F); [lia|].
      exists (next_ p), st'. split_and!; [done|done| |]; [intros i a _; by rewrite D|]. right. by exists (page_addr p).
Qed.

(** ** Releasing *)

(** The inner loop of [releaseUntil] makes at most one round: a test instead of the loop
    would do. *)
Definition skip_empty_once (i : nat) : PM nat :=
  do p <- page_at i;
  if empty_ p then match i with O => pfault | S i' => setHotPage i' ;; pret i' end else pret i.

Lemma skip_empty_eq i : skip_empty i =
  (do p <- page_at i; if empty_ p then match i with O => pfault | S i' => setHotPage i' ;; skip_empty i' end else pret i).
Proof. by destruct i. Qed.

Lemma skip_stay bs p es v l : contents p <> [] ->
  let st := mk_pool (bs ++ p :: es) v l in
  skip_empty (length bs) st = Ret (length bs, st) /\ skip_empty_once (length bs) st = Ret (length bs, st).
Proof.
  intros Hp st. split; [rewrite skip_empty_eq|unfold skip_empty_once]; pstep (page_at_mid bs p es v l); rewrite empty_eq;
    by destruct (contents p).
Qed.

Lemma skip_down bs q p es v l : contents p = [] -> contents q <> [] ->
  let st := mk_pool (bs ++ q :: p :: es) v l in
  let st' := mk_pool (bs ++ q :: p :: es) (T_page (page_addr q)) l in
  skip_empty (S (length bs)) st = Ret (length bs, st') /\ skip_empty_once (S (length bs)) st = Ret (length bs, st').
Proof.
  intros Hp Hq st st'.
  pose proof (page_at_mid (bs ++ [q]) p es v l) as H. rewrite length_app, Nat.add_1_r, <- app_assoc in H. simpl app in H.
  split; [rewrite skip_empty_eq|unfold skip_empty_once]; pstep H; rewrite empty_eq, Hp; simpl; pstep (setHotPage_mid bs q (p :: es) v l);
    [by apply skip_stay|done].
Qed.

Lemma skip_empty_spec bs p es l sg x : wf_pages bs p es -> concat (map contents bs) ++ contents p = sg ++ [x] ->
  let st := mk_pool (bs ++ p :: es) (T_page (page_addr p)) l in
  exists bs' q es', bs ++ p :: es = bs' ++ q :: es' /\ wf_pages bs' q es' /\ contents q <> [] /\
    concat (map contents bs') ++ contents q = sg ++ [x] /\
    skip_empty (length bs) st = Ret (length bs', mk_pool (bs' ++ q :: es') (T_page (page_addr q)) l) /\
    skip_empty_once (length bs) st = Ret (length bs', mk_pool (bs' ++ q :: es') (T_page (page_addr q)) l).
Proof.
  intros Hwf Hsg st.
  destruct (decide (contents p = [])) as [Hp|Hp].
  - destruct (decide (bs = [])) as [->|Hbs]; [rewrite Hp in Hsg; simpl in Hsg; by destruct sg|].
    destruct (exists_last Hbs) as (bs' & q & ->). pose proof (wf_prev _ _ _ _ Hwf Hp) as Hwf'.
    pose proof (wf_full _ _ _ Hwf) as HF. apply Forall_app in HF as [_ HF]. rewrite Forall_singleton in HF. unfold full_page in HF.
    assert (Hq : contents q <> []) by (intros Hq; rewrite Hq in HF; simpl in HF; lia).
    exists bs', q, (p :: es). unfold st. rewrite <- app_assoc, length_app, Nat.add_1_r. simpl app.
    split; [done|]. split; [done|]. split; [done|]. split; [|by apply skip_down].
    rewrite <- Hsg, map_app, concat_app, Hp. simpl. by rewrite !app_nil_r.
  - exists bs, p, es. split; [done|]. split; [done|]. split; [done|]. split; [done|]. by apply skip_stay.
Qed.

(** Taking the topmost entry. *)
Lemma take_last_spec bs q es l sg x : wf_pages bs q es -> contents q <> [] -> concat (map contents bs) ++ contents q = sg ++ [x] ->
  let st := mk_pool (bs ++ q :: es) (T_page (page_addr q)) l in
  exists st', take_last (length bs) st = Ret (x, st') /\ rep st' (sg, l) /\ (forall i, addr_of st' i = addr_of st i).
Proof.
  intros Hwf Hq Hsg st. destruct (exists_last Hq) as (c & y & Hc). rewrite Hc, app_assoc in Hsg. apply app_inj_tail in Hsg as [Hsg ->].
  set (q' := mk_page (page_addr q) c). exists (mk_pool (bs ++ q' :: es) (T_page (page_addr q')) l). split_and!.
  - unfold take_last. pstep (page_at_mid bs q es (T_page (page_addr q)) l). rewrite Hc, last_snoc.
    pstep (set_page_mid bs q _ es (T_page (page_addr q)) l). by rewrite removelast_last.
  - rewrite <- Hsg. apply (rep_pages bs q'). apply wf_contents; [done|]. pose proof (wf_room _ _ _ Hwf). rewrite Hc, length_app in *. simpl in *. lia.
  - intros i. unfold addr_of. simpl. rewrite <- !list_lookup_fmap. f_equal. by rewrite !fmap_app.
Qed.

(** A round of [releaseUntil] takes the topmost entry of the stack. *)
Lemma round_spec st sg x l j q : rep st (sg ++ [x], l) -> pages st !! j = Some q ->
  exists h j st1 st', hotPage st = Ret (Some h, st) /\ skip_empty h st = Ret (j, st1) /\ skip_empty_once h st = Ret (j, st1) /\
    take_last j st1 = Ret (x, st') /\ rep st' (sg, l) /\ (forall i, addr_of st' i = addr_of st i).
Proof.
  intros Hrep Hj. inversion Hrep as [l0 E1 E2|l0 E1 E2|bs p es l0 Hwf E1 E2]; subst; [done..|].
  destruct (skip_empty_spec bs p es l sg x Hwf E2) as (bs' & q' & es' & A & B & D & E & F & G).
  destruct (take_last_spec bs' q' es' l sg x B D E) as (st' & I & J & K).
  eexists _, _, _, st'. split_and!; [by apply hotPage_mid|exact F|exact G|exact I|exact J|].
  intros i. rewrite K. unfold addr_of. simpl. by rewrite A.
Qed.

(** The loop of [releaseUntil] ends when the stack has the height of the token. *)
Lemma stop_iff bs p es n i q : wf_pages bs p es -> i = (n / C)%nat -> (bs ++ p :: es) !! i = Some q ->
  let sg := concat (map contents bs) ++ contents p in
  (n <= length sg)%nat -> (length (contents q) =? n mod C)%nat = (length sg =? n)%nat.
Proof.
  intros Hwf -> Hq sg Hn. assert (Hsg : length sg = (length bs * C + length (contents p))%nat) by (unfold sg; rewrite length_app, below_height; [done|apply Hwf]).
  pose proof (wf_room _ _ _ Hwf) as Hr. pose proof (Nat.div_mod n C ltac:(lia)) as Hdm. pose proof (Nat.mod_upper_bound n C ltac:(lia)) as Hub.
  rewrite Hsg in *. clear Hsg sg.
  destruct (Nat.lt_trichotomy (n / C) (length bs)) as [Hlt|[Heq|Hgt]].
  - rewrite lookup_app_l in Hq by done. pose proof (Forall_lookup_1 _ _ _ _ (wf_full _ _ _ Hwf) Hq) as Hf. unfold full_page in Hf.
    rewrite !(proj2 (Nat.eqb_neq _ _)); [done|nia|lia].
  - rewrite Heq in Hq. rewrite list_lookup_middle in Hq by done. injection Hq as ->.
    destruct (Nat.eqb_spec (length (contents q)) (n mod C)) as [E|E], (Nat.eqb_spec (length bs * C + length (contents q)) n) as [F|F]; nia.
  - rewrite lookup_app_r in Hq by lia. destruct (n / C - length bs)%nat as [|m] eqn:Em; [lia|]. simpl in Hq.
    pose proof (Forall_lookup_1 _ _ _ _ (wf_empty _ _ _ Hwf) Hq) as He. unfold empty_page in He. rewrite He. simpl length.
    assert (n = S (length bs) * C)%nat by nia. assert (n mod C = 0)%nat by nia. 
    rewrite !(proj2 (Nat.eqb_eq _ _)); [done|nia|lia].
Qed.

(** The state with the hot page at an index. *)
Definition rep_hot (i : nat) (st : pool) (s : stack_state) : Prop :=
  exists bs p es l, length bs = i /\ wf_pages bs p es /\
    st = mk_pool (bs ++ p :: es) (T_page (page_addr p)) l /\ s = (concat (map contents bs) ++ contents p, l).

Lemma rep_hot_rep i st s : rep_hot i st s -> rep st s.
Proof. intros (bs & p & es & l & _ & Hwf & -> & ->). by apply rep_pages. Qed.

(** A state with a page has a hot page. *)
Lemma rep_paged st s i a : rep st s -> addr_of st i = Some a -> exists h, rep_hot h st s.
Proof. intros Hrep Ha. inversion Hrep; subst; [done..|]. by eexists _, _, _, _, _. Qed.

Lemma addr_of_page st i a : addr_of st i = Some a -> exists q, pages st !! i = Some q /\ page_addr q = a.
Proof. unfold addr_of. destruct (pages st !! i) as [q|]; simpl; [|done]. intros [= <-]. by exists q. Qed.

Lemma stop_test st sg l n a : rep st (sg, l) -> (n <= length sg)%nat -> addr_of st (n / C) = Some a ->
  exists q, page_at (n / C) st = Ret (q, st) /\ (next_ q =? token_at a n) = (length sg =? n)%nat.
Proof.
  intros Hrep Hn Ha. destruct (rep_paged _ _ _ _ Hrep Ha) as (h & bs & p & es & l' & Hh & Hwf & -> & [= -> ->]).
  destruct (addr_of_page _ _ _ Ha) as (q & Hq & <-). exists q. unfold page_at. rewrite Hq, next_eq.
  split; [done|]. by apply (stop_iff bs p es n (n / C) q).
Qed.

Lemma hot_and_empty bs p es v l : Forall empty_page es ->
  (setHotPage (length bs) ;; children_empty (length bs)) (mk_pool (bs ++ p :: es) v l) = Ret (tt, mk_pool (bs ++ p :: es) (T_page (page_addr p)) l).
Proof.
  intros He. pstep (setHotPage_mid bs p es v l). unfold children_empty. simpl pages.
  replace (drop (S (length bs)) (bs ++ p :: es)) with es; [by rewrite all_empty|].
  change (p :: es) with ([p] ++ es). rewrite app_assoc, <- Nat.add_1_r. change 1%nat with (length [p]). by rewrite <- length_app, drop_app_length.
Qed.

(** The end of [releaseUntil]: the page of the token becomes the hot one. *)
Lemma done_spec st sg l a : rep st (sg, l) -> addr_of st (length sg / C) = Some a ->
  exists st', (setHotPage (length sg / C) ;; children_empty (length sg / C)) st = Ret (tt, st') /\
    rep_hot (length sg / C) st' (sg, l) /\ pages st' = pages st.
Proof.
  intros Hrep Ha. destruct (rep_paged _ _ _ _ Hrep Ha) as (h & bs & p & es & l' & Hh & Hwf & -> & [= -> ->]).
  pose proof (wf_room _ _ _ Hwf) as Hr.
  assert (Hsg : length (concat (map contents bs) ++ contents p) = (length bs * C + length (contents p))%nat) by (rewrite length_app, below_height; [done|apply Hwf]).
  destruct (decide (length (contents p) = C)) as [Hf|Hf].
  - assert (Hd : (length (concat (map contents bs) ++ contents p) / C = S (length bs))%nat)
      by (rewrite Hsg, Hf, Nat.div_add_l, Nat.div_same; lia).
    rewrite Hd in *. destruct es as [|e es].
    { unfold addr_of in Ha. simpl in Ha. rewrite lookup_ge_None_2 in Ha by (rewrite length_app; simpl; lia). done. }
    pose proof (wf_empty _ _ _ Hwf) as He. apply Forall_cons_1 in He as [He Hes].
    pose proof (hot_and_empty (bs ++ [p]) e es (T_page (page_addr p)) l' Hes) as H. rewrite length_app, Nat.add_1_r, <- app_assoc in H.
    eexists. split_and!; [exact H| |done]. exists (bs ++ [p]), e, es, l'. rewrite length_app, Nat.add_1_r, <- app_assoc, map_app, concat_app, He. simpl.
    rewrite !app_nil_r. split_and!; [done|by apply wf_next|done|done].
  - assert (Hd : (length (concat (map contents bs) ++ contents p) / C = length bs)%nat)
      by (rewrite Hsg, Nat.div_add_l, Nat.div_small; lia).
    rewrite Hd in *. eexists. split_and!; [apply hot_and_empty, Hwf| |done]. by exists bs, p, es, l'.
Qed.

(** ** Popping *)

Lemma concat_lookup bs i q j : Forall full_page bs -> bs !! i = Some q -> (j < C)%nat ->
  concat (map contents bs) !! (i * C + j)%nat = contents q !! j.
Proof.
  intros HF. revert i. induction HF as [|b bs Hb HF IH]; intros [|i] Hi Hj; simpl in *; try done.
  - injection Hi as ->. apply lookup_app_l. unfold full_page in Hb. lia.
  - unfold full_page in Hb. rewrite lookup_app_r by lia. rewrite Hb, <- (IH i) by done. f_equal. lia.
Qed.

(** The slot of a token holds the entry of the stack at its height. *)
Lemma slot_entry bs p es n q : wf_pages bs p es -> (bs ++ p :: es) !! (n / C)%nat = Some q ->
  let sg := concat (map contents bs) ++ contents p in
  (n < length sg)%nat -> sg !! n = contents q !! (n mod C)%nat.
Proof.
  intros Hwf Hq sg Hn. assert (Hsg : length sg = (length bs * C + length (contents p))%nat) by (unfold sg; rewrite length_app, below_height; [done|apply Hwf]).
  pose proof (below_height bs (wf_full _ _ _ Hwf)) as Hbl. pose proof (wf_room _ _ _ Hwf) as Hr.
  pose proof (Nat.div_mod n C ltac:(lia)) as Hdm. pose proof (Nat.mod_upper_bound n C ltac:(lia)) as Hub.
  destruct (Nat.lt_trichotomy (n / C) (length bs)) as [Hlt|[Heq|Hgt]].
  - rewrite lookup_app_l in Hq by done. rewrite <- (concat_lookup bs _ q _ (wf_full _ _ _ Hwf) Hq Hub).
    unfold sg. rewrite lookup_app_l by (rewrite Hbl; nia). f_equal. lia.
  - rewrite Heq in Hq. rewrite list_lookup_middle in Hq by done. injection Hq as ->. unfold sg. rewrite lookup_app_r by (rewrite Hbl; nia).
    f_equal. rewrite Hbl. nia.
  - nia.
Qed.

Lemma token_offset a n : a mod SIZE = 0 -> token_at a n mod SIZE = header_size + 8 * Z.of_nat (n mod C).
Proof.
  intros Ha. unfold token_at, header_size in *. pose proof (Nat.mod_upper_bound n C ltac:(lia)).
  rewrite <- Z.add_assoc, <- Z.add_mod_idemp_l, Ha, Z.add_0_l by lia. apply Z.mod_small. lia.
Qed.

Lemma token_not_placeholder a n : a mod SIZE = 0 -> (token_at a n =? EMPTY_POOL_PLACEHOLDER) = false.
Proof.
  intros Ha. apply Z.eqb_neq. unfold token_at, EMPTY_POOL_PLACEHOLDER, header_size in *. intros E.
  pose proof (Z.div_mod a SIZE ltac:(lia)) as Hd. rewrite Ha, Z.add_0_r, HSIZE in Hd. set (k := a / _) in Hd.
  assert (a = 8 * ((7 + Z.of_nat C) * k)) by lia. lia.
Qed.

(** Popping finds the page of the token, and accepts the token. *)
Lemma pop_check_spec st sg l n a : rep st (sg, l) -> (n < length sg)%nat -> sg !! n = Some POOL_BOUNDARY \/ n = O ->
  addr_of st (n / C) = Some a ->
  (token_at a n =? EMPTY_POOL_PLACEHOLDER) = false /\ pageForPointer SIZE (token_at a n) st = Ret ((n / C)%nat, st) /\
    check_token (n / C) (Z.to_nat ((token_at a n mod SIZE - header_size) / 8)) st = Ret (tt, st).
Proof.
  intros Hrep Hn Hb Ha. destruct (rep_paged _ _ _ _ Hrep Ha) as (h & bs & p & es & l' & Hh & Hwf & -> & [= -> ->]).
  destruct (addr_of_page _ _ _ Ha) as (q & Hq & <-). simpl in Hq.
  pose proof (Forall_lookup_1 _ _ _ _ (wf_aligned _ _ _ Hwf) Hq) as Hal. simpl in Hal.
  split; [by apply token_not_placeholder|]. rewrite token_offset by done. split.
  - unfold pageForPointer. rewrite token_offset, (proj2 (Z.leb_le _ _)) by (done || lia).
    unfold passert, pret. unfold pbnd at 1.
    replace (token_at (page_addr q) n - _) with (page_addr q) by (unfold token_at; lia).
    apply page_index_spec; [apply Hwf|done].
  - replace (Z.to_nat _) with (n mod C)%nat by (rewrite Z.add_simpl_l, Z.mul_comm, Z.div_mul; lia).
    unfold check_token, page_at. unfold pbnd. simpl pages. rewrite Hq.
    rewrite <- (slot_entry bs p es n q Hwf Hq Hn). destruct Hb as [->| ->]; [done|].
    rewrite Nat.Div0.mod_0_l, Nat.Div0.div_0_l. simpl. destruct ((concat (map contents bs) ++ contents p) !! 0%nat) as [v|]; [|done]. by destruct (v =? POOL_BOUNDARY).
Qed.

Lemma kill_cut bs p es v l k : Forall empty_page es ->
  kill (S (length bs) + k) (mk_pool (bs ++ p :: es) v l) = Ret (tt, mk_pool (bs ++ p :: take k es) v l).
Proof.
  intros He. unfold kill. simpl pages. simpl tls. simpl released.
  assert (E : bs ++ p :: es = (bs ++ [p]) ++ es) by (by rewrite <- app_assoc).
  assert (El : (S (length bs) + k = length (bs ++ [p]) + k)%nat) by (rewrite length_app; simpl; lia).
  rewrite E, El, drop_app_add, take_app_add, all_empty by (by apply Forall_drop). by rewrite <- app_assoc.
Qed.

Lemma trim_spec i st s : rep_hot i st s ->
  exists st', trim SIZE i st = Ret (tt, st') /\ rep st' s /\ (forall j a, (j <= i)%nat -> addr_of st j = Some a -> addr_of st' j = Some a).
Proof.
  intros (bs & p & es & l & <- & Hwf & -> & ->). unfold trim, page_count. unfold pbnd at 1. cbn [pages].
  assert (Hcut : forall k, exists st', kill (S (length bs) + k) (mk_pool (bs ++ p :: es) (T_page (page_addr p)) l) = Ret (tt, st') /\
    rep st' (concat (map contents bs) ++ contents p, l) /\
    (forall j a, (j <= length bs)%nat -> addr_of (mk_pool (bs ++ p :: es) (T_page (page_addr p)) l) j = Some a -> addr_of st' j = Some a)).
  { intros k. eexists. split_and!; [apply kill_cut, Hwf|apply rep_pages; by apply wf_cut|]. intros j a Hj.
    unfold addr_of. simpl. change (p :: es) with ([p] ++ es). change (p :: take k es) with ([p] ++ take k es).
    rewrite !app_assoc, (lookup_app_l _ es), (lookup_app_l _ (take k es)) by (rewrite length_app; simpl; lia). done. }
  assert (Hsame : exists st', pret tt (mk_pool (bs ++ p :: es) (T_page (page_addr p)) l) = Ret (tt, st') /\
    rep st' (concat (map contents bs) ++ contents p, l) /\
    (forall j a, (j <= length bs)%nat -> addr_of (mk_pool (bs ++ p :: es) (T_page (page_addr p)) l) j = Some a -> addr_of st' j = Some a)).
  { eexists. split_and!; [reflexivity|by apply rep_pages|done]. }
  destruct (S (length bs) <? length (bs ++ p :: es))%nat; [|exact Hsame].
  pstep (page_at_mid bs p es (T_page (page_addr p)) l). destruct (lessThanHalfFull SIZE p).
  - specialize (Hcut 0%nat). rewrite Nat.add_0_r in Hcut. exact Hcut.
  - destruct (S (S (length bs)) <? length (bs ++ p :: es))%nat; [|exact Hsame]. specialize (Hcut 1%nat). rewrite Nat.add_1_r in Hcut. exact Hcut.
Qed.

(** ** Refinement *)

Abbreviation releaseUntil' := (releaseUntil SIZE script new_page).
Abbreviation pop' := (pop SIZE script new_page).
Abbreviation run_cmds' := (run_cmds SIZE script new_page).

Definition releases_to (n : nat) (s r : stack_state) (K : nat) : Prop :=
  forall st a, rep st s -> (n <= length s.1)%nat -> addr_of st (n / C) = Some a ->
    exists st', releaseUntil' K (n / C) (token_at a n) st = Ret (tt, st') /\ rep_hot (n / C) st' r /\ keeps n st st'.
Definition pops_to (n : nat) (s r : stack_state) (K : nat) : Prop :=
  forall st token, rep st s -> (n < length s.1)%nat -> s.1 !! n = Some POOL_BOUNDARY \/ n = O -> token_ok st n token ->
    exists st', pop' K token st = Ret (tt, st') /\ rep st' r /\ keeps n st st'.
Definition runs_to (cs : list cmd) (s r : stack_state) (K : nat) : Prop :=
  forall st, rep st s -> exists st', run_cmds' K cs st = Ret (tt, st') /\ rep st' r /\ keeps (length s.1) st st'.

(** From some fuel on. *)
Definition eventually (P : nat -> Prop) : Prop := exists K0, forall K, (K0 <= K)%nat -> P K.

Lemma eventually_S P : (forall K, P (S K)) -> eventually P.
Proof. intros H. exists 1%nat. intros [|K] HK; [lia|apply H]. Qed.
Lemma eventually_mp (P Q : nat -> Prop) : (forall K, P K -> Q (S K)) -> eventually P -> eventually Q.
Proof. intros H [K0 HP]. exists (S K0). intros [|K] HK; [lia|]. apply H, HP. lia. Qed.
Lemma eventually_and (P Q : nat -> Prop) : eventually P -> eventually Q -> eventually (fun K => P K /\ Q K).
Proof. intros [K0 HP] [K1 HQ]. exists (K0 + K1)%nat. intros K HK. split; [apply HP|apply HQ]; lia. Qed.

Lemma addr_same n st st' : (forall i, addr_of st' i = addr_of st i) -> keeps n st st'.
Proof. intros H i a _ Ha. by rewrite H. Qed.

Lemma releases_done sg l K : releases_to (length sg) (sg, l) (sg, l) (S K).
Proof.
  intros st a Hrep Hn Ha. destruct (stop_test _ _ _ _ _ Hrep Hn Ha) as (q & Hq & Hs). rewrite Nat.eqb_refl in Hs.
  destruct (done_spec st sg l a Hrep Ha) as (st' & A & B & D). exists st'. split_and!; [|done|].
  - cbn [releaseUntil]. pstep Hq. by rewrite Hs.
  - apply addr_same. intros i. unfold addr_of. by rewrite D.
Qed.

(** One round: what is left is to run the code of the release and to go on. *)
Lemma releases_round n sg x l st a K : rep st (sg ++ [x], l) -> (n <= length sg)%nat -> addr_of st (n / C) = Some a ->
  exists st1, rep st1 (sg, l) /\ addr_of st1 (n / C) = Some a /\ keeps n st st1 /\
    releaseUntil' (S K) (n / C) (token_at a n) st =
      ((if negb (x =? POOL_BOUNDARY) then send_release x ;; (do l <- log; run_cmds' K (script l)) else pret tt) ;;
       releaseUntil' K (n / C) (token_at a n)) st1.
Proof.
  intros Hrep Hn Ha. destruct (addr_of_page _ _ _ Ha) as (q0 & Hq0 & _).
  destruct (stop_test _ _ _ n a Hrep) as (q & Hq & Hs); [rewrite length_app; lia|done|].
  destruct (round_spec st sg x l _ _ Hrep Hq0) as (h & j & st1 & st' & A & B & _ & D & E & F).
  exists st'. split_and!; [done|by rewrite F|by apply addr_same|].
  cbn [releaseUntil]. pstep Hq. rewrite Hs, (proj2 (Nat.eqb_neq _ _)) by (rewrite length_app; simpl; lia).
  pstep A. pstep B. by pstep D.
Qed.

Lemma releases_boundary n sg l r K : (n <= length sg)%nat -> releases_to n (sg, l) r K -> releases_to n (sg ++ [POOL_BOUNDARY], l) r (S K).
Proof.
  intros Hn H st a Hrep _ Ha. destruct (releases_round n sg _ l st a K Hrep Hn Ha) as (st1 & A & B & D & ->).
  destruct (H st1 a A Hn B) as (st' & E & F & G). exists st'. split_and!; [|done|by apply (keeps_trans n st st1)].
  simpl. unfold pret. unfold pbnd. exact E.
Qed.

Lemma releases_object n sg x l s1 r K : x <> 0 -> (n <= length sg)%nat -> (length sg <= length s1.1)%nat ->
  runs_to (script (x :: l)) (sg, x :: l) s1 K -> releases_to n s1 r K -> releases_to n (sg ++ [x], l) r (S K).
Proof.
  intros Hx Hn Hg H1 H2 st a Hrep _ Ha. destruct (releases_round n sg _ l st a K Hrep Hn Ha) as (st1 & A & B & D & ->).
  rewrite (proj2 (Z.eqb_neq _ _)) by done. simpl negb. cbv iota.
  assert (A' : rep (mk_pool (pages st1) (tls st1) (x :: l)) (sg, x :: l)) by (inversion A; subst; by constructor).
  assert (El : released st1 = l) by (by inversion A).
  destruct (H1 _ A') as (st2 & E & F & G). simpl in G. apply (keeps_mono _ n) in G; [|done].
  assert (B2 : addr_of st2 (n / C) = Some a) by (by apply G).
  destruct (H2 st2 a F ltac:(lia) B2) as (st3 & I & J & L). exists st3. split_and!; [|done|].
  - unfold send_release. unfold pbnd. simpl. rewrite El, E. exact I.
  - apply (keeps_trans n st st1); [done|]. by apply (keeps_trans n st1 st2).
Qed.

(** Popping a token of a page. *)
Lemma pops_page n sg l r st a K : releases_to n (sg, l) r K -> rep st (sg, l) -> (n < length sg)%nat -> sg !! n = Some POOL_BOUNDARY \/ n = O ->
  addr_of st (n / C) = Some a -> exists st', pop' (S K) (token_at a n) st = Ret (tt, st') /\ rep st' r /\ keeps n st st'.
Proof.
  intros H Hrep Hn Hb Ha. destruct (pop_check_spec st sg l n a Hrep Hn Hb Ha) as (T1 & T2 & T3).
  destruct (H st a Hrep (Nat.lt_le_incl _ _ Hn) Ha) as (st1 & A & B & D). destruct (trim_spec _ _ _ B) as (st2 & E & F & G).
  exists st2. split_and!; [|done|intros i b Hi Hb'; by apply G, D].
  cbn [pop]. rewrite T1. pstep T2. cbv zeta. pstep T3. pstep A. exact E.
Qed.

Lemma rep_hotPage h st s : rep_hot h st s -> hotPage st = Ret (Some h, st).
Proof. intros (bs & p & es & l & <- & Hwf & -> & ->). by apply hotPage_mid. Qed.

Lemma rep_coldPage h st s : rep_hot h st s -> exists p, coldPage st = Ret (Some O, st) /\ page_at O st = Ret (p, st) /\
  addr_of st O = Some (page_addr p) /\ begin_ p = token_at (page_addr p) 0.
Proof.
  intros H. assert (exists p, pages st !! 0%nat = Some p) as [p Hp].
  { destruct H as (bs & q & es & l & _ & _ & -> & _). simpl. destruct bs; by eexists. }
  exists p. split_and!.
  - unfold coldPage. by pstep (rep_hotPage h st s H).
  - unfold page_at. by rewrite Hp.
  - unfold addr_of. by rewrite Hp.
  - unfold begin_, token_at. rewrite Nat.Div0.mod_0_l. lia.
Qed.

(** Popping any valid token. *)
Lemma pops_of_releases n s r K : drain script n s r -> releases_to n s r K -> releases_to n s r (S K) -> pops_to n s r (S (S K)).
Proof.
  intros Hd H1 H2 st token Hrep Hn Hb [[-> ->]|(a & Ha & ->)].
  - destruct s as [sg l]. cbn [pop]. rewrite Z.eqb_refl. inversion Hrep; subst; simpl in Hn; [lia| |].
    + eexists. split_and!; [reflexivity| |done]. rewrite (drain_placeholder _ _ _ Hd). constructor.
    + destruct (rep_coldPage (length bs) _ _ ltac:(by exists bs, p, es, l)) as (c & A & B & D & E). pstep A. pstep B. rewrite E.
      apply (pops_page 0 (concat (map contents bs) ++ contents p) l); [done|done|done|by right|]. by rewrite Nat.Div0.div_0_l.
  - destruct s as [sg l]. by apply (pops_page n sg l).
Qed.

Lemma eventually_pops n s r : drain script n s r -> eventually (releases_to n s r) -> eventually (pops_to n s r).
Proof.
  intros Hd [K0 H]. exists (S (S K0)). intros [|[|K]] HK; [lia..|]. apply pops_of_releases; [done|apply H; lia..].
Qed.

Lemma runs_to_autorelease x cs sg l r K : x <> 0 -> runs_to cs (sg ++ [x], l) r K -> runs_to (C_autorelease x :: cs) (sg, l) r (S K).
Proof.
  intros Hx H st Hrep. destruct (autoreleaseFast_spec st sg l x Hrep) as (tok & st1 & A & B & D & _).
  destruct (H st1 B) as (st2 & E & F & G). exists st2. split_and!; [|done|].
  - cbn [run_cmds]. assert (Ha : autorelease SIZE new_page x st = Ret (x, st1)).
    { unfold autorelease. rewrite (proj2 (Z.eqb_neq _ _)) by done. simpl. unfold pret at 1, pbnd at 1. by pstep A. }
    by pstep Ha.
  - apply (keeps_trans _ _ st1); [done|]. apply (keeps_mono (length (sg ++ [x]))); [rewrite length_app; simpl; lia|done].
Qed.

Lemma runs_to_pool body cs sg l s1 s2 r K :
  runs script body (sg ++ [POOL_BOUNDARY], l) s1 -> drain script (length sg) s1 s2 ->
  runs_to body (sg ++ [POOL_BOUNDARY], l) s1 K -> pops_to (length sg) s1 s2 K -> runs_to cs s2 r K -> runs_to (C_pool body :: cs) (sg, l) r (S K).
Proof.
  intros Hb Hd H1 H2 H3 st Hrep. destruct (autoreleaseFast_spec st sg l POOL_BOUNDARY Hrep) as (tok & st1 & A & B & D & E).
  destruct (H1 st1 B) as (st2 & F & G & I). apply (keeps_mono _ (length sg)) in I; [|simpl; rewrite length_app; lia].
  destruct (runs_extends _ _ _ _ Hb) as [t Ht]. simpl in Ht.
  destruct (H2 st2 tok G) as (st3 & J & L & M).
  { rewrite Ht, !length_app. simpl. lia. }
  { left. rewrite Ht, <- app_assoc. by apply (list_lookup_middle sg t). }
  { by apply (token_keeps _ st1). }
  assert (Hs2 : s2.1 = sg) by (rewrite (drain_takes _ _ _ _ Hd); [by rewrite Ht, <- app_assoc, take_app_length|rewrite Ht, !length_app; lia]).
  destruct (H3 st3 L) as (st4 & N & O & P). rewrite Hs2 in P.
  exists st4. split_and!; [|done|].
  - cbn [run_cmds]. unfold push. pstep A. pstep F. pstep J. exact N.
  - apply (keeps_trans _ _ st1 _ D). apply (keeps_trans _ _ st2 _ I). by apply (keeps_trans _ _ st3).
Qed.

(** With enough fuel the pages do what the stack does. *)
Lemma pages_refine :
  (forall n s r, drain script n s r -> eventually (releases_to n s r)) /\
  (forall cs s r, runs script cs s r -> eventually (runs_to cs s r)).
Proof.
  apply (drain_runs_ind script (fun n s r _ => eventually (releases_to n s r)) (fun cs s r _ => eventually (runs_to cs s r))).
  - intros n sg l <-. apply eventually_S. intros K. apply releases_done.
  - intros n sg l r Hn _ IH. revert IH. apply eventually_mp. intros K. by apply releases_boundary.
  - intros n sg x l s1 r Hx Hn Hr IH1 _ IH2. generalize (eventually_and _ _ IH1 IH2). apply eventually_mp. intros K [H1 H2].
    pose proof (runs_grows _ _ _ _ Hr). by apply (releases_object n sg x l s1).
  - intros s. apply eventually_S. intros K st Hrep. exists st. split_and!; [done|done|apply keeps_refl].
  - intros x cs sg l r Hx _ IH. revert IH. apply eventually_mp. intros K. by apply runs_to_autorelease.
  - intros body cs sg l s1 s2 r Hb IHb Hd IHd _ IHc. generalize (eventually_and _ _ IHb (eventually_and _ _ (eventually_pops _ _ _ Hd IHd) IHc)).
    apply eventually_mp. intros K (H1 & H2 & H3). by apply (runs_to_pool _ _ _ _ s1 s2).
Qed.

(** ** The end of a thread *)

Lemma kill_all st l : rep st ([], l) -> kill 0 st = Ret (tt, mk_pool [] (tls st) l).
Proof.
  intros Hrep. unfold kill. rewrite drop_0, all_empty; [by inversion Hrep|].
  inversion Hrep as [? E|? E|bs p es ? Hwf E Hsg]; subst; simpl; [done|].
  apply app_nil in Hsg as [Hbs Hp]. pose proof (below_height bs (wf_full _ _ _ Hwf)) as Hl. rewrite Hbs in Hl. simpl in Hl.
  assert (length bs = 0)%nat by nia. destruct bs; [|done]. simpl. constructor; [done|]. apply Hwf.
Qed.

(** An empty cold page means an empty stack. *)
Lemma cold_empty h st sg l p : rep_hot h st (sg, l) -> page_at O st = Ret (p, st) -> empty_ p = (length sg =? 0)%nat.
Proof.
  intros (bs & q & es & l' & _ & Hwf & -> & [= -> ->]) Hp. rewrite empty_eq, length_app, below_height by apply Hwf.
  destruct bs as [|b bs]; unfold page_at in Hp; simpl in Hp; injection Hp as <-; [done|].
  pose proof (wf_full _ _ _ Hwf) as HF. apply Forall_cons_1 in HF as [HF _]. unfold full_page in HF. rewrite HF.
  simpl length. rewrite !(proj2 (Nat.eqb_neq _ _)); [done|nia|lia].
Qed.

Lemma thread_exit_spec sg l r ps v : drain script 0 (sg, l) r -> rep (mk_pool ps v l) (sg, l) -> v <> T_placeholder ->
  eventually (fun K => tls_dealloc SIZE script new_page K v (mk_pool ps T_nil l) = Ret (tt, mk_pool [] T_nil r.2)).
Proof.
  intros Hd Hrep Hv. pose proof (drain_takes _ _ _ _ Hd ltac:(simpl; lia)) as Hr. destruct r as [sg' l']. simpl in Hr. subst sg'.
  generalize (eventually_pops _ _ _ Hd (proj1 pages_refine _ _ _ Hd)). intros [K0 HK]. exists K0. intros K Hle. specialize (HK K Hle).
  destruct v as [| |a]; [|done|].
  { inversion Hrep; subst. by injection (drain_nil _ _ _ Hd) as ->. }
  assert (exists h, rep_hot h (mk_pool ps (T_page a) l) (sg, l)) as [h Hh] by (inversion Hrep; subst; by eexists _, _, _, _, _).
  destruct (rep_coldPage _ _ _ Hh) as (c & A & B & D & E). pose proof (cold_empty _ _ _ _ _ Hh B) as Hc.
  unfold tls_dealloc. unfold set_tls at 1. unfold pbnd at 1. simpl pages. simpl released. pstep A. unfold pbnd at 1. pstep B. rewrite Hc.
  destruct (Nat.eqb_spec (length sg) 0) as [Hs|Hs]; simpl negb; cbv iota.
  - apply nil_length_inv in Hs. subst sg. injection (drain_nil _ _ _ Hd) as ->. unfold pret. unfold pbnd at 1. by rewrite (kill_all _ _ Hrep).
  - rewrite E. destruct (HK _ (token_at (page_addr c) 0) Hrep) as (st' & F & G & _); [simpl; lia|by right| |].
    { right. exists (page_addr c). by rewrite Nat.Div0.div_0_l. }
    pstep F. by rewrite (kill_all _ _ G).
Qed.

(** ** The guarantees *)

(** The sum of it for code that runs in a pool of its own. *)
Lemma pool_block rank body b st sg l : decreasing script rank -> all_below rank b body -> rep st (sg, l) ->
  exists rel, rel ≡ₚ all_autos body ++ caused script l rel /\
    eventually (fun K => exists st', run_cmds' K [C_pool body] st = Ret (tt, st') /\ rep st' (sg, rel ++ l)).
Proof.
  intros Hdec Hb Hrep.
  destruct (runs_total script rank Hdec [C_pool body] b sg l) as [r Hr]; [by split|].
  destruct (proj2 (stack_conserves script) _ _ _ Hr) as (rel & A & B). pose proof (pool_restores _ _ _ _ _ Hr) as Hsg.
  exists rel. split.
  - apply times_Permutation. intros x. specialize (B x). rewrite Hsg in B. simpl in B. unfold all_autos in B. simpl in B.
    rewrite app_nil_r in B. fold (all_autos body) in B. rewrite times_app. lia.
  - destruct r as [sg' l']. simpl in *. subst. destruct (proj2 pages_refine _ _ _ Hr) as [K0 HK]. exists K0. intros K Hle.
    destruct (HK K Hle st Hrep) as (st' & C1 & C2 & _). by exists st'.
Qed.

End Pages.

(** C8. The pages implement the stack: whatever a list of commands does to the stack of
    entries, the code does to the pages when it is given enough fuel; it returns, no
    assertion of the page code fails and no token is rejected. *)
Theorem pools_refine_stack C SIZE script new_page `{!PageAllocator SIZE new_page} st s cs r :
  (2 <= C)%nat -> SIZE = header_size + 8 * Z.of_nat C -> rep C SIZE st s -> runs script cs s r ->
  eventually (fun K => exists st', run_cmds SIZE script new_page K cs st = Ret (tt, st') /\ rep C SIZE st' r).
Proof.
  intros HC HS Hrep Hr. destruct (proj2 (pages_refine C SIZE script new_page HC HS) _ _ _ Hr) as [K0 HK].
  exists K0. intros K Hle. destruct (HK K Hle st Hrep) as (st' & A & B & _). by exists st'.
Qed.

(** C16. A pool releases what was autoreleased in it: when the objects that a release
    autoreleases are of lower rank, an [@autoreleasepool] block ends, the stack is what it was
    before, and the objects released are exactly those autoreleased in the block, by its own
    code or by the releases, as often as they were autoreleased. *)
Theorem pool_releases_its_objects C SIZE script new_page `{!PageAllocator SIZE new_page} rank body b st sg l :
  (2 <= C)%nat -> SIZE = header_size + 8 * Z.of_nat C -> decreasing script rank -> all_below rank b body -> rep C SIZE st (sg, l) ->
  exists rel, rel ≡ₚ all_autos body ++ caused script l rel /\
    eventually (fun K => exists st', run_cmds SIZE script new_page K [C_pool body] st = Ret (tt, st') /\ rep C SIZE st' (sg, rel ++ l)).
Proof. intros. by eapply pool_block. Qed.

(** The loop of [releaseUntil] that steps over empty pages makes at most one step: with
    a test in its place the code does the same, and it finds an entry to release. *)
Theorem release_loop_steps_once C SIZE st sg x l :
  (2 <= C)%nat -> SIZE = header_size + 8 * Z.of_nat C -> rep C SIZE st (sg ++ [x], l) -> pages st <> [] ->
  exists h j st1 st', hotPage st = Ret (Some h, st) /\ skip_empty h st = skip_empty_once h st /\
    skip_empty_once h st = Ret (j, st1) /\ take_last j st1 = Ret (x, st').
Proof.
  intros HC HS Hrep Hp. destruct (pages st) as [|q ps] eqn:Eq; [done|].
  destruct (round_spec C SIZE HC st sg x l 0 q Hrep) as (h & j & st1 & st' & A & B & D & E & _); [by rewrite Eq|].
  exists h, j, st1, st'. by rewrite B, D.
Qed.

(** C34. The end of a thread whose pools have pages empties them, if the releases do not autorelease
    for ever (objects have ranks that decrease): the objects that wait are released, with what
    their releases autorelease, all pages are freed and the thread-local word is cleared. *)
Theorem thread_exit_releases_all C SIZE script new_page `{!PageAllocator SIZE new_page} rank ps v sg l :
  (2 <= C)%nat -> SIZE = header_size + 8 * Z.of_nat C -> decreasing script rank ->
  rep C SIZE (mk_pool ps v l) (sg, l) -> v <> T_placeholder ->
  exists rel, rel ≡ₚ objs sg ++ caused script l rel /\
    eventually (fun K => tls_dealloc SIZE script new_page K v (mk_pool ps T_nil l) = Ret (tt, mk_pool [] T_nil (rel ++ l))).
Proof.
  intros HC HS Hdec Hrep Hv. destruct (drain_all_total script rank Hdec sg l) as [r Hd].
  destruct (proj1 (stack_conserves script) _ _ _ Hd) as (rel & A & B). pose proof (drain_takes _ _ _ _ Hd ltac:(simpl; lia)) as Hsg.
  exists rel. split.
  - apply times_Permutation. intros x. specialize (B x). rewrite Hsg in B. simpl in B. rewrite times_app. lia.
  - simpl in A. rewrite <- A. by apply (thread_exit_spec C SIZE script new_page HC HS sg l r).
Qed.
