(* ===== verification/PoolSamples.v ===== *)
(** * Sample runs of the autorelease pools

    Pools on pages of two entries, so that the stack spills over, and on pages of the real
    size.  The release of object 8 autoreleases 16 in a pool of its own and 24 outside. *)

From Stdlib Require Import ZArith Lia Bool.
From stdpp Require Import base list.
From S2P Require Import Prelude AutoreleasePool PoolStack AutoreleasePoolSpec.

Local Open Scope Z_scope.

Definition sample_script (l : list Z) : list cmd :=
  match l with 8 :: _ => [C_pool [C_autorelease 16]; C_autorelease 24] | _ => [] end.
Definition sample_rank (x : Z) : nat := if x =? 8 then 1 else 0.

(** An allocator that goes up. *)
Definition next_free (SIZE : Z) (used : list Z) : Z := SIZE * (1 + fold_right Z.max 0 used).

Lemma next_free_above used : 0 <= fold_right Z.max 0 used /\ Forall (fun a => a <= fold_right Z.max 0 used) used.
Proof.
  induction used as [|a used [IH1 IH2]]; simpl; [split; [lia|constructor]|]. split; [lia|]. constructor; [lia|].
  eapply Forall_impl; [exact IH2|]. simpl. intros; lia.
Qed.

#[export] Instance next_free_allocator (SIZE : Z) : 1 <= SIZE -> PageAllocator SIZE (next_free SIZE).
Proof.
  intros HS. split.
  - intros used. unfold next_free. rewrite Z.mul_comm. apply Z.mod_mul. lia.
  - intros used Hin. destruct (next_free_above used) as [H0 HF]. rewrite Forall_forall in HF. specialize (HF _ Hin).
    unfold next_free in HF. simpl in HF. nia.
Qed.

Lemma sample_decreasing : decreasing sample_script sample_rank.
Proof.
  intros x l Hx. unfold sample_script, sample_rank. destruct (Z.eqb_spec x 8) as [->|Hne]; [|destruct x as [|q|]; try done].
  - simpl. repeat split; lia.
  - repeat (destruct q as [q|q|]; try done).
Qed.

Definition fresh_thread : pool := mk_pool [] T_nil [].

(** Three objects and a nested pool on pages of two entries: the releases come in reverse
    order, and the objects that the release of 8 autoreleases are released in the same pop. *)
Definition sample_body : list cmd := [C_autorelease 40; C_pool [C_autorelease 48]; C_autorelease 8; C_autorelease 32].

Lemma sample_run :
  match run_cmds 72 sample_script (next_free 72) 40 [C_pool sample_body] fresh_thread with
  | Ret (_, st) => released st = [40; 24; 16; 8; 32; 48] /\ map contents (pages st) = [[]]
  | _ => False
  end.
Proof. vm_compute. done. Qed.

(** Popping a pool twice is an invalid pop, unless it is the first of the thread. *)
Lemma double_pop_faults :
  (run_cmds 72 sample_script (next_free 72) 20 [C_autorelease 40] ;; do token <- push 72 (next_free 72);
     pop 72 sample_script (next_free 72) 20 token ;; pop 72 sample_script (next_free 72) 20 token)%pool fresh_thread = Fault.
Proof. vm_compute. reflexivity. Qed.

Lemma sample_runs :
  runs sample_script [C_pool [C_autorelease 48; C_autorelease 8]] ([], []) ([], [48; 24; 16; 8]).
Proof.
  apply (runs_pool _ _ _ _ _ ([0; 48; 8], []) ([], [48; 24; 16; 8])); [repeat constructor; done| |constructor].
  apply (drain_object _ 0 [0; 48] 8 _ ([0; 48; 24], [16; 8])); [done|simpl; lia| |].
  - simpl. apply (runs_pool _ _ _ _ _ ([0; 48; 0; 16], [8]) ([0; 48], [16; 8])); [repeat constructor; done| |repeat constructor; done].
    apply (drain_object _ 2 [0; 48; 0] 16 _ ([0; 48; 0], [16; 8])); [done|simpl; lia|constructor|].
    apply (drain_boundary _ 2 [0; 48]); [simpl; lia|]. by constructor.
  - apply (drain_object _ 0 [0; 48] 24 _ ([0; 48], [24; 16; 8])); [done|simpl; lia|constructor|].
    apply (drain_object _ 0 [0] 48 _ ([0], [48; 24; 16; 8])); [done|simpl; lia|constructor|].
    apply (drain_boundary _ 0 []); [simpl; lia|]. by constructor.
Qed.

Lemma fresh_rep C SIZE : rep C SIZE fresh_thread ([], []).
Proof. constructor. Qed.

Lemma pools_refine_stack_witness :
  eventually (fun K => exists st', run_cmds 4096 sample_script (next_free 4096) K [C_pool [C_autorelease 48; C_autorelease 8]] fresh_thread = Ret (tt, st') /\
    rep 505 4096 st' ([], [48; 24; 16; 8])).
Proof.
  pose proof (next_free_allocator 4096 ltac:(lia)).
  apply (pools_refine_stack 505 4096 sample_script (next_free 4096) fresh_thread ([], [])); [lia|reflexivity|apply fresh_rep|apply sample_runs].
Defined.

Lemma pool_releases_its_objects_witness :
  exists rel, rel ≡ₚ all_autos sample_body ++ caused sample_script [] rel /\
    eventually (fun K => exists st', run_cmds 72 sample_script (next_free 72) K [C_pool sample_body] fresh_thread = Ret (tt, st') /\ rep 2 72 st' ([], rel ++ [])).
Proof.
  pose proof (next_free_allocator 72 ltac:(lia)).
  apply (pool_releases_its_objects 2 72 sample_script (next_free 72) sample_rank sample_body 2 fresh_thread [] []);
    [lia|reflexivity|apply sample_decreasing|cbv; repeat split; try lia; discriminate|apply fresh_rep].
Defined.

(** A full page and an empty hot page above it. *)
Definition spilled : pool := mk_pool [mk_page 72 [40; 8]; mk_page 144 []] (T_page 144) [].

Lemma spilled_rep : rep 2 72 spilled ([40] ++ [8], []).
Proof.
  apply (rep_pages 2 72 [mk_page 72 [40; 8]] (mk_page 144 []) []). split; simpl.
  - by repeat constructor.
  - lia.
  - constructor.
  - by repeat constructor.
  - apply (bool_decide_unpack _). by vm_compute.
Qed.

Lemma release_loop_steps_once_witness :
  exists h j st1 st', hotPage spilled = Ret (Some h, spilled) /\ skip_empty h spilled = skip_empty_once h spilled /\
    skip_empty_once h spilled = Ret (j, st1) /\ take_last j st1 = Ret (8, st').
Proof. apply (release_loop_steps_once 2 72 spilled [40] 8 []); [lia|reflexivity|apply spilled_rep|discriminate]. Defined.

Lemma thread_exit_releases_all_witness :
  exists rel, rel ≡ₚ objs [40; 8] ++ caused sample_script [] rel /\
    eventually (fun K => tls_dealloc 72 sample_script (next_free 72) K (T_page 144) (mk_pool (pages spilled) T_nil []) = Ret (tt, mk_pool [] T_nil (rel ++ []))).
Proof.
  pose proof (next_free_allocator 72 ltac:(lia)).
  apply (thread_exit_releases_all 2 72 sample_script (next_free 72) sample_rank (pages spilled) (T_page 144) [40; 8] []);
    [lia|reflexivity|apply sample_decreasing|apply spilled_rep|discriminate].
Defined.
