(* ===== verification/MethodBuckets.v ===== *)
(** * The buckets of the method caches

    objc-cache.mm and cache_t of objc-runtime-new.h: the hash table from selectors to
    implementations that every class has, and the lookup that objc_msgSend makes in it
    (the macro CacheLookup of objc-msg-arm64.s and objc-msg-x86_64.s).

    Writers hold [cacheUpdateLock]; readers take no lock.  A writer is a program of single
    stores to the shared memory ([prog]), so that readers can be interleaved with it; a
    reader is a machine that makes one load per step ([reader_step]).  The barriers of the
    code order the stores of a writer; here they happen in program order.

    An array of buckets is named by its address.  Selectors and implementations are
    addresses, and signed pointers are as good as plain ones.  objc_msgSend loads the mask
    first, then the array; the pair load of arm64 is such a pair with nothing in between, and
    loads and stores of a whole bucket there are single ("LDP/STP guarantees that all
    observers get either imp/sel or newImp/newSel").  On x86_64 an array has one more bucket, the end marker, whose selector is 1
    and whose implementation is the address of the first bucket.  Statistics
    ([PrintCaches]) are left out. *)

From Stdlib Require Import ZArith Lia Bool.
From stdpp Require Import base list gmap.
From S2P Require Import Prelude RetainCount.

Local Open Scope Z_scope.

(** ** State *)

Record bucket_t := mk_bucket { b_sel : Z; b_imp : Z }.

Record cache_t := mk_cache { _buckets : Z; _mask : Z; _occupied : Z }.

(** The arrays of buckets, the caches of the classes, and the static variables of
    objc-cache.mm. *)
Record cmem := mk_cmem {
  arrays : gmap Z (list bucket_t);
  caches : gmap Z cache_t;
  emptyBucketsList : list Z;
  garbage_refs : list Z;
  garbage_byte_size : Z }.

#[export] Instance bucket_eq_dec : EqDecision bucket_t.
Proof. solve_decision. Defined.

Definition no_bucket : bucket_t := mk_bucket 0 0.

(** The bucket at an index, when it is in the array. *)
Definition bucket_at (arr : list bucket_t) (i : Z) : option bucket_t := if i <? 0 then None else arr !! Z.to_nat i.
Definition bucket_in (m : cmem) (id i : Z) : option bucket_t := arr ← arrays m !! id; bucket_at arr i.

(** [_objc_empty_cache] *)
Definition objc_empty_cache : Z := 4096.
Definition EMPTY_BYTES : Z := (1024 + 1) * 16.
Definition INIT_CACHE_SIZE : Z := Z.shiftl 1 2.
Definition garbage_threshold : Z := 32 * 1024.

(** ** Stores *)

Inductive store :=
| S_imp (id i imp : Z)
| S_sel (id i sel : Z)
| S_bucket (id i sel imp : Z)
| S_buckets (cls id : Z)
| S_mask (cls mask : Z)
| S_occupied (cls n : Z)
| S_empties (l : list Z)
| S_garbage (refs : list Z) (bytes : Z)
| S_free (id : Z).

Definition upd_bucket (m : cmem) (id i : Z) (f : bucket_t -> bucket_t) : option cmem :=
  arr ← arrays m !! id;
  b ← bucket_at arr i;
  Some (mk_cmem (<[id := <[Z.to_nat i := f b]> arr]> (arrays m)) (caches m) (emptyBucketsList m) (garbage_refs m) (garbage_byte_size m)).

Definition upd_cache (m : cmem) (cls : Z) (f : cache_t -> cache_t) : option cmem :=
  c ← caches m !! cls;
  Some (mk_cmem (arrays m) (<[cls := f c]> (caches m)) (emptyBucketsList m) (garbage_refs m) (garbage_byte_size m)).

(** A store outside an array, or a second free, has no result. *)
Definition apply_store (e : store) (m : cmem) : option cmem :=
  match e with
  | S_imp id i imp => upd_bucket m id i (fun b => mk_bucket (b_sel b) imp)
  | S_sel id i sel => upd_bucket m id i (fun b => mk_bucket sel (b_imp b))
  | S_bucket id i sel imp => upd_bucket m id i (fun _ => mk_bucket sel imp)
  | S_buckets cls id => upd_cache m cls (fun c => mk_cache id (_mask c) (_occupied c))
  | S_mask cls mask => upd_cache m cls (fun c => mk_cache (_buckets c) mask (_occupied c))
  | S_occupied cls n => upd_cache m cls (fun c => mk_cache (_buckets c) (_mask c) n)
  | S_empties l => Some (mk_cmem (arrays m) (caches m) l (garbage_refs m) (garbage_byte_size m))
  | S_garbage refs bytes => Some (mk_cmem (arrays m) (caches m) (emptyBucketsList m) refs bytes)
  | S_free id =>
      _ ← arrays m !! id;
      Some (mk_cmem (delete id (arrays m)) (caches m) (emptyBucketsList m) (garbage_refs m) (garbage_byte_size m))
  end.

(** [calloc] of [n] buckets at a free address *)
Definition with_array (m : cmem) (id n : Z) : cmem :=
  mk_cmem (<[id := replicate (Z.to_nat n) no_bucket]> (arrays m)) (caches m) (emptyBucketsList m) (garbage_refs m) (garbage_byte_size m).

(** ** Programs of the writers *)

(** [Stuck] is a failed assertion, a fatal error or an access outside an array.  [Crit]
    asks whether a reader is in the lookup code; [Wait] waits until none is. *)
Inductive prog (A : Type) : Type :=
| Done (x : A)
| Stuck
| Get (k : cmem -> prog A)
| Put (e : store) (k : prog A)
| Alloc (n : Z) (k : Z -> prog A)
| Crit (k : bool -> prog A)
| Wait (k : prog A).
Arguments Done {A}. Arguments Stuck {A}. Arguments Get {A}. Arguments Put {A}.
Arguments Alloc {A}. Arguments Crit {A}. Arguments Wait {A}.

Fixpoint cbnd {A B} (p : prog A) (f : A -> prog B) : prog B :=
  match p with
  | Done x => f x
  | Stuck => Stuck
  | Get k => Get (fun m => cbnd (k m) f)
  | Put e k => Put e (cbnd k f)
  | Alloc n k => Alloc n (fun id => cbnd (k id) f)
  | Crit k => Crit (fun b => cbnd (k b) f)
  | Wait k => Wait (cbnd k f)
  end.

Declare Scope cache_scope.
Delimit Scope cache_scope with cache.
Notation "'do' x '<-' e ';' k" := (cbnd e (fun x => k))
  (at level 10, x name, e at level 100, k at level 200) : cache_scope.
Notation "e ;; k" := (cbnd e (fun _ => k)) (at level 100, right associativity) : cache_scope.
Local Open Scope cache_scope.

Definition put (e : store) : prog unit := Put e (Done tt).
Definition cassert (b : bool) : prog unit := if b then Done tt else Stuck.
Definition of_some {A} (o : option A) : prog A := match o with Some x => Done x | None => Stuck end.

(** A writer alone: [crit] is the answer about readers, which end their lookups when the
    writer waits for them; [place] chooses addresses. *)
Fixpoint run_prog {A} (place : cmem -> Z) (crit : bool) (p : prog A) (m : cmem) : outcome (A * cmem) :=
  match p with
  | Done x => Ret (x, m)
  | Stuck => Fault
  | Get k => run_prog place crit (k m) m
  | Put e k => match apply_store e m with Some m' => run_prog place crit k m' | None => Fault end
  | Alloc n k => let id := place m in run_prog place crit (k id) (with_array m id n)
  | Crit k => run_prog place crit (k crit) m
  | Wait k => run_prog place crit k m
  end.

(** ** Readers *)

(** Where a lookup of [sel] in the cache of [cls] is: about to load the mask; the array;
    the selector of bucket [i] (on arm64 the whole bucket); on x86_64 the selector again, to
    compare it with the end marker; the implementation, after a hit; the address of the first
    bucket, at the end marker.  [wrapped] says that the scan has come round once. *)
Inductive reader :=
| R_mask (cls sel : Z)
| R_buckets (cls sel mask : Z)
| R_sel (cls sel mask id i : Z) (wrapped : bool)
| R_end (cls sel mask id i : Z) (wrapped : bool)
| R_imp (cls sel mask id i : Z)
| R_first (cls sel mask id i : Z)
| R_done (cls sel : Z) (result : option Z).

Definition active (r : reader) : bool := match r with R_done _ _ _ => false | _ => true end.

Definition from_bucket (m : cmem) (id i : Z) (k : bucket_t -> reader) : outcome reader :=
  match bucket_in m id i with Some b => Ret (k b) | None => Fault end.

(** One load and the instructions up to the next. *)
Definition reader_step (a : arch) (m : cmem) (r : reader) : outcome reader :=
  match r with
  | R_mask cls sel =>
      match caches m !! cls with Some c => Ret (R_buckets cls sel (_mask c)) | None => Fault end
  | R_buckets cls sel mask =>
      match caches m !! cls with
      | Some c => Ret (R_sel cls sel mask (_buckets c) (Z.land (u32 sel) mask) false)
      | None => Fault
      end
  | R_sel cls sel mask id i wrapped =>
      from_bucket m id i (fun b =>
        match a with
        | arm64 =>
            if b_sel b =? sel then R_done cls sel (Some (b_imp b))
            else if b_sel b =? 0 then R_done cls sel None
            else if negb (i =? 0) then R_sel cls sel mask id (i - 1) wrapped
            else if wrapped then R_done cls sel None
            else R_sel cls sel mask id mask true
        | x86_64 =>
            if b_sel b =? sel then R_imp cls sel mask id i else R_end cls sel mask id i wrapped
        end)
  | R_end cls sel mask id i wrapped =>
      from_bucket m id i (fun b =>
        if 1 <? b_sel b then R_sel cls sel mask id (i + 1) wrapped
        else if wrapped then R_done cls sel None
        else if b_sel b <? 1 then R_done cls sel None
        else R_first cls sel mask id i)
  | R_imp cls sel mask id i => from_bucket m id i (fun b => R_done cls sel (Some (b_imp b)))
  | R_first cls sel mask id i => from_bucket m id i (fun b => R_sel cls sel mask (b_imp b) 0 true)
  | R_done _ _ _ => Ret r
  end.

Fixpoint reader_run (a : arch) (fuel : nat) (m : cmem) (r : reader) : outcome (option Z) :=
  match r with
  | R_done _ _ res => Ret res
  | _ =>
      match fuel with
      | O => OutOfFuel
      | S fuel' => obind (reader_step a m r) (reader_run a fuel' m)
      end
  end.

(** The loads of a lookup, at most: two passes, two loads for each bucket. *)
Definition lookup_fuel (m : cmem) (cls : Z) : nat :=
  match caches m !! cls with
  | Some c => match arrays m !! _buckets c with Some arr => 4 * length arr + 8 | None => 8 end
  | None => 8
  end.

(** [cache_getImp]: the lookup by the thread that holds the lock; nil is 0. *)
Definition getImp (a : arch) (m : cmem) (cls sel : Z) : outcome Z :=
  obind (reader_run a (lookup_fuel m cls) m (R_mask cls sel)) (fun res => Ret (default 0 res)).

(** ** The operations of the writers *)

Section Writer.
Context (a : arch) (isInitialized : Z -> bool).

Definition cache_hash (sel mask : Z) : Z := Z.land (u32 sel) mask.

Definition cache_next (i mask : Z) : Z :=
  match a with x86_64 => Z.land (u32 (i + 1)) mask | arm64 => if negb (i =? 0) then i - 1 else mask end.

Definition getCache (cls : Z) : prog cache_t := Get (fun m => of_some (caches m !! cls)).
Definition load_bucket (id i : Z) : prog bucket_t := Get (fun m => of_some (bucket_in m id i)).

(** [bucket_t::set]; the array of an x86_64 end marker is not yet shared *)
Definition set_bucket (id i newSel newImp : Z) : prog unit :=
  do b <- load_bucket id i;
  cassert ((b_sel b =? 0) || (b_sel b =? newSel)) ;;
  match a with
  | arm64 => put (S_bucket id i newSel newImp)
  | x86_64 =>
      put (S_imp id i newImp) ;;
      if negb (b_sel b =? newSel) then put (S_sel id i newSel) else Done tt
  end.

Definition setBucketsAndMask (cls newBuckets newMask : Z) : prog unit :=
  put (S_buckets cls newBuckets) ;;
  put (S_mask cls newMask) ;;
  put (S_occupied cls 0).

Definition capacity (c : cache_t) : Z := if negb (_mask c =? 0) then u32 (_mask c + 1) else 0.

Definition bytesForCapacity (cap : Z) : Z :=
  16 * match a with x86_64 => u32 (cap + 1) | arm64 => cap end.

Definition allocateBuckets (newCapacity : Z) : prog Z :=
  Alloc (bytesForCapacity newCapacity / 16) (fun newBuckets =>
    match a with
    | x86_64 => set_bucket newBuckets (bytesForCapacity newCapacity / 16 - 1) 1 newBuckets ;; Done newBuckets
    | arm64 => Done newBuckets
    end).

Fixpoint log2u_n (fuel : nat) (x : Z) : Z :=
  match fuel with O => 0 | S fuel' => if x <? 2 then 0 else log2u_n fuel' (Z.shiftr x 1) + 1 end.
Definition log2u (x : Z) : Z := log2u_n 32 x.

Definition emptyBucketsForCapacity (cap : Z) (allocate : bool) : prog (option Z) :=
  let bytes := bytesForCapacity cap in
  if bytes <=? EMPTY_BYTES then Done (Some objc_empty_cache)
  else
    let index := log2u cap in
    Get (fun m =>
      let count := Z.of_nat (length (emptyBucketsList m)) in
      if count <=? index then
        if negb allocate then Done None
        else
          let newListCount := index + 1 in
          Alloc (bytes / 16) (fun newBuckets =>
            put (S_empties (emptyBucketsList m ++ replicate (Z.to_nat (newListCount - count)) newBuckets)) ;;
            Done (Some newBuckets))
      else Done (emptyBucketsList m !! Z.to_nat index)).

Definition isConstantEmptyCache (cls : Z) : prog bool :=
  do c <- getCache cls;
  if negb (_occupied c =? 0) then Done false
  else
    do e <- emptyBucketsForCapacity (capacity c) false;
    Done (match e with Some id => _buckets c =? id | None => _buckets c =? 0 end).

Definition canBeFreed (cls : Z) : prog bool := do b <- isConstantEmptyCache cls; Done (negb b).

(** The table of garbage has room: [_garbage_make_room] doubles it when it is full. *)
Definition cache_collect_free (data cap : Z) : prog unit :=
  Get (fun m => put (S_garbage (garbage_refs m ++ [data]) (garbage_byte_size m + bytesForCapacity cap))).

(** The loop over the garbage, the last first. *)
Fixpoint free_garbage (refs : list Z) (n : nat) : prog unit :=
  match n with
  | O => Done tt
  | S n' =>
      match refs !! n' with
      | None => Stuck
      | Some dead => Get (fun m => put (S_garbage (take n' refs) (garbage_byte_size m)) ;; put (S_free dead) ;; free_garbage refs n')
      end
  end.

Definition dispose_garbage : prog unit :=
  Get (fun m => free_garbage (garbage_refs m) (length (garbage_refs m)) ;; put (S_garbage [] 0)).

Definition cache_collect (collectALot : bool) : prog unit :=
  Get (fun m =>
    if (garbage_byte_size m <? garbage_threshold) && negb collectALot then Done tt
    else if negb collectALot then Crit (fun busy => if busy : bool then Done tt else dispose_garbage)
    else Wait dispose_garbage).

Definition reallocate (cls oldCapacity newCapacity : Z) : prog unit :=
  do freeOld <- canBeFreed cls;
  do c <- getCache cls;
  do newBuckets <- allocateBuckets newCapacity;
  cassert (0 <? newCapacity) ;;
  setBucketsAndMask cls newBuckets (u32 (newCapacity - 1)) ;;
  if freeOld : bool then cache_collect_free (_buckets c) oldCapacity ;; cache_collect false else Done tt.

(** The loop of [find]: the index of the bucket, or a corrupted cache. *)
Fixpoint find_from (fuel : nat) (id mask begin sel i : Z) : prog Z :=
  match fuel with
  | O => Stuck
  | S fuel' =>
      do b <- load_bucket id i;
      if (b_sel b =? 0) || (b_sel b =? sel) then Done i
      else
        let i' := cache_next i mask in
        if i' =? begin then Stuck else find_from fuel' id mask begin sel i'
  end.

Definition find (cls sel : Z) : prog Z :=
  cassert (negb (sel =? 0)) ;;
  do c <- getCache cls;
  let begin := cache_hash sel (_mask c) in
  find_from (Z.to_nat (_mask c + 1)) (_buckets c) (_mask c) begin sel begin.

Definition expand (cls : Z) : prog unit :=
  do c <- getCache cls;
  let oldCapacity := capacity c in
  let newCapacity := if negb (oldCapacity =? 0) then u32 (oldCapacity * 2) else INIT_CACHE_SIZE in
  let newCapacity := if negb (u32 newCapacity =? newCapacity) then oldCapacity else newCapacity in
  reallocate cls oldCapacity newCapacity.

Definition cache_getImp (cls sel : Z) : prog Z := Get (fun m => match getImp a m cls sel with Ret i => Done i | _ => Stuck end).

(** What makes room for one more entry. *)
Definition make_room (cls : Z) : prog unit :=
  do c <- getCache cls;
  let newOccupied := u32 (_occupied c + 1) in
  let cap := capacity c in
  do constant <- isConstantEmptyCache cls;
  if constant : bool then reallocate cls cap (if negb (cap =? 0) then cap else INIT_CACHE_SIZE)
  else if newOccupied <=? cap / 4 * 3 then Done tt
  else expand cls.

Definition cache_fill_nolock (cls sel imp : Z) : prog unit :=
  if negb (isInitialized cls) then Done tt
  else
    do cached <- cache_getImp cls sel;
    if negb (cached =? 0) then Done tt
    else
      make_room cls ;;
      do i <- find cls sel;
      do c <- getCache cls;
      do b <- load_bucket (_buckets c) i;
      (if b_sel b =? 0 then put (S_occupied cls (u32 (_occupied c + 1))) else Done tt) ;;
      set_bucket (_buckets c) i sel imp.

Definition cache_erase_nolock (cls : Z) : prog unit :=
  do c <- getCache cls;
  let cap := capacity c in
  if (0 <? cap) && (0 <? _occupied c) then
    do e <- emptyBucketsForCapacity cap true;
    do buckets <- of_some e;
    setBucketsAndMask cls buckets (u32 (cap - 1)) ;;
    cache_collect_free (_buckets c) cap ;;
    cache_collect false
  else Done tt.

(** [cache_delete], without the statistics: the array of a class that goes away *)
Definition cache_delete (cls : Z) : prog unit :=
  do free <- canBeFreed cls;
  do c <- getCache cls;
  if free : bool then put (S_free (_buckets c)) else Done tt.

(** [flushCaches], given the classes it goes over *)
Fixpoint flushCaches (classes : list Z) : prog unit :=
  match classes with [] => Done tt | cls :: rest => cache_erase_nolock cls ;; flushCaches rest end.

End Writer.

(** [initializeToEmpty] *)
Definition empty_cache : cache_t := mk_cache objc_empty_cache 0 0.

(** The memory before any message is sent. *)
Definition initial_cmem (classes : list Z) : cmem :=
  mk_cmem {[objc_empty_cache := replicate (Z.to_nat (EMPTY_BYTES / 16)) no_bucket]}
    (list_to_map (map (fun cls => (cls, empty_cache)) classes)) [] [] 0.
