(* ===== verification/CacheReaders.v ===== *)
(** * Readers of the method caches

    objc_msgSend reads the caches while a writer changes them.  [inv] is what holds of the
    shared memory between any two stores of a writer, [guar] what a store leaves alone; a
    reader that is interleaved with such stores in any way only reads buckets of live arrays
    and only finds what was filled in.  [wp] asks this of every store of a program of a
    writer. *)

From Stdlib Require Import ZArith Lia Bool.
From stdpp Require Import base list gmap.
From S2P Require Import Prelude RetainCount MethodBuckets.

Local Open Scope Z_scope.

(** What the proofs know beyond the memory: the arrays that no reader can reach any more,
    and the class that an array was made for; the shared empty arrays have none. *)
Record ghost := mk_ghost { doomed : gset Z; own : gmap Z Z }.

(** A new array leaves the doomed ones. *)
Definition owner_new (o : option Z) (id : Z) (w : gmap Z Z) : gmap Z Z :=
  match o with Some cls => <[id := cls]> w | None => delete id w end.
Definition galloc (g : ghost) (id : Z) (o : option Z) : ghost := mk_ghost (doomed g ∖ {[id]}) (owner_new o id (own g)).

Lemma own_galloc g id o : own (galloc g id o) !! id = o.
Proof. simpl. unfold owner_new. destruct o; [apply lookup_insert_eq|apply lookup_delete_eq]. Qed.
Lemma own_galloc_ne g id id' o : id <> id' -> own (galloc g id o) !! id' = own g !! id'.
Proof. intros H. simpl. unfold owner_new. destruct o; [by rewrite lookup_insert_ne|by rewrite lookup_delete_ne]. Qed.

Section Invariant.
Context (a : arch) (H : Z -> Z -> Z -> Prop).

Definition end_marker (id : Z) : bucket_t := mk_bucket 1 id.

(** The buckets that a mask can address, without the end marker. *)
Definition slots (arr : list bucket_t) : Z := Z.of_nat (length arr) - match a with x86_64 => 1 | arm64 => 0 end.

(** A bucket of an array of a class is free, or was filled for the class, or is the end
    marker. *)
Definition bucket_ok (o : option Z) (id : Z) (len : nat) (j : nat) (b : bucket_t) : Prop :=
  match o with
  | None => b = no_bucket
  | Some cls =>
      b_sel b = 0 \/ (1 < b_sel b /\ H cls (b_sel b) (b_imp b) /\ (a = x86_64 -> (S j < len)%nat)) \/
      (a = x86_64 /\ (S j = len)%nat /\ b = end_marker id)
  end.

Definition array_ok (g : ghost) (id : Z) (arr : list bucket_t) : Prop :=
  forall j b, arr !! j = Some b -> bucket_ok (own g !! id) id (length arr) j b.

(** An array that a reader of a class with a mask may scan. *)
Definition usable (g : ghost) (id : Z) (arr : list bucket_t) (mask cls : Z) : Prop :=
  mask < slots arr /\
  (own g !! id = None \/ own g !! id = Some cls /\ (a = x86_64 -> last arr = Some (end_marker id))).

Record inv (g : ghost) (m : cmem) : Prop := {
  inv_arrays : forall id arr, arrays m !! id = Some arr -> array_ok g id arr;
  inv_caches : forall cls c, caches m !! cls = Some c ->
    0 <= _mask c /\ (_buckets c ∉ doomed g) /\ exists arr, arrays m !! _buckets c = Some arr /\ usable g (_buckets c) arr (_mask c) cls;
}.

(** Buckets in use stay as they are. *)
Definition grows (arr arr' : list bucket_t) : Prop :=
  length arr' = length arr /\ forall j b, arr !! j = Some b -> b_sel b <> 0 -> arr' !! j = Some b.

Record guar (g : ghost) (m m' : cmem) : Prop := {
  guar_arrays : forall id arr, arrays m !! id = Some arr -> id ∉ doomed g -> exists arr', arrays m' !! id = Some arr' /\ grows arr arr';
  guar_caches : forall cls c, caches m !! cls = Some c -> exists c', caches m' !! cls = Some c' /\ _mask c <= _mask c';
}.

Lemma grows_refl arr : grows arr arr.
Proof. by split. Qed.

Lemma usable_grows g id arr arr' mask cls : grows arr arr' -> usable g id arr mask cls -> usable g id arr' mask cls.
Proof.
  intros [Hl Hg] [H1 H2]. split; [unfold slots in *; lia|]. destruct H2 as [H2|[H2 H3]]; [by left|right]. split; [done|].
  intros Ha. specialize (H3 Ha). rewrite last_lookup in *. rewrite Hl. by apply Hg.
Qed.

Lemma usable_mono g id arr mask mask' cls : mask' <= mask -> usable g id arr mask cls -> usable g id arr mask' cls.
Proof. intros Hm [H1 H2]. split; [lia|done]. Qed.

(** ** What holds of a reader *)

(** It scans an array that stays, at a bucket of the array. *)
Definition scans (g : ghost) (m : cmem) (cls mask id i : Z) : Prop :=
  (id ∉ doomed g) /\ 0 <= mask /\ exists arr, arrays m !! id = Some arr /\ usable g id arr mask cls /\ 0 <= i < Z.of_nat (length arr).

Definition reader_ok (g : ghost) (m : cmem) (r : reader) : Prop :=
  match r with
  | R_mask cls sel => 1 < sel /\ is_Some (caches m !! cls)
  | R_buckets cls sel mask => 1 < sel /\ 0 <= mask /\ exists c, caches m !! cls = Some c /\ mask <= _mask c
  | R_sel cls sel mask id i wrapped => 1 < sel /\ scans g m cls mask id i
  | R_end cls sel mask id i wrapped => 1 < sel /\ a = x86_64 /\ scans g m cls mask id i
  | R_imp cls sel mask id i => 1 < sel /\ scans g m cls mask id i /\ exists b, bucket_in m id i = Some b /\ b_sel b = sel
  | R_first cls sel mask id i => 1 < sel /\ scans g m cls mask id i /\ bucket_in m id i = Some (end_marker id)
  | R_done cls sel None => True
  | R_done cls sel (Some imp) => H cls sel imp
  end.

Lemma bucket_at_Some arr i : 0 <= i < Z.of_nat (length arr) -> exists b, bucket_at arr i = Some b /\ arr !! Z.to_nat i = Some b.
Proof.
  intros Hi. unfold bucket_at. rewrite (proj2 (Z.ltb_ge _ _)) by lia.
  destruct (lookup_lt_is_Some_2 arr (Z.to_nat i)) as [b Hb]; [lia|]. by exists b.
Qed.

(** A scanned bucket: free, filled for the class, or the end marker. *)
Lemma scans_bucket g m cls mask id i : inv g m -> scans g m cls mask id i ->
  exists arr b, arrays m !! id = Some arr /\ bucket_in m id i = Some b /\
    (b_sel b = 0 \/ (1 < b_sel b /\ H cls (b_sel b) (b_imp b) /\ (a = x86_64 -> i + 1 < Z.of_nat (length arr))) \/
     (a = x86_64 /\ b = end_marker id)).
Proof.
  intros Hinv (Hd & Hm & arr & Harr & Hu & Hi). destruct (bucket_at_Some arr i Hi) as (b & Hb & Hb').
  exists arr, b. split; [done|]. split; [unfold bucket_in; by rewrite Harr|].
  pose proof (inv_arrays _ _ Hinv id arr Harr _ _ Hb') as Hok. destruct Hu as [_ [Ho|[Ho _]]]; rewrite Ho in Hok; simpl in Hok.
  - left. by rewrite Hok.
  - destruct Hok as [?|[(H1 & H2 & H3)|(H1 & H2 & H3)]]; [by left|right; left|by right; right]. split_and!; [done|done|].
    intros Ha. specialize (H3 Ha). lia.
Qed.

Lemma scans_at g m cls mask id i i' arr : scans g m cls mask id i -> arrays m !! id = Some arr -> 0 <= i' < Z.of_nat (length arr) -> scans g m cls mask id i'.
Proof. intros (Hd & Hm & arr' & Harr & Hu & _) Harr' Hi. split; [done|]. split; [done|]. exists arr. split; [done|]. split; [congruence|done]. Qed.

Lemma land_mask_bounds x mask : 0 <= x -> 0 <= mask -> 0 <= Z.land x mask <= mask.
Proof.
  intros Hx Hm. split; [apply Z.land_nonneg; by left|].
  pose proof (N.land_le_r (Z.to_N x) (Z.to_N mask)) as Hl. apply N2Z.inj_le in Hl. by rewrite N2Z.inj_land, !Z2N.id in Hl.
Qed.

Lemma slots_length arr : slots arr <= Z.of_nat (length arr).
Proof. unfold slots. destruct a; lia. Qed.

Lemma R_buckets_ok g m cls sel mask : inv g m -> reader_ok g m (R_buckets cls sel mask) ->
  exists r', reader_step a m (R_buckets cls sel mask) = Ret r' /\ reader_ok g m r'.
Proof.
  intros Hinv (Hs & Hm & c & Hc & Hle). simpl. rewrite Hc. eexists. split; [done|]. split; [done|].
  destruct (inv_caches _ _ Hinv cls c Hc) as (_ & Hd & arr & Harr & Hu). split; [done|]. split; [done|]. exists arr. split; [done|].
  split; [by apply (usable_mono _ _ _ (_mask c))|]. destruct Hu as [Hu _]. pose proof (slots_length arr).
  pose proof (land_mask_bounds (u32 sel) mask (proj1 (wrap_range 32 sel ltac:(lia))) Hm). lia.
Qed.

(** Loading a bucket. *)
Ltac load_bucket_step Hinv Hsc :=
  let arr := fresh "arr" in let b := fresh "b" in let Harr := fresh "Harr" in let Hb := fresh "Hb" in let Hc := fresh "Hcase" in
  destruct (scans_bucket _ _ _ _ _ _ Hinv Hsc) as (arr & b & Harr & Hb & Hc);
  unfold reader_step, from_bucket; rewrite Hb; eexists; (split; [reflexivity|]); cbv beta.

Lemma R_sel_arm64_ok g m cls sel mask id i w : a = arm64 -> inv g m -> 1 < sel -> scans g m cls mask id i ->
  exists r', reader_step a m (R_sel cls sel mask id i w) = Ret r' /\ reader_ok g m r'.
Proof.
  intros Ha Hinv Hs Hsc. load_bucket_step Hinv Hsc. rewrite Ha.
  assert (Hi : 0 <= i < Z.of_nat (length arr)) by (destruct Hsc as (_ & _ & arr' & Harr' & _ & Hi); congruence).
  destruct (Z.eqb_spec (b_sel b) sel) as [E|E].
  { simpl. destruct Hcase as [?|[(_ & HH & _)|(? & _)]]; [lia| |congruence]. by rewrite E in HH. }
  destruct (Z.eqb_spec (b_sel b) 0); [done|]. destruct (Z.eqb_spec i 0); simpl negb; cbv iota.
  - destruct w; [done|]. split; [done|]. apply (scans_at _ _ _ _ _ _ _ arr Hsc Harr).
    destruct Hsc as (_ & Hm & arr' & Harr' & [Hu _] & _). assert (arr' = arr) as -> by congruence. pose proof (slots_length arr). lia.
  - split; [done|]. apply (scans_at _ _ _ _ _ _ _ arr Hsc Harr). lia.
Qed.

Lemma R_sel_x86_64_ok g m cls sel mask id i w : a = x86_64 -> inv g m -> 1 < sel -> scans g m cls mask id i ->
  exists r', reader_step a m (R_sel cls sel mask id i w) = Ret r' /\ reader_ok g m r'.
Proof.
  intros Ha Hinv Hs Hsc. load_bucket_step Hinv Hsc. rewrite Ha. destruct (Z.eqb_spec (b_sel b) sel) as [E|E]; simpl; eauto.
Qed.

Lemma R_end_ok g m cls sel mask id i w : a = x86_64 -> inv g m -> 1 < sel -> scans g m cls mask id i ->
  exists r', reader_step a m (R_end cls sel mask id i w) = Ret r' /\ reader_ok g m r'.
Proof.
  intros Ha Hinv Hs Hsc. load_bucket_step Hinv Hsc. destruct (Z.ltb_spec 1 (b_sel b)) as [E|E].
  - split; [done|]. apply (scans_at _ _ _ _ _ _ _ arr Hsc Harr).
    destruct Hsc as (_ & _ & arr' & Harr' & _ & Hi). assert (arr' = arr) as -> by congruence.
    destruct Hcase as [?|[(_ & _ & Hl)|(_ & ->)]]; [lia|specialize (Hl Ha); lia|simpl in E; lia].
  - destruct w; [done|]. destruct (Z.ltb_spec (b_sel b) 1); [done|]. split; [done|]. split; [done|].
    destruct Hcase as [?|[(? & _)|(_ & ->)]]; [lia|lia|done].
Qed.

(** A step of a reader never fails and keeps what holds of it. *)
Lemma reader_step_ok g m r : inv g m -> reader_ok g m r -> exists r', reader_step a m r = Ret r' /\ reader_ok g m r'.
Proof.
  intros Hinv Hr. destruct r as [cls sel|cls sel mask|cls sel mask id i w|cls sel mask id i w|cls sel mask id i|cls sel mask id i|cls sel res].
  - destruct Hr as [Hs [c Hc]]. simpl. rewrite Hc. eexists. split; [done|]. pose proof (inv_caches _ _ Hinv cls c Hc) as (Hm & _). split_and!; [done|done|]. by exists c.
  - by apply R_buckets_ok.
  - destruct Hr as [Hs Hsc]. destruct (decide (a = arm64)) as [Ha|Ha]; [by apply R_sel_arm64_ok|apply R_sel_x86_64_ok; [by destruct a|done..]].
  - destruct Hr as (Hs & Ha & Hsc). by apply R_end_ok.
  - destruct Hr as (Hs & Hsc & b' & Hb' & Es). load_bucket_step Hinv Hsc. simpl. assert (b' = b) as -> by congruence.
    destruct Hcase as [?|[(_ & HH & _)|(_ & ->)]]; [lia|by rewrite Es in HH|simpl in Es; lia].
  - destruct Hr as (Hs & Hsc & Hb'). load_bucket_step Hinv Hsc. assert (b = end_marker id) as -> by congruence. split; [done|].
    apply (scans_at _ _ _ _ _ _ _ arr Hsc Harr). destruct Hsc as (_ & _ & arr' & Harr' & _ & Hi). assert (arr' = arr) as -> by congruence. lia.
  - by exists (R_done cls sel res).
Qed.

(** ** Readers and stores *)

Lemma scans_guar g m m' cls mask id i : guar g m m' -> scans g m cls mask id i -> scans g m' cls mask id i.
Proof.
  intros Hg (Hd & Hm & arr & Harr & Hu & Hi). destruct (guar_arrays _ _ _ Hg id arr Harr Hd) as (arr' & Harr' & Hgr).
  split; [done|]. split; [done|]. exists arr'. split; [done|]. split; [by apply (usable_grows _ _ arr)|]. destruct Hgr as [Hl _]. lia.
Qed.

Lemma bucket_in_guar g m m' id i b : guar g m m' -> id ∉ doomed g -> bucket_in m id i = Some b -> b_sel b <> 0 -> bucket_in m' id i = Some b.
Proof.
  intros Hg Hd. unfold bucket_in, bucket_at. destruct (arrays m !! id) as [arr|] eqn:Harr; simpl; [|done].
  destruct (guar_arrays _ _ _ Hg id arr Harr Hd) as (arr' & Harr' & _ & Hgr). rewrite Harr'. simpl. destruct (i <? 0); [done|]. intros Hb Hs. by apply Hgr.
Qed.

(** What holds of a reader survives the stores of a writer. *)
Lemma reader_ok_guar g m m' r : guar g m m' -> reader_ok g m r -> reader_ok g m' r.
Proof.
  intros Hg. destruct r as [cls sel|cls sel mask|cls sel mask id i w|cls sel mask id i w|cls sel mask id i|cls sel mask id i|cls sel res]; simpl.
  - intros [Hs [c Hc]]. split; [done|]. destruct (guar_caches _ _ _ Hg cls c Hc) as (c' & Hc' & _). by exists c'.
  - intros (Hs & Hm & c & Hc & Hle). split; [done|]. split; [done|]. destruct (guar_caches _ _ _ Hg cls c Hc) as (c' & Hc' & Hle'). exists c'. split; [done|lia].
  - intros [Hs Hsc]. split; [done|]. by apply (scans_guar _ m).
  - intros (Hs & Ha & Hsc). split_and!; [done|done|]. by apply (scans_guar _ m).
  - intros (Hs & Hsc & b & Hb & E). split_and!; [done|by apply (scans_guar _ m)|]. exists b. split; [|done].
    apply (bucket_in_guar g m); [done|apply Hsc|done|lia].
  - intros (Hs & Hsc & Hb). split_and!; [done|by apply (scans_guar _ m)|]. apply (bucket_in_guar g m); [done|apply Hsc|done|done].
  - done.
Qed.

(** A new array. *)
Lemma inv_alloc g m id n o : inv g m -> arrays m !! id = None -> inv (galloc g id o) (with_array m id n).
Proof.
  intros Hinv Hf. split.
  - intros id' arr. simpl. destruct (decide (id = id')) as [<-|Hne].
    + rewrite lookup_insert_eq. intros [= <-] j b Hb. apply lookup_replicate in Hb as [-> _]. rewrite own_galloc. destruct o; simpl; [by left|done].
    + rewrite lookup_insert_ne by done. intros Harr. unfold array_ok. rewrite own_galloc_ne by done. by apply (inv_arrays _ _ Hinv).
  - intros cls c Hc. destruct (inv_caches _ _ Hinv cls c Hc) as (Hm & Hd & arr & Harr & Hu). split; [done|].
    assert (id <> _buckets c) by congruence. split; [simpl; set_solver|]. exists arr. simpl. rewrite lookup_insert_ne by done. split; [done|].
    unfold usable. by rewrite own_galloc_ne.
Qed.

Lemma scans_alloc g m id n o cls mask id' i : arrays m !! id = None -> scans g m cls mask id' i -> scans (galloc g id o) (with_array m id n) cls mask id' i.
Proof.
  intros Hf (Hd & Hm & arr & Harr & Hu & Hi). assert (id <> id') by congruence. split; [simpl; set_solver|]. split; [done|].
  exists arr. simpl. rewrite lookup_insert_ne by done. split; [done|]. unfold usable. by rewrite own_galloc_ne.
Qed.

Lemma reader_ok_alloc g m id n o r : arrays m !! id = None -> reader_ok g m r -> reader_ok (galloc g id o) (with_array m id n) r.
Proof.
  intros Hf. assert (Hb : forall id' i b, bucket_in m id' i = Some b -> bucket_in (with_array m id n) id' i = Some b).
  { intros id' i b. unfold bucket_in. simpl. destruct (decide (id = id')) as [<-|Hne]; [by rewrite Hf|by rewrite lookup_insert_ne]. }
  destruct r; simpl; try done.
  - intros [? ?]. split; [done|by apply scans_alloc].
  - intros (? & ? & ?). split_and!; [done|done|by apply scans_alloc].
  - intros (? & ? & b & ? & ?). split_and!; [done|by apply scans_alloc|exists b; auto].
  - intros (? & ? & ?). split_and!; [done|by apply scans_alloc|auto].
Qed.

(** ** Programs of writers *)

(** Every store of the program keeps [inv] and is a [guar]; the program does not get stuck
    and ends in [Q].  When it has learnt that there are no readers, what was garbage is
    doomed. *)
Fixpoint wp {A} (p : prog A) (g : ghost) (m : cmem) (Q : A -> ghost -> cmem -> Prop) : Prop :=
  match p with
  | Done x => Q x g m
  | Stuck => False
  | Get k => wp (k m) g m Q
  | Put e k => exists m', apply_store e m = Some m' /\ inv g m' /\ guar g m m' /\ wp k g m' Q
  | Alloc n k => forall id, arrays m !! id = None -> id <> 0 -> exists o, wp (k id) (galloc g id o) (with_array m id n) Q
  | Crit k =>
      wp (k true) g m Q /\
      (inv (mk_ghost (list_to_set (garbage_refs m)) (own g)) m /\ wp (k false) (mk_ghost (list_to_set (garbage_refs m)) (own g)) m Q)
  | Wait k =>
      inv (mk_ghost (list_to_set (garbage_refs m)) (own g)) m /\ wp k (mk_ghost (list_to_set (garbage_refs m)) (own g)) m Q
  end.

Lemma wp_mono {A} (p : prog A) g m (Q Q' : A -> ghost -> cmem -> Prop) :
  wp p g m Q -> (forall x g' m', Q x g' m' -> Q' x g' m') -> wp p g m Q'.
Proof.
  intros Hp HQ. revert g m Hp. induction p as [x| |k IH|e k IH|n k IH|k IH|k IH]; simpl; intros g m.
  - apply HQ.
  - done.
  - apply IH.
  - intros (m' & ? & ? & ? & ?). exists m'. eauto 6.
  - intros Hp id Hf Hz. destruct (Hp id Hf Hz) as [o Ho]. exists o. by apply IH.
  - intros (? & ? & ?). eauto 6.
  - intros (? & ?). eauto.
Qed.

Lemma wp_bind {A B} (p : prog A) (f : A -> prog B) g m Q : wp p g m (fun x g' m' => wp (f x) g' m' Q) -> wp (cbnd p f) g m Q.
Proof.
  revert g m. induction p as [x| |k IH|e k IH|n k IH|k IH|k IH]; simpl; intros g m.
  - done.
  - done.
  - apply IH.
  - intros (m' & ? & ? & ? & ?). exists m'. eauto 6.
  - intros Hp id Hf Hz. destruct (Hp id Hf Hz) as [o Ho]. exists o. by apply IH.
  - intros (? & ? & ?). eauto 6.
  - intros (? & ?). eauto.
Qed.

Lemma wp_seq {A B} (p : prog A) (f : A -> prog B) g m Q P :
  wp p g m P -> (forall x g' m', P x g' m' -> wp (f x) g' m' Q) -> wp (cbnd p f) g m Q.
Proof. intros Hp Hf. apply wp_bind. by apply (wp_mono p g m P). Qed.

Lemma wp_get {A} (k : cmem -> prog A) g m Q : wp (k m) g m Q -> wp (Get k) g m Q.
Proof. done. Qed.
Lemma wp_alloc {A} n (k : Z -> prog A) o g m Q :
  (forall id, arrays m !! id = None -> id <> 0 -> wp (k id) (galloc g id o) (with_array m id n) Q) -> wp (Alloc n k) g m Q.
Proof. intros Hk id H1 H2. exists o. by apply Hk. Qed.
Lemma wp_load_bucket id i b g m (Q : bucket_t -> ghost -> cmem -> Prop) : bucket_in m id i = Some b -> Q b g m -> wp (load_bucket id i) g m Q.
Proof. intros Hb HQ. simpl. by rewrite Hb. Qed.
Lemma wp_getCache cls c g m (Q : cache_t -> ghost -> cmem -> Prop) : caches m !! cls = Some c -> Q c g m -> wp (getCache cls) g m Q.
Proof. intros Hc HQ. simpl. by rewrite Hc. Qed.
Lemma wp_cassert b g m (Q : unit -> ghost -> cmem -> Prop) : b = true -> Q tt g m -> wp (cassert b) g m Q.
Proof. by intros ->. Qed.

(** A program that is run alone ends in [Q], wherever it allocates. *)
Lemma wp_run {A} place crit (p : prog A) g m Q :
  (forall m, arrays m !! place m = None /\ place m <> 0) -> wp p g m Q ->
  exists x g' m', run_prog place crit p m = Ret (x, m') /\ Q x g' m'.
Proof.
  intros Hplace Hp. revert g m Hp. induction p as [x| |k IH|e k IH|n k IH|k IH|k IH]; simpl; intros g m.
  - intros HQ. by exists x, g, m.
  - done.
  - apply IH.
  - intros (m' & He & _ & _ & Hk). rewrite He. by apply (IH g).
  - intros Hp. destruct (Hplace m) as [H1 H2]. destruct (Hp (place m) H1 H2) as [o Ho]. by apply (IH _ _ _ Ho).
  - intros (Ht & _ & Hk). destruct crit; [by apply (IH _ _ _ Ht)|by apply (IH _ _ _ Hk)].
  - intros (_ & Hk). by apply (IH _ _ Hk).
Qed.

End Invariant.

(** More may have been filled in. *)
Lemma inv_history a (H H' : Z -> Z -> Z -> Prop) g m : (forall c s i, H c s i -> H' c s i) -> inv a H g m -> inv a H' g m.
Proof.
  intros HH [H1 H2]. split; [|done]. intros id arr Harr j b Hb. specialize (H1 id arr Harr j b Hb).
  unfold bucket_ok in *. destruct (own g !! id); [|done]. naive_solver.
Qed.

Lemma reader_ok_history a (H H' : Z -> Z -> Z -> Prop) g m r : (forall c s i, H c s i -> H' c s i) -> reader_ok a H g m r -> reader_ok a H' g m r.
Proof. intros HH. destruct r as [| | | | | |cls sel [imp|]]; simpl; try done. apply HH. Qed.
