(* ===== verification/CacheTable.v ===== *)
(** * The order of the buckets

    Linear probing in an array of buckets without removals, down on arm64 and up on x86_64:
    [find] reaches the bucket of a selector or a free one, and the lookup of objc_msgSend,
    which wraps at the end of the array on its own, finds the same. *)

From Stdlib Require Import ZArith Lia Bool.
From stdpp Require Import base list gmap.
From S2P Require Import Prelude RetainCount Probing MethodBuckets CacheReaders.

Local Open Scope Z_scope.

(** The least number with a property. *)
Lemma least_below (P : Z -> bool) n : (exists j, 0 <= j < n /\ P j = true) ->
  exists j, 0 <= j < n /\ P j = true /\ forall j', 0 <= j' < j -> P j' = false.
Proof.
  intros (j0 & Hj0 & HP). assert (Hnn : 0 <= j0) by lia. revert HP Hj0. pattern j0. apply Z_lt_induction; [|done]. clear j0 Hnn. intros j IH HP Hj.
  destruct (decide (Exists (fun i => P i = true) (seqZ 0 j))) as [He|He].
  - apply Exists_exists in He as (i & Hi & HPi). apply elem_of_seqZ in Hi. apply (IH i); [lia|done|lia].
  - exists j. split_and!; [lia|lia|done|]. intros j' Hj'. destruct (P j') eqn:E; [|done]. exfalso. apply He.
    apply Exists_exists. exists j'. split; [|done]. apply elem_of_seqZ. lia.
Qed.

Section Table.
Context (a : arch).

(** The [j]-th bucket that a search from [begin] looks at. *)
Definition probe (begin cap j : Z) : Z := match a with arm64 => (begin - j) mod cap | x86_64 => (begin + j) mod cap end.

Lemma probe_range b cap j : 0 < cap -> 0 <= probe b cap j < cap.
Proof. intros H. unfold probe. destruct a; by apply Z.mod_pos_bound. Qed.

Lemma probe_0 b cap : 0 <= b < cap -> probe b cap 0 = b.
Proof. intros H. unfold probe. destruct a; [rewrite Z.sub_0_r|rewrite Z.add_0_r]; by apply Z.mod_small. Qed.

Lemma probe_onto b cap i : 0 <= i < cap -> exists j, 0 <= j < cap /\ probe b cap j = i.
Proof.
  intros Hi. unfold probe. destruct a; [exists ((b - i) mod cap)|exists ((i - b) mod cap)]; (split; [apply Z.mod_pos_bound; lia|]).
  - rewrite Zminus_mod_idemp_r. replace (b - (b - i)) with i by lia. by apply Z.mod_small.
  - rewrite Zplus_mod_idemp_r. replace (b + (i - b)) with i by lia. by apply Z.mod_small.
Qed.

Lemma small_multiple n q d : n * q = d -> - n < d < n -> d = 0.
Proof. intros H1 H2. destruct (Z.lt_trichotomy q 0) as [?|[->|?]]; nia. Qed.

Lemma probe_inj b cap j j' : 0 <= j < cap -> 0 <= j' < cap -> probe b cap j = probe b cap j' -> j = j'.
Proof.
  intros Hj Hj' He. unfold probe in He. pose proof (Z.div_mod (b - j) cap ltac:(lia)). pose proof (Z.div_mod (b - j') cap ltac:(lia)).
  pose proof (Z.div_mod (b + j) cap ltac:(lia)). pose proof (Z.div_mod (b + j') cap ltac:(lia)).
  destruct a; [pose proof (small_multiple cap ((b - j) / cap - (b - j') / cap) (j' - j))|pose proof (small_multiple cap ((b + j) / cap - (b + j') / cap) (j - j'))]; lia.
Qed.

Lemma mod_pred x n : 0 < n -> (x - 1) mod n = if x mod n =? 0 then n - 1 else x mod n - 1.
Proof.
  intros Hn. pose proof (Z.mod_pos_bound x n Hn). pose proof (Z.div_mod x n ltac:(lia)). destruct (Z.eqb_spec (x mod n) 0).
  - symmetry. apply (Z.mod_unique _ _ (x / n - 1)); lia.
  - symmetry. apply (Z.mod_unique _ _ (x / n)); lia.
Qed.

Lemma cache_next_probe b k j : 0 <= k <= 31 -> cache_next a (probe b (2 ^ k) j) (2 ^ k - 1) = probe b (2 ^ k) (j + 1).
Proof.
  intros Hk. assert (H0 : 0 < 2 ^ k) by (apply Z.pow_pos_nonneg; lia). assert (H1 : 2 ^ k <= 2 ^ 31) by (apply Z.pow_le_mono_r; lia).
  unfold cache_next, probe. destruct a.
  - replace (b - (j + 1)) with (b - j - 1) by lia. rewrite mod_pred by done. by destruct ((b - j) mod 2 ^ k =? 0).
  - pose proof (Z.mod_pos_bound (b + j) (2 ^ k) H0). rewrite wrap_id by (unfold in_u; lia). rewrite land_pow2_mask by lia.
    rewrite Zplus_mod_idemp_l. f_equal. lia.
Qed.

Lemma cache_hash_range sel k : 0 <= k -> 0 <= cache_hash sel (2 ^ k - 1) < 2 ^ k.
Proof. intros Hk. unfold cache_hash. rewrite land_pow2_mask by done. apply Z.mod_pos_bound, Z.pow_pos_nonneg; lia. Qed.

(** ** Tables *)

Definition sel_of (arr : list bucket_t) (i : Z) : Z := match bucket_at arr i with Some b => b_sel b | None => 0 end.

Definition stops (sel : Z) (arr : list bucket_t) (b cap j : Z) : bool :=
  let s := sel_of arr (probe b cap j) in (s =? 0) || (s =? sel).

(** Every entry is where a search for it looks first. *)
Record table_ok (k : Z) (arr : list bucket_t) : Prop := {
  tb_len : slots a arr = 2 ^ k;
  tb_reach : forall i b, 0 <= i < 2 ^ k -> bucket_at arr i = Some b -> b_sel b <> 0 ->
    exists j, 0 <= j < 2 ^ k /\ probe (cache_hash (b_sel b) (2 ^ k - 1)) (2 ^ k) j = i /\
      forall j', 0 <= j' < j -> stops (b_sel b) arr (cache_hash (b_sel b) (2 ^ k - 1)) (2 ^ k) j' = false;
}.

(** The number of entries. *)
Definition in_use (b : bucket_t) : bool := negb (b_sel b =? 0).
Definition used (k : Z) (arr : list bucket_t) : Z := Z.of_nat (length (filter (fun b => in_use b = true) (take (Z.to_nat (2 ^ k)) arr))).

Lemma filter_all_used (l : list bucket_t) : (length (filter (fun b => in_use b = true) l) < length l)%nat -> exists i b, l !! i = Some b /\ b_sel b = 0.
Proof.
  induction l as [|b l IH]; simpl; [lia|]. destruct (decide (b_sel b = 0)) as [Hz|Hz]; [by exists 0%nat, b|].
  rewrite filter_cons_True by (unfold in_use; apply negb_true_iff; by apply Z.eqb_neq). simpl. intros Hl. destruct IH as (i & b' & Hi & Hb'); [lia|].
  by exists (S i), b'.
Qed.

Lemma bucket_at_nat arr i b : bucket_at arr i = Some b <-> 0 <= i /\ arr !! Z.to_nat i = Some b.
Proof. unfold bucket_at. destruct (Z.ltb_spec i 0); split; [done|lia|by intros ?|by intros [_ ?]]. Qed.

Lemma free_slot k arr : 0 <= k -> slots a arr = 2 ^ k -> used k arr < 2 ^ k -> exists i, 0 <= i < 2 ^ k /\ sel_of arr i = 0.
Proof.
  intros Hk Hs Hu. assert (H0 : 0 < 2 ^ k) by (apply Z.pow_pos_nonneg; lia). pose proof (slots_length a arr).
  unfold used in Hu. destruct (filter_all_used (take (Z.to_nat (2 ^ k)) arr)) as (i & b & Hi & Hb).
  { rewrite length_take. lia. }
  pose proof (lookup_lt_Some _ _ _ Hi) as Hlt. rewrite length_take in Hlt. rewrite lookup_take_lt in Hi by lia.
  exists (Z.of_nat i). split; [lia|]. unfold sel_of. rewrite (proj2 (bucket_at_nat arr (Z.of_nat i) b)); [done|]. rewrite Nat2Z.id. split; [lia|done].
Qed.

(** The place where a search for a selector ends. *)
Definition ends_at (sel : Z) (arr : list bucket_t) (k j : Z) : Prop :=
  let b := cache_hash sel (2 ^ k - 1) in
  0 <= j < 2 ^ k /\ stops sel arr b (2 ^ k) j = true /\ forall j', 0 <= j' < j -> stops sel arr b (2 ^ k) j' = false.

Lemma search_ends k arr sel : 0 <= k -> slots a arr = 2 ^ k -> used k arr < 2 ^ k -> exists j, ends_at sel arr k j.
Proof.
  intros Hk Hs Hu. destruct (free_slot k arr Hk Hs Hu) as (i & Hi & Hz).
  destruct (probe_onto (cache_hash sel (2 ^ k - 1)) (2 ^ k) i Hi) as (j & Hj & He).
  apply least_below. exists j. split; [done|]. unfold stops. by rewrite He, Hz.
Qed.

(** It is the bucket of the selector, when there is one. *)
Lemma search_complete k arr sel j i b : table_ok k arr -> ends_at sel arr k j -> 0 <= i < 2 ^ k -> bucket_at arr i = Some b -> b_sel b = sel -> sel <> 0 ->
  probe (cache_hash sel (2 ^ k - 1)) (2 ^ k) j = i.
Proof.
  intros Ht (Hj & Hst & Hno) Hi Hb <- Hs. destruct (tb_reach _ _ Ht i b Hi Hb Hs) as (j0 & Hj0 & He & Hno0).
  destruct (Z.lt_trichotomy j j0) as [Hlt|[->|Hgt]]; [|done|].
  - rewrite Hno0 in Hst by lia. done.
  - specialize (Hno j0 ltac:(lia)). unfold stops in Hno. rewrite He in Hno. unfold sel_of in Hno. rewrite Hb, Z.eqb_refl, orb_true_r in Hno. done.
Qed.

(** ** Insertion *)

Lemma bucket_at_insert arr i b i' : 0 <= i < Z.of_nat (length arr) ->
  bucket_at (<[Z.to_nat i := b]> arr) i' = if i' =? i then Some b else bucket_at arr i'.
Proof.
  intros Hi. unfold bucket_at. destruct (Z.ltb_spec i' 0); [destruct (Z.eqb_spec i' i); [lia|done]|].
  destruct (Z.eqb_spec i' i) as [->|Hne]; [rewrite list_lookup_insert_eq by lia; done|rewrite list_lookup_insert_ne by lia; done].
Qed.

Lemma sel_of_insert arr i b i' : 0 <= i < Z.of_nat (length arr) ->
  sel_of (<[Z.to_nat i := b]> arr) i' = if i' =? i then b_sel b else sel_of arr i'.
Proof. intros Hi. unfold sel_of. rewrite bucket_at_insert by done. by destruct (i' =? i). Qed.

Lemma slots_insert arr i b : slots a (<[i := b]> arr) = slots a arr.
Proof. unfold slots. by rewrite length_insert. Qed.

(** Filling a free bucket does not stop searches that did not stop. *)
Lemma stops_insert arr i b sel h cap j : 0 <= i < Z.of_nat (length arr) -> sel_of arr i = 0 ->
  stops sel arr h cap j = false -> stops sel (<[Z.to_nat i := b]> arr) h cap j = false.
Proof.
  intros Hi Hz Hs. unfold stops in *. rewrite sel_of_insert by done. destruct (Z.eqb_spec (probe h cap j) i) as [E|E]; [|done].
  rewrite E, Hz in Hs. done.
Qed.

Lemma table_insert k arr sel imp j : 0 <= k -> table_ok k arr -> ends_at sel arr k j ->
  let i := probe (cache_hash sel (2 ^ k - 1)) (2 ^ k) j in
  sel_of arr i = 0 -> sel <> 0 -> table_ok k (<[Z.to_nat i := mk_bucket sel imp]> arr).
Proof.
  intros Hk Ht (Hj & Hst & Hno) i Hz Hs. assert (H0 : 0 < 2 ^ k) by (apply Z.pow_pos_nonneg; lia).
  pose proof (probe_range (cache_hash sel (2 ^ k - 1)) (2 ^ k) j H0) as Hi. fold i in Hi. pose proof (tb_len _ _ Ht) as Hl. pose proof (slots_length a arr).
  split; [by rewrite slots_insert|]. intros i' b Hi' Hb Hbs. rewrite bucket_at_insert in Hb by lia.
  destruct (Z.eqb_spec i' i) as [->|Hne].
  - injection Hb as <-. exists j. simpl. split_and!; [lia|lia|done|]. intros j' Hj'. apply stops_insert; [lia|done|by apply Hno].
  - destruct (tb_reach _ _ Ht i' b Hi' Hb Hbs) as (j0 & Hj0 & He & Hn0). exists j0. split_and!; [lia|lia|done|].
    intros j' Hj'. apply stops_insert; [lia|done|by apply Hn0].
Qed.

Lemma filter_insert_used (l : list bucket_t) i b b' : l !! i = Some b -> b_sel b = 0 -> b_sel b' <> 0 ->
  length (filter (fun b => in_use b = true) (<[i := b']> l)) = S (length (filter (fun b => in_use b = true) l)).
Proof.
  revert i. induction l as [|c l IH]; intros [|i] Hi Hb Hb'; simpl in *; try done.
  - injection Hi as ->. rewrite filter_cons_True, filter_cons_False; [done|unfold in_use; rewrite Hb; done|].
    unfold in_use. by apply negb_true_iff, Z.eqb_neq.
  - destruct (decide (in_use c = true)); [rewrite !filter_cons_True by done|rewrite !filter_cons_False by done]; simpl; rewrite (IH i) by done; done.
Qed.

Lemma used_insert k arr i b' : 0 <= i < 2 ^ k -> 2 ^ k <= Z.of_nat (length arr) -> sel_of arr i = 0 -> b_sel b' <> 0 ->
  used k (<[Z.to_nat i := b']> arr) = used k arr + 1.
Proof.
  intros Hi Hl Hz Hb'. destruct (bucket_at_Some arr i ltac:(lia)) as (b & Hb & Hb2). unfold sel_of in Hz. rewrite Hb in Hz.
  unfold used. rewrite take_insert_lt by lia. rewrite (filter_insert_used _ _ b) by (done || (rewrite lookup_take_lt; [done|lia])). lia.
Qed.

(** ** [find] *)

Lemma find_from_wp H g m id arr sel k j t fuel (Q : Z -> ghost -> cmem -> Prop) : 0 <= k <= 31 -> arrays m !! id = Some arr -> slots a arr = 2 ^ k ->
  ends_at sel arr k j -> 0 <= t <= j -> j - t < Z.of_nat fuel ->
  let b := cache_hash sel (2 ^ k - 1) in
  Q (probe b (2 ^ k) j) g m -> wp a H (find_from a fuel id (2 ^ k - 1) b sel (probe b (2 ^ k) t)) g m Q.
Proof.
  intros Hk Harr Hsl (Hj & Hst & Hno) Ht Hf b HQ. fold b in Hst, Hno. assert (H0 : 0 < 2 ^ k) by (apply Z.pow_pos_nonneg; lia). pose proof (slots_length a arr).
  revert t Ht Hf. induction fuel as [|fuel IH]; intros t Ht Hf; [lia|].
  pose proof (probe_range b (2 ^ k) t H0) as Hp. destruct (bucket_at_Some arr (probe b (2 ^ k) t) ltac:(lia)) as (bu & Hbu & _).
  assert (Hin : bucket_in m id (probe b (2 ^ k) t) = Some bu) by (unfold bucket_in; by rewrite Harr).
  cbn [find_from]. apply wp_bind. simpl. rewrite Hin. simpl.
  assert (Hs : (b_sel bu =? 0) || (b_sel bu =? sel) = stops sel arr b (2 ^ k) t) by (unfold stops, sel_of; by rewrite Hbu).
  rewrite Hs. destruct (decide (t = j)) as [->|Hne].
  - rewrite Hst. exact HQ.
  - rewrite Hno by lia. rewrite cache_next_probe by lia.
    rewrite (proj2 (Z.eqb_neq _ _)); [apply IH; lia|]. intros E. rewrite <- (probe_0 b (2 ^ k)) in E at 2 by (apply cache_hash_range; lia).
    apply probe_inj in E; lia.
Qed.

End Table.

(** ** The lookup of objc_msgSend *)

Fixpoint rsteps (a : arch) (m : cmem) (n : nat) (r : reader) : outcome reader :=
  match n with O => Ret r | S n' => obind (reader_step a m r) (rsteps a m n') end.

Lemma rsteps_app a m n n' r r' : rsteps a m n r = Ret r' -> rsteps a m (n + n') r = rsteps a m n' r'.
Proof.
  revert r. induction n as [|n IH]; intros r; simpl; [by intros [= ->]|].
  destruct (reader_step a m r) as [r1| |]; simpl; [apply IH|done..].
Qed.

Lemma rsteps_run a m n fuel r cls sel res : rsteps a m n r = Ret (R_done cls sel res) -> (n <= fuel)%nat -> reader_run a fuel m r = Ret res.
Proof.
  revert fuel r. induction n as [|n IH]; intros fuel r Hr Hf.
  - simpl in Hr. injection Hr as ->. by destruct fuel.
  - destruct fuel as [|fuel]; [lia|]. simpl in Hr. destruct (reader_step a m r) as [r1| |] eqn:E; simpl in Hr; try done.
    destruct r; simpl in E |- *; try (rewrite E; simpl; apply IH; [done|lia]). injection E as <-.
    assert (Hid : rsteps a m n (R_done cls0 sel0 result) = Ret (R_done cls0 sel0 result)) by (clear; induction n; simpl; [done|done]).
    rewrite Hid in Hr. by injection Hr as -> -> ->.
Qed.

Section Lookup.
Context (m : cmem) (cls id sel k : Z) (arr : list bucket_t).
Context (Hk : 0 <= k <= 31) (Harr : arrays m !! id = Some arr) (Hsel : 1 < sel).
#[local] Abbreviation cap := (2 ^ k).
#[local] Abbreviation b := (cache_hash sel (cap - 1)).

Lemma cap_pos : 0 < cap.
Proof. clear - Hk. apply Z.pow_pos_nonneg; lia. Qed.

Lemma load_at (i : Z) (f : bucket_t -> reader) bu : bucket_at arr i = Some bu -> from_bucket m id i f = Ret (f bu).
Proof. intros Hb. unfold from_bucket, bucket_in. by rewrite Harr; simpl; rewrite Hb. Qed.

Lemma stops_sel a0 t bu : bucket_at arr (probe a0 b cap t) = Some bu ->
  stops a0 sel arr b cap t = (b_sel bu =? 0) || (b_sel bu =? sel).
Proof. intros Hb. unfold stops, sel_of. by rewrite Hb. Qed.

(** What a search that ends at a bucket returns. *)
Definition found (bu : bucket_t) : option Z := if b_sel bu =? sel then Some (b_imp bu) else None.

(** *** arm64 *)

Definition arm_pos (t : Z) : reader :=
  if t <=? b then R_sel cls sel (cap - 1) id (b - t) false else R_sel cls sel (cap - 1) id (cap - (t - b)) true.

Lemma arm_probe t : 0 <= t < cap -> probe arm64 b cap t = if t <=? b then b - t else cap - (t - b).
Proof.
  intros Ht. pose proof (cache_hash_range sel k ltac:(lia)). unfold probe. destruct (Z.leb_spec t b).
  - apply Z.mod_small. lia.
  - symmetry. apply (Z.mod_unique _ _ (-1)); lia.
Qed.

Lemma arm_step t bu : 0 <= t -> t + 1 < cap -> bucket_at arr (probe arm64 b cap t) = Some bu -> stops arm64 sel arr b cap t = false ->
  reader_step arm64 m (arm_pos t) = Ret (arm_pos (t + 1)).
Proof.
  intros Ht Ht' Hb Hst. rewrite (stops_sel _ _ _ Hb) in Hst. apply orb_false_iff in Hst as [H1 H2].
  pose proof (cache_hash_range sel k ltac:(lia)). rewrite arm_probe in Hb by lia. unfold arm_pos.
  destruct (Z.leb_spec t b) as [Hle|Hgt]; simpl; rewrite (load_at _ _ bu Hb), H1, H2.
  - destruct (Z.eqb_spec (b - t) 0) as [E|E]; simpl.
    + rewrite (proj2 (Z.leb_gt _ _)) by lia. do 2 f_equal. lia.
    + rewrite (proj2 (Z.leb_le _ _)) by lia. do 2 f_equal. lia.
  - rewrite (proj2 (Z.eqb_neq _ _)), (proj2 (Z.leb_gt _ _)) by lia. simpl. do 2 f_equal. lia.
Qed.

Lemma arm_end t bu : 0 <= t < cap -> bucket_at arr (probe arm64 b cap t) = Some bu -> stops arm64 sel arr b cap t = true ->
  reader_step arm64 m (arm_pos t) = Ret (R_done cls sel (found bu)).
Proof.
  intros Ht Hb Hst. rewrite (stops_sel _ _ _ Hb) in Hst. rewrite arm_probe in Hb by lia. unfold arm_pos, found.
  destruct (t <=? b); simpl; rewrite (load_at _ _ bu Hb); (destruct (b_sel bu =? sel); [done|]); destruct (b_sel bu =? 0); done.
Qed.

Lemma arm_steps j : 0 <= j < cap -> cap <= Z.of_nat (length arr) -> (forall t, 0 <= t < j -> stops arm64 sel arr b cap t = false) ->
  rsteps arm64 m (Z.to_nat j) (arm_pos 0) = Ret (arm_pos j).
Proof.
  intros Hj Hlen Hno. destruct Hj as [Hj Hj2]. revert Hj2 Hno. pattern j. apply natlike_ind; [done| |done]. clear j Hj. intros j Hj IH Hj2 Hno.
  rewrite Z2Nat.inj_succ, <- Nat.add_1_r by done. rewrite (rsteps_app _ _ _ _ _ (arm_pos j)) by (apply IH; [lia|intros; apply Hno; lia]).
  destruct (bucket_at_Some arr (probe arm64 b cap j)) as (bu & Hbu & _); [pose proof (probe_range arm64 b cap j cap_pos); lia|].
  simpl. rewrite (arm_step j bu) by (done || lia || (apply Hno; lia)). done.
Qed.

(** *** x86_64 *)

Definition x86_pos (t : Z) : reader :=
  if b + t <? cap then R_sel cls sel (cap - 1) id (b + t) false else R_sel cls sel (cap - 1) id (b + t - cap) true.

Lemma x86_probe t : 0 <= t < cap -> probe x86_64 b cap t = if b + t <? cap then b + t else b + t - cap.
Proof.
  intros Ht. pose proof (cache_hash_range sel k ltac:(lia)). unfold probe. destruct (Z.ltb_spec (b + t) cap).
  - apply Z.mod_small. lia.
  - symmetry. apply (Z.mod_unique _ _ 1); lia.
Qed.

(** The selector of a bucket is loaded twice. *)
Lemma x86_two i w bu : bucket_at arr i = Some bu -> 1 < b_sel bu -> b_sel bu <> sel ->
  rsteps x86_64 m 2 (R_sel cls sel (cap - 1) id i w) = Ret (R_sel cls sel (cap - 1) id (i + 1) w).
Proof.
  intros Hb H1 H2. simpl. rewrite (load_at _ _ bu Hb), (proj2 (Z.eqb_neq _ _) H2). simpl.
  rewrite (load_at _ _ bu Hb), (proj2 (Z.ltb_lt _ _) H1). done.
Qed.

(** The end marker leads to the first bucket. *)
Lemma x86_three i : bucket_at arr i = Some (end_marker id) ->
  rsteps x86_64 m 3 (R_sel cls sel (cap - 1) id i false) = Ret (R_sel cls sel (cap - 1) id 0 true).
Proof.
  intros Hb. simpl. rewrite (load_at _ _ _ Hb). simpl b_sel. rewrite (proj2 (Z.eqb_neq _ _)) by lia. simpl.
  rewrite (load_at _ _ _ Hb). simpl. rewrite (load_at _ _ _ Hb). done.
Qed.

Context (Hmarker : bucket_at arr cap = Some (end_marker id)).
Context (Hgt : forall i bu, 0 <= i < cap -> bucket_at arr i = Some bu -> b_sel bu <> 0 -> 1 < b_sel bu).

(** The loads up to the [t]-th bucket. *)
Definition x86_cost (t : Z) : Z := 2 * t + if b + t <? cap then 0 else 3.

Lemma x86_step t bu : 0 <= t -> t + 1 < cap -> bucket_at arr (probe x86_64 b cap t) = Some bu -> stops x86_64 sel arr b cap t = false ->
  rsteps x86_64 m (Z.to_nat (x86_cost (t + 1) - x86_cost t)) (x86_pos t) = Ret (x86_pos (t + 1)).
Proof.
  intros Ht Ht' Hb Hst. rewrite (stops_sel _ _ _ Hb) in Hst. apply orb_false_iff in Hst as [H1%Z.eqb_neq H2%Z.eqb_neq].
  pose proof (cache_hash_range sel k ltac:(lia)). pose proof (probe_range x86_64 b cap t cap_pos) as Hpr. pose proof (Hgt _ _ Hpr Hb H1) as H3.
  rewrite x86_probe in Hb by lia. unfold x86_pos, x86_cost. destruct (Z.ltb_spec (b + t) cap) as [Hle|Hg].
  - destruct (Z.ltb_spec (b + (t + 1)) cap) as [Hle'|Hg'].
    + replace (Z.to_nat _) with 2%nat by lia. rewrite (x86_two _ _ bu) by done. do 2 f_equal. lia.
    + replace (Z.to_nat _) with (2 + 3)%nat by lia. rewrite (rsteps_app _ _ _ _ _ _ (x86_two _ _ bu Hb H3 H2)).
      rewrite x86_three; [do 2 f_equal; lia|]. by replace (b + t + 1) with cap by lia.
  - rewrite (proj2 (Z.ltb_ge _ _)) by lia. replace (Z.to_nat _) with 2%nat by lia. rewrite (x86_two _ _ bu) by done. do 2 f_equal. lia.
Qed.

Lemma x86_end t bu : 0 <= t < cap -> bucket_at arr (probe x86_64 b cap t) = Some bu -> stops x86_64 sel arr b cap t = true ->
  rsteps x86_64 m 2 (x86_pos t) = Ret (R_done cls sel (found bu)).
Proof.
  intros Ht Hb Hst. rewrite (stops_sel _ _ _ Hb) in Hst. rewrite x86_probe in Hb by lia. unfold x86_pos, found.
  destruct (b + t <? cap); simpl; rewrite (load_at _ _ bu Hb); simpl; (destruct (b_sel bu =? sel) eqn:E; simpl; rewrite (load_at _ _ bu Hb); [done|]);
    rewrite orb_false_r in Hst; apply Z.eqb_eq in Hst; rewrite Hst; done.
Qed.

Lemma x86_steps j : 0 <= j < cap -> cap <= Z.of_nat (length arr) -> (forall t, 0 <= t < j -> stops x86_64 sel arr b cap t = false) ->
  rsteps x86_64 m (Z.to_nat (x86_cost j)) (x86_pos 0) = Ret (x86_pos j).
Proof.
  intros Hj Hlen Hno. destruct Hj as [Hj Hj2]. revert Hj2 Hno. pattern j. apply natlike_ind; [| |done]; clear j Hj.
  { intros _ _. unfold x86_cost. pose proof (cache_hash_range sel k ltac:(lia)). by rewrite (proj2 (Z.ltb_lt _ _)) by lia. }
  intros j Hj IH Hj2 Hno. destruct (bucket_at_Some arr (probe x86_64 b cap j)) as (bu & Hbu & _); [pose proof (probe_range x86_64 b cap j cap_pos); lia|].
  pose proof (x86_step j bu ltac:(lia) ltac:(lia) Hbu (Hno j ltac:(lia))) as Hstep.
  assert (Hmono : 0 <= x86_cost j <= x86_cost (j + 1)) by (unfold x86_cost; destruct (Z.ltb_spec (b + j) cap), (Z.ltb_spec (b + (j + 1)) cap); lia).
  replace (Z.to_nat (x86_cost (Z.succ j))) with (Z.to_nat (x86_cost j) + Z.to_nat (x86_cost (j + 1) - x86_cost j))%nat by (unfold Z.succ; lia).
  rewrite (rsteps_app _ _ _ _ _ (x86_pos j)) by (apply IH; [lia|intros; apply Hno; lia]). done.
Qed.

End Lookup.

(** The lookup in a cache at rest: what the search of [find] ends at. *)
Lemma lookup_table a m cls c sel k arr j : 0 <= k <= 31 -> 1 < sel -> caches m !! cls = Some c -> _mask c = 2 ^ k - 1 ->
  arrays m !! _buckets c = Some arr -> slots a arr = 2 ^ k -> (a = x86_64 -> last arr = Some (end_marker (_buckets c))) ->
  (forall i bu, 0 <= i < 2 ^ k -> bucket_at arr i = Some bu -> b_sel bu <> 0 -> 1 < b_sel bu) -> ends_at a sel arr k j ->
  exists bu, bucket_at arr (probe a (cache_hash sel (2 ^ k - 1)) (2 ^ k) j) = Some bu /\
    getImp a m cls sel = Ret (default 0 (found sel bu)).
Proof.
  intros Hk Hsel Hc Hm Harr Hsl Hmark Hgt (Hj & Hst & Hno). pose proof (slots_length a arr) as Hlen. pose proof (cap_pos k Hk) as H0.
  pose proof (cache_hash_range sel k ltac:(lia)) as Hh.
  destruct (bucket_at_Some arr (probe a (cache_hash sel (2 ^ k - 1)) (2 ^ k) j)) as (bu & Hbu & _); [pose proof (probe_range a (cache_hash sel (2 ^ k - 1)) (2 ^ k) j H0); lia|].
  exists bu. split; [done|].
  assert (Hstart : rsteps a m 2 (R_mask cls sel) = Ret (R_sel cls sel (2 ^ k - 1) (_buckets c) (cache_hash sel (2 ^ k - 1)) false)).
  { simpl. rewrite Hc. simpl. rewrite Hc. simpl. by rewrite Hm. }
  assert (exists n, (n <= lookup_fuel m cls)%nat /\ rsteps a m n (R_mask cls sel) = Ret (R_done cls sel (found sel bu))) as (n & Hn & Hr).
  { unfold lookup_fuel. rewrite Hc, Harr. destruct a.
    - exists (2 + (Z.to_nat j + 1))%nat. split; [lia|]. rewrite (rsteps_app _ _ _ _ _ _ Hstart).
      pose proof (arm_steps m cls (_buckets c) sel k arr Hk Harr Hsel j Hj ltac:(lia) Hno) as Hs. unfold arm_pos at 1 in Hs.
      rewrite (proj2 (Z.leb_le _ _)), Z.sub_0_r in Hs by lia. rewrite (rsteps_app _ _ _ _ _ _ Hs). simpl.
      by rewrite (arm_end m cls (_buckets c) sel k arr Hk Harr j bu).
    - specialize (Hmark eq_refl). exists (2 + (Z.to_nat (x86_cost sel k j) + 2))%nat.
      assert (Hcost : x86_cost sel k j <= 2 * 2 ^ k + 3) by (unfold x86_cost; destruct (_ <? _); lia). split; [lia|]. rewrite (rsteps_app _ _ _ _ _ _ Hstart).
      assert (Hmk : bucket_at arr (2 ^ k) = Some (end_marker (_buckets c))).
      { apply bucket_at_nat. split; [lia|]. rewrite last_lookup in Hmark. rewrite <- Hmark. f_equal. unfold slots in Hsl. lia. }
      pose proof (x86_steps m cls (_buckets c) sel k arr Hk Harr Hsel Hmk Hgt j Hj ltac:(lia) Hno) as Hs. unfold x86_pos at 1 in Hs.
      rewrite (proj2 (Z.ltb_lt _ _)), Z.add_0_r in Hs by lia. rewrite (rsteps_app _ _ _ _ _ _ Hs).
      by apply (x86_end m cls (_buckets c) sel k arr Hk Harr j bu). }
  unfold getImp. by rewrite (rsteps_run _ _ _ _ _ _ _ _ Hr Hn).
Qed.

(** The lookup in a cache whose buckets are all free. *)
Lemma lookup_zero a m cls c sel arr : 1 < sel -> caches m !! cls = Some c -> 0 <= _mask c -> arrays m !! _buckets c = Some arr -> _mask c < slots a arr ->
  (forall j bu, arr !! j = Some bu -> bu = no_bucket) -> getImp a m cls sel = Ret 0.
Proof.
  intros Hsel Hc Hm Harr Hsl Hz. pose proof (land_mask_bounds (u32 sel) (_mask c) (proj1 (wrap_range 32 sel ltac:(lia))) Hm) as Hi. pose proof (slots_length a arr).
  destruct (bucket_at_Some arr (Z.land (u32 sel) (_mask c)) ltac:(lia)) as (bu & Hb & Hb'). specialize (Hz _ _ Hb'). subst bu.
  assert (Hl : forall f, from_bucket m (_buckets c) (Z.land (u32 sel) (_mask c)) f = Ret (f no_bucket)) by (intros f; unfold from_bucket, bucket_in; rewrite Harr; simpl; by rewrite Hb).
  assert (Hr : rsteps a m 4 (R_mask cls sel) = Ret (R_done cls sel None)).
  { simpl. rewrite Hc. simpl. rewrite Hc. simpl. rewrite Hl. destruct a; simpl b_sel; rewrite (proj2 (Z.eqb_neq _ _)) by lia; simpl; [done|]. by rewrite Hl. }
  unfold getImp. rewrite (rsteps_run _ _ _ _ _ _ _ _ Hr); [done|]. unfold lookup_fuel. rewrite Hc, Harr. lia.
Qed.
