(* ===== verification/CacheWriters.v ===== *)
(** * Writers of the method caches

    Filling, growing and erasing a cache: every store keeps what the readers rely on
    ([wp]), and between two operations the tables are in order ([stable]): a search always
    reaches a free bucket, the arrays of different classes are different, the shared empty
    arrays are never written and the garbage is not in use. *)

From Stdlib Require Import ZArith Lia Bool.
From stdpp Require Import base list gmap.
From S2P Require Import Prelude RetainCount Probing MethodBuckets CacheReaders CacheTable.

Local Open Scope Z_scope.

(** The end marker of x86_64 takes one bucket. *)
Definition extra (a : arch) : Z := match a with x86_64 => 1 | arm64 => 0 end.

(** A new array for [2 ^ k] entries. *)
Definition new_array (a : arch) (id k : Z) : list bucket_t :=
  replicate (Z.to_nat (2 ^ k)) no_bucket ++ match a with x86_64 => [end_marker id] | arm64 => [] end.

Definition set_arrays (m : cmem) (x : gmap Z (list bucket_t)) : cmem :=
  mk_cmem x (caches m) (emptyBucketsList m) (garbage_refs m) (garbage_byte_size m).
Definition set_caches (m : cmem) (x : gmap Z cache_t) : cmem :=
  mk_cmem (arrays m) x (emptyBucketsList m) (garbage_refs m) (garbage_byte_size m).

Lemma bytes_pow2 a k : 0 <= k <= 31 -> bytesForCapacity a (2 ^ k) = 16 * (2 ^ k + extra a).
Proof.
  intros Hk. assert (2 ^ k <= 2 ^ 31) by (apply Z.pow_le_mono_r; lia). assert (0 < 2 ^ k) by (apply Z.pow_pos_nonneg; lia).
  unfold bytesForCapacity, extra. destruct a; [lia|]. by rewrite wrap_id by (unfold in_u; lia).
Qed.

Lemma log2u_pow2 k : 0 <= k <= 31 -> log2u (2 ^ k) = k.
Proof.
  intros Hk. unfold log2u. assert (H : forall n i, 0 <= i < Z.of_nat n -> log2u_n n (2 ^ i) = i); [|apply H; lia]. clear k Hk.
  induction n as [|n IH]; intros i Hi; [lia|]. simpl. destruct (decide (i = 0)) as [->|Hne]; [done|].
  replace (2 ^ i) with (2 ^ (i - 1) * 2) by (rewrite Z.mul_comm, <- Z.pow_succ_r by lia; f_equal; lia). assert (0 < 2 ^ (i - 1)) by (apply Z.pow_pos_nonneg; lia).
  rewrite (proj2 (Z.ltb_ge _ _)) by lia. rewrite Z.shiftr_div_pow2 by lia. change (2 ^ 1) with 2. rewrite Z.div_mul by lia. rewrite IH by lia. lia.
Qed.

Lemma slots_extra a arr : slots a arr = Z.of_nat (length arr) - extra a.
Proof. done. Qed.

Lemma capacity_pow2 c k : 0 < k <= 31 -> _mask c = 2 ^ k - 1 -> capacity c = 2 ^ k.
Proof.
  intros Hk Hm. assert (2 ^ k <= 2 ^ 31) by (apply Z.pow_le_mono_r; lia). assert (2 ^ 1 <= 2 ^ k) by (apply Z.pow_le_mono_r; lia).
  unfold capacity. rewrite Hm, (proj2 (Z.eqb_neq _ _)) by lia. simpl. rewrite wrap_id; [lia|unfold in_u; lia].
Qed.

(** ** Stores *)

Lemma store_buckets m cls c id : caches m !! cls = Some c ->
  apply_store (S_buckets cls id) m = Some (set_caches m (<[cls := mk_cache id (_mask c) (_occupied c)]> (caches m))).
Proof. intros Hc. simpl. unfold upd_cache. by rewrite Hc. Qed.
Lemma store_mask m cls c mask : caches m !! cls = Some c ->
  apply_store (S_mask cls mask) m = Some (set_caches m (<[cls := mk_cache (_buckets c) mask (_occupied c)]> (caches m))).
Proof. intros Hc. simpl. unfold upd_cache. by rewrite Hc. Qed.
Lemma store_occupied m cls c n : caches m !! cls = Some c ->
  apply_store (S_occupied cls n) m = Some (set_caches m (<[cls := mk_cache (_buckets c) (_mask c) n]> (caches m))).
Proof. intros Hc. simpl. unfold upd_cache. by rewrite Hc. Qed.

Section Stores.
Context (a : arch) (H : Z -> Z -> Z -> Prop).

Lemma guar_same g m m' : arrays m' = arrays m -> caches m' = caches m -> guar g m m'.
Proof. intros H1 H2. split; [intros id arr Harr _; exists arr; rewrite H1; by split; [|apply grows_refl]|intros cls c Hc; exists c; rewrite H2; by split; [|lia]]. Qed.

Lemma inv_same g m m' : arrays m' = arrays m -> caches m' = caches m -> inv a H g m -> inv a H g m'.
Proof. intros E1 E2 [H1 H2]. split; [by rewrite E1|]. intros cls c. rewrite E1, E2. apply H2. Qed.

(** A store to the static variables. *)
Lemma put_static_wp e m' g m (Q : unit -> ghost -> cmem -> Prop) : apply_store e m = Some m' -> arrays m' = arrays m -> caches m' = caches m ->
  inv a H g m -> (inv a H g m' -> Q tt g m') -> wp a H (put e) g m Q.
Proof.
  intros He H1 H2 Hinv HQ. simpl. exists m'. assert (inv a H g m') by (by apply (inv_same g m)). split_and!; [done|done|by apply guar_same|by apply HQ].
Qed.

Lemma put_garbage_wp refs bytes g m (Q : unit -> ghost -> cmem -> Prop) : inv a H g m ->
  (let m' := mk_cmem (arrays m) (caches m) (emptyBucketsList m) refs bytes in inv a H g m' -> Q tt g m') -> wp a H (put (S_garbage refs bytes)) g m Q.
Proof. intros Hinv HQ. by apply (put_static_wp _ (mk_cmem (arrays m) (caches m) (emptyBucketsList m) refs bytes)). Qed.
Lemma put_empties_wp l g m (Q : unit -> ghost -> cmem -> Prop) : inv a H g m ->
  (let m' := mk_cmem (arrays m) (caches m) l (garbage_refs m) (garbage_byte_size m) in inv a H g m' -> Q tt g m') -> wp a H (put (S_empties l)) g m Q.
Proof. intros Hinv HQ. by apply (put_static_wp _ (mk_cmem (arrays m) (caches m) l (garbage_refs m) (garbage_byte_size m))). Qed.

(** A store to a cache. *)
Lemma put_cache_wp e cls c c' g m (Q : unit -> ghost -> cmem -> Prop) :
  apply_store e m = Some (set_caches m (<[cls := c']> (caches m))) -> caches m !! cls = Some c -> inv a H g m ->
  _mask c <= _mask c' -> (_buckets c' ∉ doomed g) -> (exists arr, arrays m !! _buckets c' = Some arr /\ usable a g (_buckets c') arr (_mask c') cls) ->
  (inv a H g (set_caches m (<[cls := c']> (caches m))) -> Q tt g (set_caches m (<[cls := c']> (caches m)))) -> wp a H (put e) g m Q.
Proof.
  intros He Hc Hinv Hm Hd Hu HQ. simpl. eexists. split; [exact He|].
  destruct (inv_caches _ _ _ _ Hinv cls c Hc) as (Hm0 & _).
  assert (Hinv' : inv a H g (set_caches m (<[cls := c']> (caches m)))).
  { split; [apply Hinv|]. intros cls' c0. simpl. destruct (decide (cls = cls')) as [<-|Hne].
    - rewrite lookup_insert_eq. intros [= <-]. split; [lia|]. by split.
    - rewrite lookup_insert_ne by done. apply (inv_caches _ _ _ _ Hinv). }
  split_and!; [done| |by apply HQ]. split.
  - intros id arr Harr _. exists arr. by split; [|apply grows_refl].
  - intros cls' c0 Hc0. simpl. destruct (decide (cls = cls')) as [<-|Hne].
    + rewrite lookup_insert_eq. exists c'. split; [done|]. assert (c0 = c) as -> by congruence. done.
    + rewrite lookup_insert_ne by done. exists c0. by split; [|lia].
Qed.

(** A store to a free bucket. *)
Lemma put_bucket_wp e id i arr b b' g m (Q : unit -> ghost -> cmem -> Prop) :
  apply_store e m = Some (set_arrays m (<[id := <[Z.to_nat i := b']> arr]> (arrays m))) -> arrays m !! id = Some arr -> bucket_at arr i = Some b ->
  b_sel b = 0 -> inv a H g m -> bucket_ok a H (own g !! id) id (length arr) (Z.to_nat i) b' ->
  (inv a H g (set_arrays m (<[id := <[Z.to_nat i := b']> arr]> (arrays m))) -> Q tt g (set_arrays m (<[id := <[Z.to_nat i := b']> arr]> (arrays m)))) ->
  wp a H (put e) g m Q.
Proof.
  intros He Harr Hb Hz Hinv Hok HQ. simpl. eexists. split; [exact He|]. apply bucket_at_nat in Hb as [Hi Hb].
  assert (Hgr : grows arr (<[Z.to_nat i := b']> arr)).
  { split; [by rewrite length_insert|]. intros j b0 Hj Hs. destruct (decide (Z.to_nat i = j)) as [<-|Hne]; [|by rewrite list_lookup_insert_ne]. assert (b0 = b) as -> by congruence. done. }
  assert (Hinv' : inv a H g (set_arrays m (<[id := <[Z.to_nat i := b']> arr]> (arrays m)))).
  { split; simpl.
    - intros id' arr'. destruct (decide (id = id')) as [<-|Hne]; [rewrite lookup_insert_eq; intros [= <-]|rewrite lookup_insert_ne by done; apply Hinv].
      intros j b0 Hj. rewrite length_insert. destruct (decide (Z.to_nat i = j)) as [<-|Hne].
      + rewrite list_lookup_insert_eq in Hj by (by eapply lookup_lt_Some). by injection Hj as <-.
      + rewrite list_lookup_insert_ne in Hj by done. by apply (inv_arrays _ _ _ _ Hinv id arr).
    - intros cls c Hc. destruct (inv_caches _ _ _ _ Hinv cls c Hc) as (Hm & Hd & arr0 & Harr0 & Hu). split_and!; [done|done|].
      destruct (decide (id = _buckets c)) as [Heq|Hne]; [rewrite <- Heq in *|exists arr0; by rewrite lookup_insert_ne].
      rewrite lookup_insert_eq. eexists. split; [done|]. assert (arr0 = arr) as -> by congruence. by apply (usable_grows _ _ _ arr). }
  split_and!; [done| |by apply HQ]. split; simpl.
  - intros id' arr' Harr' _. destruct (decide (id = id')) as [<-|Hne].
    + rewrite lookup_insert_eq. eexists. split; [done|]. assert (arr' = arr) as -> by congruence. done.
    + rewrite lookup_insert_ne by done. exists arr'. by split; [|apply grows_refl].
  - intros cls c Hc. exists c. by split; [|lia].
Qed.

End Stores.

(** [bucket_t::set] on a free bucket of an array with an owner. *)
Lemma set_bucket_wp a H cls id i sel imp arr b g m (Q : unit -> ghost -> cmem -> Prop) :
  arrays m !! id = Some arr -> bucket_at arr i = Some b -> b_sel b = 0 -> sel <> 0 -> inv a H g m -> own g !! id = Some cls ->
  bucket_ok a H (Some cls) id (length arr) (Z.to_nat i) (mk_bucket sel imp) ->
  (let m' := set_arrays m (<[id := <[Z.to_nat i := mk_bucket sel imp]> arr]> (arrays m)) in inv a H g m' -> Q tt g m') ->
  wp a H (set_bucket a id i sel imp) g m Q.
Proof.
  intros Harr Hb Hz Hs Hinv Ho Hok HQ. unfold set_bucket. apply wp_bind, (wp_load_bucket _ _ _ _ b); [unfold bucket_in; by rewrite Harr|].
  apply wp_bind, wp_cassert; [by rewrite Hz|].
  assert (Hup : forall f, upd_bucket m id i f = Some (set_arrays m (<[id := <[Z.to_nat i := f b]> arr]> (arrays m)))) by (intros f; unfold upd_bucket; rewrite Harr; simpl; by rewrite Hb).
  destruct a.
  - apply (put_bucket_wp _ _ _ id i arr b (mk_bucket sel imp)); [apply Hup|done|done|done|done|by rewrite Ho|done].
  - apply wp_bind. apply (put_bucket_wp _ _ _ id i arr b (mk_bucket 0 imp)); [simpl; rewrite Hup; by rewrite Hz|done|done|done|done|rewrite Ho; by left|].
    intros Hinv1. rewrite Hz, (proj2 (Z.eqb_neq 0 sel)) by done. simpl negb. cbv iota.
    apply bucket_at_nat in Hb as [Hi Hb]. pose proof (lookup_lt_Some _ _ _ Hb) as Hlt.
    set (arr1 := <[Z.to_nat i := mk_bucket 0 imp]> arr) in *.
    assert (Hb1 : bucket_at arr1 i = Some (mk_bucket 0 imp)) by (apply bucket_at_nat; split; [done|by apply list_lookup_insert_eq]).
    assert (E : <[Z.to_nat i := mk_bucket sel imp]> arr1 = <[Z.to_nat i := mk_bucket sel imp]> arr) by (unfold arr1; by rewrite list_insert_insert_eq).
    apply (put_bucket_wp _ _ _ id i arr1 (mk_bucket 0 imp) (mk_bucket sel imp)).
    + simpl. unfold upd_bucket. simpl. rewrite lookup_insert_eq. simpl. rewrite Hb1. done.
    + simpl. by rewrite lookup_insert_eq.
    + done.
    + done.
    + done.
    + rewrite Ho. unfold arr1. by rewrite length_insert.
    + rewrite E. simpl arrays. rewrite insert_insert_eq. exact HQ.
Qed.

Section Writers.
Context (a : arch) (H : Z -> Z -> Z -> Prop).

(** ** Between two operations *)

(** The shared empty array for a capacity. *)
Definition empty_for (m : cmem) (cap id : Z) : Prop :=
  if bytesForCapacity a cap <=? EMPTY_BYTES then id = objc_empty_cache else emptyBucketsList m !! Z.to_nat (log2u cap) = Some id.

(** A cache has a shared empty array, or a table of its own that is at most three quarters
    full and has at most [N] entries. *)
Inductive cache_ok (N : Z) (g : ghost) (m : cmem) (cls : Z) (c : cache_t) : Prop :=
| ok_constant :
    own g !! _buckets c = None -> _occupied c = 0 ->
    _mask c = 0 /\ _buckets c = objc_empty_cache \/ (exists k, 2 <= k <= 30 /\ _mask c = 2 ^ k - 1 /\ empty_for m (2 ^ k) (_buckets c)) ->
    cache_ok N g m cls c
| ok_table k arr :
    2 <= k <= 30 -> _mask c = 2 ^ k - 1 -> own g !! _buckets c = Some cls -> arrays m !! _buckets c = Some arr -> table_ok a k arr ->
    _occupied c = used k arr -> used k arr <= 2 ^ k / 4 * 3 -> used k arr <= N -> cache_ok N g m cls c.

(** An array of zeros that no class owns, with room for [n] buckets. *)
Definition shared_array (g : ghost) (m : cmem) (id n : Z) : Prop :=
  own g !! id = None /\ (id ∉ doomed g) /\ exists arr, arrays m !! id = Some arr /\ n <= Z.of_nat (length arr).

(** [except] is the class that an operation is about. *)
Record stable_but (except : option Z) (N : Z) (g : ghost) (m : cmem) : Prop := {
  st_inv : inv a H g m;
  st_nil : arrays m !! 0 = None;
  st_empty : shared_array g m objc_empty_cache 1025;
  st_list : forall i id, emptyBucketsList m !! i = Some id -> shared_array g m id (2 ^ Z.of_nat i + extra a);
  st_cache : forall cls c, caches m !! cls = Some c -> except <> Some cls -> cache_ok N g m cls c;
  st_garbage : NoDup (garbage_refs m) /\ forall id, id ∈ garbage_refs m ->
    is_Some (arrays m !! id) /\ is_Some (own g !! id) /\ forall cls c, caches m !! cls = Some c -> _buckets c <> id;
}.
#[local] Abbreviation stable := (stable_but None).

Lemma cache_ok_mono N N' g m cls c : N <= N' -> cache_ok N g m cls c -> cache_ok N' g m cls c.
Proof. intros Hle [H1 H2 H3|k arr H1 H2 H3 H4 H5 H6 H7 H8]; [by apply ok_constant|apply (ok_table _ _ _ _ _ k arr); [done..|lia]]. Qed.

Lemma stable_weaken x N N' g m : N <= N' -> stable N g m -> stable_but x N' g m.
Proof. intros Hle [H1 H2 H3 H4 H5 H6]. split; try done. intros cls c Hc _. apply (cache_ok_mono N); [done|]. by apply H5. Qed.

(** The mask of a cache that is in order. *)
Lemma cache_ok_mask N g m cls c : cache_ok N g m cls c -> _mask c = 0 \/ exists k, 2 <= k <= 30 /\ _mask c = 2 ^ k - 1.
Proof. intros [_ _ [[? _]|(k & ? & ? & _)]|k arr ? ?]; eauto. Qed.

(** ** The constant empty cache *)

Lemma emptyBuckets_find_wp g m cap (Q : option Z -> ghost -> cmem -> Prop) :
  Q (if bytesForCapacity a cap <=? EMPTY_BYTES then Some objc_empty_cache else
     if Z.of_nat (length (emptyBucketsList m)) <=? log2u cap then None else emptyBucketsList m !! Z.to_nat (log2u cap)) g m ->
  wp a H (emptyBucketsForCapacity a cap false) g m Q.
Proof.
  intros HQ. unfold emptyBucketsForCapacity. destruct (bytesForCapacity a cap <=? EMPTY_BYTES); [done|]. simpl.
  by destruct (Z.of_nat (length (emptyBucketsList m)) <=? log2u cap).
Qed.

Lemma isConstant_wp N g m cls c (Q : bool -> ghost -> cmem -> Prop) : stable N g m -> caches m !! cls = Some c ->
  Q (match own g !! _buckets c with None => true | Some _ => false end) g m -> wp a H (isConstantEmptyCache a cls) g m Q.
Proof.
  intros Hst Hc HQ. unfold isConstantEmptyCache. apply wp_bind. simpl. rewrite Hc. simpl.
  pose proof (st_cache _ _ _ _ Hst cls c Hc ltac:(done)) as Hok. destruct Hok as [Ho Hz Hm|k arr Hk Hm Ho Harr Ht Hu Hle HN]; rewrite Ho in HQ.
  - rewrite Hz. simpl. apply wp_bind, emptyBuckets_find_wp. simpl. destruct Hm as [[Hm Hb]|(k & Hk & Hm & He)].
    + assert (Hcap : capacity c = 0) by (unfold capacity; by rewrite Hm). rewrite Hcap.
      replace (bytesForCapacity a 0 <=? EMPTY_BYTES) with true by (by destruct a). by rewrite Hb.
    + rewrite (capacity_pow2 c k) by (lia || done). unfold empty_for in He. destruct (_ <=? EMPTY_BYTES); [by rewrite He, Z.eqb_refl|].
      rewrite log2u_pow2 in * by lia. pose proof (lookup_lt_Some _ _ _ He). rewrite (proj2 (Z.leb_gt _ _)) by lia. by rewrite He, Z.eqb_refl.
  - destruct (Z.eqb_spec (_occupied c) 0) as [Hz|Hz]; [|exact HQ]. simpl. apply wp_bind, emptyBuckets_find_wp. simpl.
    rewrite (capacity_pow2 c k) by (lia || done).
    assert (Hne : forall id n, shared_array g m id n -> (_buckets c =? id) = false).
    { intros id n (Hn & _). apply Z.eqb_neq. intros E. rewrite E in Ho. congruence. }
    destruct (_ <=? EMPTY_BYTES); [by rewrite (Hne _ _ (st_empty _ _ _ _ Hst))|].
    assert (Hnil : (_buckets c =? 0) = false) by (apply Z.eqb_neq; intros E; rewrite E, (st_nil _ _ _ _ Hst) in Harr; done).
    destruct (_ <=? log2u (2 ^ k)); [by rewrite Hnil|]. destruct (emptyBucketsList m !! Z.to_nat (log2u (2 ^ k))) as [id|] eqn:E; [|by rewrite Hnil].
    by rewrite (Hne _ _ (st_list _ _ _ _ Hst _ _ E)).
Qed.

(** ** New arrays *)

Lemma new_array_length id k : 0 <= k -> Z.of_nat (length (new_array a id k)) = 2 ^ k + extra a.
Proof.
  intros Hk. assert (0 < 2 ^ k) by (apply Z.pow_pos_nonneg; lia). unfold new_array, extra. rewrite length_app, length_replicate. destruct a; simpl; lia.
Qed.

Lemma new_array_at id k i b : 0 <= k -> i < 2 ^ k -> bucket_at (new_array a id k) i = Some b -> b = no_bucket.
Proof.
  intros Hk Hi Hb. assert (0 < 2 ^ k) by (apply Z.pow_pos_nonneg; lia). apply bucket_at_nat in Hb as [H1 H2]. unfold new_array in H2.
  rewrite lookup_app_l in H2 by (rewrite length_replicate; lia). by apply lookup_replicate in H2 as [-> _].
Qed.

Lemma new_array_table id k : 0 <= k -> table_ok a k (new_array a id k) /\ used k (new_array a id k) = 0.
Proof.
  intros Hk. assert (0 < 2 ^ k) by (apply Z.pow_pos_nonneg; lia). split.
  - split; [rewrite slots_extra, new_array_length by done; lia|]. intros i b Hi Hb Hs. apply new_array_at in Hb; [|done|lia]. by rewrite Hb in Hs.
  - unfold used, new_array. rewrite take_app_length' by (by rewrite length_replicate).
    assert (Hf : forall n, filter (fun b => in_use b = true) (replicate n no_bucket) = []) by (induction n as [|n IH]; simpl; [done|by rewrite filter_cons_False]).
    by rewrite Hf.
Qed.

(** [allocateBuckets], for the class that the array is for. *)
Lemma allocateBuckets_wp cls g m k (Q : Z -> ghost -> cmem -> Prop) : 0 <= k <= 31 -> inv a H g m ->
  (forall id, arrays m !! id = None -> id <> 0 -> let g' := galloc g id (Some cls) in let m' := set_arrays m (<[id := new_array a id k]> (arrays m)) in
    inv a H g' m' -> Q id g' m') -> wp a H (allocateBuckets a (2 ^ k)) g m Q.
Proof.
  intros Hk Hinv HQ. assert (H0 : 0 < 2 ^ k) by (apply Z.pow_pos_nonneg; lia).
  unfold allocateBuckets. rewrite bytes_pow2 by lia. rewrite Z.mul_comm, Z.div_mul by lia. apply (wp_alloc _ _ _ _ (Some cls)). intros id Hid Hnz.
  pose proof (inv_alloc a H g m id (2 ^ k + extra a) (Some cls) Hinv Hid) as Hinv1. specialize (HQ id Hid Hnz). unfold with_array in *.
  destruct a eqn:Ea; unfold extra in *.
  - rewrite Z.add_0_r in *. simpl. unfold new_array in HQ. rewrite app_nil_r in HQ. by apply HQ.
  - set (z := replicate (Z.to_nat (2 ^ k + 1)) no_bucket) in *. replace (2 ^ k + 1 - 1) with (2 ^ k) by lia.
    assert (Hlen : length z = Z.to_nat (2 ^ k + 1)) by apply length_replicate.
    assert (Hb : bucket_at z (2 ^ k) = Some no_bucket) by (apply bucket_at_nat; split; [lia|apply lookup_replicate; split; [done|lia]]).
    apply wp_bind. apply (set_bucket_wp _ _ cls _ _ _ _ z no_bucket); [simpl; by rewrite lookup_insert_eq|done|done|done|done|apply own_galloc| |].
    + right. right. split_and!; [done|rewrite Hlen; lia|done].
    + simpl. rewrite insert_insert_eq.
      replace (<[Z.to_nat (2 ^ k) := mk_bucket 1 id]> z) with (new_array x86_64 id k); [exact HQ|].
      unfold z, new_array. replace (Z.to_nat (2 ^ k + 1)) with (Z.to_nat (2 ^ k) + 1)%nat by lia. rewrite replicate_add.
      rewrite insert_app_r_alt by (rewrite length_replicate; lia). by rewrite length_replicate, Nat.sub_diag.
Qed.

(** ** Garbage *)

Lemma put_free_wp id g m (Q : unit -> ghost -> cmem -> Prop) : is_Some (arrays m !! id) -> id ∈ doomed g -> inv a H g m ->
  (inv a H g (set_arrays m (delete id (arrays m))) -> Q tt g (set_arrays m (delete id (arrays m)))) -> wp a H (put (S_free id)) g m Q.
Proof.
  intros [arr Harr] Hd Hinv HQ. simpl. rewrite Harr. simpl. eexists. split; [done|].
  assert (Hinv' : inv a H g (set_arrays m (delete id (arrays m)))).
  { split; simpl.
    - intros id' arr' Hl. apply lookup_delete_Some in Hl as [_ Hl]. by apply (inv_arrays _ _ _ _ Hinv).
    - intros cls c Hc. destruct (inv_caches _ _ _ _ Hinv cls c Hc) as (H1 & H2 & arr' & H3 & H4). split_and!; [done|done|].
      exists arr'. split; [|done]. rewrite lookup_delete_ne; [done|]. by intros ->. }
  split_and!; [done| |by apply HQ]. split; simpl.
  - intros id' arr' Harr' Hnd. exists arr'. split; [|apply grows_refl]. rewrite lookup_delete_ne; [done|]. by intros ->.
  - intros cls c Hc. exists c. by split; [|lia].
Qed.

(** Only arrays of the list go. *)
Record collected (refs : list Z) (m m' : cmem) : Prop := {
  co_caches : caches m' = caches m;
  co_list : emptyBucketsList m' = emptyBucketsList m;
  co_arrays : forall id, id ∉ refs -> arrays m' !! id = arrays m !! id;
  co_nil : arrays m !! 0 = None -> arrays m' !! 0 = None;
}.

Lemma free_garbage_wp refs n g m (Q : unit -> ghost -> cmem -> Prop) : NoDup refs -> (n <= length refs)%nat -> (forall id, id ∈ refs -> id ∈ doomed g) ->
  (forall id, id ∈ take n refs -> is_Some (arrays m !! id)) -> inv a H g m ->
  (forall m', inv a H g m' -> collected refs m m' -> Q tt g m') -> wp a H (free_garbage refs n) g m Q.
Proof.
  intros Hnd Hn Hd. revert m Q. induction n as [|n IH]; intros m Q Hin Hinv HQ; [apply HQ; [done|by split]|].
  cbn [free_garbage]. destruct (lookup_lt_is_Some_2 refs n) as [dead Hdead]; [lia|]. rewrite Hdead.
  rewrite (take_S_r _ _ _ Hdead) in Hin. assert (Hel : dead ∈ refs) by (by eapply list_elem_of_lookup_2).
  apply wp_get, wp_bind, put_garbage_wp; [done|]. intros m1 Hinv1.
  apply wp_bind, put_free_wp; [apply Hin; set_solver|by apply Hd|done|]. intros Hinv'. apply IH; [lia| |done|].
  - intros id Hid. simpl. rewrite lookup_delete_ne; [apply Hin; set_solver|]. intros <-.
    apply list_elem_of_lookup in Hid as [i Hi]. apply lookup_take_Some in Hi as [Hi Hlt]. pose proof (NoDup_lookup _ _ _ _ Hnd Hi Hdead). lia.
  - intros m' Hinv2 [E1 E2 E3 E4]. apply HQ; [done|]. split; [done|done| |].
    + intros id Hid. rewrite E3 by done. simpl. apply lookup_delete_ne. by intros <-.
    + intros Hz. apply E4. simpl. by rewrite lookup_delete_None; right.
Qed.

(** After a collection everything is as before, but for the garbage. *)
Lemma stable_collected x N g m m' refs d : stable_but x N g m -> (forall id, id ∈ refs -> id ∈ garbage_refs m) -> collected refs m m' ->
  garbage_refs m' = [] -> inv a H (mk_ghost d (own g)) m' -> (forall id, id ∈ d -> id ∈ garbage_refs m) -> stable_but x N (mk_ghost d (own g)) m'.
Proof.
  intros Hst Hsub [E1 E2 E3 E4] Hg Hinv Hdsub. destruct (st_garbage _ _ _ _ Hst) as [_ Hgar].
  assert (Hsh : forall id n, shared_array g m id n -> shared_array (mk_ghost d (own g)) m' id n).
  { intros id n (Ho & _ & arr & Harr & Hl). assert (Hng : id ∉ garbage_refs m) by (intros Hin; destruct (Hgar id Hin) as (_ & [? ?] & _); congruence).
    split_and!; [done|simpl; set_solver|]. exists arr. split; [|done]. rewrite E3; [done|set_solver]. }
  split; [done|by apply E4, Hst|by apply Hsh, Hst| | |].
  - intros i id Hi. rewrite E2 in Hi. apply Hsh. by apply (st_list _ _ _ _ Hst).
  - intros cls c Hc Hx. rewrite E1 in Hc. pose proof (st_cache _ _ _ _ Hst cls c Hc Hx) as Hok.
    assert (Hb : _buckets c ∉ refs) by (intros Hin; destruct (Hgar _ (Hsub _ Hin)) as (_ & _ & Hne); by apply (Hne cls c)).
    destruct Hok as [H1 H2 H3|k arr H1 H2 H3 H4 H5 H6 H7 H8]; [|apply (ok_table _ _ _ _ _ k arr); try done; by rewrite E3].
    apply ok_constant; [done|done|]. unfold empty_for. by rewrite E2.
  - rewrite Hg. split; [apply NoDup_nil_2|]. intros id Hid. by apply elem_of_nil in Hid.
Qed.

Lemma dispose_garbage_wp x N g m (Q : unit -> ghost -> cmem -> Prop) : stable_but x N g m ->
  (forall g' m', stable_but x N g' m' -> own g' = own g -> collected (garbage_refs m) m m' -> Q tt g' m') ->
  let g1 := mk_ghost (list_to_set (garbage_refs m)) (own g) in inv a H g1 m /\ wp a H dispose_garbage g1 m Q.
Proof.
  intros Hst HQ g1. destruct (st_garbage _ _ _ _ Hst) as [Hnd Hgar].
  assert (Hinv1 : inv a H g1 m).
  { split; [apply Hst|]. intros cls c Hc. destruct (inv_caches _ _ _ _ (st_inv _ _ _ _ Hst) cls c Hc) as (H1 & _ & H2). split_and!; [done| |done].
    simpl. rewrite elem_of_list_to_set. intros Hin. destruct (Hgar _ Hin) as (_ & _ & Hne). by apply (Hne cls c). }
  split; [done|]. unfold dispose_garbage. apply wp_get, wp_bind, free_garbage_wp; [done|done| | |done|].
  - intros id. simpl. by rewrite elem_of_list_to_set.
  - intros id Hid. rewrite firstn_all in Hid. by apply Hgar.
  - intros m' Hinv' Hco. apply put_garbage_wp; [done|]. intros m2 Hinv2.
    assert (Hco' : collected (garbage_refs m) m (mk_cmem (arrays m') (caches m') (emptyBucketsList m') [] 0)) by (destruct Hco; by split).
    apply HQ; [|done|done]. apply (stable_collected x N g m _ (garbage_refs m)); [done|done|done|done|done|]. intros id. by rewrite elem_of_list_to_set.
Qed.

Lemma cache_collect_wp x N g m (Q : unit -> ghost -> cmem -> Prop) : stable_but x N g m ->
  (forall g' m', stable_but x N g' m' -> own g' = own g -> collected (garbage_refs m) m m' -> Q tt g' m') ->
  forall b, wp a H (cache_collect b) g m Q.
Proof.
  intros Hst HQ b. assert (Hsame : Q tt g m) by (apply HQ; [done|done|by split]). unfold cache_collect. simpl.
  destruct b; simpl; [rewrite andb_false_r|rewrite andb_true_r].
  - by apply (dispose_garbage_wp x N).
  - destruct (_ <? garbage_threshold); [done|]. simpl. split; [done|]. by apply (dispose_garbage_wp x N).
Qed.

(** ** Changing the array of a class *)

Lemma stable_all N g m cls c : stable_but (Some cls) N g m -> caches m !! cls = Some c -> cache_ok N g m cls c -> stable N g m.
Proof.
  intros [H1 H2 H3 H4 H5 H6] Hc Hok. split; try done. intros cls' c' Hc' _. destruct (decide (cls' = cls)) as [->|Hne]; [congruence|].
  apply H5; [done|congruence].
Qed.

Lemma cache_ok_other N g g' m m' cls c : own g' !! _buckets c = own g !! _buckets c -> arrays m' !! _buckets c = arrays m !! _buckets c ->
  (forall i id, emptyBucketsList m !! i = Some id -> emptyBucketsList m' !! i = Some id) -> cache_ok N g m cls c -> cache_ok N g' m' cls c.
Proof.
  intros Ho Ha Hl [H1 H2 H3|k arr H1 H2 H3 H4 H5 H6 H7 H8].
  - apply ok_constant; [by rewrite Ho|done|]. destruct H3 as [H3|(k & Hk & Hm & He)]; [by left|right]. exists k. split_and!; [lia|lia|done|].
    unfold empty_for in *. destruct (_ <=? EMPTY_BYTES); [done|by apply Hl].
  - apply (ok_table _ _ _ _ _ k arr); try done; [by rewrite Ho|by rewrite Ha].
Qed.

Lemma shared_alloc g m id arr o id' n : arrays m !! id = None -> shared_array g m id' n -> shared_array (galloc g id o) (set_arrays m (<[id := arr]> (arrays m))) id' n.
Proof.
  intros Hid (H1 & H2 & arr' & H3 & H4). assert (id <> id') by congruence. split; [by rewrite own_galloc_ne|]. split; [simpl; set_solver|].
  exists arr'. simpl. by rewrite lookup_insert_ne.
Qed.

(** A new array changes nothing for the others. *)
Lemma stable_new_array x N g m id arr o : stable_but x N g m -> arrays m !! id = None -> id <> 0 ->
  inv a H (galloc g id o) (set_arrays m (<[id := arr]> (arrays m))) -> stable_but x N (galloc g id o) (set_arrays m (<[id := arr]> (arrays m))).
Proof.
  intros Hst Hid Hnz Hinv. destruct (st_garbage _ _ _ _ Hst) as [Hnd Hgar].
  assert (Hne : forall cls c, caches m !! cls = Some c -> id <> _buckets c).
  { intros cls c Hc. destruct (inv_caches _ _ _ _ (st_inv _ _ _ _ Hst) cls c Hc) as (_ & _ & arr' & Ha & _). congruence. }
  split; [done|simpl; by rewrite lookup_insert_ne, (st_nil _ _ _ _ Hst)|by apply shared_alloc, Hst| | |].
  - intros i id' Hi. apply shared_alloc; [done|]. by apply (st_list _ _ _ _ Hst).
  - intros cls c Hc Hx. pose proof (st_cache _ _ _ _ Hst cls c Hc Hx) as Hok. revert Hok.
    apply cache_ok_other; [apply own_galloc_ne; by apply (Hne cls)|simpl; apply lookup_insert_ne; by apply (Hne cls)|done].
  - split; [done|]. intros id' Hin. destruct (Hgar id' Hin) as ([arr' Ha] & Ho & Hc). assert (id <> id') by congruence.
    split_and!; [simpl; rewrite lookup_insert_ne by done; by exists arr'|by rewrite own_galloc_ne|done].
Qed.

Lemma stable_set_cache N g m cls c : stable_but (Some cls) N g m -> inv a H g (set_caches m (<[cls := c]> (caches m))) -> _buckets c ∉ garbage_refs m ->
  stable_but (Some cls) N g (set_caches m (<[cls := c]> (caches m))).
Proof.
  intros [H1 H2 H3 H4 H5 [H6 H7]] Hinv Hg. split; try done; simpl.
  - intros cls' c' Hc' Hx. rewrite lookup_insert_ne in Hc' by congruence. pose proof (H5 cls' c' Hc' Hx) as Hok. revert Hok. by apply cache_ok_other.
  - split; [done|]. intros id Hin. destruct (H7 id Hin) as (A & B & D). split_and!; [done|done|]. intros cls' c'.
    destruct (decide (cls = cls')) as [<-|Hne]; [rewrite lookup_insert_eq; intros [= <-] E; by rewrite E in Hg|rewrite lookup_insert_ne by done; apply D].
Qed.

Lemma setBucketsAndMask_wp N g m cls c id mask arr (Q : unit -> ghost -> cmem -> Prop) : stable_but (Some cls) N g m -> caches m !! cls = Some c ->
  _mask c <= mask -> (id ∉ doomed g) -> (id ∉ garbage_refs m) -> arrays m !! id = Some arr -> usable a g id arr mask cls ->
  (let m' := set_caches m (<[cls := mk_cache id mask 0]> (caches m)) in stable_but (Some cls) N g m' -> Q tt g m') ->
  wp a H (setBucketsAndMask cls id mask) g m Q.
Proof.
  intros Hst Hc Hm Hd Hg Harr Hu HQ. unfold setBucketsAndMask. pose proof (st_inv _ _ _ _ Hst) as Hinv.
  apply wp_bind, (put_cache_wp _ _ _ cls c (mk_cache id (_mask c) (_occupied c))); [by apply store_buckets|done|done|done|done| |].
  { exists arr. split; [done|]. by apply (usable_mono _ _ _ _ mask). }
  intros Hinv1. set (m1 := set_caches m (<[cls := mk_cache id (_mask c) (_occupied c)]> (caches m))) in *. assert (Hc1 : caches m1 !! cls = Some (mk_cache id (_mask c) (_occupied c))) by apply lookup_insert_eq.
  apply wp_bind, (put_cache_wp _ _ _ cls (mk_cache id (_mask c) (_occupied c)) (mk_cache id mask (_occupied c))); [by rewrite (store_mask _ _ _ _ Hc1)|done|done|done|done|by exists arr|].
  intros Hinv2. set (m2 := set_caches m1 (<[cls := mk_cache id mask (_occupied c)]> (caches m1))) in *. assert (Hc2 : caches m2 !! cls = Some (mk_cache id mask (_occupied c))) by apply lookup_insert_eq.
  apply (put_cache_wp _ _ _ cls (mk_cache id mask (_occupied c)) (mk_cache id mask 0)); [by rewrite (store_occupied _ _ _ _ Hc2)|done|done|done|done|by exists arr|].
  unfold set_caches, m2, m1. simpl. rewrite !insert_insert_eq. intros Hinv3. apply HQ. by apply stable_set_cache.
Qed.

(** An array that a class has left becomes garbage. *)
Lemma retire_wp x N g m old o cap (Q : unit -> ghost -> cmem -> Prop) : stable_but x N g m -> is_Some (arrays m !! old) -> own g !! old = Some o ->
  (old ∉ garbage_refs m) -> (forall cls c, caches m !! cls = Some c -> _buckets c <> old) ->
  (forall g' m', stable_but x N g' m' -> own g' = own g -> collected (garbage_refs m ++ [old]) m m' -> Q tt g' m') ->
  wp a H (cache_collect_free a old cap ;; cache_collect false)%cache g m Q.
Proof.
  intros Hst Hold Ho Hng Hne HQ. unfold cache_collect_free. apply wp_bind, wp_get, put_garbage_wp; [apply Hst|]. intros m1 Hinv1.
  assert (Hst1 : stable_but x N g m1).
  { destruct Hst as [H1 H2 H3 H4 H5 [H6 H7]]. split; try done; simpl.
    - intros cls c Hc Hx. specialize (H5 cls c Hc Hx). revert H5. by apply cache_ok_other.
    - split; [apply NoDup_app; split_and!; [done|set_solver|apply NoDup_singleton]|]. intros id Hin. apply elem_of_app in Hin as [Hin|Hin]; [by apply H7|].
      apply list_elem_of_singleton in Hin. subst id. split_and!; [done|by exists o|done]. }
  apply (cache_collect_wp x N); [done|]. intros g' m' H1 H2 [E1 E2 E3 E4]. apply HQ; [done|done|by split].
Qed.

(** What another class sees. *)
Definition frame (cls : Z) (m m' : cmem) : Prop :=
  forall cls', cls' <> cls -> caches m' !! cls' = caches m !! cls' /\
    forall c, caches m !! cls' = Some c -> arrays m' !! _buckets c = arrays m !! _buckets c.

Lemma frame_refl cls m : frame cls m m.
Proof. by intros cls' _. Qed.
Lemma cframe_trans cls m1 m2 m3 : frame cls m1 m2 -> frame cls m2 m3 -> frame cls m1 m3.
Proof.
  intros H1 H2 cls' Hne. destruct (H1 cls' Hne) as [A B], (H2 cls' Hne) as [A' B']. split; [congruence|]. intros c Hc. rewrite B' by congruence. by apply B.
Qed.

(** The buckets of two classes are different, unless they are shared. *)
Lemma owned_apart N g m cls c cls' c' : stable N g m -> caches m !! cls = Some c -> caches m !! cls' = Some c' -> cls <> cls' ->
  own g !! _buckets c = Some cls -> _buckets c' <> _buckets c.
Proof.
  intros Hst Hc Hc' Hne Ho E. pose proof (st_cache _ _ _ _ Hst cls' c' Hc' ltac:(done)) as [H1 _ _|k arr _ _ H1 _ _ _ _ _]; rewrite E in H1; congruence.
Qed.

Lemma reallocate_wp N g m cls c k cap (Q : unit -> ghost -> cmem -> Prop) : 0 <= N -> stable N g m -> caches m !! cls = Some c -> 2 <= k <= 30 -> _mask c <= 2 ^ k - 1 ->
  (forall id g' m', stable N g' m' -> caches m' !! cls = Some (mk_cache id (2 ^ k - 1) 0) -> own g' !! id = Some cls ->
    arrays m' !! id = Some (new_array a id k) -> frame cls m m' -> Q tt g' m') -> wp a H (reallocate a cls cap (2 ^ k)) g m Q.
Proof.
  intros HN Hst Hc Hk Hm HQ. assert (H4 : 2 ^ 2 <= 2 ^ k) by (apply Z.pow_le_mono_r; lia). assert (H30 : 2 ^ k <= 2 ^ 30) by (apply Z.pow_le_mono_r; lia).
  unfold reallocate, canBeFreed. apply wp_bind, wp_bind, (isConstant_wp N _ _ _ c); [done|done|]. 
  apply wp_bind, (wp_getCache _ _ _ c); [done|]. apply wp_bind, (allocateBuckets_wp cls); [lia|apply Hst|]. intros id Hid Hnz g1 m1 Hinv1.
  apply wp_bind, wp_cassert; [apply Z.ltb_lt; lia|]. rewrite wrap_id by (unfold in_u; lia).
  pose proof (stable_new_array (Some cls) N g m id _ _ (stable_weaken _ N N g m ltac:(lia) Hst) Hid Hnz Hinv1) as Hst1. fold g1 m1 in Hst1.
  assert (Hfresh : forall cls' c', caches m !! cls' = Some c' -> _buckets c' <> id).
  { intros cls' c' Hc' E. destruct (inv_caches _ _ _ _ (st_inv _ _ _ _ Hst) cls' c' Hc') as (_ & _ & arr & Ha & _). congruence. }
  assert (Hgid : id ∉ garbage_refs m) by (intros Hin; destruct (proj2 (st_garbage _ _ _ _ Hst) id Hin) as ([? ?] & _); congruence).
  destruct (new_array_table id k ltac:(lia)) as [Htab Hused].
  apply wp_bind, (setBucketsAndMask_wp N _ _ cls c id (2 ^ k - 1) (new_array a id k)); [done|done|lia|simpl; set_solver|done|simpl; apply lookup_insert_eq| |].
  { split; [rewrite (tb_len _ _ _ Htab); lia|]. right. split; [apply own_galloc|]. intros Ha. unfold new_array. rewrite Ha. by rewrite last_snoc. }
  intros m2 Hst2. assert (Hok2 : cache_ok N g1 m2 cls (mk_cache id (2 ^ k - 1) 0)).
  { apply (ok_table _ _ _ _ _ k (new_array a id k)); simpl; [lia|done|apply lookup_insert_eq|apply lookup_insert_eq|done|by rewrite Hused|rewrite Hused|rewrite Hused; lia].
    pose proof (Z.div_pos (2 ^ k) 4 ltac:(lia) ltac:(lia)). lia. }
  assert (Hst2' : stable N g1 m2) by (apply (stable_all N g1 m2 cls (mk_cache id (2 ^ k - 1) 0)); [done|simpl; apply lookup_insert_eq|done]).
  assert (Hfr : frame cls m m2).
  { intros cls' Hne. simpl. rewrite lookup_insert_ne by done. split; [done|]. intros c' Hc'. apply lookup_insert_ne. intros E. by apply (Hfresh cls' c'). }
  destruct (own g !! _buckets c) as [o|] eqn:Ho; simpl negb; cbv iota.
  - assert (o = cls) as -> by (pose proof (st_cache _ _ _ _ Hst cls c Hc ltac:(done)) as [H1 _ _|k' arr' _ _ H1 _ _ _ _ _]; congruence).
    pose proof (Hfresh cls c Hc) as Hne. apply (retire_wp None N g1 m2 (_buckets c) cls); [done| | | | |].
    + simpl. rewrite lookup_insert_ne by done. destruct (inv_caches _ _ _ _ (st_inv _ _ _ _ Hst) cls c Hc) as (_ & _ & arr & Ha & _). by exists arr.
    + unfold g1. by rewrite own_galloc_ne.
    + intros Hin. destruct (proj2 (st_garbage _ _ _ _ Hst) _ Hin) as (_ & _ & Hn). by apply (Hn cls c).
    + intros cls' c' Hc'. simpl in Hc'. destruct (decide (cls = cls')) as [<-|Hnc]; [rewrite lookup_insert_eq in Hc'; injection Hc' as <-; simpl; congruence|].
      rewrite lookup_insert_ne in Hc' by done. by apply (owned_apart N g m cls c cls' c').
    + intros g' m' Hst' Ho' [E1 E2 E3 E4]. simpl in E1, E3. apply (HQ id g' m'); [done|rewrite E1; apply lookup_insert_eq|rewrite Ho'; apply own_galloc| |].
      * rewrite E3; [apply lookup_insert_eq|]. set_solver.
      * apply (cframe_trans cls m m2 m' Hfr). intros cls' Hnc. split; [by rewrite E1|]. intros c' Hc'. simpl in Hc'. rewrite lookup_insert_ne in Hc' by done.
        apply E3. intros Hin. apply elem_of_app in Hin as [Hin|Hin].
        -- destruct (proj2 (st_garbage _ _ _ _ Hst) _ Hin) as (_ & _ & Hn). by apply (Hn cls' c').
        -- apply list_elem_of_singleton in Hin. by apply (owned_apart N g m cls c cls' c').
  - apply (HQ id g1 m2); [done|simpl; apply lookup_insert_eq|apply own_galloc|simpl; apply lookup_insert_eq|done].
Qed.

End Writers.
