(* ===== verification/CacheOperations.v ===== *)
(** * The operations on the method caches

    [cache_fill_nolock], [cache_erase_nolock] and [flushCaches]: each is safe for the readers
    store by store, never reaches the fatal error of [find], and changes the entries of its
    class only: filling adds one and may drop the others, erasing drops all. *)

From Stdlib Require Import ZArith Lia Bool.
From stdpp Require Import base list gmap.
From S2P Require Import Prelude RetainCount Probing MethodBuckets CacheReaders CacheTable CacheWriters.

Local Open Scope Z_scope.

(** The entries of a class, as a search over the whole array would find them. *)
Definition entry (m : cmem) (cls sel imp : Z) : Prop :=
  exists c arr i, caches m !! cls = Some c /\ arrays m !! _buckets c = Some arr /\ 0 <= i <= _mask c /\ sel <> 0 /\
    bucket_at arr i = Some (mk_bucket sel imp).

Lemma entry_frame cls m m' cls' sel imp : frame cls m m' -> cls' <> cls -> entry m' cls' sel imp <-> entry m cls' sel imp.
Proof.
  intros Hf Hne. destruct (Hf cls' Hne) as [E1 E2]. split; intros (c & arr & i & Hc & Ha & Hi & Hs & Hb); exists c, arr, i; split_and!; try done; try lia.
  - congruence.
  - rewrite <- E2; [done|congruence].
  - congruence.
  - rewrite E2; [done|congruence].
Qed.

Section Operations.
Context (a : arch) (H : Z -> Z -> Z -> Prop) (HH : forall c s i, H c s i -> i <> 0).
#[local] Abbreviation stable := (stable_but a H None).

(** What is known of a class with a table of its own. *)
Record own_table (N : Z) (m : cmem) (cls : Z) (c : cache_t) (k : Z) (arr : list bucket_t) : Prop := {
  ot_k : 2 <= k <= 30;
  ot_mask : _mask c = 2 ^ k - 1;
  ot_array : arrays m !! _buckets c = Some arr;
  ot_table : table_ok a k arr;
  ot_occupied : _occupied c = used k arr;
  ot_load : used k arr <= 2 ^ k / 4 * 3;
  ot_bound : used k arr <= N;
  ot_marker : a = x86_64 -> last arr = Some (end_marker (_buckets c));
  ot_filled : forall i b, 0 <= i < 2 ^ k -> bucket_at arr i = Some b -> b_sel b <> 0 -> 1 < b_sel b /\ H cls (b_sel b) (b_imp b);
}.

Lemma stable_table N g m cls c o : stable N g m -> caches m !! cls = Some c -> own g !! _buckets c = Some o -> o = cls /\ exists k arr, own_table N m cls c k arr.
Proof.
  intros Hst Hc Ho. pose proof (st_cache _ _ _ _ _ _ Hst cls c Hc ltac:(done)) as [Hn _ _|k arr Hk Hm Ho' Ha Ht Hocc Hl HN]; [congruence|].
  assert (o = cls) as -> by congruence. split; [done|]. exists k, arr.
  destruct (inv_caches _ _ _ _ (st_inv _ _ _ _ _ _ Hst) cls c Hc) as (_ & _ & arr' & Ha' & _ & Hu). assert (arr' = arr) as -> by congruence.
  split; try done.
  - intros Hx. destruct Hu as [?|[_ Hu]]; [congruence|by apply Hu].
  - intros i b Hi Hb Hs. apply bucket_at_nat in Hb as [_ Hb]. pose proof (inv_arrays _ _ _ _ (st_inv _ _ _ _ _ _ Hst) _ _ Ha _ _ Hb) as Hok. rewrite Ho in Hok.
    destruct Hok as [?|[(? & ? & _)|(Hx & Hj & _)]]; [done|done|]. exfalso. pose proof (tb_len _ _ _ Ht) as Hlen. unfold slots in Hlen. rewrite Hx in Hlen. lia.
Qed.

Lemma own_table_room N m cls c k arr : own_table N m cls c k arr -> used k arr < 2 ^ k /\ 0 < 2 ^ k <= 2 ^ 30 /\ 1 <= 2 ^ k / 4.
Proof.
  intros Ht. pose proof (ot_k _ _ _ _ _ _ Ht). pose proof (ot_load _ _ _ _ _ _ Ht). assert (2 ^ 2 <= 2 ^ k) by (apply Z.pow_le_mono_r; lia).
  assert (2 ^ k <= 2 ^ 30) by (apply Z.pow_le_mono_r; lia). pose proof (Z.mul_div_le (2 ^ k) 4 ltac:(lia)). pose proof (Z.div_le_mono 4 (2 ^ k) 4 ltac:(lia) ltac:(lia)) as Hd.
  change (4 / 4) with 1 in Hd. lia.
Qed.

(** The lookup of a thread that holds the lock finds exactly the entries. *)
Lemma getImp_entry N g m cls sel : stable N g m -> is_Some (caches m !! cls) -> 1 < sel ->
  (exists imp, entry m cls sel imp /\ imp <> 0 /\ getImp a m cls sel = Ret imp) \/ ((forall imp, ~ entry m cls sel imp) /\ getImp a m cls sel = Ret 0).
Proof.
  intros Hst [c Hc] Hs. destruct (own g !! _buckets c) as [o|] eqn:Ho.
  - destruct (stable_table N g m cls c o Hst Hc Ho) as (-> & k & arr & Ht). destruct (own_table_room _ _ _ _ _ _ Ht) as (Hu & Hcap & _).
    pose proof (ot_k _ _ _ _ _ _ Ht) as Hk. pose proof (ot_table _ _ _ _ _ _ Ht) as Htab.
    destruct (search_ends a k arr sel ltac:(lia) (tb_len _ _ _ Htab) Hu) as [j Hj].
    destruct (lookup_table a m cls c sel k arr j) as (b & Hb & Hg); [lia|done|done|apply Ht|apply Ht|apply Htab|apply Ht| |done|].
    { intros i b Hi Hb Hz. by apply (ot_filled _ _ _ _ _ _ Ht i b). }
    pose proof (probe_range a (cache_hash sel (2 ^ k - 1)) (2 ^ k) j ltac:(lia)) as Hp. unfold found in Hg.
    destruct (Z.eqb_spec (b_sel b) sel) as [E|E]; simpl in Hg.
    + left. exists (b_imp b). destruct (ot_filled _ _ _ _ _ _ Ht _ b Hp Hb ltac:(lia)) as [_ HHb]. split_and!; [|by apply (HH _ _ _ HHb)|done].
      exists c, arr, (probe a (cache_hash sel (2 ^ k - 1)) (2 ^ k) j). rewrite (ot_mask _ _ _ _ _ _ Ht). split_and!; [done|apply Ht|lia|lia|lia|].
      rewrite Hb. f_equal. destruct b; simpl in *; congruence.
    + right. split; [|done]. intros imp (c' & arr' & i & Hc' & Ha' & Hi & _ & Hb'). assert (c' = c) as -> by congruence.
      pose proof (ot_array _ _ _ _ _ _ Ht). assert (arr' = arr) as -> by congruence. rewrite (ot_mask _ _ _ _ _ _ Ht) in Hi.
      pose proof (search_complete a k arr sel j i _ Htab Hj ltac:(lia) Hb' eq_refl ltac:(lia)) as Hpi. rewrite Hpi, Hb' in Hb. injection Hb as <-. done.
  - right. destruct (inv_caches _ _ _ _ (st_inv _ _ _ _ _ _ Hst) cls c Hc) as (Hm & _ & arr & Ha & Hsl & _).
    assert (Hz : forall j b, arr !! j = Some b -> b = no_bucket).
    { intros j b Hb. pose proof (inv_arrays _ _ _ _ (st_inv _ _ _ _ _ _ Hst) _ _ Ha _ _ Hb) as Hok. by rewrite Ho in Hok. }
    split; [|by apply (lookup_zero a m cls c sel arr)]. intros imp (c' & arr' & i & Hc' & Ha' & Hi & Hs0 & Hb'). assert (c' = c) as -> by congruence.
    assert (arr' = arr) as -> by congruence. apply bucket_at_nat in Hb' as [_ Hb']. by injection (Hz _ _ Hb') as -> ->.
Qed.

(** ** Making room *)

(** A table that the new entry fits in. *)
Definition roomy (N : Z) (cls : Z) (m : cmem) (g' : ghost) (m' : cmem) : Prop :=
  stable N g' m' /\ frame cls m m' /\ ((forall s i, entry m' cls s i <-> entry m cls s i) \/ (forall s i, ~ entry m' cls s i)) /\
  exists c k arr, caches m' !! cls = Some c /\ own g' !! _buckets c = Some cls /\ own_table N m' cls c k arr /\ used k arr + 1 <= 2 ^ k / 4 * 3.

Lemma reallocate_roomy N g m cls c k cap (Q : unit -> ghost -> cmem -> Prop) : 0 <= N -> stable N g m -> caches m !! cls = Some c -> 2 <= k <= 30 -> _mask c <= 2 ^ k - 1 ->
  (forall g' m', roomy N cls m g' m' -> Q tt g' m') -> wp a H (reallocate a cls cap (2 ^ k)) g m Q.
Proof.
  intros HN Hst Hc Hk Hm HQ. apply (reallocate_wp a H N g m cls c k); [done..|]. intros id g' m' Hst' Hc' Ho Ha Hf. apply HQ.
  destruct (new_array_table a id k ltac:(lia)) as [Ht Hu]. destruct (stable_table N g' m' cls _ cls Hst' Hc' Ho) as (_ & k' & arr' & Hot).
  pose proof (ot_array _ _ _ _ _ _ Hot) as Ha'. simpl in Ha'. assert (arr' = new_array a id k) as -> by congruence.
  pose proof (ot_mask _ _ _ _ _ _ Hot) as Hmk. simpl in Hmk. assert (k' = k) as -> by (apply (Z.pow_inj_r 2); [lia|destruct Hot; lia|lia|lia]).
  split_and!; [done|done| |].
  - right. intros s i (c0 & arr0 & j & Hc0 & Ha0 & Hj & Hs & Hb). assert (c0 = mk_cache id (2 ^ k - 1) 0) as -> by congruence. simpl in *.
    assert (arr0 = new_array a id k) as -> by congruence. apply new_array_at in Hb; [|lia|lia]. by injection Hb as -> _.
  - eexists _, k, _. split_and!; [done|done|done|]. destruct (own_table_room _ _ _ _ _ _ Hot) as (_ & _ & Hd). lia.
Qed.

Lemma make_room_wp N g m cls (Q : unit -> ghost -> cmem -> Prop) : 0 <= N <= 2 ^ 29 -> stable N g m -> is_Some (caches m !! cls) ->
  (forall g' m', roomy N cls m g' m' -> Q tt g' m') -> wp a H (make_room a cls) g m Q.
Proof.
  intros HN Hst [c Hc] HQ. unfold make_room. apply wp_bind, (wp_getCache _ _ _ c); [done|]. apply wp_bind, (isConstant_wp a H N _ _ _ c); [done|done|].
  destruct (own g !! _buckets c) as [o|] eqn:Ho.
  - destruct (stable_table N g m cls c o Hst Hc Ho) as (-> & k & arr & Ht). destruct (own_table_room _ _ _ _ _ _ Ht) as (Hu & Hcap & Hd).
    pose proof (ot_k _ _ _ _ _ _ Ht) as Hk. rewrite (capacity_pow2 c k) by (lia || apply Ht). rewrite (ot_occupied _ _ _ _ _ _ Ht).
    assert (0 <= used k arr) by (unfold used; lia). rewrite wrap_id by (unfold in_u; lia).
    destruct (Z.leb_spec (used k arr + 1) (2 ^ k / 4 * 3)) as [Hle|Hgt].
    + apply HQ. split_and!; [done|apply frame_refl|by left|]. by exists c, k, arr.
    + assert (k <= 29).
      { destruct (decide (k <= 29)); [done|]. assert (k = 30) as -> by lia. pose proof (ot_bound _ _ _ _ _ _ Ht). change (2 ^ 30 / 4 * 3) with 805306368 in Hgt. lia. }
      unfold expand. apply wp_bind, (wp_getCache _ _ _ c); [done|]. rewrite (capacity_pow2 c k) by (lia || apply Ht).
      rewrite (proj2 (Z.eqb_neq (2 ^ k) 0)) by lia. simpl negb. cbv iota. replace (2 ^ k * 2) with (2 ^ (k + 1)) by (rewrite Z.pow_add_r by lia; lia).
      assert (2 ^ (k + 1) <= 2 ^ 30) by (apply Z.pow_le_mono_r; lia). assert (2 ^ k <= 2 ^ (k + 1)) by (apply Z.pow_le_mono_r; lia).
      rewrite !(wrap_id 32 (2 ^ (k + 1))) by (unfold in_u; lia). rewrite Z.eqb_refl. simpl negb. cbv iota.
      apply (reallocate_roomy N g m cls c); [lia|done|done|lia|rewrite (ot_mask _ _ _ _ _ _ Ht); lia|done].
  - pose proof (st_cache _ _ _ _ _ _ Hst cls c Hc ltac:(done)) as [_ _ Hm|k arr _ _ Ho' _ _ _ _ _]; [|congruence].
    destruct Hm as [[Hm _]|(k & Hk & Hm & _)].
    + assert (Hcap : capacity c = 0) by (unfold capacity; by rewrite Hm). rewrite Hcap. simpl negb. cbv iota. change INIT_CACHE_SIZE with (2 ^ 2).
      apply (reallocate_roomy N g m cls c); [lia|done|done|lia|lia|done].
    + rewrite (capacity_pow2 c k) by (lia || done). assert (2 ^ 2 <= 2 ^ k) by (apply Z.pow_le_mono_r; lia).
      rewrite (proj2 (Z.eqb_neq (2 ^ k) 0)) by lia. simpl negb. cbv iota. apply (reallocate_roomy N g m cls c); [lia|done|done|lia|lia|done].
Qed.

(** ** Filling *)

(** The memory with one more entry. *)
Definition with_entry (m : cmem) (cls : Z) (c : cache_t) (arr : list bucket_t) (i sel imp : Z) : cmem :=
  let m1 := set_caches m (<[cls := mk_cache (_buckets c) (_mask c) (_occupied c + 1)]> (caches m)) in
  set_arrays m1 (<[_buckets c := <[Z.to_nat i := mk_bucket sel imp]> arr]> (arrays m1)).

Lemma with_entry_stable N g m cls c k arr j sel imp : stable N g m -> caches m !! cls = Some c -> own g !! _buckets c = Some cls -> own_table N m cls c k arr ->
  used k arr + 1 <= 2 ^ k / 4 * 3 -> ends_at a sel arr k j -> let i := probe a (cache_hash sel (2 ^ k - 1)) (2 ^ k) j in
  sel_of arr i = 0 -> sel <> 0 -> inv a H g (with_entry m cls c arr i sel imp) -> stable (N + 1) g (with_entry m cls c arr i sel imp).
Proof.
  intros Hst Hc Ho Ht Hl Hj i Hz Hs Hinv. destruct (own_table_room _ _ _ _ _ _ Ht) as (_ & Hcap & _). pose proof (ot_k _ _ _ _ _ _ Ht) as Hk.
  pose proof (probe_range a (cache_hash sel (2 ^ k - 1)) (2 ^ k) j ltac:(lia)) as Hp. fold i in Hp. pose proof (ot_table _ _ _ _ _ _ Ht) as Htab.
  pose proof (tb_len _ _ _ Htab) as Hlen0. pose proof (slots_length a arr) as Hsl0.
  assert (Hsh : forall id n, shared_array g m id n -> shared_array g (with_entry m cls c arr i sel imp) id n).
  { intros id n (A & B & arr' & D & E). split_and!; [done|done|]. exists arr'. split; [|done]. simpl. rewrite lookup_insert_ne; [done|]. congruence. }
  pose proof Hst as [H1 H2 H3 H4 H5 [H6 H7]]. split; [done| |by apply Hsh| | |].
  - simpl. rewrite lookup_insert_ne; [done|]. intros E. rewrite <- E in H2. pose proof (ot_array _ _ _ _ _ _ Ht). congruence.
  - intros n id Hn. apply Hsh. by apply (H4 n).
  - intros cls' c' Hc' _. simpl in Hc'. destruct (decide (cls = cls')) as [<-|Hne].
    + rewrite lookup_insert_eq in Hc'. injection Hc' as <-.
      assert (Hu : used k (<[Z.to_nat i := mk_bucket sel imp]> arr) = used k arr + 1) by (apply used_insert; [done|lia|done|done]).
      apply (ok_table _ _ _ _ _ _ k (<[Z.to_nat i := mk_bucket sel imp]> arr)); simpl; rewrite ?Hu; [lia|apply Ht|done|apply lookup_insert_eq| | |done|].
      * apply table_insert; [lia|done|done|done|done].
      * rewrite (ot_occupied _ _ _ _ _ _ Ht). done.
      * pose proof (ot_bound _ _ _ _ _ _ Ht). lia.
    + rewrite lookup_insert_ne in Hc' by done. apply (cache_ok_mono _ N); [lia|]. specialize (H5 cls' c' Hc' ltac:(done)). revert H5.
      apply cache_ok_other; [done| |done]. simpl. rewrite lookup_insert_ne; [done|]. intros E.
      by apply (owned_apart a H N g m cls c cls' c').
  - split; [done|]. intros id Hin. destruct (H7 id Hin) as (A & B & D). split_and!; [|done|].
    + simpl. destruct (decide (_buckets c = id)) as [<-|Hne]; [rewrite lookup_insert_eq; by eexists|by rewrite lookup_insert_ne].
    + intros cls' c' Hc'. simpl in Hc'. destruct (decide (cls = cls')) as [<-|Hne]; [|rewrite lookup_insert_ne in Hc' by done; by apply (D cls')].
      rewrite lookup_insert_eq in Hc'. injection Hc' as <-. simpl. by apply (D cls).
Qed.

Lemma with_entry_entries m cls c k arr i sel imp : caches m !! cls = Some c -> arrays m !! _buckets c = Some arr -> _mask c = 2 ^ k - 1 -> 0 <= i < 2 ^ k ->
  2 ^ k <= Z.of_nat (length arr) -> sel_of arr i = 0 -> sel <> 0 ->
  forall s v, entry (with_entry m cls c arr i sel imp) cls s v <-> entry m cls s v \/ (s = sel /\ v = imp).
Proof.
  intros Hc Ha Hm Hi Hlen Hz Hs s v. split.
  - intros (c' & arr' & j & Hc' & Ha' & Hj & Hs' & Hb). simpl in Hc', Ha'. rewrite lookup_insert_eq in Hc'. injection Hc' as <-. simpl in *.
    rewrite lookup_insert_eq in Ha'. injection Ha' as <-. rewrite bucket_at_insert in Hb by lia. destruct (Z.eqb_spec j i) as [->|Hne].
    + injection Hb as -> ->. by right.
    + left. by exists c, arr, j.
  - intros [(c' & arr' & j & Hc' & Ha' & Hj & Hs' & Hb)|[-> ->]].
    + assert (c' = c) as -> by congruence. assert (arr' = arr) as -> by congruence.
      eexists _, _, j. simpl. rewrite lookup_insert_eq. split_and!; [done|simpl; by rewrite lookup_insert_eq|simpl; lia|simpl; lia|done|].
      rewrite bucket_at_insert by lia. destruct (Z.eqb_spec j i) as [->|Hne]; [|done]. unfold sel_of in Hz. by rewrite Hb in Hz.
    + eexists _, _, i. simpl. rewrite lookup_insert_eq. split_and!; [done|simpl; by rewrite lookup_insert_eq|simpl; lia|simpl; lia|done|].
      rewrite bucket_at_insert by lia. by rewrite Z.eqb_refl.
Qed.

(** Adding the entry, once there is room. *)
Lemma add_entry_wp N g m cls sel imp c k arr (Q : unit -> ghost -> cmem -> Prop) : stable N g m -> caches m !! cls = Some c -> own g !! _buckets c = Some cls ->
  own_table N m cls c k arr -> used k arr + 1 <= 2 ^ k / 4 * 3 -> 1 < sel -> H cls sel imp -> (forall v, ~ entry m cls sel v) ->
  (forall m', stable (N + 1) g m' -> frame cls m m' -> (forall s v, entry m' cls s v <-> entry m cls s v \/ (s = sel /\ v = imp)) -> Q tt g m') ->
  wp a H (do i <- find a cls sel; do c <- getCache cls; do b <- load_bucket (_buckets c) i;
    (if b_sel b =? 0 then put (S_occupied cls (u32 (_occupied c + 1))) else Done tt) ;; set_bucket a (_buckets c) i sel imp)%cache g m Q.
Proof.
  intros Hst Hc Ho Ht Hl Hs HHs Hno HQ. destruct (own_table_room _ _ _ _ _ _ Ht) as (Hu & Hcap & _). pose proof (ot_k _ _ _ _ _ _ Ht) as Hk.
  pose proof (ot_table _ _ _ _ _ _ Ht) as Htab. pose proof (tb_len _ _ _ Htab) as Hlen. pose proof (slots_length a arr).
  destruct (search_ends a k arr sel ltac:(lia) Hlen Hu) as [j Hj]. set (i := probe a (cache_hash sel (2 ^ k - 1)) (2 ^ k) j).
  pose proof (probe_range a (cache_hash sel (2 ^ k - 1)) (2 ^ k) j ltac:(lia)) as Hp. fold i in Hp.
  destruct (bucket_at_Some arr i ltac:(lia)) as (b & Hb & Hb').
  assert (Hz : b_sel b = 0).
  { destruct Hj as (_ & Hstop & _). unfold stops, sel_of in Hstop. fold i in Hstop. rewrite Hb in Hstop. apply orb_true_iff in Hstop as [E|E]; apply Z.eqb_eq in E; [done|].
    exfalso. apply (Hno (b_imp b)). exists c, arr, i. rewrite (ot_mask _ _ _ _ _ _ Ht). split_and!; [done|apply Ht|lia|lia|lia|]. rewrite Hb. f_equal. destruct b; simpl in *; congruence. }
  assert (Hzs : sel_of arr i = 0) by (unfold sel_of; by rewrite Hb).
  apply wp_bind. unfold find. apply wp_bind, wp_cassert; [apply negb_true_iff, Z.eqb_neq; lia|]. apply wp_bind, (wp_getCache _ _ _ c); [done|]. cbv zeta.
  rewrite (ot_mask _ _ _ _ _ _ Ht). replace (2 ^ k - 1 + 1) with (2 ^ k) by lia.
  rewrite <- (probe_0 a (cache_hash sel (2 ^ k - 1)) (2 ^ k)) at 2 by (apply cache_hash_range; lia).
  apply (find_from_wp a H g m (_buckets c) arr sel k j); [lia|apply Ht|done|done|destruct Hj; lia|destruct Hj; lia|]. fold i.
  apply wp_bind, (wp_getCache _ _ _ c); [done|]. apply wp_bind, (wp_load_bucket _ _ _ _ b); [unfold bucket_in; by rewrite (ot_array _ _ _ _ _ _ Ht)|].
  rewrite Hz. simpl (0 =? 0). cbv iota. assert (0 <= used k arr) by (unfold used; lia). rewrite (ot_occupied _ _ _ _ _ _ Ht), wrap_id by (unfold in_u; lia).
  rewrite <- (ot_occupied _ _ _ _ _ _ Ht). destruct (inv_caches _ _ _ _ (st_inv _ _ _ _ _ _ Hst) cls c Hc) as (Hm0 & Hd & Hus).
  apply wp_bind, (put_cache_wp _ _ _ cls c (mk_cache (_buckets c) (_mask c) (_occupied c + 1))); [by apply store_occupied|done|apply Hst|done|done|done|].
  intros Hinv1. apply (set_bucket_wp a H cls _ _ _ _ arr b); [apply Ht|done|done|lia|done|done| |].
  - right. left. split_and!; [simpl; lia|done|]. intros Hx. unfold slots in Hlen. rewrite Hx in Hlen. lia.
  - intros m' Hinv2. assert (Hst' : stable (N + 1) g m') by (apply (with_entry_stable N g m cls c k arr j); [done..|lia|done]). apply HQ; [done| |].
    + intros cls' Hne. simpl. rewrite lookup_insert_ne by done. split; [done|]. intros c' Hc'. rewrite lookup_insert_ne; [done|]. intros E.
      by apply (owned_apart a H N g m cls c cls' c').
    + apply (with_entry_entries m cls c k arr i); [done|apply Ht|apply Ht|done|lia|done|lia].
Qed.

(** What filling does to the entries. *)
Definition fills (cls sel imp : Z) (m m' : cmem) : Prop :=
  (exists v, entry m cls sel v) /\ m' = m \/
  (forall v, ~ entry m cls sel v) /\
    ((forall s v, entry m' cls s v <-> entry m cls s v \/ (s = sel /\ v = imp)) \/ (forall s v, entry m' cls s v <-> s = sel /\ v = imp)).

Lemma cache_fill_wp isInitialized N g m cls sel imp (Q : unit -> ghost -> cmem -> Prop) : 0 <= N <= 2 ^ 29 -> stable N g m -> is_Some (caches m !! cls) ->
  1 < sel -> H cls sel imp ->
  (forall g' m', stable (N + 1) g' m' -> frame cls m m' -> (if isInitialized cls : bool then fills cls sel imp m m' else m' = m) -> Q tt g' m') ->
  wp a H (cache_fill_nolock a isInitialized cls sel imp) g m Q.
Proof.
  intros HN Hst Hc Hs HHs HQ. unfold cache_fill_nolock. pose proof (stable_weaken a H None N (N + 1) g m ltac:(lia) Hst) as Hst'.
  destruct (isInitialized cls); [|apply HQ; [done|apply frame_refl|done]]. simpl negb. cbv iota. unfold cache_getImp. apply wp_bind, wp_get.
  destruct (getImp_entry N g m cls sel Hst Hc Hs) as [(v & He & Hv & Hg)|[Hno Hg]]; rewrite Hg; cbn [wp].
  - rewrite (proj2 (Z.eqb_neq v 0)) by done. apply HQ; [done|apply frame_refl|]. left. split; [by exists v|done].
  - simpl (0 =? 0). simpl negb. cbv iota. apply wp_bind, (make_room_wp N); [done|done|done|].
    intros g1 m1 (Hst1 & Hf1 & He1 & c & k & arr & Hc1 & Ho & Ht & Hl).
    apply (add_entry_wp N g1 m1 cls sel imp c k arr); [done..| |].
    { intros v Hv. destruct He1 as [He1|He1]; [by apply (Hno v), He1|by apply (He1 sel v)]. }
    intros m2 Hst2 Hf2 He2. apply HQ; [done|by apply (cframe_trans cls m m1)|]. right. split; [done|]. destruct He1 as [He1|He1].
    + left. intros s v. rewrite He2. by rewrite He1.
    + right. intros s v. rewrite He2. split; [|by right]. intros [Hx|Hx]; [by destruct (He1 s v)|done].
Qed.

(** ** Erasing *)

Lemma no_entries N g m cls c : stable N g m -> caches m !! cls = Some c -> _occupied c <= 0 -> forall s v, ~ entry m cls s v.
Proof.
  intros Hst Hc Hz s v (c' & arr & i & Hc' & Ha & Hi & Hs & Hb). assert (c' = c) as -> by congruence.
  destruct (own g !! _buckets c) as [o|] eqn:Ho.
  - destruct (stable_table N g m cls c o Hst Hc Ho) as (-> & k & arr' & Ht). pose proof (ot_array _ _ _ _ _ _ Ht). assert (arr' = arr) as -> by congruence.
    rewrite (ot_mask _ _ _ _ _ _ Ht) in Hi. rewrite (ot_occupied _ _ _ _ _ _ Ht) in Hz. unfold used in Hz. apply bucket_at_nat in Hb as [_ Hb].
    assert (Hin : mk_bucket s v ∈ filter (fun b => in_use b = true) (take (Z.to_nat (2 ^ k)) arr)).
    { apply list_elem_of_filter. split; [unfold in_use; simpl; by apply negb_true_iff, Z.eqb_neq|]. apply (list_elem_of_lookup_2 _ (Z.to_nat i)).
      rewrite lookup_take_lt; [done|lia]. }
    destruct (filter _ _); [by apply elem_of_nil in Hin|simpl in Hz; lia].
  - pose proof (inv_arrays _ _ _ _ (st_inv _ _ _ _ _ _ Hst) _ _ Ha) as Hok. apply bucket_at_nat in Hb as [_ Hb]. specialize (Hok _ _ Hb). rewrite Ho in Hok.
    injection Hok as -> _. done.
Qed.

(** The shared empty array for a capacity, made when there is none yet. *)
Lemma emptyBuckets_wp N g m k (Q : option Z -> ghost -> cmem -> Prop) : stable N g m -> 2 <= k <= 30 ->
  (forall id g' m', stable N g' m' -> caches m' = caches m -> garbage_refs m' = garbage_refs m ->
    (forall id' arr, arrays m !! id' = Some arr -> arrays m' !! id' = Some arr /\ own g' !! id' = own g !! id') ->
    shared_array g' m' id (2 ^ k + extra a) -> empty_for a m' (2 ^ k) id -> Q (Some id) g' m') ->
  wp a H (emptyBucketsForCapacity a (2 ^ k) true) g m Q.
Proof.
  intros Hst Hk HQ. unfold emptyBucketsForCapacity. assert (Hin : forall id n, shared_array g m id n -> 2 ^ k + extra a <= n -> shared_array g m id (2 ^ k + extra a)).
  { intros id n (A & B & arr & D & E) Hle. split_and!; [done|done|]. exists arr. split; [done|lia]. }
  assert (Hdef : empty_for a m (2 ^ k) = fun id => if bytesForCapacity a (2 ^ k) <=? EMPTY_BYTES then id = objc_empty_cache else emptyBucketsList m !! Z.to_nat k = Some id)
    by (unfold empty_for; by rewrite log2u_pow2 by lia).
  destruct (Z.leb_spec (bytesForCapacity a (2 ^ k)) EMPTY_BYTES) as [Hb|Hb].
  { apply (HQ objc_empty_cache g m); [done..| |by rewrite Hdef]. apply (Hin _ 1025); [apply Hst|]. rewrite bytes_pow2 in Hb by lia. unfold EMPTY_BYTES in Hb. lia. }
  rewrite log2u_pow2 by lia. apply wp_get. cbv zeta. destruct (Z.leb_spec (Z.of_nat (length (emptyBucketsList m))) k) as [Hn|Hn]; simpl negb; cbv iota.
  - rewrite bytes_pow2, Z.mul_comm, Z.div_mul by lia. apply (wp_alloc _ _ _ _ None). intros id Hid Hnz.
    pose proof (stable_new_array a H None N g m id (replicate (Z.to_nat (2 ^ k + extra a)) no_bucket) None Hst Hid Hnz (inv_alloc a H g m id _ None (st_inv _ _ _ _ _ _ Hst) Hid)) as Hst1.
    change (set_arrays m (<[id := replicate (Z.to_nat (2 ^ k + extra a)) no_bucket]> (arrays m))) with (with_array m id (2 ^ k + extra a)) in Hst1.
    apply wp_bind, put_empties_wp; [apply Hst1|]. intros m2 Hinv2.
    assert (Hnew : shared_array (galloc g id None) m2 id (2 ^ k + extra a)).
    { split_and!; [apply own_galloc|simpl; set_solver|]. simpl. rewrite lookup_insert_eq. eexists. split; [done|]. rewrite length_replicate. lia. }
    assert (Hst2 : stable N (galloc g id None) m2).
    { destruct Hst1 as [H1 H2 H3 H4 H5 H6]. split; try done; simpl.
      - intros i id' Hi. apply lookup_app_Some in Hi as [Hi|[Hge Hi]]; [by apply (H4 i)|]. apply lookup_replicate in Hi as [-> Hi].
        destruct Hnew as (A & B & arr & D & E). split_and!; [done|done|]. exists arr. split; [done|].
        assert (2 ^ Z.of_nat i <= 2 ^ k) by (apply Z.pow_le_mono_r; lia). lia.
      - intros cls c Hc Hx. specialize (H5 cls c Hc Hx). revert H5. apply cache_ok_other; [done|done|]. intros i id' Hi. simpl. by apply lookup_app_l_Some. }
    apply (HQ id (galloc g id None) m2); [done|done|done| |done|].
    + intros id' arr Ha. simpl. assert (id <> id') by congruence. rewrite lookup_insert_ne by done. split; [done|]. by rewrite lookup_delete_ne.
    + unfold empty_for. rewrite log2u_pow2 by lia. rewrite (proj2 (Z.leb_gt _ _)) by done. simpl. rewrite lookup_app_r by lia. apply lookup_replicate. split; [done|lia].
  - destruct (lookup_lt_is_Some_2 (emptyBucketsList m) (Z.to_nat k)) as [id Hid]; [lia|]. rewrite Hid. apply (HQ id g m); [done..| |by rewrite Hdef].
    pose proof (st_list _ _ _ _ _ _ Hst _ _ Hid) as Hsh. rewrite Z2Nat.id in Hsh by lia. done.
Qed.

Lemma cache_erase_wp N g m cls (Q : unit -> ghost -> cmem -> Prop) : stable N g m -> is_Some (caches m !! cls) ->
  (forall g' m', stable N g' m' -> frame cls m m' -> is_Some (caches m' !! cls) -> (forall s v, ~ entry m' cls s v) -> Q tt g' m') ->
  wp a H (cache_erase_nolock a cls) g m Q.
Proof.
  intros Hst [c Hc] HQ. unfold cache_erase_nolock. apply wp_bind, (wp_getCache _ _ _ c); [done|]. cbv zeta.
  destruct (Z.ltb_spec 0 (_occupied c)) as [Hp|Hz]; [|rewrite andb_false_r; apply HQ; [done|apply frame_refl|by exists c|by apply (no_entries N g m cls c)]].
  assert (own g !! _buckets c = Some cls /\ exists k arr, own_table N m cls c k arr) as (Ho & k & arr & Ht).
  { destruct (own g !! _buckets c) as [o|] eqn:Ho; [destruct (stable_table N g m cls c o Hst Hc Ho) as [-> ?]; done|].
    pose proof (st_cache _ _ _ _ _ _ Hst cls c Hc ltac:(done)) as [_ ? _|k arr _ _ ? _ _ _ _ _]; [lia|congruence]. }
  destruct (own_table_room _ _ _ _ _ _ Ht) as (_ & Hcap & _). pose proof (ot_k _ _ _ _ _ _ Ht) as Hk. pose proof (ot_mask _ _ _ _ _ _ Ht) as Hm.
  rewrite (capacity_pow2 c k) by (lia || done). rewrite (proj2 (Z.ltb_lt 0 (2 ^ k))) by lia. simpl andb. cbv iota.
  apply wp_bind, (emptyBuckets_wp N); [done|done|]. intros id g1 m1 Hst1 Hc1 Hg1 Ha1 Hsh He. apply wp_bind. cbn [of_some wp].
  rewrite wrap_id by (unfold in_u; lia). destruct Hsh as (Hon & Hnd & arr1 & Harr1 & Hlen1).
  assert (Hgid : id ∉ garbage_refs m1) by (intros Hin; destruct (proj2 (st_garbage _ _ _ _ _ _ Hst1) id Hin) as (_ & [? ?] & _); congruence).
  destruct (Ha1 _ _ (ot_array _ _ _ _ _ _ Ht)) as [Hold Hoo]. rewrite Ho in Hoo. assert (Hne : _buckets c <> id) by congruence.
  apply wp_bind, (setBucketsAndMask_wp a H N _ _ cls c id (2 ^ k - 1) arr1); [by apply (stable_weaken a H _ N); [lia|]|by rewrite Hc1|lia|done|done|done| |].
  { split; [rewrite slots_extra; lia|by left]. }
  intros m2 Hst2. assert (Hst2' : stable N g1 m2).
  { apply (stable_all a H N g1 m2 cls (mk_cache id (2 ^ k - 1) 0)); [done|simpl; apply lookup_insert_eq|]. apply ok_constant; simpl; [done|done|]. right. by exists k. }
  assert (Hcls' : forall cls' c', cls' <> cls -> caches m !! cls' = Some c' -> _buckets c' <> _buckets c) by (intros cls' c' Hnc Hc'; by apply (owned_apart a H N g m cls c cls' c')).
  apply (retire_wp a H None N g1 m2 (_buckets c) cls); [done|simpl; by exists arr|done| | |].
  - simpl. rewrite Hg1. intros Hin. destruct (proj2 (st_garbage _ _ _ _ _ _ Hst) _ Hin) as (_ & _ & Hn). by apply (Hn cls c).
  - intros cls' c' Hc'. simpl in Hc'. destruct (decide (cls = cls')) as [<-|Hnc]; [rewrite lookup_insert_eq in Hc'; injection Hc' as <-; simpl; congruence|].
    rewrite lookup_insert_ne, Hc1 in Hc' by done. by apply (Hcls' cls').
  - intros g3 m3 Hst3 Ho3 [E1 E2 E3 E4]. simpl in E1, E3. assert (Hcls3 : caches m3 !! cls = Some (mk_cache id (2 ^ k - 1) 0)) by (rewrite E1; apply lookup_insert_eq).
    apply HQ; [done| |by eexists|by apply (no_entries N g3 m3 cls (mk_cache id (2 ^ k - 1) 0))].
    intros cls' Hnc. rewrite E1, lookup_insert_ne, Hc1 by done. split; [done|]. intros c' Hc'.
    destruct (inv_caches _ _ _ _ (st_inv _ _ _ _ _ _ Hst) cls' c' Hc') as (_ & _ & arr' & Ha' & _). rewrite E3; [by rewrite (proj1 (Ha1 _ _ Ha'))|].
    intros Hin. rewrite Hg1 in Hin. apply elem_of_app in Hin as [Hin|Hin].
    + destruct (proj2 (st_garbage _ _ _ _ _ _ Hst) _ Hin) as (_ & _ & Hn). by apply (Hn cls' c').
    + apply list_elem_of_singleton in Hin. by apply (Hcls' cls' c').
Qed.

Lemma flushCaches_wp N classes g m (Q : unit -> ghost -> cmem -> Prop) : stable N g m -> Forall (fun cls => is_Some (caches m !! cls)) classes ->
  (forall g' m', stable N g' m' -> (forall cls s v, entry m' cls s v <-> entry m cls s v /\ cls ∉ classes) -> Q tt g' m') ->
  wp a H (flushCaches a classes) g m Q.
Proof.
  revert g m Q. induction classes as [|cls classes IH]; intros g m Q Hst Hall HQ; cbn [flushCaches].
  { apply HQ; [done|]. intros cls s v. split; [intros Hx; split; [done|apply not_elem_of_nil]|by intros [? _]]. }
  apply Forall_cons_1 in Hall as [Hcls Hall]. apply wp_bind, (cache_erase_wp N); [done|done|]. intros g1 m1 Hst1 Hf Hc1 Hno. apply IH; [done| |].
  - eapply Forall_impl; [exact Hall|]. intros cls' Hc'. simpl. destruct (decide (cls' = cls)) as [->|Hne]; [done|]. by rewrite (proj1 (Hf cls' Hne)).
  - intros g2 m2 Hst2 He. apply HQ; [done|]. intros cls' s v. rewrite He, not_elem_of_cons. destruct (decide (cls' = cls)) as [->|Hne].
    + split; [intros [Hx _]; by apply Hno in Hx|tauto].
    + rewrite (entry_frame cls m m1) by done. tauto.
Qed.

End Operations.

(** ** What the operations do, run to the end *)

(** The lookups of a class after and before. *)
Definition same_lookups (a : arch) (m m' : cmem) (cls : Z) : Prop := forall s, 1 < s -> getImp a m' cls s = getImp a m cls s.

Section Results.
Context (a : arch) (H : Z -> Z -> Z -> Prop) (HH : forall c s i, H c s i -> i <> 0).
Context (place : cmem -> Z) (crit : bool) (Hplace : forall m, arrays m !! place m = None /\ place m <> 0).
#[local] Abbreviation stable := (stable_but a H None).

Lemma entry_unique N g m cls s v v' : stable N g m -> entry m cls s v -> entry m cls s v' -> v = v'.
Proof.
  intros Hst (c & arr & i & Hc & Ha & Hi & Hs & Hb) (c' & arr' & i' & Hc' & Ha' & Hi' & _ & Hb').
  assert (c' = c) as -> by congruence. assert (arr' = arr) as -> by congruence. destruct (own g !! _buckets c) as [o|] eqn:Ho.
  - destruct (stable_table a H N g m cls c o Hst Hc Ho) as (-> & k & arr' & Ht). pose proof (ot_array _ _ _ _ _ _ _ _ Ht). assert (arr' = arr) as -> by congruence.
    rewrite (ot_mask _ _ _ _ _ _ _ _ Ht) in Hi, Hi'. pose proof (ot_k _ _ _ _ _ _ _ _ Ht). destruct (own_table_room _ _ _ _ _ _ _ _ Ht) as (Hu & _).
    pose proof (ot_table _ _ _ _ _ _ _ _ Ht) as Htab. destruct (search_ends a k arr s ltac:(lia) (tb_len _ _ _ Htab) Hu) as [j Hj].
    pose proof (search_complete a k arr s j i _ Htab Hj ltac:(lia) Hb eq_refl Hs) as E.
    pose proof (search_complete a k arr s j i' _ Htab Hj ltac:(lia) Hb' eq_refl Hs) as E'. rewrite <- E, E' in Hb. congruence.
  - pose proof (inv_arrays _ _ _ _ (st_inv _ _ _ _ _ _ Hst) _ _ Ha) as Hok. apply bucket_at_nat in Hb as [_ Hb]. specialize (Hok _ _ Hb). rewrite Ho in Hok.
    injection Hok as -> _. done.
Qed.

(** Lookups and entries. *)
Lemma getImp_found N g m cls s v : stable N g m -> 1 < s -> entry m cls s v -> getImp a m cls s = Ret v /\ v <> 0.
Proof.
  intros Hst Hs He. destruct (getImp_entry a H HH N g m cls s Hst) as [(v' & He' & Hv & Hg)|[Hno _]]; [by destruct He as (c & _ & _ & Hc & _); exists c|done| |].
  - rewrite (entry_unique N g m cls s v v' Hst He He'). done.
  - by destruct (Hno v).
Qed.

Lemma getImp_missing N g m cls s : stable N g m -> 1 < s -> is_Some (caches m !! cls) -> (forall v, ~ entry m cls s v) -> getImp a m cls s = Ret 0.
Proof. intros Hst Hs Hc Hno. destruct (getImp_entry a H HH N g m cls s Hst Hc Hs) as [(v & He & _)|[_ Hg]]; [by destruct (Hno v)|done]. Qed.

(** Classes with the same entries answer the same. *)
Lemma getImp_same N N' g g' m m' cls s : stable N g m -> stable N' g' m' -> 1 < s -> is_Some (caches m !! cls) -> is_Some (caches m' !! cls) ->
  (forall v, entry m' cls s v <-> entry m cls s v) -> getImp a m' cls s = getImp a m cls s.
Proof.
  intros Hst Hst' Hs Hc Hc' He. destruct (getImp_entry a H HH N g m cls s Hst Hc Hs) as [(v & Hv & _ & Hg)|[Hno Hg]]; rewrite Hg.
  - by apply (getImp_found N' g'), He.
  - apply (getImp_missing N' g'); [done..|]. intros v Hv. by apply (Hno v), He.
Qed.

Lemma frame_lookups N N' g g' m m' cls : stable N g m -> stable N' g' m' -> frame cls m m' ->
  forall cls', cls' <> cls -> is_Some (caches m !! cls') -> same_lookups a m m' cls'.
Proof.
  intros Hst Hst' Hf cls' Hne Hc s Hs. apply (getImp_same N N' g g'); [done..|by rewrite (proj1 (Hf cls' Hne))|]. intros v. by apply (entry_frame cls).
Qed.

(** Filling a cache: the operation ends; afterwards a lookup of the selector finds what it
    found before or, when it found nothing, the new implementation; every other selector of
    the class is found as before, or, when the cache had to be replaced, none of them is; the
    other classes do not notice. *)
Theorem cache_fill_correct init N g m cls sel imp :
  0 <= N <= 2 ^ 29 -> stable N g m -> is_Some (caches m !! cls) -> 1 < sel -> H cls sel imp -> init cls = true ->
  exists m', run_prog place crit (cache_fill_nolock a init cls sel imp) m = Ret (tt, m') /\
    (getImp a m cls sel = Ret 0 -> getImp a m' cls sel = Ret imp) /\ (forall v, v <> 0 -> getImp a m cls sel = Ret v -> getImp a m' cls sel = Ret v) /\
    ((forall s, 1 < s -> s <> sel -> getImp a m' cls s = getImp a m cls s) \/ (forall s, 1 < s -> s <> sel -> getImp a m' cls s = Ret 0)) /\
    (forall cls', cls' <> cls -> is_Some (caches m !! cls') -> same_lookups a m m' cls').
Proof.
  intros HN Hst Hc Hs HHs Hinit.
  destruct (wp_run a H place crit (cache_fill_nolock a init cls sel imp) g m
    (fun _ g' m' => stable (N + 1) g' m' /\ frame cls m m' /\ fills cls sel imp m m') Hplace) as ([] & g' & m' & Hrun & Hst' & Hf & Hfill).
  { apply (cache_fill_wp a H HH init N); [done..|]. rewrite Hinit. done. }
  exists m'. split; [done|]. pose proof (frame_lookups N (N + 1) g g' m m' cls Hst Hst' Hf) as Hothers.
  destruct Hfill as [[[v Hv] ->]|[Hno Hcase]].
  - destruct (getImp_found N g m cls sel v Hst Hs Hv) as [Hg Hv0]. split_and!; [congruence|done|by left|done].
  - pose proof (getImp_missing N g m cls sel Hst Hs Hc Hno) as Hg.
    assert (Hnew : entry m' cls sel imp) by (destruct Hcase as [He|He]; apply He; [by right|done]).
    assert (Hc' : is_Some (caches m' !! cls)) by (destruct Hnew as (c & _ & _ & Hc' & _); by exists c).
    split_and!; [intros _; by apply (getImp_found (N + 1) g')|congruence| |done]. destruct Hcase as [He|He]; [left|right]; intros s Hs1 Hne.
    + apply (getImp_same N (N + 1) g g'); [done..|]. intros v. rewrite He. split; [intros [?|[-> _]]; done|by left].
    + apply (getImp_missing (N + 1) g'); [done..|]. intros v Hv. apply He in Hv as [-> _]. done.
Qed.

(** Erasing a cache: the operation ends, no selector of the class is found any more and
    the other classes do not notice. *)
Theorem cache_erase_correct N g m cls : stable N g m -> is_Some (caches m !! cls) ->
  exists m', run_prog place crit (cache_erase_nolock a cls) m = Ret (tt, m') /\ (forall s, 1 < s -> getImp a m' cls s = Ret 0) /\
    (forall cls', cls' <> cls -> is_Some (caches m !! cls') -> same_lookups a m m' cls').
Proof.
  intros Hst Hc.
  destruct (wp_run a H place crit (cache_erase_nolock a cls) g m
    (fun _ g' m' => stable N g' m' /\ frame cls m m' /\ is_Some (caches m' !! cls) /\ forall s v, ~ entry m' cls s v) Hplace) as ([] & g' & m' & Hrun & Hst' & Hf & Hc' & Hno).
  { by apply (cache_erase_wp a H HH N). }
  exists m'. split; [done|]. split; [|by apply (frame_lookups N N g g' m m' cls)]. intros s Hs. by apply (getImp_missing N g').
Qed.

Lemma run_bind {A B} (p : prog A) (f : A -> prog B) m : run_prog place crit (cbnd p f) m = obind (run_prog place crit p m) (fun r => run_prog place crit (f r.1) r.2).
Proof. revert m. induction p as [x| |k IH|e k IH|n k IH|k IH|k IH]; intros m; simpl; try done. by destruct (apply_store e m). Qed.

(** The array of a class that goes away is freed when it is its own; the other classes keep
    theirs. *)
Lemma cache_delete_frees N g m cls c : stable N g m -> caches m !! cls = Some c ->
  exists m', run_prog place crit (cache_delete a cls) m = Ret (tt, m') /\ caches m' = caches m /\
    arrays m' = match own g !! _buckets c with Some _ => delete (_buckets c) (arrays m) | None => arrays m end /\
    forall cls' c', cls' <> cls -> caches m !! cls' = Some c' -> arrays m' !! _buckets c' = arrays m !! _buckets c'.
Proof.
  intros Hst Hc.
  destruct (wp_run a H place crit (canBeFreed a cls) g m (fun b g' m' => b = match own g !! _buckets c with Some _ => true | None => false end /\ g' = g /\ m' = m) Hplace) as (b & g' & m' & Hrun & -> & -> & ->).
  { unfold canBeFreed. apply wp_bind, (isConstant_wp a H N _ _ _ c); [done|done|]. simpl. split_and!; [|done|done].
    by destruct (own g !! _buckets c). }
  unfold cache_delete. rewrite run_bind, Hrun. cbn [obind fst snd getCache run_prog cbnd of_some]. rewrite Hc. cbn [of_some cbnd].
  destruct (own g !! _buckets c) as [o|] eqn:Ho.
  - destruct (stable_table a H N g m cls c o Hst Hc Ho) as (-> & k & arr & Ht).
    cbn [put run_prog apply_store]. rewrite (ot_array _ _ _ _ _ _ _ _ Ht). simpl. eexists. split_and!; [done|done|done|].
    intros cls' c' Hne Hc'. simpl. apply lookup_delete_ne. intros E. rewrite E in Ho. by destruct (stable_table a H N g m cls' c' cls Hst Hc' Ho) as [-> _].
  - by exists m.
Qed.

End Results.

(** The overflow test of [expand] never fires when masks have 32 bits: at [2 ^ 31] buckets
    the doubled capacity wraps to 0, which equals itself as a mask, and the reallocation for
    no bucket at all fails its assertion. *)
Theorem expand_overflow_unnoticed a place crit m cls c :
  caches m !! cls = Some c -> _mask c = 2 ^ 31 - 1 -> _occupied c <> 0 -> run_prog place crit (expand a cls) m = Fault.
Proof.
  intros Hc Hm Ho. unfold expand, getCache. cbn [cbnd run_prog of_some]. rewrite Hc. cbn [of_some cbnd run_prog].
  rewrite (capacity_pow2 c 31) by (lia || done). change (2 ^ 31 =? 0) with false. change (u32 (2 ^ 31 * 2)) with 0. simpl negb. cbv iota. change (u32 0 =? 0) with true. simpl negb. cbv iota.
  unfold reallocate, canBeFreed, isConstantEmptyCache, getCache. cbn [cbnd run_prog of_some]. rewrite Hc. cbn [of_some cbnd run_prog].
  rewrite (proj2 (Z.eqb_neq _ _) Ho). simpl negb. cbn [cbnd run_prog of_some]. rewrite Hc. cbn [of_some cbnd run_prog].
  unfold allocateBuckets. cbn [cbnd run_prog]. destruct a; [done|]. change (bytesForCapacity x86_64 0 / 16) with 1.
  unfold set_bucket, load_bucket, bucket_in. cbn [cbnd run_prog]. simpl. rewrite lookup_insert_eq. simpl. unfold upd_bucket. simpl. rewrite lookup_insert_eq. simpl.
  rewrite lookup_insert_eq. done.
Qed.
