(* ===== verification/CacheInterleaving.v ===== *)
(** * Lookups and updates of the method caches, interleaved

    Any number of threads look up selectors without a lock while one thread at a time, the
    one that holds [cacheUpdateLock], fills, erases or collects.  The steps are single loads
    and stores.  In every reachable state no lookup has read or will read outside a live
    array, what a lookup has found was filled in for its class and selector, and the writer
    can go on; a lookup ends after a bounded number of its own steps, whatever the others
    do. *)

From Stdlib Require Import ZArith Lia Bool.
From stdpp Require Import base list gmap relations.
From S2P Require Import Prelude RetainCount Probing MethodBuckets CacheReaders CacheTable CacheWriters CacheOperations.

Local Open Scope Z_scope.

(** What writers do. *)
Inductive op := Op_fill (cls sel imp : Z) | Op_erase (cls : Z) | Op_flush (classes : list Z) | Op_collect.

(** [asked] is the number of lookups that had begun when the writer began to go through the
    threads to find one in the lookup code; [filled] are the arguments of the fills that have
    begun. *)
Record csys := mk_csys { shared : cmem; readers : list reader; writer : option (prog unit); asked : option nat; filled : list (Z * Z * Z) }.

Section System.
Context (a : arch) (isInitialized : Z -> bool).

Definition op_prog (o : op) : prog unit :=
  match o with
  | Op_fill cls sel imp => cache_fill_nolock a isInitialized cls sel imp
  | Op_erase cls => cache_erase_nolock a cls
  | Op_flush classes => flushCaches a classes
  | Op_collect => cache_collect true
  end.

(** Operations are about classes that there are; selectors are addresses above 1,
    implementations are not nil. *)
Definition op_ok (m : cmem) (o : op) : Prop :=
  match o with
  | Op_fill cls sel imp => is_Some (caches m !! cls) /\ 1 < sel /\ imp <> 0
  | Op_erase cls => is_Some (caches m !! cls)
  | Op_flush classes => Forall (fun cls => is_Some (caches m !! cls)) classes
  | Op_collect => True
  end.

Definition op_filled (o : op) : list (Z * Z * Z) := match o with Op_fill cls sel imp => [(cls, sel, imp)] | _ => [] end.

(** No reader is in the lookup code. *)
Definition quiet (rs : list reader) : Prop := Forall (fun r => active r = false) rs.

(** [_collecting_in_critical] goes through the threads. *)
Definition asks (p : prog unit) : Prop := match p with Crit _ | Wait _ => True | _ => False end.

(** The label says which reader has made a step.  The threads are looked at one after the
    other, in no order: the answer that none is in the lookup code means that the lookups
    that had begun before are over; others may have begun. *)
Inductive cstep : option nat -> csys -> csys -> Prop :=
| step_call m rs w q f cls sel : is_Some (caches m !! cls) -> 1 < sel -> cstep None (mk_csys m rs w q f) (mk_csys m (rs ++ [R_mask cls sel]) w q f)
| step_read m rs w q f n r r' : rs !! n = Some r -> active r = true -> reader_step a m r = Ret r' ->
    cstep (Some n) (mk_csys m rs w q f) (mk_csys m (<[n := r']> rs) w q f)
| step_begin m rs f o : op_ok m o -> cstep None (mk_csys m rs None None f) (mk_csys m rs (Some (op_prog o)) None (f ++ op_filled o))
| step_get m rs f k : cstep None (mk_csys m rs (Some (Get k)) None f) (mk_csys m rs (Some (k m)) None f)
| step_put m rs f e k m' : apply_store e m = Some m' -> cstep None (mk_csys m rs (Some (Put e k)) None f) (mk_csys m' rs (Some k) None f)
| step_alloc m rs f n k id : arrays m !! id = None -> id <> 0 ->
    cstep None (mk_csys m rs (Some (Alloc n k)) None f) (mk_csys (with_array m id n) rs (Some (k id)) None f)
| step_ask m rs f p q : asks p -> cstep None (mk_csys m rs (Some p) q f) (mk_csys m rs (Some p) (Some (length rs)) f)
| step_busy m rs f k n : cstep None (mk_csys m rs (Some (Crit k)) (Some n) f) (mk_csys m rs (Some (k true)) None f)
| step_idle m rs f k n : quiet (take n rs) -> cstep None (mk_csys m rs (Some (Crit k)) (Some n) f) (mk_csys m rs (Some (k false)) None f)
| step_wait m rs f k n : quiet (take n rs) -> cstep None (mk_csys m rs (Some (Wait k)) (Some n) f) (mk_csys m rs (Some k) None f)
| step_done m rs f x : cstep None (mk_csys m rs (Some (Done x)) None f) (mk_csys m rs None None f).

Definition some_step (s s' : csys) : Prop := exists l, cstep l s s'.

Definition start (classes : list Z) : csys := mk_csys (initial_cmem classes) [] None None [].

(** ** The invariant *)

Definition was_filled (f : list (Z * Z * Z)) (cls sel imp : Z) : Prop := (cls, sel, imp) ∈ f /\ imp <> 0.

Definition fills_so_far (s : csys) : Z := Z.of_nat (length (filled s)).

(** What is garbage is out of reach of new lookups. *)
Definition doom (g : ghost) (m : cmem) : ghost := mk_ghost (list_to_set (garbage_refs m)) (own g).

(** While the writer asks, lookups that begin do not come across the garbage. *)
Definition newcomers_ok (g : ghost) (s : csys) : Prop :=
  match asked s with
  | None => True
  | Some n => (n <= length (readers s))%nat /\ (exists p, writer s = Some p /\ asks p) /\
      Forall (reader_ok a (was_filled (filled s)) (doom g (shared s)) (shared s)) (drop n (readers s))
  end.

Record sysinv (g : ghost) (s : csys) : Prop := {
  si_inv : inv a (was_filled (filled s)) g (shared s);
  si_readers : Forall (reader_ok a (was_filled (filled s)) g (shared s)) (readers s);
  si_writer : match writer s with
    | None => stable_but a (was_filled (filled s)) None (fills_so_far s) g (shared s)
    | Some p => wp a (was_filled (filled s)) p g (shared s) (fun _ g' m' => stable_but a (was_filled (filled s)) None (fills_so_far s) g' m')
    end;
  si_asked : newcomers_ok g s;
}.

Lemma was_filled_nil f c s i : was_filled f c s i -> i <> 0.
Proof. by intros [_ ?]. Qed.

Lemma stable_history f o N g m : stable_but a (was_filled f) None N g m -> stable_but a (was_filled (f ++ o)) None N g m.
Proof.
  intros [H1 H2 H3 H4 H5 H6]. split; try done. apply (inv_history a (was_filled f)); [|done].
  intros c s i [Hin Hi]. split; [|done]. apply elem_of_app. by left.
Qed.

(** Every operation begins in a state in which it is safe. *)
Lemma op_wp f o g m : op_ok m o -> Z.of_nat (length (f ++ op_filled o)) <= 2 ^ 29 -> stable_but a (was_filled f) None (Z.of_nat (length f)) g m ->
  wp a (was_filled (f ++ op_filled o)) (op_prog o) g m
    (fun _ g' m' => stable_but a (was_filled (f ++ op_filled o)) None (Z.of_nat (length (f ++ op_filled o))) g' m').
Proof.
  intros Hok Hlen Hst. pose proof (stable_history f (op_filled o) _ _ _ Hst) as Hst'. set (H := was_filled (f ++ op_filled o)) in *.
  assert (HH : forall c s i, H c s i -> i <> 0) by apply was_filled_nil.
  destruct o as [cls sel imp|cls|classes|]; simpl in Hok, Hlen; cbn [op_prog op_filled].
  - destruct Hok as (Hc & Hs & Hi). rewrite length_app in *. simpl in *. apply (cache_fill_wp a H HH isInitialized (Z.of_nat (length f))); [lia|done|done|done| |].
    { split; [|done]. cbn [op_filled]. set_solver. }
    intros g' m' Hst1 _ _. by replace (Z.of_nat (length f + 1)) with (Z.of_nat (length f) + 1) by lia.
  - rewrite app_nil_r. by apply (cache_erase_wp a H HH (Z.of_nat (length f))).
  - rewrite app_nil_r. by apply (flushCaches_wp a H HH (Z.of_nat (length f))).
  - rewrite app_nil_r. by apply (cache_collect_wp a H None (Z.of_nat (length f))).
Qed.

End System.

(** ** Progress of a reader *)

(** The loads that are left, when the array has [L] buckets. *)
Definition rank (a : arch) (L : Z) (r : reader) : Z :=
  match r with
  | R_sel _ _ _ _ i w => match a with
      | arm64 => i + 1 + (if w then 0 else L)
      | x86_64 => 2 * (L - i) + (if w then 0 else 2 * L + 2)
      end
  | R_end _ _ _ _ i w => 2 * (L - i) + (if w then 0 else 2 * L + 2) - 1
  | R_first _ _ _ _ _ => 2 * L + 1
  | R_imp _ _ _ _ _ => 1
  | _ => 0
  end.

(** The array that a reader scans has [L] buckets. *)
Definition scans_size (L : Z) (m : cmem) (r : reader) : Prop :=
  match r with
  | R_sel _ _ _ id _ _ | R_end _ _ _ id _ _ | R_imp _ _ _ id _ | R_first _ _ _ id _ => exists arr, arrays m !! id = Some arr /\ Z.of_nat (length arr) = L
  | R_done _ _ _ => True
  | R_mask _ _ | R_buckets _ _ _ => False
  end.

Lemma scans_inside a H L g m cls mask id i arr : scans a g m cls mask id i -> arrays m !! id = Some arr -> Z.of_nat (length arr) = L -> inv a H g m -> 0 <= i < L /\ 0 <= mask < L.
Proof. intros (_ & Hm & arr' & Ha' & [Hu _] & Hi) Ha <- _. assert (arr' = arr) as -> by congruence. pose proof (slots_length a arr). lia. Qed.

(** A step of a reader that scans takes it closer to the end. *)
Lemma reader_step_rank a H L g m r r' : inv a H g m -> reader_ok a H g m r -> active r = true -> scans_size L m r -> reader_step a m r = Ret r' ->
  scans_size L m r' /\ 0 <= rank a L r' < rank a L r.
Proof.
  intros Hinv Hr Hact Hsz Hst. destruct r as [|cls sel mask|cls sel mask id i w|cls sel mask id i w|cls sel mask id i|cls sel mask id i|]; try done; destruct Hsz as (arr & Harr & HL).
  - destruct Hr as [Hs Hsc]. destruct (scans_inside _ _ _ _ _ _ _ _ _ _ Hsc Harr HL Hinv) as [Hi Hm]. destruct (scans_bucket _ _ _ _ _ _ _ _ Hinv Hsc) as (arr' & b & _ & Hb & Hcase).
    simpl in Hst. unfold from_bucket in Hst. rewrite Hb in Hst. destruct a; simpl.
    + destruct (b_sel b =? sel); [injection Hst as <-; simpl; destruct w; (split; [done|lia])|].
      destruct (b_sel b =? 0); [injection Hst as <-; simpl; destruct w; (split; [done|lia])|].
      destruct (Z.eqb_spec i 0); simpl in Hst; [destruct w; injection Hst as <-; simpl; (split; [by eauto|lia])|].
      injection Hst as <-. simpl. split; [by eauto|]. destruct w; lia.
    + destruct (b_sel b =? sel); injection Hst as <-; simpl; (split; [by eauto|]); destruct w; lia.
  - destruct Hr as (Hs & Ha & Hsc). destruct (scans_inside _ _ _ _ _ _ _ _ _ _ Hsc Harr HL Hinv) as [Hi Hm]. destruct (scans_bucket _ _ _ _ _ _ _ _ Hinv Hsc) as (arr' & b & Harr' & Hb & Hcase).
    simpl in Hst. unfold from_bucket in Hst. rewrite Hb in Hst. simpl.
    destruct (Z.ltb_spec 1 (b_sel b)) as [Hg|Hg].
    + injection Hst as <-. simpl. split; [by eauto|]. assert (arr' = arr) as -> by congruence.
      destruct Hcase as [?|[(_ & _ & Hl)|(_ & ->)]]; [lia|specialize (Hl Ha); destruct a; [done|]; destruct w; lia|simpl in Hg; lia].
    + destruct w; [injection Hst as <-; simpl; split; [done|lia]|]. destruct (b_sel b <? 1); injection Hst as <-; simpl; (split; [by eauto|lia]).
  - destruct Hr as (Hs & Hsc & b & Hb & _). simpl in Hst. unfold from_bucket in Hst. rewrite Hb in Hst. injection Hst as <-. simpl. split; [done|lia].
  - destruct Hr as (Hs & Hsc & Hb). destruct (scans_inside _ _ _ _ _ _ _ _ _ _ Hsc Harr HL Hinv) as [Hi Hm].
    simpl in Hst. unfold from_bucket in Hst. rewrite Hb in Hst. injection Hst as <-. simpl. split; [by eauto|].
    destruct a; lia.
Qed.

Lemma reader_ok_scans a H g m r : reader_ok a H g m r -> match r with
  | R_sel _ _ _ id _ _ | R_end _ _ _ id _ _ | R_imp _ _ _ id _ | R_first _ _ _ id _ => id ∉ doomed g
  | _ => True end.
Proof. destruct r; simpl; try done; intros Hr; destruct_and?; match goal with Hs : scans _ _ _ _ _ _ _ |- _ => apply Hs end. Qed.

(** The stores of a writer do not change the size of an array that is scanned. *)
Lemma scans_size_guar a H L g m m' r : guar g m m' -> reader_ok a H g m r -> scans_size L m r -> scans_size L m' r.
Proof.
  intros Hg Hr. pose proof (reader_ok_scans a H g m r Hr) as Hd.
  destruct r; simpl in *; try done; intros (arr & Ha & HL); destruct (guar_arrays _ _ _ Hg _ arr Ha Hd) as (arr' & Ha' & Hl & _); exists arr'; (split; [done|lia]).
Qed.

Lemma scans_size_alloc L m id n r : arrays m !! id = None -> scans_size L m r -> scans_size L (with_array m id n) r.
Proof.
  intros Hid. assert (Hk : forall id' arr, arrays m !! id' = Some arr -> arrays (with_array m id n) !! id' = Some arr).
  { intros id' arr Ha. simpl. rewrite lookup_insert_ne; [done|congruence]. }
  destruct r; simpl; try done; intros (arr & Ha & HL); exists arr; (split; [by apply Hk|done]).
Qed.

(** What a step keeps: the invariant; every reader is as it was, unless it has made the
    step itself and has come closer to its end. *)
Definition kept (a : arch) (l : option nat) (s s' : csys) : Prop :=
  forall n r, readers s !! n = Some r -> exists r', readers s' !! n = Some r' /\ (l <> Some n -> r' = r) /\
    forall L, scans_size L (shared s) r -> scans_size L (shared s') r' /\ (l = Some n -> 0 <= rank a L r' < rank a L r).

Lemma kept_readers a s s' : readers s' = readers s ->
  (forall n r L, readers s !! n = Some r -> scans_size L (shared s) r -> scans_size L (shared s') r) -> kept a None s s'.
Proof. intros E Hs n r Hr. exists r. rewrite E. split_and!; [done|done|]. intros L HL. split; [by apply (Hs n)|done]. Qed.

(** A step of the writer. *)
Lemma writer_inv a m m' rs q f g' p :
  inv a (was_filled f) g' m' -> Forall (reader_ok a (was_filled f) g' m') rs ->
  wp a (was_filled f) p g' m' (fun _ g2 m2 => stable_but a (was_filled f) None (Z.of_nat (length f)) g2 m2) ->
  (forall n r L, rs !! n = Some r -> scans_size L m r -> scans_size L m' r) ->
  forall w, exists g2, sysinv a g2 (mk_csys m' rs (Some p) None f) /\ kept a None (mk_csys m rs w q f) (mk_csys m' rs (Some p) None f).
Proof. intros H1 H2 H3 H4 w. exists g'. split; [by split|]. by apply kept_readers. Qed.

Lemma quiet_reader_ok a H g g' m rs : quiet rs -> Forall (reader_ok a H g m) rs -> Forall (reader_ok a H g' m) rs.
Proof.
  intros Hq Hf. apply Forall_forall. intros r Hr. unfold quiet in Hq. rewrite Forall_forall in Hq, Hf. specialize (Hq r Hr). specialize (Hf r Hr). by destruct r.
Qed.

(** When the lookups from before are over, no lookup can come across the garbage. *)
Lemma all_newcomers a H g m rs n : quiet (take n rs) -> Forall (reader_ok a H g m) rs -> Forall (reader_ok a H (doom g m) m) (drop n rs) ->
  Forall (reader_ok a H (doom g m) m) rs.
Proof.
  intros Hq Hf Hd. rewrite <- (take_drop n rs). apply Forall_app. split; [|done]. apply (quiet_reader_ok a H g); [done|]. by apply Forall_take.
Qed.

(** The writer asks only when the garbage is out of reach. *)
Lemma asks_inv a H p g m Q : asks p -> wp a H p g m Q -> inv a H (doom g m) m.
Proof. destruct p; simpl; try done; tauto. Qed.

(** A lookup that begins. *)
Lemma call_inv a g m rs w q f cls sel : sysinv a g (mk_csys m rs w q f) -> is_Some (caches m !! cls) -> 1 < sel ->
  sysinv a g (mk_csys m (rs ++ [R_mask cls sel]) w q f).
Proof.
  intros [Hinv Hrd Hw Hq] Hc Hsel. assert (Hnew : forall g', Forall (reader_ok a (was_filled f) g' m) [R_mask cls sel]) by (intros g'; by repeat constructor).
  split; [done|apply Forall_app; split; [done|apply Hnew]|done|]. destruct q as [n|]; [|done]. destruct Hq as (Hn & Hp & Hd). simpl in Hn, Hp, Hd.
  split_and!; simpl; [rewrite length_app; lia|done|]. rewrite drop_app_le by done. apply Forall_app. split; [done|apply Hnew].
Qed.

(** A lookup that goes on. *)
Lemma read_inv a g m rs w q f n r r' : sysinv a g (mk_csys m rs w q f) -> rs !! n = Some r -> reader_step a m r = Ret r' ->
  sysinv a g (mk_csys m (<[n := r']> rs) w q f).
Proof.
  intros [Hinv Hrd Hw Hq] Hn Hr. simpl in Hinv, Hrd, Hw.
  assert (Hok : forall g', inv a (was_filled f) g' m -> reader_ok a (was_filled f) g' m r -> reader_ok a (was_filled f) g' m r').
  { intros g' Hi Hro. destruct (reader_step_ok a _ g' m r Hi Hro) as (r'' & E & Ho). by assert (r'' = r') as <- by congruence. }
  split; [done| |done|].
  - simpl. apply Forall_insert; [done|]. apply Hok; [done|]. rewrite Forall_lookup in Hrd. by apply (Hrd n).
  - destruct q as [k|]; [|done]. destruct Hq as (Hk & (p & Hp & Hasks) & Hd). simpl in Hk, Hp, Hd. subst w. split_and!; simpl; [by rewrite length_insert|by exists p|].
    destruct (decide (n < k)%nat) as [Hlt|Hge]; [by rewrite drop_insert_lt|]. rewrite drop_insert_ge by lia. apply Forall_insert; [done|].
    apply Hok; [by apply (asks_inv a _ p _ _ _ Hasks Hw)|]. rewrite Forall_lookup in Hd. apply (Hd (n - k)%nat). rewrite lookup_drop. by replace (k + (n - k))%nat with n by lia.
Qed.

(** What a reader's step keeps. *)
Lemma read_kept a g m rs w q f n r r' : sysinv a g (mk_csys m rs w q f) -> rs !! n = Some r -> active r = true -> reader_step a m r = Ret r' ->
  kept a (Some n) (mk_csys m rs w q f) (mk_csys m (<[n := r']> rs) w q f).
Proof.
  intros [Hinv Hrd _ _] Hn Hact Hr n' r0 Hr0. simpl in *. rewrite Forall_lookup in Hrd. destruct (decide (n' = n)) as [->|Hne].
  - exists r'. rewrite list_lookup_insert_eq by (by eapply lookup_lt_Some). assert (r0 = r) as -> by congruence. split_and!; [done|by intros []|].
    intros L HL. destruct (reader_step_rank a _ L g m r r' Hinv (Hrd _ _ Hn) Hact HL Hr) as [H1 H2]. split; [done|by intros _].
  - exists r0. rewrite list_lookup_insert_ne by done. split_and!; [done|done|]. intros L HL. split; [done|]. intros [= ->]. done.
Qed.

Lemma cstep_inv a init l s s' g : sysinv a g s -> cstep a init l s s' -> fills_so_far s' <= 2 ^ 29 -> exists g', sysinv a g' s' /\ kept a l s s'.
Proof.
  intros Hs Hstep Hlen. pose proof Hs as [Hinv Hrd Hw Hq].
  destruct Hstep as [m rs w q f cls sel Hc Hsel|m rs w q f n r r' Hn Hact Hr|m rs f o Hok|m rs f k|m rs f e k m' He|m rs f n k id Hid Hnz|m rs f p q Hp|m rs f k n|m rs f k n Hquiet|m rs f k n Hquiet|m rs f x];
    unfold newcomers_ok, fills_so_far in *; simpl in Hinv, Hrd, Hw, Hq, Hlen.
  - exists g. split; [by apply call_inv|]. intros n r Hr. exists r. simpl. split_and!; [by apply lookup_app_l_Some|done|]. intros L HL. split; [done|done].
  - exists g. split; [by apply (read_inv _ _ _ _ _ _ _ _ r)|by apply (read_kept a g _ _ _ _ _ _ r)].
  - assert (Hh : forall c s i, was_filled f c s i -> was_filled (f ++ op_filled o) c s i) by (intros c s i [Hin Hi]; split; [set_solver|done]).
    exists g. split; [split; simpl|by apply kept_readers].
    + by apply (inv_history a (was_filled f)).
    + eapply Forall_impl; [exact Hrd|]. intros r Hr. by apply (reader_ok_history a (was_filled f)).
    + by apply op_wp.
    + done.
  - by apply (writer_inv a m m rs None f g).
  - destruct Hw as (m2 & He' & Hinv' & Hg & Hk). assert (m2 = m') as -> by congruence. apply (writer_inv a m m' rs None f g); [done| |done|].
    + eapply Forall_impl; [exact Hrd|]. intros r Hr. by apply (reader_ok_guar a _ g m).
    + intros n r L Hr. rewrite Forall_lookup in Hrd. by apply (scans_size_guar a (was_filled f) L g m m' r Hg (Hrd _ _ Hr)).
  - destruct (Hw id Hid Hnz) as [o Hk]. apply (writer_inv a m (with_array m id n) rs None f (galloc g id o)); [by apply inv_alloc| |done|].
    + eapply Forall_impl; [exact Hrd|]. intros r Hr. by apply reader_ok_alloc.
    + intros n' r L _. by apply scans_size_alloc.
  - exists g. split; [|by apply kept_readers]. split; [done|done|done|]. split_and!; simpl; [done|by exists p|]. by rewrite drop_all.
  - destruct Hw as [Hk _]. by apply (writer_inv a m m rs (Some n) f g).
  - destruct Hw as (_ & Hinv' & Hk), Hq as (_ & _ & Hd). apply (writer_inv a m m rs (Some n) f (doom g m)); [done|by apply (all_newcomers a _ g m rs n)|done|done].
  - destruct Hw as (Hinv' & Hk), Hq as (_ & _ & Hd). apply (writer_inv a m m rs (Some n) f (doom g m)); [done|by apply (all_newcomers a _ g m rs n)|done|done].
  - exists g. split; [by split|by apply kept_readers].
Qed.

(** ** The start *)

Lemma initial_caches classes cls c : caches (initial_cmem classes) !! cls = Some c -> c = empty_cache.
Proof.
  simpl. intros Hc. apply elem_of_list_to_map_2 in Hc. apply list_elem_of_fmap in Hc as (? & [= _ ->] & _). done.
Qed.

Lemma initial_array classes id arr : arrays (initial_cmem classes) !! id = Some arr -> id = objc_empty_cache /\ arr = replicate 1025 no_bucket.
Proof. simpl. intros Ha. apply lookup_singleton_Some in Ha as [<- <-]. done. Qed.

Lemma initial_stable a H classes : stable_but a H None 0 (mk_ghost ∅ ∅) (initial_cmem classes).
Proof.
  assert (HE : arrays (initial_cmem classes) !! objc_empty_cache = Some (replicate 1025 no_bucket)) by apply lookup_singleton_eq.
  split.
  - split.
    + intros id arr Ha j b Hb. destruct (initial_array classes id arr Ha) as [_ ->]. by apply lookup_replicate in Hb as [-> _].
    + intros cls c Hc. rewrite (initial_caches classes cls c Hc). split_and!; [done|set_solver|]. exists (replicate 1025 no_bucket). split; [done|]. split; [|by left].
      unfold slots. rewrite length_replicate. simpl. destruct a; lia.
  - simpl. by rewrite lookup_singleton_ne.
  - split_and!; [done|set_solver|]. exists (replicate 1025 no_bucket). split; [done|]. rewrite length_replicate. lia.
  - intros i id Hi. simpl in Hi. by rewrite lookup_nil in Hi.
  - intros cls c Hc _. rewrite (initial_caches classes cls c Hc). apply ok_constant; [done|done|by left].
  - split; [apply NoDup_nil_2|]. intros id Hid. by apply elem_of_nil in Hid.
Qed.

Lemma start_inv a classes : sysinv a (mk_ghost ∅ ∅) (start classes).
Proof. pose proof (initial_stable a (was_filled []) classes) as Hst. split; [apply Hst|done|done|done]. Qed.

Lemma filled_grows a init l s s' : cstep a init l s s' -> fills_so_far s <= fills_so_far s'.
Proof. destruct 1; unfold fills_so_far; simpl; rewrite ?length_app; lia. Qed.

Lemma reachable_inv a init classes s : rtc (some_step a init) (start classes) s -> fills_so_far s <= 2 ^ 29 -> exists g, sysinv a g s.
Proof.
  intros Hr. pattern s. eapply rtc_ind_r; [| |exact Hr].
  - intros _. eexists. apply start_inv.
  - intros s1 s2 _ [l Hstep] IH Hlen. pose proof (filled_grows _ _ _ _ _ Hstep). destruct IH as [g Hg]; [lia|].
    destruct (cstep_inv _ _ _ _ _ _ Hg Hstep Hlen) as (g' & Hg' & _). by exists g'.
Qed.

(** ** The guarantees *)

(** The writer can make its next step. *)
Definition can_go_on (m : cmem) (p : prog unit) : Prop :=
  match p with Stuck => False | Put e _ => is_Some (apply_store e m) | _ => True end.

(** C5. Lock-free lookups are safe.  In every state that lookups, fills, erasures, flushes
    and collections of any classes can reach by interleaving their single loads and stores,
    the next load of every lookup is inside a live array of buckets; a lookup that has found
    an implementation has found one that was filled in for its own class and selector; and
    the writer is not stuck: no assertion fails, no store misses its array, nothing is freed
    twice and [find] never meets a full cache. *)
Theorem cache_lookups_safe a init classes s :
  rtc (some_step a init) (start classes) s -> fills_so_far s <= 2 ^ 29 ->
  (forall n r, readers s !! n = Some r -> exists r', reader_step a (shared s) r = Ret r') /\
  (forall n cls sel imp, readers s !! n = Some (R_done cls sel (Some imp)) -> (cls, sel, imp) ∈ filled s) /\
  (forall p, writer s = Some p -> can_go_on (shared s) p).
Proof.
  intros Hr Hlen. destruct (reachable_inv _ _ _ _ Hr Hlen) as [g [Hinv Hrd Hw _]]. rewrite Forall_lookup in Hrd. split_and!.
  - intros n r Hn. destruct (reader_step_ok a _ g _ r Hinv (Hrd _ _ Hn)) as (r' & E & _). by exists r'.
  - intros n cls sel imp Hn. by destruct (Hrd _ _ Hn).
  - intros p Hp. rewrite Hp in Hw. destruct p; simpl in *; try done. destruct Hw as (m' & E & _). by exists m'.
Qed.

(** Runs, with the number of steps that one reader makes in them. *)
Inductive runs_with (a : arch) (init : Z -> bool) (n : nat) : nat -> csys -> csys -> Prop :=
| runs_none s : runs_with a init n 0 s s
| runs_own s s1 s2 c : cstep a init (Some n) s s1 -> runs_with a init n c s1 s2 -> runs_with a init n (S c) s s2
| runs_other l s s1 s2 c : l <> Some n -> cstep a init l s s1 -> runs_with a init n c s1 s2 -> runs_with a init n c s s2.

Lemma runs_with_filled a init n c s s' : runs_with a init n c s s' -> fills_so_far s <= fills_so_far s'.
Proof. induction 1 as [|s s1 s2 c Hs _ IH|l s s1 s2 c _ Hs _ IH]; [lia|..]; pose proof (filled_grows _ _ _ _ _ Hs); lia. Qed.

Lemma runs_with_rank a init n c s s' g r L : runs_with a init n c s s' -> sysinv a g s -> fills_so_far s' <= 2 ^ 29 -> readers s !! n = Some r ->
  scans_size L (shared s) r -> 0 <= rank a L r -> Z.of_nat c <= rank a L r.
Proof.
  intros Hrun. revert g r. induction Hrun as [s|s s1 s2 c Hs Hrun IH|l s s1 s2 c Hl Hs Hrun IH]; intros g r Hinv Hlen Hr Hsz Hk; [lia|..].
  - pose proof (runs_with_filled _ _ _ _ _ _ Hrun). destruct (cstep_inv _ _ _ _ _ _ Hinv Hs ltac:(lia)) as (g' & Hinv' & Hkept).
    destruct (Hkept n r Hr) as (r' & Hr' & _ & Hrank). destruct (Hrank L Hsz) as [Hsz' Hlt]. specialize (Hlt eq_refl). specialize (IH g' r' Hinv' Hlen Hr' Hsz' ltac:(lia)). lia.
  - pose proof (runs_with_filled _ _ _ _ _ _ Hrun). destruct (cstep_inv _ _ _ _ _ _ Hinv Hs ltac:(lia)) as (g' & Hinv' & Hkept).
    destruct (Hkept n r Hr) as (r' & Hr' & Hsame & Hrank). specialize (Hsame Hl). subst r'. destruct (Hrank L Hsz) as [Hsz' _]. by apply (IH g').
Qed.

(** C17. Lookups are wait-free: once a lookup has loaded the address of an array of [L]
    buckets, it ends after at most [4 * L + 2] loads of its own, whatever the writer and the
    other readers do in between. *)
Theorem cache_lookups_wait_free a init classes s s' n c cls sel mask id i w L :
  rtc (some_step a init) (start classes) s -> readers s !! n = Some (R_sel cls sel mask id i w) ->
  scans_size L (shared s) (R_sel cls sel mask id i w) -> runs_with a init n c s s' -> fills_so_far s' <= 2 ^ 29 ->
  Z.of_nat c <= 4 * L + 2.
Proof.
  intros Hr Hn Hsz Hrun Hlen. pose proof (runs_with_filled _ _ _ _ _ _ Hrun). destruct (reachable_inv _ _ _ _ Hr ltac:(lia)) as [g Hg].
  pose proof (si_readers _ _ _ Hg) as Hrd. rewrite Forall_lookup in Hrd. destruct (Hrd _ _ Hn) as [_ Hsc].
  destruct Hsz as (arr & Ha & HL). destruct (scans_inside _ _ _ _ _ _ _ _ _ _ Hsc Ha HL (si_inv _ _ _ Hg)) as [Hi _].
  assert (Hb : 0 <= rank a L (R_sel cls sel mask id i w) <= 4 * L + 2) by (simpl; destruct a, w; lia).
  pose proof (runs_with_rank a init n c s s' g _ L Hrun Hg Hlen Hn ltac:(by exists arr) ltac:(lia)). lia.
Qed.
