(* ===== verification/CacheSamples.v ===== *)
(** * Method caches at work

    A scheduler that makes steps of [cstep], a few interleavings of lookups with fills and
    collections, and the theorems about the caches at concrete inputs. *)

From Stdlib Require Import ZArith Lia Bool.
From stdpp Require Import base list gmap relations.
From S2P Require Import Prelude RetainCount Probing MethodBuckets CacheReaders CacheTable CacheWriters CacheOperations CacheInterleaving.

Local Open Scope Z_scope.

(** An address above all arrays. *)
Definition above (m : cmem) : Z := 65536 + map_fold (fun id _ top => Z.max id top) objc_empty_cache (arrays m).

Lemma above_fresh m : arrays m !! above m = None /\ above m <> 0.
Proof.
  unfold above. set (top := map_fold _ _ _).
  assert (Hb : objc_empty_cache <= top /\ forall id, is_Some (arrays m !! id) -> id <= top).
  { subst top. generalize (arrays m). intros t. apply (map_fold_weak_ind (fun top t => objc_empty_cache <= top /\ forall id, is_Some (t !! id) -> id <= top)).
    - split; [lia|]. intros id [x Hx]. by rewrite lookup_empty in Hx.
    - intros i x t' r Hi [Hr Hall]. split; [lia|]. intros id. destruct (decide (id = i)) as [->|Hne]; [lia|].
      rewrite lookup_insert_ne by done. intros Hid. specialize (Hall id Hid). lia. }
  destruct Hb as [Hb Hall]. split; [|unfold objc_empty_cache in Hb; lia].
  destruct (arrays m !! (65536 + top)) as [x|] eqn:E; [|done]. specialize (Hall (65536 + top) ltac:(by exists x)). lia.
Qed.

(** ** A scheduler *)

Inductive act := A_call (cls sel : Z) | A_read (n : nat) | A_begin (o : op) | A_write.

Section Scheduler.
Context (a : arch) (init : Z -> bool).

#[export] Instance op_ok_dec m o : Decision (op_ok m o).
Proof. destruct o; simpl; apply _. Defined.
#[export] Instance quiet_dec rs : Decision (quiet rs).
Proof. unfold quiet. apply _. Defined.

Definition do_write (m : cmem) (rs : list reader) (q : option nat) (f : list (Z * Z * Z)) (p : prog unit) : option csys :=
  match p, q with
  | Done _, None => Some (mk_csys m rs None None f)
  | Get k, None => Some (mk_csys m rs (Some (k m)) None f)
  | Put e k, None => m' ← apply_store e m; Some (mk_csys m' rs (Some k) None f)
  | Alloc n k, None => Some (mk_csys (with_array m (above m) n) rs (Some (k (above m))) None f)
  | Crit _, None | Wait _, None => Some (mk_csys m rs (Some p) (Some (length rs)) f)
  | Crit k, Some n => Some (mk_csys m rs (Some (k (negb (bool_decide (quiet (take n rs)))))) None f)
  | Wait k, Some n => if bool_decide (quiet (take n rs)) then Some (mk_csys m rs (Some k) None f) else None
  | _, _ => None
  end.

Definition do_act (x : act) (s : csys) : option csys :=
  let 'mk_csys m rs w q f := s in
  match x, w, q with
  | A_call cls sel, _, _ => if bool_decide (is_Some (caches m !! cls) /\ 1 < sel) then Some (mk_csys m (rs ++ [R_mask cls sel]) w q f) else None
  | A_read n, _, _ =>
      r ← rs !! n;
      if active r then match reader_step a m r with Ret r' => Some (mk_csys m (<[n := r']> rs) w q f) | _ => None end else None
  | A_begin o, None, None => if bool_decide (op_ok m o) then Some (mk_csys m rs (Some (op_prog a init o)) None (f ++ op_filled o)) else None
  | A_write, Some p, _ => do_write m rs q f p
  | _, _, _ => None
  end.

Fixpoint sched (l : list act) (s : csys) : option csys :=
  match l with [] => Some s | x :: l' => s' ← do_act x s; sched l' s' end.

Definition act_label (x : act) : option nat := match x with A_read n => Some n | _ => None end.

Lemma do_write_step m rs q f p s' : do_write m rs q f p = Some s' -> cstep a init None (mk_csys m rs (Some p) q f) s'.
Proof.
  destruct p as [x| |k|e k|n k|k|k], q as [j|]; simpl; try done.
  - intros [= <-]. constructor.
  - intros [= <-]. constructor.
  - destruct (apply_store e m) as [m'|] eqn:He; simpl; [|done]. intros [= <-]. by constructor.
  - intros [= <-]. destruct (above_fresh m). by constructor.
  - intros [= <-]. case_bool_decide; simpl; by econstructor.
  - intros [= <-]. by constructor.
  - case_bool_decide; [|done]. intros [= <-]. by econstructor.
  - intros [= <-]. by constructor.
Qed.

Lemma do_act_step x s s' : do_act x s = Some s' -> cstep a init (act_label x) s s'.
Proof.
  destruct s as [m rs w q f], x as [cls sel|n|o|]; simpl.
  - case_bool_decide as Hb; [|done]. intros [= <-]. constructor; apply Hb.
  - destruct (rs !! n) as [r|] eqn:Hn; simpl; [|done]. destruct (active r) eqn:Hact; [|done]. destruct (reader_step a m r) as [r'| |] eqn:Hr; [|done..].
    intros [= <-]. by apply (step_read _ _ _ _ _ _ _ _ r).
  - destruct w, q; try done. case_bool_decide; [|done]. intros [= <-]. by constructor.
  - destruct w as [p|]; [|done]. apply do_write_step.
Qed.

Lemma sched_steps l s s' : sched l s = Some s' -> rtc (some_step a init) s s'.
Proof.
  revert s. induction l as [|x l IH]; simpl; intros s; [intros [= ->]; constructor|].
  destruct (do_act x s) as [s1|] eqn:E; simpl; [|done]. intros Hl. apply (rtc_l _ _ s1); [|by apply IH]. eexists. by apply do_act_step.
Qed.

(** The steps of reader [n] in a schedule. *)
Definition own_steps (n : nat) (l : list act) : nat := length (filter (fun x => act_label x = Some n) l).

Lemma sched_runs n l s s' : sched l s = Some s' -> runs_with a init n (own_steps n l) s s'.
Proof.
  unfold own_steps. revert s. induction l as [|x l IH]; simpl; intros s; [intros [= ->]; constructor|].
  destruct (do_act x s) as [s1|] eqn:E; simpl; [|done]. intros Hl. apply do_act_step in E. rewrite filter_cons. case_decide as Hx.
  - rewrite Hx in E. simpl. by apply (runs_own _ _ _ _ s1); [|apply IH].
  - by apply (runs_other _ _ _ (act_label x) _ s1); [| |apply IH].
Qed.

End Scheduler.

(** ** A lookup in an array that is replaced and collected *)

Definition all_classes (_ : Z) : bool := true.

(** Three entries fill the first array of class 7 to three quarters. *)
Definition three_fills : list act :=
  A_begin (Op_fill 7 20 2000) :: replicate 21 A_write ++ A_begin (Op_fill 7 24 2400) :: replicate 13 A_write ++
  A_begin (Op_fill 7 28 2800) :: replicate 14 A_write.

(** A lookup of 24 has loaded the address of that array. *)
Definition lookup_under_way : csys := default (start [7]) (sched x86_64 all_classes (three_fills ++ [A_call 7 24; A_read 0; A_read 0]) (start [7])).

(** A fourth fill replaces the array, a collection begins to ask for lookups, another lookup
    begins, the first one ends, the old array is freed while the second is under way. *)
Definition replaced_and_collected : list act :=
  A_begin (Op_fill 7 21 2100) :: replicate 25 A_write ++ A_begin Op_collect :: A_write :: A_write ::
  A_call 7 21 :: A_read 1 :: replicate 4 (A_read 0) ++ replicate 7 A_write.

Definition lookup_over : csys := default (start [7]) (sched x86_64 all_classes replaced_and_collected lookup_under_way).

(** The lookup is in the old array, which has five buckets. *)
Example lookup_under_way_at : readers lookup_under_way = [R_sel 7 24 3 69632 0 false] /\ caches (shared lookup_under_way) !! 7 = Some (mk_cache 69632 3 3).
Proof. vm_compute. done. Qed.

(** It has found the implementation there; the class has its next array, the old one is
    gone. *)
Example lookup_over_found :
  readers lookup_over = [R_done 7 24 (Some 2400); R_buckets 7 21 7] /\ caches (shared lookup_over) !! 7 = Some (mk_cache 135168 7 1) /\
  arrays (shared lookup_over) !! 69632 = None /\ garbage_refs (shared lookup_over) = [].
Proof. vm_compute. done. Qed.

(** On arm64 a lookup that has loaded the mask of the empty cache may load the address of the
    first array: it uses the new buckets with the old mask. *)
Example new_buckets_old_mask :
  (readers <$> sched arm64 all_classes (A_call 7 20 :: A_read 0 :: A_begin (Op_fill 7 20 2000) :: replicate 17 A_write ++ [A_read 0; A_read 0]) (start [7])) = Some [R_done 7 20 (Some 2000)].
Proof. vm_compute. done. Qed.

(** ** The theorems at concrete inputs *)

Lemma under_way_reachable : rtc (some_step x86_64 all_classes) (start [7]) lookup_under_way.
Proof. apply (sched_steps x86_64 all_classes (three_fills ++ [A_call 7 24; A_read 0; A_read 0])). vm_compute. done. Qed.

Lemma over_runs : runs_with x86_64 all_classes 0 4 lookup_under_way lookup_over.
Proof. apply (sched_runs x86_64 all_classes 0 replaced_and_collected). vm_compute. done. Qed.

Lemma over_reachable : rtc (some_step x86_64 all_classes) (start [7]) lookup_over.
Proof. transitivity lookup_under_way; [apply under_way_reachable|]. apply (sched_steps x86_64 all_classes replaced_and_collected). vm_compute. done. Qed.

Lemma cache_lookups_safe_witness : (7, 24, 2400) ∈ filled lookup_over.
Proof.
  destruct (cache_lookups_safe x86_64 all_classes [7] lookup_over over_reachable ltac:(vm_compute; done)) as (_ & Hfound & _).
  apply (Hfound 0%nat). vm_compute. done.
Defined.

Lemma cache_lookups_wait_free_witness : Z.of_nat 4 <= 4 * 5 + 2.
Proof.
  apply (cache_lookups_wait_free x86_64 all_classes [7] lookup_under_way lookup_over 0 4 7 24 3 69632 0 false 5).
  - apply under_way_reachable.
  - vm_compute. done.
  - destruct (arrays (shared lookup_under_way) !! 69632) as [arr|] eqn:E; [|vm_compute in E; done]. exists arr. split; [done|].
    vm_compute in E. injection E as <-. done.
  - apply over_runs.
  - vm_compute. done.
Defined.

(** Between two operations the memory of a reachable state is stable, also when one more
    fill is about to begin. *)
Lemma under_way_stable o : exists g, stable_but x86_64 (was_filled (filled lookup_under_way ++ o)) None 3 g (shared lookup_under_way).
Proof.
  destruct (reachable_inv _ _ _ _ under_way_reachable ltac:(vm_compute; done)) as [g [_ _ Hw _]]. exists g. apply (stable_history x86_64 (filled lookup_under_way) o).
  assert (E : writer lookup_under_way = None) by (vm_compute; done). rewrite E in Hw.
  assert (E2 : fills_so_far lookup_under_way = 3) by (vm_compute; done). rewrite E2 in Hw. exact Hw.
Qed.

Lemma cache_fill_correct_witness : exists m',
  run_prog above false (cache_fill_nolock x86_64 all_classes 7 21 2100) (shared lookup_under_way) = Ret (tt, m') /\ getImp x86_64 m' 7 21 = Ret 2100.
Proof.
  destruct (under_way_stable [(7, 21, 2100)]) as [g Hst].
  destruct (cache_fill_correct x86_64 _ (was_filled_nil _) above false above_fresh all_classes 3 g (shared lookup_under_way) 7 21 2100 ltac:(lia) Hst) as (m' & Hrun & Hnew & _).
  - vm_compute. by eexists.
  - lia.
  - split; [set_solver|done].
  - done.
  - exists m'. split; [done|]. apply Hnew. vm_compute. done.
Defined.

Lemma cache_erase_correct_witness : exists m',
  run_prog above false (cache_erase_nolock x86_64 7) (shared lookup_under_way) = Ret (tt, m') /\ getImp x86_64 m' 7 24 = Ret 0.
Proof.
  destruct (under_way_stable []) as [g Hst].
  destruct (cache_erase_correct x86_64 _ (was_filled_nil _) above false above_fresh 3 g (shared lookup_under_way) 7 Hst) as (m' & Hrun & Hgone & _).
  - vm_compute. by eexists.
  - exists m'. split; [done|]. apply Hgone. lia.
Defined.

(** A cache whose mask has 31 bits. *)
Definition huge_cache : cmem := mk_cmem ∅ {[7 := mk_cache 8192 (2 ^ 31 - 1) (2 ^ 30)]} [] [] 0.

Lemma expand_overflow_unnoticed_witness : run_prog above false (expand arm64 7) huge_cache = Fault.
Proof. apply (expand_overflow_unnoticed arm64 above false huge_cache 7 (mk_cache 8192 (2 ^ 31 - 1) (2 ^ 30))); vm_compute; done. Defined.
