(* ===== verification/DenseMap.v ===== *)
(** * Dense hash maps

    llvm-DenseMap.h, the hash table of the retain counts of the side tables
    ([RefcountMap] in NSObject.mm is a [DenseMap] whose zero values may be purged): open
    addressing with quadratic probing, empty and tombstone keys, growing, compaction and
    rehashing.  [DenseMapBase] is written against the operations [grow] and
    [shrink_and_clear] of the class that derives from it; here they are the class [Derived],
    with instances for [DenseMap] and [SmallDenseMap], which keeps a few buckets inline.
    The keys come with a [DenseMapInfo] (llvm-DenseMapInfo.h).

    An index stands for a pointer to a bucket, [None] for the null pointer.  The value of a
    bucket is absent as long as none has been constructed.  A failed assertion and
    [_objc_fatal] are faults. *)

From Stdlib Require Import ZArith Lia Bool.
From stdpp Require Import base list.
From S2P Require Import Prelude.

Local Open Scope Z_scope.

(** ** Powers of two (llvm-MathExtras.h) *)

Definition NextPowerOf2 (A : Z) : Z :=
  let A := Z.lor A (Z.shiftr A 1) in
  let A := Z.lor A (Z.shiftr A 2) in
  let A := Z.lor A (Z.shiftr A 4) in
  let A := Z.lor A (Z.shiftr A 8) in
  let A := Z.lor A (Z.shiftr A 16) in
  u32 (A + 1).

(** the loop of [CountLeadingZeros_32], for the shifts 16, 8, 4, 2, 1 *)
Fixpoint clz_loop (shifts : list Z) (Value Count : Z) : Z :=
  match shifts with
  | [] => Count
  | Shift :: rest =>
      let Tmp := Z.shiftr Value Shift in
      if negb (Tmp =? 0) then clz_loop rest Tmp Count else clz_loop rest Value (Z.lor Count Shift)
  end.

Definition CountLeadingZeros_32 (Value : Z) : Z := if Value =? 0 then 32 else clz_loop [16; 8; 4; 2; 1] Value 0.

Definition Log2_32_Ceil (Value : Z) : Z := u32 (32 - CountLeadingZeros_32 (u32 (Value - 1))).

(** ** Keys and values *)

Class DenseMapInfo (K : Type) := {
  getEmptyKey : K;
  getTombstoneKey : K;
  getHashValue : K -> Z;
  isEqual : K -> K -> bool }.

(** What the maps rely on. *)
Class DenseMapInfoLaws (K : Type) `{DenseMapInfo K} : Prop := {
  isEqual_spec x y : isEqual x y = true <-> x = y;
  empty_not_tombstone : getEmptyKey <> getTombstoneKey }.

(** [ValueT()] and the comparison with 0. *)
Class ValueInfo (V : Type) := { value_init : V; is_zero : V -> bool }.

Record BucketT (K V : Type) := mk_bkt { b_first : K; b_second : option V }.
Arguments mk_bkt {K V}. Arguments b_first {K V}. Arguments b_second {K V}.

(** New memory holds anything. *)
Class Heap (K V : Type) := { new_buckets : nat -> list (BucketT K V); length_new_buckets n : length (new_buckets n) = n }.

(** [Small] is the bit of [SmallDenseMap]: the buckets are inline. *)
Record dmap (K V : Type) := mk_dmap { Small : bool; Buckets : list (BucketT K V); NumEntries : Z; NumTombstones : Z }.
Arguments mk_dmap {K V}. Arguments Small {K V}. Arguments Buckets {K V}. Arguments NumEntries {K V}. Arguments NumTombstones {K V}.

Definition MIN_BUCKETS : Z := 4.
Definition MIN_COMPACT : Z := 1024.

(** ** What the derived classes share *)

Section Base.
Context {K V : Type} `{info : DenseMapInfo K} `{vinfo : ValueInfo V} {heap : Heap K V}.
Context (ZeroValuesArePurgeable : bool).
#[local] Abbreviation table := (dmap K V).

Definition getNumBuckets (t : table) : Z := Z.of_nat (length (Buckets t)).

(** [DenseMap::setNumEntries].  The one of [SmallDenseMap] stores into 31 bits and asserts before
    that the number is below [INT_MAX]; the theorems about inline buckets are for at most [2^30]
    of them, where the assertion holds and the width makes no difference. *)
Definition setNumEntries (n : Z) (t : table) : table := mk_dmap (Small t) (Buckets t) (u32 n) (NumTombstones t).
Definition setNumTombstones (n : Z) (t : table) : table := mk_dmap (Small t) (Buckets t) (NumEntries t) (u32 n).
Definition setBuckets (l : list (BucketT K V)) (t : table) : table := mk_dmap (Small t) l (NumEntries t) (NumTombstones t).

Definition bucket (t : table) (i : Z) : option (BucketT K V) := Buckets t !! Z.to_nat i.
Definition put_bucket (i : Z) (b : BucketT K V) (t : table) : table := setBuckets (<[Z.to_nat i := b]> (Buckets t)) t.

Definition is_empty_key (k : K) : bool := isEqual k getEmptyKey.
Definition is_tombstone_key (k : K) : bool := isEqual k getTombstoneKey.
Definition second_is_zero (b : BucketT K V) : bool := match b_second b with Some v => is_zero v | None => false end.

Definition is_null (p : option Z) : bool := match p with None => true | Some _ => false end.

(** The loop of [LookupBucketFor].  For a tombstone the comparison of its value with 0
    reads a value that is gone; the answer does not matter there, since the tombstone has
    been remembered before. *)
Fixpoint probe_loop (fuel : nat) (t : table) (Val : K) (BucketNo ProbeAmt : Z) (FoundTombstone : option Z) : outcome (bool * option Z) :=
  match fuel with
  | O => OutOfFuel
  | S fuel' =>
      let! b := of_option (bucket t BucketNo) in
      if isEqual Val (b_first b) then Ret (true, Some BucketNo)
      else if is_empty_key (b_first b) then Ret (false, Some (default BucketNo FoundTombstone))
      else
        let FoundTombstone := if is_tombstone_key (b_first b) && is_null FoundTombstone then Some BucketNo else FoundTombstone in
        let FoundTombstone := if ZeroValuesArePurgeable && second_is_zero b && is_null FoundTombstone then Some BucketNo else FoundTombstone in
        if getNumBuckets t <? ProbeAmt then Fault
        else probe_loop fuel' t Val (Z.land (u32 (BucketNo + ProbeAmt)) (u32 (getNumBuckets t - 1))) (u32 (ProbeAmt + 1)) FoundTombstone
  end.

Definition LookupBucketFor (Val : K) (t : table) : outcome (bool * option Z) :=
  if getNumBuckets t =? 0 then Ret (false, None)
  else if is_empty_key Val || is_tombstone_key Val then Fault
  else probe_loop (S (length (Buckets t))) t Val (Z.land (getHashValue Val) (u32 (getNumBuckets t - 1))) 1 None.

(** A value that is destroyed. *)
Definition no_value (b : BucketT K V) : BucketT K V := mk_bkt (b_first b) None.
Definition has_value (b : BucketT K V) : bool := negb (is_empty_key (b_first b)) && negb (is_tombstone_key (b_first b)).

Definition destroyAll (t : table) : table := setBuckets (map (fun b => if has_value b then no_value b else b) (Buckets t)) t.

(** # initial buckets must be a power of two *)
Definition initEmpty (t : table) : outcome table :=
  let t := setNumTombstones 0 (setNumEntries 0 t) in
  if Z.land (getNumBuckets t) (u32 (getNumBuckets t - 1)) =? 0 then
    Ret (setBuckets (map (fun b => mk_bkt getEmptyKey (b_second b)) (Buckets t)) t)
  else Fault.

Fixpoint move_loop (old : list (BucketT K V)) (t : table) : outcome table :=
  match old with
  | [] => Ret t
  | b :: rest =>
      if has_value b && negb (ZeroValuesArePurgeable && second_is_zero b) then
        let! r := LookupBucketFor (b_first b) t in
        match r with
        | (false, Some DestBucket) => move_loop rest (setNumEntries (NumEntries t + 1) (put_bucket DestBucket (mk_bkt (b_first b) (b_second b)) t))
        | _ => Fault
        end
      else move_loop rest t
  end.

Definition moveFromOldBuckets (old : list (BucketT K V)) (t : table) : outcome table := let! t := initEmpty t in move_loop old t.

(** A bucket constructed from another in memory that holds [mine]. *)
Definition construct_bucket (mine b : BucketT K V) : BucketT K V := mk_bkt (b_first b) (if has_value b then b_second b else b_second mine).

(** [DenseMapBase::copyFrom] into as many buckets; for plain data the code copies all bytes,
    also of the values that are not there *)
Definition copy_buckets (other t : table) : outcome table :=
  if getNumBuckets t =? getNumBuckets other then
    Ret (mk_dmap (Small t) (zip_with construct_bucket (Buckets t) (Buckets other)) (NumEntries other) (NumTombstones other))
  else Fault.

(** ** [DenseMap] *)

Definition DenseMap_allocateBuckets (Num : Z) (t : table) : table := setBuckets (new_buckets (Z.to_nat Num)) t.

Definition DenseMap_init (InitBuckets : Z) (t : table) : outcome table :=
  let t := DenseMap_allocateBuckets InitBuckets t in
  if negb (InitBuckets =? 0) then initEmpty t else Ret (setNumTombstones 0 (setNumEntries 0 t)).

(** Without an old array the new one is made empty. *)
Definition DenseMap_grow (AtLeast : Z) (t : table) : outcome table :=
  let OldBuckets := Buckets t in
  let t := DenseMap_allocateBuckets (Z.max MIN_BUCKETS (NextPowerOf2 AtLeast)) t in
  match OldBuckets with [] => initEmpty t | _ => moveFromOldBuckets OldBuckets t end.

Definition DenseMap_shrink_and_clear (t : table) : outcome table :=
  let OldNumEntries := NumEntries t in
  let OldNumBuckets := getNumBuckets t in
  let t := destroyAll t in
  let NewNumBuckets := if negb (OldNumEntries =? 0) then Z.max MIN_BUCKETS (s32 (Z.shiftl 1 (Log2_32_Ceil OldNumEntries + 1))) else 0 in
  if u32 NewNumBuckets =? OldNumBuckets then initEmpty t else DenseMap_init (u32 NewNumBuckets) t.

Definition DenseMap_copyFrom (other t : table) : outcome table :=
  let t := DenseMap_allocateBuckets (getNumBuckets other) (destroyAll t) in
  if negb (getNumBuckets other =? 0) then copy_buckets other t else Ret (setNumTombstones 0 (setNumEntries 0 t)).

Definition DenseMap_swap (t RHS : table) : table * table := (RHS, t).

(** ** [SmallDenseMap] *)

Section Small.
Context (InlineBuckets : Z).

(** More buckets are allocated than are inline. *)
Definition Small_allocateBuckets (Num : Z) (t : table) : outcome table :=
  if InlineBuckets <? Num then Ret (mk_dmap false (new_buckets (Z.to_nat Num)) (NumEntries t) (NumTombstones t)) else Fault.

Definition set_inline (t : table) : table := mk_dmap true (new_buckets (Z.to_nat InlineBuckets)) (NumEntries t) (NumTombstones t).

Definition Small_init (InitBuckets : Z) (t : table) : outcome table :=
  let! t := if InlineBuckets <? InitBuckets then Small_allocateBuckets InitBuckets t else Ret (set_inline t) in
  initEmpty t.

Definition Small_grow (AtLeast : Z) (t : table) : outcome table :=
  let AtLeast := if InlineBuckets <? AtLeast then Z.max MIN_BUCKETS (NextPowerOf2 AtLeast) else AtLeast in
  if Small t then
    if AtLeast <=? InlineBuckets then Ret t
    else
      let Tmp := filter (fun b => has_value b = true) (Buckets t) in
      let! t := Small_allocateBuckets AtLeast t in
      moveFromOldBuckets Tmp t
  else
    let OldRep := Buckets t in
    let! t := if AtLeast <=? InlineBuckets then Ret (set_inline t) else Small_allocateBuckets AtLeast t in
    moveFromOldBuckets OldRep t.

Definition Small_shrink_and_clear (t : table) : outcome table :=
  let OldSize := NumEntries t in
  let t := destroyAll t in
  let NewNumBuckets :=
    if negb (OldSize =? 0) then
      let n := u32 (Z.shiftl 1 (Log2_32_Ceil OldSize + 1)) in
      if (InlineBuckets <? n) && (n <? MIN_BUCKETS) then MIN_BUCKETS else n
    else 0 in
  if (Small t && (NewNumBuckets <=? InlineBuckets)) || (negb (Small t) && (NewNumBuckets =? getNumBuckets t)) then initEmpty t
  else Small_init NewNumBuckets t.

(** The code forgets to store what [allocateBuckets] returns: when the other map has more than
    the inline buckets, it goes on with buckets that have been freed, or takes the inline
    buckets for a pointer. *)
Definition Small_copyFrom (other t : table) : outcome table :=
  let t := destroyAll t in
  if InlineBuckets <? getNumBuckets other then Fault
  else copy_buckets other (if Small t then t else set_inline t).

(** Two inline buckets that change places; values move only where there are any. *)
Definition swap_bucket (l r : BucketT K V) : BucketT K V * BucketT K V :=
  if has_value l && has_value r then (r, l)
  else if has_value l then (mk_bkt (b_first r) None, mk_bkt (b_first l) (b_second l))
  else if has_value r then (mk_bkt (b_first r) (b_second r), mk_bkt (b_first l) None)
  else (mk_bkt (b_first r) (b_second l), mk_bkt (b_first l) (b_second r)).

Definition Small_swap (t RHS : table) : table * table :=
  let take (mine : bool) (l : list (BucketT K V)) (other : table) := mk_dmap mine l (NumEntries other) (NumTombstones other) in
  let moved (l : list (BucketT K V)) := zip_with construct_bucket (new_buckets (length l)) l in
  match Small t, Small RHS with
  | true, true =>
      let l := zip_with swap_bucket (Buckets t) (Buckets RHS) in
      (take true (map fst l) RHS, take true (map snd l) t)
  | false, false => (take false (Buckets RHS) RHS, take false (Buckets t) t)
  | true, false => (take false (Buckets RHS) RHS, take true (moved (Buckets t)) t)
  | false, true => (take true (moved (Buckets RHS)) RHS, take false (Buckets t) t)
  end.

End Small.

(** ** The operations *)

Class Derived := { grow : Z -> table -> outcome table; shrink_and_clear : table -> outcome table }.

Definition DenseMap_derived : Derived := {| grow := DenseMap_grow; shrink_and_clear := DenseMap_shrink_and_clear |}.
Definition SmallDenseMap_derived (InlineBuckets : Z) : Derived :=
  {| grow := Small_grow InlineBuckets; shrink_and_clear := Small_shrink_and_clear InlineBuckets |}.

Section Operations.
Context (derived : Derived).

(** Growing, and the bucket of the key after that. *)
Definition grow_and_lookup (AtLeast : Z) (Key : K) (t : table) : outcome (table * option Z) :=
  let! t := grow AtLeast t in
  let! r := LookupBucketFor Key t in
  Ret (t, snd r).

Definition make_bucket_room (Key : K) (TheBucket : option Z) (t : table) : outcome (table * option Z) :=
  let NewNumEntries := u32 (NumEntries t + 1) in
  let! r := if u32 (getNumBuckets t * 3) <=? u32 (NewNumEntries * 4) then grow_and_lookup (u32 (getNumBuckets t * 2)) Key t else Ret (t, TheBucket) in
  let '(t, TheBucket) := r in
  if u32 (getNumBuckets t - u32 (NewNumEntries + NumTombstones t)) <=? getNumBuckets t / 8 then grow_and_lookup (getNumBuckets t) Key t
  else Ret (t, TheBucket).

Definition InsertIntoBucketImpl (Key : K) (TheBucket : option Z) (t : table) : outcome (table * Z) :=
  let! r := make_bucket_room Key TheBucket t in
  let '(t, TheBucket) := r in
  let! i := of_option TheBucket in
  let! b := of_option (bucket t i) in
  let t :=
    if is_empty_key (b_first b) then setNumEntries (NumEntries t + 1) t
    else if is_tombstone_key (b_first b) then setNumTombstones (NumTombstones t - 1) (setNumEntries (NumEntries t + 1) t)
    else t in
  Ret (t, i).

Definition InsertIntoBucket (Key : K) (Value : V) (TheBucket : option Z) (t : table) : outcome (table * Z) :=
  let! r := InsertIntoBucketImpl Key TheBucket t in
  let '(t, i) := r in
  Ret (put_bucket i (mk_bkt Key (Some Value)) t, i).

Definition dm_empty (t : table) : bool := NumEntries t =? 0.
Definition dm_size (t : table) : Z := NumEntries t.

Definition dm_resize (Size : Z) (t : table) : outcome table := if getNumBuckets t <? Size then grow (u32 Size) t else Ret t.

(** The loop of [clear]. *)
Fixpoint clear_loop (l : list (BucketT K V)) (n : Z) : list (BucketT K V) * Z :=
  match l with
  | [] => ([], n)
  | b :: rest =>
      let n := if has_value b then u32 (n - 1) else n in
      let '(rest', n') := clear_loop rest n in
      ((if is_empty_key (b_first b) then b else mk_bkt getEmptyKey (if has_value b then None else b_second b)) :: rest', n')
  end.

Definition dm_clear (t : table) : outcome table :=
  if (NumEntries t =? 0) && (NumTombstones t =? 0) then Ret t
  else if (u32 (NumEntries t * 4) <? getNumBuckets t) && (MIN_BUCKETS <? getNumBuckets t) then shrink_and_clear t
  else
    let '(l, n) := clear_loop (Buckets t) (NumEntries t) in
    if n =? 0 then Ret (setNumTombstones 0 (setNumEntries n (setBuckets l t))) else Fault.

Definition dm_count (Val : K) (t : table) : outcome bool := let! r := LookupBucketFor Val t in Ret (fst r).

(** [find]: the index of the bucket, or the end *)
Definition dm_find (Val : K) (t : table) : outcome Z :=
  let! r := LookupBucketFor Val t in
  match r with (true, Some i) => Ret i | _ => Ret (getNumBuckets t) end.

(** The value an iterator leads to. *)
Definition dm_second (i : Z) (t : table) : outcome V := let! b := of_option (bucket t i) in of_option (b_second b).
Definition dm_set_second (i : Z) (v : V) (t : table) : outcome table :=
  let! b := of_option (bucket t i) in Ret (put_bucket i (mk_bkt (b_first b) (Some v)) t).

Definition dm_lookup (Val : K) (t : table) : outcome V :=
  let! r := LookupBucketFor Val t in
  match r with (true, Some i) => dm_second i t | _ => Ret value_init end.

Definition dm_insert (Key : K) (Value : V) (t : table) : outcome (table * (Z * bool)) :=
  let! r := LookupBucketFor Key t in
  match r with
  | (true, Some i) => Ret (t, (i, false))
  | (true, None) => Fault
  | (false, TheBucket) => let! r := InsertIntoBucket Key Value TheBucket t in let '(t, i) := r in Ret (t, (i, true))
  end.

Definition dm_compact (t : table) : outcome table :=
  if NumEntries t =? 0 then shrink_and_clear t
  else if (NumEntries t <? getNumBuckets t / 16) && (MIN_COMPACT <? getNumBuckets t) then grow (u32 (NumEntries t * 2)) t
  else Ret t.

(** [erase] of the bucket an iterator leads to *)
Definition dm_erase_at (i : Z) (t : table) : outcome table :=
  let! b := of_option (bucket t i) in
  let t := put_bucket i (mk_bkt getTombstoneKey None) t in
  dm_compact (setNumTombstones (NumTombstones t + 1) (setNumEntries (NumEntries t - 1) t)).

Definition dm_erase (Val : K) (t : table) : outcome (table * bool) :=
  let! r := LookupBucketFor Val t in
  match r with
  | (true, Some i) => let! t := dm_erase_at i t in Ret (t, true)
  | (true, None) => Fault
  | (false, _) => Ret (t, false)
  end.

Definition FindAndConstruct (Key : K) (t : table) : outcome (table * Z) :=
  let! r := LookupBucketFor Key t in
  match r with
  | (true, Some i) => Ret (t, i)
  | (true, None) => Fault
  | (false, TheBucket) => InsertIntoBucket Key value_init TheBucket t
  end.

End Operations.

(** ** Iterators *)

(** [AdvancePastEmptyBuckets], from index [i] on *)
Fixpoint AdvancePastEmptyBuckets (l : list (BucketT K V)) (i : Z) : Z :=
  match l with
  | [] => i
  | b :: rest => if is_empty_key (b_first b) || is_tombstone_key (b_first b) then AdvancePastEmptyBuckets rest (i + 1) else i
  end.

Definition dm_begin (t : table) : Z := if dm_empty t then getNumBuckets t else AdvancePastEmptyBuckets (Buckets t) 0.
Definition dm_end (t : table) : Z := getNumBuckets t.
Definition dm_next (i : Z) (t : table) : Z := AdvancePastEmptyBuckets (drop (Z.to_nat (i + 1)) (Buckets t)) (i + 1).

(** The buckets that a loop from [begin()] to [end()] comes to. *)
Fixpoint iterate (fuel : nat) (t : table) (i : Z) : outcome (list (BucketT K V)) :=
  match fuel with
  | O => OutOfFuel
  | S fuel' =>
      if i =? dm_end t then Ret []
      else let! b := of_option (bucket t i) in let! rest := iterate fuel' t (dm_next i t) in Ret (b :: rest)
  end.

End Base.
