(* ===== verification/DenseProbing.v ===== *)
(** * Quadratic probing

    The probes of [LookupBucketFor] are triangular numbers apart: in a table whose size is a
    power of two the first [2 ^ k] of them visit every bucket once. *)

From Stdlib Require Import ZArith Lia.
From stdpp Require Import base list.
From S2P Require Import Prelude.

Local Open Scope Z_scope.

(** The sum of the first [j] probe amounts. *)
Definition tri (j : Z) : Z := j * (j + 1) / 2.

Lemma tri_double j : 2 * tri j = j * (j + 1).
Proof.
  unfold tri. assert (E : (j * (j + 1)) mod 2 = 0).
  { rewrite Z.mul_mod by lia. assert (Hj : j mod 2 = 0 \/ j mod 2 = 1) by (pose proof (Z.mod_pos_bound j 2); lia).
    rewrite (Z.add_mod j 1) by lia. destruct Hj as [-> | ->]; reflexivity. }
  rewrite Z.mod_eq in E by lia. lia.
Qed.

Lemma tri_succ j : tri (j + 1) = tri j + (j + 1).
Proof. pose proof (tri_double j). pose proof (tri_double (j + 1)). lia. Qed.

Lemma tri_0 : tri 0 = 0.
Proof. reflexivity. Qed.

(** An odd number has no factor in common with a power of two. *)
Lemma odd_coprime d n : 0 <= n -> d mod 2 = 1 -> Z.gcd (2 ^ n) d = 1.
Proof.
  intros Hn Hd. rewrite Z.gcd_comm. revert n Hn. apply natlike_ind; [apply Z.gcd_1_r|]. intros n Hn IH. rewrite Z.pow_succ_r by done.
  assert (H2 : Z.gcd d 2 = 1) by (rewrite Z.gcd_comm, <- Z.gcd_mod, Hd by lia; reflexivity). by apply Z.coprime_mul_r.
Qed.

Lemma divide_bound n d : (n | d) -> 0 < d -> n <= d.
Proof. intros. by apply Z.divide_pos_le. Qed.

Lemma tri_apart k i j : 0 <= k -> 0 <= i < j -> j < 2 ^ k -> ~ (2 ^ k | tri j - tri i).
Proof.
  intros Hk Hi Hj [q Hq]. pose proof (tri_double i). pose proof (tri_double j).
  assert (Hpow : 2 ^ (k + 1) = 2 * 2 ^ k) by (rewrite Z.pow_add_r by lia; lia).
  assert (Hd : (2 ^ (k + 1) | (j - i) * (j + i + 1))) by (exists q; rewrite Hpow; transitivity (2 * (tri j - tri i)); [replace ((j - i) * (j + i + 1)) with (j * (j + 1) - i * (i + 1)) by ring; lia|rewrite Hq; ring]).
  destruct (Z.eq_dec ((j - i) mod 2) 1) as [Ho|He].
  - pose proof (Z.gauss (2 ^ (k + 1)) (j - i) (j + i + 1) Hd (odd_coprime _ (k + 1) ltac:(lia) Ho)) as Hdiv. apply divide_bound in Hdiv; lia.
  - assert (Ho : (j + i + 1) mod 2 = 1).
    { assert (Hz : (j - i) mod 2 = 0) by (pose proof (Z.mod_pos_bound (j - i) 2); lia).
      apply Z.mod_divide in Hz as [c Hc]; [|lia]. replace (j + i + 1) with (1 + (c + i) * 2) by lia. by rewrite Z.mod_add. }
    rewrite Z.mul_comm in Hd. pose proof (Z.gauss (2 ^ (k + 1)) (j + i + 1) (j - i) Hd (odd_coprime _ (k + 1) ltac:(lia) Ho)) as Hdiv. apply divide_bound in Hdiv; lia.
Qed.

(** The [j]-th probe of a search that begins at hash [h]. *)
Definition nth_probe (h k j : Z) : Z := (h + tri j) mod 2 ^ k.

Lemma nth_probe_range h k j : 0 <= k -> 0 <= nth_probe h k j < 2 ^ k.
Proof. intros. apply Z.mod_pos_bound. by apply Z.pow_pos_nonneg. Qed.

Lemma nth_probe_succ h k j : nth_probe h k (j + 1) = (nth_probe h k j + (j + 1)) mod 2 ^ k.
Proof. unfold nth_probe. rewrite tri_succ, Zplus_mod_idemp_l. f_equal. lia. Qed.

Lemma nth_probe_inj h k i j : 0 <= k -> 0 <= i < 2 ^ k -> 0 <= j < 2 ^ k -> nth_probe h k i = nth_probe h k j -> i = j.
Proof.
  intros Hk. assert (Hlt : forall i j, 0 <= i < j -> j < 2 ^ k -> nth_probe h k i <> nth_probe h k j).
  { clear i j. intros i j Hi Hj E. apply (tri_apart k i j Hk Hi Hj). apply Z.mod_divide; [apply Z.pow_nonzero; lia|].
    unfold nth_probe in E. replace (tri j - tri i) with ((h + tri j) - (h + tri i)) by lia. rewrite Zminus_mod, E, Z.sub_diag. apply Z.mod_0_l. apply Z.pow_nonzero; lia. }
  intros Hi Hj E. destruct (Z.lt_trichotomy i j) as [H|[H|H]]; [|done|]; [by destruct (Hlt i j); [lia|lia|]|by destruct (Hlt j i); [lia|lia|]].
Qed.

(** Every bucket is probed. *)
Lemma nth_probe_surj h k b : 0 <= k -> 0 <= b < 2 ^ k -> exists j, 0 <= j < 2 ^ k /\ nth_probe h k j = b.
Proof.
  intros Hk Hb. set (n := Z.to_nat (2 ^ k)). set (l := map (fun j => Z.to_nat (nth_probe h k (Z.of_nat j))) (seq 0 n)).
  assert (Hnd : NoDup l).
  { apply NoDup_fmap_2_strong; [|apply NoDup_seq]. intros x y Hx Hy E. apply elem_of_seq in Hx, Hy.
    pose proof (nth_probe_range h k (Z.of_nat x) Hk). pose proof (nth_probe_range h k (Z.of_nat y) Hk).
    apply Z2Nat.inj in E; [|lia|lia]. apply nth_probe_inj in E; lia. }
  assert (Hsub : l ⊆+ seq 0 n).
  { apply NoDup_submseteq; [done|]. intros x Hx. apply list_elem_of_fmap in Hx as (j & -> & _). apply elem_of_seq.
    pose proof (nth_probe_range h k (Z.of_nat j) Hk). lia. }
  assert (Hperm : l ≡ₚ seq 0 n) by (apply submseteq_length_Permutation; [done|]; unfold l; rewrite length_map; done).
  assert (Hin : Z.to_nat b ∈ l) by (rewrite Hperm; apply elem_of_seq; lia).
  apply list_elem_of_fmap in Hin as (j & Hj & Hin). apply elem_of_seq in Hin. pose proof (nth_probe_range h k (Z.of_nat j) Hk).
  exists (Z.of_nat j). split; lia.
Qed.
