(* ===== verification/PowersOfTwo.v ===== *)
(** * Powers of two

    What [NextPowerOf2] and [Log2_32_Ceil] of llvm-MathExtras.h compute. *)

From Stdlib Require Import ZArith Lia Bool.
From stdpp Require Import base list.
From S2P Require Import Prelude DenseMap.

Local Open Scope Z_scope.

(** Every bit is the disjunction of the [s] bits from its place on. *)
Definition smeared (s A A' : Z) : Prop := forall i, 0 <= i -> Z.testbit A' i = true <-> exists d, 0 <= d < s /\ Z.testbit A (i + d) = true.

Lemma smeared_step s A A' : 0 < s -> smeared s A A' -> smeared (2 * s) A (Z.lor A' (Z.shiftr A' s)).
Proof.
  intros Hs H i Hi. rewrite Z.lor_spec, Z.shiftr_spec, orb_true_iff, (H i Hi), (H (i + s) ltac:(lia)) by lia. split.
  - intros [(d & Hd & Hb)|(d & Hd & Hb)]; [exists d|exists (s + d)]; (split; [lia|]); [done|]. by replace (i + (s + d)) with (i + s + d) by lia.
  - intros (d & Hd & Hb). destruct (Z.lt_ge_cases d s); [left; exists d; split; [lia|done]|right; exists (d - s)]. split; [lia|]. by replace (i + s + (d - s)) with (i + d) by lia.
Qed.

Lemma NextPowerOf2_spec A : 0 < A < 2 ^ 31 -> NextPowerOf2 A = 2 ^ (Z.log2 A + 1).
Proof.
  intros HA. unfold NextPowerOf2. cbv zeta.
  assert (H1 : smeared 1 A A).
  { intros i Hi. split; [intros Hb; exists 0; split; [lia|by rewrite Z.add_0_r]|intros (d & Hd & Hb)]. by replace (i + d) with i in Hb by lia. }
  apply (smeared_step 1), (smeared_step 2), (smeared_step 4), (smeared_step 8), (smeared_step 16) in H1; [|lia..]. match type of H1 with smeared _ _ ?x => set (A' := x) in * end.
  assert (Hlog : 0 <= Z.log2 A < 31) by (split; [apply Z.log2_nonneg|apply Z.log2_lt_pow2; lia]).
  assert (E : A' = Z.ones (Z.log2 A + 1)).
  { apply Z.bits_inj'. intros i Hi. destruct (Z.lt_ge_cases i (Z.log2 A + 1)) as [Hlt|Hge].
    - rewrite Z.ones_spec_low by lia. apply H1; [done|]. exists (Z.log2 A - i). split; [lia|]. replace (i + (Z.log2 A - i)) with (Z.log2 A) by lia. apply Z.bit_log2. lia.
    - rewrite Z.ones_spec_high by lia. apply not_true_is_false. intros Hb. apply H1 in Hb as (d & Hd & Hb); [|done]. rewrite Z.bits_above_log2 in Hb; [done|lia|lia]. }
  rewrite E, Z.ones_equiv. replace (Z.pred (2 ^ (Z.log2 A + 1)) + 1) with (2 ^ (Z.log2 A + 1)) by lia. apply wrap_id. split; [apply Z.pow_nonneg; lia|].
  apply Z.pow_lt_mono_r; lia.
Qed.

(** The next power of two is strictly greater, and at most twice as much. *)
Lemma NextPowerOf2_next A : 0 < A < 2 ^ 31 -> exists k, 1 <= k <= 31 /\ NextPowerOf2 A = 2 ^ k /\ A < 2 ^ k <= 2 * A.
Proof.
  intros HA. exists (Z.log2 A + 1). pose proof (Z.log2_nonneg A). assert (Z.log2 A < 31) by (apply Z.log2_lt_pow2; lia). pose proof (Z.log2_spec A ltac:(lia)) as [Hl Hu].
  split; [lia|]. split; [by apply NextPowerOf2_spec|]. rewrite Z.pow_succ_r in Hu by lia. rewrite Z.pow_add_r by lia. lia.
Qed.

(** A power of two is doubled. *)
Lemma NextPowerOf2_pow2 k : 0 <= k <= 30 -> NextPowerOf2 (2 ^ k) = 2 ^ (k + 1).
Proof.
  intros Hk. rewrite NextPowerOf2_spec; [by rewrite Z.log2_pow2 by lia|]. split; [apply Z.pow_pos_nonneg; lia|apply Z.pow_lt_mono_r; lia].
Qed.

(** The shifts of the bisection for words of [2 ^ p] bits. *)
Fixpoint shifts (p : nat) : list Z := match p with O => [] | S p' => 2 ^ Z.of_nat p' :: shifts p' end.

Lemma lor_disjoint q p : 0 <= p -> Z.lor (2 * q * 2 ^ p) (2 ^ p) = 2 * q * 2 ^ p + 2 ^ p.
Proof.
  intros Hp. rewrite <- Z.lxor_lor, <- Z.add_nocarry_lxor; [done|..]; apply Z.bits_inj'; intros i Hi; rewrite Z.land_spec, Z.bits_0, Z.pow2_bits_eqb by lia;
    (destruct (Z.eqb_spec p i) as [<-|]; [|apply andb_false_r]); rewrite andb_true_r, Z.mul_pow2_bits, Z.sub_diag by lia; apply Z.testbit_even_0.
Qed.

Lemma clz_loop_spec p V c : 0 < V < 2 ^ (2 ^ Z.of_nat p) -> 0 <= c -> c mod 2 ^ Z.of_nat p = 0 -> clz_loop (shifts p) V c = c + 2 ^ Z.of_nat p - 1 - Z.log2 V.
Proof.
  revert V c. induction p as [|p IH]; intros V c HV Hc Hm; [simpl in *; assert (V = 1) as -> by lia; simpl; lia|].
  cbn [shifts clz_loop]. rewrite Nat2Z.inj_succ, Z.pow_succ_r in * by lia. set (s := 2 ^ Z.of_nat p) in *. assert (Hs : 0 < s) by (apply Z.pow_pos_nonneg; lia).
  assert (Hpow : 2 ^ (2 * s) = 2 ^ s * 2 ^ s) by (rewrite <- Z.pow_add_r by lia; f_equal; lia). assert (0 < 2 ^ s) by (apply Z.pow_pos_nonneg; lia).
  assert (Hc0 : c mod s = 0).
  { apply Z.mod_divide in Hm as [q ->]; [|lia]. replace (q * (2 * s)) with (q * 2 * s) by lia. apply Z.mod_mul. lia. }
  rewrite Z.shiftr_div_pow2 by lia. destruct (Z.eqb_spec (V / 2 ^ s) 0) as [E|E]; simpl negb; cbv iota.
  - apply Z.div_small_iff in E; [|lia]. assert (Hl : Z.lor c s = c + s).
    { apply Z.mod_divide in Hm as [q ->]; [|lia]. replace (q * (2 * s)) with (2 * q * s) by lia. apply lor_disjoint. lia. }
    rewrite Hl, IH; [lia|lia|lia|]. rewrite Z.add_mod, Hc0, Z.mod_same by lia. reflexivity.
  - assert (Hq : 0 < V / 2 ^ s) by (pose proof (Z.div_pos V (2 ^ s) ltac:(lia) ltac:(lia)); lia). assert (V / 2 ^ s < 2 ^ s) by (apply Z.div_lt_upper_bound; lia). rewrite IH; [|lia|lia|done].
    rewrite <- Z.shiftr_div_pow2, Z.log2_shiftr by lia. assert (s <= Z.log2 V) by (apply (proj1 (Z.log2_le_pow2 V s ltac:(lia))); pose proof (Z.mul_div_le V (2 ^ s) ltac:(lia)); nia). lia.
Qed.

Lemma CountLeadingZeros_32_spec V : 0 < V < 2 ^ 32 -> CountLeadingZeros_32 V = 31 - Z.log2 V.
Proof.
  intros HV. unfold CountLeadingZeros_32. rewrite (proj2 (Z.eqb_neq V 0)) by lia. change [16; 8; 4; 2; 1] with (shifts 5).
  rewrite clz_loop_spec; [|change (2 ^ Z.of_nat 5) with 32; lia|lia|done]. change (2 ^ Z.of_nat 5) with 32. lia.
Qed.

Lemma Log2_32_Ceil_spec n : 0 < n < 2 ^ 32 -> Log2_32_Ceil n = Z.log2_up n.
Proof.
  intros Hn. unfold Log2_32_Ceil. rewrite (wrap_id 32 (n - 1)) by (unfold in_u; lia). destruct (Z.eq_dec n 1) as [->|Hne]; [reflexivity|].
  rewrite CountLeadingZeros_32_spec by lia. rewrite Z.log2_up_eqn by lia. assert (Z.log2 (n - 1) < 32) by (apply Z.log2_lt_pow2; lia). pose proof (Z.log2_nonneg (n - 1)).
  replace (Z.pred n) with (n - 1) by lia. rewrite wrap_id by (unfold in_u; lia). lia.
Qed.
