(* ===== verification/DenseTable.v ===== *)
(** * Dense hash maps: the tables

    The invariant of the tables and what [LookupBucketFor] finds in them: it always ends, at
    the bucket of the key or at the one where the key is to be put. *)

From Stdlib Require Import ZArith Lia Bool.
From stdpp Require Import base list gmap.
From S2P Require Import Prelude Probing DenseMap DenseProbing.

Local Open Scope Z_scope.

Section Table.
Context {K V : Type} `{info : DenseMapInfo K} `{laws : !DenseMapInfoLaws K} `{vinfo : ValueInfo V}.
Context (purge : bool).
#[local] Abbreviation table := (dmap K V).
#[local] Abbreviation bkts := (list (BucketT K V)).

(** ** Keys *)

Definition valid (key : K) : Prop := key <> getEmptyKey /\ key <> getTombstoneKey.

Lemma isEqual_false x y : isEqual x y = false <-> x <> y.
Proof. rewrite <- not_true_iff_false. by rewrite isEqual_spec. Qed.

Lemma is_empty_key_true k : is_empty_key k = true <-> k = getEmptyKey.
Proof. apply isEqual_spec. Qed.
Lemma is_empty_key_false k : is_empty_key k = false <-> k <> getEmptyKey.
Proof. apply isEqual_false. Qed.
Lemma is_tombstone_key_true k : is_tombstone_key k = true <-> k = getTombstoneKey.
Proof. apply isEqual_spec. Qed.
Lemma is_tombstone_key_false k : is_tombstone_key k = false <-> k <> getTombstoneKey.
Proof. apply isEqual_false. Qed.

Lemma has_value_valid (b : BucketT K V) : has_value b = true <-> valid (b_first b).
Proof. unfold has_value, valid. rewrite andb_true_iff, !negb_true_iff, is_empty_key_false, is_tombstone_key_false. done. Qed.

(** ** Counting *)

Definition countb (P : BucketT K V -> bool) (l : bkts) : Z := Z.of_nat (length (filter (fun b => P b = true) l)).

Lemma countb_cons P b l : countb P (b :: l) = (if P b then 1 else 0) + countb P l.
Proof. unfold countb. rewrite filter_cons. case_decide as Hb; [rewrite Hb; simpl; lia|apply not_true_is_false in Hb; rewrite Hb; simpl; lia]. Qed.

Lemma countb_insert P (l : bkts) i b b' : l !! i = Some b -> countb P (<[i := b']> l) = countb P l - (if P b then 1 else 0) + (if P b' then 1 else 0).
Proof.
  revert i. induction l as [|x l IH]; intros [|i]; simpl; try done.
  - intros [= ->]. rewrite !countb_cons. lia.
  - intros Hi. rewrite !countb_cons, (IH i Hi). lia.
Qed.

Lemma countb_nonneg P l : 0 <= countb P l.
Proof. unfold countb. lia. Qed.

Lemma countb_zero P l : (forall b, b ∈ l -> P b = false) -> countb P l = 0.
Proof. induction l as [|b l IH]; intros Hl; [done|]. rewrite countb_cons, (Hl b), IH; [done|set_solver|set_solver]. Qed.

Definition tombstoneb (b : BucketT K V) : bool := is_tombstone_key (b_first b).
Definition emptyb (b : BucketT K V) : bool := is_empty_key (b_first b).

(** Every bucket has a value or is a tombstone or is empty. *)
Lemma countb_total l : countb has_value l + countb tombstoneb l + countb emptyb l = Z.of_nat (length l).
Proof.
  induction l as [|b l IH]; [done|]. rewrite !countb_cons. simpl length. rewrite Nat2Z.inj_succ, <- IH. unfold has_value, tombstoneb, emptyb.
  destruct (is_empty_key (b_first b)) eqn:E1, (is_tombstone_key (b_first b)) eqn:E2; simpl; try lia.
  apply is_empty_key_true in E1. apply is_tombstone_key_true in E2. destruct empty_not_tombstone. congruence.
Qed.

Lemma countb_elem P l : 0 < countb P l -> exists i b, l !! i = Some b /\ P b = true.
Proof.
  induction l as [|b l IH]; [done|]. rewrite countb_cons. destruct (P b) eqn:E; [intros _; by exists 0%nat, b|]. intros Hc. destruct IH as (i & b' & ? & ?); [lia|]. by exists (S i), b'.
Qed.

(** ** The invariant *)

(** The search for [key] passes by the first [j] probes. *)
Definition passes (l : bkts) (k : Z) (key : K) (j : Z) : Prop :=
  forall j', 0 <= j' < j -> exists b, l !! Z.to_nat (nth_probe (getHashValue key) k j') = Some b /\ b_first b <> getEmptyKey /\ b_first b <> key.

(** It gets to index [i]. *)
Definition reaches (l : bkts) (k : Z) (key : K) (i : nat) : Prop :=
  exists j, 0 <= j < 2 ^ k /\ nth_probe (getHashValue key) k j = Z.of_nat i /\ passes l k key j.

Record wf (k : Z) (t : table) : Prop := {
  wf_k : 0 <= k <= 31;
  wf_len : Z.of_nat (length (Buckets t)) = 2 ^ k;
  wf_entries : NumEntries t = countb has_value (Buckets t);
  wf_tombs : NumTombstones t = countb tombstoneb (Buckets t);
  wf_room : NumEntries t + NumTombstones t < 2 ^ k;
  wf_value : forall i b, Buckets t !! i = Some b -> valid (b_first b) -> is_Some (b_second b);
  wf_reach : forall i b, Buckets t !! i = Some b -> valid (b_first b) -> reaches (Buckets t) k (b_first b) i;
}.

(** A bucket that a new key may take. *)
Definition free (b : BucketT K V) : Prop :=
  b_first b = getEmptyKey \/ b_first b = getTombstoneKey \/ (purge = true /\ second_is_zero b = true).

Definition absent (l : bkts) (key : K) : Prop := forall i b, l !! i = Some b -> b_first b <> key.

(** What [LookupBucketFor] returns. *)
Inductive looked_up (t : table) (k : Z) (key : K) : bool * option Z -> Prop :=
| lu_found i v : Buckets t !! i = Some (mk_bkt key (Some v)) -> looked_up t k key (true, Some (Z.of_nat i))
| lu_free i b : Buckets t !! i = Some b -> free b -> reaches (Buckets t) k key i -> absent (Buckets t) key -> looked_up t k key (false, Some (Z.of_nat i)).

Lemma probe_bucket k t key j : wf k t -> exists b, Buckets t !! Z.to_nat (nth_probe (getHashValue key) k j) = Some b.
Proof. intros Hwf. pose proof (nth_probe_range (getHashValue key) k j (proj1 (wf_k _ _ Hwf))). apply lookup_lt_is_Some. pose proof (wf_len _ _ Hwf). lia. Qed.

(** When the search for a key comes to an empty bucket the key is not there. *)
Lemma empty_absent k t key j b : wf k t -> valid key -> 0 <= j < 2 ^ k -> passes (Buckets t) k key j ->
  Buckets t !! Z.to_nat (nth_probe (getHashValue key) k j) = Some b -> b_first b = getEmptyKey -> absent (Buckets t) key.
Proof.
  intros Hwf Hv Hj Hp Hb He i b' Hi E. destruct (wf_reach _ _ Hwf i b' Hi) as (j' & Hj' & Hn & Hp'); [by rewrite E|]. rewrite E in Hn, Hp'.
  destruct (Z.lt_trichotomy j' j) as [Hlt|[->|Hgt]].
  - destruct (Hp j') as (b2 & Hb2 & _ & Hne); [lia|]. rewrite Hn, Nat2Z.id in Hb2. congruence.
  - rewrite Hn, Nat2Z.id in Hb. assert (b' = b) as -> by congruence. destruct Hv as [Hv _]. congruence.
  - destruct (Hp' j) as (b2 & Hb2 & Hne & _); [lia|]. congruence.
Qed.

(** The free bucket that the loop has remembered. *)
Definition remembered (l : bkts) (k : Z) (key : K) (j : Z) (ft : option Z) : Prop :=
  match ft with
  | None => True
  | Some i => exists j' b, 0 <= j' < j /\ i = nth_probe (getHashValue key) k j' /\ l !! Z.to_nat i = Some b /\ free b
  end.

Lemma remembered_mono l k key j j' ft : j <= j' -> remembered l k key j ft -> remembered l k key j' ft.
Proof. intros Hle. destruct ft as [i|]; [|done]. intros (j0 & b & Hj & Hr). exists j0, b. split; [lia|done]. Qed.

Lemma passes_mono l k key j j' : j' <= j -> passes l k key j -> passes l k key j'.
Proof. intros Hle Hp x Hx. apply Hp. lia. Qed.

Lemma passes_step l k key j b : 0 <= j -> passes l k key j -> l !! Z.to_nat (nth_probe (getHashValue key) k j) = Some b -> b_first b <> getEmptyKey -> b_first b <> key -> passes l k key (j + 1).
Proof. intros Hj Hp Hb H1 H2 x Hx. destruct (Z.eq_dec x j) as [->|Hne]; [by exists b|apply Hp; lia]. Qed.

(** A probe gives a place in the list. *)
Lemma nth_probe_nat h k j : 0 <= k -> nth_probe h k j = Z.of_nat (Z.to_nat (nth_probe h k j)).
Proof. intros Hk. pose proof (nth_probe_range h k j Hk). lia. Qed.

Lemma next_probe h k j : 0 <= k <= 31 -> 0 <= j < 2 ^ k ->
  Z.land (u32 (nth_probe h k j + (j + 1))) (u32 (2 ^ k - 1)) = nth_probe h k (j + 1).
Proof.
  intros Hk Hj. pose proof (nth_probe_range h k j ltac:(lia)). assert (2 ^ k <= 2 ^ 31) by (apply Z.pow_le_mono_r; lia).
  rewrite !wrap_id by (unfold in_u; lia). by rewrite land_pow2_mask, nth_probe_succ by lia.
Qed.

Lemma probe_loop_spec k t key fuel j ft : wf k t -> valid key -> 0 <= j -> passes (Buckets t) k key j -> remembered (Buckets t) k key j ft ->
  (exists e b, j <= e < 2 ^ k /\ Buckets t !! Z.to_nat (nth_probe (getHashValue key) k e) = Some b /\ b_first b = getEmptyKey) ->
  2 ^ k - j <= Z.of_nat fuel ->
  exists r, probe_loop purge fuel t key (nth_probe (getHashValue key) k j) (j + 1) ft = Ret r /\ looked_up t k key r.
Proof.
  intros Hwf Hv. revert j ft. induction fuel as [|fuel IH]; intros j ft Hj Hp Hr He Hf; [destruct He as (e & _ & ? & _); lia|].
  pose proof (wf_k _ _ Hwf) as Hk. pose proof (wf_len _ _ Hwf) as Hlen. simpl. unfold bucket. destruct (probe_bucket k t key j Hwf) as [b Hb]. rewrite Hb. simpl.
  destruct (isEqual key (b_first b)) eqn:E1.
  { apply isEqual_spec in E1. eexists. split; [done|]. rewrite (nth_probe_nat _ k j) by lia. destruct (wf_value _ _ Hwf _ b Hb) as [v Hv']; [by rewrite <- E1|].
    apply (lu_found _ _ _ _ v). rewrite Hb. destruct b; simpl in *; congruence. }
  apply isEqual_false in E1. destruct (is_empty_key (b_first b)) eqn:E2.
  { apply is_empty_key_true in E2. eexists. split; [done|]. assert (Hje : 0 <= j < 2 ^ k) by (destruct He as (e & _ & ? & _); lia). pose proof (empty_absent k t key j b Hwf Hv Hje Hp Hb E2) as Habs.
    destruct ft as [i|]; simpl.
    - destruct Hr as (j' & b' & Hj' & -> & Hb' & Hfr). rewrite (nth_probe_nat _ k j') by lia. apply (lu_free _ _ _ _ b'); [done|done| |done].
      exists j'. split_and!; [lia|lia|by rewrite <- (nth_probe_nat _ k j') by lia|]. apply (passes_mono _ _ _ j); [lia|done].
    - rewrite (nth_probe_nat _ k j) by lia. apply (lu_free _ _ _ _ b); [done|by left| |done]. exists j. split_and!; [lia|lia|by rewrite <- (nth_probe_nat _ k j) by lia|done]. }
  apply is_empty_key_false in E2. destruct He as (e & be & Hje & Hbe & Hee). assert (Hne : e <> j) by congruence.
  unfold getNumBuckets. rewrite Hlen, (proj2 (Z.ltb_ge _ _)) by lia. assert (2 ^ k <= 2 ^ 31) by (apply Z.pow_le_mono_r; lia).
  rewrite next_probe, (wrap_id 32 (j + 1 + 1)) by (unfold in_u; lia).
  apply IH; [lia|by apply (passes_step _ _ _ _ b)| |by exists e, be; split_and!; [lia|lia|done|done]|lia].
  assert (Hnew : free b -> remembered (Buckets t) k key (j + 1) (Some (nth_probe (getHashValue key) k j))).
  { intros Hfr. exists j, b. split_and!; [lia|lia|done|done|done]. }
  pose proof (remembered_mono _ k key j (j + 1) ft ltac:(lia) Hr) as Hold.
  destruct (is_tombstone_key (b_first b)) eqn:E3; simpl.
  - apply is_tombstone_key_true in E3. destruct ft as [i|]; simpl; rewrite andb_false_r; [done|]. apply Hnew. right; by left.
  - destruct (purge && second_is_zero b) eqn:E4; simpl; [|done]. apply andb_true_iff in E4. destruct ft as [i|]; simpl; [done|]. apply Hnew. right; by right.
Qed.

(** The search always ends. *)
Lemma LookupBucketFor_spec k t key : wf k t -> valid key -> exists r, LookupBucketFor purge key t = Ret r /\ looked_up t k key r.
Proof.
  intros Hwf Hv. pose proof (wf_k _ _ Hwf) as Hk. pose proof (wf_len _ _ Hwf) as Hlen. assert (0 < 2 ^ k <= 2 ^ 31) by (split; [apply Z.pow_pos_nonneg; lia|apply Z.pow_le_mono_r; lia]).
  unfold LookupBucketFor, getNumBuckets. rewrite Hlen, (proj2 (Z.eqb_neq _ _)) by lia. rewrite (proj2 (is_empty_key_false key)), (proj2 (is_tombstone_key_false key)) by apply Hv. simpl orb. cbv iota.
  assert (Hh : Z.land (getHashValue key) (u32 (2 ^ k - 1)) = nth_probe (getHashValue key) k 0).
  { rewrite wrap_id by (unfold in_u; lia). rewrite land_pow2_mask by lia. unfold nth_probe. by rewrite tri_0, Z.add_0_r. }
  rewrite Hh. apply (probe_loop_spec k t key _ 0 None); [done|done|lia|intros ? ?; lia|done| |lia].
  pose proof (countb_total (Buckets t)) as Htot. pose proof (wf_room _ _ Hwf). rewrite (wf_entries _ _ Hwf), (wf_tombs _ _ Hwf) in *.
  destruct (countb_elem emptyb (Buckets t)) as (i & b & Hi & Hb); [lia|]. apply is_empty_key_true in Hb. pose proof (lookup_lt_Some _ _ _ Hi).
  destruct (nth_probe_surj (getHashValue key) k (Z.of_nat i) ltac:(lia) ltac:(lia)) as (e & He & E). exists e, b. rewrite E, Nat2Z.id. done.
Qed.

(** ** A table without an empty bucket *)

Definition no_empty (l : bkts) : Prop := forall i b, l !! i = Some b -> b_first b <> getEmptyKey.

(** The probes of a missing key find nothing and end where the amount exceeds the size. *)
Lemma probe_loop_full k t key fuel no amt ft : 0 <= k <= 31 -> Z.of_nat (length (Buckets t)) = 2 ^ k ->
  no_empty (Buckets t) -> absent (Buckets t) key -> 0 <= no < 2 ^ k -> 1 <= amt <= 2 ^ k + 1 -> 2 ^ k + 2 - amt <= Z.of_nat fuel ->
  probe_loop purge fuel t key no amt ft = Fault.
Proof.
  intros Hk Hlen Hfull Habs. revert no amt ft. induction fuel as [|fuel IH]; intros no amt ft Hno Hamt Hf; [lia|].
  assert (0 < 2 ^ k <= 2 ^ 31) by (split; [apply Z.pow_pos_nonneg; lia|apply Z.pow_le_mono_r; lia]).
  cbn [probe_loop]. unfold bucket. destruct (lookup_lt_is_Some_2 (Buckets t) (Z.to_nat no)) as [b Hb]; [lia|]. rewrite Hb.
  cbn [of_option obind]. rewrite (proj2 (isEqual_false key (b_first b))) by (apply not_eq_sym; by eapply Habs).
  rewrite (proj2 (is_empty_key_false (b_first b))) by (by eapply Hfull). unfold getNumBuckets. rewrite Hlen.
  destruct (2 ^ k <? amt) eqn:E; zbool; [done|]. rewrite (wrap_id 32 (amt + 1)), (wrap_id 32 (2 ^ k - 1)) by (unfold in_u; lia).
  rewrite land_pow2_mask by lia. apply IH; [apply Z.mod_pos_bound; lia|lia|lia].
Qed.

Lemma LookupBucketFor_full k t key : 0 <= k <= 31 -> Z.of_nat (length (Buckets t)) = 2 ^ k -> no_empty (Buckets t) ->
  absent (Buckets t) key -> LookupBucketFor purge key t = Fault.
Proof.
  intros Hk Hlen Hfull Habs. assert (0 < 2 ^ k <= 2 ^ 31) by (split; [apply Z.pow_pos_nonneg; lia|apply Z.pow_le_mono_r; lia]).
  unfold LookupBucketFor, getNumBuckets. rewrite Hlen. destruct (2 ^ k =? 0) eqn:E; zbool; [lia|].
  destruct (_ || _); [done|]. apply (probe_loop_full k); [done..| |lia|lia].
  rewrite wrap_id by (unfold in_u; lia). rewrite land_pow2_mask by lia. apply Z.mod_pos_bound. lia.
Qed.

End Table.
