(* ===== verification/DenseUpdates.v ===== *)
(** * Dense hash maps: changing one bucket, and rehashing

    Putting a key into the bucket that a search has found, leaving a tombstone and moving all
    entries to a new array keep the invariant; [DerivedLaws] is what [DenseMapBase] needs of
    the class that derives from it, and [DenseMap] provides it. *)

From Stdlib Require Import ZArith Lia Bool.
From stdpp Require Import base list gmap.
From S2P Require Import Prelude Probing DenseMap DenseProbing PowersOfTwo DenseTable.

Local Open Scope Z_scope.

Section Updates.
Context {K V : Type} `{info : DenseMapInfo K} `{laws : !DenseMapInfoLaws K} `{vinfo : ValueInfo V} {heap : Heap K V}.
Context (purge : bool).
#[local] Abbreviation table := (dmap K V).
#[local] Abbreviation bkts := (list (BucketT K V)).

(** The entries of a table. *)
Definition holds (l : bkts) (key : K) (v : V) : Prop := valid key /\ exists i, l !! i = Some (mk_bkt key (Some v)).

Lemma wf_unique k (t : table) i j b b' : wf k t -> Buckets t !! i = Some b -> Buckets t !! j = Some b' -> valid (b_first b) -> b_first b = b_first b' -> i = j.
Proof.
  intros Hwf Hi Hj Hv E. destruct (wf_reach _ _ Hwf i b Hi Hv) as (x & Hx & Hnx & Hpx). destruct (wf_reach _ _ Hwf j b' Hj) as (y & Hy & Hny & Hpy); [by rewrite <- E|]. rewrite <- E in *.
  destruct (Z.lt_trichotomy x y) as [Hlt|[->|Hgt]].
  - destruct (Hpy x) as (c & Hc & _ & Hne); [lia|]. rewrite Hnx, Nat2Z.id in Hc. congruence.
  - lia.
  - destruct (Hpx y) as (c & Hc & _ & Hne); [lia|]. rewrite Hny, Nat2Z.id in Hc. congruence.
Qed.

(** A bucket that gets another key, which is not there yet, or a tombstone: the paths of the
    other keys stay. *)
Lemma passes_insert l k key j i (b : BucketT K V) : passes l k key j -> b_first b <> getEmptyKey -> b_first b <> key -> passes (<[i := b]> l) k key j.
Proof.
  intros Hp H1 H2 x Hx. destruct (Hp x Hx) as (c & Hc & Hc1 & Hc2). destruct (decide (i = Z.to_nat (nth_probe (getHashValue key) k x))) as [->|Hne].
  - exists b. split; [apply list_lookup_insert_eq; by eapply lookup_lt_Some|done].
  - exists c. by rewrite list_lookup_insert_ne.
Qed.

Lemma reaches_insert l k key n i (b : BucketT K V) : reaches l k key n -> b_first b <> getEmptyKey -> b_first b <> key -> reaches (<[i := b]> l) k key n.
Proof. intros (j & Hj & Hn & Hp) H1 H2. exists j. split_and!; [lia|lia|done|by apply passes_insert]. Qed.

(** The bucket itself does not lie on the way to it. *)
Lemma reaches_here l k key i (b : BucketT K V) : 0 <= k -> reaches l k key i -> reaches (<[i := b]> l) k key i.
Proof.
  intros Hk (j & Hj & Hn & Hp). exists j. split_and!; [lia|lia|done|]. intros x Hx. destruct (Hp x Hx) as (c & Hc & Hc1). exists c. rewrite list_lookup_insert_ne; [done|].
  intros E. pose proof (nth_probe_range (getHashValue key) k x Hk). assert (nth_probe (getHashValue key) k x = nth_probe (getHashValue key) k j) as E' by lia.
  apply nth_probe_inj in E'; lia.
Qed.

(** ** Putting a key into its bucket *)

(** The counters after that. *)
Definition entered (b : BucketT K V) (t : table) : table :=
  if is_empty_key (b_first b) then setNumEntries (NumEntries t + 1) t
  else if is_tombstone_key (b_first b) then setNumTombstones (NumTombstones t - 1) (setNumEntries (NumEntries t + 1) t)
  else t.

Lemma entered_buckets b t : Buckets (entered b t) = Buckets t.
Proof. unfold entered. by destruct (is_empty_key (b_first b)), (is_tombstone_key (b_first b)). Qed.

Lemma entered_counts b t k : wf k t -> NumEntries t + NumTombstones t + 1 < 2 ^ k ->
  NumEntries (entered b t) = NumEntries t + 1 - (if has_value b then 1 else 0) /\
  (0 < NumTombstones t \/ b_first b <> getTombstoneKey -> NumTombstones (entered b t) = NumTombstones t - (if tombstoneb b then 1 else 0)).
Proof.
  intros Hwf Hroom. pose proof (wf_k _ _ Hwf). assert (2 ^ k <= 2 ^ 31) by (apply Z.pow_le_mono_r; lia). pose proof (countb_nonneg has_value (Buckets t)). pose proof (countb_nonneg tombstoneb (Buckets t)).
  pose proof (wf_entries _ _ Hwf). pose proof (wf_tombs _ _ Hwf). unfold entered, has_value, tombstoneb.
  destruct (is_empty_key (b_first b)) eqn:E1; [|destruct (is_tombstone_key (b_first b)) eqn:E2]; simpl.
  - apply is_empty_key_true in E1. rewrite wrap_id by (unfold in_u; lia). split; [lia|]. intros _. rewrite (proj2 (is_tombstone_key_false _)); [lia|]. rewrite E1. apply empty_not_tombstone.
  - rewrite wrap_id by (unfold in_u; lia). split; [lia|]. apply is_tombstone_key_true in E2. intros [?|?]; [|done]. rewrite wrap_id by (unfold in_u; lia). lia.
  - split; lia.
Qed.

Lemma enter_wf k t key v i b : wf k t -> valid key -> Buckets t !! i = Some b -> reaches (Buckets t) k key i -> absent (Buckets t) key ->
  NumEntries t + NumTombstones t + 1 < 2 ^ k -> wf k (put_bucket (Z.of_nat i) (mk_bkt key (Some v)) (entered b t)).
Proof.
  intros Hwf Hv Hi Hr Habs Hroom. pose proof (wf_k _ _ Hwf) as Hk. destruct (entered_counts b t k Hwf Hroom) as [HE HT].
  assert (Htomb : 0 < NumTombstones t \/ b_first b <> getTombstoneKey).
  { destruct (tombstoneb b) eqn:E; [left|right; by apply is_tombstone_key_false]. rewrite (wf_tombs _ _ Hwf). pose proof (countb_insert tombstoneb _ i b (mk_bkt getEmptyKey None) Hi) as Hc. rewrite E in Hc.
    unfold tombstoneb in Hc at 3. simpl in Hc. rewrite (proj2 (is_tombstone_key_false _)) in Hc by apply empty_not_tombstone. pose proof (countb_nonneg tombstoneb (<[i := mk_bkt getEmptyKey None]> (Buckets t))). lia. }
  specialize (HT Htomb). set (b' := mk_bkt key (Some v)).
  assert (Hb' : has_value b' = true) by (by apply has_value_valid). assert (Ht' : tombstoneb b' = false) by (apply is_tombstone_key_false, Hv).
  assert (HB : Buckets (put_bucket (Z.of_nat i) b' (entered b t)) = <[i := b']> (Buckets t)) by (simpl; by rewrite Nat2Z.id, entered_buckets).
  assert (HEc : NumEntries (put_bucket (Z.of_nat i) b' (entered b t)) = countb has_value (<[i := b']> (Buckets t))) by (simpl; rewrite (countb_insert _ _ _ b b' Hi), Hb', HE, (wf_entries _ _ Hwf); lia).
  assert (HTc : NumTombstones (put_bucket (Z.of_nat i) b' (entered b t)) = countb tombstoneb (<[i := b']> (Buckets t))) by (simpl; rewrite (countb_insert _ _ _ b b' Hi), Ht', HT, (wf_tombs _ _ Hwf); lia).
  split; rewrite ?HB; [done|by rewrite length_insert, (wf_len _ _ Hwf)|done|done| | |].
  - simpl. rewrite HE, HT. destruct (has_value b), (tombstoneb b); lia.
  - intros x c Hx Hc. apply list_lookup_insert_Some in Hx as [(_ & <- & _)|(_ & Hx)]; [by exists v|by apply (wf_value _ _ Hwf x)].
  - intros x c Hx Hc. apply list_lookup_insert_Some in Hx as [(<- & <- & _)|(Hne & Hx)]; [by apply reaches_here; [lia|]|].
    apply reaches_insert; [by apply (wf_reach _ _ Hwf)|apply Hv|]. simpl. intros E. by apply (Habs x c Hx).
Qed.

Lemma enter_holds k t key v i b : wf k t -> valid key -> Buckets t !! i = Some b -> forall key' v',
  holds (<[i := mk_bkt key (Some v)]> (Buckets t)) key' v' <-> (key' = key /\ v' = v) \/ (holds (Buckets t) key' v' /\ key' <> b_first b).
Proof.
  intros Hwf Hv Hi key' v'. split.
  - intros (Hv' & j & Hj). apply list_lookup_insert_Some in Hj as [(-> & [= -> ->] & _)|(Hne & Hj)]; [by left|right]. split; [split; [done|by exists j]|].
    intros E. apply Hne. by apply (wf_unique k t i j b (mk_bkt key' (Some v'))); [..|by rewrite <- E|].
  - intros [[-> ->]|[(Hv' & j & Hj) Hne]].
    + split; [done|]. exists i. apply list_lookup_insert_eq. by eapply lookup_lt_Some.
    + split; [done|]. exists j. rewrite list_lookup_insert_ne; [done|]. intros ->. rewrite Hi in Hj. by injection Hj as ->.
Qed.

(** ** Leaving a tombstone *)

Definition buried (i : nat) (t : table) : table :=
  setNumTombstones (NumTombstones t + 1) (setNumEntries (NumEntries t - 1) (put_bucket (Z.of_nat i) (mk_bkt getTombstoneKey None) t)).

Lemma tombstone_not_valid : ~ valid (getTombstoneKey : K).
Proof. intros [_ H]. by apply H. Qed.

Lemma empty_not_valid : ~ valid (getEmptyKey : K).
Proof. intros [H _]. by apply H. Qed.

Lemma bury_spec k t i b : wf k t -> Buckets t !! i = Some b -> valid (b_first b) ->
  wf k (buried i t) /\ NumEntries (buried i t) = NumEntries t - 1 /\ NumTombstones (buried i t) = NumTombstones t + 1 /\
  forall key v, holds (Buckets (buried i t)) key v <-> holds (Buckets t) key v /\ key <> b_first b.
Proof.
  intros Hwf Hi Hv. pose proof (wf_k _ _ Hwf) as Hk. assert (2 ^ k <= 2 ^ 31) by (apply Z.pow_le_mono_r; lia). set (b' := mk_bkt (V := V) getTombstoneKey None).
  assert (Hvb : has_value b = true) by (by apply has_value_valid). assert (Htb : tombstoneb b = false) by (apply is_tombstone_key_false, Hv).
  assert (Hvb' : has_value b' = false) by (apply not_true_is_false; rewrite has_value_valid; apply tombstone_not_valid). assert (Htb' : tombstoneb b' = true) by (by apply is_tombstone_key_true).
  pose proof (countb_insert has_value _ i b b' Hi) as HcE. pose proof (countb_insert tombstoneb _ i b b' Hi) as HcT. rewrite Hvb, Hvb' in HcE. rewrite Htb, Htb' in HcT.
  pose proof (countb_nonneg has_value (<[i := b']> (Buckets t))). pose proof (countb_nonneg tombstoneb (Buckets t)). pose proof (wf_room _ _ Hwf). pose proof (wf_entries _ _ Hwf). pose proof (wf_tombs _ _ Hwf).
  assert (HB : Buckets (buried i t) = <[i := b']> (Buckets t)) by (simpl; by rewrite Nat2Z.id).
  assert (HE : NumEntries (buried i t) = NumEntries t - 1) by (simpl; rewrite wrap_id by (unfold in_u; lia); lia).
  assert (HT : NumTombstones (buried i t) = NumTombstones t + 1) by (simpl; rewrite wrap_id by (unfold in_u; lia); lia).
  split; [|split_and!; [done|done|]]; rewrite ?HB.
  - split; rewrite ?HB, ?HE, ?HT; [done|by rewrite length_insert, (wf_len _ _ Hwf)|lia|lia|lia| |].
    + intros x c Hx Hc. apply list_lookup_insert_Some in Hx as [(_ & <- & _)|(_ & Hx)]; [by apply tombstone_not_valid in Hc|by apply (wf_value _ _ Hwf x)].
    + intros x c Hx Hc. apply list_lookup_insert_Some in Hx as [(_ & <- & _)|(_ & Hx)]; [by apply tombstone_not_valid in Hc|].
      apply reaches_insert; [by apply (wf_reach _ _ Hwf)|simpl; intros E; by apply empty_not_tombstone|simpl; intros E; apply Hc; by rewrite <- E].
  - intros key v. split.
    + intros (Hk' & j & Hj). apply list_lookup_insert_Some in Hj as [(_ & [=] & _)|(Hne & Hj)]. split; [split; [done|by exists j]|].
      intros E. apply Hne. by apply (wf_unique k t i j b (mk_bkt key (Some v))).
    + intros [(Hk' & j & Hj) Hne]. split; [done|]. exists j. rewrite list_lookup_insert_ne; [done|]. intros ->. rewrite Hi in Hj. by injection Hj as ->.
Qed.

(** Storing through an iterator. *)
Lemma set_second_spec k t i b v : wf k t -> Buckets t !! i = Some b -> valid (b_first b) ->
  let t' := put_bucket (Z.of_nat i) (mk_bkt (b_first b) (Some v)) t in
  wf k t' /\ forall key v', holds (Buckets t') key v' <-> (key = b_first b /\ v' = v) \/ (holds (Buckets t) key v' /\ key <> b_first b).
Proof.
  intros Hwf Hi Hv t'. assert (HB : Buckets t' = <[i := mk_bkt (b_first b) (Some v)]> (Buckets t)) by (simpl; by rewrite Nat2Z.id). rewrite HB.
  split; [|by apply (enter_holds k t (b_first b) v i b)].
  assert (Hcnt : forall P, P (mk_bkt (b_first b) (Some v)) = P b -> countb P (<[i := mk_bkt (b_first b) (Some v)]> (Buckets t)) = countb P (Buckets t)) by (intros P HP; rewrite (countb_insert P _ i b _ Hi), HP; lia).
  destruct Hwf as [Hk Hl HE HT Hr Hval Hreach]. split; rewrite ?HB; [done|by rewrite length_insert|simpl; by rewrite Hcnt|simpl; by rewrite Hcnt|done| |].
  - intros x c Hx Hc. apply list_lookup_insert_Some in Hx as [(_ & <- & _)|(_ & Hx)]; [by exists v|by apply (Hval x)].
  - assert (Hkeep : forall key n, reaches (Buckets t) k key n -> reaches (<[i := mk_bkt (b_first b) (Some v)]> (Buckets t)) k key n).
    { intros key n (j & Hj & Hn & Hp). exists j. split_and!; [lia|lia|done|]. intros x Hx. destruct (Hp x Hx) as (c & Hc & H1 & H2).
      destruct (decide (i = Z.to_nat (nth_probe (getHashValue key) k x))) as [->|Hne]; [|exists c; by rewrite list_lookup_insert_ne].
      assert (c = b) as -> by congruence. eexists. by rewrite list_lookup_insert_eq by (by eapply lookup_lt_Some). }
    intros x c Hx Hc. apply Hkeep. apply list_lookup_insert_Some in Hx as [(<- & <- & _)|(_ & Hx)]; [by apply (Hreach i b)|by apply Hreach].
Qed.

(** ** An empty array *)

Definition blank (k : Z) (t : table) : Prop :=
  wf k t /\ NumEntries t = 0 /\ NumTombstones t = 0 /\ forall key v, ~ holds (Buckets t) key v.

Lemma all_empty_blank k t : 0 <= k <= 31 -> Z.of_nat (length (Buckets t)) = 2 ^ k -> NumEntries t = 0 -> NumTombstones t = 0 ->
  (forall i b, Buckets t !! i = Some b -> b_first b = getEmptyKey) -> blank k t.
Proof.
  intros Hk Hlen HE HT Hall. assert (0 < 2 ^ k) by (apply Z.pow_pos_nonneg; lia).
  assert (Hz : forall P, (forall b, b_first b = getEmptyKey -> P b = false) -> countb P (Buckets t) = 0).
  { intros P HP. apply countb_zero. intros b Hb. apply list_elem_of_lookup in Hb as [i Hb]. by apply HP, (Hall i). }
  split; [|split_and!; [done|done|]].
  - split; [done|done|rewrite Hz; [done|]|rewrite Hz; [done|]|lia| |].
    + intros b Hb. apply not_true_is_false. rewrite has_value_valid, Hb. apply empty_not_valid.
    + intros b Hb. apply is_tombstone_key_false. rewrite Hb. apply empty_not_tombstone.
    + intros i b Hb Hv. rewrite (Hall i b Hb) in Hv. by apply empty_not_valid in Hv.
    + intros i b Hb Hv. rewrite (Hall i b Hb) in Hv. by apply empty_not_valid in Hv.
  - intros key v (Hv & i & Hi). apply Hall in Hi. simpl in Hi. subst key. by apply empty_not_valid in Hv.
Qed.

Lemma initEmpty_spec k t : 0 <= k <= 31 -> Z.of_nat (length (Buckets t)) = 2 ^ k -> exists t', initEmpty t = Ret t' /\ blank k t' /\ Small t' = Small t.
Proof.
  intros Hk Hlen. assert (0 < 2 ^ k <= 2 ^ 31) by (split; [apply Z.pow_pos_nonneg; lia|apply Z.pow_le_mono_r; lia]). unfold initEmpty, getNumBuckets. simpl. rewrite Hlen.
  rewrite (wrap_id 32 (2 ^ k - 1)) by (unfold in_u; lia). rewrite land_pow2_mask, Z.mod_same by lia. simpl. eexists. split; [done|]. split; [|done].
  apply all_empty_blank; simpl; [done|by rewrite length_map|done|done|]. intros i b Hb. by apply list_lookup_fmap_Some in Hb as (c & -> & _).
Qed.

(** ** Moving to a new array *)

(** A zero need not be kept. *)
Definition keeps (v : V) : bool := negb (purge && is_zero v).

(** The entries that are moved: each has a value and a key of its own. *)
Record movable (old : bkts) : Prop := {
  mv_value : forall i b, old !! i = Some b -> valid (b_first b) -> is_Some (b_second b);
  mv_unique : forall i j b b', old !! i = Some b -> old !! j = Some b' -> valid (b_first b) -> b_first b = b_first b' -> i = j;
}.

Lemma movable_cons b old : movable (b :: old) -> movable old.
Proof.
  intros [H1 H2]. split.
  - intros i c Hc. by apply (H1 (S i)).
  - intros i j c c' Hc Hc' Hv E. by injection (H2 (S i) (S j) c c' Hc Hc' Hv E).
Qed.

Lemma wf_movable k t : wf k t -> movable (Buckets t).
Proof. intros Hwf. split; [apply Hwf|]. intros i j b b' Hi Hj Hv E. by apply (wf_unique k t i j b b'). Qed.

(** The table that entries are moved to: no tombstones, no zeros. *)
Record filling (k : Z) (t : table) : Prop := {
  fl_wf : wf k t;
  fl_tombs : NumTombstones t = 0;
  fl_kept : forall key v, holds (Buckets t) key v -> keeps v = true;
}.

Lemma countb_none P (l : bkts) i b : countb P l = 0 -> l !! i = Some b -> P b = false.
Proof.
  intros Hz Hi. destruct (P b) eqn:E; [|done]. pose proof (countb_insert P l i b b Hi) as Hc. revert i Hi Hc. induction l as [|x l IH]; intros [|i] Hi _; try done; simpl in Hi; rewrite countb_cons in Hz; pose proof (countb_nonneg P l).
  - injection Hi as ->. rewrite E in Hz. lia.
  - destruct (P x); [lia|]. apply (IH ltac:(lia) i Hi). by apply countb_insert.
Qed.

(** There the free bucket of a key is an empty one. *)
Lemma filling_free k t i b : filling k t -> Buckets t !! i = Some b -> free purge b -> b_first b = getEmptyKey.
Proof.
  intros [Hwf Ht Hkept] Hi Hfree. rewrite (wf_tombs _ _ Hwf) in Ht. pose proof (countb_none _ _ i b Ht Hi) as Hnt. apply is_tombstone_key_false in Hnt.
  destruct Hfree as [?|[?|[Hp Hz]]]; [done|done|]. destruct (is_empty_key (b_first b)) eqn:E1; [by apply is_empty_key_true|apply is_empty_key_false in E1; exfalso].
  unfold second_is_zero in Hz. destruct (b_second b) as [v|] eqn:E; [|done]. assert (Hh : holds (Buckets t) (b_first b) v) by (split; [done|]; exists i; rewrite Hi; f_equal; destruct b; simpl in *; congruence).
  apply Hkept in Hh. unfold keeps in Hh. by rewrite Hp, Hz in Hh.
Qed.

(** Moving one entry. *)
Lemma move_one k t key v : filling k t -> valid key -> keeps v = true -> absent (Buckets t) key -> NumEntries t + 1 < 2 ^ k ->
  exists i, LookupBucketFor purge key t = Ret (false, Some (Z.of_nat i)) /\
    let t' := setNumEntries (NumEntries t + 1) (put_bucket (Z.of_nat i) (mk_bkt key (Some v)) t) in
    filling k t' /\ NumEntries t' = NumEntries t + 1 /\ forall key' v', holds (Buckets t') key' v' <-> holds (Buckets t) key' v' \/ (key' = key /\ v' = v).
Proof.
  intros Hfl Hv Hkeep Habs Hroom. pose proof (fl_wf _ _ Hfl) as Hwf. destruct (LookupBucketFor_spec purge k t key Hwf Hv) as (r & Hr & Hlu).
  destruct Hlu as [i w Hi|i b Hi Hfree Hreach _]; [by destruct (Habs i _ Hi)|]. exists i. split; [done|].
  pose proof (filling_free k t i b Hfl Hi Hfree) as He. pose proof (fl_tombs _ _ Hfl) as Ht. pose proof (enter_wf k t key v i b Hwf Hv Hi Hreach Habs ltac:(lia)) as Hwf'.
  pose proof (enter_holds k t key v i b Hwf Hv Hi) as Hh.
  unfold entered in Hwf'. rewrite (proj2 (is_empty_key_true _) He) in Hwf'. set (t' := put_bucket _ _ _) in Hwf'. change (setNumEntries _ _) with t'. intros t''. subst t''.
  assert (HB : Buckets t' = <[i := mk_bkt key (Some v)]> (Buckets t)) by (simpl; by rewrite Nat2Z.id).
  assert (Hh' : forall key' v', holds (Buckets t') key' v' <-> holds (Buckets t) key' v' \/ (key' = key /\ v' = v)).
  { intros key' v'. rewrite HB, Hh, He. split; [intros [?|[? _]]; [by right|by left]|]. intros [Hold|?]; [right|by left]. split; [done|]. apply Hold. }
  split_and!; [|simpl|done].
  - split; [done|done|]. intros key' v' Hk'. apply Hh' in Hk' as [Hk'|[-> ->]]; [by apply (fl_kept _ _ Hfl key')|done].
  - pose proof (wf_k _ _ Hwf). assert (2 ^ k <= 2 ^ 31) by (apply Z.pow_le_mono_r; lia). pose proof (countb_nonneg has_value (Buckets t)). pose proof (wf_entries _ _ Hwf). rewrite wrap_id by (unfold in_u; lia). done.
Qed.

Lemma holds_cons (b : BucketT K V) l key v : holds (b :: l) key v <-> (valid key /\ b = mk_bkt key (Some v)) \/ holds l key v.
Proof.
  split.
  - intros (Hv & [|i] & Hi); [left|right]; simpl in Hi; [split; congruence|split; [done|by exists i]].
  - intros [[Hv ->]|(Hv & i & Hi)]; (split; [done|]); [by exists 0%nat|by exists (S i)].
Qed.

Lemma move_loop_spec k old t : filling k t -> movable old -> (forall i b, old !! i = Some b -> valid (b_first b) -> absent (Buckets t) (b_first b)) ->
  NumEntries t + countb has_value old < 2 ^ k ->
  exists t', move_loop purge old t = Ret t' /\ filling k t' /\ NumEntries t' <= NumEntries t + countb has_value old /\
    forall key v, holds (Buckets t') key v <-> holds (Buckets t) key v \/ (holds old key v /\ keeps v = true).
Proof.
  revert t. induction old as [|b old IH]; intros t Hfl Hmv Habs Hroom.
  { exists t. split_and!; [done|done|unfold countb; simpl; lia|]. intros key v. split; [by left|]. intros [?|[(_ & i & Hi) _]]; [done|]. by rewrite lookup_nil in Hi. }
  pose proof (movable_cons _ _ Hmv) as Hmv'. rewrite countb_cons in Hroom. pose proof (countb_nonneg has_value old). simpl.
  assert (Hrest : forall i c, old !! i = Some c -> valid (b_first c) -> absent (Buckets t) (b_first c)) by (intros i c Hc; by apply (Habs (S i))).
  destruct (has_value b && negb (purge && second_is_zero b)) eqn:E.
  - apply andb_true_iff in E as [Hv Hz]. rewrite Hv in Hroom. rewrite countb_cons, Hv. apply has_value_valid in Hv. destruct (mv_value _ Hmv 0%nat b eq_refl Hv) as [v Hbv].
    assert (Hkeep : keeps v = true) by (unfold keeps, second_is_zero in *; by rewrite Hbv in Hz).
    destruct (move_one k t (b_first b) v Hfl Hv Hkeep (Habs 0%nat b eq_refl Hv) ltac:(lia)) as (i & Hl & Hfl' & HE & Hh). rewrite Hl, Hbv. simpl obind. cbv iota beta.
    set (t1 := setNumEntries _ _) in *. destruct (IH t1 Hfl' Hmv') as (t' & Hm & Hfl2 & Hn & Hh').
    { intros j c Hc Hvc n d Hd Hkd. destruct (wf_value _ _ (fl_wf _ _ Hfl') n d Hd) as [w Hw]; [by rewrite Hkd|].
      assert (Hhd : holds (Buckets t1) (b_first c) w) by (split; [done|]; exists n; rewrite Hd; f_equal; destruct d; simpl in *; congruence).
      apply Hh in Hhd as [(_ & x & Hx)|[Hx _]]; [by apply (Hrest j c Hc Hvc x _ Hx)|]. by discriminate (mv_unique _ Hmv (S j) 0%nat c b Hc eq_refl Hvc Hx). }
    { lia. }
    exists t'. split_and!; [done|done|lia|]. intros key w. rewrite Hh', Hh, holds_cons. split.
    + intros [[?|[-> ->]]|[? ?]]; [by left|right|right; by split; [right|]]. split; [left|done]. split; [done|]. destruct b; simpl in *; congruence.
    + intros [?|[[[? ->]|?] ?]]; [left; by left|left; right|by right]. simpl in *. split; congruence.
  - destruct (IH t Hfl Hmv' Hrest) as (t' & Hm & Hfl2 & Hn & Hh'); [destruct (has_value b); lia|]. exists t'. rewrite countb_cons. split_and!; [done|done|destruct (has_value b); lia|].
    intros key w. rewrite Hh', holds_cons. split; [intros [?|[? ?]]; [by left|right; by split; [right|]]|]. intros [?|[[[Hv ->]|?] Hk]]; [by left| |by right].
    exfalso. unfold keeps in Hk. rewrite (proj2 (has_value_valid (mk_bkt key (Some w))) Hv) in E. simpl in E. unfold second_is_zero in E. simpl in E. by rewrite Hk in E.
Qed.

(** A table without entries. *)
Lemma blank_filling k t : blank k t -> filling k t.
Proof. intros (Hwf & _ & HT & Hno). split; [done|done|]. intros key v Hh. by apply Hno in Hh. Qed.

Lemma blank_absent k t key : blank k t -> valid key -> absent (Buckets t) key.
Proof.
  intros (Hwf & HE & _) Hv i b Hi E. rewrite (wf_entries _ _ Hwf) in HE. pose proof (countb_none _ _ i b HE Hi) as Hb.
  rewrite <- E in Hv. apply has_value_valid in Hv. congruence.
Qed.

Lemma moveFromOldBuckets_spec k old t : 0 <= k <= 31 -> Z.of_nat (length (Buckets t)) = 2 ^ k -> movable old -> countb has_value old < 2 ^ k ->
  exists t', moveFromOldBuckets purge old t = Ret t' /\ wf k t' /\ NumTombstones t' = 0 /\ NumEntries t' <= countb has_value old /\
    forall key v, holds (Buckets t') key v <-> holds old key v /\ keeps v = true.
Proof.
  intros Hk Hlen Hmv Hroom. destruct (initEmpty_spec k t Hk Hlen) as (t0 & Hi & Hbl & _). pose proof (blank_filling _ _ Hbl) as Hfl. destruct Hbl as (Hwf0 & HE0 & HT0 & Hno).
  destruct (move_loop_spec k old t0 Hfl Hmv) as (t' & Hm & Hfl' & Hn & Hh).
  { intros i b _ Hv. apply (blank_absent k); [|done]. done. }
  { lia. }
  exists t'. unfold moveFromOldBuckets. rewrite Hi. simpl. split_and!; [done|apply Hfl'|apply Hfl'|lia|]. intros key v. rewrite Hh. split; [|by right]. intros [Hx|?]; [by apply Hno in Hx|done].
Qed.

(** ** The interface of the derived classes *)

(** No array at all, or a table. *)
Definition ok (t : table) : Prop := (Buckets t = [] /\ NumEntries t = 0 /\ NumTombstones t = 0) \/ exists k, wf k t.

(** [t'] holds what [t] holds, but for zeros that need not be kept. *)
Definition purges (l l' : bkts) : Prop := forall key v, (holds l' key v -> holds l key v) /\ (holds l key v -> keeps v = true -> holds l' key v).

(** The size of the array that [grow] makes. *)
Definition grown (n k : Z) : Prop := 2 <= k <= 31 /\ Z.max MIN_BUCKETS (NextPowerOf2 n) = 2 ^ k.

Class DerivedLaws (d : Derived (K := K) (V := V)) : Prop := {
  grow_law t n k : ok t -> grown n k -> NumEntries t < 2 ^ k ->
    exists t', @grow K V d n t = Ret t' /\ wf k t' /\ NumTombstones t' = 0 /\ NumEntries t' <= NumEntries t /\ purges (Buckets t) (Buckets t');
  shrink_law t : ok t -> NumEntries t < 2 ^ 29 ->
    exists t', @shrink_and_clear K V d t = Ret t' /\ ok t' /\ NumEntries t' = 0 /\ NumTombstones t' = 0 /\ (forall key v, ~ holds (Buckets t') key v) /\
      getNumBuckets t' <= Z.max 4 (4 * NumEntries t);
}.

Lemma grown_size n : 0 <= n < 2 ^ 31 -> exists k, grown n k /\ n < 2 ^ k <= Z.max 4 (2 * n).
Proof.
  intros Hn. destruct (Z.eq_dec n 0) as [->|Hne]; [by exists 2|]. destruct (NextPowerOf2_next n ltac:(lia)) as (k & Hk & E & Hlt & Hle). destruct (Z.lt_ge_cases k 2).
  - assert (k = 1) as -> by lia. exists 2. unfold grown. rewrite E. change (2 ^ 1) with 2 in *. split; [split; [lia|done]|]. lia.
  - assert (2 ^ 2 <= 2 ^ k) by (apply Z.pow_le_mono_r; lia). exists k. unfold grown, MIN_BUCKETS. rewrite E. split; [split; lia|]. lia.
Qed.

Lemma DenseMap_grow_spec t n k : ok t -> grown n k -> NumEntries t < 2 ^ k ->
  exists t', DenseMap_grow purge n t = Ret t' /\ wf k t' /\ NumTombstones t' = 0 /\ NumEntries t' <= NumEntries t /\ purges (Buckets t) (Buckets t').
Proof.
  intros Hok [Hk E] Hroom. unfold DenseMap_grow. rewrite E. set (t0 := DenseMap_allocateBuckets (2 ^ k) t).
  assert (Hlen : Z.of_nat (length (Buckets t0)) = 2 ^ k) by (simpl; rewrite length_new_buckets, Z2Nat.id; [done|apply Z.pow_nonneg; lia]).
  destruct Hok as [(HB & HE & HT)|(k0 & Hwf)].
  - rewrite HB. destruct (initEmpty_spec k t0 ltac:(lia) Hlen) as (t' & Hi & (Hwf & HE' & HT' & Hno) & _). exists t'. split_and!; [done|done|done|lia|].
    intros key v. split; [intros Hx; by apply Hno in Hx|]. intros (_ & i & Hi') _. by rewrite lookup_nil in Hi'.
  - destruct (moveFromOldBuckets_spec k (Buckets t) t0 ltac:(lia) Hlen (wf_movable _ _ Hwf)) as (t' & Hm & Hwf' & HT' & HE' & Hh); [by rewrite <- (wf_entries _ _ Hwf)|].
    exists t'. rewrite <- (wf_entries _ _ Hwf) in HE'. split_and!; [|done|done|done|].
    + destruct (Buckets t) eqn:EB; [|done]. pose proof (wf_len _ _ Hwf) as Hl. rewrite EB in Hl. simpl in Hl. pose proof (Z.pow_pos_nonneg 2 k0 ltac:(lia) (proj1 (wf_k _ _ Hwf))). lia.
    + intros key v. rewrite Hh. tauto.
Qed.

Lemma ok_counts t : ok t -> 0 <= NumEntries t /\ 0 <= NumTombstones t.
Proof. intros [(_ & -> & ->)|(k & Hwf)]; [lia|]. rewrite (wf_entries _ _ Hwf), (wf_tombs _ _ Hwf). pose proof (countb_nonneg has_value (Buckets t)). pose proof (countb_nonneg tombstoneb (Buckets t)). lia. Qed.

(** The size that [shrink_and_clear] chooses. *)
Lemma shrunk_size e : 0 < e < 2 ^ 29 -> exists k, 2 <= k <= 30 /\ Z.max MIN_BUCKETS (s32 (Z.shiftl 1 (Log2_32_Ceil e + 1))) = 2 ^ k /\ 2 ^ k <= Z.max 4 (4 * e).
Proof.
  intros He. rewrite Log2_32_Ceil_spec by lia. pose proof (Z.log2_up_nonneg e). assert (Hup : Z.log2_up e <= 29) by (apply Z.log2_up_le_pow2; lia).
  rewrite Z.shiftl_1_l, swrap_id by (lia || (split; [pose proof (Z.pow_nonneg 2 (Z.log2_up e + 1)); lia|apply Z.pow_lt_mono_r; lia])).
  assert (Hle : 2 ^ (Z.log2_up e + 1) <= 4 * e).
  { destruct (Z.eq_dec e 1) as [->|Hne]; [reflexivity || (cbv; discriminate)|]. pose proof (Z.log2_up_spec e ltac:(lia)) as [Hlo _]. rewrite Z.pow_add_r by lia.
    replace (Z.log2_up e) with (Z.succ (Z.pred (Z.log2_up e))) by lia. assert (0 < Z.log2_up e) by (apply Z.log2_up_pos; lia). rewrite Z.pow_succ_r by lia. lia. }
  destruct (Z.lt_ge_cases (Z.log2_up e + 1) 2).
  - exists 2. split; [lia|]. replace (Z.log2_up e + 1) with 1 by lia. split; [done|lia].
  - exists (Z.log2_up e + 1). assert (2 ^ 2 <= 2 ^ (Z.log2_up e + 1)) by (apply Z.pow_le_mono_r; lia). unfold MIN_BUCKETS. split_and!; lia.
Qed.

Lemma DenseMap_shrink_spec t : ok t -> NumEntries t < 2 ^ 29 ->
  exists t', DenseMap_shrink_and_clear t = Ret t' /\ ok t' /\ NumEntries t' = 0 /\ NumTombstones t' = 0 /\ (forall key v, ~ holds (Buckets t') key v) /\
    getNumBuckets t' <= Z.max 4 (4 * NumEntries t).
Proof.
  intros Hok Hlt. pose proof (ok_counts _ Hok) as [HE _]. unfold DenseMap_shrink_and_clear. destruct (Z.eqb_spec (NumEntries t) 0) as [E|E]; simpl negb; cbv iota.
  - change (u32 0) with 0. assert (Hnil : forall t0 : table, Buckets t0 = [] -> ok (setNumTombstones 0 (setNumEntries 0 t0))) by (intros t0 Ht0; by left).
    destruct (Z.eqb_spec 0 (getNumBuckets t)) as [Ez|Ez].
    + unfold getNumBuckets in Ez. assert (Hb : Buckets t = []) by (apply nil_length_inv; lia). unfold initEmpty, getNumBuckets. simpl. rewrite Hb. simpl. eexists. split; [done|].
      split_and!; [by left|done|done|intros key v (_ & i & Hi); by destruct i|unfold getNumBuckets; simpl; lia].
    + assert (Hnew : Buckets (DenseMap_allocateBuckets 0 (destroyAll t)) = []) by (simpl; apply nil_length_inv, length_new_buckets).
      unfold DenseMap_init. simpl negb. cbv iota. set (t0 := DenseMap_allocateBuckets 0 (destroyAll t)) in *. clearbody t0. eexists. split; [done|].
      split_and!; [by apply Hnil|done|done|intros key v (_ & i & Hi); simpl in Hi; rewrite Hnew in Hi; by destruct i|unfold getNumBuckets; simpl; rewrite Hnew; simpl; lia].
  - destruct (shrunk_size (NumEntries t) ltac:(lia)) as (k & Hk & Es & Hle). rewrite Es. assert (0 < 2 ^ k <= 2 ^ 30) by (split; [apply Z.pow_pos_nonneg; lia|apply Z.pow_le_mono_r; lia]). rewrite wrap_id by (unfold in_u; lia).
    assert (Hfin : forall t0 : table, Z.of_nat (length (Buckets t0)) = 2 ^ k -> exists t', initEmpty t0 = Ret t' /\ ok t' /\ NumEntries t' = 0 /\ NumTombstones t' = 0 /\ (forall key v, ~ holds (Buckets t') key v) /\ getNumBuckets t' <= Z.max 4 (4 * NumEntries t)).
    { intros t0 Hlen. destruct (initEmpty_spec k t0 ltac:(lia) Hlen) as (t' & Hi & (Hwf & HE' & HT' & Hno) & _). exists t'. split_and!; [done|right; by exists k|done|done|done|]. unfold getNumBuckets. rewrite (wf_len _ _ Hwf). lia. }
    destruct (Z.eqb_spec (2 ^ k) (getNumBuckets t)) as [Ek|Ek].
    + apply Hfin. simpl. rewrite length_map. done.
    + unfold DenseMap_init. rewrite (proj2 (Z.eqb_neq _ _)) by lia. apply Hfin. simpl. rewrite length_new_buckets. lia.
Qed.

#[export] Instance DenseMap_laws : DerivedLaws (DenseMap_derived purge).
Proof. split; [apply DenseMap_grow_spec|apply DenseMap_shrink_spec]. Qed.

End Updates.
