(* ===== verification/DenseMapSpec.v ===== *)
(** * Dense hash maps: the operations

    Every sequence of operations on a dense map does what it does on a finite map, except
    that entries with the value zero may go when the map is allowed to purge them.  The
    operations of [DenseMapBase] are proved against the laws of the derived class. *)

From Stdlib Require Import ZArith Lia Bool.
From stdpp Require Import base list gmap.
From S2P Require Import Prelude Probing DenseMap DenseProbing PowersOfTwo DenseTable DenseUpdates.

Local Open Scope Z_scope.

Section Spec.
Context {K V : Type} `{info : DenseMapInfo K} `{laws : !DenseMapInfoLaws K} `{vinfo : ValueInfo V} {heap : Heap K V} `{Countable K}.
Context (purge : bool).
#[local] Abbreviation table := (dmap K V).
#[local] Abbreviation bkts := (list (BucketT K V)).

(** ** The map that a table stands for *)

Definition entry_of (b : BucketT K V) : option (K * V) := if has_value b then v ← b_second b; Some (b_first b, v) else None.
Definition abs (t : table) : gmap K V := list_to_map (omap entry_of (Buckets t)).

Lemma entry_of_Some b key v : entry_of b = Some (key, v) <-> valid key /\ b = mk_bkt key (Some v).
Proof.
  unfold entry_of. destruct (has_value b) eqn:E.
  - apply has_value_valid in E. destruct b as [k [w|]]; simpl in *; [|by split; [|intros [_ ?]]]. split; [intros [= -> ->]; done|intros [_ [= -> ->]]; done].
  - split; [done|]. intros [Hv ->]. apply (has_value_valid (mk_bkt key (Some v))) in Hv. congruence.
Qed.

Lemma elem_of_entries (l : bkts) key v : (key, v) ∈ omap entry_of l <-> holds l key v.
Proof.
  rewrite list_elem_of_omap. split.
  - intros (b & Hb & E). apply entry_of_Some in E as [Hv ->]. split; [done|]. by apply list_elem_of_lookup.
  - intros (Hv & i & Hi). exists (mk_bkt key (Some v)). split; [by apply list_elem_of_lookup; exists i|]. by apply entry_of_Some.
Qed.

Lemma entries_NoDup (l : bkts) : movable l -> NoDup (omap entry_of l).*1.
Proof.
  induction l as [|b l IH]; intros Hmv; simpl; [constructor|]. pose proof (movable_cons _ _ Hmv) as Hmv'. destruct (entry_of b) as [[key v]|] eqn:E; [|by apply IH].
  simpl. constructor; [|by apply IH]. intros Hin. apply list_elem_of_fmap in Hin as ([key' v'] & Ek & Hin). simpl in Ek. subst key'.
  apply elem_of_entries in Hin as (_ & i & Hi). apply entry_of_Some in E as [Hv ->]. by discriminate (mv_unique _ Hmv 0%nat (S i) _ _ eq_refl Hi Hv eq_refl).
Qed.

Lemma ok_movable (t : table) : ok t -> movable (Buckets t).
Proof. intros [(-> & _)|(k & Hwf)]; [split; by intros [|i]|by apply (wf_movable k)]. Qed.

Lemma abs_spec (t : table) key v : ok t -> abs t !! key = Some v <-> holds (Buckets t) key v.
Proof. intros Hok. unfold abs. rewrite <- elem_of_list_to_map by (by apply entries_NoDup, ok_movable). apply elem_of_entries. Qed.

Lemma abs_None (t : table) key : ok t -> abs t !! key = None <-> forall v, ~ holds (Buckets t) key v.
Proof.
  intros Hok. split.
  - intros E v Hh. apply abs_spec in Hh; [congruence|done].
  - intros Hno. destruct (abs t !! key) as [v|] eqn:E; [|done]. apply abs_spec in E; [|done]. by apply Hno in E.
Qed.

(** Maps are determined by their entries. *)
Lemma abs_ext (t : table) M : ok t -> (forall key v, holds (Buckets t) key v <-> M !! key = Some v) -> abs t = M.
Proof. intros Hok HM. apply map_eq. intros key. apply option_eq. intros v. rewrite <- HM. by apply abs_spec. Qed.

(** ** Purging *)

Definition pur (M M' : gmap K V) : Prop :=
  forall key v, (M' !! key = Some v -> M !! key = Some v) /\ (M !! key = Some v -> keeps purge v = true -> M' !! key = Some v).

Lemma pur_refl M : pur M M.
Proof. by intros key v. Qed.

Lemma pur_exact M M' : purge = false -> pur M M' -> M' = M.
Proof. intros Hp Hpur. apply map_eq. intros key. apply option_eq. intros v. destruct (Hpur key v) as [H1 H2]. split; [done|]. intros E. apply H2; [done|]. unfold keeps. by rewrite Hp. Qed.

Lemma purges_pur (t t' : table) : ok t -> ok t' -> purges purge (Buckets t) (Buckets t') -> pur (abs t) (abs t').
Proof. intros H1 H2 Hp key v. rewrite !abs_spec by done. apply Hp. Qed.

(** ** Searching *)

(** Where [LookupBucketFor] would put a key that is not there. *)
Definition placed (t : table) (key : K) (o : option Z) : Prop :=
  (Buckets t = [] /\ o = None) \/
  exists k i b, wf k t /\ o = Some (Z.of_nat i) /\ Buckets t !! i = Some b /\ free purge b /\ reaches (Buckets t) k key i /\ absent (Buckets t) key.

Inductive search_result (t : table) (key : K) : bool * option Z -> Prop :=
| sr_found i v : Buckets t !! i = Some (mk_bkt key (Some v)) -> abs t !! key = Some v -> search_result t key (true, Some (Z.of_nat i))
| sr_missing o : abs t !! key = None -> placed t key o -> search_result t key (false, o).

Lemma search_spec (t : table) key : ok t -> valid key -> exists r, LookupBucketFor purge key t = Ret r /\ search_result t key r.
Proof.
  intros Hok Hv. pose proof Hok as [(HB & _ & _)|(k & Hwf)].
  - exists (false, None). split; [unfold LookupBucketFor, getNumBuckets; by rewrite HB|]. apply sr_missing; [|by left]. apply abs_None; [done|]. intros v (_ & i & Hi). rewrite HB in Hi. by rewrite lookup_nil in Hi.
  - destruct (LookupBucketFor_spec purge k t key Hwf Hv) as (r & Hr & Hlu). exists r. split; [done|]. destruct Hlu as [i v Hi|i b Hi Hf Hre Ha].
    + apply (sr_found _ _ i v); [done|]. apply abs_spec; [done|]. split; [done|by exists i].
    + apply sr_missing; [|right; by exists k, i, b]. apply abs_None; [done|]. intros v (_ & j & Hj). by apply (Ha j _ Hj).
Qed.

(** ** Sizes *)

(** [c] bounds the buckets in use; the array is not much larger. *)
Definition within (c : Z) (t : table) : Prop := ok t /\ NumEntries t + NumTombstones t <= c /\ getNumBuckets t <= 8 * c + 4.

Lemma within_mono c c' t : c <= c' -> within c t -> within c' t.
Proof. intros Hle (H1 & H2 & H3). split_and!; [done|lia|lia]. Qed.

Lemma ok_room (t : table) : ok t -> getNumBuckets t = 0 /\ NumEntries t = 0 /\ NumTombstones t = 0 \/ NumEntries t + NumTombstones t < getNumBuckets t.
Proof. intros [(HB & HE & HT)|(k & Hwf)]; [left; unfold getNumBuckets; by rewrite HB|right]. unfold getNumBuckets. rewrite (wf_len _ _ Hwf). apply Hwf. Qed.

Section Operations.
Context (d : Derived (K := K) (V := V)) `{dlaws : !DerivedLaws purge d}.

(** ** Making room *)

(** The table in which the key goes into bucket [i]. *)
Record roomy (c : Z) (t t' : table) (key : K) (i : nat) (b : BucketT K V) : Prop := {
  rm_bucket : Buckets t' !! i = Some b;
  rm_wf : exists k, wf k t' /\ reaches (Buckets t') k key i /\ NumEntries t' + NumTombstones t' + 1 < 2 ^ k;
  rm_absent : absent (Buckets t') key;
  rm_free : free purge b;
  rm_within : within c t';
  rm_same : purges purge (Buckets t) (Buckets t');
}.

Lemma purges_refl (l : bkts) : purges purge l l.
Proof. by intros key v. Qed.

Lemma purges_missing (t t' : table) key : ok t -> ok t' -> purges purge (Buckets t) (Buckets t') -> abs t !! key = None -> abs t' !! key = None.
Proof. intros H1 H2 Hp E. apply abs_None; [done|]. intros v Hh. apply Hp in Hh. by apply (proj1 (abs_None t key H1) E v). Qed.

(** Growing gives the key a free bucket. *)
Lemma grow_and_lookup_spec c c' t key n : within c t -> valid key -> abs t !! key = None -> 0 <= n < 2 ^ 31 -> NumEntries t + 1 <= n \/ (NumEntries t = 0 /\ n = 0) ->
  Z.max 4 (2 * n) <= 8 * c' + 4 -> NumEntries t <= c' ->
  exists t' i b, grow_and_lookup purge d n key t = Ret (t', Some (Z.of_nat i)) /\ roomy c' t t' key i b /\ NumTombstones t' = 0 /\ NumEntries t' <= NumEntries t /\ n < getNumBuckets t' <= Z.max 4 (2 * n) /\ 4 <= getNumBuckets t'.
Proof.
  intros (Hok & _ & _) Hv Hno Hn Hroom Hc Hc'. pose proof (ok_counts _ Hok) as [HE0 _]. destruct (grown_size n Hn) as (k & Hg & Hsz).
  assert (Hlt : NumEntries t + 1 < 2 ^ k) by (destruct Hroom as [?|[-> ->]]; [lia|]; destruct Hg as [Hk _]; assert (2 ^ 2 <= 2 ^ k) by (apply Z.pow_le_mono_r; lia); lia).
  destruct (grow_law purge t n k Hok Hg ltac:(lia)) as (t' & Hgr & Hwf & HT & HE & Hp).
  assert (Hok' : ok t') by (right; by exists k). pose proof (purges_missing t t' key Hok Hok' Hp Hno) as Hno'. pose proof (wf_len _ _ Hwf) as Hlen.
  destruct (search_spec t' key Hok' Hv) as (r & Hr & Hs). destruct Hs as [i v _ Hf|o _ Hpl]; [congruence|].
  destruct Hpl as [[HB _]|(k' & i & b & Hwf' & -> & Hi & Hfr & Hre & Ha)]; [rewrite HB in Hlen; simpl in Hlen; lia|].
  assert (Hkk : 2 ^ k' = 2 ^ k) by (rewrite <- (wf_len _ _ Hwf), <- (wf_len _ _ Hwf'); done).
  exists t', i, b. unfold grow_and_lookup. rewrite Hgr. simpl. rewrite Hr. simpl. split; [done|]. assert (H4 : 2 ^ 2 <= 2 ^ k) by (destruct Hg; apply Z.pow_le_mono_r; lia). split_and!; [|done|lia|unfold getNumBuckets; lia|unfold getNumBuckets; lia|unfold getNumBuckets; lia].
  split; [done| |done|done| |done].
  - exists k'. split_and!; [done|done|]. lia.
  - split_and!; [done|lia|unfold getNumBuckets; lia].
Qed.

Lemma make_bucket_room_spec c t key o : within c t -> c < 2 ^ 25 -> valid key -> abs t !! key = None -> placed t key o ->
  exists t' i b, make_bucket_room purge d key o t = Ret (t', Some (Z.of_nat i)) /\ roomy (c + 1) t t' key i b /\ NumEntries t' + NumTombstones t' <= c.
Proof.
  intros Hin Hc Hv Hno Hpl. pose proof Hin as (Hok & Hsum & Hsz). pose proof (ok_counts _ Hok) as [HE HT]. pose proof (ok_room _ Hok) as Hroom. assert (0 <= getNumBuckets t) by (unfold getNumBuckets; lia).
  unfold make_bucket_room. rewrite (wrap_id 32 (NumEntries t + 1)) by (unfold in_u; lia). rewrite !(wrap_id 32 (_ * _)) by (unfold in_u; lia).
  destruct (Z.leb_spec (getNumBuckets t * 3) ((NumEntries t + 1) * 4)) as [Hfull|Hfree].
  - destruct (grow_and_lookup_spec c (c + 1) t key (getNumBuckets t * 2) Hin Hv Hno ltac:(lia) ltac:(lia) ltac:(lia) ltac:(lia)) as (t' & i & b & -> & Hr & HT' & HE' & Hn' & H4). simpl.
    rewrite HT', Z.add_0_r, (wrap_id 32 (NumEntries t + 1)), (wrap_id 32 (_ - _)) by (unfold in_u; lia). pose proof (Z.mul_div_le (getNumBuckets t') 8 ltac:(lia)).
    rewrite (proj2 (Z.leb_gt _ _)) by lia. exists t', i, b. split_and!; [done|done|lia].
  - simpl. assert (Hpos : NumEntries t + NumTombstones t < getNumBuckets t) by lia. rewrite (wrap_id 32 (_ + NumTombstones t)), (wrap_id 32 (_ - _)) by (unfold in_u; lia).
    pose proof (Z.mul_div_le (getNumBuckets t) 8 ltac:(lia)). pose proof (Z.div_pos (getNumBuckets t) 8 ltac:(lia) ltac:(lia)). destruct (Z.leb_spec (getNumBuckets t - (NumEntries t + 1 + NumTombstones t)) (getNumBuckets t / 8)) as [Hfew|Hmany].
    + destruct (grow_and_lookup_spec c (c + 1) t key (getNumBuckets t) Hin Hv Hno ltac:(lia) ltac:(lia) ltac:(lia) ltac:(lia)) as (t' & i & b & -> & Hr & HT' & HE' & _). exists t', i, b. split_and!; [done|done|lia].
    + destruct Hpl as [[HB ->]|(k & i & b & Hwf & -> & Hi & Hfr & Hre & Ha)]; [unfold getNumBuckets in Hpos; rewrite HB in Hpos; simpl in Hpos; lia|]. exists t, i, b. split_and!; [done| |lia].
      split; [done| |done|done|by apply (within_mono c); [lia|]|apply purges_refl]. exists k. split_and!; [done|done|]. rewrite <- (wf_len _ _ Hwf). unfold getNumBuckets in *. lia.
Qed.

(** ** Insertion *)

(** Entering a key: whatever zero had its bucket is gone. *)
Lemma entered_pur c t t' key v i b : roomy c t t' key i b -> ok t -> valid key -> NumEntries t' + NumTombstones t' + 1 <= c ->
  let t2 := put_bucket (Z.of_nat i) (mk_bkt key (Some v)) (entered b t') in
  within c t2 /\ pur (<[key := v]> (abs t)) (abs t2) /\ abs t2 !! key = Some v /\ Buckets t2 !! i = Some (mk_bkt key (Some v)).
Proof.
  intros [Hi (k & Hwf & Hre & Hroom) Ha Hfr (Hok' & _ & Hsz) Hp] Hok Hv Hc t2. pose proof (enter_wf k t' key v i b Hwf Hv Hi Hre Ha Hroom) as Hwf2. fold t2 in Hwf2.
  assert (HB : Buckets t2 = <[i := mk_bkt key (Some v)]> (Buckets t')) by (simpl; by rewrite Nat2Z.id, entered_buckets).
  assert (Hok2 : ok t2) by (right; by exists k). pose proof (enter_holds k t' key v i b Hwf Hv Hi) as Hh. rewrite <- HB in Hh.
  assert (Hkey : abs t2 !! key = Some v) by (apply abs_spec; [done|]; apply Hh; by left). split_and!; [split_and!; [done| |]| |done|].
  - pose proof (countb_total (Buckets t2)) as Htot. rewrite (wf_entries _ _ Hwf2), (wf_tombs _ _ Hwf2), HB, !(countb_insert _ _ i b _ Hi). pose proof (wf_entries _ _ Hwf). pose proof (wf_tombs _ _ Hwf).
    assert (Hvt : tombstoneb (mk_bkt key (Some v)) = false) by (apply is_tombstone_key_false, Hv). rewrite Hvt. destruct (has_value b), (tombstoneb b), (has_value (mk_bkt key (Some v))); lia.
  - unfold getNumBuckets in *. rewrite HB, length_insert. done.
  - intros key' v'. rewrite (abs_spec t2), Hh by done. destruct (decide (key' = key)) as [->|Hne]; [rewrite lookup_insert_eq|rewrite lookup_insert_ne, abs_spec by done].
    + split; [intros [[_ ->]|[(_ & n & Hn) _]]; [done|by destruct (Ha n _ Hn)]|]. intros [= ->] _. by left.
    + split; [intros [[? _]|[Hh' _]]; [done|by apply Hp]|]. intros Hh' Hkeep. right. destruct (Hp key' v') as [_ Hp']. specialize (Hp' Hh' Hkeep). split; [done|]. intros ->.
      destruct Hfr as [E|[E|[Hpu Hz]]]; [by destruct Hp' as [[? _] _]|by destruct Hp' as [[_ ?] _]|]. destruct Hp' as (Hvb & n & Hn). assert (n = i) as -> by (by apply (wf_unique k t' n i (mk_bkt (b_first b) (Some v')) b)).
      rewrite Hi in Hn. injection Hn as Hn. assert (Hsec : b_second b = Some v') by (by rewrite Hn). unfold second_is_zero in Hz. rewrite Hsec in Hz. unfold keeps in Hkeep. by rewrite Hpu, Hz in Hkeep.
  - rewrite HB. apply list_lookup_insert_eq. by eapply lookup_lt_Some.
Qed.

Lemma InsertIntoBucket_spec c t key v o : within c t -> c < 2 ^ 25 -> valid key -> abs t !! key = None -> placed t key o ->
  exists t' i, InsertIntoBucket purge d key v o t = Ret (t', Z.of_nat i) /\ within (c + 1) t' /\ pur (<[key := v]> (abs t)) (abs t') /\ abs t' !! key = Some v /\
    Buckets t' !! i = Some (mk_bkt key (Some v)).
Proof.
  intros Hin Hc Hv Hno Hpl. destruct (make_bucket_room_spec c t key o Hin Hc Hv Hno Hpl) as (t1 & i & b & Hm & Hr & Hsum).
  unfold InsertIntoBucket, InsertIntoBucketImpl. rewrite Hm. simpl. unfold bucket. rewrite Nat2Z.id, (rm_bucket _ _ _ _ _ _ Hr). simpl. eexists _, i. split; [done|].
  apply (entered_pur (c + 1) t t1 key v i b Hr); [apply Hin|done|lia].
Qed.

(** ** The operations *)

Lemma FindAndConstruct_spec c t key : within c t -> c < 2 ^ 25 -> valid key ->
  exists t' i v, FindAndConstruct purge d key t = Ret (t', Z.of_nat i) /\ within (c + 1) t' /\ v = default value_init (abs t !! key) /\
    pur (<[key := v]> (abs t)) (abs t') /\ abs t' !! key = Some v /\ Buckets t' !! i = Some (mk_bkt key (Some v)).
Proof.
  intros Hin Hc Hv. unfold FindAndConstruct. destruct (search_spec t key (proj1 Hin) Hv) as (r & -> & Hs). destruct Hs as [i v Hi Hf|o Hno Hpl]; simpl.
  - exists t, i, v. split_and!; [done|by apply (within_mono c); [lia|]|by rewrite Hf| |done|done]. rewrite insert_id by done. apply pur_refl.
  - destruct (InsertIntoBucket_spec c t key value_init o Hin Hc Hv Hno Hpl) as (t' & i & -> & H1 & H2 & H3 & H4). exists t', i, value_init. rewrite Hno. done.
Qed.

(** Storing through the iterator of a key that is there. *)
Lemma dm_set_second_spec c t key v w i : within c t -> valid key -> Buckets t !! i = Some (mk_bkt key (Some w)) ->
  exists t', dm_set_second (Z.of_nat i) v t = Ret t' /\ within c t' /\ abs t' = <[key := v]> (abs t).
Proof.
  intros (Hok & Hsum & Hsz) Hv Hi. unfold dm_set_second, bucket. rewrite Nat2Z.id, Hi. simpl. eexists. split; [done|].
  destruct Hok as [(HB & _)|(k & Hwf)]; [rewrite HB, lookup_nil in Hi; done|]. destruct (set_second_spec k t i (mk_bkt key (Some w)) v Hwf Hi Hv) as [Hwf' Hh]. simpl in Hwf', Hh.
  assert (Hok' : ok (put_bucket (Z.of_nat i) (mk_bkt key (Some v)) t)) by (right; by exists k). split; [split_and!; [done|done|]|].
  - unfold getNumBuckets in *. simpl. by rewrite length_insert.
  - apply abs_ext; [done|]. intros key' v'. simpl. rewrite Hh. destruct (decide (key' = key)) as [->|Hne]; [rewrite lookup_insert_eq|rewrite lookup_insert_ne, abs_spec by (done || (right; by exists k))].
    + split; [intros [[_ ->]|[_ ?]]; done|intros [= ->]; by left].
    + split; [intros [[? _]|[? _]]; done|intros ?; by right].
Qed.

Lemma purges_within c t t' k n : within c t -> wf k t' -> grown n k -> NumTombstones t' = 0 -> NumEntries t' <= NumEntries t -> purges purge (Buckets t) (Buckets t') ->
  forall c', NumEntries t <= c' -> 2 ^ k <= 8 * c' + 4 -> within c' t' /\ pur (abs t) (abs t').
Proof.
  intros (Hok & _) Hwf Hg HT HE Hp c' Hc Hs. assert (Hok' : ok t') by (right; by exists k). split; [|by apply purges_pur]. split_and!; [done|lia|]. unfold getNumBuckets. by rewrite (wf_len _ _ Hwf).
Qed.

Lemma no_holds_empty (t : table) : ok t -> (forall key v, ~ holds (Buckets t) key v) -> abs t = ∅.
Proof. intros Hok Hno. apply abs_ext; [done|]. intros key v. rewrite lookup_empty. split; [intros Hx; by apply Hno in Hx|done]. Qed.

Lemma no_entries_no_holds (t : table) : ok t -> NumEntries t = 0 -> forall key v, ~ holds (Buckets t) key v.
Proof.
  intros [(HB & _)|(k & Hwf)] HE key v (Hv & i & Hi); [by rewrite HB, lookup_nil in Hi|]. rewrite (wf_entries _ _ Hwf) in HE. pose proof (countb_none _ _ i _ HE Hi) as Hb.
  apply (has_value_valid (mk_bkt key (Some v))) in Hv. congruence.
Qed.

Lemma shrink_within c t : within c t -> c < 2 ^ 25 -> exists t', @shrink_and_clear K V d t = Ret t' /\ within c t' /\ abs t' = ∅.
Proof.
  intros (Hok & Hsum & Hsz) Hc. pose proof (ok_counts _ Hok). destruct (shrink_law purge t Hok ltac:(lia)) as (t' & Hr & Hok' & HE & HT & Hno & Hn). exists t'. split_and!; [done|split_and!; [done|lia|lia]|by apply no_holds_empty].
Qed.

Lemma dm_compact_spec c t : within c t -> c < 2 ^ 25 -> exists t', dm_compact d t = Ret t' /\ within c t' /\ pur (abs t) (abs t').
Proof.
  intros Hin Hc. pose proof Hin as (Hok & Hsum & Hsz). pose proof (ok_counts _ Hok) as [HE HT]. unfold dm_compact. destruct (Z.eqb_spec (NumEntries t) 0) as [E|E].
  - destruct (shrink_within c t Hin Hc) as (t' & -> & Hin' & Ha). exists t'. split_and!; [done|done|]. rewrite Ha, (no_holds_empty t Hok (no_entries_no_holds t Hok E)). apply pur_refl.
  - destruct (_ && _) eqn:Ec; [|exists t; split_and!; [done|done|apply pur_refl]]. zbool. rewrite wrap_id by (unfold in_u; lia).
    destruct (grown_size (NumEntries t * 2) ltac:(lia)) as (k & Hg & Hk). destruct (grow_law purge t _ k Hok Hg ltac:(lia)) as (t' & -> & Hwf & HT' & HE' & Hp). exists t'. split; [done|].
    apply (purges_within c t t' k (NumEntries t * 2)); [done|done|done|done|done|done|lia|lia].
Qed.

Lemma pur_trans M1 M2 M3 : pur M1 M2 -> pur M2 M3 -> pur M1 M3.
Proof. intros H1 H2 key v. destruct (H1 key v), (H2 key v). split; auto. Qed.

Lemma dm_erase_at_spec c t key v i : within c t -> c < 2 ^ 25 -> valid key -> Buckets t !! i = Some (mk_bkt key (Some v)) ->
  exists t', dm_erase_at d (Z.of_nat i) t = Ret t' /\ within c t' /\ pur (delete key (abs t)) (abs t').
Proof.
  intros (Hok & Hsum & Hsz) Hc Hv Hi. destruct Hok as [(HB & _)|(k & Hwf)]; [by rewrite HB, lookup_nil in Hi|]. destruct (bury_spec k t i _ Hwf Hi Hv) as (Hwf' & HE & HT & Hh). simpl b_first in Hh.
  assert (Hok' : ok (buried i t)) by (right; by exists k). assert (Hin' : within c (buried i t)) by (split_and!; [done|lia|]; unfold getNumBuckets in *; simpl; by rewrite length_insert).
  unfold dm_erase_at, bucket. rewrite Nat2Z.id, Hi. simpl obind. destruct (dm_compact_spec c (buried i t) Hin' Hc) as (t' & Hr & Hin2 & Hp). exists t'. split; [exact Hr|]. split; [done|].
  replace (delete key (abs t)) with (abs (buried i t)); [done|]. apply abs_ext; [done|]. intros key' v'. rewrite Hh, lookup_delete_Some, abs_spec by (right; by exists k). split; [intros [? ?]; by split|intros [? ?]; by split].
Qed.

End Operations.

(** ** Copies and exchanges *)

Lemma entry_of_construct (mine b : BucketT K V) : entry_of (construct_bucket mine b) = entry_of b.
Proof. unfold entry_of, construct_bucket. destruct (has_value b) eqn:E; unfold has_value in *; simpl; by rewrite E. Qed.

Lemma omap_ext_list (l l' : bkts) : map entry_of l = map entry_of l' -> omap entry_of l = omap entry_of l'.
Proof. revert l'. induction l as [|b l IH]; intros [|b' l'] E; try done. injection E as Eb El. csimpl. rewrite Eb. by rewrite (IH l' El). Qed.

Lemma constructed_entries (mine l : bkts) : length mine = length l -> map entry_of (zip_with construct_bucket mine l) = map entry_of l.
Proof. revert mine. induction l as [|b l IH]; intros [|m mine] Hl; simpl in *; try done. by rewrite entry_of_construct, IH by lia. Qed.

(** Copying a map gives the same map. *)
Lemma DenseMap_copyFrom_same (other t : table) : ok other -> exists t', DenseMap_copyFrom other t = Ret t' /\ abs t' = abs other /\ NumEntries t' = NumEntries other /\ NumTombstones t' = NumTombstones other.
Proof.
  intros Hok. unfold DenseMap_copyFrom. set (t0 := DenseMap_allocateBuckets _ _). assert (Hl : length (Buckets t0) = length (Buckets other)) by (simpl; rewrite length_new_buckets; unfold getNumBuckets; lia). clearbody t0.
  destruct (Z.eqb_spec (getNumBuckets other) 0) as [E|E]; simpl negb; cbv iota.
  - unfold getNumBuckets in E. assert (HB : Buckets other = []) by (apply nil_length_inv; lia). assert (HB0 : Buckets t0 = []) by (apply nil_length_inv; lia). eexists. split; [done|].
    unfold abs. simpl. rewrite HB, HB0. destruct Hok as [(_ & -> & ->)|(k & Hwf)]; [done|]. pose proof (wf_len _ _ Hwf) as Hlen. rewrite HB in Hlen. simpl in Hlen. pose proof (Z.pow_pos_nonneg 2 k ltac:(lia) (proj1 (wf_k _ _ Hwf))). lia.
  - unfold copy_buckets, getNumBuckets. rewrite Hl, Z.eqb_refl. eexists. split; [done|]. split; [|done]. unfold abs. simpl. f_equal. apply omap_ext_list. by apply constructed_entries.
Qed.

Lemma swap_bucket_entries (l r : BucketT K V) : entry_of (fst (swap_bucket l r)) = entry_of r /\ entry_of (snd (swap_bucket l r)) = entry_of l.
Proof.
  unfold swap_bucket. destruct (has_value l) eqn:El, (has_value r) eqn:Er; simpl; unfold entry_of; rewrite ?El, ?Er; unfold has_value in *; simpl; rewrite ?El, ?Er; done.
Qed.

(** [swap] exchanges two maps, wherever their buckets are. *)
Lemma Small_swap_exchanges (t RHS : table) : length (Buckets t) = length (Buckets RHS) \/ (Small t && Small RHS) = false ->
  abs (fst (Small_swap t RHS)) = abs RHS /\ abs (snd (Small_swap t RHS)) = abs t.
Proof.
  intros Hlen. unfold Small_swap, abs. destruct (Small t) eqn:E1, (Small RHS) eqn:E2; simpl in *.
  - destruct Hlen as [Hlen|]; [|done]. assert (Hs : map entry_of (map fst (zip_with swap_bucket (Buckets t) (Buckets RHS))) = map entry_of (Buckets RHS) /\ map entry_of (map snd (zip_with swap_bucket (Buckets t) (Buckets RHS))) = map entry_of (Buckets t)).
    { revert Hlen. generalize (Buckets RHS). induction (Buckets t) as [|b l IH]; intros [|b' l'] Hl; simpl in *; try done. destruct (swap_bucket_entries b b') as [-> ->]. by destruct (IH l' ltac:(lia)) as [-> ->]. }
    destruct Hs as [H1 H2]. by rewrite (omap_ext_list _ _ H1), (omap_ext_list _ _ H2).
  - split; [done|]. f_equal. apply omap_ext_list, constructed_entries. apply length_new_buckets.
  - split; [|done]. f_equal. apply omap_ext_list, constructed_entries. apply length_new_buckets.
  - done.
Qed.

End Spec.
