(* ===== verification/DenseMapRun.v ===== *)
(** * Dense hash maps: runs

    Sequences of operations on a [DenseMap], from the empty map on.  Without purging they
    return what they return on a finite map; with purging, as in the table of the retain
    counts, values are the same, a missing entry counting as zero. *)

From Stdlib Require Import ZArith Lia Bool.
From stdpp Require Import base list gmap.
From S2P Require Import Prelude Probing DenseMap DenseProbing PowersOfTwo DenseTable DenseUpdates DenseMapSpec.

Local Open Scope Z_scope.

(** The operations; [M_set] is [map[key] = v], [M_get] reads [map[key]], [M_update] stores
    through the iterator that [find] returns, when there is one. *)
Inductive mop (K V : Type) :=
| M_insert (key : K) (v : V) | M_set (key : K) (v : V) | M_get (key : K) | M_update (key : K) (v : V) | M_erase (key : K)
| M_find (key : K) | M_lookup (key : K) | M_count (key : K) | M_clear | M_resize (n : Z) | M_compact.
Arguments M_insert {K V}. Arguments M_set {K V}. Arguments M_get {K V}. Arguments M_update {K V}. Arguments M_erase {K V}.
Arguments M_find {K V}. Arguments M_lookup {K V}. Arguments M_count {K V}. Arguments M_clear {K V}. Arguments M_resize {K V}. Arguments M_compact {K V}.

Inductive mres (V : Type) := R_unit | R_bool (b : bool) | R_value (v : V) | R_find (o : option V).
Arguments R_unit {V}. Arguments R_bool {V}. Arguments R_value {V}. Arguments R_find {V}.

Section Run.
Context {K V : Type} `{info : DenseMapInfo K} `{laws : !DenseMapInfoLaws K} `{vinfo : ValueInfo V} {heap : Heap K V} `{Countable K}.
Context (purge : bool).
#[local] Abbreviation table := (dmap K V).

(** ** Clearing and iterating *)

Lemma clear_loop_spec (l : list (BucketT K V)) n : countb has_value l <= n < 2 ^ 32 ->
  exists l', clear_loop l n = (l', n - countb has_value l) /\ length l' = length l /\ forall i b, l' !! i = Some b -> b_first b = getEmptyKey.
Proof.
  revert n. induction l as [|b l IH]; intros n Hn; simpl.
  - exists []. split_and!; [f_equal; unfold countb; simpl; lia|done|]. intros i c Hc. by rewrite lookup_nil in Hc.
  - rewrite countb_cons in *. pose proof (countb_nonneg has_value l). destruct (IH (if has_value b then u32 (n - 1) else n)) as (l' & -> & Hl & Hall).
    { destruct (has_value b); [rewrite wrap_id by (unfold in_u; lia)|]; lia. }
    eexists. split; [f_equal; destruct (has_value b); [rewrite wrap_id by (unfold in_u; lia)|]; lia|]. split; [simpl; by rewrite Hl|].
    intros [|i] c Hc; simpl in Hc; [|by apply (Hall i)]. injection Hc as <-. destruct (is_empty_key (b_first b)) eqn:E; [by apply is_empty_key_true|done].
Qed.

Section Laws.
Context (d : Derived (K := K) (V := V)) `{dlaws : !DerivedLaws purge d}.

Lemma dm_clear_spec c (t : table) : within c t -> c < 2 ^ 25 -> exists t', dm_clear d t = Ret t' /\ within c t' /\ abs t' = ∅.
Proof.
  intros Hin Hc. pose proof Hin as (Hok & Hsum & Hsz). pose proof (ok_counts _ Hok) as [HE HT]. unfold dm_clear. destruct (_ && _) eqn:E1.
  { zbool. exists t. split_and!; [done|done|]. apply no_holds_empty; [done|]. by apply no_entries_no_holds. }
  destruct ((u32 (NumEntries t * 4) <? getNumBuckets t) && (MIN_BUCKETS <? getNumBuckets t)); [by apply (shrink_within purge)|]. destruct Hok as [(_ & HE0 & HT0)|(k & Hwf)]; [by rewrite HE0, HT0 in E1|].
  pose proof (wf_entries _ _ Hwf) as HEc. destruct (clear_loop_spec (Buckets t) (NumEntries t)) as (l' & -> & Hl & Hall); [lia|].
  replace (NumEntries t - countb has_value (Buckets t)) with 0 by lia. simpl. eexists. split; [done|].
  assert (Hbl : blank k (setNumTombstones 0 (setNumEntries 0 (setBuckets l' t)))) by (apply all_empty_blank; simpl; [apply Hwf|by rewrite Hl, (wf_len _ _ Hwf)|done|done|done]).
  destruct Hbl as (Hwf' & _ & _ & Hno). assert (Hok' : ok (setNumTombstones 0 (setNumEntries 0 (setBuckets l' t)))) by (right; by exists k).
  split; [|by apply no_holds_empty]. split_and!; [done|simpl; change (u32 0) with 0; lia|]. unfold getNumBuckets in *. simpl. lia.
Qed.

(** ** Runs *)

Definition exec (o : mop K V) (t : table) : outcome (mres V * table) :=
  match o with
  | M_insert key v => let! r := dm_insert purge d key v t in let '(t, (_, b)) := r in Ret (R_bool b, t)
  | M_set key v => let! r := FindAndConstruct purge d key t in let '(t, i) := r in let! t := dm_set_second i v t in Ret (R_unit, t)
  | M_get key => let! r := FindAndConstruct purge d key t in let '(t, i) := r in let! v := dm_second i t in Ret (R_value v, t)
  | M_update key v => let! i := dm_find purge key t in if i =? dm_end t then Ret (R_unit, t) else let! t := dm_set_second i v t in Ret (R_unit, t)
  | M_erase key => let! r := dm_erase purge d key t in let '(t, b) := r in Ret (R_bool b, t)
  | M_find key => let! i := dm_find purge key t in if i =? dm_end t then Ret (R_find None, t) else let! v := dm_second i t in Ret (R_find (Some v), t)
  | M_lookup key => let! v := dm_lookup purge key t in Ret (R_value v, t)
  | M_count key => let! b := dm_count purge key t in Ret (R_bool b, t)
  | M_clear => let! t := dm_clear d t in Ret (R_unit, t)
  | M_resize n => let! t := dm_resize d n t in Ret (R_unit, t)
  | M_compact => let! t := dm_compact d t in Ret (R_unit, t)
  end.

Fixpoint exec_all (os : list (mop K V)) (t : table) : outcome (list (mres V) * table) :=
  match os with
  | [] => Ret ([], t)
  | o :: os => let! r := exec o t in let '(x, t) := r in let! r := exec_all os t in let '(xs, t) := r in Ret (x :: xs, t)
  end.

End Laws.

(** The same on a finite map. *)
Definition on_map (o : mop K V) (M : gmap K V) : mres V * gmap K V :=
  match o with
  | M_insert key v => match M !! key with Some _ => (R_bool false, M) | None => (R_bool true, <[key := v]> M) end
  | M_set key v => (R_unit, <[key := v]> M)
  | M_get key => let v := default value_init (M !! key) in (R_value v, <[key := v]> M)
  | M_update key v => (R_unit, match M !! key with Some _ => <[key := v]> M | None => M end)
  | M_erase key => (R_bool (bool_decide (is_Some (M !! key))), delete key M)
  | M_find key => (R_find (M !! key), M)
  | M_lookup key => (R_value (default value_init (M !! key)), M)
  | M_count key => (R_bool (bool_decide (is_Some (M !! key))), M)
  | M_clear => (R_unit, ∅)
  | M_resize _ | M_compact => (R_unit, M)
  end.

Fixpoint on_map_all (os : list (mop K V)) (M : gmap K V) : list (mres V) * gmap K V :=
  match os with [] => ([], M) | o :: os => let '(x, M) := on_map o M in let '(xs, M) := on_map_all os M in (x :: xs, M) end.

(** With entries of zero that may go after every step. *)
Inductive purging_run : list (mop K V) -> gmap K V -> list (mres V) -> gmap K V -> Prop :=
| pr_nil M : purging_run [] M [] M
| pr_cons o os M x M1 M2 xs M' : on_map o M = (x, M1) -> pur purge M1 M2 -> purging_run os M2 xs M' -> purging_run (o :: os) M (x :: xs) M'.

(** What an operation may add to the buckets in use. *)
Definition cost (o : mop K V) : Z := match o with M_insert _ _ | M_set _ _ | M_get _ => 1 | M_resize n => Z.max 0 n | _ => 0 end.
Definition costs (os : list (mop K V)) : Z := foldr (fun o c => cost o + c) 0 os.

Definition op_valid (o : mop K V) : Prop :=
  match o with
  | M_insert key _ | M_set key _ | M_get key | M_update key _ | M_erase key | M_find key | M_lookup key | M_count key => valid key
  | M_resize n => 0 <= n
  | M_clear | M_compact => True
  end.

Lemma cost_nonneg o : 0 <= cost o.
Proof. destruct o; simpl; lia. Qed.

Lemma costs_nonneg os : 0 <= costs os.
Proof. induction os as [|o os IH]; simpl; [lia|]. pose proof (cost_nonneg o). lia. Qed.

Section Steps.
Context (d : Derived (K := K) (V := V)) `{dlaws : !DerivedLaws purge d}.

(** One operation: what it does to the map, up to purging. *)
Definition step_ok (c : Z) (o : mop K V) (t : table) : Prop :=
  exists x t', exec d o t = Ret (x, t') /\ within (c + cost o) t' /\ x = fst (on_map o (abs t)) /\ pur purge (snd (on_map o (abs t))) (abs t').

Lemma found_not_end (t : table) i b : Buckets t !! i = Some b -> (Z.of_nat i =? dm_end t) = false.
Proof. intros Hi. apply lookup_lt_Some in Hi. apply Z.eqb_neq. unfold dm_end, getNumBuckets. lia. Qed.

(** The operations that search. *)
Lemma search_steps c t key v : within c t -> valid key ->
  step_ok c (M_find key) t /\ step_ok c (M_lookup key) t /\ step_ok c (M_count key) t /\ step_ok c (M_update key v) t.
Proof.
  intros Hin Hv. unfold step_ok. simpl. rewrite Z.add_0_r. unfold dm_find, dm_lookup, dm_count. destruct (search_spec purge t key (proj1 Hin) Hv) as (r & -> & Hs). destruct Hs as [i w Hi Hf|o Hno _]; simpl.
  - rewrite (found_not_end t i _ Hi). unfold dm_second, bucket. rewrite Nat2Z.id, Hi, Hf. simpl.
    destruct (dm_set_second_spec c t key v w i Hin Hv Hi) as (t' & Ht' & Hin' & Ha).
    split_and!; try (eexists _, t; split_and!; [done|done|done|apply pur_refl]). rewrite Ht'. simpl. exists R_unit, t'. split_and!; [done|done|done|]. rewrite Ha. apply pur_refl.
  - unfold dm_end. rewrite Z.eqb_refl, Hno. simpl. split_and!; (eexists _, t; split_and!; [done|done|done|apply pur_refl]).
Qed.

(** Those that insert or erase. *)
Lemma insert_step c t key v : within c t -> c < 2 ^ 25 -> valid key -> step_ok c (M_insert key v) t.
Proof.
  intros Hin Hc Hv. unfold step_ok. simpl. unfold dm_insert. destruct (search_spec purge t key (proj1 Hin) Hv) as (r & -> & Hs). destruct Hs as [i w Hi Hf|o Hno Hpl]; simpl.
  - rewrite Hf. eexists _, t. split_and!; [done|by apply (within_mono c); [lia|]|done|apply pur_refl].
  - rewrite Hno. destruct (InsertIntoBucket_spec purge d c t key v o Hin Hc Hv Hno Hpl) as (t' & i & -> & Hin' & Hp & _). simpl. eexists _, t'. done.
Qed.

Lemma pur_insert (key : K) (v : V) M M' : pur purge M M' -> pur purge (<[key := v]> M) (<[key := v]> M').
Proof. intros Hp key' v'. destruct (decide (key' = key)) as [->|Hne]; [by rewrite !lookup_insert_eq|]. rewrite !lookup_insert_ne by done. apply Hp. Qed.

Lemma construct_steps c t key v : within c t -> c < 2 ^ 25 -> valid key -> step_ok c (M_set key v) t /\ step_ok c (M_get key) t.
Proof.
  intros Hin Hc Hv. unfold step_ok. simpl. destruct (FindAndConstruct_spec purge d c t key Hin Hc Hv) as (t1 & i & w & -> & Hin1 & Hw & Hp & Ha & Hi). simpl. split.
  - destruct (dm_set_second_spec (c + 1) t1 key v w i Hin1 Hv Hi) as (t' & -> & Hin' & Ha'). simpl. eexists _, t'. split_and!; [done|done|done|]. rewrite Ha'.
    replace (<[key := v]> (abs t)) with (<[key := v]> (<[key := w]> (abs t))) by apply insert_insert_eq. by apply pur_insert.
  - unfold dm_second, bucket. rewrite Nat2Z.id, Hi. simpl. eexists _, t1. split_and!; [done|done|by rewrite Hw|by rewrite <- Hw].
Qed.

Lemma erase_step c t key : within c t -> c < 2 ^ 25 -> valid key -> step_ok c (M_erase key) t.
Proof.
  intros Hin Hc Hv. unfold step_ok. simpl. rewrite Z.add_0_r. unfold dm_erase. destruct (search_spec purge t key (proj1 Hin) Hv) as (r & -> & Hs). destruct Hs as [i w Hi Hf|o Hno _]; simpl.
  - destruct (dm_erase_at_spec purge d c t key w i Hin Hc Hv Hi) as (t' & -> & Hin' & Hp). simpl. rewrite Hf. eexists _, t'. done.
  - rewrite Hno. eexists _, t. split_and!; [done|done|done|]. rewrite delete_id by done. apply pur_refl.
Qed.

Lemma resize_step c t n : within c t -> 0 <= n -> c + n <= 2 ^ 25 -> step_ok c (M_resize n) t.
Proof.
  intros Hin Hn Hc. pose proof Hin as (Hok & Hsum & Hsz). unfold step_ok. simpl. rewrite Z.max_r by lia. unfold dm_resize. pose proof (ok_counts _ Hok) as [HE HT]. pose proof (ok_room _ Hok) as Hr.
  destruct (Z.ltb_spec (getNumBuckets t) n) as [Hlt|Hge]; simpl; [|eexists _, t; split_and!; [done|by apply (within_mono c); [lia|]|done|apply pur_refl]].
  assert (0 <= getNumBuckets t) by (unfold getNumBuckets; lia). rewrite wrap_id by (unfold in_u; lia). destruct (grown_size n ltac:(lia)) as (k & Hg & Hk).
  destruct (grow_law purge t n k Hok Hg ltac:(lia)) as (t' & -> & Hwf & HT' & HE' & Hp). simpl. eexists _, t'. split; [done|].
  destruct (purges_within purge c t t' k n Hin Hwf Hg HT' HE' Hp (c + n) ltac:(lia) ltac:(lia)). done.
Qed.

Lemma exec_step c o t : within c t -> op_valid o -> c + cost o <= 2 ^ 25 -> c < 2 ^ 25 -> step_ok c o t.
Proof.
  intros Hin Hv Hcost Hc. destruct o as [key v|key v|key|key v|key|key|key|key| |n|]; simpl in Hv, Hcost.
  - by apply insert_step.
  - by apply (construct_steps c t key v).
  - by apply (construct_steps c t key value_init).
  - by apply (search_steps c t key v).
  - by apply erase_step.
  - by apply (search_steps c t key value_init).
  - by apply (search_steps c t key value_init).
  - by apply (search_steps c t key value_init).
  - unfold step_ok. simpl. rewrite Z.add_0_r. destruct (dm_clear_spec d c t Hin Hc) as (t' & -> & Hin' & Ha). simpl. eexists _, t'. split_and!; [done|done|done|]. rewrite Ha. apply pur_refl.
  - apply resize_step; [done|done|lia].
  - unfold step_ok. simpl. rewrite Z.add_0_r. destruct (dm_compact_spec purge d c t Hin Hc) as (t' & -> & Hin' & Hp). simpl. eexists _, t'. done.
Qed.

End Steps.

(** A new map has no buckets. *)
Lemma init_within t0 : exists t, DenseMap_init 0 t0 = Ret t /\ within 0 t /\ abs t = ∅.
Proof.
  assert (Hnew : Buckets (DenseMap_allocateBuckets 0 t0) = []) by (simpl; apply nil_length_inv, length_new_buckets). unfold DenseMap_init. simpl negb. cbv iota.
  set (t1 := DenseMap_allocateBuckets 0 t0) in *. clearbody t1. eexists. split; [done|]. split; [split_and!|].
  - left. simpl. done.
  - done.
  - unfold getNumBuckets. simpl. rewrite Hnew. simpl. lia.
  - unfold abs. simpl. by rewrite Hnew.
Qed.

Lemma exec_all_refines (d : Derived (K := K) (V := V)) `{!DerivedLaws purge d} c os t : within c t -> Forall op_valid os -> c + costs os < 2 ^ 25 ->
  exists xs t', exec_all d os t = Ret (xs, t') /\ purging_run os (abs t) xs (abs t') /\ within (c + costs os) t'.
Proof.
  revert c t. induction os as [|o os IH]; intros c t Hin Hv Hc; simpl in Hc |- *.
  - eexists _, t. split_and!; [done|constructor|by rewrite Z.add_0_r].
  - apply Forall_cons in Hv as [Hv Hvs]. pose proof (cost_nonneg o). pose proof (costs_nonneg os). destruct (exec_step d c o t Hin Hv ltac:(lia) ltac:(lia)) as (x & t1 & -> & Hin1 & Hx & Hp). simpl.
    destruct (IH (c + cost o) t1 Hin1 Hvs ltac:(lia)) as (xs & t' & -> & Hr & Hin'). simpl. eexists _, t'. split_and!; [done| |by replace (c + (cost o + costs os)) with (c + cost o + costs os) by lia].
    destruct (on_map o (abs t)) as [y M1] eqn:E. simpl in Hx, Hp. subst y. by apply (pr_cons o os (abs t) x M1 (abs t1)).
Qed.

(** C9. A [DenseMap] implements a finite map.  Every sequence of insertions, assignments,
    searches, erasures, clearings, resizings and compactions, from a new map on, runs to its
    end - no search meets a table without empty buckets, no assertion fails - and returns
    what the same sequence returns on a finite map from which entries with the value zero
    may disappear, if the map may purge them. *)
Theorem dense_map_refines os t0 : Forall op_valid os -> costs os < 2 ^ 25 ->
  exists xs t', (let! t := DenseMap_init 0 t0 in exec_all (DenseMap_derived purge) os t) = Ret (xs, t') /\ purging_run os ∅ xs (abs t').
Proof.
  intros Hv Hc. destruct (init_within t0) as (t & -> & Hin & Ha). simpl. destruct (exec_all_refines (DenseMap_derived purge) 0 os t Hin Hv ltac:(lia)) as (xs & t' & Hr & Hp & _).
  exists xs, t'. by rewrite <- Ha.
Qed.

(** Without purging the run is the one on the finite map. *)
Lemma purging_run_exact os M xs M' : purge = false -> purging_run os M xs M' -> on_map_all os M = (xs, M').
Proof.
  intros Hpu. induction 1 as [|o os M x M1 M2 xs M' E Hp _ IH]; [done|]. simpl. rewrite E. apply (pur_exact purge) in Hp; [|done]. subst M2. by rewrite IH.
Qed.

(** A [DenseMap] that may not purge zeros returns exactly what a finite map returns. *)
Theorem dense_map_exact os t0 : purge = false -> Forall op_valid os -> costs os < 2 ^ 25 ->
  exists t', (let! t := DenseMap_init 0 t0 in exec_all (DenseMap_derived purge) os t) = Ret (fst (on_map_all os ∅), t') /\ abs t' = snd (on_map_all os ∅).
Proof.
  intros Hpu Hv Hc. destruct (init_within t0) as (t & -> & Hin & Ha). simpl. destruct (exec_all_refines (DenseMap_derived purge) 0 os t Hin Hv ltac:(lia)) as (xs & t' & Hr & Hp & _).
  rewrite Ha in Hp. apply purging_run_exact in Hp; [|done]. exists t'. by rewrite Hp.
Qed.

(** ** Values, with purging *)

(** What is read of a map, a missing entry counting as the initial value. *)
Definition value_at (M : gmap K V) (key : K) : V := default value_init (M !! key).

(** The operations whose effect does not depend on whether an entry of zero is there. *)
Definition by_value (o : mop K V) : Prop := match o with M_insert _ _ | M_update _ _ | M_count _ => False | _ => True end.

Definition same_value (x y : mres V) : Prop :=
  match x, y with
  | R_value v, R_value w => v = w
  | R_find o, R_find o' => default value_init o = default value_init o'
  | R_unit, R_unit | R_bool _, R_bool _ => True
  | _, _ => False
  end.

Lemma pur_value (Hz : forall v, is_zero v = true -> v = value_init) M M' key : pur purge M M' -> value_at M' key = value_at M key.
Proof.
  intros Hp. unfold value_at. destruct (M !! key) as [v|] eqn:E.
  - destruct (keeps purge v) eqn:Hk; [by rewrite (proj2 (Hp key v) E Hk)|]. destruct (M' !! key) as [w|] eqn:E'; [apply (proj1 (Hp key w)) in E'; congruence|].
    unfold keeps in Hk. simpl. symmetry. apply Hz. by destruct purge, (is_zero v).
  - destruct (M' !! key) as [w|] eqn:E'; [apply (proj1 (Hp key w)) in E'; congruence|done].
Qed.

Lemma on_map_values o M N : by_value o -> (forall key, value_at M key = value_at N key) ->
  same_value (fst (on_map o M)) (fst (on_map o N)) /\ forall key, value_at (snd (on_map o M)) key = value_at (snd (on_map o N)) key.
Proof.
  unfold value_at. intros Hb Hv. assert (Hins : forall key v key', default value_init (<[key := v]> M !! key') = default value_init (<[key := v]> N !! key')).
  { intros key v key'. destruct (decide (key' = key)) as [->|Hne]; [by rewrite !lookup_insert_eq|by rewrite !lookup_insert_ne]. }
  destruct o as [key v|key v|key|key v|key|key|key|key| |n|]; simpl in *; try done; split; try done; try apply Hv.
  - rewrite Hv. intros key'. apply Hins.
  - intros key'. destruct (decide (key' = key)) as [->|Hne]; [by rewrite !lookup_delete_eq|by rewrite !lookup_delete_ne].
Qed.

Lemma purging_run_values (Hz : forall v, is_zero v = true -> v = value_init) os M N xs M' : Forall by_value os -> (forall key, value_at M key = value_at N key) -> purging_run os M xs M' ->
  Forall2 same_value xs (fst (on_map_all os N)) /\ forall key, value_at M' key = value_at (snd (on_map_all os N)) key.
Proof.
  intros Hb Hv Hr. revert N Hb Hv. induction Hr as [M|o os M x M1 M2 xs M' E Hp _ IH]; intros N Hb Hv; [by split|]. apply Forall_cons in Hb as [Hb Hbs].
  destruct (on_map_values o M N Hb Hv) as [Hx Hm]. rewrite E in Hx, Hm. simpl in *. destruct (on_map o N) as [y N1]. simpl in *.
  destruct (IH N1 Hbs) as [Hxs Hm']; [intros key; by rewrite (pur_value Hz M1 M2)|]. destruct (on_map_all os N1) as [ys N2]. simpl in *. split; [by constructor|done].
Qed.

(** Purging zeros does not change values: every assignment, search and erasure sequence
    reads from a [DenseMap] that purges what it reads from a finite map, where a key that is
    not there has the value zero. *)
Theorem dense_map_values os t0 : (forall v, is_zero v = true -> v = value_init) -> Forall op_valid os -> Forall by_value os -> costs os < 2 ^ 25 ->
  exists xs t', (let! t := DenseMap_init 0 t0 in exec_all (DenseMap_derived purge) os t) = Ret (xs, t') /\
    Forall2 same_value xs (fst (on_map_all os ∅)) /\ forall key, value_at (abs t') key = value_at (snd (on_map_all os ∅)) key.
Proof.
  intros Hz Hv Hb Hc. destruct (init_within t0) as (t & -> & Hin & Ha). simpl. destruct (exec_all_refines (DenseMap_derived purge) 0 os t Hin Hv ltac:(lia)) as (xs & t' & Hr & Hp & _).
  rewrite Ha in Hp. exists xs, t'. split; [done|]. by apply (purging_run_values Hz os ∅ ∅).
Qed.

(** ** Rehashing *)

(** When few buckets are empty because of tombstones, the code means to rehash the table
    without growing it; [grow] rounds up to a power of two that is strictly greater, so the
    table has twice as many buckets afterwards. *)
Theorem rehash_doubles c t key o : within c t -> c < 2 ^ 25 -> valid key -> abs t !! key = None -> placed purge t key o ->
  (NumEntries t + 1) * 4 < getNumBuckets t * 3 -> getNumBuckets t - (NumEntries t + 1 + NumTombstones t) <= getNumBuckets t / 8 ->
  exists t' i, make_bucket_room purge (DenseMap_derived purge) key o t = Ret (t', Some i) /\ getNumBuckets t' = 2 * getNumBuckets t /\ NumTombstones t' = 0.
Proof.
  intros Hin Hc Hv Hno Hpl H1 H2. pose proof Hin as (Hok & Hsum & Hsz). pose proof (ok_counts _ Hok) as [HE HT]. pose proof (ok_room _ Hok) as Hroom.
  unfold make_bucket_room. rewrite (wrap_id 32 (NumEntries t + 1)) by (unfold in_u; lia). rewrite !(wrap_id 32 (_ * _)) by (unfold in_u; lia). rewrite (proj2 (Z.leb_gt _ _)) by lia. simpl.
  rewrite (wrap_id 32 (_ + NumTombstones t)), (wrap_id 32 (_ - _)) by (unfold in_u; lia). rewrite (proj2 (Z.leb_le _ _)) by lia.
  destruct (grow_and_lookup_spec purge (DenseMap_derived purge) c (c + 1) t key (getNumBuckets t) Hin Hv Hno ltac:(lia) ltac:(lia) ltac:(pose proof (Z.mul_div_le (getNumBuckets t) 8 ltac:(lia)); lia) ltac:(lia)) as (t' & i & b & -> & Hr & HT' & _ & Hn & H4).
  exists t', (Z.of_nat i). split_and!; [done| |done]. destruct (rm_wf _ _ _ _ _ _ _ Hr) as (k' & Hwf' & _). destruct Hok as [(HB & _)|(k & Hwf)]; [unfold getNumBuckets in H1; rewrite HB in H1; simpl in H1; lia|].
  unfold getNumBuckets in *. rewrite (wf_len _ _ Hwf), (wf_len _ _ Hwf') in *. assert (k < k') by (apply (Z.pow_lt_mono_r_iff 2); [lia|pose proof (wf_k _ _ Hwf'); lia|lia]).
  pose proof (wf_k _ _ Hwf). assert (2 ^ (k + 1) <= 2 ^ k') by (apply Z.pow_le_mono_r; lia). rewrite Z.pow_add_r in * by lia. destruct (Z.eq_dec k 0) as [->|]; [simpl in *; lia|]. assert (2 ^ 1 <= 2 ^ k) by (apply Z.pow_le_mono_r; lia). lia.
Qed.

(** ** Iteration *)

Lemma iterate_from (t : table) fuel l pre : Buckets t = pre ++ l -> (length l < fuel)%nat ->
  iterate fuel t (AdvancePastEmptyBuckets l (Z.of_nat (length pre))) = Ret (filter (fun b => has_value b = true) l).
Proof.
  revert fuel pre. induction l as [|b l IH]; intros fuel pre HB Hf; simpl.
  - destruct fuel as [|fuel]; [simpl in Hf; lia|]. simpl. unfold dm_end, getNumBuckets. rewrite HB, app_nil_r, Z.eqb_refl. done.
  - assert (Hl : Z.of_nat (length pre) + 1 = Z.of_nat (length (pre ++ [b]))) by (rewrite length_app; simpl; lia). assert (HB' : Buckets t = (pre ++ [b]) ++ l) by (by rewrite <- app_assoc).
    rewrite filter_cons. simpl in Hf. destruct (has_value b) eqn:E; (case_decide as Hd; [|try done]; try done).
    + pose proof E as E'. unfold has_value in E'. rewrite <- negb_orb in E'. apply negb_true_iff in E'. rewrite E'. destruct fuel as [|fuel]; [lia|]. simpl.
      assert (Hb : Buckets t !! length pre = Some b) by (rewrite HB; by apply list_lookup_middle). rewrite (found_not_end t _ b Hb). unfold bucket. rewrite Nat2Z.id, Hb. simpl. unfold dm_next.
      rewrite Hl. replace (drop (Z.to_nat (Z.of_nat (length (pre ++ [b])))) (Buckets t)) with l by (rewrite Nat2Z.id, HB'; by rewrite drop_app_length).
      by rewrite (IH fuel (pre ++ [b]) HB' ltac:(lia)).
    + unfold has_value in E. rewrite <- negb_orb in E. apply negb_false_iff in E. rewrite E, Hl. apply IH; [done|lia].
Qed.

(** A loop from [begin()] to [end()] ends and comes to every entry of the map once. *)
Theorem dense_map_iterates (t : table) : ok t -> exists bs, iterate (S (length (Buckets t))) t (dm_begin t) = Ret bs /\ omap entry_of bs ≡ₚ map_to_list (abs t).
Proof.
  intros Hok. exists (filter (fun b => has_value b = true) (Buckets t)). assert (Hom : omap entry_of (filter (fun b : BucketT K V => has_value b = true) (Buckets t)) = omap entry_of (Buckets t)).
  { induction (Buckets t) as [|b l IH]; [done|]. rewrite filter_cons. case_decide as Hd; csimpl; [by rewrite IH|]. unfold entry_of at 2. apply not_true_is_false in Hd. by rewrite Hd. }
  split; [|rewrite Hom; symmetry; unfold abs; apply map_to_list_to_map; by apply entries_NoDup, ok_movable].
  unfold dm_begin. destruct (dm_empty t) eqn:E; [|apply (iterate_from t _ (Buckets t) []); [done|lia]]. unfold dm_empty in E. zbool.
  assert (Hnil : filter (fun b : BucketT K V => has_value b = true) (Buckets t) = []).
  { destruct Hok as [(-> & _)|(k & Hwf)]; [done|]. rewrite (wf_entries _ _ Hwf) in E. unfold countb in E. apply nil_length_inv. lia. }
  rewrite Hnil. simpl. unfold dm_end. by rewrite Z.eqb_refl.
Qed.

End Run.

(** ** The inline buckets of a [SmallDenseMap] *)

Section Inline.
Context {K V : Type} `{info : DenseMapInfo K} `{laws : !DenseMapInfoLaws K} `{vinfo : ValueInfo V} {heap : Heap K V}.
Context (purge : bool) (InlineBuckets : Z).
#[local] Abbreviation table := (dmap K V).

(** Asked for its inline size a map with inline buckets does nothing, tombstones or not. *)
Lemma Small_grow_nothing (t : table) n : Small t = true -> n <= InlineBuckets -> Small_grow purge InlineBuckets n t = Ret t.
Proof.
  intros Hs Hn. unfold Small_grow. destruct (InlineBuckets <? n) eqn:E; zbool; [lia|]. rewrite Hs.
  by destruct (n <=? InlineBuckets) eqn:E2; zbool; [|lia].
Qed.

(** Where one bucket is empty and it gets a key, none is. *)
Lemma last_empty_taken k (t : table) i b key v : wf k t -> NumEntries t + NumTombstones t = 2 ^ k - 1 ->
  Buckets t !! i = Some b -> b_first b = getEmptyKey -> key <> getEmptyKey -> no_empty (<[i := mk_bkt key (Some v)]> (Buckets t)).
Proof.
  intros Hwf Hone Hi Hb Hk j c Hj Hc. pose proof (countb_total (Buckets t)) as Htot.
  rewrite <- (wf_entries _ _ Hwf), <- (wf_tombs _ _ Hwf), (wf_len _ _ Hwf) in Htot.
  pose proof (countb_insert emptyb (Buckets t) i b (mk_bkt key (Some v)) Hi) as Hcount.
  assert (emptyb b = true) as E1 by (by apply is_empty_key_true). rewrite E1 in Hcount.
  assert (emptyb (mk_bkt key (Some v)) = false) as E2 by (by apply is_empty_key_false). rewrite E2 in Hcount.
  assert (emptyb c = false) as E3 by (eapply countb_none; [|exact Hj]; lia).
  apply is_empty_key_false in E3. done.
Qed.

(** C36. In a map whose inline buckets hold so many tombstones that one bucket is empty, though it
    has few entries, a new key whose search ends at that bucket is entered there: [grow] is asked
    to rehash at the same size and, for inline buckets, returns at once.  No bucket is empty then, and from
    there on every search for a key that is not in the map ends in the fatal error for corrupted tables. *)
Theorem small_dense_map_gets_stuck k (t : table) key v i b :
  wf k t -> k <= 30 -> Small t = true -> InlineBuckets = 2 ^ k ->
  NumEntries t + NumTombstones t = 2 ^ k - 1 -> 4 * (NumEntries t + 1) < 3 * 2 ^ k ->
  valid key -> LookupBucketFor purge key t = Ret (false, Some i) -> bucket t i = Some b -> b_first b = getEmptyKey ->
  exists t', dm_insert purge (SmallDenseMap_derived purge InlineBuckets) key v t = Ret (t', (i, true)) /\
    Buckets t' = <[Z.to_nat i := mk_bkt key (Some v)]> (Buckets t) /\
    forall other, absent (Buckets t') other -> LookupBucketFor purge other t' = Fault.
Proof.
  intros Hwf Hk Hs Hin Hone Hfew Hv Hl Hb He. pose proof (wf_k _ _ Hwf) as Hk'. pose proof (wf_len _ _ Hwf) as Hlen.
  assert (0 < 2 ^ k <= 2 ^ 30) by (split; [apply Z.pow_pos_nonneg; lia|apply Z.pow_le_mono_r; lia]).
  assert (0 <= NumEntries t) by (rewrite (wf_entries _ _ Hwf); apply countb_nonneg).
  assert (0 <= NumTombstones t) by (rewrite (wf_tombs _ _ Hwf); apply countb_nonneg).
  assert (Hroom : make_bucket_room purge (SmallDenseMap_derived purge InlineBuckets) key (Some i) t = Ret (t, Some i)).
  { unfold make_bucket_room, getNumBuckets. rewrite Hlen. rewrite (wrap_id 32 (NumEntries t + 1)) by (unfold in_u; lia).
    rewrite (wrap_id 32 (2 ^ k * 3)), (wrap_id 32 ((NumEntries t + 1) * 4)) by (unfold in_u; lia).
    destruct (2 ^ k * 3 <=? (NumEntries t + 1) * 4) eqn:E1; zbool; [lia|]. cbn [obind].
    unfold getNumBuckets. rewrite Hlen, (wrap_id 32 (NumEntries t + 1 + NumTombstones t)) by (unfold in_u; lia).
    replace (2 ^ k - (NumEntries t + 1 + NumTombstones t)) with 0 by lia.
    change (u32 0) with 0. destruct (0 <=? 2 ^ k / 8) eqn:E2; zbool; [|pose proof (Z.div_pos (2 ^ k) 8); lia].
    unfold grow_and_lookup. simpl. rewrite Small_grow_nothing by (done || lia). cbn [obind]. by rewrite Hl. }
  eexists. split; [|split].
  - unfold dm_insert. rewrite Hl. cbn [obind]. unfold InsertIntoBucket, InsertIntoBucketImpl. rewrite Hroom. cbn [obind of_option].
    rewrite Hb. cbn [obind of_option]. rewrite (proj2 (is_empty_key_true (b_first b)) He). reflexivity.
  - done.
  - intros other Habs. apply (LookupBucketFor_full purge k); [lia| | |done].
    + simpl. by rewrite length_insert.
    + simpl. eapply last_empty_taken; [done..|apply Hv].
Qed.

End Inline.
