(* ===== verification/DenseMapInfo.v ===== *)
(** * The keys of dense hash maps

    llvm-DenseMapInfo.h: for every type of keys the empty key, the tombstone, the hash and the
    comparison, with the two facts that the maps rely on.  C strings are left out: their
    comparison reads the characters of the empty key. *)

From Stdlib Require Import ZArith Lia Bool.
From stdpp Require Import base list.
From S2P Require Import Prelude WeakTable DenseMap.

Local Open Scope Z_scope.

(** [T*] *)
Definition pointer_info : DenseMapInfo Z :=
  {| getEmptyKey := u64 (-1); getTombstoneKey := u64 (-2); getHashValue := ptr_hash; isEqual := Z.eqb |}.

(** [DisguisedPtr<T>]: the key is the disguised word; the hash takes the pointer. *)
Definition disguised_info : DenseMapInfo Z :=
  {| getEmptyKey := disguise (u64 (-1)); getTombstoneKey := disguise (u64 (-2)); getHashValue := fun key => ptr_hash (undisguise key); isEqual := Z.eqb |}.

Definition char_info : DenseMapInfo Z :=
  {| getEmptyKey := swrap 8 (Z.lnot 0); getTombstoneKey := swrap 8 (Z.lnot 0 - 1); getHashValue := fun Val => u32 (Val * 37); isEqual := Z.eqb |}.

Definition unsigned_info : DenseMapInfo Z :=
  {| getEmptyKey := u32 (Z.lnot 0); getTombstoneKey := u32 (u32 (Z.lnot 0) - 1); getHashValue := fun Val => u32 (Val * 37); isEqual := Z.eqb |}.

(** [unsigned long] and [unsigned long long] *)
Definition unsigned_long_info : DenseMapInfo Z :=
  {| getEmptyKey := u64 (Z.lnot 0); getTombstoneKey := u64 (u64 (Z.lnot 0) - 1); getHashValue := fun Val => u32 (u64 (Val * 37)); isEqual := Z.eqb |}.

Definition int_info : DenseMapInfo Z :=
  {| getEmptyKey := 0x7fffffff; getTombstoneKey := -0x7fffffff - 1; getHashValue := fun Val => u32 (Val * 37); isEqual := Z.eqb |}.

Definition long_info : DenseMapInfo Z :=
  {| getEmptyKey := u64 (u64 (Z.shiftl 1 (8 * 8 - 1)) - 1); getTombstoneKey := u64 (u64 (Z.shiftl 1 (8 * 8 - 1)) - 1) - 1;
     getHashValue := fun Val => u32 (u64 (Val * 37)); isEqual := Z.eqb |}.

Definition long_long_info : DenseMapInfo Z :=
  {| getEmptyKey := 0x7fffffffffffffff; getTombstoneKey := -0x7fffffffffffffff - 1; getHashValue := fun Val => u32 (u64 (Val * 37)); isEqual := Z.eqb |}.

(** The mixing of the hashes of a pair. *)
Definition pair_hash (first second : Z) : Z :=
  let key := Z.lor (u64 (Z.shiftl first 32)) second in
  let key := u64 (key + u64 (Z.lnot (u64 (Z.shiftl key 32)))) in
  let key := Z.lxor key (Z.shiftr key 22) in
  let key := u64 (key + u64 (Z.lnot (u64 (Z.shiftl key 13)))) in
  let key := Z.lxor key (Z.shiftr key 8) in
  let key := u64 (key + u64 (Z.shiftl key 3)) in
  let key := Z.lxor key (Z.shiftr key 15) in
  let key := u64 (key + u64 (Z.lnot (u64 (Z.shiftl key 27)))) in
  let key := Z.lxor key (Z.shiftr key 31) in
  u32 key.

Definition pair_info {T U} (FirstInfo : DenseMapInfo T) (SecondInfo : DenseMapInfo U) : DenseMapInfo (T * U) :=
  {| getEmptyKey := (@getEmptyKey T FirstInfo, @getEmptyKey U SecondInfo);
     getTombstoneKey := (@getTombstoneKey T FirstInfo, @getTombstoneKey U SecondInfo);
     getHashValue := fun p => pair_hash (@getHashValue T FirstInfo (fst p)) (@getHashValue U SecondInfo (snd p));
     isEqual := fun p q => @isEqual T FirstInfo (fst p) (fst q) && @isEqual U SecondInfo (snd p) (snd q) |}.

(** ** The laws *)

#[export] Instance pointer_laws : @DenseMapInfoLaws Z pointer_info.
Proof. split; [apply Z.eqb_eq|done]. Qed.
#[export] Instance disguised_laws : @DenseMapInfoLaws Z disguised_info.
Proof. split; [apply Z.eqb_eq|done]. Qed.
#[export] Instance char_laws : @DenseMapInfoLaws Z char_info.
Proof. split; [apply Z.eqb_eq|done]. Qed.
#[export] Instance unsigned_laws : @DenseMapInfoLaws Z unsigned_info.
Proof. split; [apply Z.eqb_eq|done]. Qed.
#[export] Instance unsigned_long_laws : @DenseMapInfoLaws Z unsigned_long_info.
Proof. split; [apply Z.eqb_eq|done]. Qed.
#[export] Instance int_laws : @DenseMapInfoLaws Z int_info.
Proof. split; [apply Z.eqb_eq|done]. Qed.
#[export] Instance long_laws : @DenseMapInfoLaws Z long_info.
Proof. split; [apply Z.eqb_eq|done]. Qed.
#[export] Instance long_long_laws : @DenseMapInfoLaws Z long_long_info.
Proof. split; [apply Z.eqb_eq|done]. Qed.

#[export] Instance pair_laws {T U} (i1 : DenseMapInfo T) (i2 : DenseMapInfo U) :
  @DenseMapInfoLaws T i1 -> @DenseMapInfoLaws U i2 -> @DenseMapInfoLaws (T * U) (pair_info i1 i2).
Proof.
  intros L1 L2. split; simpl.
  - intros [x1 x2] [y1 y2]. simpl. rewrite andb_true_iff, !isEqual_spec. split; [by intros [-> ->]|by intros [= -> ->]].
  - intros E. injection E as E _. by apply (@empty_not_tombstone T i1 L1).
Qed.

(** [size_t] values *)
Definition size_t_info : ValueInfo Z := {| value_init := 0; is_zero := Z.eqb 0 |}.
