(* ===== verification/RefcountZeros.v ===== *)
(** * Retain counts and zeros

    The table of the retain counts ([RefcountMap], a [DenseMap]) may drop entries whose value
    is zero.  The code of the side tables cannot tell: on states that differ only in such
    entries every operation on retain counts does the same. *)

From Stdlib Require Import ZArith Lia Bool.
From stdpp Require Import base list gmap.
From S2P Require Import Prelude RetainCount ObjectSpec.

Local Open Scope Z_scope.
Local Open Scope rc_scope.

(** The states agree, a missing count being zero. *)
Record same_counts (s s' : rcs) : Prop := {
  sc_isas : isas s = isas s';
  sc_counts : forall this, default 0 (refcnts s !! this) = default 0 (refcnts s' !! this);
  sc_held : held s = held s';
  sc_stores : stores s = stores s';
  sc_notices : notices s = notices s';
}.

#[export] Instance same_counts_equiv : Equivalence same_counts.
Proof.
  split.
  - by split.
  - intros s s' []. split; intros; symmetry; auto.
  - intros s1 s2 s3 [] []. split; intros; etransitivity; eauto.
Qed.

Definition same_outcome {A} (o o' : outcome (A * rcs)) : Prop :=
  match o, o' with
  | Ret (x, s), Ret (y, s') => x = y /\ same_counts s s'
  | Fault, Fault | OutOfFuel, OutOfFuel => True
  | _, _ => False
  end.

Lemma same_outcome_sym {A} (o o' : outcome (A * rcs)) : same_outcome o o' -> same_outcome o' o.
Proof. destruct o as [[x s]| |], o' as [[y s']| |]; simpl; try done. intros [-> Hs]. split; [done|by symmetry]. Qed.

(** A computation that does not look at zeros. *)
Definition ignores {A} (c : RM A) : Prop := forall s s', same_counts s s' -> same_outcome (c s) (c s').

Create HintDb zeros.

Lemma ignores_ret {A} (x : A) : ignores (rret x).
Proof. by intros s s' Hs. Qed.
Lemma ignores_fault {A} : ignores (rfault (A := A)).
Proof. by intros s s' Hs. Qed.
Lemma ignores_timeout {A} : ignores (rtimeout (A := A)).
Proof. by intros s s' Hs. Qed.

Lemma ignores_bind {A B} (c : RM A) (k : A -> RM B) : ignores c -> (forall x, ignores (k x)) -> ignores (rbnd c k).
Proof. intros Hc Hk s s' Hs. specialize (Hc s s' Hs). unfold rbnd. destruct (c s) as [[x t]| |], (c s') as [[y t']| |]; simpl in Hc; try done. destruct Hc as [-> Ht]. by apply Hk. Qed.

Lemma ignores_if {A} (b : bool) (c c' : RM A) : ignores c -> ignores c' -> ignores (if b then c else c').
Proof. by destruct b. Qed.

Lemma ignores_assert b : ignores (rassert b).
Proof. by destruct b. Qed.

Lemma ignores_load this : ignores (LoadExclusive this).
Proof. intros s s' Hs. unfold LoadExclusive. rewrite <- (sc_isas _ _ Hs). by destruct (isas s !! this). Qed.

Lemma ignores_store this v : ignores (StoreExclusive this v).
Proof.
  intros s s' [H1 H2 H3 H4 H5]. unfold StoreExclusive. rewrite <- H1, <- H4. destruct (isas s !! this); [|done]. destruct (stores s) as [|[] rest]; simpl; (split; [done|]); split; simpl; congruence || done.
Qed.

Lemma ignores_notify n : ignores (notify n).
Proof. intros s s' [H1 H2 H3 H4 H5]. split; [done|]. split; simpl; congruence || done. Qed.

Lemma ignores_lock i : ignores (lock_stripe i).
Proof. intros s s' [H1 H2 H3 H4 H5]. unfold lock_stripe. rewrite <- H3. case_decide; [done|]. split; [done|]. split; simpl; congruence || done. Qed.

Lemma ignores_unlock i : ignores (unlock_stripe i).
Proof. intros s s' [H1 H2 H3 H4 H5]. unfold unlock_stripe. rewrite <- H3. case_decide; [|done]. split; [done|]. split; simpl; congruence || done. Qed.

Lemma ignores_get this : ignores (refcnt_get this).
Proof. intros s s' Hs. split; [by apply sc_counts|done]. Qed.

Lemma ignores_set this v : ignores (refcnt_set this v).
Proof.
  intros s s' [H1 H2 H3 H4 H5]. split; [done|]. split; simpl; try done. intros x. destruct (decide (x = this)) as [->|Hne]; [by rewrite !lookup_insert_eq|by rewrite !lookup_insert_ne].
Qed.

(** After a search: a missing entry is treated like an entry of zero. *)
Lemma ignores_find {A} this (k : option Z -> RM A) : (forall o, ignores (k o)) -> k None = k (Some 0) -> ignores (rbnd (refcnt_find this) k).
Proof.
  intros Hk E s s' Hs. unfold rbnd, refcnt_find. pose proof (sc_counts _ _ Hs this) as Hc. destruct (refcnts s !! this) as [v|], (refcnts s' !! this) as [w|]; simpl in Hc.
  - rewrite Hc. by apply Hk.
  - rewrite Hc, E. by apply Hk.
  - rewrite <- Hc, E. by apply Hk.
  - by apply Hk.
Qed.

#[export] Hint Resolve ignores_ret ignores_fault ignores_timeout ignores_assert ignores_load ignores_store ignores_notify ignores_lock ignores_unlock ignores_get ignores_set : zeros.

(** Goes through a computation. *)
Ltac ignoring :=
  repeat first
    [ solve [auto with zeros]
    | progress intros
    | apply ignores_find
    | apply ignores_bind
    | apply ignores_if
    | progress cbv zeta
    | match goal with
      | |- ignores (match ?x with _ => _ end) => destruct x
      end
    | reflexivity ].

Section Arch.
Context (a : arch).

Lemma ignores_assert_isa this np : ignores (assert_isa this np).
Proof. unfold assert_isa. ignoring. Qed.
Lemma ignores_assert_no_flags v : ignores (assert_no_flags v).
Proof. unfold assert_no_flags. ignoring. Qed.
Lemma ignores_sidetable_lock this : ignores (sidetable_lock a this).
Proof. apply ignores_lock. Qed.
Lemma ignores_sidetable_unlock this : ignores (sidetable_unlock a this).
Proof. apply ignores_unlock. Qed.
Lemma ignores_unlock_if b this : ignores (unlock_if a b this).
Proof. unfold unlock_if. destruct b; [apply ignores_unlock|apply ignores_ret]. Qed.

#[local] Hint Resolve ignores_assert_isa ignores_assert_no_flags ignores_sidetable_lock ignores_sidetable_unlock ignores_unlock_if : zeros.

Lemma ignores_moveExtraRC this extra d w : ignores (sidetable_moveExtraRC_nolock this extra d w).
Proof. unfold sidetable_moveExtraRC_nolock. ignoring. Qed.
Lemma ignores_addExtraRC this delta : ignores (sidetable_addExtraRC_nolock this delta).
Proof. unfold sidetable_addExtraRC_nolock. ignoring. Qed.
Lemma ignores_subExtraRC this delta : ignores (sidetable_subExtraRC_nolock this delta).
Proof. unfold sidetable_subExtraRC_nolock. ignoring. Qed.
Lemma ignores_getExtraRC this : ignores (sidetable_getExtraRC_nolock this).
Proof. unfold sidetable_getExtraRC_nolock. ignoring. Qed.
Lemma ignores_sidetable_retain this : ignores (sidetable_retain a this).
Proof. unfold sidetable_retain. ignoring. Qed.
Lemma ignores_sidetable_tryRetain this : ignores (sidetable_tryRetain this).
Proof. unfold sidetable_tryRetain. ignoring. Qed.
Lemma ignores_sidetable_retainCount this : ignores (sidetable_retainCount a this).
Proof. unfold sidetable_retainCount. ignoring. Qed.
Lemma ignores_sidetable_release this p : ignores (sidetable_release a this p).
Proof. unfold sidetable_release. ignoring. Qed.
Lemma ignores_sidetable_setWeaklyReferenced this : ignores (sidetable_setWeaklyReferenced_nolock this).
Proof. unfold sidetable_setWeaklyReferenced_nolock. ignoring. Qed.

#[local] Hint Resolve ignores_moveExtraRC ignores_addExtraRC ignores_subExtraRC ignores_getExtraRC ignores_sidetable_retain ignores_sidetable_tryRetain
  ignores_sidetable_retainCount ignores_sidetable_release ignores_sidetable_setWeaklyReferenced : zeros.

Lemma ignores_rootRetain_loop fuel this t h l : ignores (rootRetain_loop a fuel this t h l).
Proof. revert h l. induction fuel as [|fuel IH]; intros h l; simpl; ignoring. Qed.

Lemma ignores_store_borrowed this isa b : ignores (store_borrowed a this isa b).
Proof. unfold store_borrowed. ignoring. Qed.
Lemma ignores_really_deallocate retry this isa p l : (forall b, ignores (retry b)) -> ignores (really_deallocate a retry this isa p l).
Proof. intros Hr. unfold really_deallocate. ignoring. Qed.
#[local] Hint Resolve ignores_rootRetain_loop ignores_store_borrowed ignores_really_deallocate : zeros.

Lemma ignores_rootRelease_loop fuel this p h l : ignores (rootRelease_loop a fuel this p h l).
Proof. revert h l. induction fuel as [|fuel IH]; intros h l; simpl; ignoring. Qed.
Lemma ignores_changeIsa_loop fuel this c l : ignores (changeIsa_loop a fuel this c l).
Proof. revert l. induction fuel as [|fuel IH]; intros l; simpl; ignoring. Qed.
Lemma ignores_setWeaklyReferenced fuel this : ignores (setWeaklyReferenced_nolock a fuel this).
Proof. induction fuel as [|fuel IH]; simpl; ignoring. Qed.

#[local] Hint Resolve ignores_rootRelease_loop ignores_changeIsa_loop ignores_setWeaklyReferenced : zeros.

Lemma ignores_rc_step fuel this op : ignores (rc_step a fuel this op).
Proof. unfold rc_step. destruct op; unfold rootRetain, rootTryRetain, rootRelease, rootRelease_with, rootRetain_with, rootRetainCount, changeIsa; ignoring. Qed.

(** C35. The table of retain counts may drop its zeros at any time: from two states that differ
    only in entries of zero, every sequence of retains, attempts to retain, releases, counts,
    class changes and weak marks returns the same, ends in states that again differ only in
    such entries, and faults in one if it faults in the other. *)
Theorem retain_counts_ignore_zeros fuel this ops s s' : same_counts s s' -> same_outcome (rc_run a fuel this ops s) (rc_run a fuel this ops s').
Proof.
  revert s s'. change (ignores (rc_run a fuel this ops)). induction ops as [|op ops IH]; simpl; [apply ignores_ret|].
  apply ignores_bind; [apply ignores_rc_step|]. intros x. apply ignores_bind; [done|]. intros xs. apply ignores_ret.
Qed.

End Arch.
