(* ===== verification/DenseSamples.v ===== *)
(** * Dense hash maps at work

    The inline buckets of [SmallDenseMap] can fill up with tombstones; the theorems about
    dense maps at concrete inputs. *)

From Stdlib Require Import ZArith Lia Bool.
From stdpp Require Import base list gmap.
From S2P Require Import Prelude RetainCount ObjectSpec WeakTable DenseMap DenseProbing DenseTable DenseUpdates DenseMapSpec DenseMapRun DenseMapInfo RefcountZeros.

Local Open Scope Z_scope.

(** Memory that is not cleared. *)
#[local] Instance old_memory : Heap Z Z := {| new_buckets n := replicate n (mk_bkt 77 (Some 5)); length_new_buckets n := length_replicate n _ |}.
#[local] Existing Instance size_t_info.

(** What a map object holds before its constructor runs. *)
Definition raw_map : dmap Z Z := mk_dmap true [] 3 4.

Section Unsigned.
#[local] Existing Instance unsigned_info.

(** ** Tombstones in the inline buckets *)

(** Two of three keys are erased again; the next one takes the last empty bucket. *)
Definition four_keys : list (mop Z Z) := [M_insert 0 10; M_insert 1 11; M_erase 0; M_insert 2 12; M_erase 1; M_insert 3 13].

Definition small_run (os : list (mop Z Z)) : outcome (list (mres Z) * dmap Z Z) :=
  let! t := Small_init 4 0 raw_map in exec_all false (SmallDenseMap_derived false 4) os t.

Definition dense_run (os : list (mop Z Z)) : outcome (list (mres Z) * dmap Z Z) :=
  let! t := DenseMap_init 0 raw_map in exec_all false (DenseMap_derived false) os t.

(** After these no bucket is empty, and the search for a missing key, which a [DenseMap] answers, is fatal. *)
Example four_keys_stuck :
  (exists xs t, small_run four_keys = Ret (xs, t) /\ NumEntries t = 2 /\ NumTombstones t = 2 /\ getNumBuckets t = 4) /\
  small_run (four_keys ++ [M_find 4]) = Fault /\
  exists xs t, dense_run (four_keys ++ [M_find 4]) = Ret (xs ++ [R_find None], t).
Proof.
  split; [|split].
  - eexists _, _. vm_compute. done.
  - vm_compute. done.
  - exists [R_bool true; R_bool true; R_bool true; R_bool true; R_bool true; R_bool true]. eexists. vm_compute. done.
Qed.

(** The map before its last insertion: one key, two tombstones, one empty bucket. *)
Definition three_used : dmap Z Z :=
  Eval vm_compute in match small_run (take 5 four_keys) with Ret (_, t) => t | _ => raw_map end.

Lemma three_used_bucket i b : Buckets three_used !! i = Some b -> valid (b_first b) -> i = 2%nat /\ b = mk_bkt 2 (Some 12).
Proof.
  intros Hi Hv. destruct i as [|[|[|[|i]]]]; simpl in Hi; try discriminate; injection Hi as <-;
    [destruct Hv as [_ []]; reflexivity|destruct Hv as [_ []]; reflexivity|done|destruct Hv as [[] _]; reflexivity].
Qed.

Lemma three_used_wf : wf 2 three_used.
Proof.
  split.
  - lia.
  - reflexivity.
  - reflexivity.
  - reflexivity.
  - reflexivity.
  - intros i b Hi Hv. destruct (three_used_bucket i b Hi Hv) as [-> ->]. eauto.
  - intros i b Hi Hv. destruct (three_used_bucket i b Hi Hv) as [-> ->]. exists 0. split_and!; [lia|lia|reflexivity|].
    intros j Hj. lia.
Qed.

(** ** The theorems at concrete inputs *)

Lemma small_dense_map_gets_stuck_witness : exists t',
  dm_insert false (SmallDenseMap_derived false 4) 3 13 three_used = Ret (t', (3, true)) /\ LookupBucketFor false 4 t' = Fault.
Proof.
  destruct (small_dense_map_gets_stuck false 4 2 three_used 3 13 3 (mk_bkt 0xffffffff (Some 5)) three_used_wf)
    as (t' & Hrun & Hb & Hstuck).
  - lia.
  - reflexivity.
  - reflexivity.
  - reflexivity.
  - vm_compute. reflexivity.
  - vm_compute. done.
  - vm_compute. reflexivity.
  - vm_compute. reflexivity.
  - vm_compute. reflexivity.
  - exists t'. split; [exact Hrun|]. apply Hstuck. rewrite Hb. intros i b Hi E.
    destruct i as [|[|[|[|i]]]]; vm_compute in Hi; try discriminate; injection Hi as <-; vm_compute in E; discriminate.
Defined.

(** A sequence with a collision, a tombstone that is taken again and a larger array. *)
Definition some_operations : list (mop Z Z) :=
  [M_insert 8 1; M_set 12 0; M_get 16; M_set 16 3; M_erase 8; M_set 20 4; M_find 12; M_set 5 5; M_lookup 16; M_resize 40; M_compact; M_find 20].

Lemma some_operations_valid : Forall op_valid some_operations.
Proof. repeat constructor; vm_compute; done. Qed.

Lemma dense_map_refines_witness :
  exists xs t', (let! t := DenseMap_init 0 raw_map in exec_all true (DenseMap_derived true) some_operations t) = Ret (xs, t') /\ purging_run true some_operations ∅ xs (abs t').
Proof. apply (dense_map_refines true some_operations raw_map some_operations_valid). vm_compute. done. Defined.

Lemma dense_map_exact_witness :
  exists t', (let! t := DenseMap_init 0 raw_map in exec_all false (DenseMap_derived false) some_operations t) = Ret (fst (on_map_all some_operations ∅), t') /\
    abs t' = snd (on_map_all some_operations ∅).
Proof. apply (dense_map_exact false some_operations raw_map eq_refl some_operations_valid). vm_compute. done. Defined.

(** Keys are put in and taken out of eight buckets, one after the other. *)
Definition many_tombstones : list (mop Z Z) := [M_resize 4; M_insert 0 9; M_insert 1 9; M_erase 1; M_insert 2 9; M_erase 2; M_insert 3 9; M_erase 3; M_insert 4 9; M_erase 4; M_insert 5 9; M_erase 5].

Definition tombstone_table : dmap Z Z := match dense_run many_tombstones with Ret (_, t) => t | _ => raw_map end.

Lemma tombstone_table_within : within 10 tombstone_table.
Proof.
  destruct (init_within raw_map) as (t & Ht & Hin & _). destruct (exec_all_refines false (DenseMap_derived false) 0 many_tombstones t Hin) as (xs & t' & Hr & _ & Hin').
  - repeat constructor; vm_compute; done.
  - vm_compute. done.
  - unfold tombstone_table, dense_run. rewrite Ht. cbn [obind]. rewrite Hr. exact Hin'.
Qed.

Lemma tombstone_table_counts : NumEntries tombstone_table = 1 /\ NumTombstones tombstone_table = 5 /\ getNumBuckets tombstone_table = 8 /\ abs tombstone_table !! 6 = None.
Proof. vm_compute. done. Qed.

Lemma six_valid : valid 6.
Proof. vm_compute. done. Qed.

Lemma rehash_doubles_witness : exists t' i o, make_bucket_room false (DenseMap_derived false) 6 o tombstone_table = Ret (t', Some i) /\ getNumBuckets t' = 2 * getNumBuckets tombstone_table /\ NumTombstones t' = 0.
Proof.
  pose proof tombstone_table_within as Hin. destruct tombstone_table_counts as (HE & HT & HN & Hno). revert Hin HE HT HN Hno. generalize tombstone_table. intros t Hin HE HT HN Hno.
  destruct (search_spec false t 6 (proj1 Hin) six_valid) as (r & _ & Hs). destruct Hs as [i v _ Hf|o _ Hpl]; [congruence|].
  destruct (rehash_doubles false 10 t 6 o Hin) as (t' & i & Hm & Hn & Ht); [lia|apply six_valid|exact Hno|exact Hpl|rewrite HE, HN; lia|rewrite HE, HT, HN; vm_compute; discriminate|].
  exists t', i, o. split; [exact Hm|]. split; [exact Hn|exact Ht].
Defined.

Lemma dense_map_iterates_witness : exists bs, iterate 9 tombstone_table (dm_begin tombstone_table) = Ret bs /\ omap entry_of bs ≡ₚ map_to_list (abs tombstone_table).
Proof. apply (dense_map_iterates tombstone_table). apply tombstone_table_within. Defined.

End Unsigned.

(** ** Retain counts *)

Section Refcounts.
#[local] Existing Instance disguised_info.

(** Counts of objects at two addresses that probe the same bucket: the first goes to zero and
    may be purged when the second is entered. *)
Definition count_operations : list (mop Z Z) :=
  [M_set (disguise 0x1000) 4; M_get (disguise 0x1000); M_set (disguise 0x1000) 0; M_set (disguise 0x2000) 8; M_set (disguise 0x3000) 12; M_set (disguise 0x4000) 16;
   M_find (disguise 0x1000); M_erase (disguise 0x2000); M_lookup (disguise 0x2000); M_lookup (disguise 0x4000)].

Lemma dense_map_values_witness :
  exists xs t', (let! t := DenseMap_init 0 raw_map in exec_all true (DenseMap_derived true) count_operations t) = Ret (xs, t') /\
    Forall2 same_value xs (fst (on_map_all count_operations ∅)) /\ forall key, value_at (abs t') key = value_at (snd (on_map_all count_operations ∅)) key.
Proof.
  apply (dense_map_values true count_operations raw_map).
  - intros v Hv. change ((0 =? v) = true) in Hv. apply Z.eqb_eq in Hv. by subst v.
  - repeat constructor; vm_compute; done.
  - repeat constructor.
  - vm_compute. done.
Defined.

(** An object whose count was raised and lowered again leaves an entry of zero; without the
    entry the next operations do the same. *)
Definition raw_object (counts : gmap Z Z) : rcs := mk_rcs {[0x1000 := 0x2000]} counts ∅ [] [].

Lemma retain_counts_ignore_zeros_witness :
  same_outcome (rc_run arm64 9 0x1000 [O_retain; O_retainCount; O_release; O_release] (raw_object {[0x1000 := 0]})) (rc_run arm64 9 0x1000 [O_retain; O_retainCount; O_release; O_release] (raw_object ∅)).
Proof.
  apply retain_counts_ignore_zeros. split; try done. intros this. simpl. rewrite lookup_empty. destruct (decide (this = 0x1000)) as [->|Hne]; [by rewrite lookup_singleton_eq|by rewrite lookup_singleton_ne].
Defined.

End Refcounts.
