(* ===== verification/ClassTree.v ===== *)
(** * The tree of classes

    The runtime's class objects at run time (objc-runtime-new.h and .mm): the
    links from a class to its superclass, its first subclass and its next
    sibling, the walk over a class and its subclasses that follows only these
    links, and the list of the root classes.  Here: the data and the walk; that
    it visits every subclass exactly once is shown in ClassTreeSpec.v. *)

From Stdlib Require Import ZArith Lia Bool String.
From stdpp Require Import base list gmap strings.
From S2P Require Import Prelude ObjCData MethodList.

Local Open Scope nat_scope.

(** ** Class objects *)

(** The address of a class object, of a method list. *)
Abbreviation Class := Z.
Abbreviation mlist_ptr := Z.

(** A function is its name; the null pointer has the empty name. *)
Abbreviation IMP := string.

(** The bits of the class the runtime keeps up to date when classes and methods
    are added; [RW_INITIALIZED] and [RW_INITIALIZING] are used on metaclasses only. *)
Inductive flag :=
| RW_INITIALIZED | RW_INITIALIZING | FAST_HAS_DEFAULT_RR | FAST_HAS_DEFAULT_AWZ
| FAST_HAS_CXX_CTOR | FAST_HAS_CXX_DTOR | FAST_REQUIRES_RAW_ISA.

#[export] Instance flag_eq_dec : EqDecision flag.
Proof. solve_decision. Defined.

#[export] Instance flag_countable : Countable flag.
Proof.
  refine (inj_countable'
    (fun f => match f with RW_INITIALIZED => 0 | FAST_HAS_DEFAULT_RR => 1 | FAST_HAS_DEFAULT_AWZ => 2
       | FAST_HAS_CXX_CTOR => 3 | FAST_HAS_CXX_DTOR => 4 | FAST_REQUIRES_RAW_ISA => 5 | RW_INITIALIZING => 6 end)
    (fun n => match n with 0 => RW_INITIALIZED | 1 => FAST_HAS_DEFAULT_RR | 2 => FAST_HAS_DEFAULT_AWZ
       | 3 => FAST_HAS_CXX_CTOR | 4 => FAST_HAS_CXX_DTOR | 5 => FAST_REQUIRES_RAW_ISA | _ => RW_INITIALIZING end) _).
  by intros [].
Defined.

Record class_t := mk_class {
  c_isa : Class;
  c_superclass : option Class;
  c_firstSubclass : option Class;
  c_nextSiblingClass : option Class;
  c_isMeta : bool;
  c_baseMethods : option mlist_ptr;
  c_methods : list_array_tt mlist_ptr;
  c_cache : gmap string IMP;
  c_flags : gset flag }.

(** The realized classes, the method lists in memory, and the variables of
    objc-runtime-new.mm: the first root class, the number of named classes and
    whether the methods of NSObject were changed before it was initialized. *)
Record runtime := mk_runtime {
  rt_classes : gmap Class class_t;
  rt_mlists : gmap mlist_ptr method_list_t;
  _firstRealizedClass : option Class;
  gdb_objc_realized_classes : nat;
  ClassNSObjectRRSwizzled : bool;
  MetaclassNSObjectAWZSwizzled : bool }.

(** ** Fields *)

Definition set_superclass (p : option Class) (c : class_t) : class_t :=
  mk_class (c_isa c) p (c_firstSubclass c) (c_nextSiblingClass c) (c_isMeta c) (c_baseMethods c) (c_methods c)
    (c_cache c) (c_flags c).
Definition set_firstSubclass (p : option Class) (c : class_t) : class_t :=
  mk_class (c_isa c) (c_superclass c) p (c_nextSiblingClass c) (c_isMeta c) (c_baseMethods c) (c_methods c)
    (c_cache c) (c_flags c).
Definition set_nextSiblingClass (p : option Class) (c : class_t) : class_t :=
  mk_class (c_isa c) (c_superclass c) (c_firstSubclass c) p (c_isMeta c) (c_baseMethods c) (c_methods c)
    (c_cache c) (c_flags c).
Definition set_methods (m : list_array_tt mlist_ptr) (c : class_t) : class_t :=
  mk_class (c_isa c) (c_superclass c) (c_firstSubclass c) (c_nextSiblingClass c) (c_isMeta c) (c_baseMethods c) m
    (c_cache c) (c_flags c).
Definition set_cache (m : gmap string IMP) (c : class_t) : class_t :=
  mk_class (c_isa c) (c_superclass c) (c_firstSubclass c) (c_nextSiblingClass c) (c_isMeta c) (c_baseMethods c)
    (c_methods c) m (c_flags c).
Definition set_flags (f : gset flag) (c : class_t) : class_t :=
  mk_class (c_isa c) (c_superclass c) (c_firstSubclass c) (c_nextSiblingClass c) (c_isMeta c) (c_baseMethods c)
    (c_methods c) (c_cache c) f.

Definition has_flag (f : flag) (c : class_t) : bool := bool_decide (f ∈ c_flags c).
Definition setBits (f : flag) (c : class_t) : class_t := set_flags ({[f]} ∪ c_flags c) c.
Definition clearBits (f : flag) (c : class_t) : class_t := set_flags (c_flags c ∖ {[f]}) c.

Definition with_classes (m : gmap Class class_t) (s : runtime) : runtime :=
  mk_runtime m (rt_mlists s) (_firstRealizedClass s) (gdb_objc_realized_classes s) (ClassNSObjectRRSwizzled s)
    (MetaclassNSObjectAWZSwizzled s).
Definition with_mlists (m : gmap mlist_ptr method_list_t) (s : runtime) : runtime :=
  mk_runtime (rt_classes s) m (_firstRealizedClass s) (gdb_objc_realized_classes s) (ClassNSObjectRRSwizzled s)
    (MetaclassNSObjectAWZSwizzled s).
Definition with_root (p : option Class) (s : runtime) : runtime :=
  mk_runtime (rt_classes s) (rt_mlists s) p (gdb_objc_realized_classes s) (ClassNSObjectRRSwizzled s)
    (MetaclassNSObjectAWZSwizzled s).

(** A read of a field through a bad pointer faults. *)
Definition class_at (s : runtime) (cls : Class) : outcome class_t := of_option (rt_classes s !! cls).

(** A write to the fields of a class. *)
Definition update (cls : Class) (f : class_t -> class_t) (s : runtime) : outcome runtime :=
  let! c := class_at s cls in Ret (with_classes (<[cls := f c]> (rt_classes s)) s).

(** ** The walk *)

Section Walk.
(** The classes of the shared cache are counted by the system. *)
Context (getPreoptimizedClassUnreasonableCount : nat).

Definition unreasonableClassCount (s : runtime) : nat :=
  (gdb_objc_realized_classes s + getPreoptimizedClassUnreasonableCount + 1) * 16.

(** The inner loop: up to the first class with a sibling, or to [top].  Where
    the counter reaches zero the program ends; it is never zero before. *)
Fixpoint climb (count : nat) (top cls : Class) (s : runtime) : outcome (nat * Class) :=
  let! c := class_at s cls in
  if bool_decide (c_nextSiblingClass c = None) && negb (cls =? top)%Z then
    let! super := of_option (c_superclass c) in
    match count with
    | O => Fault
    | S count' => if count' =? 0 then Fault else climb count' top super s
    end
  else Ret (count, cls).

(** The outer loop.  Every round takes one from the counter, so the counter is
    enough fuel. *)
Fixpoint foreach_realized_class_and_subclass_2 (k : nat) (top : Class) (count : nat) (cls : Class)
    (code : Class -> runtime -> outcome (bool * runtime)) (s : runtime) : outcome (nat * runtime) :=
  match k, count with
  | O, _ => OutOfFuel
  | _, O => Fault
  | S k', S count' =>
      if count' =? 0 then Fault else
      let! (go, s) := code cls s in
      if negb go then Ret (count', s) else
      let! c := class_at s cls in
      match c_firstSubclass c with
      | Some sub => foreach_realized_class_and_subclass_2 k' top count' sub code s
      | None =>
          let! (count'', cls) := climb count' top cls s in
          if (cls =? top)%Z then Ret (count'', s) else
          let! c := class_at s cls in
          let! sib := of_option (c_nextSiblingClass c) in
          foreach_realized_class_and_subclass_2 k' top count'' sib code s
      end
  end.

(** The callers' blocks do not stop the walk. *)
Definition always (code : Class -> runtime -> outcome runtime) : Class -> runtime -> outcome (bool * runtime) :=
  fun cls s => let! s := code cls s in Ret (true, s).

Definition foreach_realized_class_and_subclass (top : Class) (code : Class -> runtime -> outcome runtime)
    (s : runtime) : outcome runtime :=
  let count := unreasonableClassCount s in
  let! (_, s) := foreach_realized_class_and_subclass_2 count top count top (always code) s in
  Ret s.

(** The walk over the root classes shares the counter. *)
Fixpoint foreach_root (k : nat) (count : nat) (top : option Class) (code : Class -> runtime -> outcome runtime)
    (s : runtime) : outcome runtime :=
  match top with
  | None => Ret s
  | Some top =>
      match k with
      | O => OutOfFuel
      | S k' =>
          let! (count, s) := foreach_realized_class_and_subclass_2 count top count top (always code) s in
          let! c := class_at s top in
          foreach_root k' count (c_nextSiblingClass c) code s
      end
  end.

Definition foreach_realized_class_and_metaclass (code : Class -> runtime -> outcome runtime) (s : runtime)
  : outcome runtime :=
  let count := unreasonableClassCount s in
  foreach_root count count (_firstRealizedClass s) code s.

End Walk.
