(* ===== verification/ClassTreeSpec.v ===== *)
(** * The walk over the tree of classes

    The links of the class objects describe a forest: every class is in the
    list of the subclasses of its superclass, once, and superclasses do not go
    around in circles.  The walk of ClassTree.v, which keeps no stack, visits a
    class and all classes below it exactly once and ends before its counter
    does, if that is twice the number of classes; it gives up if the counter is
    at most the number of classes below. *)

From Stdlib Require Import ZArith Lia Bool String.
From stdpp Require Import base list gmap strings.
From S2P Require Import Prelude ObjCData MethodList ClassTree.

Local Open Scope nat_scope.

(** ** The forest *)

(** The list of siblings that starts at [p]. *)
Fixpoint siblings (s : runtime) (p : option Class) (l : list Class) : Prop :=
  match l with
  | [] => p = None
  | c :: l' => p = Some c /\ exists rc, rt_classes s !! c = Some rc /\ siblings s (c_nextSiblingClass rc) l'
  end.

(** [kids] gives the subclasses of a class, or the root classes, in the order of
    the links; [depth] grows from a class to its subclasses. *)
Record tree_ok (s : runtime) (kids : option Class -> list Class) (depth : Class -> nat) : Prop := mk_tree {
  t_roots : siblings s (_firstRealizedClass s) (kids None);
  t_subs : forall c rc, rt_classes s !! c = Some rc -> siblings s (c_firstSubclass rc) (kids (Some c));
  t_kids : forall p d, d ∈ kids p <-> exists rd, rt_classes s !! d = Some rd /\ c_superclass rd = p;
  t_nodup : forall p, NoDup (kids p);
  t_super : forall c rc p, rt_classes s !! c = Some rc -> c_superclass rc = Some p ->
    is_Some (rt_classes s !! p) /\ depth p < depth c }.

(** [sub s d top]: going up from [d] one comes to [top]. *)
Inductive sub (s : runtime) : Class -> Class -> Prop :=
| sub_refl c : is_Some (rt_classes s !! c) -> sub s c c
| sub_up d rd p top : rt_classes s !! d = Some rd -> c_superclass rd = Some p -> sub s p top -> sub s d top.

(** What the walk reads. *)
Definition links (c : class_t) : option Class * option Class * option Class :=
  (c_superclass c, c_firstSubclass c, c_nextSiblingClass c).

Definition same_links (s s' : runtime) : Prop :=
  (links <$> rt_classes s) = (links <$> rt_classes s') /\ _firstRealizedClass s = _firstRealizedClass s'.

#[export] Instance same_links_equiv : Equivalence same_links.
Proof. split; [done|by intros ? ? []|intros ? ? ? [] []; split; by etrans]. Qed.

Lemma same_links_at s s' c rc : same_links s s' -> rt_classes s !! c = Some rc ->
  exists rc', rt_classes s' !! c = Some rc' /\ links rc' = links rc.
Proof.
  intros [Hl _] Hc. assert (H : (links <$> rt_classes s') !! c = Some (links rc)).
  { rewrite <- Hl, lookup_fmap, Hc. done. }
  rewrite lookup_fmap in H. destruct (rt_classes s' !! c) as [rc'|]; [|done]. simpl in H. exists rc'. split; [done|]. congruence.
Qed.

Lemma same_links_dom s s' c : same_links s s' -> is_Some (rt_classes s !! c) -> is_Some (rt_classes s' !! c).
Proof. intros Hl [rc Hc]. destruct (same_links_at _ _ _ _ Hl Hc) as (rc' & -> & _). eauto. Qed.

(** A write to a class that leaves its links alone. *)
Lemma update_links c f s s' : (forall rc, links (f rc) = links rc) -> update c f s = Ret s' -> same_links s s'.
Proof.
  intros Hf H. unfold update, class_at in H. inv_ret. split; [|done]. simpl. rewrite fmap_insert, Hf.
  symmetry. apply insert_id. by rewrite lookup_fmap, Hx.
Qed.

Lemma update_at c f s rc : rt_classes s !! c = Some rc ->
  update c f s = Ret (with_classes (<[c := f rc]> (rt_classes s)) s).
Proof. intros Hc. unfold update, class_at. by rewrite Hc. Qed.

Lemma siblings_links s s' p l : same_links s s' -> siblings s p l -> siblings s' p l.
Proof.
  intros Hl. revert p. induction l as [|c l IH]; intros p; simpl; [done|]. intros [-> (rc & Hc & Hs)].
  split; [done|]. destruct (same_links_at _ _ _ _ Hl Hc) as (rc' & Hc' & He). exists rc'. split; [done|].
  injection He as _ _ ->. by apply IH.
Qed.

Lemma tree_ok_links s s' kids depth : same_links s s' -> tree_ok s kids depth -> tree_ok s' kids depth.
Proof.
  intros Hl [H1 H2 H3 H4 H5]. pose proof (symmetry Hl) as Hl'. split.
  - destruct Hl as [Hl0 <-]. by eapply siblings_links.
  - intros c rc Hc. destruct (same_links_at _ _ _ _ Hl' Hc) as (rc' & Hc' & He). injection He as _ <- _.
    eapply siblings_links; [done|]. by apply H2.
  - intros p d. rewrite H3. split; intros (rd & Hd & Hp).
    + destruct (same_links_at _ _ _ _ Hl Hd) as (rd' & Hd' & He). injection He as He _ _. exists rd'. by rewrite He.
    + destruct (same_links_at _ _ _ _ Hl' Hd) as (rd' & Hd' & He). injection He as He _ _. exists rd'. by rewrite He.
  - done.
  - intros c rc p Hc Hp. destruct (same_links_at _ _ _ _ Hl' Hc) as (rc' & Hc' & He). injection He as He _ _.
    destruct (H5 c rc' p Hc') as [Hd Hlt]; [congruence|]. split; [by eapply same_links_dom|done].
Qed.

Lemma sub_links s s' d top : same_links s s' -> sub s d top -> sub s' d top.
Proof.
  intros Hl. induction 1 as [c Hc|d rd p top Hd Hp _ IH].
  - constructor. by eapply same_links_dom.
  - destruct (same_links_at _ _ _ _ Hl Hd) as (rd' & Hd' & He). injection He as He _ _.
    econstructor; [done| |done]. congruence.
Qed.

(** *** Subclasses *)

Lemma sub_trans s a b c : sub s a b -> sub s b c -> sub s a c.
Proof. induction 1; [done|]. intros. econstructor; eauto. Qed.

Lemma sub_dom s d top : sub s d top -> is_Some (rt_classes s !! d).
Proof. induction 1; eauto. Qed.

Lemma sub_top_dom s d top : sub s d top -> is_Some (rt_classes s !! top).
Proof. induction 1; eauto. Qed.

(** The classes above a class are linearly ordered. *)
Lemma sub_linear s d a b : sub s d a -> sub s d b -> sub s a b \/ sub s b a.
Proof.
  induction 1 as [d Hd|d rd p a Hd Hp Ha IH]; [auto|]. inversion 1; subst.
  - right. econstructor; eauto.
  - apply IH. congruence.
Qed.

Section Forest.
Context (s0 : runtime) (kids : option Class -> list Class) (depth : Class -> nat) (T : tree_ok s0 kids depth).

Lemma sub_depth d top : sub s0 d top -> depth top <= depth d /\ (depth d = depth top -> d = top).
Proof.
  induction 1 as [|d rd p top Hd Hp _ [IH1 IH2]]; [done|].
  destruct (t_super _ _ _ T _ _ _ Hd Hp) as [_ Hlt]. lia.
Qed.

Lemma sub_antisym a b : sub s0 a b -> sub s0 b a -> a = b.
Proof. intros [H1 H2]%sub_depth [H3 H4]%sub_depth. apply H2. lia. Qed.

Lemma kid_sub c k : k ∈ kids (Some c) -> sub s0 k c /\ depth c < depth k.
Proof.
  intros (rd & Hd & Hp)%(t_kids _ _ _ T). destruct (t_super _ _ _ T _ _ _ Hd Hp) as [Hc Hlt].
  split; [|done]. econstructor; [done..|]. by constructor.
Qed.

(** Below a class is the class itself or what is below one of its subclasses. *)
Lemma sub_kid d top : sub s0 d top -> d = top \/ exists k, k ∈ kids (Some top) /\ sub s0 d k.
Proof.
  induction 1 as [|d rd p top Hd Hp Hs [->|(k & Hk & Hs')]]; [auto| |].
  - right. exists d. split; [|constructor; eauto]. apply (t_kids _ _ _ T). eauto.
  - right. exists k. split; [done|]. econstructor; eauto.
Qed.

Lemma depth_bound : exists M, forall c, is_Some (rt_classes s0 !! c) -> depth c <= M.
Proof.
  clear T. generalize (rt_classes s0). intros m. induction m as [|c rc m Hc [M IH]] using map_ind.
  - exists 0. intros c. rewrite lookup_empty. by intros [? [=]].
  - exists (max M (depth c)). intros d. destruct (decide (c = d)) as [->|Hn]; [lia|].
    rewrite lookup_insert_ne by done. intros Hd%IH. lia.
Qed.

(** *** The order of the visits: a class, then its subclasses one after the other *)

Fixpoint preorder (n : nat) (c : Class) : list Class :=
  c :: match n with O => [] | S n' => kids (Some c) ≫= preorder n' end.

Context (M : nat) (HM : forall c, is_Some (rt_classes s0 !! c) -> depth c <= M).

Lemma kid_high n c k : M <= n + depth c -> k ∈ kids (Some c) -> exists n', n = S n' /\ M <= n' + depth k.
Proof.
  intros Hn Hk. destruct (kid_sub _ _ Hk) as [Hs Hlt]. pose proof (HM k (sub_dom _ _ _ Hs)).
  destruct n as [|n]; [lia|]. exists n. split; [done|lia].
Qed.

Lemma preorder_sub n c d : is_Some (rt_classes s0 !! c) -> M <= n + depth c ->
  d ∈ preorder n c <-> sub s0 d c.
Proof.
  revert c. induction n as [|n IH]; intros c Hc Hn; split.
  - intros ->%list_elem_of_singleton. by constructor.
  - intros [->|(k & Hk & _)]%sub_kid; [by apply list_elem_of_singleton|].
    by destruct (kid_high _ _ _ Hn Hk) as (? & ? & _).
  - intros [->|Hd]%elem_of_cons; [by constructor|].
    apply list_elem_of_bind in Hd as (k & Hd & Hk). destruct (kid_high _ _ _ Hn Hk) as (? & [= <-] & Hk').
    destruct (kid_sub _ _ Hk) as [Hks _]. eapply sub_trans; [|done]. apply IH; [by eapply sub_dom|done|done].
  - intros [->|(k & Hk & Hs)]%sub_kid; apply elem_of_cons; [by left|right].
    destruct (kid_high _ _ _ Hn Hk) as (? & [= <-] & Hk'). apply list_elem_of_bind. exists k. split; [|done].
    apply IH; [by eapply sub_top_dom|done|done].
Qed.

Lemma kids_disjoint p k1 k2 d : k1 ∈ kids p -> k2 ∈ kids p -> sub s0 d k1 -> sub s0 d k2 -> k1 = k2.
Proof.
  assert (Hone : forall a b, a ∈ kids p -> b ∈ kids p -> sub s0 a b -> a = b).
  { intros a b (ra & Ha & Hpa)%(t_kids _ _ _ T) (rb & Hb & Hpb)%(t_kids _ _ _ T). inversion 1 as [|? ra' q ? Ha' Hq Hs]; subst; [done|].
    assert (c_superclass rb = Some q) as Hqb by congruence.
    destruct (t_super _ _ _ T _ _ _ Hb Hqb) as [_ Hlt]. apply sub_depth in Hs. lia. }
  intros H1 H2 Hd1 Hd2. destruct (sub_linear _ _ _ _ Hd1 Hd2) as [Hs|Hs]; [by apply Hone|].
  symmetry. by apply Hone.
Qed.

Lemma preorder_nodup n c : is_Some (rt_classes s0 !! c) -> M <= n + depth c -> NoDup (preorder n c).
Proof.
  revert c. induction n as [|n IH]; intros c Hc Hn; [apply NoDup_singleton|].
  assert (Hk : forall k, k ∈ kids (Some c) -> is_Some (rt_classes s0 !! k) /\ M <= n + depth k).
  { intros k Hk. destruct (kid_high _ _ _ Hn Hk) as (? & [= <-] & Hk'). split; [|done].
    eapply sub_dom, kid_sub, Hk. }
  constructor.
  - intros (k & Hd & Hkc)%list_elem_of_bind. destruct (Hk k Hkc) as [H1 H2]. apply preorder_sub in Hd; [|done..].
    destruct (kid_sub _ _ Hkc) as [Hks Hlt]. apply sub_depth in Hd. lia.
  - apply NoDup_bind; [| |apply (t_nodup _ _ _ T)].
    + intros k1 k2 d Hk1 Hk2 Hd1 Hd2. destruct (Hk k1 Hk1), (Hk k2 Hk2).
      apply preorder_sub in Hd1; [|done..]. apply preorder_sub in Hd2; [|done..]. by eapply kids_disjoint.
    + intros k Hkc. apply IH; by apply Hk.
Qed.

End Forest.

(** ** The walk visits in that order *)

(** The visits one after the other. *)
Fixpoint visit_all (code : Class -> runtime -> outcome runtime) (l : list Class) (s : runtime) : outcome runtime :=
  match l with [] => Ret s | c :: l' => let! s := code c s in visit_all code l' s end.

Lemma visit_all_app code l1 l2 s :
  visit_all code (l1 ++ l2) s = let! s := visit_all code l1 s in visit_all code l2 s.
Proof. revert s. induction l1 as [|c l1 IH]; intros s; simpl; [done|]. by destruct (code c s); simpl. Qed.

(** *** A smaller counter

    A walk with a smaller counter takes the same steps, and either ends with as
    much less in its counter or gives up. *)

Lemma climb_less c C top cls s C' d : c <= C -> 0 < c -> climb C top cls s = Ret (C', d) ->
  climb c top cls s = Fault \/
  exists c', climb c top cls s = Ret (c', d) /\ 0 < c' <= c /\ C' + c = C + c'.
Proof.
  revert C cls. induction c as [|c IH]; intros C cls Hc H0 Hrun; [lia|]. destruct C as [|C]; [lia|].
  cbn [climb] in Hrun |- *. destruct (class_at s cls) as [rc| |]; cbn [obind] in Hrun |- *; try done.
  destruct (_ && _); [|injection Hrun as <- <-; right; exists (S c); split_and!; [done|lia|lia|lia]].
  destruct (of_option _) as [p| |]; cbn [obind] in Hrun |- *; try done.
  destruct (Nat.eqb_spec C 0) as [|HC]; [done|]. destruct (Nat.eqb_spec c 0); [by left|].
  destruct (IH C p ltac:(lia) ltac:(lia) Hrun) as [->|(c' & -> & H1 & H2)]; [by left|].
  right. exists c'. split_and!; [done|lia|lia|lia].
Qed.

Lemma walk_less k K c C top cls code s C' s' : 0 < c <= C -> c <= k ->
  foreach_realized_class_and_subclass_2 K top C cls code s = Ret (C', s') ->
  foreach_realized_class_and_subclass_2 k top c cls code s = Fault \/
  exists c', foreach_realized_class_and_subclass_2 k top c cls code s = Ret (c', s') /\ 0 < c' /\ C' + c = C + c'.
Proof.
  revert k c C cls s. induction K as [|K IH]; intros k c C cls s Hc Hk Hrun; [done|].
  destruct C as [|C]; [done|]. destruct c as [|c]; [lia|]. destruct k as [|k]; [lia|].
  cbn [foreach_realized_class_and_subclass_2] in Hrun |- *.
  destruct (Nat.eqb_spec C 0) as [|HC]; [done|]. destruct (Nat.eqb_spec c 0) as [|Hc0]; [by left|].
  destruct (code cls s) as [[go s1]| |]; cbn [obind] in Hrun |- *; try done.
  destruct (negb go); [injection Hrun as <- <-; right; exists c; split_and!; [done|lia|lia]|].
  destruct (class_at s1 cls) as [rc| |]; cbn [obind] in Hrun |- *; try done.
  assert (Hsame : forall c2 C2 x, 0 < c2 <= C2 -> c2 <= c -> C2 + c = C + c2 ->
    foreach_realized_class_and_subclass_2 K top C2 x code s1 = Ret (C', s') ->
    foreach_realized_class_and_subclass_2 k top c2 x code s1 = Fault \/
    exists c', foreach_realized_class_and_subclass_2 k top c2 x code s1 = Ret (c', s') /\ 0 < c' /\ C' + S c = S C + c').
  { intros c2 C2 x H1 H2 H3 Hx. destruct (IH k c2 C2 x s1 H1 ltac:(lia) Hx) as [|(c' & H4 & H5 & H6)]; [by left|].
    right. exists c'. split_and!; [done|lia|lia]. }
  destruct (c_firstSubclass rc) as [f|]; [by apply (Hsame c C); [lia..|]|].
  destruct (climb C top cls s1) as [[C2 d]| |] eqn:Ecl; cbn [obind] in Hrun |- *; try done.
  destruct (climb_less c C top cls s1 C2 d ltac:(lia) ltac:(lia) Ecl) as [->|(c2 & -> & H1 & H2)]; [by left|].
  cbn [obind]. destruct (d =? top)%Z; [injection Hrun as <- <-; right; exists c2; split_and!; [done|lia|lia]|].
  destruct (class_at s1 d) as [rd| |]; cbn [obind] in Hrun |- *; try done.
  destruct (of_option _) as [sib| |]; cbn [obind] in Hrun |- *; try done.
  by apply (Hsame c2 C2); [lia..|].
Qed.

Section Visits.
Context (s0 : runtime) (kids : option Class -> list Class) (depth : Class -> nat) (T : tree_ok s0 kids depth).
Context (M : nat) (HM : forall c, is_Some (rt_classes s0 !! c) -> depth c <= M).
Context (code : Class -> runtime -> outcome runtime).
(** A visit returns and keeps [Q], by which the links stay as they are. *)
Context (Q : runtime -> Prop) (HQ : forall s, Q s -> same_links s0 s).
Context (Hcode : forall c s, is_Some (rt_classes s0 !! c) -> Q s -> exists s', code c s = Ret s' /\ Q s').

Local Abbreviation walk := (foreach_realized_class_and_subclass_2).
Local Abbreviation order := (preorder kids).

(** What follows the visits below [cls]. *)
Definition leave (k : nat) (top : Class) (count : nat) (cls : Class) (s : runtime) : outcome (nat * runtime) :=
  let! (count'', cls) := climb count top cls s in
  if (cls =? top)%Z then Ret (count'', s) else
  let! c := class_at s cls in
  let! sib := of_option (c_nextSiblingClass c) in
  walk k top count'' sib (always code) s.

Lemma link_at s c rc : same_links s0 s -> rt_classes s0 !! c = Some rc ->
  exists rc', class_at s c = Ret rc' /\ links rc' = links rc.
Proof.
  intros Hl Hc. destruct (same_links_at _ _ _ _ Hl Hc) as (rc' & Hc' & He). exists rc'.
  unfold class_at. by rewrite Hc'.
Qed.

(** From the last sibling up to the superclass. *)
Lemma leave_up k top count cls s rc p : same_links s0 s -> rt_classes s0 !! cls = Some rc -> cls <> top ->
  c_nextSiblingClass rc = None -> c_superclass rc = Some p ->
  leave k top (S (S count)) cls s = leave k top (S count) p s.
Proof.
  intros Hl Hc Hn Hnext Hp. destruct (link_at _ _ _ Hl Hc) as (rc' & Hc' & He). injection He as Hp' _ Hn'.
  unfold leave. assert (climb (S (S count)) top cls s = climb (S count) top p s) as ->; [|done].
  cbn [climb]. rewrite Hc'. simpl. rewrite Hn', Hnext, Hp', Hp, (proj2 (Z.eqb_neq _ _) Hn).
  by rewrite bool_decide_true.
Qed.

Lemma leave_next k top count cls s rc sib : same_links s0 s -> rt_classes s0 !! cls = Some rc -> cls <> top ->
  c_nextSiblingClass rc = Some sib -> leave k top count cls s = walk k top count sib (always code) s.
Proof.
  intros Hl Hc Hn Hnext. destruct (link_at _ _ _ Hl Hc) as (rc' & Hc' & He). injection He as _ _ Hn'.
  unfold leave. assert (climb count top cls s = Ret (count, cls)) as ->.
  { destruct count; cbn [climb]; rewrite Hc'; simpl; by rewrite Hn', Hnext. }
  simpl. rewrite (proj2 (Z.eqb_neq _ _) Hn), Hc'. simpl. by rewrite Hn', Hnext.
Qed.

Lemma leave_top k top count s : same_links s0 s -> is_Some (rt_classes s0 !! top) ->
  leave k top count top s = Ret (count, s).
Proof.
  intros Hl [rc Hc]. destruct (link_at _ _ _ Hl Hc) as (rc' & Hc' & _).
  unfold leave. assert (climb count top top s = Ret (count, top)) as ->.
  { destruct count; cbn [climb]; rewrite Hc'; simpl; rewrite Z.eqb_refl; by rewrite andb_false_r. }
  simpl. by rewrite Z.eqb_refl.
Qed.

(** One round of the loop. *)
Lemma walk_step k top count cls s rc : Q s -> rt_classes s0 !! cls = Some rc ->
  exists s1, code cls s = Ret s1 /\ Q s1 /\
    walk (S k) top (S (S count)) cls (always code) s =
    match c_firstSubclass rc with
    | Some f => walk k top (S count) f (always code) s1
    | None => leave k top (S count) cls s1
    end.
Proof.
  intros Hl Hc. destruct (Hcode cls s ltac:(eauto) Hl) as (s1 & Hs1 & Hl1). exists s1. split_and!; [done..|].
  destruct (link_at _ _ _ (HQ _ Hl1) Hc) as (rc' & Hc' & He). injection He as _ Hf _.
  cbn [foreach_realized_class_and_subclass_2]. unfold always at 1. rewrite Hs1. cbn [obind negb Nat.eqb].
  rewrite Hc'. cbn [obind]. by rewrite Hf.
Qed.

(** The visits of a class and of all below it end where the class is left; the
    last step up to its superclass is still to come. *)
Definition walks_class (n : nat) : Prop :=
  forall k top K count s, Q s -> sub s0 k top -> M <= n + depth k ->
  2 * length (order n k) <= count -> count <= K -> 
  exists K' count' s', visit_all code (order n k) s = Ret s' /\ Q s' /\ 0 < count' <= K' /\
    count < count' + 2 * length (order n k) /\ count' + length (order n k) <= count /\
    walk K top count k (always code) s = leave K' top count' k s'.

(** The visits of a run of siblings lead back to their superclass. *)
Definition walks_siblings (n : nat) : Prop :=
  forall ks k top c K count s, Q s -> siblings s0 (Some k) ks -> (forall x, x ∈ ks -> x ∈ kids (Some c)) ->
  sub s0 c top -> M <= S n + depth c -> 2 * length (ks ≫= order n) < count -> count <= K ->
  exists K' count' s', visit_all code (ks ≫= order n) s = Ret s' /\ Q s' /\ 0 < count' <= K' /\
    count <= count' + 2 * length (ks ≫= order n) /\ count' + length (ks ≫= order n) <= count /\
    walk K top count k (always code) s = leave K' top count' c s'.

Lemma walks_class_siblings n : walks_class n -> walks_siblings n.
Proof.
  intros IH ks. induction ks as [|x ks IHks]; intros k top c K count s Hl Hsib Hin Hct Hn Hcount HK; [done|].
  destruct Hsib as [[= ->] (rc & Hc & Hnext)]. csimpl in *. rewrite length_app in *.
  destruct (kid_sub _ _ _ T c x) as [Hxc Hlt]; [apply Hin; by left|].
  assert (Hxt : sub s0 x top) by (by eapply sub_trans).
  destruct (IH x top K count s Hl Hxt) as (K1 & count1 & s1 & Hv & Hl1 & HK1 & Hcount1 & Hlow1 & Hw); [lia..|].
  assert (x <> top) by (intros ->; apply (sub_depth _ _ _ T) in Hct; lia).
  assert (Hsuper : c_superclass rc = Some c).
  { destruct (proj1 (t_kids _ _ _ T (Some c) x)) as (rx & Hx & Hp); [apply Hin; by left|]. congruence. }
  rewrite visit_all_app, Hv. simpl. destruct ks as [|y ks].
  - simpl in *. destruct count1 as [|[|count1]]; [lia..|]. exists K1, (S count1), s1. split_and!; [done|done|lia|lia|lia|lia|].
    rewrite Hw. eapply leave_up; eauto.
  - destruct (IHks y top c K1 count1 s1) as (K2 & count2 & s2 & Hv2 & Hl2 & HK2 & Hcount2 & Hlow2 & Hw2).
    + done.
    + destruct Hnext as [Hnext Hrest]. by split.
    + intros z Hz. apply Hin. by right.
    + done.
    + done.
    + lia.
    + lia.
    + exists K2, count2, s2. split_and!; [done|done|lia|lia|lia|lia|]. rewrite Hw, <- Hw2.
      destruct Hnext as [Hnext _]. eapply leave_next; eauto.
Qed.

Lemma walks_classes n : walks_class n.
Proof.
  induction n as [|n IH]; intros k top K count s Hl Hkt Hn Hcount HK;
    destruct (sub_dom _ _ _ Hkt) as [rc Hc]; pose proof (t_subs _ _ _ T _ _ Hc) as Hsubs;
    (destruct count as [|[|count]]; [simpl in Hcount; lia..|]); (destruct K as [|K]; [lia|]);
    destruct (walk_step K top count k s rc Hl Hc) as (s1 & Hs1 & Hl1 & Hw); rewrite Hw;
    cbn [visit_all preorder]; rewrite Hs1; cbn [obind].
  - destruct (kids (Some k)) as [|x ks] eqn:Ek.
    + simpl in Hsubs. rewrite Hsubs. exists K, (S count), s1. split_and!; [done|done|cbn [length]; lia..|done].
    + destruct (kid_high _ _ _ T M HM 0 k x Hn) as (? & ? & _); [rewrite Ek; by left|done].
  - destruct (kids (Some k)) as [|x ks] eqn:Ek.
    + simpl in Hsubs. rewrite Hsubs. exists K, (S count), s1. split_and!; [done|done|csimpl; cbn [length]; lia..|done].
    + destruct Hsubs as [Hf Hrest]. rewrite Hf. cbn [preorder length] in Hcount. rewrite Ek in Hcount.
      destruct (walks_class_siblings n IH (x :: ks) x top k K (S count) s1)
        as (K' & count' & s' & Hv & Hl' & HK' & Hc' & Hlow & Hw'); [done|by split|by rewrite Ek|done|done|lia|lia|].
      exists K', count', s'. split_and!; [done|done|cbn [length]; lia..|done].
Qed.

(** The whole walk from [top]. *)
Lemma walk_subclasses n top K count s : Q s -> is_Some (rt_classes s0 !! top) -> M <= n + depth top ->
  2 * length (order n top) <= count -> count <= K ->
  exists count' s', visit_all code (order n top) s = Ret s' /\ Q s' /\
    0 < count' /\ count < count' + 2 * length (order n top) /\ count' + length (order n top) <= count /\
    walk K top count top (always code) s = Ret (count', s').
Proof.
  intros Hl Htop Hn Hcount HK.
  destruct (walks_classes n top top K count s Hl (sub_refl _ _ Htop) Hn Hcount HK)
    as (K' & count' & s' & Hv & Hl' & HK' & Hc' & Hlow & Hw).
  exists count', s'. split_and!; [done|done|lia|lia|lia|]. rewrite Hw. apply leave_top; auto.
Qed.

(** Every visit takes one from the counter: a counter that is not above the
    number of classes below [top] does not last. *)
Lemma walk_gives_up n top count s : Q s -> is_Some (rt_classes s0 !! top) -> M <= n + depth top ->
  0 < count <= length (order n top) -> walk count top count top (always code) s = Fault.
Proof.
  intros Hs Htop Hn Hcount. set (C := count + 2 * length (order n top)).
  destruct (walk_subclasses n top C C s Hs Htop Hn ltac:(lia) ltac:(lia)) as (C' & s' & _ & _ & _ & _ & Hlow & Hw).
  destruct (walk_less count C count C top top (always code) s C' s' ltac:(lia) ltac:(lia) Hw) as [|(c' & _ & H1 & H2)]; [done|lia].
Qed.

End Visits.

(** ** Both walks *)

Definition class_tree (s : runtime) : Prop := exists kids depth, tree_ok s kids depth.

Lemma class_tree_links s s' : same_links s s' -> class_tree s -> class_tree s'.
Proof. intros Hl (kids & depth & T). exists kids, depth. by eapply tree_ok_links. Qed.

(** The counter of a walk is for more classes than there are. *)
Definition reasonable (pre : nat) (s : runtime) : Prop :=
  2 * size (rt_classes s) <= unreasonableClassCount pre s.

Lemma nodup_size {A} (m : gmap Class A) l : NoDup l -> (forall c, c ∈ l -> is_Some (m !! c)) -> length l <= size m.
Proof.
  intros Hn Hin. rewrite <- (size_list_to_set (C := gset Class) l) by done. rewrite <- (size_dom (D := gset Class)).
  apply subseteq_size. intros c Hc%elem_of_list_to_set. by apply elem_of_dom, Hin.
Qed.

(** Every class is below a root class. *)
Lemma sub_root s kids depth d : tree_ok s kids depth -> is_Some (rt_classes s !! d) ->
  exists r, r ∈ kids None /\ sub s d r.
Proof.
  intros T. remember (depth d) as n eqn:Hn. revert d Hn. induction (lt_wf n) as [n _ IH]. intros d -> [rd Hd].
  destruct (c_superclass rd) as [p|] eqn:Hp.
  - destruct (t_super _ _ _ T _ _ _ Hd Hp) as [Hs Hlt]. destruct (IH _ Hlt p eq_refl Hs) as (r & Hr & Hsub).
    exists r. split; [done|]. econstructor; eauto.
  - exists d. split; [apply (t_kids _ _ _ T); eauto|constructor; eauto].
Qed.

(** The bound of the program is not enough for the classes below [top]. *)
Lemma foreach_gives_up pre s top code Q l : class_tree s -> (forall s1, Q s1 -> same_links s s1) -> Q s ->
  (forall c s1, is_Some (rt_classes s !! c) -> Q s1 -> exists s2, code c s1 = Ret s2 /\ Q s2) ->
  NoDup l -> (forall d, d ∈ l -> sub s d top) -> is_Some (rt_classes s !! top) ->
  unreasonableClassCount pre s <= length l ->
  foreach_realized_class_and_subclass pre top code s = Fault.
Proof.
  intros (kids & depth & T) HQ HQ0 Hcode Hnd Hl Htop Hcount. destruct (depth_bound s depth) as [M HM].
  assert (Hlen : length l <= length (preorder kids M top)).
  { apply submseteq_length, NoDup_submseteq; [done|]. intros d Hd%Hl.
    by apply (preorder_sub _ _ _ T M HM M top); [|lia|]. }
  unfold foreach_realized_class_and_subclass.
  rewrite (walk_gives_up s kids depth T M HM code Q HQ Hcode M top); [done..|lia|].
  split; [unfold unreasonableClassCount|]; lia.
Qed.

Section Walks.
Context (pre : nat) (s0 : runtime) (Htree : class_tree s0) (Hroom : reasonable pre s0).
Context (code : Class -> runtime -> outcome runtime).
Context (Q : runtime -> Prop) (HQ : forall s, Q s -> same_links s0 s) (HQ0 : Q s0).
Context (Hcode : forall c s, is_Some (rt_classes s0 !! c) -> Q s -> exists s', code c s = Ret s' /\ Q s').

Lemma foreach_subclass top : is_Some (rt_classes s0 !! top) ->
  exists l s', NoDup l /\ (forall d, d ∈ l <-> sub s0 d top) /\ visit_all code l s0 = Ret s' /\ Q s' /\
    foreach_realized_class_and_subclass pre top code s0 = Ret s'.
Proof using All.
  destruct Htree as (kids & depth & T). intros Htop. destruct (depth_bound s0 depth) as [M HM].
  pose proof (preorder_sub _ _ _ T M HM M top) as Hin.
  pose proof (preorder_nodup _ _ _ T M HM M top Htop ltac:(lia)) as Hnd.
  assert (Hlen : length (preorder kids M top) <= size (rt_classes s0)).
  { apply nodup_size; [done|]. intros c Hc%Hin; [by eapply sub_dom|done|lia]. }
  destruct (walk_subclasses s0 kids depth T M HM code Q HQ Hcode M top
    (unreasonableClassCount pre s0) (unreasonableClassCount pre s0) s0)
    as (count' & s' & Hv & Hl & _ & _ & _ & Hw); [done|done|lia|unfold reasonable in Hroom; lia|lia|].
  exists (preorder kids M top), s'. split_and!; [done| |done|done|].
  - intros d. apply Hin; [done|lia].
  - unfold foreach_realized_class_and_subclass. by rewrite Hw.
Qed.

Lemma foreach_roots kids depth (T : tree_ok s0 kids depth) M rs p k count s :
  (forall c, is_Some (rt_classes s0 !! c) -> depth c <= M) -> Q s -> siblings s0 p rs ->
  2 * length (rs ≫= preorder kids M) <= count -> length rs <= k ->
  exists s', visit_all code (rs ≫= preorder kids M) s = Ret s' /\ Q s' /\ foreach_root k count p code s = Ret s'.
Proof using Hcode HQ.
  intros HM. revert p k count s. induction rs as [|r rs IH]; intros p k count s Hl Hsib Hcount Hk.
  - simpl in Hsib. subst p. exists s. by destruct k.
  - destruct Hsib as [-> (rc & Hc & Hnext)]. csimpl in *. rewrite length_app in Hcount.
    destruct k as [|k]; [simpl in Hk; lia|].
    destruct (walk_subclasses s0 kids depth T M HM code Q HQ Hcode M r count count s)
      as (count' & s1 & Hv & Hl1 & _ & Hc' & _ & Hw); [done|eauto|lia|lia|lia|].
    destruct (link_at s0 s1 r rc (HQ _ Hl1) Hc) as (rc1 & Hc1 & He). injection He as _ _ Hn.
    destruct (IH (c_nextSiblingClass rc) k count' s1) as (s2 & Hv2 & Hl2 & Hw2); [done|done|lia|simpl in Hk; lia|].
    exists s2. split_and!; [|done|].
    + rewrite visit_all_app, Hv. done.
    + cbn [foreach_root]. rewrite Hw. cbn [obind]. rewrite Hc1. cbn [obind]. by rewrite Hn.
Qed.

Lemma foreach_metaclass :
  exists l s', NoDup l /\ (forall d, d ∈ l <-> is_Some (rt_classes s0 !! d)) /\ visit_all code l s0 = Ret s' /\
    Q s' /\ foreach_realized_class_and_metaclass pre code s0 = Ret s'.
Proof using All.
  destruct Htree as (kids & depth & T). destruct (depth_bound s0 depth) as [M HM].
  assert (Hr : forall r, r ∈ kids None -> is_Some (rt_classes s0 !! r)).
  { intros r (rd & Hd & _)%(t_kids _ _ _ T). eauto. }
  set (l := kids None ≫= preorder kids M).
  assert (Hin : forall d, d ∈ l <-> is_Some (rt_classes s0 !! d)).
  { intros d. unfold l. rewrite list_elem_of_bind. split.
    - intros (r & Hd & Hrk). apply (preorder_sub _ _ _ T M HM) in Hd; [by eapply sub_dom|by apply Hr|lia].
    - intros Hd. destruct (sub_root _ _ _ _ T Hd) as (r & Hrk & Hs). exists r. split; [|done].
      apply (preorder_sub _ _ _ T M HM); [by apply Hr|lia|done]. }
  assert (Hnd : NoDup l).
  { apply NoDup_bind; [| |apply (t_nodup _ _ _ T)].
    - intros r1 r2 d H1 H2 Hd1 Hd2. apply (preorder_sub _ _ _ T M HM) in Hd1; [|by apply Hr|lia].
      apply (preorder_sub _ _ _ T M HM) in Hd2; [|by apply Hr|lia]. by eapply kids_disjoint.
    - intros r Hrk. apply (preorder_nodup _ _ _ T M HM); [by apply Hr|lia]. }
  pose proof (nodup_size (rt_classes s0) l Hnd (fun d => proj1 (Hin d))) as Hlen. unfold reasonable in Hroom.
  assert (Hk : length (kids None) <= length l).
  { unfold l. clear. induction (kids None) as [|r rs IH]; [done|]. csimpl. rewrite length_app.
    assert (0 < length (preorder kids M r)) by (destruct M; cbn; lia). lia. }
  destruct (foreach_roots kids depth T M (kids None) (_firstRealizedClass s0) (unreasonableClassCount pre s0)
    (unreasonableClassCount pre s0) s0) as (s' & Hv & Hl & Hw);
    [done|done|apply (t_roots _ _ _ T)|fold l; lia|lia|].
  by exists l, s'.
Qed.

End Walks.
