(* ===== verification/ClassChanges.v ===== *)
(** * Changes to classes at run time

    The operations of objc-runtime-new.mm that change classes while the program
    runs: adding and replacing methods, attaching categories, connecting a new
    class, the end of +initialize; with the flushing of
    the method caches, and the bits that say whether a class uses the retain,
    release and alloc methods of NSObject; and the lookup of a method through
    the caches.  The cache of a class is a map here; its buckets are in
    MethodBuckets.v.  Every operation runs under [runtimeLock] and is one
    transition.  A failed assertion is a fault. *)

From Stdlib Require Import ZArith Lia Bool String.
From stdpp Require Import base list gmap strings.
From S2P Require Import Prelude ObjCData MethodList ClassTree.

Local Open Scope nat_scope.

(** A pointer to a method: its list and the position in it. *)
Abbreviation Method := (Z * nat)%type.

Definition nil_imp : IMP := EmptyString.
Definition _objc_msgForward_impcache : IMP := "_objc_msgForward_impcache".

Definition cassert (b : bool) : outcome unit := if b then Ret tt else Fault.

Definition mlist_at (s : runtime) (p : mlist_ptr) : outcome method_list_t := of_option (rt_mlists s !! p).

Definition method_at (s : runtime) (m : Method) : outcome _objc_method :=
  let! mlist := mlist_at s m.1 in of_option (mlist_methods mlist !! m.2).

(** [m->imp = imp] *)
Definition set_method_imp (imp : IMP) (m : _objc_method) : _objc_method := mk_method (_cmd m) (method_type m) imp.

Definition set_entries (l : list _objc_method) (mlist : method_list_t) : method_list_t :=
  mk_mlist (isFixedUp mlist) (mk_list (entsize (ml_list mlist)) (count (ml_list mlist)) l).

Definition store_imp (m : Method) (imp : IMP) (s : runtime) : outcome runtime :=
  let! mlist := mlist_at s m.1 in
  let! meth := of_option (mlist_methods mlist !! m.2) in
  let l := <[m.2 := set_method_imp imp meth]> (mlist_methods mlist) in
  Ret (with_mlists (<[m.1 := set_entries l mlist]> (rt_mlists s)) s).

(** RR: the instance methods retain, release and the like; AWZ: the class
    methods alloc and allocWithZone:. *)
Inductive custom := RR | AWZ.

#[export] Instance custom_eq_dec : EqDecision custom.
Proof. solve_decision. Defined.

Section Changes.
(** The addresses of the selectors, the system's count of classes and the class
    NSObject are given by the system. *)
Context (sel_addr : string -> Z) (pre : nat) (NSObject : Class).

(** ** Methods of a class *)

Fixpoint search_mlists (s : runtime) (lists : list mlist_ptr) (sel : string) : outcome (option Method) :=
  match lists with
  | [] => Ret None
  | p :: lists' =>
      let! mlist := mlist_at s p in
      let! m := search_method_list sel_addr mlist sel in
      match m with Some i => Ret (Some (p, i)) | None => search_mlists s lists' sel end
  end.

Definition getMethodNoSuper_nolock (s : runtime) (cls : Class) (sel : string) : outcome (option Method) :=
  let! c := class_at s cls in search_mlists s (lists_of (c_methods c)) sel.

Definition getMeta (s : runtime) (cls : Class) : outcome Class :=
  let! c := class_at s cls in Ret (if c_isMeta c then cls else c_isa c).

Definition isInitialized (s : runtime) (cls : Class) : outcome bool :=
  let! meta := getMeta s cls in let! m := class_at s meta in Ret (has_flag RW_INITIALIZED m).

Definition isInitializing (s : runtime) (cls : Class) : outcome bool :=
  let! meta := getMeta s cls in let! m := class_at s meta in Ret (has_flag RW_INITIALIZING m).

(** ** Caches *)

Definition cache_erase_nolock (cls : Class) (s : runtime) : outcome runtime := update cls (set_cache ∅) s.

Definition flushCaches (cls : option Class) (s : runtime) : outcome runtime :=
  match cls with
  | Some cls => foreach_realized_class_and_subclass pre cls cache_erase_nolock s
  | None => foreach_realized_class_and_metaclass pre cache_erase_nolock s
  end.

(** The garbage of the caches is not collected here. *)
Definition _objc_flush_caches (cls : option Class) (s : runtime) : outcome runtime :=
  let! s := flushCaches cls s in
  match cls with
  | Some cls =>
      let! c := class_at s cls in
      if bool_decide (c_superclass c <> None) && negb (cls =? c_isa c)%Z then flushCaches (Some (c_isa c)) s else Ret s
  | None => Ret s
  end.

Definition cache_getImp (s : runtime) (cls : Class) (sel : string) : outcome IMP :=
  let! c := class_at s cls in Ret (default nil_imp (c_cache c !! sel)).

Definition cache_fill (cls : Class) (sel : string) (imp : IMP) (s : runtime) : outcome runtime :=
  let! init := isInitialized s cls in
  if negb init then Ret s else
  let! cached := cache_getImp s cls sel in
  if bool_decide (cached <> nil_imp) then Ret s else
  update cls (fun c => set_cache (<[sel := imp]> (c_cache c)) c) s.

(** ** The bits for custom retain, release and alloc methods *)

Definition default_bit (k : custom) : flag :=
  match k with RR => FAST_HAS_DEFAULT_RR | AWZ => FAST_HAS_DEFAULT_AWZ end.

Definition RR_selectors : list string :=
  ["retain"; "release"; "autorelease"; "retainCount"; "_tryRetain"; "_isDeallocating"; "retainWeakReference";
   "allowsWeakReference"].
Definition AWZ_selectors : list string := ["allocWithZone:"; "alloc"].

Definition selectors (k : custom) : list string := match k with RR => RR_selectors | AWZ => AWZ_selectors end.

Definition is_selector (k : custom) (sel : string) : bool := bool_decide (sel ∈ selectors k).

Abbreviation isRRSelector := (is_selector RR).
Abbreviation isAWZSelector := (is_selector AWZ).

Fixpoint implements_any (mlist : method_list_t) (sels : list string) : outcome bool :=
  match sels with
  | [] => Ret false
  | sel :: sels' =>
      let! m := search_method_list sel_addr mlist sel in
      match m with Some _ => Ret true | None => implements_any mlist sels' end
  end.

Definition methodListImplements (k : custom) (mlist : method_list_t) : outcome bool :=
  implements_any mlist (selectors k).

Definition hasCustom (k : custom) (c : class_t) : bool := negb (has_flag (default_bit k) c).

(** The visit of one class by [setHasCustomRR] and [setHasCustomAWZ]. *)
Definition mark_custom (k : custom) (cls : Class) (c : Class) (s : runtime) : outcome runtime :=
  let! init := (if (c =? cls)%Z then Ret true else isInitialized s c) in
  if negb init then Ret s else
  let! rc := class_at s c in
  if hasCustom k rc then Ret s else update c (clearBits (default_bit k)) s.

Definition setHasCustom (k : custom) (cls : Class) (s : runtime) : outcome runtime :=
  let! c := class_at s cls in
  if hasCustom k c then Ret s else foreach_realized_class_and_subclass pre cls (mark_custom k cls) s.

Definition setHasCustomRR : Class -> runtime -> outcome runtime := setHasCustom RR.
Definition setHasCustomAWZ : Class -> runtime -> outcome runtime := setHasCustom AWZ.

Definition setInstancesRequireRawIsa (cls : Class) (s : runtime) : outcome runtime :=
  let! c := class_at s cls in
  if has_flag FAST_REQUIRES_RAW_ISA c then Ret s else
  foreach_realized_class_and_subclass pre cls (fun c s =>
    let! rc := class_at s c in
    if has_flag FAST_REQUIRES_RAW_ISA rc then Ret s else update c (setBits FAST_REQUIRES_RAW_ISA) s) s.

Definition swizzled (k : custom) (s : runtime) : bool :=
  match k with RR => ClassNSObjectRRSwizzled s | AWZ => MetaclassNSObjectAWZSwizzled s end.

Definition set_swizzled (k : custom) (s : runtime) : runtime :=
  mk_runtime (rt_classes s) (rt_mlists s) (_firstRealizedClass s) (gdb_objc_realized_classes s)
    (match k with RR => true | AWZ => ClassNSObjectRRSwizzled s end)
    (match k with RR => MetaclassNSObjectAWZSwizzled s | AWZ => true end).

(** The loop over the methods of a class that compares pointers. *)
Definition is_method_of (s : runtime) (cls : Class) (m : Method) : outcome bool :=
  let! c := class_at s cls in
  Ret (existsb (fun p => (p =? m.1)%Z && match rt_mlists s !! p with
                                          | Some mlist => m.2 <? length (mlist_methods mlist)
                                          | None => false
                                          end) (lists_of (c_methods c))).

(** One of the two halves of [updateCustomRR_AWZ]; [root] is NSObject or its
    metaclass. *)
Definition update_custom (k : custom) (root : Class) (cls : option Class) (m : Method) (s : runtime) : outcome runtime :=
  let! init := isInitialized s root in
  let! c := class_at s root in
  if (init && hasCustom k c) || swizzled k s then Ret s else
  let! swizzlingNSObject := (if bool_decide (cls = Some root) then Ret true else is_method_of s root m) in
  if swizzlingNSObject then
    if init then setHasCustom k root s else Ret (set_swizzled k s)
  else Ret s.

Definition updateCustomRR_AWZ (cls : option Class) (m : Method) (s : runtime) : outcome runtime :=
  let! meth := method_at s m in
  if isRRSelector (_cmd meth) then update_custom RR NSObject cls m s
  else if isAWZSelector (_cmd meth) then
    let! c := class_at s NSObject in update_custom AWZ (c_isa c) cls m s
  else Ret s.

(** ** Adding and replacing methods *)

(** Uniquing and sorting of a list, in place. *)
Definition fixup_at (p : mlist_ptr) (s : runtime) : outcome runtime :=
  let! mlist := mlist_at s p in
  if isFixedUp mlist then Ret s
  else Ret (with_mlists (<[p := fixupMethodList sel_addr mlist true]> (rt_mlists s)) s).

(** The scan of one list for custom methods; the answer is whether the next list
    is scanned too. *)
Definition scan_custom (k : custom) (scan : bool) (cls : Class) (p : mlist_ptr) (s : runtime)
  : outcome (bool * runtime) :=
  if scan then
    let! mlist := mlist_at s p in
    let! impl := methodListImplements k mlist in
    if impl then let! s := setHasCustom k cls s in Ret (false, s) else Ret (true, s)
  else Ret (false, s).

Fixpoint prepare_loop (cls : Class) (added : list mlist_ptr) (scanRR scanAWZ : bool) (s : runtime) : outcome runtime :=
  match added with
  | [] => Ret s
  | p :: added' =>
      let! s := fixup_at p s in
      let! (scanRR, s) := scan_custom RR scanRR cls p s in
      let! (scanAWZ, s) := scan_custom AWZ scanAWZ cls p s in
      prepare_loop cls added' scanRR scanAWZ s
  end.

Definition prepareMethodLists (cls : Class) (added : list mlist_ptr) (baseMethods : bool) (s : runtime)
  : outcome runtime :=
  match added with
  | [] => Ret s
  | _ =>
      let! c := class_at s cls in
      let scanForCustomRR := negb (hasCustom RR c) in
      let scanForCustomAWZ := negb (hasCustom AWZ c) in
      let! _ := (if baseMethods then cassert (negb scanForCustomRR && negb scanForCustomAWZ) else Ret tt) in
      prepare_loop cls added scanForCustomRR scanForCustomAWZ s
  end.

Definition attach (cls : Class) (added : list mlist_ptr) (s : runtime) : outcome runtime :=
  update cls (fun c => set_methods (attachLists added (c_methods c)) c) s.

Definition _method_setImplementation (cls : option Class) (m : option Method) (imp : IMP) (s : runtime)
  : outcome (IMP * runtime) :=
  match m with
  | None => Ret (nil_imp, s)
  | Some m =>
      if bool_decide (imp = nil_imp) then Ret (nil_imp, s) else
      let! meth := method_at s m in
      let! s := store_imp m imp s in
      let! s := flushCaches cls s in
      let! s := updateCustomRR_AWZ cls m s in
      Ret (_imp meth, s)
  end.

Definition method_setImplementation (m : option Method) (imp : IMP) (s : runtime) : outcome (IMP * runtime) :=
  _method_setImplementation None m imp s.

Definition method_exchangeImplementations (m1 m2 : option Method) (s : runtime) : outcome runtime :=
  match m1, m2 with
  | Some m1, Some m2 =>
      let! meth1 := method_at s m1 in
      let! meth2 := method_at s m2 in
      let! s := store_imp m1 (_imp meth2) s in
      let! s := store_imp m2 (_imp meth1) s in
      let! s := flushCaches None s in
      let! s := updateCustomRR_AWZ None m1 s in
      updateCustomRR_AWZ None m2 s
  | _, _ => Ret s
  end.

(** [calloc] of a method list. *)
Definition alloc_mlist (mlist : method_list_t) (s : runtime) : mlist_ptr * runtime :=
  let p := fresh (dom (rt_mlists s)) in (p, with_mlists (<[p := mlist]> (rt_mlists s)) s).

(** A list of methods that is marked as uniqued and sorted. *)
Definition fixed_up_list (l : list _objc_method) : method_list_t :=
  mk_mlist true (mk_list (sizeof_struct _objc_method_struct) (Z.of_nat (length l)) l).

(** The end of [addMethod] and [addMethods]. *)
Definition install (cls : Class) (mlist : method_list_t) (s : runtime) : outcome runtime :=
  let (p, s) := alloc_mlist mlist s in
  let! s := prepareMethodLists cls [p] false s in
  let! s := attach cls [p] s in
  flushCaches (Some cls) s.

Definition addMethod (cls : Class) (name : string) (imp : IMP) (types : string) (replace : bool) (s : runtime)
  : outcome (IMP * runtime) :=
  let! m := getMethodNoSuper_nolock s cls name in
  match m with
  | Some m =>
      if negb replace then let! meth := method_at s m in Ret (_imp meth, s)
      else _method_setImplementation (Some cls) (Some m) imp s
  | None =>
      let! s := install cls (fixed_up_list [mk_method name types imp]) s in
      Ret (nil_imp, s)
  end.

(** The loop of [addMethods]: the names that failed and the new methods so far. *)
Fixpoint addMethods_loop (cls : Class) (methods : list _objc_method) (replace : bool)
    (failedNames : list string) (newlist : list _objc_method) (s : runtime)
  : outcome (list string * list _objc_method * runtime) :=
  match methods with
  | [] => Ret (failedNames, newlist, s)
  | new :: methods' =>
      let! m := getMethodNoSuper_nolock s cls (_cmd new) in
      match m with
      | Some m =>
          if negb replace then
            let! meth := method_at s m in
            addMethods_loop cls methods' replace (failedNames ++ [_cmd meth]) newlist s
          else
            let! (_, s) := _method_setImplementation (Some cls) (Some m) (_imp new) s in
            addMethods_loop cls methods' replace failedNames newlist s
      | None => addMethods_loop cls methods' replace failedNames (newlist ++ [new]) s
      end
  end.

Definition addMethods (cls : Class) (methods : list _objc_method) (replace : bool) (s : runtime)
  : outcome (list string * runtime) :=
  let! (failedNames, newlist, s) := addMethods_loop cls methods replace [] [] s in
  match newlist with
  | [] => Ret (failedNames, s)
  | _ => let! s := install cls (fixed_up_list (stable_sort sel_addr newlist)) s in Ret (failedNames, s)
  end.

(** Null [types] are the empty string. *)
Definition class_addMethod (cls : option Class) (name : string) (imp : IMP) (types : option string) (s : runtime)
  : outcome (bool * runtime) :=
  match cls with
  | None => Ret (false, s)
  | Some cls =>
      let! (old, s) := addMethod cls name imp (default EmptyString types) false s in
      Ret (bool_decide (old = nil_imp), s)
  end.

Definition class_replaceMethod (cls : option Class) (name : string) (imp : IMP) (types : option string) (s : runtime)
  : outcome (IMP * runtime) :=
  match cls with
  | None => Ret (nil_imp, s)
  | Some cls => addMethod cls name imp (default EmptyString types) true s
  end.

(** The three arrays of names, implementations and types are one list. *)
Definition class_addMethodsBulk (cls : option Class) (methods : list _objc_method) (s : runtime)
  : outcome (list string * runtime) :=
  match cls with
  | None => Ret (map _cmd methods, s)
  | Some cls => addMethods cls methods false s
  end.

Definition class_replaceMethodsBulk (cls : option Class) (methods : list _objc_method) (s : runtime) : outcome runtime :=
  match cls with
  | None => Ret s
  | Some cls => let! (_, s) := addMethods cls methods true s in Ret s
  end.

(** ** Categories *)

(** [cats] gives, in load order, the list of methods each category has for this
    class, if any; properties and protocols are not part of the lookup. *)
Definition attachCategories (cls : Class) (cats : list (option mlist_ptr)) (flush_caches : bool) (s : runtime)
  : outcome runtime :=
  let mlists := omap id (reverse cats) in
  let! s := prepareMethodLists cls mlists false s in
  let! s := attach cls mlists s in
  if flush_caches && negb (length mlists =? 0) then flushCaches (Some cls) s else Ret s.

(** The unattached categories of a class already realized, if it has any. *)
Definition remethodizeClass (cls : Class) (cats : option (list (option mlist_ptr))) (s : runtime) : outcome runtime :=
  match cats with Some cats => attachCategories cls cats true s | None => Ret s end.

Definition methodizeClass (cls : Class) (cats : list (option mlist_ptr)) (s : runtime) : outcome runtime :=
  let! c := class_at s cls in
  let! s :=
    match c_baseMethods c with
    | Some list => let! s := prepareMethodLists cls [list] true s in attach cls [list] s
    | None => Ret s
    end in
  let! s :=
    (if (c_isa c =? cls)%Z then let! (_, s) := addMethod cls "initialize" "objc_noop_imp" "" false s in Ret s
     else Ret s) in
  attachCategories cls cats false s.

(** ** Superclasses *)

Definition setBit_if (b : bool) (f : flag) (cls : Class) (s : runtime) : outcome runtime :=
  if b then update cls (setBits f) s else Ret s.

(** Null pointers do nothing. *)
Definition addSubclass (supercls subcls : Class) (s : runtime) : outcome runtime :=
  let! c := class_at s supercls in
  let! s := update subcls (set_nextSiblingClass (c_firstSubclass c)) s in
  let! s := update supercls (set_firstSubclass (Some subcls)) s in
  let! s := setBit_if (has_flag FAST_HAS_CXX_CTOR c) FAST_HAS_CXX_CTOR subcls s in
  let! s := setBit_if (has_flag FAST_HAS_CXX_DTOR c) FAST_HAS_CXX_DTOR subcls s in
  let! s := (if hasCustom RR c then setHasCustomRR subcls s else Ret s) in
  let! s := (if hasCustom AWZ c then setHasCustomAWZ subcls s else Ret s) in
  if has_flag FAST_REQUIRES_RAW_ISA c && bool_decide (c_superclass c <> None)
  then setInstancesRequireRawIsa subcls s else Ret s.

Definition addRootClass (cls : Class) (s : runtime) : outcome runtime :=
  let! s := update cls (set_nextSiblingClass (_firstRealizedClass s)) s in
  Ret (with_root (Some cls) s).

(** ** New classes *)

(** A class object without methods, connected to nothing. *)
Definition fresh_class (isa : Class) (superclass : option Class) (isMeta : bool) : class_t :=
  mk_class isa superclass None None isMeta None (la_list None) ∅ ∅.

(** [cls] and [meta] are new; sizes, names and layouts are left out. *)
Definition objc_initializeClassPair_internal (superclass : option Class) (cls meta : Class) (s : runtime)
  : outcome runtime :=
  match superclass with
  | Some super =>
      let! sc := class_at s super in
      let! smeta := class_at s (c_isa sc) in
      let s := with_classes (<[cls := fresh_class meta (Some super) false]>
                 (<[meta := fresh_class (c_isa smeta) (Some (c_isa sc)) true]> (rt_classes s))) s in
      let! s := addSubclass super cls s in
      addSubclass (c_isa sc) meta s
  | None =>
      let s := with_classes (<[cls := fresh_class meta None false]>
                 (<[meta := fresh_class meta (Some cls) true]> (rt_classes s))) s in
      let! s := addRootClass cls s in
      addSubclass cls meta s
  end.

(** The end of [realizeClassWithoutSwift] for a class of an image: the class has
    its superclass, its metaclass, its base methods and the bits of its read-only
    data; the superclass and the metaclass are realized. *)
Definition realizeClass_connect (cls : Class) (c : class_t) (cats : list (option mlist_ptr)) (s : runtime)
  : outcome runtime :=
  let s := with_classes (<[cls := c]> (rt_classes s)) s in
  let! s := match c_superclass c with Some super => addSubclass super cls s | None => addRootClass cls s end in
  methodizeClass cls cats s.

(** The end of [objc_registerClassPair]: the class has a name that no other class
    has, so that there is one named class more. *)
Definition addNamedClass (s : runtime) : runtime :=
  mk_runtime (rt_classes s) (rt_mlists s) (_firstRealizedClass s) (S (gdb_objc_realized_classes s))
    (ClassNSObjectRRSwizzled s) (MetaclassNSObjectAWZSwizzled s).

(** ** +initialize *)

Definition setInitializing (cls : Class) (s : runtime) : outcome runtime :=
  let! c := class_at s cls in
  let! _ := cassert (negb (c_isMeta c)) in
  update (c_isa c) (setBits RW_INITIALIZING) s.

(** The lists before the base methods, which are the last list. *)
Definition category_lists (c : class_t) : list mlist_ptr :=
  match lists_of (c_methods c), c_baseMethods c with
  | [], _ => []
  | l, None => l
  | l, Some _ => take (length l - 1) l
  end.

Fixpoint any_implements (k : custom) (lists : list mlist_ptr) (s : runtime) : outcome bool :=
  match lists with
  | [] => Ret false
  | p :: lists' =>
      let! mlist := mlist_at s p in
      let! impl := methodListImplements k mlist in
      if impl then Ret true else any_implements k lists' s
  end.

Definition setHasDefault (k : custom) (cls : Class) (s : runtime) : outcome runtime :=
  let! init := isInitializing s cls in
  let! _ := cassert init in
  update cls (setBits (default_bit k)) s.

(** The two decisions of [setInitialized]. *)
Definition metaCustomAWZ (metacls : Class) (mc : class_t) (s : runtime) : outcome bool :=
  let! root := class_at s NSObject in
  if swizzled AWZ s then Ret true
  else if (metacls =? c_isa root)%Z then any_implements AWZ (category_lists mc) s
  else
    let! super := of_option (c_superclass mc) in
    let! sc := class_at s super in
    if hasCustom AWZ sc then Ret true else any_implements AWZ (lists_of (c_methods mc)) s.

Definition clsCustomRR (cls : Class) (c : class_t) (s : runtime) : outcome bool :=
  if (cls =? NSObject)%Z then
    let! impl := any_implements RR (category_lists c) s in Ret (swizzled RR s || impl)
  else match c_superclass c with
       | None => Ret true
       | Some super =>
           let! sc := class_at s super in
           if hasCustom RR sc then Ret true
           else let! impl := any_implements RR (lists_of (c_methods c)) s in Ret (swizzled RR s || impl)
       end.

Definition setInitialized (cls : Class) (s : runtime) : outcome runtime :=
  let! c := class_at s cls in
  let! _ := cassert (negb (c_isMeta c)) in
  let metacls := c_isa c in
  let! mc := class_at s metacls in
  let! customAWZ := metaCustomAWZ metacls mc s in
  let! s := (if customAWZ then Ret s else setHasDefault AWZ metacls s) in
  let! customRR := clsCustomRR cls c s in
  let! s := (if customRR then Ret s else setHasDefault RR cls s) in
  update metacls (fun c => clearBits RW_INITIALIZING (setBits RW_INITIALIZED c)) s.

(** ** Method lookup *)

(** [attempts] is the counter before it is decremented. *)
Fixpoint search_superclasses (attempts : nat) (cls : Class) (sel : string) (curClass : option Class) (s : runtime)
  : outcome (option IMP * runtime) :=
  match curClass with
  | None => Ret (None, s)
  | Some cur =>
      match attempts with
      | O | S O => Fault
      | S attempts' =>
          let! imp := cache_getImp s cur sel in
          if bool_decide (imp <> nil_imp) then
            if bool_decide (imp <> _objc_msgForward_impcache) then
              let! s := cache_fill cls sel imp s in Ret (Some imp, s)
            else Ret (None, s)
          else
            let! meth := getMethodNoSuper_nolock s cur sel in
            match meth with
            | Some m =>
                let! meth := method_at s m in
                let! s := cache_fill cls sel (_imp meth) s in Ret (Some (_imp meth), s)
            | None => let! c := class_at s cur in search_superclasses attempts' cls sel (c_superclass c) s
            end
      end
  end.

(** From the label [retry] to the resolver. *)
Definition retry (cls : Class) (sel : string) (s : runtime) : outcome (option IMP * runtime) :=
  let! imp := cache_getImp s cls sel in
  if bool_decide (imp <> nil_imp) then Ret (Some imp, s) else
  let! meth := getMethodNoSuper_nolock s cls sel in
  match meth with
  | Some m =>
      let! meth := method_at s m in
      let! s := cache_fill cls sel (_imp meth) s in Ret (Some (_imp meth), s)
  | None =>
      let! c := class_at s cls in
      search_superclasses (unreasonableClassCount pre s) cls sel (c_superclass c) s
  end.

(** [lookUpImpOrForward] without initialization; [resolver] stands for
    [resolveMethod], which runs without the lock. *)
Definition lookUpImpOrForward (resolver : option (runtime -> outcome runtime)) (cls : Class) (sel : string)
    (s : runtime) : outcome (IMP * runtime) :=
  let! (imp, s) := retry cls sel s in
  match imp with
  | Some imp => Ret (imp, s)
  | None =>
      let! (imp, s) :=
        match resolver with
        | Some resolveMethod => let! s := resolveMethod s in retry cls sel s
        | None => Ret (None, s)
        end in
      match imp with
      | Some imp => Ret (imp, s)
      | None => let! s := cache_fill cls sel _objc_msgForward_impcache s in Ret (_objc_msgForward_impcache, s)
      end
  end.

End Changes.
