(* ===== verification/ClassInvariant.v ===== *)
(** * The invariant of the classes

    What the operations of ClassChanges.v rely on and keep: the links describe a
    forest, every method list belongs to one class and can be searched, every
    cached answer is the answer of the search through the superclasses, and the
    bits for default retain, release and alloc methods are set only where the
    methods of NSObject answer.  Here: the invariant, and what depends on which
    part of the state. *)

From Stdlib Require Import ZArith Lia Bool String.
From stdpp Require Import base list gmap strings.
From S2P Require Import Prelude ObjCData MethodList ClassTree ClassTreeSpec ClassChanges.

Local Open Scope nat_scope.

(** ** The search without caches *)

Definition list_methods (s : runtime) (p : mlist_ptr) : list _objc_method :=
  from_option mlist_methods [] (rt_mlists s !! p).

(** The methods of a class in the order of precedence. *)
Definition methods_of (s : runtime) (c : class_t) : list _objc_method :=
  lists_of (c_methods c) ≫= list_methods s.

Definition own (s : runtime) (c : class_t) (sel : string) : option IMP := _imp <$> find_method sel (methods_of s c).

(** [answers s cur sel r]: from [cur] up, the first implementation of [sel]. *)
Inductive answers (s : runtime) (sel : string) : option Class -> option IMP -> Prop :=
| answers_nil : answers s sel None None
| answers_own c rc i : rt_classes s !! c = Some rc -> own s rc sel = Some i -> answers s sel (Some c) (Some i)
| answers_super c rc r : rt_classes s !! c = Some rc -> own s rc sel = None -> answers s sel (c_superclass rc) r ->
    answers s sel (Some c) r.

(** What a lookup gives back: a missing method is forwarded. *)
Definition as_imp (r : option IMP) : IMP := default _objc_msgForward_impcache r.

Lemma answers_unique s sel cur r r' : answers s sel cur r -> answers s sel cur r' -> r = r'.
Proof.
  intros H. revert r'. induction H as [|c rc i Hc Ho|c rc r Hc Ho _ IH]; inversion 1; subst; simplify_eq; auto.
Qed.

(** ** The parts of the state *)

Section Parts.
Context (sel_addr : string -> Z).

(** The list is in memory, and a search in it finds the first method. *)
Definition searchable_at (s : runtime) (p : mlist_ptr) : Prop :=
  exists ml, rt_mlists s !! p = Some ml /\ searchable sel_addr ml.

(** All of a class but its cache and its bits. *)
Definition core (c : class_t) :=
  (c_isa c, c_superclass c, c_firstSubclass c, c_nextSiblingClass c, c_isMeta c, c_baseMethods c, c_methods c).

(** The searches in a list give the same. *)
Definition same_list (s s' : runtime) (p : mlist_ptr) : Prop :=
  (forall sel, find_method sel (list_methods s p) = find_method sel (list_methods s' p)) /\
  (searchable_at s p <-> searchable_at s' p).

Definition same_core (s s' : runtime) : Prop :=
  (core <$> rt_classes s) = (core <$> rt_classes s') /\ (forall p, same_list s s' p) /\
  _firstRealizedClass s = _firstRealizedClass s' /\ gdb_objc_realized_classes s = gdb_objc_realized_classes s'.

Lemma same_list_sym s s' p : same_list s s' p -> same_list s' s p.
Proof. intros [H1 H2]. split; [intros sel; by rewrite H1|by rewrite H2]. Qed.

Lemma same_list_trans s s' s'' p : same_list s s' p -> same_list s' s'' p -> same_list s s'' p.
Proof. intros [H1 H2] [H3 H4]. split; [intros sel; by rewrite H1, H3|by rewrite H2, H4]. Qed.

Lemma same_list_eq s s' p : rt_mlists s' !! p = rt_mlists s !! p -> same_list s s' p.
Proof. intros He. unfold same_list, searchable_at, list_methods. by rewrite He. Qed.

#[export] Instance same_core_equiv : Equivalence same_core.
Proof.
  split.
  - intros s. split_and!; [done|intros p; by apply same_list_eq|done..].
  - intros s s' (H1 & H2 & H3 & H4). split_and!; [done|intros p; by apply same_list_sym|done..].
  - intros s s' s'' (H1 & H2 & H3 & H4) (I1 & I2 & I3 & I4). split_and!; [by etrans| |by etrans|by etrans].
    intros p. by eapply same_list_trans.
Qed.

Lemma find_lists s s' sel lists : (forall p, p ∈ lists -> same_list s s' p) ->
  find_method sel (lists ≫= list_methods s) = find_method sel (lists ≫= list_methods s').
Proof.
  induction lists as [|p lists IH]; intros Hs; [done|]. csimpl. rewrite !find_method_app.
  destruct (Hs p ltac:(by left)) as [-> _]. rewrite IH; [done|]. intros q Hq. apply Hs. by right.
Qed.

Lemma same_core_at s s' c rc : same_core s s' -> rt_classes s !! c = Some rc ->
  exists rc', rt_classes s' !! c = Some rc' /\ core rc' = core rc.
Proof.
  intros [Hl _] Hc. assert (H : (core <$> rt_classes s') !! c = Some (core rc)).
  { rewrite <- Hl, lookup_fmap, Hc. done. }
  rewrite lookup_fmap in H. destruct (rt_classes s' !! c) as [rc'|]; [|done]. simpl in H. exists rc'.
  split; [done|]. congruence.
Qed.

Lemma same_core_links s s' : same_core s s' -> same_links s s'.
Proof.
  intros (Hc & _ & Hr & _). split; [|done].
  assert (Hf : forall m : gmap Class class_t,
    (links <$> m) = (fun x => let '(_, p, f, n, _, _, _) := x in (p, f, n)) <$> (core <$> m)).
  { intros m. rewrite <- map_fmap_compose. by apply map_fmap_ext. }
  by rewrite !Hf, Hc.
Qed.

Lemma own_lists s s' rc rc' sel : (forall p, p ∈ lists_of (c_methods rc) -> same_list s s' p) ->
  c_methods rc' = c_methods rc -> own s' rc' sel = own s rc sel.
Proof. intros Hm He. unfold own, methods_of. rewrite He. by rewrite (find_lists s s'). Qed.

Lemma own_core s s' rc rc' sel : same_core s s' -> core rc' = core rc -> own s' rc' sel = own s rc sel.
Proof. intros (_ & Hm & _) He. apply own_lists; [auto|]. by injection He. Qed.

(** ** Frame of the search *)

(** The answer for [d] depends on [d] and the classes above it. *)
Lemma answers_frame s s' sel d r :
  (forall a ra, sub s d a -> rt_classes s !! a = Some ra -> exists ra', rt_classes s' !! a = Some ra' /\
     c_superclass ra' = c_superclass ra /\ own s' ra' sel = own s ra sel) ->
  answers s sel (Some d) r -> answers s' sel (Some d) r.
Proof.
  intros Hf H. remember (Some d) as cur eqn:Ecur. revert d Ecur Hf.
  induction H as [|c rc i Hc Ho|c rc r Hc Ho Ha IH]; intros d [= ->] Hf;
    destruct (Hf d rc) as (rd & Hd & Hp & Ho'); [constructor; eauto|done| |constructor; eauto|done|].
  - eapply answers_own; [done|]. congruence.
  - eapply answers_super; [done|congruence|]. rewrite Hp. destruct (c_superclass rc) as [p|] eqn:Ep.
    + apply (IH p); [done|]. intros a ra Hs. apply Hf. by eapply sub_up.
    + inversion Ha; subst. constructor.
Qed.

Lemma answers_core s s' sel d r : same_core s s' -> answers s sel (Some d) r -> answers s' sel (Some d) r.
Proof.
  intros Hc. apply answers_frame. intros a ra _ Ha. destruct (same_core_at _ _ _ _ Hc Ha) as (ra' & Ha' & He).
  exists ra'. split_and!; [done| |].
  - by injection He.
  - by apply own_core.
Qed.

End Parts.

(** Every class has an answer for every selector. *)
Lemma answers_total s sel d : class_tree s -> is_Some (rt_classes s !! d) -> exists r, answers s sel (Some d) r.
Proof.
  intros (kids & depth & T). remember (depth d) as n eqn:Hn. revert d Hn. induction (lt_wf n) as [n _ IH].
  intros d -> [rd Hd]. destruct (own s rd sel) as [i|] eqn:Eo; [exists (Some i); by eapply answers_own|].
  destruct (c_superclass rd) as [p|] eqn:Hp.
  - destruct (t_super _ _ _ T _ _ _ Hd Hp) as [Hs Hlt]. destruct (IH _ Hlt p eq_refl Hs) as [r Hr].
    exists r. eapply answers_super; [done|done|]. by rewrite Hp.
  - exists None. eapply answers_super; [done|done|]. rewrite Hp. constructor.
Qed.

Section Invariant.
Context (sel_addr : string -> Z) (pre : nat).
(** NSObject and its metaclass, and the implementations of the tracked methods
    they are compiled with. *)
Context (NSObject NSObjectMeta : Class) (original : custom -> string -> option IMP).

Definition root_of (k : custom) : Class := match k with RR => NSObject | AWZ => NSObjectMeta end.

(** ** Method lists *)

Record lists_ok (s : runtime) : Prop := mk_lists_ok {
  lo_search : forall c rc p, rt_classes s !! c = Some rc -> p ∈ lists_of (c_methods rc) ->
    searchable_at sel_addr s p;
  lo_owner : forall c1 c2 rc1 rc2 p, rt_classes s !! c1 = Some rc1 -> rt_classes s !! c2 = Some rc2 ->
    p ∈ lists_of (c_methods rc1) -> p ∈ lists_of (c_methods rc2) -> c1 = c2 }.

(** ** Metaclasses *)

(** Every class has a metaclass; NSObject and its metaclass are the roots, with
    base methods that are the last of their lists. *)
Record isa_ok (s : runtime) : Prop := mk_isa_ok {
  i_meta : forall c rc, rt_classes s !! c = Some rc -> is_Some (rt_classes s !! c_isa rc);
  i_ismeta : forall c rc rm, rt_classes s !! c = Some rc -> rt_classes s !! c_isa rc = Some rm -> c_isMeta rm = true;
  i_super : forall c rc, rt_classes s !! c = Some rc -> c_isMeta rc = true -> c_superclass rc <> None;
  i_root : exists rc rm, rt_classes s !! NSObject = Some rc /\ rt_classes s !! NSObjectMeta = Some rm /\
    c_isa rc = NSObjectMeta /\ c_isMeta rc = false /\ c_isMeta rm = true /\
    c_superclass rc = None /\ c_superclass rm = Some NSObject;
  i_base : forall k rc, rt_classes s !! root_of k = Some rc ->
    exists b cats, c_baseMethods rc = Some b /\ lists_of (c_methods rc) = cats ++ [b] }.

(** ** Caches *)

Definition cache_ok (s : runtime) (c : Class) (rc : class_t) : Prop :=
  forall sel i, c_cache rc !! sel = Some i -> exists r, answers s sel (Some c) r /\ i = as_imp r.

Definition coherent (s : runtime) : Prop := forall c rc, rt_classes s !! c = Some rc -> cache_ok s c rc.

(** ** Bits *)

Definition initialized (s : runtime) (c : Class) : bool :=
  match rt_classes s !! c with
  | Some rc => match rt_classes s !! (if c_isMeta rc then c else c_isa rc) with
               | Some rm => has_flag RW_INITIALIZED rm
               | None => false
               end
  | None => false
  end.

(** The lists of the class hold none of the tracked selectors. *)
Definition untouched (k : custom) (l : list _objc_method) : Prop :=
  forall sel, sel ∈ selectors k -> find_method sel l = None.

(** The base methods of the root are the original ones. *)
Definition pristine (k : custom) (s : runtime) : Prop :=
  forall rc b, rt_classes s !! root_of k = Some rc -> c_baseMethods rc = Some b ->
    forall sel, sel ∈ selectors k -> _imp <$> find_method sel (list_methods s b) = original k sel.

Definition default_set (k : custom) (s : runtime) (c : Class) : Prop :=
  exists rc, rt_classes s !! c = Some rc /\ has_flag (default_bit k) rc = true.

Record bits_ok (k : custom) (s : runtime) : Prop := mk_bits_ok {
  b_init : forall c, default_set k s c -> initialized s c = true;
  b_super : forall c rc, default_set k s c -> rt_classes s !! c = Some rc -> c <> root_of k ->
    untouched k (methods_of s rc) /\ exists p, c_superclass rc = Some p /\ default_set k s p;
  b_root : forall rc, default_set k s (root_of k) -> rt_classes s !! root_of k = Some rc ->
    untouched k (category_lists rc ≫= list_methods s) /\ swizzled k s = false }.

(** Where the bit of the root is set or can still be set, nobody changed its
    base methods. *)
Definition swizzle_ok (k : custom) (s : runtime) : Prop :=
  swizzled k s = false -> (initialized s (root_of k) = true -> default_set k s (root_of k)) -> pristine k s.

(** A class is not being initialized after it was. *)
Definition once_ok (s : runtime) : Prop :=
  forall c rc, rt_classes s !! c = Some rc -> has_flag RW_INITIALIZING rc = true -> has_flag RW_INITIALIZED rc = false.

(** What holds also in the middle of an operation, before the caches are flushed
    and the change of a method is accounted for. *)
Record solid (s : runtime) : Prop := mk_solid {
  so_tree : class_tree s;
  so_room : reasonable pre s;
  so_lists : lists_ok s;
  so_isa : isa_ok s;
  so_bits : forall k, bits_ok k s;
  so_once : once_ok s }.

Record good (s : runtime) : Prop := mk_good {
  g_solid : solid s;
  g_coherent : coherent s;
  g_swizzle : forall k, swizzle_ok k s }.

(** ** What depends on the core *)

Lemma reasonable_core s s' : same_core sel_addr s s' -> reasonable pre s -> reasonable pre s'.
Proof.
  unfold reasonable, unreasonableClassCount. intros (Hc & _ & _ & Hn). rewrite <- Hn.
  assert (size (rt_classes s) = size (rt_classes s')) as ->; [|done].
  by rewrite <- (map_size_fmap core (rt_classes s)), Hc, map_size_fmap.
Qed.

Lemma lists_ok_core s s' : same_core sel_addr s s' -> lists_ok s -> lists_ok s'.
Proof.
  intros Hc [H1 H2]. pose proof (symmetry Hc) as Hc'. split.
  - intros c rc p Hr Hp. destruct (same_core_at _ _ _ _ _ Hc' Hr) as (rc' & Hr' & He). injection He as _ _ _ _ _ _ He.
    rewrite <- He in Hp. destruct Hc as (_ & Hl & _). apply Hl. by eapply H1.
  - intros c1 c2 rc1 rc2 p Hr1 Hr2 Hp1 Hp2.
    destruct (same_core_at _ _ _ _ _ Hc' Hr1) as (rc1' & Hr1' & He1). injection He1 as _ _ _ _ _ _ He1.
    destruct (same_core_at _ _ _ _ _ Hc' Hr2) as (rc2' & Hr2' & He2). injection He2 as _ _ _ _ _ _ He2.
    eapply H2; [done..| |]; by rewrite ?He1, ?He2.
Qed.

Lemma isa_ok_core s s' : same_core sel_addr s s' -> isa_ok s -> isa_ok s'.
Proof.
  intros Hc [H1 H0 HS (rc & rm & Hr & Hm & H2 & H3 & H4 & H5 & H6) H7]. pose proof (symmetry Hc) as Hc'. split.
  - intros c rc1 Hr1. destruct (same_core_at _ _ _ _ _ Hc' Hr1) as (rc' & Hr' & He). injection He as He _ _ _ _ _ _.
    destruct (H1 _ _ Hr') as [rm' Hm']. rewrite He in Hm'.
    destruct (same_core_at _ _ _ _ _ Hc Hm') as (rm2 & Hm2 & _). eauto.
  - intros c rc1 rm1 Hr1 Hm1. destruct (same_core_at _ _ _ _ _ Hc' Hr1) as (rc' & Hr' & He). injection He as He _ _ _ _ _ _.
    destruct (same_core_at _ _ _ _ _ Hc' Hm1) as (rm' & Hm' & Hf). injection Hf as _ _ _ _ Hf _ _.
    rewrite <- Hf. eapply H0; [exact Hr'|]. congruence.
  - intros c rc1 Hr1. destruct (same_core_at _ _ _ _ _ Hc' Hr1) as (rc' & Hr' & He). injection He as _ He1 _ _ He2 _ _.
    rewrite <- He1, <- He2. by apply (HS c).
  - destruct (same_core_at _ _ _ _ _ Hc Hr) as (rc' & Hr' & He), (same_core_at _ _ _ _ _ Hc Hm) as (rm' & Hm' & Hf).
    exists rc', rm'. injection He as -> -> _ _ -> _ _. injection Hf as _ -> _ _ -> _ _. done.
  - intros k rc1 Hr1. destruct (same_core_at _ _ _ _ _ Hc' Hr1) as (rc' & Hr' & He).
    injection He as _ _ _ _ _ He1 He2. destruct (H7 k rc' Hr') as (b & cats & Hb & Hl). exists b, cats. by rewrite <- He1, <- He2.
Qed.

End Invariant.
