(* ===== verification/ClassEffects.v ===== *)
(** * Effects of the walks

    What the walks of ClassChanges.v do to the classes they visit: flushing
    empties the caches below a class, marking a class as custom clears the bit
    there; and the search for a method in one class. *)

From Stdlib Require Import ZArith Lia Bool String.
From stdpp Require Import base list gmap strings.
From S2P Require Import Prelude ObjCData MethodList ClassTree ClassTreeSpec ClassChanges ClassInvariant.

Local Open Scope nat_scope.

(** ** Visits that change one class each *)

Definition put (c : Class) (rc : class_t) (s : runtime) : runtime := with_classes (<[c := rc]> (rt_classes s)) s.

(** [s'] is [s] with [g] applied to the classes in [D]. *)
Record effect (s s' : runtime) (D : Class -> Prop) (g : Class -> class_t -> class_t) : Prop := mk_effect {
  e_in : forall d, D d -> rt_classes s' !! d = g d <$> rt_classes s !! d;
  e_out : forall d, ~ D d -> rt_classes s' !! d = rt_classes s !! d;
  e_dec : forall d, D d \/ ~ D d;
  e_rest : s' = with_classes (rt_classes s') s }.

Lemma effect_at s s' D g d rc' : effect s s' D g -> rt_classes s' !! d = Some rc' ->
  exists rc, rt_classes s !! d = Some rc /\ (D d /\ rc' = g d rc \/ ~ D d /\ rc' = rc).
Proof.
  intros [H1 H2 H3 _] Hd. destruct (H3 d) as [HD|HD]; [rewrite H1 in Hd by done|rewrite H2 in Hd by done; eauto 6].
  apply fmap_Some in Hd as (rc & Hr & ->). eauto 6.
Qed.

Lemma effect_from s s' D g d rc : effect s s' D g -> rt_classes s !! d = Some rc ->
  exists rc', rt_classes s' !! d = Some rc' /\ (D d /\ rc' = g d rc \/ ~ D d /\ rc' = rc).
Proof.
  intros [H1 H2 H3 _] Hd. destruct (H3 d) as [HD|HD].
  - rewrite H1, Hd by done. simpl. eauto 6.
  - rewrite H2, Hd by done. eauto 6.
Qed.

(** A change that is the identity where it differs. *)
Lemma effect_ext s s' D g g' : effect s s' D g ->
  (forall d rc, D d -> rt_classes s !! d = Some rc -> g d rc = g' d rc) -> effect s s' D g'.
Proof.
  intros [H1 H2 H3 H4] He. split; [|done..]. intros d Hd. rewrite H1 by done.
  destruct (rt_classes s !! d) as [rc|] eqn:Er; [|done]. simpl. by rewrite He.
Qed.

Lemma effect_id s D g : (forall d, D d \/ ~ D d) -> (forall d rc, D d -> rt_classes s !! d = Some rc -> g d rc = rc) ->
  effect s s D g.
Proof.
  intros Hd He. split; [|done..|by destruct s]. intros d HD. destruct (rt_classes s !! d) as [rc|] eqn:Er; [|done].
  simpl. by rewrite He.
Qed.

(** A change that keeps some part [f] of the classes keeps it everywhere. *)
Lemma effect_keeps {A} (f : class_t -> A) s s' D g : effect s s' D g -> (forall d rc, f (g d rc) = f rc) ->
  (f <$> rt_classes s) = (f <$> rt_classes s').
Proof.
  intros [H1 H2 H3 _] Hf. apply map_eq. intros d. rewrite !lookup_fmap. destruct (H3 d) as [HD|HD].
  - rewrite H1 by done. destruct (rt_classes s !! d); simpl; by rewrite ?Hf.
  - by rewrite H2.
Qed.

Lemma effect_core sel_addr s s' D g : effect s s' D g -> (forall d rc, core (g d rc) = core rc) ->
  same_core sel_addr s s'.
Proof.
  intros He Hg. split; [by eapply effect_keeps|]. destruct He as [_ _ _ ->]. split_and!; [|done..].
  intros p. by apply same_list_eq.
Qed.

Section Visits.
Context (P : runtime -> Prop) (g : Class -> class_t -> class_t) (code : Class -> runtime -> outcome runtime).
Context (Hlinks : forall c rc, links (g c rc) = links rc).
Context (Hcode : forall c s rc, P s -> rt_classes s !! c = Some rc ->
  code c s = Ret (put c (g c rc) s) /\ P (put c (g c rc) s)).

Lemma visit_all_effect l s : P s -> NoDup l -> (forall c, c ∈ l -> is_Some (rt_classes s !! c)) ->
  exists s', visit_all code l s = Ret s' /\ P s' /\ effect s s' (fun d => d ∈ l) g.
Proof using Hcode.
  intros HP Hnd. revert s HP. induction Hnd as [|c l Hc Hnd IH]; intros s HP Hin.
  - exists s. split_and!; [done..|]. apply effect_id; [intros d; right; by intros ?%not_elem_of_nil|].
    intros d rc ?%not_elem_of_nil. done.
  - destruct (Hin c ltac:(by left)) as [rc Hr]. destruct (Hcode c s rc HP Hr) as [Hrun HP1].
    destruct (IH (put c (g c rc) s)) as (s' & Hv & HP' & [H1 H2 H3 H4]); [done| |].
    { intros d Hd. simpl. destruct (decide (c = d)) as [->|Hn]; [by rewrite lookup_insert_eq|].
      rewrite lookup_insert_ne by done. apply Hin. by right. }
    exists s'. split_and!; [simpl; by rewrite Hrun|done|]. split.
    + intros d [->|Hd]%elem_of_cons.
      * rewrite H2 by done. simpl. by rewrite lookup_insert_eq, Hr.
      * rewrite H1 by done. simpl. rewrite lookup_insert_ne; [done|]. intros ->. done.
    + intros d [Hdc Hd]%not_elem_of_cons. rewrite H2 by done. simpl. by rewrite lookup_insert_ne.
    + intros d. destruct (decide (d ∈ c :: l)); auto.
    + rewrite H4. done.
Qed.

Lemma put_links c rc s : rt_classes s !! c = Some rc -> same_links s (put c (g c rc) s).
Proof using Hlinks.
  intros Hr. apply (update_links c (g c)); [done|]. by apply update_at.
Qed.

Context (pre : nat) (s : runtime) (HP : P s) (Htree : class_tree s) (Hroom : reasonable pre s).

Lemma visits_return : let Q s' := P s' /\ same_links s s' in
  forall c s1, is_Some (rt_classes s !! c) -> Q s1 -> exists s', code c s1 = Ret s' /\ Q s'.
Proof using Hcode Hlinks.
  intros Q c s1 Hc [HP1 Hl1]. destruct (same_links_dom _ _ _ Hl1 Hc) as [rc Hr].
  destruct (Hcode c s1 rc HP1 Hr) as [Hrun HP2]. eexists. split; [done|]. split; [done|].
  etrans; [done|]. by apply put_links.
Qed.

Lemma foreach_effect top : is_Some (rt_classes s !! top) ->
  exists s', foreach_realized_class_and_subclass pre top code s = Ret s' /\ P s' /\ effect s s' (fun d => sub s d top) g.
Proof using All.
  intros Htop. destruct (foreach_subclass pre s Htree Hroom code (fun s' => P s' /\ same_links s s') (fun s' H => proj2 H)
    (conj HP (reflexivity s)) visits_return top Htop) as (l & s1 & Hnd & Hl & Hv & _ & Hw).
  destruct (visit_all_effect l s HP Hnd) as (s' & Hv' & HP' & [H1 H2 H3 H4]).
  { intros c Hc%Hl. by eapply sub_dom. }
  assert (s1 = s') as -> by congruence. exists s'. split_and!; [done..|]. split; [| | |done].
  - intros d Hd. apply H1. by apply Hl.
  - intros d Hd. apply H2. by rewrite Hl.
  - intros d. rewrite <- Hl. apply H3.
Qed.

Lemma foreach_all_effect :
  exists s', foreach_realized_class_and_metaclass pre code s = Ret s' /\ P s' /\ effect s s' (fun _ => True) g.
Proof using All.
  destruct (foreach_metaclass pre s Htree Hroom code (fun s' => P s' /\ same_links s s') (fun s' H => proj2 H)
    (conj HP (reflexivity s)) visits_return) as (l & s1 & Hnd & Hl & Hv & _ & Hw).
  destruct (visit_all_effect l s HP Hnd) as (s' & Hv' & HP' & [H1 H2 H3 H4]).
  { intros c. by rewrite Hl. }
  assert (s1 = s') as -> by congruence. exists s'. split_and!; [done..|]. split; [|done|auto|done].
  intros d _. destruct (H3 d) as [Hd|Hd]; [by apply H1|]. rewrite H2 by done.
  destruct (rt_classes s !! d) eqn:Er; [|done]. exfalso. apply Hd, Hl. eauto.
Qed.

End Visits.

(** ** Flushing *)

Definition below (s : runtime) (cls : option Class) (d : Class) : Prop :=
  match cls with Some c => sub s d c | None => True end.

Lemma flushCaches_effect pre cls s : class_tree s -> reasonable pre s ->
  (forall c, cls = Some c -> is_Some (rt_classes s !! c)) ->
  exists s', flushCaches pre cls s = Ret s' /\ effect s s' (below s cls) (fun _ => set_cache ∅).
Proof.
  intros Ht Hr Hc. assert (Hcode : forall c s rc, True -> rt_classes s !! c = Some rc ->
    cache_erase_nolock c s = Ret (put c (set_cache ∅ rc) s) /\ True).
  { intros c s1 rc _ Hs1. split; [|done]. by apply (update_at c (set_cache ∅)). }
  destruct cls as [c|].
  - destruct (foreach_effect (fun _ => True) (fun _ => set_cache ∅) cache_erase_nolock ltac:(done) Hcode pre s I Ht Hr c)
      as (s' & Hs' & _ & He); eauto.
  - destruct (foreach_all_effect (fun _ => True) (fun _ => set_cache ∅) cache_erase_nolock ltac:(done) Hcode pre s I Ht Hr)
      as (s' & Hs' & _ & He); eauto.
Qed.

(** ** Initialization *)

(** What [isInitialized] reads. *)
Definition init_core (c : class_t) : bool * Class * bool := (c_isMeta c, c_isa c, has_flag RW_INITIALIZED c).

Lemma initialized_keeps s s' c : (init_core <$> rt_classes s) = (init_core <$> rt_classes s') ->
  initialized s' c = initialized s c.
Proof.
  intros He. unfold initialized.
  assert (Hat : forall d, init_core <$> rt_classes s !! d = init_core <$> rt_classes s' !! d).
  { intros d. by rewrite <- !lookup_fmap, He. }
  pose proof (Hat c) as Hc. destruct (rt_classes s !! c) as [rc|], (rt_classes s' !! c) as [rc'|]; try done.
  simpl in Hc. injection Hc as Hm Hi _. rewrite Hm, Hi.
  pose proof (Hat (if c_isMeta rc' then c else c_isa rc')) as Hd.
  destruct (rt_classes s !! _) as [rm|], (rt_classes s' !! _) as [rm'|]; try done.
  simpl in Hd. by injection Hd as _ _ ->.
Qed.

Definition metas (s : runtime) : Prop :=
  forall c rc, rt_classes s !! c = Some rc -> is_Some (rt_classes s !! c_isa rc).

Lemma metas_keeps s s' : (init_core <$> rt_classes s) = (init_core <$> rt_classes s') -> metas s -> metas s'.
Proof.
  intros He Hm d rd Hd. assert (Hat : forall d, init_core <$> rt_classes s !! d = init_core <$> rt_classes s' !! d).
  { intros d0. by rewrite <- !lookup_fmap, He. }
  pose proof (Hat d) as Hd'. rewrite Hd in Hd'. apply fmap_Some in Hd' as (rd' & Hd' & [= _ Hisa _]).
  destruct (Hm _ _ Hd') as [rm Hrm]. pose proof (Hat (c_isa rd)) as Hd2. rewrite Hisa, Hrm in Hd2.
  symmetry in Hd2. apply fmap_Some in Hd2 as (? & ? & _). rewrite Hisa. eauto.
Qed.

Lemma isInitialized_spec s c : metas s -> is_Some (rt_classes s !! c) -> isInitialized s c = Ret (initialized s c).
Proof.
  intros Hm [rc Hc]. unfold isInitialized, getMeta, class_at, initialized. rewrite Hc. simpl.
  destruct (Hm _ _ Hc) as [rm Hrm]. destruct (c_isMeta rc); [by rewrite Hc|by rewrite Hrm].
Qed.

(** ** Marking as custom *)

Lemma has_flag_set f f' c : has_flag f (setBits f' c) = bool_decide (f = f') || has_flag f c.
Proof.
  unfold has_flag, setBits. simpl. destruct (decide (f = f')) as [->|Hn].
  - rewrite (bool_decide_true (f' = f')) by done. apply bool_decide_true. by apply elem_of_union_l, elem_of_singleton.
  - rewrite (bool_decide_false (f = f')) by done. apply bool_decide_ext. rewrite elem_of_union, elem_of_singleton. tauto.
Qed.

Lemma has_flag_clear f f' c : has_flag f (clearBits f' c) = negb (bool_decide (f = f')) && has_flag f c.
Proof.
  unfold has_flag, clearBits. simpl. destruct (decide (f = f')) as [->|Hn].
  - rewrite (bool_decide_true (f' = f')) by done. apply bool_decide_false. by intros [_ []%not_elem_of_singleton]%elem_of_difference.
  - rewrite (bool_decide_false (f = f')) by done. apply bool_decide_ext. rewrite elem_of_difference, elem_of_singleton. tauto.
Qed.

Lemma clearBits_id f c : has_flag f c = false -> clearBits f c = c.
Proof.
  unfold has_flag, clearBits, set_flags. intros Hf%bool_decide_eq_false. destruct c; simpl in *. f_equal.
  apply difference_disjoint_L, disjoint_singleton_r. done.
Qed.

Lemma sub_dec s d top : class_tree s -> sub s d top \/ ~ sub s d top.
Proof.
  intros (kids & depth & T). destruct (rt_classes s !! top) as [rt|] eqn:Et.
  - destruct (depth_bound s depth) as [M HM]. rewrite <- (preorder_sub _ _ _ T M HM M top d); [|eauto|lia].
    destruct (decide (d ∈ preorder kids M top)); auto.
  - right. intros Hs. destruct (sub_top_dom _ _ _ Hs) as [? ?]. congruence.
Qed.

Lemma default_set_dec k s c : default_set k s c \/ ~ default_set k s c.
Proof.
  destruct (rt_classes s !! c) as [rc|] eqn:Ec; [|right; intros (? & ? & _); congruence].
  destruct (has_flag (default_bit k) rc) eqn:Ef; [left; by exists rc|right; intros (? & ? & ?); congruence].
Qed.

Definition marked (k : custom) (s : runtime) (cls d : Class) : Prop := default_set k s cls /\ sub s d cls.

Lemma setHasCustom_effect k pre cls s : class_tree s -> reasonable pre s -> metas s ->
  (forall c, default_set k s c -> initialized s c = true) -> is_Some (rt_classes s !! cls) ->
  exists s', setHasCustom pre k cls s = Ret s' /\ effect s s' (marked k s cls) (fun _ => clearBits (default_bit k)).
Proof.
  intros Ht Hr Hm Hi [rc Hc]. unfold setHasCustom, class_at. rewrite Hc. simpl. unfold hasCustom.
  destruct (has_flag (default_bit k) rc) eqn:Ef; simpl; cycle 1.
  { exists s. split; [done|]. apply effect_id.
    - intros d. destruct (default_set_dec k s cls), (sub_dec s d cls Ht); unfold marked; tauto.
    - intros d rd [(rc' & Hc' & Hf') _]. congruence. }
  pose (P s1 := (init_core <$> rt_classes s) = (init_core <$> rt_classes s1)).
  pose (g d c := if (d =? cls)%Z || initialized s d then clearBits (default_bit k) c else c).
  destruct (foreach_effect P g (mark_custom k cls)) with (pre := pre) (s := s) (top := cls) as (s' & Hs' & _ & He); try done.
  - intros c rc0. unfold g. by destruct (_ || _).
  - intros c s1 rc1 HP Hc1. unfold P in *.
    pose proof (metas_keeps _ _ HP Hm) as Hm1.
    assert (Hput : P (put c (g c rc1) s1)).
    { unfold P. rewrite HP. simpl. rewrite fmap_insert. symmetry. apply insert_id. rewrite lookup_fmap, Hc1. simpl.
      f_equal. unfold g, init_core. destruct (_ || _); [|done]. simpl. rewrite has_flag_clear. by destruct k. }
    split; [|done]. unfold mark_custom.
    assert ((if (c =? cls)%Z then Ret true else isInitialized s1 c) = Ret ((c =? cls)%Z || initialized s c)) as ->.
    { destruct (c =? cls)%Z; [done|]. rewrite isInitialized_spec by eauto. by rewrite (initialized_keeps s). }
    simpl. unfold g. destruct (_ || _); simpl.
    + unfold class_at. rewrite Hc1. simpl. unfold hasCustom. destruct (has_flag (default_bit k) rc1) eqn:E1; simpl.
      * by apply update_at.
      * rewrite clearBits_id by done. unfold put. rewrite insert_id by done. by destruct s1.
    + unfold put. rewrite insert_id by done. by destruct s1.
  - exists s'. split; [done|].
    assert (Hdef : default_set k s cls) by (by exists rc).
    assert (He' : effect s s' (fun d => sub s d cls) (fun _ => clearBits (default_bit k))).
    { eapply effect_ext; [done|]. intros d rd Hd Hrd. unfold g. destruct (_ || _) eqn:E; [done|].
      apply orb_false_iff in E as [_ E]. symmetry. apply clearBits_id. destruct (has_flag (default_bit k) rd) eqn:Efd; [|done].
      rewrite Hi in E; [done|]. by exists rd. }
    destruct He' as [H1 H2 H3 H4]. split; [intros d [_ Hd]; by apply H1| |intros d; destruct (H3 d); unfold marked; tauto|done].
    intros d Hd. apply H2. intros Hs. by apply Hd.
Qed.
