(* ===== verification/ClassLookup.v ===== *)
(** * Lookup in classes that change

    Filling and flushing change the caches and nothing else; from a state that
    satisfies the invariant a lookup gives the answer of the search without
    caches and keeps the invariant. *)

From Stdlib Require Import ZArith Lia Bool String.
From stdpp Require Import base list gmap strings.
From S2P Require Import Prelude ObjCData MethodList ClassTree ClassTreeSpec ClassChanges ClassInvariant ClassEffects.

Local Open Scope nat_scope.

(** ** Search in one class *)

Section Search.
Context (sel_addr : string -> Z).

Definition lists_at (s : runtime) (lists : list mlist_ptr) : Prop :=
  forall p, p ∈ lists -> searchable_at sel_addr s p.

Lemma search_mlists_spec s lists sel : lists_at s lists ->
  exists r, search_mlists sel_addr s lists sel = Ret r /\
    match r with
    | None => find_method sel (lists ≫= list_methods s) = None
    | Some m => m.1 ∈ lists /\ exists meth, method_at s m = Ret meth /\ _cmd meth = sel /\
        find_method sel (lists ≫= list_methods s) = Some meth
    end.
Proof.
  induction lists as [|p lists IH]; intros Hl; [by exists None|].
  destruct (Hl p) as (ml & Hml & Hs); [by left|].
  destruct IH as (r & Hr & Hrm); [intros q Hq; apply Hl; by right|].
  cbn [search_mlists]. unfold mlist_at. rewrite Hml. cbn [of_option obind]. rewrite Hs. cbn [obind].
  csimpl. rewrite find_method_app.
  assert (list_methods s p = mlist_methods ml) as -> by (unfold list_methods; by rewrite Hml).
  rewrite <- find_index_method. destruct (find_index sel (mlist_methods ml)) as [i|] eqn:Ei.
  - destruct (find_index_lookup _ _ _ Ei) as (meth & Hm & Hcmd). exists (Some (p, i)). split_and!; [done|by left|].
    exists meth. unfold method_at, mlist_at. simpl. rewrite Hml. simpl. by rewrite Hm.
  - exists r. split; [done|]. simpl. destruct r as [m|]; [|done]. destruct Hrm as [H1 H2]. split; [by right|done].
Qed.

Lemma getMethodNoSuper_spec s c rc sel : lists_ok sel_addr s -> rt_classes s !! c = Some rc ->
  exists r, getMethodNoSuper_nolock sel_addr s c sel = Ret r /\
    match r with
    | None => own s rc sel = None
    | Some m => m.1 ∈ lists_of (c_methods rc) /\ exists meth, method_at s m = Ret meth /\ _cmd meth = sel /\
        own s rc sel = Some (_imp meth) /\ find_method sel (methods_of s rc) = Some meth
    end.
Proof.
  intros Hl Hc. destruct (search_mlists_spec s (lists_of (c_methods rc)) sel) as (r & Hr & Hm).
  { intros p Hp. by eapply lo_search. }
  exists r. unfold getMethodNoSuper_nolock, class_at. rewrite Hc. split; [done|]. unfold own.
  destruct r as [m|].
  - destruct Hm as [Hin (meth & H1 & H2 & H3)]. split; [done|]. exists meth. split_and!; [done..| |done].
    unfold methods_of. by rewrite H3.
  - unfold methods_of. by rewrite Hm.
Qed.

Lemma methodListImplements_spec k ml : searchable sel_addr ml ->
  exists b, methodListImplements sel_addr k ml = Ret b /\ (b = false <-> untouched k (mlist_methods ml)).
Proof.
  intros Hs. unfold methodListImplements, untouched. induction (selectors k) as [|sel sels IH].
  - exists false. split; [done|]. split; [intros _ sel ?%not_elem_of_nil|]; done.
  - cbn [implements_any]. rewrite Hs. cbn [obind]. pose proof (find_index_method sel (mlist_methods ml)) as Hf.
    destruct (find_index sel (mlist_methods ml)) as [i|] eqn:Ei.
    + exists true. split; [done|]. split; [done|]. intros Hn. rewrite Hn in Hf by (by left). simpl in Hf.
      destruct (find_index_lookup _ _ _ Ei) as (m & Hm & _). congruence.
    + destruct IH as (b & Hb & Hiff). exists b. split; [done|]. rewrite Hiff. split.
      * intros Hn sel' [->|Hin]%elem_of_cons; [by rewrite <- Hf|by apply Hn].
      * intros Hn sel' Hin. apply Hn. by right.
Qed.

Lemma untouched_app k l1 l2 : untouched k (l1 ++ l2) <-> untouched k l1 /\ untouched k l2.
Proof.
  unfold untouched. split.
  - intros H. split; intros sel Hs; specialize (H sel Hs); rewrite find_method_app in H; by destruct (find_method sel l1).
  - intros [H1 H2] sel Hs. rewrite find_method_app, H1 by done. by apply H2.
Qed.

Lemma any_implements_spec k lists s : lists_at s lists ->
  exists b, any_implements sel_addr k lists s = Ret b /\ (b = false <-> untouched k (lists ≫= list_methods s)).
Proof.
  induction lists as [|p lists IH]; intros Hl; [by exists false|].
  destruct (Hl p) as (ml & Hml & Hs); [by left|].
  destruct IH as (b & Hb & Hiff); [intros q Hq; apply Hl; by right|].
  destruct (methodListImplements_spec k ml Hs) as (b1 & Hb1 & Hiff1).
  cbn [any_implements]. unfold mlist_at. rewrite Hml. cbn [of_option obind]. rewrite Hb1. cbn [obind].
  csimpl. assert (list_methods s p = mlist_methods ml) as -> by (unfold list_methods; by rewrite Hml).
  setoid_rewrite untouched_app. destruct b1.
  - exists true. split; [done|]. rewrite <- Hiff1. split; [done|by intros [? _]].
  - exists b. split; [done|]. rewrite Hiff, <- Hiff1. split; [done|by intros [_ ?]].
Qed.

End Search.

(** ** Changes of the caches only *)

Definition without_caches (s : runtime) : runtime := with_classes (set_cache ∅ <$> rt_classes s) s.

Definition cache_only (s s' : runtime) : Prop := without_caches s = without_caches s'.

#[export] Instance cache_only_equiv : Equivalence cache_only.
Proof. split; unfold cache_only; repeat intro; congruence. Qed.

Lemma cache_only_classes s s' {A} (f : class_t -> A) : cache_only s s' -> (forall c, f (set_cache ∅ c) = f c) ->
  (f <$> rt_classes s) = (f <$> rt_classes s').
Proof.
  intros He Hf. assert (H : forall m : gmap Class class_t, f <$> m = f <$> (set_cache ∅ <$> m)).
  { intros m. rewrite <- map_fmap_compose. apply map_fmap_ext. intros c rc _. symmetry. apply Hf. }
  rewrite (H (rt_classes s)), (H (rt_classes s')). injection He as -> _ _ _ _ _. done.
Qed.

Lemma cache_only_core sel_addr s s' : cache_only s s' -> same_core sel_addr s s'.
Proof.
  intros He. split; [by apply cache_only_classes|]. injection He as _ Hm Hr Hn _ _. split_and!; [|done..].
  intros p. apply same_list_eq. by rewrite Hm.
Qed.

Lemma cache_only_at s s' c rc : cache_only s s' -> rt_classes s !! c = Some rc ->
  exists rc', rt_classes s' !! c = Some rc' /\ set_cache ∅ rc' = set_cache ∅ rc.
Proof.
  intros He Hc. assert (H : (set_cache ∅ <$> rt_classes s') !! c = Some (set_cache ∅ rc)).
  { injection He as <- _ _ _ _ _. by rewrite lookup_fmap, Hc. }
  rewrite lookup_fmap in H. destruct (rt_classes s' !! c) as [rc'|]; [|done]. simpl in H. exists rc'.
  split; [done|]. congruence.
Qed.

Lemma cache_only_flag s s' c rc rc' f : cache_only s s' -> rt_classes s !! c = Some rc ->
  rt_classes s' !! c = Some rc' -> has_flag f rc' = has_flag f rc.
Proof.
  intros He Hc Hc'. destruct (cache_only_at _ _ _ _ He Hc) as (rc1 & Hc1 & H).
  assert (rc1 = rc') as -> by congruence.
  apply (f_equal c_flags) in H. simpl in H. unfold has_flag. by rewrite H.
Qed.

Lemma cache_only_default k s s' c : cache_only s s' -> default_set k s c -> default_set k s' c.
Proof.
  intros He (rc & Hc & Hf). destruct (cache_only_at _ _ _ _ He Hc) as (rc' & Hc' & _). exists rc'. split; [done|].
  by rewrite (cache_only_flag _ _ _ _ _ _ He Hc Hc').
Qed.

Lemma effect_cache_only s s' D g : effect s s' D g -> (forall d rc, set_cache ∅ (g d rc) = set_cache ∅ rc) ->
  cache_only s s'.
Proof.
  intros He Hg. unfold cache_only, without_caches. rewrite (effect_keeps (set_cache ∅) s s' D g He Hg).
  by rewrite (e_rest _ _ _ _ He).
Qed.

(** ** The invariant and the caches *)

Lemma untouched_lists sel_addr k s s' lists : (forall p, p ∈ lists -> same_list sel_addr s s' p) ->
  untouched k (lists ≫= list_methods s) -> untouched k (lists ≫= list_methods s').
Proof. intros Hl Hu sel Hs. rewrite <- (find_lists sel_addr s s') by done. by apply Hu. Qed.

Lemma category_lists_core rc rc' : core rc' = core rc -> category_lists rc' = category_lists rc.
Proof. intros He. unfold category_lists. by injection He as _ _ _ _ _ -> ->. Qed.

Section Lookup.
Context (sel_addr : string -> Z) (pre : nat) (NSObject NSObjectMeta : Class) (original : custom -> string -> option IMP).

Local Abbreviation Good := (good sel_addr pre NSObject NSObjectMeta original).
Local Abbreviation Solid := (solid sel_addr pre NSObject NSObjectMeta).
Local Abbreviation Swizzle := (swizzle_ok NSObject NSObjectMeta original).
Local Abbreviation Bits := (bits_ok NSObject NSObjectMeta).
Local Abbreviation Root := (root_of NSObject NSObjectMeta).

(** The bits are right as long as what they depend on stays. *)
Lemma bits_ok_transport k s s' : same_core sel_addr s s' -> (forall c, initialized s' c = initialized s c) ->
  (forall c, default_set k s' c <-> default_set k s c) -> swizzled k s' = swizzled k s -> Bits k s -> Bits k s'.
Proof.
  intros Hc Hi Hd Hs [H1 H2 H3]. pose proof (symmetry Hc) as Hc'. split.
  - intros c Hdc%Hd. rewrite Hi. auto.
  - intros c rc' Hdc%Hd Hr Hn. destruct (same_core_at _ _ _ _ _ Hc' Hr) as (rc & Hr0 & He).
    destruct (H2 c rc Hdc Hr0 Hn) as [Hu (p & Hp & Hdp)].
    destruct Hc as (_ & Hl & _). injection He as _ Hp' _ _ _ _ Hm. split.
    + unfold methods_of in *. rewrite <- Hm. by eapply untouched_lists.
    + exists p. split; [congruence|by apply Hd].
  - intros rc' Hdc%Hd Hr. destruct (same_core_at _ _ _ _ _ Hc' Hr) as (rc & Hr0 & He).
    destruct (H3 rc Hdc Hr0) as [Hu Hsw]. rewrite Hs. split; [|done].
    rewrite <- (category_lists_core _ _ He). destruct Hc as (_ & Hl & _). by eapply untouched_lists.
Qed.

Lemma pristine_core k s s' : same_core sel_addr s s' -> pristine NSObject NSObjectMeta original k s ->
  pristine NSObject NSObjectMeta original k s'.
Proof.
  intros Hc Hp rc' b Hr Hb. destruct (same_core_at _ _ _ _ _ (symmetry Hc) Hr) as (rc & Hr0 & He).
  intros sel Hs. destruct Hc as (_ & Hl & _). destruct (Hl b) as [<- _]. apply (Hp rc b Hr0); [|done].
  by injection He as _ _ _ _ _ -> _.
Qed.

(** The bit of the root may also be cleared. *)
Lemma swizzle_ok_transport k s s' : same_core sel_addr s s' -> (forall c, initialized s' c = initialized s c) ->
  (default_set k s' (Root k) -> default_set k s (Root k)) -> swizzled k s' = swizzled k s -> Swizzle k s -> Swizzle k s'.
Proof.
  intros Hc Hi Hd Hs Hsw. unfold swizzle_ok. rewrite Hs, Hi. intros Hf Hr. eapply pristine_core; [done|]. auto.
Qed.

Lemma cache_only_solid s s' : cache_only s s' -> Solid s -> Solid s'.
Proof.
  intros He [H1 H2 H3 H4 H5 H6]. pose proof (cache_only_core sel_addr _ _ He) as Hcore. split.
  - eapply class_tree_links; [by eapply same_core_links|done].
  - by eapply reasonable_core.
  - by eapply lists_ok_core.
  - by eapply isa_ok_core.
  - intros k. eapply bits_ok_transport; [done| | | |apply H5].
    + intros c. apply initialized_keeps. by apply cache_only_classes.
    + intros c. split; [apply cache_only_default; by symmetry|by apply cache_only_default].
    + injection He as _ _ _ _ Hr Ha. destruct k; by symmetry.
  - intros c rc' Hr Hf. destruct (cache_only_at _ _ _ _ (symmetry He) Hr) as (rc & Hr0 & _).
    rewrite (cache_only_flag _ _ _ _ _ RW_INITIALIZING He Hr0 Hr) in Hf.
    rewrite (cache_only_flag _ _ _ _ _ RW_INITIALIZED He Hr0 Hr). by eapply H6.
Qed.

Lemma cache_only_swizzle k s s' : cache_only s s' -> Swizzle k s -> Swizzle k s'.
Proof.
  intros He. apply swizzle_ok_transport.
  - by apply cache_only_core.
  - intros c. apply initialized_keeps. by apply cache_only_classes.
  - apply cache_only_default. by symmetry.
  - injection He as _ _ _ _ Hr Ha. destruct k; by symmetry.
Qed.

Lemma cache_only_good s s' : cache_only s s' -> coherent s' -> Good s -> Good s'.
Proof.
  intros He Hc [H1 _ H3]. split; [by eapply cache_only_solid|done|]. intros k. by eapply cache_only_swizzle.
Qed.

Lemma solid_metas s : Solid s -> metas s.
Proof. intros Hg. exact (i_meta _ _ _ (so_isa _ _ _ _ _ Hg)). Qed.

Lemma good_metas s : Good s -> metas s.
Proof. intros Hg. exact (solid_metas _ (g_solid _ _ _ _ _ _ Hg)). Qed.

Lemma good_tree s : Good s -> class_tree s.
Proof. intros [[] ]. done. Qed.

Lemma good_room s : Good s -> reasonable pre s.
Proof. intros [[] ]. done. Qed.

Lemma good_lists s : Good s -> lists_ok sel_addr s.
Proof. intros [[] ]. done. Qed.

(** A class whose cache may hold only the answers of the new state. *)
Lemma coherent_core s s' c rc : same_core sel_addr s s' -> cache_ok s c rc -> cache_ok s' c rc.
Proof. intros Hc Ho sel i Hi. destruct (Ho sel i Hi) as (r & Hr & ->). exists r. split; [|done]. by eapply answers_core. Qed.

(** *** Filling *)

Lemma fill_spec s cls sel r : Good s -> is_Some (rt_classes s !! cls) -> answers s sel (Some cls) r ->
  exists s', cache_fill cls sel (as_imp r) s = Ret s' /\ cache_only s s' /\ Good s'.
Proof.
  intros Hg [rc Hc] Ha. unfold cache_fill. rewrite isInitialized_spec by eauto using good_metas. simpl.
  destruct (initialized s cls); simpl; [|by exists s].
  unfold cache_getImp, class_at. rewrite Hc. simpl. destruct (bool_decide _); [by exists s|].
  rewrite (update_at _ _ _ _ Hc). eexists. split; [done|].
  assert (He : cache_only s (with_classes (<[cls := set_cache (<[sel := as_imp r]> (c_cache rc)) rc]> (rt_classes s)) s)).
  { unfold cache_only, without_caches, with_classes. simpl. rewrite fmap_insert. f_equal. symmetry. apply insert_id.
    by rewrite lookup_fmap, Hc. }
  split; [done|]. eapply cache_only_good; [done| |done]. pose proof (cache_only_core sel_addr _ _ He) as Hcore.
  intros d rd Hd. apply (coherent_core s _ d rd Hcore). simpl in Hd.
  apply lookup_insert_Some in Hd as [[<- <-]|[_ Hd]]; [|by eapply g_coherent].
  intros sel' i. simpl. intros [[<- <-]|[_ Hi]]%lookup_insert_Some; [eauto|]. by eapply g_coherent.
Qed.

(** *** The superclasses *)

Inductive chain (s : runtime) : option Class -> list Class -> Prop :=
| chain_nil : chain s None []
| chain_cons c rc l : rt_classes s !! c = Some rc -> chain s (c_superclass rc) l -> chain s (Some c) (c :: l).

Lemma chain_total s c : class_tree s -> is_Some (rt_classes s !! c) ->
  exists l, chain s (Some c) (c :: l) /\ length (c :: l) <= size (rt_classes s).
Proof.
  intros (kids & depth & T) Hc.
  assert (H : forall n c, depth c = n -> is_Some (rt_classes s !! c) ->
    exists l, chain s (Some c) (c :: l) /\ NoDup (c :: l) /\ forall d, d ∈ c :: l -> is_Some (rt_classes s !! d) /\ depth d <= depth c).
  { intros n. induction (lt_wf n) as [n _ IH]. intros d <- [rd Hd]. destruct (c_superclass rd) as [p|] eqn:Hp.
    - destruct (t_super _ _ _ T _ _ _ Hd Hp) as [Hs Hlt]. destruct (IH _ Hlt p eq_refl Hs) as (l & Hl & Hn & Hin).
      exists (p :: l). split_and!.
      + econstructor; [done|]. by rewrite Hp.
      + constructor; [|done]. intros [_ Hle]%Hin. lia.
      + intros e [->|He]%elem_of_cons; [eauto|]. apply Hin in He as [? ?]. split; [done|lia].
    - exists []. split_and!.
      + econstructor; [done|]. rewrite Hp. constructor.
      + apply NoDup_singleton.
      + intros e ->%list_elem_of_singleton. eauto. }
  destruct (H _ c eq_refl Hc) as (l & Hl & Hn & Hin). exists l. split; [done|]. apply nodup_size; [done|].
  intros d Hd. by apply Hin.
Qed.

(** What the search through the caches gives: the answer, or nothing where the
    answer is to forward. *)
Definition found (r : option IMP) (o : option IMP) : Prop :=
  o = Some (as_imp r) \/ o = None /\ as_imp r = _objc_msgForward_impcache.

Lemma fill_found s cls sel r (Hg : Good s) : is_Some (rt_classes s !! cls) -> answers s sel (Some cls) r ->
  exists o s', (let! s := cache_fill cls sel (as_imp r) s in Ret (Some (as_imp r), s)) = Ret (o, s') /\
    cache_only s s' /\ Good s' /\ found r o.
Proof.
  intros Hc Ha. destruct (fill_spec s cls sel r Hg Hc Ha) as (s' & -> & He & Hg').
  exists (Some (as_imp r)), s'. split_and!; [done..|by left].
Qed.

Lemma superclasses_spec attempts s cls sel cur r l : Good s -> is_Some (rt_classes s !! cls) ->
  answers s sel (Some cls) r -> answers s sel cur r -> chain s cur l -> length l < attempts ->
  exists o s', search_superclasses sel_addr attempts cls sel cur s = Ret (o, s') /\ cache_only s s' /\ Good s' /\ found r o.
Proof.
  intros Hg Hcls Ha. revert cur l. induction attempts as [|attempts IH]; intros cur l Hcur Hl Hlen; [lia|].
  inversion Hl as [|c rc l' Hc Hl']; subst.
  { inversion Hcur; subst. exists None, s. split_and!; [done..|by right]. }
  simpl in Hlen. destruct attempts as [|attempts]; [lia|]. cbn [search_superclasses].
  unfold cache_getImp at 1, class_at at 1. rewrite Hc. cbn [of_option obind].
  destruct (bool_decide_reflect (default nil_imp (c_cache rc !! sel) <> nil_imp)) as [Hhit|_].
  - destruct (c_cache rc !! sel) as [i|] eqn:Ei; [|done]. simpl in *.
    destruct (g_coherent _ _ _ _ _ _ Hg _ _ Hc _ _ Ei) as (r' & Hr' & ->).
    rewrite (answers_unique _ _ _ _ _ Hr' Hcur) in *.
    destruct (bool_decide_reflect (as_imp r <> _objc_msgForward_impcache)) as [_|Hf]; [by apply fill_found|].
    exists None, s. split_and!; [done..|]. right. split; [done|]. by apply dec_stable.
  - destruct (getMethodNoSuper_spec sel_addr s c rc sel (good_lists _ Hg) Hc) as (m & Hm & Hspec). rewrite Hm.
    cbn [obind]. destruct m as [m|].
    + destruct Hspec as [_ (meth & Hmeth & _ & Hown & _)]. rewrite Hmeth. cbn [obind].
      assert (r = Some (_imp meth)) as ->.
      { eapply answers_unique; [exact Hcur|]. by eapply answers_own. }
      by apply (fill_found s cls sel (Some (_imp meth))).
    + unfold class_at. rewrite Hc. cbn [of_option obind]. eapply IH; [|done|lia].
      inversion Hcur; subst; simplify_eq; done.
Qed.

Lemma retry_run_spec s cls sel r : Good s -> is_Some (rt_classes s !! cls) -> answers s sel (Some cls) r ->
  exists o s', retry sel_addr pre cls sel s = Ret (o, s') /\ cache_only s s' /\ Good s' /\ found r o.
Proof.
  intros Hg Hcls Ha. pose proof Hcls as [rc Hc]. unfold retry, cache_getImp, class_at. rewrite Hc. cbn [of_option obind].
  destruct (bool_decide_reflect (default nil_imp (c_cache rc !! sel) <> nil_imp)) as [Hhit|_].
  - destruct (c_cache rc !! sel) as [i|] eqn:Ei; [|done]. simpl in *.
    destruct (g_coherent _ _ _ _ _ _ Hg _ _ Hc _ _ Ei) as (r' & Hr' & ->).
    rewrite (answers_unique _ _ _ _ _ Hr' Ha) in *. eexists _, s. split_and!; [done..|by left].
  - destruct (getMethodNoSuper_spec sel_addr s cls rc sel (good_lists _ Hg) Hc) as (m & Hm & Hspec). rewrite Hm.
    cbn [obind]. destruct m as [m|].
    + destruct Hspec as [_ (meth & Hmeth & _ & Hown & _)]. rewrite Hmeth. cbn [obind].
      assert (r = Some (_imp meth)) as ->.
      { eapply answers_unique; [exact Ha|]. by eapply answers_own. }
      by apply (fill_found s cls sel (Some (_imp meth))).
    + destruct (chain_total s cls (good_tree _ Hg) Hcls) as (l & Hl & Hlen). inversion Hl as [|? rc' ? Hc' Hl']; subst.
      assert (rc' = rc) as -> by congruence. eapply superclasses_spec; [done..| |exact Hl'|].
      * inversion Ha; subst; simplify_eq; done.
      * pose proof (good_room _ Hg) as Hroom. unfold reasonable in Hroom. simpl in Hlen. lia.
Qed.

(** *** The whole lookup *)

(** The resolver may change classes; it keeps the invariant. *)
Lemma lookUp_spec s resolver cls sel : Good s -> is_Some (rt_classes s !! cls) ->
  (forall f s1, resolver = Some f -> Good s1 -> is_Some (rt_classes s1 !! cls) ->
     exists s2, f s1 = Ret s2 /\ Good s2 /\ is_Some (rt_classes s2 !! cls)) ->
  exists s1 s2 r, lookUpImpOrForward sel_addr pre resolver cls sel s = Ret (as_imp r, s2) /\
    answers s1 sel (Some cls) r /\ cache_only s1 s2 /\ Good s2 /\ (resolver = None -> s1 = s).
Proof.
  intros Hg Hcls Hres. destruct (answers_total s sel cls (good_tree _ Hg) Hcls) as [r Hr].
  destruct (retry_run_spec s cls sel r Hg Hcls Hr) as (o & s1 & Hrun & He & Hg1 & Hf).
  unfold lookUpImpOrForward. rewrite Hrun. cbn [obind]. destruct Hf as [->|[-> Hfw]].
  { exists s, s1, r. by split_and!. }
  assert (Hcls1 : is_Some (rt_classes s1 !! cls)).
  { eapply same_links_dom; [|done]. eapply same_core_links, (cache_only_core sel_addr); done. }
  assert (Hfin : forall s2 r2, Good s2 -> is_Some (rt_classes s2 !! cls) -> answers s2 sel (Some cls) r2 ->
    as_imp r2 = _objc_msgForward_impcache -> exists s3,
    (let! s := cache_fill cls sel _objc_msgForward_impcache s2 in Ret (_objc_msgForward_impcache, s)) = Ret (as_imp r2, s3) /\
    cache_only s2 s3 /\ Good s3).
  { intros s2 r2 Hg2 Hc2 Hr2 Hf2. destruct (fill_spec s2 cls sel r2 Hg2 Hc2 Hr2) as (s3 & Hs3 & He3 & Hg3).
    exists s3. rewrite <- Hf2, Hs3. by split_and!. }
  destruct resolver as [f|]; cbn [obind].
  - destruct (Hres f s1 eq_refl Hg1 Hcls1) as (s2 & Hs2 & Hg2 & Hc2). rewrite Hs2. cbn [obind].
    destruct (answers_total s2 sel cls (good_tree _ Hg2) Hc2) as [r2 Hr2].
    destruct (retry_run_spec s2 cls sel r2 Hg2 Hc2 Hr2) as (o2 & s3 & Hrun2 & He2 & Hg3 & Hf2). rewrite Hrun2. cbn [obind].
    destruct Hf2 as [->|[-> Hfw2]]; [exists s2, s3, r2; by split_and!|].
    destruct (Hfin s3 r2 Hg3) as (s4 & Hs4 & He4 & Hg4).
    + eapply same_links_dom; [|exact Hc2]. eapply same_core_links, (cache_only_core sel_addr); done.
    + eapply (answers_core sel_addr); [by apply cache_only_core|done].
    + done.
    + rewrite Hs4. exists s2, s4, r2. split_and!; [done|done|by etrans|done|done].
  - destruct (Hfin s1 r Hg1 Hcls1) as (s4 & Hs4 & He4 & Hg4); [eapply (answers_core sel_addr); [by apply cache_only_core|done]|done|].
    rewrite Hs4. exists s, s4, r. split_and!; [done|done|by etrans|done|done].
Qed.

End Lookup.
