(* ===== verification/ClassBits.v ===== *)
(** * The bits for default methods

    Marking a class as custom, and accounting for a changed method of NSObject,
    keep the invariant; where the bit is set the methods of NSObject answer. *)

From Stdlib Require Import ZArith Lia Bool String.
From stdpp Require Import base list gmap strings.
From S2P Require Import Prelude ObjCData MethodList ClassTree ClassTreeSpec ClassChanges ClassInvariant ClassEffects ClassLookup.

Local Open Scope nat_scope.

(** ** States with fewer bits set *)

Definition init_flags (c : class_t) : bool * bool := (has_flag RW_INITIALIZING c, has_flag RW_INITIALIZED c).

Section Less.
Context (sel_addr : string -> Z).

Record less_default (s s' : runtime) : Prop := mk_less_default {
  ld_core : same_core sel_addr s s';
  ld_cache : (c_cache <$> rt_classes s) = (c_cache <$> rt_classes s');
  ld_init : (init_flags <$> rt_classes s) = (init_flags <$> rt_classes s');
  ld_swizzled : forall k, swizzled k s' = swizzled k s;
  ld_default : forall k d, default_set k s' d -> default_set k s d }.

#[export] Instance less_default_preorder : PreOrder less_default.
Proof.
  split; [done|]. intros s1 s2 s3 [H1 H2 H3 H4 H5] [I1 I2 I3 I4 I5].
  split; [by etrans|by etrans|by etrans|intros k; by rewrite I4|auto].
Qed.

Lemma fmap_at {A} (f : class_t -> A) s s' c rc rc' : (f <$> rt_classes s) = (f <$> rt_classes s') ->
  rt_classes s !! c = Some rc -> rt_classes s' !! c = Some rc' -> f rc' = f rc.
Proof.
  intros He Hc Hc'. assert (H : (f <$> rt_classes s) !! c = (f <$> rt_classes s') !! c) by (by rewrite He).
  rewrite !lookup_fmap, Hc, Hc' in H. simpl in H. congruence.
Qed.

Lemma core_init s s' c : same_core sel_addr s s' -> (init_flags <$> rt_classes s) = (init_flags <$> rt_classes s') ->
  initialized s' c = initialized s c.
Proof.
  intros Hc Hi. apply initialized_keeps. apply map_eq. intros d. rewrite !lookup_fmap.
  destruct (rt_classes s !! d) as [rd|] eqn:Ed, (rt_classes s' !! d) as [rd'|] eqn:Ed'; try done; simpl.
  - destruct (same_core_at _ _ _ _ _ Hc Ed) as (rd2 & Hd2 & He). assert (rd2 = rd') as -> by congruence.
    pose proof (fmap_at _ _ _ _ _ _ Hi Ed Ed') as Hf. injection He as He1 _ _ _ He2 _ _. injection Hf as _ Hf.
    unfold init_core. congruence.
  - destruct (same_core_at _ _ _ _ _ Hc Ed) as (? & ? & _). congruence.
  - destruct (same_core_at _ _ _ _ _ (symmetry Hc) Ed') as (? & ? & _). congruence.
Qed.

Lemma less_default_coherent s s' : less_default s s' -> coherent s -> coherent s'.
Proof.
  intros [Hc Hca _ _ _] Hco c rc' Hr. destruct (same_core_at _ _ _ _ _ (symmetry Hc) Hr) as (rc & Hr0 & _).
  apply (coherent_core sel_addr s s' c rc' Hc). intros sel i. rewrite (fmap_at _ _ _ _ _ _ Hca Hr0 Hr). by apply Hco.
Qed.

Lemma less_default_once s s' : less_default s s' -> once_ok s -> once_ok s'.
Proof.
  intros [Hc _ Hi _ _] Ho c rc' Hr. destruct (same_core_at _ _ _ _ _ (symmetry Hc) Hr) as (rc & Hr0 & _).
  pose proof (fmap_at _ _ _ _ _ _ Hi Hr0 Hr) as Hf. injection Hf as -> ->. by apply (Ho c).
Qed.

End Less.

Section Bits.
Context (sel_addr : string -> Z) (pre : nat) (NSObject NSObjectMeta : Class) (original : custom -> string -> option IMP).

Local Abbreviation Good := (good sel_addr pre NSObject NSObjectMeta original).
Local Abbreviation Solid := (solid sel_addr pre NSObject NSObjectMeta).
Local Abbreviation Swizzle := (swizzle_ok NSObject NSObjectMeta original).
Local Abbreviation Bits := (bits_ok NSObject NSObjectMeta).
Local Abbreviation Root := (root_of NSObject NSObjectMeta).

Lemma less_default_swizzle k s s' : less_default sel_addr s s' -> Swizzle k s -> Swizzle k s'.
Proof.
  intros [Hc _ Hi Hs Hd]. eapply swizzle_ok_transport; [exact Hc| |by apply Hd|done].
  intros c. by eapply core_init.
Qed.

(** The bits stay right when those that stay are closed under superclasses. *)
Lemma less_default_bits k s s' : less_default sel_addr s s' ->
  (forall c rc p, default_set k s' c -> c <> Root k -> rt_classes s !! c = Some rc -> c_superclass rc = Some p ->
     default_set k s p -> default_set k s' p) -> Bits k s -> Bits k s'.
Proof.
  intros [Hc _ Hi Hs Hd] Hup [H1 H2 H3]. split.
  - intros c Hdc. rewrite (core_init sel_addr s s' c Hc Hi). auto.
  - intros c rc' Hdc Hr Hn. destruct (same_core_at _ _ _ _ _ (symmetry Hc) Hr) as (rc & Hr0 & He).
    destruct (H2 c rc (Hd _ _ Hdc) Hr0 Hn) as [Hu (p & Hp & Hdp)].
    split.
    + destruct Hc as (_ & Hl & _). injection He as _ _ _ _ _ _ Hm. unfold methods_of in *. rewrite <- Hm.
      by eapply untouched_lists.
    + exists p. split; [by injection He as _ <- _ _ _ _ _|by eapply Hup].
  - intros rc' Hdc Hr. destruct (same_core_at _ _ _ _ _ (symmetry Hc) Hr) as (rc & Hr0 & He).
    destruct (H3 rc (Hd _ _ Hdc) Hr0) as [Hu Hsw]. rewrite Hs. split; [|done].
    rewrite <- (category_lists_core _ _ He). destruct Hc as (_ & Hl & _). by eapply untouched_lists.
Qed.

(** ** Marking *)

Lemma clear_less_default k s s' D : effect s s' D (fun _ => clearBits (default_bit k)) -> less_default sel_addr s s'.
Proof.
  intros He. split.
  - by eapply effect_core.
  - by eapply effect_keeps.
  - eapply effect_keeps; [done|]. intros d rc. unfold init_flags. rewrite !has_flag_clear. by destruct k.
  - intros k'. rewrite (e_rest _ _ _ _ He). by destruct k'.
  - intros k' d (rd' & Hd & Hf). destruct (effect_at _ _ _ _ _ _ He Hd) as (rd & Hr & [[_ ->]|[_ ->]]); exists rd; split; try done.
    rewrite has_flag_clear in Hf. by apply andb_true_iff in Hf as [_ ?].
Qed.

Lemma clear_default k k' s s' D d : effect s s' D (fun _ => clearBits (default_bit k)) ->
  default_set k' s' d <-> default_set k' s d /\ ~ (k' = k /\ D d).
Proof.
  intros He. assert (Hkk : forall f, has_flag (default_bit k') (clearBits (default_bit k) f) = true <->
    has_flag (default_bit k') f = true /\ k' <> k).
  { intros f. rewrite has_flag_clear, andb_true_iff, negb_true_iff, bool_decide_eq_false.
    destruct k, k'; simpl; split; intros []; split; congruence. }
  split.
  - intros Hd. pose proof (ld_default _ _ _ (clear_less_default _ _ _ _ He) _ _ Hd). split; [done|]. intros [-> HD].
    destruct Hd as (rd' & Hr & Hf). rewrite (e_in _ _ _ _ He d HD) in Hr. apply fmap_Some in Hr as (rd & _ & ->).
    apply Hkk in Hf as [_ []]. done.
  - intros [(rd & Hr & Hf) Hn]. destruct (effect_from _ _ _ _ _ _ He Hr) as (rd' & Hr' & [[HD ->]|[_ ->]]); [|by exists rd].
    eexists. split; [exact Hr'|]. apply Hkk. split; [done|]. intros ->. by apply Hn.
Qed.

Lemma setHasCustom_spec k cls s : Solid s -> is_Some (rt_classes s !! cls) ->
  exists s', setHasCustom pre k cls s = Ret s' /\ Solid s' /\ less_default sel_addr s s' /\ ~ default_set k s' cls /\
    (forall k' d, k' <> k -> default_set k' s d -> default_set k' s' d) /\ rt_mlists s' = rt_mlists s.
Proof.
  intros [H1 H2 H3 H4 H5 H6] Hc.
  destruct (setHasCustom_effect k pre cls s H1 H2 (i_meta _ _ _ H4) (b_init _ _ _ _ (H5 k)) Hc) as (s' & Hs' & He).
  pose proof (clear_less_default _ _ _ _ He) as Hl. pose proof (ld_core _ _ _ Hl) as Hcore.
  exists s'. split_and!; [done| |done| | |by rewrite (e_rest _ _ _ _ He)].
  - split.
    + eapply class_tree_links; [by eapply same_core_links|done].
    + by eapply reasonable_core.
    + by eapply lists_ok_core.
    + by eapply isa_ok_core.
    + intros k'. apply (less_default_bits k' s s' Hl); [|apply H5].
      intros c rc p [Hdc Hnc]%(clear_default _ _ _ _ _ _ He) _ Hr Hp Hdp.
      apply (clear_default _ _ _ _ _ _ He). split; [done|]. intros [-> [Hcls Hsub]]. apply Hnc. split; [done|].
      split; [done|]. by eapply sub_up.
    + by eapply less_default_once.
  - intros [Hd Hn]%(clear_default _ _ _ _ _ _ He). apply Hn. split; [done|]. split; [done|]. by constructor.
  - intros k' d Hk Hd. apply (clear_default _ _ _ _ _ _ He). split; [done|]. by intros [? _].
Qed.

(** ** A changed method *)

Lemma set_swizzled_core k s : same_core sel_addr s (set_swizzled k s).
Proof. split_and!; [done|intros p; by apply same_list_eq|done..]. Qed.

Lemma set_swizzled_solid k s : Solid s -> ~ default_set k s (Root k) -> Solid (set_swizzled k s).
Proof.
  intros [H1 H2 H3 H4 H5 H6] Hn. split; [by apply (class_tree_links s)|done|destruct H3; by split|destruct H4; by split| |done].
  intros k'. destruct (H5 k') as [B1 B2 B3]. split; [done|done|]. intros rc Hd Hr.
  destruct (B3 rc Hd Hr) as [Hu Hs]. split; [done|]. destruct k, k'; try done.
Qed.

(** After a method of the root has changed [swizzle_ok] may fail; it holds again
    once the change is accounted for. *)
Lemma update_custom_spec k cls m s : Solid s -> coherent s ->
  exists s', update_custom pre k (Root k) cls m s = Ret s' /\ Solid s' /\ coherent s' /\ same_core sel_addr s s' /\
    rt_mlists s' = rt_mlists s /\ (forall k', Swizzle k' s -> Swizzle k' s') /\
    (is_method_of s (Root k) m = Ret true -> Swizzle k s').
Proof.
  intros Hs Hco. pose proof (i_root _ _ _ (so_isa _ _ _ _ _ Hs)) as (rc & rm & Hr & Hm & _).
  assert (exists rt, rt_classes s !! Root k = Some rt) as [rt Hrt] by (destruct k; eauto).
  unfold update_custom. rewrite isInitialized_spec by eauto using solid_metas. cbn [obind].
  unfold class_at. rewrite Hrt. cbn [of_option obind].
  destruct ((initialized s (Root k) && hasCustom k rt) || swizzled k s) eqn:E0.
  { exists s. split_and!; [done..|]. intros _ Hsw Hinit. rewrite Hsw, orb_false_r in E0.
    apply andb_true_iff in E0 as [Hi Hcu]. apply Hinit in Hi as (rt' & Hrt' & Hf). unfold hasCustom in Hcu.
    assert (rt' = rt) as -> by congruence. by rewrite Hf in Hcu. }
  assert (Hfin : exists s', (if initialized s (Root k) then setHasCustom pre k (Root k) s else Ret (set_swizzled k s)) = Ret s'
    /\ Solid s' /\ coherent s' /\ same_core sel_addr s s' /\ rt_mlists s' = rt_mlists s /\
    (forall k', Swizzle k' s -> Swizzle k' s') /\ Swizzle k s').
  { destruct (initialized s (Root k)) eqn:Ei.
    - destruct (setHasCustom_spec k (Root k) s Hs ltac:(eauto)) as (s' & Hs' & Hso & Hl & Hnd & _ & Hml).
      pose proof (ld_core _ _ _ Hl) as Hcore. exists s'.
      split_and!; [done|done|by eapply less_default_coherent|done|done|intros k'; by apply less_default_swizzle|].
      intros _ Hinit. exfalso. apply Hnd, Hinit. by rewrite (core_init sel_addr s s' _ Hcore (ld_init _ _ _ Hl)).
    - exists (set_swizzled k s). split_and!; [done| | |apply set_swizzled_core|done| |by destruct k; intros [=]].
      + apply set_swizzled_solid; [done|]. intros Hd%(b_init _ _ _ _ (so_bits _ _ _ _ _ Hs k)). congruence.
      + intros c rc' Hc. apply (coherent_core sel_addr s); [apply set_swizzled_core|by apply Hco].
      + intros k' Hk'. destruct (decide (k' = k)) as [->|Hn]; [by destruct k; intros [=]|].
        eapply (swizzle_ok_transport sel_addr _ _ _ k' s); [apply set_swizzled_core|done|done| |done]. by destruct k, k'. }
  destruct (bool_decide_reflect (cls = Some (Root k))) as [_|Hcls]; cbn [obind].
  - destruct Hfin as (s' & H1 & H2 & H3 & H4 & H5 & H6 & H7). exists s'. by split_and!.
  - assert (Hof : is_method_of s (Root k) m = Ret true \/ is_method_of s (Root k) m = Ret false).
    { unfold is_method_of, class_at. rewrite Hrt. simpl. destruct (existsb _ _); auto. }
    destruct Hof as [Hof|Hof]; rewrite Hof; cbn [obind].
    + destruct Hfin as (s' & H1 & H2 & H3 & H4 & H5 & H6 & H7). exists s'. by split_and!.
    + exists s. by split_and!.
Qed.

Lemma selectors_disjoint sel : sel ∈ RR_selectors -> sel ∉ AWZ_selectors.
Proof.
  unfold RR_selectors, AWZ_selectors. rewrite !elem_of_cons, !elem_of_nil. intuition congruence.
Qed.

Lemma updateCustom_spec cls m s meth : Solid s -> coherent s -> method_at s m = Ret meth ->
  exists s', updateCustomRR_AWZ pre NSObject cls m s = Ret s' /\ Solid s' /\ coherent s' /\ same_core sel_addr s s' /\
    rt_mlists s' = rt_mlists s /\ (forall k, Swizzle k s -> Swizzle k s') /\
    (forall k, _cmd meth ∈ selectors k -> is_method_of s (Root k) m = Ret true -> Swizzle k s').
Proof.
  intros Hs Hco Hm. unfold updateCustomRR_AWZ. rewrite Hm. cbn [obind]. unfold is_selector.
  destruct (bool_decide_reflect (_cmd meth ∈ selectors RR)) as [Hin|Hout].
  - destruct (update_custom_spec RR cls m s Hs Hco) as (s' & H1 & H2 & H3 & H4 & H5 & H6 & H7).
    exists s'. split_and!; [done..|]. intros [] Hk; [done|]. by destruct (selectors_disjoint _ Hin).
  - destruct (bool_decide_reflect (_cmd meth ∈ selectors AWZ)) as [Hin2|Hout2].
    + destruct (i_root _ _ _ (so_isa _ _ _ _ _ Hs)) as (rc & rm & Hr & _ & Hisa & _).
      unfold class_at. rewrite Hr. cbn [of_option obind]. rewrite Hisa.
      destruct (update_custom_spec AWZ cls m s Hs Hco) as (s' & H1 & H2 & H3 & H4 & H5 & H6 & H7).
      exists s'. split_and!; [done..|]. by intros [] Hk.
    + exists s. split_and!; [done..|]. by intros [] Hk.
Qed.

(** ** The methods of NSObject answer where the bit is set *)

Lemma category_lists_snoc rc l b b' : lists_of (c_methods rc) = l ++ [b] -> c_baseMethods rc = Some b' ->
  category_lists rc = l.
Proof.
  intros Hl Hb. unfold category_lists. rewrite Hl, Hb. destruct l as [|x l]; [done|]. cbn [app].
  change (x :: l ++ [b]) with ((x :: l) ++ [b]). rewrite length_app. simpl.
  replace (length l + 1 - 0) with (S (length l)) by lia. simpl. by rewrite take_app_length.
Qed.

Lemma category_lists_root k s rc : isa_ok NSObject NSObjectMeta s -> rt_classes s !! Root k = Some rc ->
  exists b, c_baseMethods rc = Some b /\ lists_of (c_methods rc) = category_lists rc ++ [b].
Proof.
  intros Hi Hr. destruct (i_base _ _ _ Hi k rc Hr) as (b & cats & Hb & Hl). exists b. split; [done|].
  by rewrite (category_lists_snoc rc cats b b Hl Hb).
Qed.

Lemma default_answers k s c sel i : Good s -> default_set k s c -> sel ∈ selectors k -> original k sel = Some i ->
  answers s sel (Some c) (Some i).
Proof.
  intros [Hs _ Hsw] Hd Hsel Hor. destruct (so_tree _ _ _ _ _ Hs) as (kids & depth & T).
  remember (depth c) as n eqn:Hn. revert c Hn Hd. induction (lt_wf n) as [n _ IH]. intros c -> Hd.
  pose proof Hd as (rc & Hr & _). destruct (decide (c = Root k)) as [->|Hne].
  - destruct (b_root _ _ _ _ (so_bits _ _ _ _ _ Hs k) rc Hd Hr) as [Hu Hf].
    destruct (category_lists_root k s rc (so_isa _ _ _ _ _ Hs) Hr) as (b & Hb & Hl).
    eapply answers_own; [done|]. unfold own, methods_of. rewrite Hl, bind_app, find_method_app, Hu by done. csimpl.
    rewrite app_nil_r, (Hsw k Hf (fun _ => Hd) rc b Hr Hb sel Hsel). done.
  - destruct (b_super _ _ _ _ (so_bits _ _ _ _ _ Hs k) c rc Hd Hr Hne) as [Hu (p & Hp & Hdp)].
    destruct (t_super _ _ _ T _ _ _ Hr Hp) as [_ Hlt]. eapply answers_super; [done| |].
    + unfold own. by rewrite Hu.
    + rewrite Hp. by apply (IH (depth p)).
Qed.

End Bits.
