(* ===== verification/ClassMethodsSpec.v ===== *)
(** * Changing and adding methods

    Storing an implementation, installing a list of methods and attaching
    categories: each flushes the caches it must and keeps the invariant. *)

From Stdlib Require Import ZArith Lia Bool String.
From stdpp Require Import base list gmap strings.
From S2P Require Import Prelude ObjCData MethodList ClassTree ClassTreeSpec ClassChanges ClassInvariant ClassEffects ClassLookup ClassBits.

Local Open Scope nat_scope.

(** ** Searches depend on the names *)

Lemma find_index_names sel l l' : map _cmd l = map _cmd l' -> find_index sel l = find_index sel l'.
Proof.
  revert l'. induction l as [|m l IH]; intros [|m' l']; simpl; try done. intros [= Hm Hl].
  by rewrite Hm, (IH l' Hl).
Qed.

Lemma find_method_none_names sel l l' : map _cmd l = map _cmd l' -> find_method sel l = None <-> find_method sel l' = None.
Proof.
  intros Hn. rewrite <- !find_index_method. rewrite (find_index_names sel l l' Hn).
  destruct (find_index sel l') as [i|] eqn:Ei; [|done]. simpl.
  destruct (find_index_lookup _ _ _ Ei) as (m' & Hm' & _). pose proof Ei as Ei0. rewrite <- (find_index_names sel l l' Hn) in Ei0.
  destruct (find_index_lookup _ _ _ Ei0) as (m & Hm & _). by rewrite Hm, Hm'.
Qed.

Section Names.
Context (sel_addr : string -> Z).

Lemma names_at l l' i : map _cmd l = map _cmd l' -> name_addr sel_addr <$> l !! i = name_addr sel_addr <$> l' !! i.
Proof.
  intros Hn. assert (H : map _cmd l !! i = map _cmd l' !! i) by (by rewrite Hn).
  rewrite !list_lookup_fmap in H. unfold name_addr. destruct (l !! i), (l' !! i); simpl in *; congruence.
Qed.

Lemma rewind_names l l' kv p : map _cmd l = map _cmd l' -> rewind sel_addr l kv p = rewind sel_addr l' kv p.
Proof.
  intros Hn. induction p as [|p IH]; [done|]. simpl. pose proof (names_at l l' p Hn) as Hp.
  destruct (l !! p), (l' !! p); simpl in Hp; try done. injection Hp as ->. by rewrite IH.
Qed.

Lemma find_sorted_names k l l' kv base count : map _cmd l = map _cmd l' ->
  find_sorted sel_addr k l kv base count = find_sorted sel_addr k l' kv base count.
Proof.
  intros Hn. revert base count. induction k as [|k IH]; intros base count; [done|]. cbn [find_sorted].
  destruct (count =? 0); [done|]. pose proof (names_at l l' (base + count / 2) Hn) as Hp.
  destruct (l !! (base + count / 2)), (l' !! (base + count / 2)); simpl in Hp; try done. injection Hp as ->.
  by rewrite (rewind_names l l'), !IH.
Qed.

Lemma searchable_names ml l : map _cmd (mlist_methods ml) = map _cmd l ->
  searchable sel_addr ml <-> searchable sel_addr (set_entries l ml).
Proof.
  intros Hn. unfold searchable.
  assert (He : forall sel, search_method_list sel_addr ml sel = search_method_list sel_addr (set_entries l ml) sel).
  { intros sel. unfold search_method_list, findMethodInSortedMethodList.
    change (mlist_methods (set_entries l ml)) with l.
    assert (length (mlist_methods ml) = length l) as ->.
    { rewrite <- (length_map _cmd l), <- Hn. symmetry. apply length_map. }
    rewrite (find_sorted_names _ _ l _ _ _ Hn), (find_index_names sel _ l Hn). reflexivity. }
  split; intros Hs sel.
  - by rewrite <- He, Hs, (find_index_names _ _ l Hn).
  - rewrite He, Hs. unfold set_entries, mlist_methods in *. simpl. by rewrite (find_index_names _ _ l Hn).
Qed.

End Names.

(** The first method with a name, after one method was replaced. *)
Lemma find_method_insert sel l i m m' : l !! i = Some m -> _cmd m' = _cmd m -> sel <> _cmd m ->
  find_method sel (<[i := m']> l) = find_method sel l.
Proof.
  unfold find_method. intros Hi Hc Hn. assert (He : List.filter (fun m => String.eqb (_cmd m) sel) (<[i := m']> l)
    = List.filter (fun m => String.eqb (_cmd m) sel) l); [|by rewrite He].
  revert i Hi. induction l as [|x l IH]; intros [|i] Hi; simpl in *; simplify_eq; try done.
  - rewrite Hc. by destruct (String.eqb_spec (_cmd m) sel).
  - by rewrite IH.
Qed.

Lemma find_method_insert_eq sel l i m' : find_index sel l = Some i -> _cmd m' = sel ->
  find_method sel (<[i := m']> l) = Some m'.
Proof.
  unfold find_method. revert i. induction l as [|x l IH]; intros i; simpl; [done|].
  destruct (String.eqb_spec (_cmd x) sel) as [Hx|Hx].
  - intros [= <-] Hm. simpl. by rewrite Hm, String.eqb_refl.
  - destruct (find_index sel l) as [j|]; [|done]. intros [= <-] Hm. simpl.
    apply String.eqb_neq in Hx. rewrite Hx. by apply IH.
Qed.

Lemma alter_at {A} (f : A -> A) (l : list A) (i : nat) x : l !! i = Some x -> alter f i l = <[i := f x]> l.
Proof.
  intros Hx. apply list_eq. intros j. destruct (decide (j = i)) as [->|Hn].
  - rewrite list_lookup_alter_eq, list_lookup_insert_eq; [by rewrite Hx|]. by eapply lookup_lt_Some.
  - by rewrite list_lookup_alter_ne, list_lookup_insert_ne.
Qed.

Lemma set_entries_methods l ml : mlist_methods (set_entries l ml) = l.
Proof. done. Qed.

Section Methods.
Context (sel_addr : string -> Z) (Hinj : forall a b, sel_addr a = sel_addr b -> a = b).
Context (pre : nat) (NSObject NSObjectMeta : Class) (original : custom -> string -> option IMP).

Local Abbreviation Good := (good sel_addr pre NSObject NSObjectMeta original).
Local Abbreviation Solid := (solid sel_addr pre NSObject NSObjectMeta).
Local Abbreviation Swizzle := (swizzle_ok NSObject NSObjectMeta original).
Local Abbreviation Root := (root_of NSObject NSObjectMeta).

(** ** Flushing restores the caches *)

Lemma flush_coherent cls s : class_tree s -> reasonable pre s ->
  (forall c, cls = Some c -> is_Some (rt_classes s !! c)) ->
  (forall c rc, rt_classes s !! c = Some rc -> ~ below s cls c -> cache_ok s c rc) ->
  exists s', flushCaches pre cls s = Ret s' /\ cache_only s s' /\ coherent s'.
Proof.
  intros Ht Hr Hc Hok. destruct (flushCaches_effect pre cls s Ht Hr Hc) as (s' & Hs' & He).
  assert (Hco : cache_only s s') by (by eapply effect_cache_only). exists s'. split_and!; [done..|].
  intros d rd' Hd. apply (coherent_core sel_addr s s' d rd'); [by apply cache_only_core|].
  destruct (effect_at _ _ _ _ _ _ He Hd) as (rd & Hr0 & [[_ ->]|[Hn ->]]); [by intros sel i|by apply Hok].
Qed.

(** ** Storing an implementation *)

Definition stored (m : Method) (imp : IMP) (s : runtime) : runtime :=
  match rt_mlists s !! m.1 with
  | Some ml => with_mlists (<[m.1 := set_entries (alter (set_method_imp imp) m.2 (mlist_methods ml)) ml]> (rt_mlists s)) s
  | None => s
  end.

Lemma store_imp_stored m imp s meth : method_at s m = Ret meth -> store_imp m imp s = Ret (stored m imp s).
Proof.
  unfold method_at, mlist_at, store_imp, stored, mlist_at. destruct (rt_mlists s !! m.1) as [ml|]; simpl; [|done].
  destruct (mlist_methods ml !! m.2) as [x|] eqn:Ex; simpl; [|done]. intros _. f_equal.
  by rewrite (alter_at _ _ _ x).
Qed.

Lemma stored_classes m imp s : rt_classes (stored m imp s) = rt_classes s.
Proof. unfold stored. by destruct (rt_mlists s !! m.1). Qed.

Lemma stored_methods m imp s p : list_methods (stored m imp s) p =
  if decide (p = m.1) then alter (set_method_imp imp) m.2 (list_methods s p) else list_methods s p.
Proof.
  unfold stored, list_methods. destruct (decide (p = m.1)) as [->|Hn].
  - destruct (rt_mlists s !! m.1) as [ml|] eqn:Em; simpl; [by rewrite lookup_insert_eq|by rewrite Em].
  - destruct (rt_mlists s !! m.1) as [ml|] eqn:Em; simpl; [by rewrite lookup_insert_ne|done].
Qed.

Lemma alter_names imp i l : map _cmd (alter (set_method_imp imp) i l) = map _cmd l.
Proof. revert i. induction l as [|x l IH]; intros [|i]; simpl; try done. f_equal. apply IH. Qed.

Lemma stored_names m imp s p : map _cmd (list_methods (stored m imp s) p) = map _cmd (list_methods s p).
Proof. rewrite stored_methods. destruct (decide _); [apply alter_names|done]. Qed.

Lemma stored_searchable m imp s p : searchable_at sel_addr (stored m imp s) p <-> searchable_at sel_addr s p.
Proof.
  unfold searchable_at, stored. destruct (rt_mlists s !! m.1) as [ml|] eqn:Em; [|done]. simpl.
  destruct (decide (p = m.1)) as [->|Hn]; [|by rewrite lookup_insert_ne].
  assert (H : searchable sel_addr ml <->
    searchable sel_addr (set_entries (alter (set_method_imp imp) m.2 (mlist_methods ml)) ml)).
  { apply searchable_names. symmetry. apply alter_names. }
  rewrite lookup_insert_eq, Em. split; intros (ml' & [= <-] & Hs); eexists; (split; [done|]); by apply H.
Qed.

Lemma stored_list m imp s p : p <> m.1 -> same_list sel_addr s (stored m imp s) p.
Proof.
  intros Hp. apply same_list_eq. unfold stored. destruct (rt_mlists s !! m.1); [|done]. simpl. by rewrite lookup_insert_ne.
Qed.

Lemma stored_lists_names m imp s lists :
  map _cmd (lists ≫= list_methods (stored m imp s)) = map _cmd (lists ≫= list_methods s).
Proof. induction lists as [|p lists IH]; [done|]. csimpl. by rewrite !map_app, stored_names, IH. Qed.

Lemma stored_untouched k m imp s lists : untouched k (lists ≫= list_methods s) ->
  untouched k (lists ≫= list_methods (stored m imp s)).
Proof.
  intros Hu sel Hs. apply (find_method_none_names sel _ (lists ≫= list_methods s)); [|by apply Hu].
  apply stored_lists_names.
Qed.

Lemma stored_solid m imp s : Solid s -> Solid (stored m imp s).
Proof.
  intros [H1 H2 [L1 L2] [I1 I0 IS I2 I3] H5 H6]. pose proof (stored_classes m imp s) as Hc. split.
  - apply (class_tree_links s); [|done]. split; [by rewrite Hc|]. unfold stored. by destruct (rt_mlists s !! m.1).
  - unfold reasonable, unreasonableClassCount in *. rewrite Hc. unfold stored. by destruct (rt_mlists s !! m.1).
  - split; rewrite Hc; [|done]. intros c rc p Hr Hp. apply stored_searchable. by eapply L1.
  - by split; rewrite Hc.
  - intros k. destruct (H5 k) as [B1 B2 B3].
    split; unfold default_set, initialized in *; rewrite Hc; [done| |].
    + intros c rc Hd Hr Hn. destruct (B2 c rc Hd Hr Hn) as [Hu Hp]. split; [by apply stored_untouched|done].
    + intros rc Hd Hr. destruct (B3 rc Hd Hr) as [Hu Hp]. split; [by apply stored_untouched|].
      rewrite <- Hp. unfold stored. destruct (rt_mlists s !! m.1); by destruct k.
  - unfold once_ok. by rewrite Hc.
Qed.

(** The answers of the classes that do not have the list above them stay. *)
Lemma stored_answers m imp s sel d r :
  (forall a ra, sub s d a -> rt_classes s !! a = Some ra -> m.1 ∉ lists_of (c_methods ra)) ->
  answers s sel (Some d) r -> answers (stored m imp s) sel (Some d) r.
Proof.
  intros Hn. apply answers_frame. intros a ra Ha Hra. exists ra. rewrite stored_classes. split_and!; [done..|].
  apply (own_lists sel_addr); [|done]. intros p Hp. apply stored_list. intros ->. by apply (Hn a ra).
Qed.

Lemma stored_method m imp s meth m' meth' : method_at s m = Ret meth -> method_at s m' = Ret meth' ->
  exists meth2, method_at (stored m imp s) m' = Ret meth2 /\ _cmd meth2 = _cmd meth'.
Proof.
  intros _ Hm'. destruct m' as [p i]. unfold method_at, mlist_at, stored in *. simpl in *.
  destruct (rt_mlists s !! m.1) as [ml|] eqn:Em; simpl; [|eauto]. destruct (decide (p = m.1)) as [->|Hn].
  - rewrite lookup_insert_eq. rewrite Em in Hm'. cbn [of_option obind] in *. rewrite set_entries_methods.
    destruct (decide (i = m.2)) as [->|Hi].
    + rewrite list_lookup_alter_eq. destruct (mlist_methods ml !! m.2) as [x|]; [|done]. simpl in *.
      injection Hm' as ->. eauto.
    + rewrite list_lookup_alter_ne by done. eauto.
  - rewrite lookup_insert_ne by done. eauto.
Qed.

Lemma is_method_of_spec s c rc m meth : method_at s m = Ret meth -> rt_classes s !! c = Some rc ->
  m.1 ∈ lists_of (c_methods rc) -> is_method_of s c m = Ret true.
Proof.
  intros Hm Hc Hin. unfold is_method_of, class_at. rewrite Hc. simpl. f_equal. apply existsb_exists.
  exists m.1. split; [by apply list_elem_of_In|]. rewrite Z.eqb_refl. simpl. unfold method_at, mlist_at in Hm.
  destruct (rt_mlists s !! m.1) as [ml|]; [|done]. simpl in Hm. destruct (mlist_methods ml !! m.2) eqn:E; [|done].
  apply Nat.ltb_lt. by eapply lookup_lt_Some.
Qed.

(** Storing in a list that is not the root's, or under another name, leaves the
    tracked methods of the root. *)
Lemma stored_swizzle k m imp s meth : Solid s -> method_at s m = Ret meth -> Swizzle k s ->
  (_cmd meth ∉ selectors k \/ forall rc, rt_classes s !! Root k = Some rc -> m.1 ∉ lists_of (c_methods rc)) ->
  Swizzle k (stored m imp s).
Proof.
  intros Hs Hm Hsw Hor Hf Hinit rc b Hr Hb sel Hsel. unfold initialized, default_set in Hinit. rewrite stored_classes in *.
  assert (Hp : pristine NSObject NSObjectMeta original k s).
  { apply Hsw; [|done]. rewrite <- Hf. unfold stored. destruct (rt_mlists s !! m.1); by destruct k. }
  rewrite <- (Hp rc b Hr Hb sel Hsel), stored_methods. destruct (decide (b = m.1)) as [->|Hn]; [|done].
  destruct Hor as [Hname|Hnot].
  - unfold method_at, mlist_at, list_methods in *. destruct (rt_mlists s !! m.1) as [ml|]; [|done]. simpl in *.
    destruct (mlist_methods ml !! m.2) as [x|] eqn:Ex; [|done]. simpl in Hm. injection Hm as ->.
    rewrite (alter_at _ _ _ _ Ex). f_equal. eapply find_method_insert; [done..|]. intros ->. done.
  - destruct (i_base _ _ _ (so_isa _ _ _ _ _ Hs) k rc Hr) as (b' & cats & Hb' & Hl). destruct (Hnot rc Hr).
    rewrite Hl. apply elem_of_app. right. apply list_elem_of_singleton. congruence.
Qed.

Lemma cache_only_method s s' m : cache_only s s' -> method_at s' m = method_at s m.
Proof. intros He. injection He as _ Hm _ _ _ _. unfold method_at, mlist_at. by rewrite Hm. Qed.

(** The class has the list of methods. *)
Definition has_list (s : runtime) (c : Class) (p : mlist_ptr) : Prop :=
  exists rc, rt_classes s !! c = Some rc /\ p ∈ lists_of (c_methods rc).

Lemma has_list_core s s' c p : same_core sel_addr s s' -> has_list s c p -> has_list s' c p.
Proof.
  intros Hc (rc & Hr & Hp). destruct (same_core_at _ _ _ _ _ Hc Hr) as (rc' & Hr' & He). exists rc'. split; [done|].
  by injection He as _ _ _ _ _ _ ->.
Qed.

Lemma has_list_stored m imp s c p : has_list (stored m imp s) c p <-> has_list s c p.
Proof. unfold has_list. by rewrite stored_classes. Qed.

(** For each kind: nothing happened to the tracked methods of the root, or the
    method is one of them. *)
Lemma stored_swizzle_or k m imp s meth : Solid s -> Swizzle k s -> method_at s m = Ret meth ->
  Swizzle k (stored m imp s) \/ _cmd meth ∈ selectors k /\ has_list s (Root k) m.1.
Proof.
  intros Hs Hsw Hm. destruct (i_root _ _ _ (so_isa _ _ _ _ _ Hs)) as (rc & rm & Hr & Hr' & _).
  assert (exists rt, rt_classes s !! Root k = Some rt) as [rt Hrt] by (destruct k; eauto).
  destruct (decide (_cmd meth ∈ selectors k)) as [Hin|Hout]; cycle 1.
  { left. apply (stored_swizzle k m imp s meth); auto. }
  destruct (decide (m.1 ∈ lists_of (c_methods rt))) as [Hl|Hl].
  - right. split; [done|]. by exists rt.
  - left. apply (stored_swizzle k m imp s meth); [done..|]. right. intros rt' Hrt'. congruence.
Qed.

(** [updateCustom_spec] for a method that is where the class says it is. *)
Lemma account_spec cls m s meth : Solid s -> coherent s -> method_at s m = Ret meth ->
  exists s', updateCustomRR_AWZ pre NSObject cls m s = Ret s' /\ Solid s' /\ coherent s' /\ same_core sel_addr s s' /\
    rt_mlists s' = rt_mlists s /\
    (forall k, Swizzle k s \/ _cmd meth ∈ selectors k /\ has_list s (Root k) m.1 -> Swizzle k s').
Proof.
  intros Hs Hco Hm.
  destruct (updateCustom_spec sel_addr pre NSObject NSObjectMeta original cls m s meth Hs Hco Hm)
    as (s' & H1 & H2 & H3 & H4 & H5 & H6 & H7).
  exists s'. split_and!; [done..|]. intros k [Hk|[Hin (rc & Hr & Hl)]]; [by apply H6|].
  apply H7; [done|]. by eapply is_method_of_spec.
Qed.

Lemma setImplementation_spec cls m imp s meth : Good s -> method_at s m = Ret meth -> imp <> nil_imp ->
  (forall c, cls = Some c -> has_list s c m.1) ->
  exists s', _method_setImplementation pre NSObject cls (Some m) imp s = Ret (_imp meth, s') /\ Good s' /\
    same_core sel_addr (stored m imp s) s'.
Proof.
  intros Hg Hm Hi Hcls. pose proof (g_solid _ _ _ _ _ _ Hg) as Hs. unfold _method_setImplementation.
  rewrite bool_decide_false by done. rewrite Hm. cbn [obind]. rewrite (store_imp_stored m imp s meth Hm). cbn [obind].
  pose proof (stored_solid m imp s Hs) as Hs1. set (s1 := stored m imp s) in *.
  destruct (flush_coherent cls s1 (so_tree _ _ _ _ _ Hs1) (so_room _ _ _ _ _ Hs1)) as (s2 & -> & He & Hco).
  { intros c Hc. unfold s1. rewrite stored_classes. destruct (Hcls c Hc) as (? & ? & _). eauto. }
  { intros c rc Hr Hb sel i Hsel. unfold s1 in Hr. rewrite stored_classes in Hr.
    destruct (g_coherent _ _ _ _ _ _ Hg c rc Hr sel i Hsel) as (r & Ha & ->). exists r. split; [|done].
    apply stored_answers; [|done]. intros a ra Ha' Hra Hin. apply Hb. destruct cls as [c0|]; [|done].
    destruct (Hcls c0 eq_refl) as (rc0 & Hr0 & Hin0).
    rewrite (lo_owner _ _ (so_lists _ _ _ _ _ Hs) c0 a rc0 ra m.1 Hr0 Hra Hin0 Hin). simpl.
    eapply sub_links; [|exact Ha']. split; unfold s1; [by rewrite stored_classes|].
    unfold stored. by destruct (rt_mlists s !! m.1). }
  cbn [obind]. pose proof (cache_only_solid _ _ _ _ _ _ He Hs1) as Hs2.
  destruct (stored_method m imp s meth m meth Hm Hm) as (meth2 & Hm2 & Hcmd). fold s1 in Hm2.
  rewrite <- (cache_only_method _ _ m He) in Hm2.
  destruct (account_spec cls m s2 meth2 Hs2 Hco Hm2) as (s3 & -> & Hs3 & Hco3 & Hc3 & _ & Hsw).
  exists s3. split_and!; [done| |etrans; [by apply cache_only_core|done]]. split; [done..|]. intros k. apply Hsw.
  destruct (stored_swizzle_or k m imp s meth Hs (g_swizzle _ _ _ _ _ _ Hg k) Hm) as [Hk|[Hin Hof]].
  - left. by eapply cache_only_swizzle.
  - right. rewrite Hcmd. split; [done|]. eapply has_list_core; [by apply cache_only_core|]. by apply has_list_stored.
Qed.

Lemma exchangeImplementations_spec m1 m2 s meth1 meth2 : Good s -> method_at s m1 = Ret meth1 -> method_at s m2 = Ret meth2 ->
  exists s', method_exchangeImplementations pre NSObject (Some m1) (Some m2) s = Ret s' /\ Good s' /\
    same_core sel_addr (stored m2 (_imp meth1) (stored m1 (_imp meth2) s)) s'.
Proof.
  intros Hg Hm1 Hm2. pose proof (g_solid _ _ _ _ _ _ Hg) as Hs. unfold method_exchangeImplementations.
  rewrite Hm1, Hm2. cbn [obind]. rewrite (store_imp_stored m1 _ s meth1 Hm1). cbn [obind].
  destruct (stored_method m1 (_imp meth2) s meth1 m2 meth2 Hm1 Hm2) as (meth2' & Hm2' & Hcmd2).
  destruct (stored_method m1 (_imp meth2) s meth1 m1 meth1 Hm1 Hm1) as (meth1' & Hm1' & Hcmd1).
  pose proof (stored_solid m1 (_imp meth2) s Hs) as Hs1.
  assert (Hsw : forall k, Swizzle k (stored m1 (_imp meth2) s) \/ _cmd meth1 ∈ selectors k /\ has_list s (Root k) m1.1).
  { intros k. apply stored_swizzle_or; [done|apply Hg|done]. }
  set (s1 := stored m1 (_imp meth2) s) in *. rewrite (store_imp_stored m2 _ s1 meth2' Hm2'). cbn [obind].
  destruct (stored_method m2 (_imp meth1) s1 meth2' m1 meth1' Hm2' Hm1') as (n1 & Hn1 & Hc1).
  destruct (stored_method m2 (_imp meth1) s1 meth2' m2 meth2' Hm2' Hm2') as (n2 & Hn2 & Hc2).
  pose proof (stored_solid m2 (_imp meth1) s1 Hs1) as Hs2.
  destruct (flush_coherent None (stored m2 (_imp meth1) s1) (so_tree _ _ _ _ _ Hs2) (so_room _ _ _ _ _ Hs2))
    as (s3 & -> & He & Hco); [done|intros c rc _ Hb; by destruct (Hb I)|].
  pose proof (cache_only_solid _ _ _ _ _ _ He Hs2) as Hs3. cbn [obind].
  assert (Hmv : forall c p, has_list s c p -> has_list s3 c p).
  { intros c p Hl. eapply has_list_core; [by apply cache_only_core|].
    apply has_list_stored. unfold s1. by apply has_list_stored. }
  destruct (account_spec None m1 s3 n1 Hs3 Hco) as (s4 & -> & Hs4 & Hco4 & Hcr4 & Hml4 & Hsw4).
  { by rewrite (cache_only_method _ _ _ He). }
  cbn [obind].
  destruct (account_spec None m2 s4 n2 Hs4 Hco4) as (s5 & -> & Hs5 & Hco5 & Hcr5 & _ & Hsw5).
  { unfold method_at, mlist_at. rewrite Hml4. change (method_at s3 m2 = Ret n2). by rewrite (cache_only_method _ _ _ He). }
  exists s5. split_and!; [done| |etrans; [by apply cache_only_core|by etrans]]. split; [done..|].
  intros k. apply Hsw5. destruct (Hsw k) as [Hk|[Hin Hl]].
  - destruct (stored_swizzle_or k m2 (_imp meth1) s1 meth2' Hs1 Hk Hm2') as [Hk2|[Hin Hl]].
    + left. apply Hsw4. left. by eapply cache_only_swizzle.
    + right. split; [congruence|]. eapply has_list_core; [done|]. apply Hmv. by apply has_list_stored in Hl.
  - left. apply Hsw4. right. split; [congruence|auto].
Qed.

End Methods.
