(* ===== verification/ClassInstallSpec.v ===== *)
(** * Installing lists of methods

    Preparing, attaching and flushing, as [addMethod], [addMethods] and
    [attachCategories] do it: the new methods come before the old ones, and the
    invariant is kept. *)

From Stdlib Require Import ZArith Lia Bool String.
From stdpp Require Import base list gmap strings.
From S2P Require Import Prelude ObjCData MethodList ClassTree ClassTreeSpec ClassChanges ClassInvariant ClassEffects ClassLookup ClassBits ClassMethodsSpec.

Local Open Scope nat_scope.

Section Install.
Context (sel_addr : string -> Z) (Hinj : forall a b, sel_addr a = sel_addr b -> a = b).
Context (pre : nat) (NSObject NSObjectMeta : Class) (original : custom -> string -> option IMP).

Local Abbreviation Good := (good sel_addr pre NSObject NSObjectMeta original).
Local Abbreviation Solid := (solid sel_addr pre NSObject NSObjectMeta).
Local Abbreviation Swizzle := (swizzle_ok NSObject NSObjectMeta original).
Local Abbreviation Root := (root_of NSObject NSObjectMeta).
Local Abbreviation same_core := (same_core sel_addr).
Local Abbreviation less_default := (less_default sel_addr).
Local Abbreviation searchable_at := (searchable_at sel_addr).

Lemma less_default_solid s s' : less_default s s' -> (forall k d, default_set k s d -> default_set k s' d) ->
  Solid s -> Solid s'.
Proof.
  intros Hl Hd [H1 H2 H3 H4 H5 H6]. pose proof (ld_core _ _ _ Hl) as Hc. split.
  - eapply class_tree_links; [by eapply same_core_links|done].
  - by eapply reasonable_core.
  - by eapply lists_ok_core.
  - by eapply isa_ok_core.
  - intros k. eapply less_default_bits; [done| |apply H5]. auto.
  - by eapply less_default_once.
Qed.

(** ** Lists to be attached *)

(** In memory, of no class yet; unsorted and not too long, or sorted. *)
Definition attachable (s : runtime) (p : mlist_ptr) : Prop :=
  (exists ml, rt_mlists s !! p = Some ml /\
     if isFixedUp ml then searchable sel_addr ml else (Z.of_nat (length (mlist_methods ml)) < 2 ^ 32)%Z) /\
  forall c, ~ has_list s c p.

Lemma fixup_spec p s : Solid s -> attachable s p ->
  exists s', fixup_at sel_addr p s = Ret s' /\ Solid s' /\ less_default s s' /\ searchable_at s' p /\
    (forall k d, default_set k s d -> default_set k s' d) /\ (forall q, attachable s q -> attachable s' q).
Proof using Hinj.
  intros Hs [(ml & Hml & Hok) Hno]. unfold fixup_at, mlist_at. rewrite Hml. cbn [of_option obind].
  destruct (isFixedUp ml) eqn:Ef.
  { exists s. split_and!; [done|done|done|by exists ml|done|done]. }
  set (s' := with_mlists (<[p := fixupMethodList sel_addr ml true]> (rt_mlists s)) s).
  assert (Hse : searchable sel_addr (fixupMethodList sel_addr ml true)) by (by apply fixup_searchable).
  assert (Hsl : forall q, same_list sel_addr s s' q).
  { intros q. destruct (decide (q = p)) as [->|Hn]; [|apply same_list_eq; simpl; by rewrite lookup_insert_ne].
    unfold same_list, ClassInvariant.searchable_at, list_methods. simpl. rewrite lookup_insert_eq, Hml. simpl.
    split; [intros sel; symmetry; apply fixup_find|]. split; intros _; [by exists (fixupMethodList sel_addr ml true)|].
    exists ml. split; [done|]. destruct ml; simpl in Ef; subst. apply unfixed_searchable. }
  assert (Hl : less_default s s') by (split; [by split_and!|done|done|by intros []|done]).
  exists s'. split_and!; [done|by eapply less_default_solid|done| |done|].
  - exists (fixupMethodList sel_addr ml true). split; [simpl; by rewrite lookup_insert_eq|done].
  - intros q [(mq & Hmq & Hq) Hnq]. split; [|done]. simpl. destruct (decide (q = p)) as [->|Hn].
    + rewrite lookup_insert_eq. by eexists.
    + rewrite lookup_insert_ne by done. by eexists.
Qed.

(** ** The scan *)

Lemma scan_custom_spec k scan cls p s : Solid s -> is_Some (rt_classes s !! cls) -> searchable_at s p ->
  (scan = true <-> default_set k s cls) ->
  exists b s', scan_custom sel_addr pre k scan cls p s = Ret (b, s') /\ Solid s' /\ less_default s s' /\
    (b = true <-> default_set k s' cls) /\ (forall k' d, k' <> k -> default_set k' s d -> default_set k' s' d) /\
    (default_set k s' cls -> untouched k (list_methods s' p)) /\ rt_mlists s' = rt_mlists s.
Proof.
  intros Hs Hc (ml & Hml & Hse) Hscan. unfold scan_custom. destruct scan.
  - unfold mlist_at. rewrite Hml. cbn [of_option obind].
    destruct (methodListImplements_spec sel_addr k ml Hse) as (b & Hb & Hu). rewrite Hb. cbn [obind]. destruct b.
    + destruct (setHasCustom_spec sel_addr pre NSObject NSObjectMeta k cls s Hs Hc) as (s' & Hs' & Hso & Hl & Hn & Hk & Hm).
      rewrite Hs'. cbn [obind]. exists false, s'. split_and!; [done..| |done|done|done]. by split.
    + exists true, s. split_and!; [done..| |done]. intros _. unfold list_methods. rewrite Hml. by apply Hu.
  - exists false, s. split_and!; [done..| |done]. intros Hd. by apply Hscan in Hd.
Qed.

Lemma less_default_attachable s s' q : less_default s s' -> rt_mlists s' = rt_mlists s -> attachable s q -> attachable s' q.
Proof.
  intros Hl Hm [H1 H2]. split; [by rewrite Hm|]. intros c Hc. apply (H2 c).
  eapply has_list_core; [|exact Hc]. symmetry. by apply (ld_core _ _ _ Hl).
Qed.

Lemma less_default_dom s s' c : less_default s s' -> is_Some (rt_classes s !! c) -> is_Some (rt_classes s' !! c).
Proof. intros Hl. eapply same_links_dom, same_core_links, (ld_core _ _ _ Hl). Qed.

(** What holds of the lists once they are prepared. *)
Record prepared (s s' : runtime) (cls : Class) (ps : list mlist_ptr) : Prop := mk_prepared {
  pr_solid : Solid s';
  pr_less : less_default s s';
  pr_search : forall p, p ∈ ps -> searchable_at s' p;
  pr_attachable : forall q, attachable s q -> attachable s' q;
  pr_clean : forall k, default_set k s' cls -> untouched k (ps ≫= list_methods s') }.

Lemma prepared_nil s cls : Solid s -> prepared s s cls [].
Proof. intros Hs. split; [done|done| |done|done]. by intros p ?%not_elem_of_nil. Qed.

Lemma prepare_loop_spec cls ps scanRR scanAWZ s : Solid s -> is_Some (rt_classes s !! cls) ->
  (forall p, p ∈ ps -> attachable s p) ->
  (scanRR = true <-> default_set RR s cls) -> (scanAWZ = true <-> default_set AWZ s cls) ->
  exists s', prepare_loop sel_addr pre cls ps scanRR scanAWZ s = Ret s' /\ prepared s s' cls ps.
Proof using Hinj.
  revert scanRR scanAWZ s. induction ps as [|p ps IH]; intros scanRR scanAWZ s Hs Hc Hps H1 H2.
  { exists s. split; [done|by apply prepared_nil]. }
  destruct (fixup_spec p s Hs (Hps p ltac:(by left))) as (s1 & Hr1 & Hs1 & Hl1 & Hse1 & Hd1 & Ha1).
  cbn [prepare_loop]. rewrite Hr1. cbn [obind].
  assert (Hiff1 : forall k, default_set k s1 cls <-> default_set k s cls).
  { intros k. split; [apply (ld_default _ _ _ Hl1)|apply Hd1]. }
  destruct (scan_custom_spec RR scanRR cls p s1 Hs1 (less_default_dom _ _ _ Hl1 Hc) Hse1) as
    (b2 & s2 & Hr2 & Hs2 & Hl2 & Hb2 & Hk2 & Hu2 & Hm2); [by rewrite Hiff1|]. rewrite Hr2. cbn [obind].
  assert (Hse2 : searchable_at s2 p) by (apply (ld_core _ _ _ Hl2); done).
  destruct (scan_custom_spec AWZ scanAWZ cls p s2 Hs2) as (b3 & s3 & Hr3 & Hs3 & Hl3 & Hb3 & Hk3 & Hu3 & Hm3).
  { by repeat (eapply less_default_dom; [eassumption|]). }
  { done. }
  { rewrite H2, <- Hiff1. split; [by apply Hk2|apply (ld_default _ _ _ Hl2)]. }
  rewrite Hr3. cbn [obind].
  destruct (IH b2 b3 s3 Hs3) as (s4 & Hr4 & [Q1 Q2 Q3 Q5 Q4]).
  { by repeat (eapply less_default_dom; [eassumption|]). }
  { intros q Hq. do 2 (eapply less_default_attachable; [eassumption|done|]). apply Ha1, Hps. by right. }
  { rewrite Hb2. split; [by apply Hk3|apply (ld_default _ _ _ Hl3)]. }
  { done. }
  assert (Hl24 : less_default s2 s4) by (by etrans). assert (Hl14 : less_default s1 s4) by (by etrans).
  exists s4. split; [done|]. split; [done|by etrans| | |].
  - intros q [->|Hq]%elem_of_cons; [|by apply Q3]. apply (ld_core _ _ _ Hl14). done.
  - intros q Hq. apply Q5. do 2 (eapply less_default_attachable; [eassumption|done|]). by apply Ha1.
  - intros k Hd. csimpl. apply untouched_app. split; [|by apply Q4].
    assert (Hu : untouched k (list_methods s3 p)).
    { destruct k.
      - intros sel Hsel. rewrite <- (Hu2 (ld_default _ _ _ Hl24 _ _ Hd) sel Hsel). unfold list_methods. by rewrite Hm3.
      - apply Hu3. by apply (ld_default _ _ _ Q2). }
    intros sel Hsel. rewrite <- (Hu sel Hsel). symmetry. by apply (ld_core _ _ _ Q2).
Qed.

Lemma prepareMethodLists_spec cls ps base s : Solid s -> is_Some (rt_classes s !! cls) ->
  (forall p, p ∈ ps -> attachable s p) -> (base = true -> forall k, ~ default_set k s cls) ->
  exists s', prepareMethodLists sel_addr pre cls ps base s = Ret s' /\ prepared s s' cls ps.
Proof using Hinj.
  intros Hs Hc Hps Hbase. destruct ps as [|p ps]; [exists s; split; [done|by apply prepared_nil]|].
  unfold prepareMethodLists. pose proof Hc as [rc Hr]. unfold class_at. rewrite Hr. cbn [of_option obind].
  assert (Hiff : forall k, negb (hasCustom k rc) = true <-> default_set k s cls).
  { intros k. unfold hasCustom. rewrite negb_involutive. split; [by exists rc|]. intros (rc' & Hr' & Hf). congruence. }
  assert ((if base then cassert (negb (negb (hasCustom RR rc)) && negb (negb (hasCustom AWZ rc))) else Ret tt) = Ret tt) as ->.
  { destruct base; [|done]. assert (Hcu : forall k, negb (hasCustom k rc) = false).
    { intros k. apply not_true_is_false. rewrite Hiff. by apply Hbase. }
    by rewrite !Hcu. }
  cbn [obind]. apply prepare_loop_spec; [done..|apply Hiff|apply Hiff].
Qed.

(** ** Attaching *)

Definition attached (cls : Class) (ps : list mlist_ptr) (s : runtime) : runtime :=
  with_classes (alter (fun c => set_methods (attachLists ps (c_methods c)) c) cls (rt_classes s)) s.

Lemma attach_attached cls ps s : is_Some (rt_classes s !! cls) -> attach cls ps s = Ret (attached cls ps s).
Proof.
  intros [rc Hr]. unfold attach. rewrite (update_at _ _ _ _ Hr). unfold attached. do 2 f_equal.
  apply map_eq. intros d. destruct (decide (d = cls)) as [->|Hn].
  - by rewrite lookup_insert_eq, lookup_alter_eq, Hr.
  - by rewrite lookup_insert_ne, lookup_alter_ne.
Qed.

Lemma attached_at cls ps s d rd' : rt_classes (attached cls ps s) !! d = Some rd' <->
  exists rd, rt_classes s !! d = Some rd /\
    rd' = if decide (d = cls) then set_methods (attachLists ps (c_methods rd)) rd else rd.
Proof.
  simpl. destruct (decide (d = cls)) as [->|Hn].
  - rewrite lookup_alter_eq, fmap_Some. done.
  - rewrite lookup_alter_ne by done. split; [intros Hr; by exists rd'|by intros (rd & ? & ->)].
Qed.

Lemma attached_links cls ps s : same_links s (attached cls ps s).
Proof.
  split; [|done]. apply map_eq. intros d. simpl. rewrite !lookup_fmap. destruct (decide (d = cls)) as [->|Hn].
  - rewrite lookup_alter_eq. by destruct (rt_classes s !! cls).
  - by rewrite lookup_alter_ne.
Qed.

Lemma attached_default k cls ps s d : default_set k (attached cls ps s) d <-> default_set k s d.
Proof.
  unfold default_set. setoid_rewrite attached_at. split.
  - intros (rd' & (rd & Hr & ->) & Hf). exists rd. split; [done|]. by destruct (decide _).
  - intros (rd & Hr & Hf). eexists. split; [by exists rd|]. by destruct (decide _).
Qed.

Lemma attached_init cls ps s d : initialized (attached cls ps s) d = initialized s d.
Proof.
  apply initialized_keeps. apply map_eq. intros c. simpl. rewrite !lookup_fmap. destruct (decide (c = cls)) as [->|Hn].
  - rewrite lookup_alter_eq. by destruct (rt_classes s !! cls).
  - by rewrite lookup_alter_ne.
Qed.

Lemma attached_methods cls ps s rc :
  methods_of (attached cls ps s) (set_methods (attachLists ps (c_methods rc)) rc) =
  (ps ≫= list_methods s) ++ methods_of s rc.
Proof. unfold methods_of. simpl. by rewrite lists_of_attachLists, bind_app. Qed.

(** The new lists come first, and the last list stays the last. *)
Lemma attached_categories k ps s rc : isa_ok NSObject NSObjectMeta s -> rt_classes s !! Root k = Some rc ->
  category_lists (set_methods (attachLists ps (c_methods rc)) rc) = ps ++ category_lists rc.
Proof.
  intros Hi Hr. destruct (category_lists_root NSObject NSObjectMeta k s rc Hi Hr) as (b & Hb & Hl).
  eapply category_lists_snoc; [|exact Hb]. simpl. by rewrite lists_of_attachLists, Hl, app_assoc.
Qed.

Lemma attached_lists_ok cls ps s : lists_ok sel_addr s -> (forall p, p ∈ ps -> searchable_at s p) ->
  (forall p, p ∈ ps -> forall c, ~ has_list s c p) -> lists_ok sel_addr (attached cls ps s).
Proof.
  intros [L1 L2] Hse Hno. split.
  - intros c rc' p (rc & Hr & ->)%attached_at. destruct (decide (c = cls)) as [->|Hn]; [|by apply (L1 c rc p)].
    simpl. rewrite lists_of_attachLists. intros [Hp|Hp]%elem_of_app; [by apply Hse|by apply (L1 cls rc p)].
  - intros c1 c2 rc1' rc2' p (rc1 & Hr1 & ->)%attached_at (rc2 & Hr2 & ->)%attached_at Hp1 Hp2.
    assert (Hold : forall c rc, rt_classes s !! c = Some rc ->
      p ∈ lists_of (c_methods (if decide (c = cls) then set_methods (attachLists ps (c_methods rc)) rc else rc)) ->
      (p ∈ ps /\ c = cls) \/ p ∈ lists_of (c_methods rc)).
    { intros c rc Hr. destruct (decide (c = cls)) as [->|Hn]; [|auto]. simpl. rewrite lists_of_attachLists.
      intros [?|?]%elem_of_app; auto. }
    destruct (Hold _ _ Hr1 Hp1) as [[Hin1 ->]|Ho1], (Hold _ _ Hr2 Hp2) as [[Hin2 ->]|Ho2].
    + done.
    + destruct (Hno p Hin1 c2). by exists rc2.
    + destruct (Hno p Hin2 c1). by exists rc1.
    + by eapply L2.
Qed.

Lemma attached_solid cls ps s : Solid s -> (forall p, p ∈ ps -> searchable_at s p) ->
  (forall p, p ∈ ps -> forall c, ~ has_list s c p) ->
  (forall k, default_set k s cls -> untouched k (ps ≫= list_methods s)) -> Solid (attached cls ps s).
Proof.
  intros [H1 H2 H3 H4 H5 H6] Hse Hno Hu. split.
  - eapply class_tree_links; [apply attached_links|done].
  - unfold reasonable, unreasonableClassCount in *. simpl. rewrite <- (size_dom (D := gset Class)), dom_alter_L, size_dom. done.
  - by apply attached_lists_ok.
  - destruct H4 as [I1 I0 IS (rc & rm & Hr & Hm & I2) I3]. split.
    + intros c rc' (rc0 & Hr0 & ->)%attached_at. eapply same_links_dom; [apply attached_links|].
      destruct (decide (c = cls)); by apply (I1 c rc0).
    + intros c rc' rm' (rc0 & Hr0 & ->)%attached_at (rm0 & Hrm0 & ->)%attached_at.
      assert (Hm0 : c_isMeta rm0 = true).
      { apply (I0 c rc0); [done|]. revert Hrm0. by destruct (decide (c = cls)). }
      repeat case_decide; done.
    + intros c rc' (rc0 & Hr0 & ->)%attached_at. specialize (IS c rc0 Hr0). by destruct (decide _).
    + eexists _, _. split_and!; [by apply attached_at; exists rc|by apply attached_at; exists rm|..];
        repeat destruct (decide _); by destruct_and?.
    + intros k rc' (rc0 & Hr0 & ->)%attached_at. destruct (I3 k rc0 Hr0) as (b & cats & Hb & Hl).
      destruct (decide _); [|by exists b, cats]. exists b, (ps ++ cats). split; [done|]. simpl.
      by rewrite lists_of_attachLists, Hl, app_assoc.
  - intros k. destruct (H5 k) as [B1 B2 B3]. split.
    + intros c. rewrite attached_default, attached_init. apply B1.
    + intros c rc' Hd%attached_default (rc & Hr & ->)%attached_at Hn. destruct (B2 c rc Hd Hr Hn) as [Hc (p & Hp & Hdp)].
      split; [|exists p; split; [by destruct (decide _)|by apply attached_default]].
      destruct (decide (c = cls)) as [->|]; [|done]. rewrite attached_methods. apply untouched_app. auto.
    + intros rc' Hd%attached_default (rc & Hr & ->)%attached_at. destruct (B3 rc Hd Hr) as [Hc Hsw].
      split; [|done]. destruct (decide (Root k = cls)) as [<-|]; [|done].
      rewrite (attached_categories k ps s rc H4 Hr), bind_app. apply untouched_app. auto.
  - intros c rc' (rc & Hr & ->)%attached_at. destruct (decide _); by apply (H6 c rc).
Qed.

Lemma attached_swizzle k cls ps s : Swizzle k s -> Swizzle k (attached cls ps s).
Proof.
  intros Hsw. unfold swizzle_ok. rewrite attached_init, attached_default. intros Hf Hinit rc' b (rc & Hr & ->)%attached_at Hb.
  apply (Hsw Hf Hinit rc b Hr). by destruct (decide _).
Qed.

(** Away from the class the answers stay. *)
Lemma attached_answers cls ps s sel d r : ~ sub s d cls -> answers s sel (Some d) r ->
  answers (attached cls ps s) sel (Some d) r.
Proof.
  intros Hn. apply answers_frame. intros a ra Ha Hra. exists ra. split_and!; [|done|done].
  apply attached_at. exists ra. split; [done|]. rewrite decide_False; [done|]. by intros ->.
Qed.

(** The class gained the methods [new], before its own. *)
Definition gained (s s' : runtime) (cls : Class) (new : list _objc_method) : Prop :=
  forall c rc, rt_classes s !! c = Some rc -> exists rc', rt_classes s' !! c = Some rc' /\
    c_superclass rc' = c_superclass rc /\
    forall sel, own s' rc' sel =
      if decide (c = cls) then match _imp <$> find_method sel new with Some i => Some i | None => own s rc sel end
      else own s rc sel.

Lemma attached_gained cls ps s : gained s (attached cls ps s) cls (ps ≫= list_methods s).
Proof.
  intros c rc Hr. eexists. split_and!; [by apply attached_at; exists rc|by destruct (decide _)|].
  intros sel. destruct (decide (c = cls)) as [->|]; [|done]. unfold own. rewrite attached_methods, find_method_app.
  by destruct (find_method sel (ps ≫= list_methods s)).
Qed.

Lemma gained_core s1 s s' cls new : same_core s s' -> gained s1 s cls new -> gained s1 s' cls new.
Proof.
  intros Hc Hg c rc Hr. destruct (Hg c rc Hr) as (rc1 & Hr1 & Hp & Ho).
  destruct (same_core_at _ _ _ _ _ Hc Hr1) as (rc2 & Hr2 & He). exists rc2. split_and!; [done| |].
  - by injection He as _ -> _ _ _ _ _.
  - intros sel. rewrite <- Ho. by apply (own_core sel_addr).
Qed.

Lemma gained_before s0 s s' cls new : same_core s0 s -> gained s s' cls new -> gained s0 s' cls new.
Proof.
  intros Hc Hg c rc Hr. destruct (same_core_at _ _ _ _ _ Hc Hr) as (rc1 & Hr1 & He).
  destruct (Hg c rc1 Hr1) as (rc' & Hr' & Hp & Ho). exists rc'. split_and!; [done| |].
  - rewrite Hp. by injection He as _ -> _ _ _ _ _.
  - intros sel. rewrite Ho. by rewrite (own_core sel_addr s0 s rc rc1).
Qed.

(** ** Memory that is not in use *)

Lemma category_lists_in rc p : p ∈ category_lists rc -> p ∈ lists_of (c_methods rc).
Proof.
  unfold category_lists. destruct (lists_of (c_methods rc)) as [|q l] eqn:E; [done|].
  destruct (c_baseMethods rc); [|done]. intros (i & Hp & _)%elem_of_take. by eapply list_elem_of_lookup_2.
Qed.

Lemma alloc_solid p ml s : Solid s -> (forall c, ~ has_list s c p) -> Solid (with_mlists (<[p := ml]> (rt_mlists s)) s).
Proof.
  intros [H1 H2 [L1 L2] [I1 I0 IS I2 I3] H5 H6] Hno. set (s' := with_mlists _ s).
  assert (Hsl : forall c rc q, rt_classes s !! c = Some rc -> q ∈ lists_of (c_methods rc) -> same_list sel_addr s s' q).
  { intros c rc q Hr Hq. apply same_list_eq. simpl. rewrite lookup_insert_ne; [done|]. intros ->.
    destruct (Hno c). by exists rc. }
  split; [by apply (class_tree_links s)|done| |by split| |done].
  - split; [|done]. intros c rc q Hr Hq. eapply Hsl; [done..|]. by eapply L1.
  - intros k. destruct (H5 k) as [B1 B2 B3]. split; [done| |].
    + intros c rc Hd Hr Hn. destruct (B2 c rc Hd Hr Hn) as [Hu Hp]. split; [|done].
      eapply untouched_lists; [|exact Hu]. intros q Hq. by eapply Hsl.
    + intros rc Hd Hr. destruct (B3 rc Hd Hr) as [Hu Hp]. split; [|by destruct k].
      eapply untouched_lists; [|exact Hu]. intros q Hq%category_lists_in. by eapply Hsl.
Qed.

Lemma alloc_good p ml s : Good s -> (forall c, ~ has_list s c p) -> Good (with_mlists (<[p := ml]> (rt_mlists s)) s).
Proof.
  intros [Hs Hco Hsw] Hno. set (s' := with_mlists _ s).
  assert (Hsl : forall c rc q, rt_classes s !! c = Some rc -> q ∈ lists_of (c_methods rc) -> same_list sel_addr s s' q).
  { intros c rc q Hr Hq. apply same_list_eq. simpl. rewrite lookup_insert_ne; [done|]. intros ->.
    destruct (Hno c). by exists rc. }
  split; [by apply alloc_solid| |].
  - intros c rc Hr sel i Hi. destruct (Hco c rc Hr sel i Hi) as (r & Ha & ->). exists r. split; [|done].
    eapply answers_frame; [|exact Ha]. intros a ra _ Hra. exists ra. split_and!; [done..|].
    apply (own_lists sel_addr); [|done]. intros q Hq. by eapply Hsl.
  - intros k Hf Hinit rc b Hr Hb sel Hsel.
    assert (Hf' : swizzled k s = false) by (by destruct k).
    rewrite <- (Hsw k Hf' Hinit rc b Hr Hb sel Hsel).
    destruct (i_base _ _ _ (so_isa _ _ _ _ _ Hs) k rc Hr) as (b' & cats & Hb' & Hl).
    f_equal. symmetry. eapply Hsl; [done|]. rewrite Hl. apply elem_of_app. right. apply list_elem_of_singleton. congruence.
Qed.

(** ** Attaching and flushing *)

Lemma attach_flush_spec cls ps s : Good s -> is_Some (rt_classes s !! cls) ->
  (forall p, p ∈ ps -> searchable_at s p) -> (forall p, p ∈ ps -> forall c, ~ has_list s c p) ->
  (forall k, default_set k s cls -> untouched k (ps ≫= list_methods s)) ->
  exists s', (let! s := attach cls ps s in flushCaches pre (Some cls) s) = Ret s' /\ Good s' /\
    gained s s' cls (ps ≫= list_methods s).
Proof.
  intros [Hs Hco Hsw] Hc H1 H2 H3. rewrite attach_attached by done. cbn [obind].
  pose proof (attached_solid cls ps s Hs H1 H2 H3) as Hs1. pose proof (attached_links cls ps s) as Hlk.
  destruct (flush_coherent sel_addr pre (Some cls) (attached cls ps s) (so_tree _ _ _ _ _ Hs1) (so_room _ _ _ _ _ Hs1))
    as (s' & Hs' & He & Hco').
  { intros c [= <-]. by eapply same_links_dom. }
  { intros c rc' (rc & Hr & ->)%attached_at Hb sel i Hi. destruct (Hco c rc Hr sel i) as (r & Ha & ->).
    { by destruct (decide _). }
    exists r. split; [|done]. apply attached_answers; [|done]. intros Hsub. apply Hb. simpl. by eapply sub_links. }
  exists s'. split_and!; [done| |].
  - split; [by eapply cache_only_solid|done|]. intros k. eapply (cache_only_swizzle sel_addr); [done|].
    by apply attached_swizzle.
  - eapply gained_core; [by apply cache_only_core|]. apply attached_gained.
Qed.

Lemma prepared_no_list s s' cls ps p : prepared s s' cls ps -> (forall c, ~ has_list s c p) -> forall c, ~ has_list s' c p.
Proof.
  intros [_ Hl _ _ _] Hno c Hc. apply (Hno c). eapply has_list_core; [|exact Hc]. symmetry. apply (ld_core _ _ _ Hl).
Qed.

Lemma prepared_good s s' cls ps : Good s -> prepared s s' cls ps -> Good s'.
Proof.
  intros [_ Hco Hsw] [Hs Hl _ _ _]. split; [done|by eapply less_default_coherent|].
  intros k. by eapply less_default_swizzle.
Qed.

(** Preparing, attaching and flushing together. *)
Lemma prepare_attach_spec cls ps s : Good s -> is_Some (rt_classes s !! cls) -> (forall p, p ∈ ps -> attachable s p) ->
  exists s', (let! s := prepareMethodLists sel_addr pre cls ps false s in
              let! s := attach cls ps s in flushCaches pre (Some cls) s) = Ret s' /\ Good s' /\
    gained s s' cls (ps ≫= list_methods s).
Proof using Hinj.
  intros Hg Hc Hps. destruct (prepareMethodLists_spec cls ps false s (g_solid _ _ _ _ _ _ Hg) Hc Hps) as (s1 & Hr1 & Hp); [done|].
  pose proof (prepared_good _ _ _ _ Hg Hp) as Hg1. pose proof Hp as [Hs1 Hl1 Hse _ Hu]. rewrite Hr1. cbn [obind].
  destruct (attach_flush_spec cls ps s1 Hg1) as (s2 & Hr2 & Hg2 & Hgain); [by eapply less_default_dom|done| |done|].
  { intros p Hin. eapply prepared_no_list; [done|]. by apply Hps. }
  rewrite Hr2. exists s2. split_and!; [done..|]. pose proof (ld_core _ _ _ Hl1) as Hcore.
  eapply gained_before in Hgain; [|exact Hcore]. intros c rc Hr. destruct (Hgain c rc Hr) as (rc' & Hr' & Hsup & Ho).
  exists rc'. split_and!; [done..|]. intros sel. rewrite Ho. rewrite (find_lists sel_addr s s1 sel ps); [done|].
  intros p _. apply Hcore.
Qed.

(** Without flushing, where nothing is cached below the class. *)
Definition uncached_below (s : runtime) (cls : Class) : Prop :=
  forall d rd, sub s d cls -> rt_classes s !! d = Some rd -> c_cache rd = ∅.

Lemma attach_uncached_spec cls ps s : Good s -> is_Some (rt_classes s !! cls) -> uncached_below s cls ->
  (forall p, p ∈ ps -> searchable_at s p) -> (forall p, p ∈ ps -> forall c, ~ has_list s c p) ->
  (forall k, default_set k s cls -> untouched k (ps ≫= list_methods s)) ->
  Good (attached cls ps s) /\ uncached_below (attached cls ps s) cls.
Proof.
  intros [Hs Hco Hsw] Hc Hun H1 H2 H3. pose proof (attached_solid cls ps s Hs H1 H2 H3) as Hs1.
  pose proof (attached_links cls ps s) as Hlk. split.
  - split; [done| |intros k; by apply attached_swizzle].
    intros c rc' (rc & Hr & ->)%attached_at sel i Hi. destruct (sub_dec s c cls (so_tree _ _ _ _ _ Hs)) as [Hsub|Hsub].
    + assert (Hi' : c_cache rc !! sel = Some i) by (by destruct (decide _)).
      rewrite (Hun c rc Hsub Hr), lookup_empty in Hi'. done.
    + destruct (Hco c rc Hr sel i) as (r & Ha & ->); [by destruct (decide _)|].
      exists r. split; [|done]. by apply attached_answers.
  - intros d rd' Hsub (rd & Hr & ->)%attached_at.
    assert (c_cache rd = ∅); [|by destruct (decide _)]. apply (Hun d); [|done].
    eapply sub_links; [symmetry; exact Hlk|done].
Qed.

Lemma prepare_uncached_spec cls ps base s : Good s -> is_Some (rt_classes s !! cls) -> uncached_below s cls ->
  (forall p, p ∈ ps -> attachable s p) -> (base = true -> forall k, ~ default_set k s cls) ->
  exists s', (let! s := prepareMethodLists sel_addr pre cls ps base s in attach cls ps s) = Ret s' /\ Good s' /\
    uncached_below s' cls /\ gained s s' cls (ps ≫= list_methods s) /\
    (forall q, q ∉ ps -> attachable s q -> attachable s' q) /\ (forall q, same_list sel_addr s s' q).
Proof using Hinj.
  intros Hg Hc Hun Hps Hb. destruct (prepareMethodLists_spec cls ps base s (g_solid _ _ _ _ _ _ Hg) Hc Hps Hb) as (s1 & Hr1 & Hp).
  pose proof (prepared_good _ _ _ _ Hg Hp) as Hg1. pose proof Hp as [Hs1 Hl1 Hse Hat Hu]. rewrite Hr1. cbn [obind].
  pose proof (less_default_dom _ _ _ Hl1 Hc) as Hc1. rewrite attach_attached by done. pose proof (ld_core _ _ _ Hl1) as Hcore.
  destruct (attach_uncached_spec cls ps s1 Hg1 Hc1) as [Hg2 Hun2]; [|done| |done|].
  { intros d rd' Hsub Hr'. destruct (same_core_at _ _ _ _ _ (symmetry Hcore) Hr') as (rd & Hr & _).
    rewrite (fmap_at _ _ _ _ _ _ (ld_cache _ _ _ Hl1) Hr Hr'). apply (Hun d); [|done].
    eapply sub_links; [|exact Hsub]. symmetry. by eapply same_core_links. }
  { intros p Hin. eapply prepared_no_list; [done|]. by apply Hps. }
  exists (attached cls ps s1). split_and!; [done..| | |intros q; apply Hcore].
  - pose proof (attached_gained cls ps s1) as Hgain. eapply gained_before in Hgain; [|exact Hcore].
    intros c rc Hr. destruct (Hgain c rc Hr) as (rc' & Hr' & Hsup & Ho). exists rc'. split_and!; [done..|].
    intros sel. rewrite Ho, (find_lists sel_addr s s1 sel ps); [done|]. intros p _. apply Hcore.
  - intros q Hq [Hml Hno]%Hat. split; [done|]. intros c (rc' & (rc & Hr & ->)%attached_at & Hin).
    apply (Hno c). exists rc. split; [done|]. destruct (decide (c = cls)); [|done]. simpl in Hin.
    rewrite lists_of_attachLists in Hin. by apply elem_of_app in Hin as [?|?].
Qed.

Lemma install_spec cls ml s : Good s -> is_Some (rt_classes s !! cls) -> isFixedUp ml = true -> searchable sel_addr ml ->
  exists s', install sel_addr pre cls ml s = Ret s' /\ Good s' /\ gained s s' cls (mlist_methods ml).
Proof using Hinj.
  intros Hg Hc Hf Hse. unfold install, alloc_mlist. set (p := fresh (dom (rt_mlists s))).
  assert (Hfresh : rt_mlists s !! p = None) by (apply not_elem_of_dom, is_fresh).
  assert (Hno : forall c, ~ has_list s c p).
  { intros c (rc & Hr & Hin). destruct (lo_search _ _ (good_lists _ _ _ _ _ _ Hg) c rc p Hr Hin) as (ml' & Hml' & _). congruence. }
  pose proof (alloc_good p ml s Hg Hno) as Hg1. set (s1 := with_mlists _ s) in *.
  destruct (prepare_attach_spec cls [p] s1 Hg1 Hc) as (s' & Hr & Hg' & Hgain).
  { intros q ->%list_elem_of_singleton. split; [|done]. exists ml. simpl. by rewrite lookup_insert_eq, Hf. }
  exists s'. split_and!; [done..|]. intros c rc Hrc. destruct (Hgain c rc Hrc) as (rc' & Hr' & Hsup & Ho).
  exists rc'. split_and!; [done..|]. intros sel. rewrite Ho. csimpl. rewrite app_nil_r.
  assert (list_methods s1 p = mlist_methods ml) as -> by (unfold list_methods; simpl; by rewrite lookup_insert_eq).
  assert (own s1 rc sel = own s rc sel) as ->; [|done]. apply (own_lists sel_addr); [|done].
  intros q Hq. apply same_list_eq. simpl. rewrite lookup_insert_ne; [done|]. intros <-. destruct (Hno c). by exists rc.
Qed.

End Install.
