(* ===== verification/ClassAddSpec.v ===== *)
(** * Adding and replacing methods

    The results of [class_addMethod], [class_replaceMethod] and their bulk
    versions, and of attaching categories, on every branch. *)

From Stdlib Require Import ZArith Lia Bool String Sorted.
From stdpp Require Import base list gmap strings.
From S2P Require Import Prelude ObjCData MethodList ClassTree ClassTreeSpec ClassChanges ClassInvariant ClassEffects ClassLookup ClassBits ClassMethodsSpec ClassInstallSpec.

Local Open Scope nat_scope.

Lemma eta_method m : m = mk_method (_cmd m) (method_type m) (_imp m).
Proof. by destruct m. Qed.

Section Add.
Context (sel_addr : string -> Z) (Hinj : forall a b, sel_addr a = sel_addr b -> a = b).
Context (pre : nat) (NSObject NSObjectMeta : Class) (original : custom -> string -> option IMP).

Local Abbreviation Good := (good sel_addr pre NSObject NSObjectMeta original).
Local Abbreviation same_core := (same_core sel_addr).

(** ** Replacing the method that answers *)

Lemma search_mlists_split s lists sel p i : lists_at sel_addr s lists ->
  search_mlists sel_addr s lists sel = Ret (Some (p, i)) ->
  exists l1 l2, lists = l1 ++ p :: l2 /\ find_method sel (l1 ≫= list_methods s) = None /\
    find_index sel (list_methods s p) = Some i.
Proof.
  induction lists as [|q lists IH]; intros Hl; [done|]. destruct (Hl q) as (ml & Hml & Hs); [by left|].
  cbn [search_mlists]. unfold mlist_at. rewrite Hml. cbn [of_option obind]. rewrite Hs. cbn [obind].
  assert (Hq : list_methods s q = mlist_methods ml) by (unfold list_methods; by rewrite Hml).
  rewrite <- Hq. destruct (find_index sel (list_methods s q)) as [j|] eqn:Ej.
  - intros [= <- <-]. by exists [], lists.
  - intros (l1 & l2 & -> & Hn & Hi)%IH; [|intros r Hr; apply Hl; by right]. exists (q :: l1), l2. split_and!; [done| |done].
    csimpl. rewrite find_method_app, Hn, <- find_index_method, Ej. done.
Qed.

Lemma stored_find m imp s meth p sel : method_at s m = Ret meth -> sel <> _cmd meth ->
  find_method sel (list_methods (stored m imp s) p) = find_method sel (list_methods s p).
Proof.
  intros Hm Hn. rewrite stored_methods. destruct (decide (p = m.1)) as [->|]; [|done].
  unfold method_at, mlist_at, list_methods in *. destruct (rt_mlists s !! m.1) as [ml|]; [|done]. simpl in *.
  destruct (mlist_methods ml !! m.2) as [x|] eqn:Ex; [|done]. injection Hm as ->.
  rewrite (alter_at _ _ _ _ Ex). by eapply find_method_insert.
Qed.

Lemma stored_own m imp s meth rc sel : method_at s m = Ret meth -> sel <> _cmd meth ->
  own (stored m imp s) rc sel = own s rc sel.
Proof.
  intros Hm Hn. unfold own, methods_of. f_equal. induction (lists_of (c_methods rc)) as [|p l IH]; [done|].
  csimpl. rewrite !find_method_app, IH. by rewrite (stored_find m imp s meth).
Qed.

(** A store to the method the search finds changes the answer of the class for
    the name and nothing else. *)
Lemma stored_gained cls rc m meth imp types s sel : Good s -> rt_classes s !! cls = Some rc ->
  getMethodNoSuper_nolock sel_addr s cls sel = Ret (Some m) -> method_at s m = Ret meth -> _cmd meth = sel ->
  gained s (stored m imp s) cls [mk_method sel types imp].
Proof.
  intros Hg Hc Hget Hm Hcmd c rc0 Hr. exists rc0. rewrite stored_classes. split_and!; [done..|]. intros sel'.
  unfold getMethodNoSuper_nolock, class_at in Hget. rewrite Hc in Hget. cbn [of_option obind] in Hget. destruct m as [p i].
  assert (Hla : lists_at sel_addr s (lists_of (c_methods rc))).
  { intros q Hq. exact (lo_search _ _ (good_lists _ _ _ _ _ _ Hg) cls rc q Hc Hq). }
  destruct (search_mlists_split s _ sel p i Hla Hget) as (l1 & l2 & Hl & Hn & Hi).
  unfold find_method at 1. simpl. destruct (String.eqb_spec sel sel') as [<-|Hne]; simpl.
  - destruct (decide (c = cls)) as [->|Hcc].
    + assert (rc0 = rc) as -> by congruence. unfold own, methods_of. rewrite Hl, bind_app, find_method_app. csimpl.
      rewrite find_method_app. rewrite (proj2 (find_method_none_names sel _ (l1 ≫= list_methods s) (stored_lists_names _ _ _ _)) Hn).
      rewrite stored_methods, decide_True by done. simpl. pose proof Hi as Hi0.
      destruct (find_index_lookup _ _ _ Hi) as (x & Hx & Hxc).
      rewrite (alter_at _ _ _ _ Hx), (find_method_insert_eq sel); [done|done|by simpl].
    + apply (own_lists sel_addr); [|done]. intros q Hq. apply stored_list. simpl. intros ->. apply Hcc.
      apply (lo_owner _ _ (good_lists _ _ _ _ _ _ Hg) c cls rc0 rc p Hr Hc Hq). rewrite Hl. apply elem_of_app. right. by left.
  - rewrite (stored_own (p, i) imp s meth) by congruence. by destruct (decide _).
Qed.

(** ** [addMethod] *)

Lemma fixed_up_one_searchable m : searchable sel_addr (fixed_up_list [m]).
Proof using Hinj.
  apply sorted_searchable; [done| |].
  - unfold mlist_methods. simpl. repeat constructor.
  - unfold mlist_methods. simpl. lia.
Qed.

Lemma addMethod_spec cls rc name imp types replace s : Good s -> rt_classes s !! cls = Some rc ->
  match own s rc name with
  | Some old =>
      if replace && bool_decide (imp <> nil_imp) then
        exists s', addMethod sel_addr pre NSObject cls name imp types replace s = Ret (old, s') /\ Good s' /\
          gained s s' cls [mk_method name types imp]
      else addMethod sel_addr pre NSObject cls name imp types replace s = Ret (if replace then nil_imp else old, s)
  | None =>
      exists s', addMethod sel_addr pre NSObject cls name imp types replace s = Ret (nil_imp, s') /\ Good s' /\
        gained s s' cls [mk_method name types imp]
  end.
Proof using Hinj.
  intros Hg Hc. unfold addMethod.
  destruct (getMethodNoSuper_spec sel_addr s cls rc name (good_lists _ _ _ _ _ _ Hg) Hc) as (m & Hget & Hm). rewrite Hget.
  cbn [obind]. destruct m as [m|].
  - destruct Hm as [Hin (meth & Hmeth & Hcmd & Hown & _)]. rewrite Hown. destruct replace; cbn [negb andb].
    + destruct (bool_decide_reflect (imp <> nil_imp)) as [Hi|Hi].
      * destruct (setImplementation_spec sel_addr pre NSObject NSObjectMeta original (Some cls) m imp s meth Hg Hmeth Hi)
          as (s' & Hrun & Hg' & Hcore); [intros c [= <-]; by exists rc|]. rewrite Hrun. exists s'. split_and!; [done..|].
        eapply gained_core; [exact Hcore|]. by eapply stored_gained.
      * unfold _method_setImplementation. rewrite bool_decide_true; [done|]. by apply dec_stable.
    + by rewrite Hmeth.
  - rewrite Hm. destruct (install_spec sel_addr Hinj pre NSObject NSObjectMeta original cls
      (fixed_up_list [mk_method name types imp]) s Hg ltac:(eauto) eq_refl (fixed_up_one_searchable _)) as (s' & Hrun & Hg' & Hgain).
    rewrite Hrun. cbn [obind]. by exists s'.
Qed.

(** ** [addMethods] *)

(** The class itself has a method of the name. *)
Definition owned (s : runtime) (cls : Class) (m : _objc_method) : bool :=
  match rt_classes s !! cls with Some rc => bool_decide (own s rc (_cmd m) <> None) | None => false end.

Lemma gained_nil s cls : gained s s cls [].
Proof. intros c rc Hr. exists rc. split_and!; [done..|]. intros sel. simpl. by destruct (decide _). Qed.

Lemma gained_trans s s1 s2 cls l1 l2 : gained s s1 cls l1 -> gained s1 s2 cls l2 -> gained s s2 cls (l2 ++ l1).
Proof.
  intros H1 H2 c rc Hr. destruct (H1 c rc Hr) as (rc1 & Hr1 & Hp1 & Ho1). destruct (H2 c rc1 Hr1) as (rc2 & Hr2 & Hp2 & Ho2).
  exists rc2. split_and!; [done|congruence|]. intros sel. rewrite Ho2, Ho1, find_method_app.
  destruct (decide (c = cls)); [|done]. by destruct (find_method sel l2).
Qed.

Lemma gained_owned s s1 cls m m' : gained s s1 cls [m] -> owned s cls m = true -> owned s1 cls m' = owned s cls m'.
Proof.
  unfold owned. intros Hg. destruct (rt_classes s !! cls) as [rc|] eqn:Hr; [|done]. intros Ho%bool_decide_eq_true.
  destruct (Hg cls rc Hr) as (rc1 & -> & _ & Ho1). rewrite Ho1, decide_True by done. unfold find_method. simpl.
  destruct (String.eqb_spec (_cmd m) (_cmd m')) as [He|]; [|done]. simpl. rewrite <- He.
  rewrite !bool_decide_true; done.
Qed.

Definition replaced (s : runtime) (cls : Class) (methods : list _objc_method) : list _objc_method :=
  reverse (List.filter (fun m => owned s cls m && bool_decide (_imp m <> nil_imp)) methods).

(** One round of the loop that replaces. *)
Lemma replace_found cls rc o meth m s : Good s -> rt_classes s !! cls = Some rc ->
  getMethodNoSuper_nolock sel_addr s cls (_cmd m) = Ret (Some o) -> o.1 ∈ lists_of (c_methods rc) ->
  method_at s o = Ret meth -> _cmd meth = _cmd m -> owned s cls m = true ->
  exists r s1, _method_setImplementation pre NSObject (Some cls) (Some o) (_imp m) s = Ret (r, s1) /\ Good s1 /\
    is_Some (rt_classes s1 !! cls) /\ gained s s1 cls (if bool_decide (_imp m = nil_imp) then [] else [m]) /\
    forall m', owned s1 cls m' = owned s cls m'.
Proof.
  intros Hg Hr Hget Hin Hmeth Hcmd Hown. destruct (bool_decide_reflect (_imp m = nil_imp)) as [Hi|Hi].
  - exists nil_imp, s. split_and!; [|done|eauto|apply gained_nil|done].
    unfold _method_setImplementation. by rewrite bool_decide_true.
  - destruct (setImplementation_spec sel_addr pre NSObject NSObjectMeta original (Some cls) o (_imp m) s meth Hg Hmeth Hi)
      as (s1 & Hrun & Hg1 & Hcore); [intros c [= <-]; by exists rc|].
    assert (Hgain : gained s s1 cls [m]).
    { eapply gained_core; [exact Hcore|]. rewrite (eta_method m) at 2. by eapply stored_gained. }
    exists (_imp meth), s1. split_and!; [done|done| |done|].
    + eapply same_links_dom; [by eapply same_core_links|]. rewrite stored_classes. eauto.
    + intros m'. by apply (gained_owned _ _ _ m).
Qed.

Lemma replaced_cons s s1 cls m ms : (forall m', owned s1 cls m' = owned s cls m') -> owned s cls m = true ->
  replaced s cls (m :: ms) = replaced s1 cls ms ++ if bool_decide (_imp m = nil_imp) then [] else [m].
Proof.
  intros Hsame Hown. unfold replaced.
  assert (List.filter (fun m => owned s1 cls m && bool_decide (_imp m <> nil_imp)) ms =
    List.filter (fun m => owned s cls m && bool_decide (_imp m <> nil_imp)) ms) as ->.
  { apply List.filter_ext. intros m'. by rewrite Hsame. }
  simpl. rewrite Hown. cbn [andb]. rewrite bool_decide_not.
  destruct (bool_decide _); simpl; [by rewrite app_nil_r|]. by rewrite reverse_cons.
Qed.

(** The failed names, the methods that are new and the state after the loop. *)
Lemma addMethods_loop_spec cls methods replace failed new s : Good s -> is_Some (rt_classes s !! cls) ->
  exists s1, addMethods_loop sel_addr pre NSObject cls methods replace failed new s =
    Ret (failed ++ (if replace then [] else map _cmd (List.filter (owned s cls) methods)),
         new ++ List.filter (fun m => negb (owned s cls m)) methods, s1) /\
    Good s1 /\ is_Some (rt_classes s1 !! cls) /\ gained s s1 cls (if replace then replaced s cls methods else []).
Proof using Hinj.
  revert failed new s. induction methods as [|m ms IH]; intros failed new s Hg Hc.
  { exists s. simpl. rewrite !app_nil_r. split_and!; [destruct replace; by rewrite ?app_nil_r|done|done|].
    destruct replace; apply gained_nil. }
  pose proof Hc as [rc Hr].
  destruct (getMethodNoSuper_spec sel_addr s cls rc (_cmd m) (good_lists _ _ _ _ _ _ Hg) Hr) as (o & Hget & Hm).
  cbn [addMethods_loop]. rewrite Hget. cbn [obind].
  assert (Hown : owned s cls m = match o with Some _ => true | None => false end).
  { unfold owned. rewrite Hr. destruct o as [o|].
    - destruct Hm as [_ (meth & _ & _ & Ho & _)]. rewrite Ho. by apply bool_decide_true.
    - rewrite Hm. apply bool_decide_false. tauto. }
  destruct o as [o|].
  - destruct Hm as [Hin (meth & Hmeth & Hcmd & Ho & _)]. destruct replace; cbn [negb].
    + destruct (replace_found cls rc o meth m s Hg Hr Hget Hin Hmeth Hcmd Hown) as (r & s1 & Hrun & Hg1 & Hc1 & Hgain1 & Hsame).
      rewrite Hrun. cbn [obind].
      destruct (IH failed new s1 Hg1 Hc1) as (s2 & Hrun2 & Hg2 & Hc2 & Hgain2). exists s2. split_and!; [|done|done|].
      * rewrite Hrun2. simpl. rewrite Hown. simpl. do 4 f_equal. apply List.filter_ext. intros m'. by rewrite Hsame.
      * rewrite (replaced_cons s s1) by done. by eapply gained_trans.
    + rewrite Hmeth. cbn [obind]. destruct (IH (failed ++ [_cmd meth]) new s Hg Hc) as (s2 & Hrun2 & H2).
      exists s2. split; [|done]. rewrite Hrun2. simpl. rewrite Hown. simpl. by rewrite Hcmd, <- app_assoc.
  - destruct (IH failed (new ++ [m]) s Hg Hc) as (s2 & Hrun2 & Hg2 & Hc2 & Hgain2).
    exists s2. split_and!; [|done|done|].
    + rewrite Hrun2. simpl. rewrite Hown. simpl. by rewrite <- app_assoc.
    + unfold replaced in *. simpl. by rewrite Hown.
Qed.

Lemma fixed_up_sorted_searchable l : (Z.of_nat (length l) < 2 ^ 32)%Z ->
  searchable sel_addr (fixed_up_list (stable_sort sel_addr l)).
Proof using Hinj.
  intros Hl. apply sorted_searchable; unfold mlist_methods; simpl; [done|apply stable_sort_sorted|].
  by rewrite stable_sort_length.
Qed.

Lemma gained_ext s s' cls l l' : (forall sel, find_method sel l = find_method sel l') -> gained s s' cls l -> gained s s' cls l'.
Proof.
  intros He Hg c rc Hr. destruct (Hg c rc Hr) as (rc' & Hr' & Hp & Ho). exists rc'. split_and!; [done..|].
  intros sel. by rewrite Ho, He.
Qed.

Lemma addMethods_spec cls methods replace s : Good s -> is_Some (rt_classes s !! cls) ->
  (Z.of_nat (length methods) < 2 ^ 32)%Z ->
  exists s', addMethods sel_addr pre NSObject cls methods replace s =
    Ret (if replace then [] else map _cmd (List.filter (owned s cls) methods), s') /\ Good s' /\
    gained s s' cls (List.filter (fun m => negb (owned s cls m)) methods ++ if replace then replaced s cls methods else []).
Proof using Hinj.
  intros Hg Hc Hlen. destruct (addMethods_loop_spec cls methods replace [] [] s Hg Hc) as (s1 & Hrun & Hg1 & Hc1 & Hgain1).
  unfold addMethods. rewrite Hrun. cbn [obind app].
  assert (Hln : (Z.of_nat (length (List.filter (fun m => negb (owned s cls m)) methods)) < 2 ^ 32)%Z).
  { pose proof (List.filter_length_le (fun m => negb (owned s cls m)) methods). lia. }
  destruct (List.filter (fun m => negb (owned s cls m)) methods) as [|m new] eqn:En; [by exists s1|].
  destruct (install_spec sel_addr Hinj pre NSObject NSObjectMeta original cls
    (fixed_up_list (stable_sort sel_addr (m :: new))) s1 Hg1 Hc1 eq_refl (fixed_up_sorted_searchable _ Hln)) as (s' & Hrun' & Hg' & Hgain').
  rewrite Hrun'. cbn [obind]. exists s'. split_and!; [done..|]. eapply gained_trans; [exact Hgain1|].
  eapply gained_ext; [|exact Hgain']. intros sel. apply (stable_sort_find sel_addr).
Qed.

(** ** Categories *)

(** The lists of the categories, the newest first. *)
Definition category_mlists (cats : list (option mlist_ptr)) : list mlist_ptr := omap id (reverse cats).

Lemma attached_nil cls s : is_Some (rt_classes s !! cls) -> attach cls [] s = Ret s.
Proof.
  intros [rc Hr]. unfold attach. rewrite (update_at _ _ _ _ Hr). simpl.
  assert (set_methods (c_methods rc) rc = rc) as -> by (by destruct rc). rewrite insert_id by done. by destruct s.
Qed.

Lemma attachCategories_spec cls cats s : Good s -> is_Some (rt_classes s !! cls) ->
  (forall p, p ∈ category_mlists cats -> attachable sel_addr s p) ->
  exists s', attachCategories sel_addr pre cls cats true s = Ret s' /\ Good s' /\
    gained s s' cls (category_mlists cats ≫= list_methods s).
Proof using Hinj.
  intros Hg Hc Hcats. unfold attachCategories. change (omap id (reverse cats)) with (category_mlists cats).
  destruct (category_mlists cats) as [|p ps] eqn:Ep.
  - simpl. rewrite attached_nil by done. exists s. split_and!; [done|done|apply gained_nil].
  - destruct (prepare_attach_spec sel_addr Hinj pre NSObject NSObjectMeta original cls (p :: ps) s Hg Hc Hcats)
      as (s' & Hrun & H). cbn [length Nat.eqb negb andb]. by exists s'.
Qed.

End Add.
