(* ===== verification/ClassNewSpec.v ===== *)
(** * New classes

    Connecting a class without subclasses to its superclass: the forest gains a
    leaf, and the invariant is kept; so it is when a pair of a class and its
    metaclass is created, and when a class of an image is connected with its methods
    and categories. *)

From Stdlib Require Import ZArith Lia Bool String.
From stdpp Require Import base list gmap strings.
From S2P Require Import Prelude ObjCData MethodList ClassTree ClassTreeSpec ClassChanges ClassInvariant ClassEffects ClassLookup ClassBits ClassMethodsSpec ClassInstallSpec ClassAddSpec.

Local Open Scope nat_scope.

(** ** Writes to one class *)

Lemma put_at c rc s : rt_classes (put c rc s) !! c = Some rc.
Proof. apply lookup_insert_eq. Qed.

Lemma class_put_put c rc rc' s : put c rc (put c rc' s) = put c rc s.
Proof. unfold put, with_classes. simpl. by rewrite insert_insert_eq. Qed.

Lemma class_put_comm c d rc rd s : c <> d -> put c rc (put d rd s) = put d rd (put c rc s).
Proof. intros Hn. unfold put, with_classes. simpl. by rewrite insert_insert_ne. Qed.

Lemma put_id c rc s : rt_classes s !! c = Some rc -> put c rc s = s.
Proof. intros Hc. unfold put, with_classes. rewrite insert_id by done. by destruct s. Qed.

Lemma update_put c f rc s : update c f (put c rc s) = Ret (put c (f rc) s).
Proof. rewrite (update_at c f _ rc) by apply put_at. change (Ret (put c (f rc) (put c rc s)) = Ret (put c (f rc) s)). by rewrite class_put_put. Qed.

Lemma update_is_put c f rc s : rt_classes s !! c = Some rc -> update c f s = Ret (put c (f rc) s).
Proof. apply update_at. Qed.

(** ** The walk over a class without subclasses *)

Lemma walk_leaf pre cls code s s1 rc : code cls s = Ret s1 -> rt_classes s1 !! cls = Some rc ->
  c_firstSubclass rc = None -> foreach_realized_class_and_subclass pre cls code s = Ret s1.
Proof.
  intros Hrun Hc Hf. unfold foreach_realized_class_and_subclass.
  assert (exists n, unreasonableClassCount pre s = S (S n)) as [n ->].
  { unfold unreasonableClassCount. exists ((gdb_objc_realized_classes s + pre) * 16 + 14). lia. }
  cbn [foreach_realized_class_and_subclass_2 Nat.eqb]. unfold always at 1. rewrite Hrun. cbn [obind negb].
  unfold class_at. rewrite Hc. cbn [of_option obind]. rewrite Hf. cbn [climb]. unfold class_at. rewrite Hc.
  cbn [of_option obind]. rewrite Z.eqb_refl, andb_false_r. cbn [obind]. by rewrite Z.eqb_refl.
Qed.

(** ** What a class takes over from its superclass *)

Definition set_if (b : bool) (f : flag) (c : class_t) : class_t := if b then setBits f c else c.

Definition inherit (super c : class_t) : class_t :=
  set_if (has_flag FAST_REQUIRES_RAW_ISA super && bool_decide (c_superclass super <> None)) FAST_REQUIRES_RAW_ISA
    (set_if (has_flag FAST_HAS_CXX_DTOR super) FAST_HAS_CXX_DTOR
       (set_if (has_flag FAST_HAS_CXX_CTOR super) FAST_HAS_CXX_CTOR c)).

Lemma set_if_core b f c : core (set_if b f c) = core c.
Proof. by destruct b. Qed.

Lemma set_if_flag b f f' c : f' <> f -> has_flag f' (set_if b f c) = has_flag f' c.
Proof. intros Hn. destruct b; [|done]. simpl. rewrite has_flag_set, bool_decide_false by done. done. Qed.

Lemma inherit_core super c : core (inherit super c) = core c.
Proof. unfold inherit. by rewrite !set_if_core. Qed.

(** The bits that are not inherited. *)
Lemma inherit_flag super c f : f = RW_INITIALIZED \/ f = RW_INITIALIZING \/ (exists k, f = default_bit k) ->
  has_flag f (inherit super c) = has_flag f c.
Proof.
  intros Hf. unfold inherit. rewrite !set_if_flag; [done|..];
    destruct Hf as [->|[->|[[] ->]]]; done.
Qed.

Lemma inherit_cache super c : c_cache (inherit super c) = c_cache c.
Proof. unfold inherit, set_if. by repeat destruct (_ : bool). Qed.

Lemma setBits_id f c : has_flag f c = true -> setBits f c = c.
Proof.
  unfold has_flag, setBits, set_flags. intros Hf%bool_decide_eq_true. destruct c; simpl in *. f_equal.
  apply subseteq_union_1_L. by apply singleton_subseteq_l.
Qed.

Lemma setBit_if_put b f c rc s : setBit_if b f c (put c rc s) = Ret (put c (set_if b f rc) s).
Proof. destruct b; [apply update_put|done]. Qed.

Lemma setHasCustom_leaf pre k c rc s : has_flag (default_bit k) rc = false ->
  setHasCustom pre k c (put c rc s) = Ret (put c rc s).
Proof. intros Hf. unfold setHasCustom, class_at. rewrite put_at. simpl. unfold hasCustom. by rewrite Hf. Qed.

Lemma rawIsa_leaf pre c rc s : c_firstSubclass rc = None ->
  setInstancesRequireRawIsa pre c (put c rc s) = Ret (put c (setBits FAST_REQUIRES_RAW_ISA rc) s).
Proof.
  intros Hf. unfold setInstancesRequireRawIsa, class_at at 1. rewrite put_at. cbn [of_option obind].
  destruct (has_flag FAST_REQUIRES_RAW_ISA rc) eqn:E; [by rewrite setBits_id|].
  eapply walk_leaf; [|apply put_at|done]. unfold class_at. rewrite put_at. cbn [of_option obind]. rewrite E.
  apply update_put.
Qed.

Lemma addSubclass_leaf pre super cls s rs rc : rt_classes s !! super = Some rs -> rt_classes s !! cls = Some rc ->
  super <> cls -> c_firstSubclass rc = None -> (forall k, has_flag (default_bit k) rc = false) ->
  addSubclass pre super cls s =
  Ret (put cls (inherit rs (set_nextSiblingClass (c_firstSubclass rs) rc)) (put super (set_firstSubclass (Some cls) rs) s)).
Proof.
  intros Hs Hc Hn Hf Hd. unfold addSubclass. unfold class_at at 1. rewrite Hs. cbn [of_option obind].
  rewrite (update_is_put _ _ _ _ Hc). cbn [obind]. rewrite (update_is_put super _ rs) by (simpl; by rewrite lookup_insert_ne).
  cbn [obind]. rewrite class_put_comm by done. rewrite setBit_if_put. cbn [obind]. rewrite setBit_if_put. cbn [obind].
  set (c1 := set_if (has_flag FAST_HAS_CXX_DTOR rs) _ _).
  assert (Hd1 : forall k, has_flag (default_bit k) c1 = false).
  { intros k. unfold c1. rewrite !set_if_flag by (by destruct k). apply Hd. }
  assert (Hf1 : c_firstSubclass c1 = None) by (unfold c1, set_if; by do 2 destruct (has_flag _ rs)).
  assert (forall k b, (if (b : bool) then setHasCustom pre k cls (put cls c1 (put super (set_firstSubclass (Some cls) rs) s))
    else Ret (put cls c1 (put super (set_firstSubclass (Some cls) rs) s)))
    = Ret (put cls c1 (put super (set_firstSubclass (Some cls) rs) s))) as Hk.
  { intros k b. destruct b; [by apply setHasCustom_leaf|done]. }
  unfold setHasCustomRR, setHasCustomAWZ. rewrite Hk. cbn [obind]. rewrite Hk. cbn [obind]. unfold inherit. fold c1.
  destruct (has_flag FAST_REQUIRES_RAW_ISA rs && _); [by apply rawIsa_leaf|done].
Qed.

(** ** The forest gains a leaf *)

Definition leaf_added (super cls : Class) (rs rc : class_t) (s : runtime) : runtime :=
  put cls (inherit rs (set_nextSiblingClass (c_firstSubclass rs) rc)) (put super (set_firstSubclass (Some cls) rs) s).

Section Leaf.
Context (super cls : Class) (rs rc : class_t) (s : runtime).
Context (Hs : rt_classes s !! super = Some rs) (Hnew : rt_classes s !! cls = None).
Context (Hsuper : c_superclass rc = Some super) (Hfirst : c_firstSubclass rc = None).

Local Abbreviation s' := (leaf_added super cls rs rc s).

Lemma leaf_ne : super <> cls.
Proof using All. intros ->. congruence. Qed.

Lemma leaf_at_new : exists rc', rt_classes s' !! cls = Some rc' /\
  core rc' = core (set_nextSiblingClass (c_firstSubclass rs) rc) /\ c_cache rc' = c_cache rc /\
  (forall f, f = RW_INITIALIZED \/ f = RW_INITIALIZING \/ (exists k, f = default_bit k) -> has_flag f rc' = has_flag f rc).
Proof using All.
  eexists. split_and!; [apply put_at|apply inherit_core|by rewrite inherit_cache|].
  intros f Hf. by rewrite inherit_flag.
Qed.

Lemma leaf_at_super : rt_classes s' !! super = Some (set_firstSubclass (Some cls) rs).
Proof using All. simpl. rewrite lookup_insert_ne by (apply not_eq_sym, leaf_ne). by rewrite lookup_insert_eq. Qed.

Lemma leaf_at_other d : d <> cls -> d <> super -> rt_classes s' !! d = rt_classes s !! d.
Proof using All. intros H1 H2. simpl. by rewrite !lookup_insert_ne. Qed.

(** The old classes keep everything but the first subclass of [super]. *)
Lemma leaf_at_old d rd : rt_classes s !! d = Some rd -> exists rd', rt_classes s' !! d = Some rd' /\
  c_superclass rd' = c_superclass rd /\ c_nextSiblingClass rd' = c_nextSiblingClass rd /\ c_isa rd' = c_isa rd /\
  c_isMeta rd' = c_isMeta rd /\ c_baseMethods rd' = c_baseMethods rd /\ c_methods rd' = c_methods rd /\
  c_cache rd' = c_cache rd /\ c_flags rd' = c_flags rd /\ (d <> super -> rd' = rd).
Proof using All.
  intros Hd. destruct (decide (d = super)) as [->|Hn].
  - rewrite leaf_at_super. assert (rd = rs) as -> by congruence. eexists. by split_and!.
  - rewrite leaf_at_other by (congruence || done). exists rd. by split_and!.
Qed.

Lemma leaf_from d rd' : rt_classes s' !! d = Some rd' -> d = cls \/ exists rd, rt_classes s !! d = Some rd.
Proof using All.
  intros Hd. destruct (decide (d = cls)) as [->|Hn]; [by left|right].
  destruct (decide (d = super)) as [->|Hn']; [by exists rs|]. rewrite leaf_at_other in Hd by done. eauto.
Qed.

Lemma leaf_siblings p l : cls ∉ l -> siblings s p l -> siblings s' p l.
Proof using All.
  revert p. induction l as [|c l IH]; intros p Hn; [done|]. intros [-> (rd & Hd & Hl)]. split; [done|].
  destruct (leaf_at_old c rd Hd) as (rd' & Hd' & _ & Hnext & _). exists rd'. split; [done|]. rewrite Hnext.
  apply IH; [|done]. intros Hin. apply Hn. by right.
Qed.

Lemma leaf_tree : class_tree s -> class_tree s'.
Proof using All.
  intros (kids & depth & T).
  assert (Hout : forall p, cls ∉ kids p) by (intros p (rd & Hd & _)%(t_kids _ _ _ T); congruence).
  assert (Hnil : kids (Some cls) = []).
  { destruct (kids (Some cls)) as [|d l] eqn:Ek; [done|].
    destruct (proj1 (t_kids _ _ _ T (Some cls) d)) as (rd & Hd & Hp); [rewrite Ek; by left|].
    destruct (t_super _ _ _ T _ _ _ Hd Hp) as [[? ?] _]. congruence. }
  destruct leaf_at_new as (rc' & Hc' & Hcore & _).
  exists (fun p => if decide (p = Some super) then cls :: kids p else kids p).
  exists (fun d => if decide (d = cls) then S (depth super) else depth d). split.
  - apply leaf_siblings; [apply Hout|]. apply (t_roots _ _ _ T).
  - intros d rd' Hd. destruct (decide (d = cls)) as [->|Hdc].
    + rewrite decide_False by (intros [= He]; by apply leaf_ne). rewrite Hnil. simpl.
      assert (rd' = rc') as -> by congruence. by injection Hcore as _ _ -> _ _ _ _.
    + destruct (leaf_from d rd' Hd) as [?|[rd Hrd]]; [done|]. destruct (decide (d = super)) as [->|Hds].
      * rewrite decide_True by done. rewrite leaf_at_super in Hd. injection Hd as <-. simpl. split; [done|].
        exists rc'. split; [done|]. injection Hcore as _ _ _ -> _ _ _. apply leaf_siblings; [apply Hout|].
        by apply (t_subs _ _ _ T).
      * rewrite decide_False by congruence. rewrite leaf_at_other in Hd by done. apply leaf_siblings; [apply Hout|].
        by apply (t_subs _ _ _ T).
  - intros p d. assert (Hold : forall q, d <> cls -> d ∈ kids q <-> exists rd', rt_classes s' !! d = Some rd' /\ c_superclass rd' = q).
    { intros q Hn. rewrite (t_kids _ _ _ T). split.
      - intros (rd & Hd & Hp). destruct (leaf_at_old d rd Hd) as (rd' & Hd' & Hp' & _). exists rd'. split; [done|congruence].
      - intros (rd' & Hd' & Hp'). destruct (leaf_from d rd' Hd') as [?|[rd Hrd]]; [done|].
        destruct (leaf_at_old d rd Hrd) as (rd2 & Hd2 & Hp2 & _). exists rd. split; [done|congruence]. }
    destruct (decide (d = cls)) as [->|Hdc].
    + assert (Hiff : (exists rd', rt_classes s' !! cls = Some rd' /\ c_superclass rd' = p) <-> p = Some super).
      { injection Hcore as _ Hp _ _ _ _ _. split.
        - intros (rd' & Hd' & <-). assert (rd' = rc') as -> by congruence. congruence.
        - intros ->. exists rc'. split; [done|]. congruence. }
      rewrite Hiff. destruct (decide (p = Some super)) as [->|Hp]; split; [done|by left| |done]. by intros ?%Hout.
    + rewrite <- Hold by done. destruct (decide (p = Some super)); [|done]. rewrite elem_of_cons. tauto.
  - intros p. destruct (decide (p = Some super)); [constructor; [apply Hout|]|]; apply (t_nodup _ _ _ T).
  - intros d rd' p Hd Hp. destruct (decide (d = cls)) as [->|Hdc].
    + assert (p = super) as -> by (assert (rd' = rc') as -> by congruence; injection Hcore as _ Hq _ _ _ _ _; congruence).
      rewrite decide_False by apply leaf_ne. split; [rewrite leaf_at_super; eauto|lia].
    + destruct (leaf_from d rd' Hd) as [?|[rd Hrd]]; [done|]. destruct (leaf_at_old d rd Hrd) as (rd2 & Hd2 & Hp2 & _).
      destruct (t_super _ _ _ T d rd p Hrd) as [[rp Hrp] Hlt]; [congruence|]. rewrite decide_False by congruence.
      destruct (leaf_at_old p rp Hrp) as (? & -> & _). eauto.
Qed.

(** No class was below the new one. *)
Lemma leaf_not_above d : class_tree s -> is_Some (rt_classes s !! d) -> ~ sub s' d cls.
Proof using All.
  intros (kids & depth & T). assert (H : forall d top, sub s' d top -> top = cls -> is_Some (rt_classes s !! d) -> False);
    [|intros Hd Hsub; by apply (H d cls)].
  clear d. intros d top. induction 1 as [c _|e re p t He Hp _ IH]; intros Ht [rd Hd]; [congruence|].
  destruct (leaf_at_old e rd Hd) as (re' & He' & Hp' & _). assert (re' = re) as -> by congruence.
  destruct (t_super _ _ _ T e rd p Hd) as [Hrp _]; [congruence|]. by apply IH.
Qed.

(** *** Answers *)

Lemma leaf_own d rd rd' sel : rt_classes s !! d = Some rd -> rt_classes s' !! d = Some rd' -> own s' rd' sel = own s rd sel.
Proof using All.
  intros Hd Hd'. destruct (leaf_at_old d rd Hd) as (rd2 & Hd2 & _ & _ & _ & _ & _ & Hm & _).
  assert (rd2 = rd') as -> by congruence. unfold own, methods_of. by rewrite Hm.
Qed.

Lemma leaf_answers d sel r : answers s sel (Some d) r -> answers s' sel (Some d) r.
Proof using All.
  apply answers_frame. intros a ra _ Ha. destruct (leaf_at_old a ra Ha) as (ra' & Ha' & Hp & _).
  exists ra'. split_and!; [done..|]. by eapply leaf_own.
Qed.

End Leaf.

(** ** The invariant with a new class *)

(** A class object nobody used yet: no methods attached, nothing cached, not
    initialized. *)
Record newcomer (s : runtime) (rc : class_t) : Prop := mk_newcomer {
  n_lists : lists_of (c_methods rc) = [];
  n_cache : c_cache rc = ∅;
  n_flags : forall f, f = RW_INITIALIZED \/ f = RW_INITIALIZING \/ (exists k, f = default_bit k) -> has_flag f rc = false;
  n_first : c_firstSubclass rc = None;
  n_isa : exists rm, rt_classes s !! c_isa rc = Some rm /\ c_isMeta rm = true }.

Section LeafGood.
Context (sel_addr : string -> Z) (pre : nat) (NSObject NSObjectMeta : Class) (original : custom -> string -> option IMP).
Local Abbreviation Good := (good sel_addr pre NSObject NSObjectMeta original).

Context (super cls : Class) (rs rc : class_t) (s : runtime).
Context (Hs : rt_classes s !! super = Some rs) (Hnew : rt_classes s !! cls = None).
Context (Hsuper : c_superclass rc = Some super) (Hn : newcomer s rc).

Local Abbreviation s' := (leaf_added super cls rs rc s).
Local Abbreviation at_old := (leaf_at_old super cls rs rc s Hs Hnew Hsuper (n_first _ _ Hn)).
Local Abbreviation from := (leaf_from super cls rs rc s Hs Hnew Hsuper (n_first _ _ Hn)).
Local Abbreviation at_new := (leaf_at_new super cls rs rc s Hs Hnew Hsuper (n_first _ _ Hn)).

Lemma leaf_flag_old d rd rd' f : rt_classes s !! d = Some rd -> rt_classes s' !! d = Some rd' -> has_flag f rd' = has_flag f rd.
Proof using Hs Hnew Hsuper Hn.
  intros Hd Hd'. destruct (at_old d rd Hd) as (rd2 & Hd2 & _ & _ & _ & _ & _ & _ & _ & Hf & _).
  assert (rd2 = rd') as -> by congruence. unfold has_flag. by rewrite Hf.
Qed.

Lemma leaf_flag_new rc' f : rt_classes s' !! cls = Some rc' ->
  f = RW_INITIALIZED \/ f = RW_INITIALIZING \/ (exists k, f = default_bit k) -> has_flag f rc' = false.
Proof using Hs Hnew Hsuper Hn.
  intros Hc Hf. destruct at_new as (rc2 & Hc2 & _ & _ & Hfl). assert (rc2 = rc') as -> by congruence.
  rewrite Hfl by done. by apply (n_flags _ _ Hn).
Qed.

Lemma leaf_default k d : default_set k s' d <-> default_set k s d.
Proof using Hs Hnew Hsuper Hn.
  split.
  - intros (rd' & Hd' & Hf). destruct (from d rd' Hd') as [->|[rd Hd]]; [rewrite (leaf_flag_new rd') in Hf; eauto; done|].
    exists rd. split; [done|]. by rewrite <- (leaf_flag_old d rd rd').
  - intros (rd & Hd & Hf). destruct (at_old d rd Hd) as (rd' & Hd' & _). exists rd'. split; [done|].
    by rewrite (leaf_flag_old d rd rd').
Qed.

Lemma leaf_init d : is_Some (rt_classes s !! d) -> metas s -> initialized s' d = initialized s d.
Proof using Hs Hnew Hsuper Hn.
  intros [rd Hd] Hm. destruct (at_old d rd Hd) as (rd' & Hd' & _ & _ & Hi & Hme & _). unfold initialized. rewrite Hd, Hd'.
  assert (exists rm, rt_classes s !! (if c_isMeta rd then d else c_isa rd) = Some rm) as [rm Hrm].
  { destruct (c_isMeta rd); [eauto|]. exact (Hm d rd Hd). }
  rewrite Hme, Hi, Hrm. destruct (at_old _ _ Hrm) as (rm' & Hrm' & _). rewrite Hrm'. by eapply leaf_flag_old.
Qed.

Lemma leaf_lists_ok : lists_ok sel_addr s -> lists_ok sel_addr s'.
Proof using Hs Hnew Hsuper Hn.
  intros [L1 L2]. destruct at_new as (rc' & Hc' & Hcore & _). injection Hcore as _ _ _ _ _ _ Hm.
  assert (Hold : forall d rd' p, rt_classes s' !! d = Some rd' -> p ∈ lists_of (c_methods rd') ->
    exists rd, rt_classes s !! d = Some rd /\ p ∈ lists_of (c_methods rd)).
  { intros d rd' p Hd Hp. destruct (from d rd' Hd) as [->|[rd Hrd]].
    - assert (rd' = rc') as -> by congruence. rewrite Hm in Hp. simpl in Hp. rewrite (n_lists _ _ Hn) in Hp.
      by apply not_elem_of_nil in Hp.
    - destruct (at_old d rd Hrd) as (rd2 & Hd2 & _ & _ & _ & _ & _ & Hme & _). exists rd. split; [done|].
      rewrite <- Hme. by assert (rd2 = rd') as -> by congruence. }
  split.
  - intros d rd' p Hd Hp. destruct (Hold d rd' p Hd Hp) as (rd & Hrd & Hrp). by apply (L1 d rd).
  - intros c1 c2 rc1 rc2 p Hr1 Hr2 Hp1 Hp2. destruct (Hold c1 rc1 p Hr1 Hp1) as (r1 & H1 & H1'), (Hold c2 rc2 p Hr2 Hp2) as (r2 & H2 & H2').
    by apply (L2 c1 c2 r1 r2 p).
Qed.

Lemma leaf_isa_ok : isa_ok NSObject NSObjectMeta s -> isa_ok NSObject NSObjectMeta s'.
Proof using Hs Hnew Hsuper Hn.
  intros [I1 I0 IS (r1 & r2 & H1 & H2 & H3) I3]. destruct at_new as (rc' & Hc' & Hcore & _). injection Hcore as Hi Hp _ _ _ _ _.
  assert (Hup : forall d, is_Some (rt_classes s !! d) -> is_Some (rt_classes s' !! d)).
  { intros d [rd Hd]. destruct (at_old d rd Hd) as (rd' & Hd' & _). eauto. }
  assert (Hmeta : forall d rm, rt_classes s !! d = Some rm -> c_isMeta rm = true ->
    forall rm', rt_classes s' !! d = Some rm' -> c_isMeta rm' = true).
  { intros d rm Hd Hme rm' Hd'. destruct (at_old d rm Hd) as (rd2 & Hd2 & _ & _ & _ & Hme2 & _). congruence. }
  destruct (n_isa _ _ Hn) as (rm & Hrm & Hmm). split.
  - intros d rd' Hd. destruct (from d rd' Hd) as [->|[rd Hrd]].
    + assert (rd' = rc') as -> by congruence. rewrite Hi. apply Hup. eauto.
    + destruct (at_old d rd Hrd) as (rd2 & Hd2 & _ & _ & Hisa & _). assert (rd2 = rd') as -> by congruence. rewrite Hisa.
      by apply Hup, (I1 d).
  - intros d rd' rm' Hd Hm'. destruct (from d rd' Hd) as [->|[rd Hrd]].
    + assert (rd' = rc') as -> by congruence. rewrite Hi in Hm'. by eapply Hmeta.
    + destruct (at_old d rd Hrd) as (rd2 & Hd2 & _ & _ & Hisa & _). assert (rd2 = rd') as -> by congruence. rewrite Hisa in Hm'.
      destruct (I1 d rd Hrd) as [rm0 Hrm0]. eapply Hmeta; [exact Hrm0| |exact Hm']. exact (I0 d rd rm0 Hrd Hrm0).
  - intros d rd' Hd Hme. destruct (from d rd' Hd) as [->|[rd Hrd]].
    + assert (rd' = rc') as -> by congruence. rewrite Hp. simpl. by rewrite Hsuper.
    + destruct (at_old d rd Hrd) as (rd2 & Hd2 & Hsup & _ & _ & Hme2 & _). assert (rd2 = rd') as -> by congruence.
      rewrite Hsup. apply (IS d); [done|]. congruence.
  - destruct (at_old _ _ H1) as (r1' & H1' & A1 & _ & A2 & A3 & _), (at_old _ _ H2) as (r2' & H2' & B1 & _ & B2 & B3 & _).
    exists r1', r2'. by rewrite A1, A2, A3, B1, B3.
  - intros k r' Hr'. destruct (from _ r' Hr') as [He|[r Hr]].
    + destruct k; simpl in He; congruence.
    + destruct (at_old _ r Hr) as (r3 & Hr3 & _ & _ & _ & _ & Hb & Hme & _). assert (r3 = r') as -> by congruence.
      rewrite Hb, Hme. by apply (I3 k).
Qed.

Lemma leaf_bits k : metas s -> bits_ok NSObject NSObjectMeta k s -> bits_ok NSObject NSObjectMeta k s'.
Proof using Hs Hnew Hsuper Hn.
  intros Hm [B1 B2 B3]. split.
  - intros d Hd%leaf_default. rewrite leaf_init; [by apply B1| |done]. destruct Hd as (rd & Hd & _). eauto.
  - intros d rd' Hd%leaf_default Hd' Hne. pose proof Hd as (rd & Hrd & _). destruct (B2 d rd Hd Hrd Hne) as [Hu (p & Hp & Hdp)].
    destruct (at_old d rd Hrd) as (rd2 & Hd2 & Hp2 & _ & _ & _ & _ & Hme & _). assert (rd2 = rd') as -> by congruence.
    split; [unfold methods_of in *; by rewrite Hme|]. exists p. split; [congruence|by apply leaf_default].
  - intros rd' Hd%leaf_default Hd'. pose proof Hd as (rd & Hrd & _). destruct (B3 rd Hd Hrd) as [Hu Hsw].
    destruct (at_old _ rd Hrd) as (rd2 & Hd2 & _ & _ & _ & _ & Hb & Hme & _). assert (rd2 = rd') as -> by congruence.
    split; [unfold category_lists in *; by rewrite Hme, Hb|by destruct k].
Qed.

Lemma leaf_swizzle k : isa_ok NSObject NSObjectMeta s -> swizzle_ok NSObject NSObjectMeta original k s ->
  swizzle_ok NSObject NSObjectMeta original k s'.
Proof using Hs Hnew Hsuper Hn.
  intros Hi Hsw Hf Hinit r' b Hr' Hb sel Hsel.
  assert (exists r, rt_classes s !! root_of NSObject NSObjectMeta k = Some r) as [r Hr].
  { destruct (i_root _ _ _ Hi) as (r1 & r2 & H1 & H2 & _). destruct k; eauto. }
  destruct (at_old _ r Hr) as (r3 & Hr3 & _ & _ & _ & _ & Hb3 & _). assert (r3 = r') as -> by congruence.
  rewrite leaf_default, leaf_init in Hinit; [|eauto|exact (i_meta _ _ _ Hi)].
  apply (Hsw ltac:(by destruct k) Hinit r b Hr); [congruence|done].
Qed.

Lemma leaf_good : Good s -> reasonable pre s' -> Good s'.
Proof using Hs Hnew Hsuper Hn.
  intros [[H1 H2 H3 H4 H5 H6] Hco Hsw] Hroom. split; [split| |].
  - by apply leaf_tree; [..|exact (n_first _ _ Hn)|].
  - done.
  - by apply leaf_lists_ok.
  - by apply leaf_isa_ok.
  - intros k. apply leaf_bits; [exact (i_meta _ _ _ H4)|apply H5].
  - intros d rd' Hd' Hf. destruct (from d rd' Hd') as [->|[rd Hrd]]; [rewrite (leaf_flag_new rd') in Hf; auto; done|].
    rewrite (leaf_flag_old d rd rd') in Hf |- * by done. by apply (H6 d rd).
  - intros d rd' Hd' sel i Hi. destruct (from d rd' Hd') as [->|[rd Hrd]].
    + destruct at_new as (rc' & Hc' & _ & Hca & _). assert (rd' = rc') as -> by congruence.
      rewrite Hca, (n_cache _ _ Hn), lookup_empty in Hi. done.
    + destruct (at_old d rd Hrd) as (rd2 & Hd2 & _ & _ & _ & _ & _ & _ & Hca & _). assert (rd2 = rd') as -> by congruence.
      rewrite Hca in Hi. destruct (Hco d rd Hrd sel i Hi) as (r & Ha & ->). exists r. split; [|done].
      by apply (leaf_answers _ _ _ _ _ Hs Hnew Hsuper (n_first _ _ Hn)).
  - intros k. by apply leaf_swizzle.
Qed.

End LeafGood.

(** ** Class pairs and classes of images *)

Lemma leaf_size super cls rs rc s : rt_classes s !! super = Some rs -> rt_classes s !! cls = None ->
  size (rt_classes (leaf_added super cls rs rc s)) = S (size (rt_classes s)).
Proof.
  intros Hs Hn. simpl. rewrite map_size_insert_None, map_size_insert_Some; [done|by rewrite Hs|].
  rewrite lookup_insert_ne; [done|]. intros ->. congruence.
Qed.

Lemma fresh_newcomer s isa super isMeta rm : rt_classes s !! isa = Some rm -> c_isMeta rm = true ->
  newcomer s (fresh_class isa super isMeta).
Proof. intros H1 H2. split; [done|done|done|done|]. by exists rm. Qed.

Section Connect.
Context (sel_addr : string -> Z) (Hinj : forall a b, sel_addr a = sel_addr b -> a = b).
Context (pre : nat) (NSObject NSObjectMeta : Class) (original : custom -> string -> option IMP).

Local Abbreviation Good := (good sel_addr pre NSObject NSObjectMeta original).
Local Abbreviation Root := (root_of NSObject NSObjectMeta).

(** ** A new pair *)

Lemma classPair_run super cls meta s rs rsm : rt_classes s !! super = Some rs -> rt_classes s !! c_isa rs = Some rsm ->
  rt_classes s !! cls = None -> rt_classes s !! meta = None -> cls <> meta -> c_isa rs <> super ->
  objc_initializeClassPair_internal pre (Some super) cls meta s =
  Ret (leaf_added super cls rs (fresh_class meta (Some super) false)
         (leaf_added (c_isa rs) meta rsm (fresh_class (c_isa rsm) (Some (c_isa rs)) true) s)).
Proof.
  intros Hs Hsm Hc Hm Hne Hisa. unfold objc_initializeClassPair_internal, class_at. rewrite Hs. cbn [of_option obind].
  rewrite Hsm. cbn [of_option obind].
  assert (super <> cls) by congruence. assert (super <> meta) by congruence.
  assert (c_isa rs <> cls) by congruence. assert (c_isa rs <> meta) by congruence.
  rewrite (addSubclass_leaf pre super cls _ rs (fresh_class meta (Some super) false)); [|..|done|done|by intros []].
  2, 3: simpl; rewrite !lookup_insert; repeat case_decide; congruence.
  cbn [obind].
  rewrite (addSubclass_leaf pre (c_isa rs) meta _ rsm (fresh_class (c_isa rsm) (Some (c_isa rs)) true)); [|..|done|done|by intros []].
  2, 3: simpl; rewrite !lookup_insert; repeat case_decide; congruence.
  f_equal. unfold leaf_added, put, with_classes. simpl. f_equal. apply map_eq. intros d.
  rewrite !lookup_insert. repeat case_decide; congruence.
Qed.

(** There is room for two more classes. *)
Definition room_for (n : nat) (s : runtime) : Prop :=
  2 * (n + size (rt_classes s)) <= unreasonableClassCount pre s.

Lemma classPair_spec super cls meta s rs : Good s -> rt_classes s !! super = Some rs -> c_isMeta rs = false ->
  rt_classes s !! cls = None -> rt_classes s !! meta = None -> cls <> meta -> room_for 2 s ->
  exists s' rc, objc_initializeClassPair_internal pre (Some super) cls meta s = Ret s' /\ Good s' /\
    rt_classes s' !! cls = Some rc /\ c_superclass rc = Some super /\ c_isa rc = meta /\
    (forall sel, own s' rc sel = None) /\ (forall d sel r, answers s sel (Some d) r -> answers s' sel (Some d) r).
Proof.
  intros Hg Hs Hmeta Hc Hm Hne Hroom. pose proof (so_isa _ _ _ _ _ (g_solid _ _ _ _ _ _ Hg)) as Hisa.
  destruct (i_meta _ _ _ Hisa super rs Hs) as [rsm Hsm]. pose proof (i_ismeta _ _ _ Hisa super rs rsm Hs Hsm) as Hmm.
  assert (Hns : c_isa rs <> super) by congruence.
  destruct (i_meta _ _ _ Hisa _ _ Hsm) as [rr Hrr]. pose proof (i_ismeta _ _ _ Hisa _ _ _ Hsm Hrr) as Hrm.
  assert (Hs' : super <> meta) by congruence.
  rewrite (classPair_run super cls meta s rs rsm) by done.
  set (fm := fresh_class (c_isa rsm) (Some (c_isa rs)) true). set (fc := fresh_class meta (Some super) false).
  set (s1 := leaf_added (c_isa rs) meta rsm fm s).
  assert (Hn1 : newcomer s fm) by (by eapply fresh_newcomer).
  assert (Hg1 : Good s1).
  { apply (leaf_good _ _ _ _ _ (c_isa rs) meta rsm fm s Hsm Hm eq_refl Hn1 Hg).
    unfold reasonable. rewrite leaf_size by done. unfold room_for in Hroom. simpl in Hroom |- *. unfold unreasonableClassCount in *. simpl. lia. }
  destruct (leaf_at_new (c_isa rs) meta rsm fm s Hsm Hm eq_refl eq_refl) as (rm & Hrm1 & Hcore & _). fold s1 in Hrm1.
  injection Hcore as _ _ _ _ Hmeta1 _ _.
  assert (Hs1 : rt_classes s1 !! super = Some rs) by (unfold s1; rewrite leaf_at_other; done).
  assert (Hc1 : rt_classes s1 !! cls = None) by (unfold s1; rewrite leaf_at_other; [done..|congruence]).
  assert (Hn2 : newcomer s1 fc) by (by eapply fresh_newcomer).
  assert (Hg2 : Good (leaf_added super cls rs fc s1)).
  { apply (leaf_good _ _ _ _ _ super cls rs fc s1 Hs1 Hc1 eq_refl Hn2 Hg1).
    unfold reasonable. rewrite leaf_size by done. unfold s1. rewrite leaf_size by done.
    unfold room_for in Hroom. simpl in Hroom |- *. unfold unreasonableClassCount in *. simpl. lia. }
  destruct (leaf_at_new super cls rs fc s1 Hs1 Hc1 eq_refl eq_refl) as (rc & Hrc & Hcore2 & _).
  injection Hcore2 as Hi Hp _ _ _ _ Hme. eexists _, rc. split_and!; [done|done|done|done|done| |].
  - intros sel. unfold own, methods_of. by rewrite Hme.
  - intros d sel r Ha. apply (leaf_answers super cls rs fc s1 Hs1 Hc1 eq_refl eq_refl).
    by apply (leaf_answers (c_isa rs) meta rsm fm s Hsm Hm eq_refl eq_refl).
Qed.

(** ** A class of an image *)

Lemma attachCategories_uncached cls cats s : Good s -> is_Some (rt_classes s !! cls) -> uncached_below s cls ->
  (forall p, p ∈ category_mlists cats -> attachable sel_addr s p) ->
  exists s', attachCategories sel_addr pre cls cats false s = Ret s' /\ Good s' /\
    gained s s' cls (category_mlists cats ≫= list_methods s).
Proof using Hinj.
  intros Hg Hc Hun Hcats. unfold attachCategories. change (omap id (reverse cats)) with (category_mlists cats).
  destruct (prepare_uncached_spec sel_addr Hinj pre NSObject NSObjectMeta original cls (category_mlists cats) false s Hg Hc Hun Hcats)
    as (s' & Hrun & Hg' & _ & Hgain & _ & _); [done|]. cbn [andb].
  destruct (prepareMethodLists sel_addr pre cls (category_mlists cats) false s) as [s1| |]; cbn [obind] in *; try done.
  rewrite Hrun. cbn [obind]. by exists s'.
Qed.

Lemma methodizeClass_spec cls cats s rc : Good s -> rt_classes s !! cls = Some rc -> uncached_below s cls ->
  c_isa rc <> cls -> (forall k, ~ default_set k s cls) ->
  (forall p, p ∈ category_mlists cats ++ option_list (c_baseMethods rc) -> attachable sel_addr s p) ->
  (forall b, c_baseMethods rc = Some b -> b ∉ category_mlists cats) ->
  exists s', methodizeClass sel_addr pre NSObject cls cats s = Ret s' /\ Good s' /\
    gained s s' cls ((category_mlists cats ++ option_list (c_baseMethods rc)) ≫= list_methods s).
Proof using Hinj.
  intros Hg Hr Hun Hisa Hnd Hat Hdis. unfold methodizeClass, class_at. rewrite Hr. cbn [of_option obind].
  assert (Hbase : exists s1, match c_baseMethods rc with
    | Some list => let! s := prepareMethodLists sel_addr pre cls [list] true s in attach cls [list] s
    | None => Ret s end = Ret s1 /\ Good s1 /\ uncached_below s1 cls /\ is_Some (rt_classes s1 !! cls) /\
    gained s s1 cls (option_list (c_baseMethods rc) ≫= list_methods s) /\
    (forall q, q ∈ category_mlists cats -> attachable sel_addr s1 q) /\ (forall q, same_list sel_addr s s1 q)).
  { destruct (c_baseMethods rc) as [b|] eqn:Eb.
    - destruct (prepare_uncached_spec sel_addr Hinj pre NSObject NSObjectMeta original cls [b] true s Hg ltac:(eauto) Hun)
        as (s1 & Hrun & Hg1 & Hun1 & Hgain & Hq & Hsl).
      + intros p Hp. apply Hat. apply elem_of_app. by right.
      + done.
      + exists s1. split_and!; [done..| |done| |done].
        * destruct (Hgain cls rc Hr) as (rc1 & -> & _). eauto.
        * intros q Hin. apply Hq; [|apply Hat, elem_of_app; by left]. intros ->%list_elem_of_singleton. by apply (Hdis b).
    - exists s. split_and!; [done|done|done|eauto|apply gained_nil| |intros q; by apply same_list_eq].
      intros q Hin. apply Hat, elem_of_app. by left. }
  destruct Hbase as (s1 & Hrun1 & Hg1 & Hun1 & Hc1 & Hgain1 & Hat1 & Hsl). rewrite Hrun1. cbn [obind].
  rewrite (proj2 (Z.eqb_neq _ _) Hisa). cbn [obind].
  destruct (attachCategories_uncached cls cats s1 Hg1 Hc1 Hun1 Hat1) as (s2 & Hrun2 & Hg2 & Hgain2).
  exists s2. split_and!; [done|done|]. rewrite bind_app. eapply gained_trans; [exact Hgain1|].
  eapply gained_ext; [|exact Hgain2]. intros sel. symmetry. apply (find_lists sel_addr). auto.
Qed.

Lemma leaf_uncached super cls rs rc s : rt_classes s !! super = Some rs -> rt_classes s !! cls = None ->
  c_superclass rc = Some super -> newcomer s rc -> class_tree s -> uncached_below (leaf_added super cls rs rc s) cls.
Proof.
  intros Hs Hc Hp Hn Ht d rd Hsub Hd. destruct (decide (d = cls)) as [->|Hdc].
  - destruct (leaf_at_new super cls rs rc s Hs Hc Hp (n_first _ _ Hn)) as (rc1 & Hr1 & _ & Hca & _).
    assert (rd = rc1) as -> by congruence. rewrite Hca. apply (n_cache _ _ Hn).
  - destruct (leaf_from super cls rs rc s Hs Hc Hp (n_first _ _ Hn) d rd Hd) as [?|[rd0 Hd0]]; [done|].
    exfalso. eapply (leaf_not_above super cls rs rc s Hs Hc Hp (n_first _ _ Hn) d); [done|eauto|exact Hsub].
Qed.

Lemma leaf_attachable super cls rs rc s p : rt_classes s !! super = Some rs -> rt_classes s !! cls = None ->
  c_superclass rc = Some super -> newcomer s rc -> attachable sel_addr s p ->
  attachable sel_addr (leaf_added super cls rs rc s) p.
Proof.
  intros Hs Hc Hp Hn [Hml Hno]. split; [exact Hml|]. intros d (rd & Hd & Hpd).
  destruct (leaf_from super cls rs rc s Hs Hc Hp (n_first _ _ Hn) d rd Hd) as [->|[rd0 Hd0]].
  - destruct (leaf_at_new super cls rs rc s Hs Hc Hp (n_first _ _ Hn)) as (rc1 & Hr1 & Hcore & _).
    injection Hcore as _ _ _ _ _ _ Hme. assert (rd = rc1) as -> by congruence.
    rewrite Hme in Hpd. simpl in Hpd. rewrite (n_lists _ _ Hn) in Hpd. by apply not_elem_of_nil in Hpd.
  - destruct (leaf_at_old super cls rs rc s Hs Hc Hp (n_first _ _ Hn) d rd0 Hd0) as (rd2 & Hd2 & _ & _ & _ & _ & _ & Hm2 & _).
    assert (rd2 = rd) as -> by congruence. apply (Hno d). exists rd0. split; [done|]. by rewrite <- Hm2.
Qed.

(** A class with its base methods, below a class that is already connected. *)
Lemma realizeClass_spec super rs cls rc cats s : Good s -> rt_classes s !! super = Some rs -> rt_classes s !! cls = None ->
  c_superclass rc = Some super -> newcomer s rc -> room_for 1 s ->
  (forall p, p ∈ category_mlists cats ++ option_list (c_baseMethods rc) -> attachable sel_addr s p) ->
  (forall b, c_baseMethods rc = Some b -> b ∉ category_mlists cats) ->
  exists s' rc', realizeClass_connect sel_addr pre NSObject cls rc cats s = Ret s' /\ Good s' /\
    rt_classes s' !! cls = Some rc' /\ c_superclass rc' = Some super /\
    (forall sel, own s' rc' sel = _imp <$> find_method sel
       ((category_mlists cats ++ option_list (c_baseMethods rc)) ≫= list_methods s)).
Proof using Hinj.
  intros Hg Hs Hc Hp Hn Hroom Hat Hdis. unfold realizeClass_connect. rewrite Hp.
  assert (Hne : super <> cls) by congruence.
  rewrite (addSubclass_leaf pre super cls _ rs rc); [|by simpl; rewrite lookup_insert_ne|by simpl; rewrite lookup_insert_eq|done|..].
  2: { exact (n_first _ _ Hn). }
  2: { intros k. apply (n_flags _ _ Hn). eauto. }
  cbn [obind]. set (s1 := put cls _ _).
  assert (s1 = leaf_added super cls rs rc s) as Hs1.
  { unfold s1, leaf_added, put, with_classes. simpl. f_equal. apply map_eq. intros d. rewrite !lookup_insert. repeat case_decide; congruence. }
  rewrite Hs1. clear Hs1 s1. set (s1 := leaf_added super cls rs rc s).
  assert (Hg1 : Good s1).
  { apply (leaf_good _ _ _ _ _ super cls rs rc s Hs Hc Hp Hn Hg). unfold reasonable. rewrite leaf_size by done. exact Hroom. }
  destruct (leaf_at_new super cls rs rc s Hs Hc Hp (n_first _ _ Hn)) as (rc1 & Hr1 & Hcore & Hca & Hfl). fold s1 in Hr1.
  injection Hcore as Hi Hsup _ _ _ Hb Hme. simpl in Hi, Hsup, Hb, Hme.
  destruct (methodizeClass_spec cls cats s1 rc1 Hg1 Hr1) as (s2 & Hrun & Hg2 & Hgain).
  { apply leaf_uncached; [done..|by eapply good_tree]. }
  { rewrite Hi. destruct (n_isa _ _ Hn) as (rm & Hrm & _). congruence. }
  { intros k (rc2 & Hr2 & Hf). assert (rc2 = rc1) as -> by congruence. rewrite Hfl, (n_flags _ _ Hn) in Hf; eauto. done. }
  { rewrite Hb. intros p Hin. apply leaf_attachable; [done..|by apply Hat]. }
  { rewrite Hb. done. }
  rewrite Hrun. destruct (Hgain cls rc1 Hr1) as (rc2 & Hr2 & Hp2 & Ho2). exists s2, rc2. split_and!; [done|done|done|congruence|].
  intros sel. rewrite Ho2, decide_True by done. rewrite Hb.
  change (list_methods s1) with (list_methods s). destruct (_imp <$> _); [done|]. unfold own, methods_of.
  by rewrite Hme, (n_lists _ _ Hn).
Qed.

End Connect.
