(* ===== verification/ClassInitSpec.v ===== *)
(** * +initialize

    The beginning and the end of +initialize.  At the end the bits for default
    methods are set where nobody overrides the methods of NSObject. *)

From Stdlib Require Import ZArith Lia Bool String.
From stdpp Require Import base list gmap strings.
From S2P Require Import Prelude ObjCData MethodList ClassTree ClassTreeSpec ClassChanges ClassInvariant ClassEffects ClassLookup ClassBits ClassMethodsSpec ClassInstallSpec ClassNewSpec.

Local Open Scope nat_scope.

(** Changes of the bits only. *)
Record bits_only (s s' : runtime) : Prop := mk_bits_only {
  bo_core : (core <$> rt_classes s) = (core <$> rt_classes s');
  bo_cache : (c_cache <$> rt_classes s) = (c_cache <$> rt_classes s');
  bo_rest : with_classes (rt_classes s') s = s' }.

Lemma put_bits_only c f rc s : rt_classes s !! c = Some rc -> core (f rc) = core rc -> c_cache (f rc) = c_cache rc ->
  bits_only s (put c (f rc) s).
Proof.
  intros Hc H1 H2. split; [| |done]; simpl; rewrite fmap_insert; symmetry; apply insert_id; by rewrite lookup_fmap, Hc, ?H1, ?H2.
Qed.

Section Init.
Context (sel_addr : string -> Z) (Hinj : forall a b, sel_addr a = sel_addr b -> a = b).
Context (pre : nat) (NSObject NSObjectMeta : Class) (original : custom -> string -> option IMP).

Local Abbreviation Good := (good sel_addr pre NSObject NSObjectMeta original).
Local Abbreviation Root := (root_of NSObject NSObjectMeta).

Lemma bits_only_core s s' : bits_only s s' -> same_core sel_addr s s'.
Proof.
  intros [H1 _ H3]. rewrite <- H3. split; [by rewrite H3|]. split_and!; [|done..]. intros p. by apply same_list_eq.
Qed.

Lemma bits_only_coherent s s' : bits_only s s' -> coherent s -> coherent s'.
Proof.
  intros Hb Hco c rc' Hr. pose proof (bits_only_core _ _ Hb) as Hc.
  destruct (same_core_at _ _ _ _ _ (symmetry Hc) Hr) as (rc & Hr0 & _).
  apply (coherent_core sel_addr s s' c rc' Hc). intros sel i.
  rewrite (fmap_at _ _ _ _ _ _ (bo_cache _ _ Hb) Hr0 Hr). by apply Hco.
Qed.

(** What is left to show of a change of the bits. *)
Lemma bits_only_good s s' : bits_only s s' -> Good s -> (forall k, bits_ok NSObject NSObjectMeta k s') -> once_ok s' ->
  (forall k, swizzle_ok NSObject NSObjectMeta original k s') -> Good s'.
Proof.
  intros Hb [[H1 H2 H3 H4 _ _] Hco _] Hbits Honce Hsw. pose proof (bits_only_core _ _ Hb) as Hc.
  split; [split|by eapply bits_only_coherent|done].
  - eapply class_tree_links; [by eapply same_core_links|done].
  - by eapply reasonable_core.
  - by eapply lists_ok_core.
  - by eapply isa_ok_core.
  - done.
  - done.
Qed.

(** ** The beginning *)

Lemma setInitializing_spec cls s rc : Good s -> rt_classes s !! cls = Some rc -> c_isMeta rc = false ->
  initialized s cls = false -> exists s', setInitializing cls s = Ret s' /\ Good s' /\ same_core sel_addr s s'.
Proof.
  intros Hg Hc Hm Hi. destruct (good_metas _ _ _ _ _ _ Hg cls rc Hc) as [rm Hrm].
  unfold setInitializing, class_at. rewrite Hc. cbn [of_option obind]. rewrite Hm. cbn [negb cassert obind].
  rewrite (update_is_put _ _ _ _ Hrm). eexists. split; [done|]. set (s' := put _ _ s).
  assert (Hb : bits_only s s') by (by apply (put_bits_only _ (setBits RW_INITIALIZING))).
  assert (Hflag : forall f d rd rd', f <> RW_INITIALIZING -> rt_classes s !! d = Some rd -> rt_classes s' !! d = Some rd' ->
    has_flag f rd' = has_flag f rd).
  { intros f d rd rd' Hf Hd. simpl. destruct (decide (d = c_isa rc)) as [->|Hn].
    - rewrite lookup_insert_eq. intros [= <-]. rewrite has_flag_set, bool_decide_false by done. simpl. congruence.
    - rewrite lookup_insert_ne by done. congruence. }
  pose proof (bits_only_core _ _ Hb) as Hcore.
  assert (Hinit : forall d, initialized s' d = initialized s d).
  { intros d. apply initialized_keeps. apply map_eq. intros e. rewrite !lookup_fmap.
    destruct (rt_classes s !! e) as [re|] eqn:Ee, (rt_classes s' !! e) as [re'|] eqn:Ee'; try done; simpl.
    - destruct (same_core_at _ _ _ _ _ Hcore Ee) as (r2 & Hr2 & He). assert (r2 = re') as -> by congruence.
      injection He as H1 _ _ _ H2 _ _. unfold init_core. by rewrite H1, H2, (Hflag _ e re re').
    - destruct (same_core_at _ _ _ _ _ Hcore Ee) as (? & ? & _). congruence.
    - destruct (same_core_at _ _ _ _ _ (symmetry Hcore) Ee') as (? & ? & _). congruence. }
  assert (Hdef : forall k d, default_set k s' d <-> default_set k s d).
  { intros k d. split; intros (rd & Hd & Hf).
    - destruct (same_core_at _ _ _ _ _ (symmetry Hcore) Hd) as (r2 & Hr2 & _). exists r2. split; [done|].
      by rewrite <- (Hflag (default_bit k) d r2 rd) by (by destruct k || done).
    - destruct (same_core_at _ _ _ _ _ Hcore Hd) as (r2 & Hr2 & _). exists r2. split; [done|].
      by rewrite (Hflag (default_bit k) d rd r2) by (by destruct k || done). }
  split; [|done]. apply (bits_only_good s s' Hb Hg).
  - intros k. eapply bits_ok_transport; [done..|by destruct k|]. apply (so_bits _ _ _ _ _ (g_solid _ _ _ _ _ _ Hg)).
  - intros d rd' Hd Hf. destruct (same_core_at _ _ _ _ _ (symmetry Hcore) Hd) as (rd & Hrd & _).
    rewrite (Hflag RW_INITIALIZED d rd rd') by done. destruct (decide (d = c_isa rc)) as [->|Hn].
    + unfold initialized in Hi. rewrite Hc, Hm, Hrm in Hi. congruence.
    + simpl in Hd. rewrite lookup_insert_ne in Hd by done. assert (rd' = rd) as -> by congruence.
      by apply (so_once _ _ _ _ _ (g_solid _ _ _ _ _ _ Hg) d).
  - intros k. eapply swizzle_ok_transport; [exact Hcore|done|by apply Hdef|by destruct k|]. apply (g_swizzle _ _ _ _ _ _ Hg).
Qed.

(** ** The end *)

(** The bit of a kind is set on [target]: nothing was overridden. *)
Definition unoverridden (k : custom) (s : runtime) (target : Class) (rc : class_t) : Prop :=
  swizzled k s = false /\ (target = Root k -> untouched k (category_lists rc ≫= list_methods s)) /\
  (target <> Root k -> untouched k (methods_of s rc) /\ exists p, c_superclass rc = Some p /\ default_set k s p).

Section Finish.
Context (s : runtime) (Hg : Good s) (cls metacls : Class) (c mc : class_t).
Context (Hc : rt_classes s !! cls = Some c) (Hmc : rt_classes s !! metacls = Some mc).
Context (Hisa : c_isa c = metacls) (Hm : c_isMeta c = false) (Hbusy : has_flag RW_INITIALIZING mc = true).

Lemma finish_meta : c_isMeta mc = true.
Proof using All.
  eapply (i_ismeta NSObject NSObjectMeta); [exact (so_isa _ _ _ _ _ (g_solid _ _ _ _ _ _ Hg))|exact Hc|]. by rewrite Hisa.
Qed.

Lemma finish_ne : cls <> metacls.
Proof using All. intros He. pose proof finish_meta as H. clear Hbusy. congruence. Qed.

(** The state at the end, and the two decisions. *)
Context (custom_bit : custom -> bool).

Definition target (k : custom) : Class := match k with RR => cls | AWZ => metacls end.
Definition target_class (k : custom) : class_t := match k with RR => c | AWZ => mc end.

Definition finished : runtime :=
  put metacls (clearBits RW_INITIALIZING (setBits RW_INITIALIZED (set_if (custom_bit AWZ) FAST_HAS_DEFAULT_AWZ mc)))
    (put cls (set_if (custom_bit RR) FAST_HAS_DEFAULT_RR c) s).

Lemma finished_at d rd' : rt_classes finished !! d = Some rd' <-> exists rd, rt_classes s !! d = Some rd /\
  rd' = if decide (d = metacls)
        then clearBits RW_INITIALIZING (setBits RW_INITIALIZED (set_if (custom_bit AWZ) FAST_HAS_DEFAULT_AWZ rd))
        else if decide (d = cls) then set_if (custom_bit RR) FAST_HAS_DEFAULT_RR rd else rd.
Proof using All.
  simpl. rewrite !lookup_insert. destruct (decide (d = metacls)) as [->|H1]; [rewrite decide_True by done|rewrite decide_False by done].
  - split; [intros [= <-]; eauto|]. intros (rd & Hd & ->). congruence.
  - destruct (decide (d = cls)) as [->|H2]; [rewrite decide_True by done|rewrite decide_False by done].
    + split; [intros [= <-]; eauto|]. intros (rd & Hd & ->). congruence.
    + split; [eauto|]. by intros (rd & Hd & ->).
Qed.

Lemma finished_bits_only : bits_only s finished.
Proof using All.
  assert (H : forall (A : Type) (f : class_t -> A), (forall x y fl, f (set_flags fl x) = f (set_flags y x)) ->
    (f <$> rt_classes s) = (f <$> rt_classes finished)).
  { intros A f Hf. assert (Hi : forall x fl, f (set_flags fl x) = f x).
    { intros x fl. rewrite (Hf x (c_flags x) fl). by destruct x. }
    apply map_eq. intros d. rewrite !lookup_fmap. destruct (rt_classes s !! d) as [rd|] eqn:Ed.
    - assert (Hd : exists rd', rt_classes finished !! d = Some rd' /\ f rd' = f rd).
      { eexists. split; [by apply finished_at; exists rd|]. unfold set_if, clearBits, setBits.
        destruct (decide (d = metacls)); [by destruct (custom_bit AWZ); rewrite ?Hi|].
        destruct (decide (d = cls)); [|done]. by destruct (custom_bit RR); rewrite ?Hi. }
      destruct Hd as (rd' & -> & He). simpl. by rewrite He.
    - destruct (rt_classes finished !! d) as [rd'|] eqn:Ed'; [|done].
      apply finished_at in Ed' as (rd & Hd & _). congruence. }
  split; [by apply H|by apply H|done].
Qed.

(** The bits after the end. *)
Lemma finished_flag d rd rd' f : rt_classes s !! d = Some rd -> rt_classes finished !! d = Some rd' ->
  has_flag f rd' =
  match f with
  | FAST_HAS_DEFAULT_RR => (bool_decide (d = cls) && custom_bit RR) || has_flag f rd
  | FAST_HAS_DEFAULT_AWZ => (bool_decide (d = metacls) && custom_bit AWZ) || has_flag f rd
  | RW_INITIALIZED => bool_decide (d = metacls) || has_flag f rd
  | RW_INITIALIZING => negb (bool_decide (d = metacls)) && has_flag f rd
  | _ => has_flag f rd
  end.
Proof using All.
  intros Hd (rd0 & Hd0 & ->)%finished_at. assert (rd0 = rd) as -> by congruence. pose proof finish_ne as Hne.
  destruct (decide (d = metacls)) as [->|H1].
  - rewrite has_flag_clear, has_flag_set. rewrite (bool_decide_true (metacls = metacls)) by done.
    rewrite (bool_decide_false (metacls = cls)) by done. unfold set_if.
    destruct f, (custom_bit AWZ); simpl; rewrite ?has_flag_set; try done.
  - rewrite (bool_decide_false (d = metacls)) by done. destruct (decide (d = cls)) as [->|H2].
    + rewrite (bool_decide_true (cls = cls)) by done. unfold set_if. destruct f, (custom_bit RR); simpl; rewrite ?has_flag_set; done.
    + rewrite (bool_decide_false (d = cls)) by done. by destruct f.
Qed.

Lemma finished_default k d : default_set k finished d <-> default_set k s d \/ custom_bit k = true /\ d = target k.
Proof using All.
  split.
  - intros (rd' & Hd' & Hf). pose proof Hd' as (rd & Hd & _)%finished_at.
    rewrite (finished_flag d rd rd' (default_bit k) Hd Hd') in Hf.
    destruct k; simpl in *; apply orb_true_iff in Hf as [[He%bool_decide_eq_true Hb]%andb_true_iff|Hf]; eauto; left; by exists rd.
  - assert (Hget : forall e re, rt_classes s !! e = Some re -> exists re', rt_classes finished !! e = Some re').
    { intros e re He. eexists. apply finished_at. eauto. }
    intros [(rd & Hd & Hf)|[Hb ->]].
    + destruct (Hget d rd Hd) as [rd' Hd']. exists rd'. split; [done|]. rewrite (finished_flag d rd rd' _ Hd Hd').
      destruct k; simpl in *; rewrite Hf; apply orb_true_r.
    + assert (Ht : rt_classes s !! target k = Some (target_class k)) by (by destruct k).
      destruct (Hget _ _ Ht) as [rd' Hd']. exists rd'. split; [done|]. rewrite (finished_flag _ _ rd' _ Ht Hd').
      destruct k; simpl in *; by rewrite bool_decide_true, Hb.
Qed.

Lemma finished_init d rd : rt_classes s !! d = Some rd -> metas s ->
  initialized finished d = initialized s d || bool_decide ((if c_isMeta rd then d else c_isa rd) = metacls).
Proof using All.
  intros Hd Hmet. pose proof (bits_only_core _ _ finished_bits_only) as Hcore.
  destruct (same_core_at _ _ _ _ _ Hcore Hd) as (rd' & Hd' & He). injection He as Hi _ _ _ Hme _ _.
  unfold initialized. rewrite Hd, Hd', Hme, Hi. set (e := if c_isMeta rd then d else c_isa rd).
  assert (exists rm, rt_classes s !! e = Some rm) as [rm Hrm].
  { unfold e. destruct (c_isMeta rd); [eauto|]. exact (Hmet d rd Hd). }
  destruct (same_core_at _ _ _ _ _ Hcore Hrm) as (rm' & Hrm' & _). rewrite Hrm, Hrm'.
  rewrite (finished_flag e rm rm' RW_INITIALIZED Hrm Hrm'). apply orb_comm.
Qed.

(** Here the decisions are right. *)
Context (Hright : forall k, custom_bit k = true -> unoverridden k s (target k) (target_class k)).

Lemma target_at k : rt_classes s !! target k = Some (target_class k).
Proof using All. by destruct k. Qed.

(** The class and its metaclass were not initialized before. *)
Lemma target_meta d rd : rt_classes s !! d = Some rd -> (if c_isMeta rd then d else c_isa rd) = metacls ->
  initialized s d = false.
Proof using All.
  intros Hd He. unfold initialized. rewrite Hd, He, Hmc.
  by apply (so_once _ _ _ _ _ (g_solid _ _ _ _ _ _ Hg) metacls).
Qed.

Lemma target_is_meta k :
  (if c_isMeta (target_class k) then target k else c_isa (target_class k)) = metacls.
Proof using All. pose proof finish_meta as Hmeta. destruct k; simpl; [by rewrite Hm|by rewrite Hmeta]. Qed.

Lemma finished_swizzled k : swizzled k finished = swizzled k s.
Proof using All. by destruct k. Qed.

Lemma finished_bits k : bits_ok NSObject NSObjectMeta k finished.
Proof using All.
  pose proof (bits_only_core _ _ finished_bits_only) as Hcore.
  pose proof (good_metas _ _ _ _ _ _ Hg) as Hmet.
  destruct (so_bits _ _ _ _ _ (g_solid _ _ _ _ _ _ Hg) k) as [B1 B2 B3].
  assert (Hback : forall d rd', rt_classes finished !! d = Some rd' -> exists rd, rt_classes s !! d = Some rd /\ core rd' = core rd).
  { intros d rd' Hd. destruct (same_core_at _ _ _ _ _ (symmetry Hcore) Hd) as (rd & ? & ?). eauto. }
  split.
  - intros d [Hd|[Hb ->]]%finished_default.
    + pose proof Hd as (rd & Hrd & _). by rewrite (finished_init d rd Hrd Hmet), (B1 d Hd).
    + rewrite (finished_init _ _ (target_at k) Hmet), (bool_decide_true _ (target_is_meta k)). apply orb_true_r.
  - intros d rd' Hdef Hd' Hn. destruct (Hback d rd' Hd') as (rd & Hd & He). injection He as _ Hsup _ _ _ _ Hms.
    unfold methods_of. rewrite Hsup, Hms. change (list_methods finished) with (list_methods s).
    assert (Hgoal : untouched k (methods_of s rd) /\ exists p, c_superclass rd = Some p /\ default_set k s p).
    { apply finished_default in Hdef as [Hdef|[Hb ->]]; [by apply (B2 d)|].
      rewrite target_at in Hd. injection Hd as <-. by apply (Hright k Hb). }
    destruct Hgoal as (Hu & p & Hp & Hdp). split; [done|]. exists p. split; [done|]. apply finished_default. by left.
  - intros rd' Hdef Hd'. destruct (Hback _ rd' Hd') as (rd & Hd & He). rewrite (category_lists_core _ _ He), finished_swizzled.
    change (list_methods finished) with (list_methods s). apply finished_default in Hdef as [Hdef|[Hb Ht]]; [by apply B3|].
    rewrite Ht, target_at in Hd. injection Hd as <-. destruct (Hright k Hb) as (Hs & Hu & _). auto.
Qed.

Lemma finished_good : Good finished.
Proof using All.
  pose proof (bits_only_core _ _ finished_bits_only) as Hcore. pose proof (good_metas _ _ _ _ _ _ Hg) as Hmet.
  apply (bits_only_good s finished finished_bits_only Hg finished_bits).
  - intros d rd' Hd' Hf. pose proof Hd' as (rd & Hd & _)%finished_at.
    rewrite (finished_flag d rd rd' _ Hd Hd') in Hf. apply andb_true_iff in Hf as [Hn%negb_true_iff Hf].
    rewrite (finished_flag d rd rd' _ Hd Hd'), Hn. simpl. by apply (so_once _ _ _ _ _ (g_solid _ _ _ _ _ _ Hg) d).
  - intros k. unfold swizzle_ok. rewrite finished_swizzled. intros Hs Hr. eapply pristine_core; [exact Hcore|].
    apply (g_swizzle _ _ _ _ _ _ Hg); [done|]. intros Hi.
    assert (Hd : exists rd, rt_classes s !! Root k = Some rd).
    { unfold initialized in Hi. destruct (rt_classes s !! Root k); [eauto|done]. }
    destruct Hd as [rd Hd]. rewrite (finished_init _ rd Hd Hmet), Hi in Hr.
    pose proof (Hr eq_refl) as Hdef. apply finished_default in Hdef as [Hdef|[Hb Ht]]; [done|].
    rewrite Ht in Hi, Hd. rewrite (target_meta _ _ Hd) in Hi; [done|]. rewrite target_at in Hd. injection Hd as <-.
    apply target_is_meta.
Qed.

End Finish.

(** The decisions. *)
Lemma good_super s c rc p : Good s -> rt_classes s !! c = Some rc -> c_superclass rc = Some p -> is_Some (rt_classes s !! p).
Proof. intros Hg Hc Hp. destruct (good_tree _ _ _ _ _ _ Hg) as (kids & depth & T). by destruct (t_super _ _ _ T _ _ _ Hc Hp). Qed.

Lemma category_sub rc p : p ∈ category_lists rc -> p ∈ lists_of (c_methods rc).
Proof.
  unfold category_lists. destruct (lists_of (c_methods rc)) as [|x l] eqn:El; [by intros ?%not_elem_of_nil|].
  destruct (c_baseMethods rc); [|done]. intros Hp. apply elem_of_take in Hp as (i & Hi & _). by eapply list_elem_of_lookup_2.
Qed.

Lemma category_scan k s c rc : Good s -> rt_classes s !! c = Some rc ->
  exists b, any_implements sel_addr k (category_lists rc) s = Ret b /\ (b = false -> untouched k (category_lists rc ≫= list_methods s)).
Proof.
  intros Hg Hc. destruct (any_implements_spec sel_addr k (category_lists rc) s) as (b & Hb & Hu).
  - intros p Hp. eapply (lo_search _ _ (good_lists _ _ _ _ _ _ Hg)); [exact Hc|by apply category_sub].
  - exists b. split; [done|]. apply Hu.
Qed.

Lemma class_scan k s c rc : Good s -> rt_classes s !! c = Some rc ->
  exists b, any_implements sel_addr k (lists_of (c_methods rc)) s = Ret b /\ (b = false -> untouched k (methods_of s rc)).
Proof.
  intros Hg Hc. destruct (any_implements_spec sel_addr k (lists_of (c_methods rc)) s) as (b & Hb & Hu).
  - intros p Hp. by eapply (lo_search _ _ (good_lists _ _ _ _ _ _ Hg)).
  - exists b. split; [done|]. apply Hu.
Qed.

Lemma any_implements_mlists k lists s s' : rt_mlists s' = rt_mlists s ->
  any_implements sel_addr k lists s' = any_implements sel_addr k lists s.
Proof. intros He. induction lists as [|p lists IH]; [done|]. simpl. unfold mlist_at. by rewrite He, IH. Qed.

Lemma metaCustomAWZ_spec s metacls mc : Good s -> rt_classes s !! metacls = Some mc -> c_isMeta mc = true ->
  exists b, metaCustomAWZ sel_addr NSObject metacls mc s = Ret b /\ (b = false -> unoverridden AWZ s metacls mc).
Proof.
  intros Hg Hmc Hm. pose proof (so_isa _ _ _ _ _ (g_solid _ _ _ _ _ _ Hg)) as Hi.
  destruct (i_root _ _ _ Hi) as (rc & rm & Hr & _ & Hisa & _). unfold metaCustomAWZ, class_at. rewrite Hr. cbn [of_option obind].
  rewrite Hisa. destruct (swizzled AWZ s) eqn:Es; [by exists true|]. destruct (Z.eqb_spec metacls NSObjectMeta) as [->|Hn].
  - destruct (category_scan AWZ s _ mc Hg Hmc) as (b & -> & Hu). exists b. split; [done|]. intros Hb. split_and!; auto.
    intros []. done.
  - destruct (c_superclass mc) as [p|] eqn:Ep; [|by apply (i_super _ _ _ Hi metacls) in Ep]. cbn [of_option obind].
    destruct (good_super s metacls mc p Hg Hmc Ep) as [sc Hsc]. rewrite Hsc. cbn [of_option obind].
    destruct (hasCustom AWZ sc) eqn:Eh; [by exists true|]. destruct (class_scan AWZ s _ mc Hg Hmc) as (b & -> & Hu).
    exists b. split; [done|]. intros Hb. split_and!; [done|by intros ->|]. intros _. split; [auto|]. exists p.
    split; [done|]. exists sc. split; [done|]. by apply negb_false_iff in Eh.
Qed.

(** The second decision reads nothing the first one changed. *)
Lemma clsCustomRR_spec s s' cls c : Good s -> rt_classes s !! cls = Some c -> rt_mlists s' = rt_mlists s ->
  swizzled RR s' = swizzled RR s ->
  (forall d rd, rt_classes s !! d = Some rd -> exists rd', rt_classes s' !! d = Some rd' /\ hasCustom RR rd' = hasCustom RR rd) ->
  exists b, clsCustomRR sel_addr NSObject cls c s' = Ret b /\ (b = false -> unoverridden RR s cls c).
Proof.
  intros Hg Hc Hml Hsw Hsame. unfold clsCustomRR. rewrite !(any_implements_mlists _ _ s s') by done. rewrite Hsw.
  destruct (Z.eqb_spec cls NSObject) as [->|Hn].
  - destruct (category_scan RR s _ c Hg Hc) as (b & -> & Hu). cbn [obind]. eexists. split; [done|].
    intros [Hs Hb]%orb_false_iff. split_and!; auto. intros []. done.
  - destruct (c_superclass c) as [p|] eqn:Ep; [|by exists true].
    destruct (good_super s cls c p Hg Hc Ep) as [sc Hsc]. destruct (Hsame p sc Hsc) as (sc' & Hsc' & Hcu).
    unfold class_at. rewrite Hsc'. cbn [of_option obind]. rewrite Hcu. destruct (hasCustom RR sc) eqn:Eh; [by exists true|].
    destruct (class_scan RR s _ c Hg Hc) as (b & -> & Hu). cbn [obind]. eexists. split; [done|].
    intros [Hs Hb]%orb_false_iff. split_and!; [done|by intros ->|]. intros _. split; [auto|]. exists p. split; [done|].
    exists sc. split; [done|]. by apply negb_false_iff in Eh.
Qed.

Lemma setHasDefault_put k cls s c : rt_classes s !! cls = Some c -> isInitializing s cls = Ret true ->
  setHasDefault k cls s = Ret (put cls (setBits (default_bit k) c) s).
Proof. intros Hc Hi. unfold setHasDefault. rewrite Hi. cbn [cassert obind]. by rewrite (update_is_put _ _ _ _ Hc). Qed.

Lemma setInitialized_spec cls s c mc : Good s -> rt_classes s !! cls = Some c -> rt_classes s !! c_isa c = Some mc ->
  c_isMeta c = false -> has_flag RW_INITIALIZING mc = true ->
  exists s', setInitialized sel_addr NSObject cls s = Ret s' /\ Good s' /\ same_core sel_addr s s' /\ initialized s' cls = true.
Proof.
  intros Hg Hc Hmc Hm Hbusy. pose proof (finish_meta s Hg cls (c_isa c) c mc Hc Hmc eq_refl Hm Hbusy) as Hmm.
  assert (Hne : cls <> c_isa c).
  { intros He. rewrite <- He, Hc in Hmc. injection Hmc as <-. congruence. }
  destruct (metaCustomAWZ_spec s (c_isa c) mc Hg Hmc Hmm) as (b1 & Hb1 & Hu1).
  set (s1 := put (c_isa c) (set_if (negb b1) FAST_HAS_DEFAULT_AWZ mc) s).
  destruct (clsCustomRR_spec s s1 cls c Hg Hc eq_refl eq_refl) as (b2 & Hb2 & Hu2).
  { intros d rd Hd. simpl. destruct (decide (d = c_isa c)) as [->|Hd']; [|rewrite lookup_insert_ne by done; eauto].
    rewrite lookup_insert_eq. eexists. split; [done|]. unfold hasCustom. rewrite set_if_flag by done. congruence. }
  set (bit := fun k => match k with RR => negb b2 | AWZ => negb b1 end).
  exists (finished s cls (c_isa c) c mc bit). split_and!.
  - unfold setInitialized, class_at. rewrite Hc. cbn [of_option obind]. rewrite Hm. cbn [negb cassert obind].
    rewrite Hmc. cbn [of_option obind]. rewrite Hb1. cbn [obind].
    assert (Hs1 : (if b1 then Ret s else setHasDefault AWZ (c_isa c) s) = Ret s1).
    { unfold s1. destruct b1; simpl; [by rewrite put_id|]. apply setHasDefault_put; [done|].
      unfold isInitializing, getMeta, class_at. rewrite Hmc. cbn [of_option obind]. by rewrite Hmm, Hmc; simpl; rewrite Hbusy. }
    rewrite Hs1. cbn [obind]. rewrite Hb2. cbn [obind].
    assert (Hc1 : rt_classes s1 !! cls = Some c) by (by unfold s1; simpl; rewrite lookup_insert_ne).
    assert (Hs2 : (if b2 then Ret s1 else setHasDefault RR cls s1) = Ret (put cls (set_if (negb b2) FAST_HAS_DEFAULT_RR c) s1)).
    { destruct b2; simpl; [by rewrite put_id|]. apply setHasDefault_put; [done|].
      unfold isInitializing, getMeta, class_at. rewrite Hc1. cbn [of_option obind]. rewrite Hm. unfold s1. simpl.
      rewrite lookup_insert_eq. simpl. by rewrite set_if_flag, Hbusy. }
    rewrite Hs2. cbn [obind]. unfold finished, s1. rewrite (class_put_comm cls (c_isa c)) by done. rewrite update_put. done.
  - apply finished_good; try done. intros [] Hb; [apply Hu2|apply Hu1]; by apply negb_true_iff.
  - apply bits_only_core. by apply finished_bits_only.
  - rewrite (finished_init s Hg cls (c_isa c) c mc Hc Hmc eq_refl Hm Hbusy bit cls c Hc (good_metas _ _ _ _ _ _ Hg)).
    rewrite Hm, bool_decide_true by done. apply orb_true_r.
Qed.

End Init.
