(* ===== verification/ClassResults.v ===== *)
(** * What the changes of classes amount to

    Any sequence of the operations of ClassChanges.v, in any order: every one
    returns and the invariant holds afterwards.  And the results of the operations as
    a program sees them: the lookup after any changes, the bits for default methods, the methods after
    [class_addMethod] and [class_replaceMethod], and adding methods in bulk or
    one by one.  At the end, the walk: it visits each class once, and too many
    unregistered classes make it give up. *)

From Stdlib Require Import ZArith Lia Bool String.
From stdpp Require Import base list gmap strings.
From S2P Require Import Prelude ObjCData MethodList ClassTree ClassTreeSpec ClassChanges ClassInvariant ClassEffects ClassLookup ClassBits ClassMethodsSpec ClassInstallSpec ClassAddSpec ClassNewSpec ClassInitSpec.

Local Open Scope nat_scope.

(** ** Programs that change classes *)

(** The calls of a program. *)
Inductive op :=
| Lookup (cls : Class) (sel : string)
| AddMethod (cls : option Class) (name : string) (imp : IMP) (types : option string)
| ReplaceMethod (cls : option Class) (name : string) (imp : IMP) (types : option string)
| AddMethodsBulk (cls : option Class) (methods : list _objc_method)
| ReplaceMethodsBulk (cls : option Class) (methods : list _objc_method)
| SetImplementation (m : option Method) (imp : IMP)
| ExchangeImplementations (m1 m2 : option Method)
| Categories (cls : Class) (cats : option (list (option mlist_ptr)))
| ClassPair (super cls meta : Class)
| Realize (cls : Class) (c : class_t) (cats : list (option mlist_ptr))
| Register
| BeginInitialize (cls : Class)
| EndInitialize (cls : Class)
| FlushCaches (cls : option Class).

Section Run.
Context (sel_addr : string -> Z) (pre : nat) (NSObject : Class).

Definition run_op (o : op) (s : runtime) : outcome runtime :=
  match o with
  | Lookup cls sel => let! (_, s) := lookUpImpOrForward sel_addr pre None cls sel s in Ret s
  | AddMethod cls name imp types => let! (_, s) := class_addMethod sel_addr pre NSObject cls name imp types s in Ret s
  | ReplaceMethod cls name imp types => let! (_, s) := class_replaceMethod sel_addr pre NSObject cls name imp types s in Ret s
  | AddMethodsBulk cls methods => let! (_, s) := class_addMethodsBulk sel_addr pre NSObject cls methods s in Ret s
  | ReplaceMethodsBulk cls methods => class_replaceMethodsBulk sel_addr pre NSObject cls methods s
  | SetImplementation m imp => let! (_, s) := method_setImplementation pre NSObject m imp s in Ret s
  | ExchangeImplementations m1 m2 => method_exchangeImplementations pre NSObject m1 m2 s
  | Categories cls cats => remethodizeClass sel_addr pre cls cats s
  | ClassPair super cls meta => objc_initializeClassPair_internal pre (Some super) cls meta s
  | Realize cls c cats => realizeClass_connect sel_addr pre NSObject cls c cats s
  | Register => Ret (addNamedClass s)
  | BeginInitialize cls => setInitializing cls s
  | EndInitialize cls => setInitialized sel_addr NSObject cls s
  | FlushCaches cls => _objc_flush_caches pre cls s
  end.

Fixpoint run_ops (l : list op) (s : runtime) : outcome runtime :=
  match l with [] => Ret s | o :: l' => let! s := run_op o s in run_ops l' s end.

Definition class_exists (s : runtime) (cls : option Class) : Prop := forall c, cls = Some c -> is_Some (rt_classes s !! c).
Definition method_exists (s : runtime) (m : option Method) : Prop := forall m', m = Some m' -> exists meth, method_at s m' = Ret meth.

(** What the callers see to: pointers are valid or null, new classes have new
    addresses and an existing superclass, lists of methods are 32-bit sized, a
    list is attached once, initialization begins once and ends after it began, and
    a class is created only while the number of classes stays at most half of the
    bound of the walks, [unreasonableClassCount] ([room_for]); the last sections
    show what happens without that. *)
Definition allowed (o : op) (s : runtime) : Prop :=
  match o with
  | Lookup cls _ => is_Some (rt_classes s !! cls)
  | AddMethod cls _ _ _ | ReplaceMethod cls _ _ _ | FlushCaches cls => class_exists s cls
  | AddMethodsBulk cls methods | ReplaceMethodsBulk cls methods =>
      class_exists s cls /\ (Z.of_nat (length methods) < 2 ^ 32)%Z
  | SetImplementation m _ => method_exists s m
  | ExchangeImplementations m1 m2 => method_exists s m1 /\ method_exists s m2
  | Categories cls cats =>
      is_Some (rt_classes s !! cls) /\
      forall p, p ∈ from_option category_mlists [] cats -> attachable sel_addr s p
  | ClassPair super cls meta =>
      (exists rs, rt_classes s !! super = Some rs /\ c_isMeta rs = false) /\
      rt_classes s !! cls = None /\ rt_classes s !! meta = None /\ cls <> meta /\ room_for pre 2 s
  | Realize cls c cats =>
      (exists super rs, rt_classes s !! super = Some rs /\ c_superclass c = Some super) /\
      rt_classes s !! cls = None /\ newcomer s c /\ room_for pre 1 s /\
      (forall p, p ∈ category_mlists cats ++ option_list (c_baseMethods c) -> attachable sel_addr s p) /\
      (forall b, c_baseMethods c = Some b -> b ∉ category_mlists cats)
  | Register => True
  | BeginInitialize cls =>
      exists c, rt_classes s !! cls = Some c /\ c_isMeta c = false /\ initialized s cls = false
  | EndInitialize cls =>
      exists c mc, rt_classes s !! cls = Some c /\ rt_classes s !! c_isa c = Some mc /\ c_isMeta c = false /\
        has_flag RW_INITIALIZING mc = true
  end.

(** The states a program comes to. *)
Inductive reaches (s0 : runtime) : runtime -> Prop :=
| reaches_start : reaches s0 s0
| reaches_step s o s' : reaches s0 s -> allowed o s -> run_op o s = Ret s' -> reaches s0 s'.

End Run.

Section Safe.
Context (sel_addr : string -> Z) (Hinj : forall a b, sel_addr a = sel_addr b -> a = b).
Context (pre : nat) (NSObject NSObjectMeta : Class) (original : custom -> string -> option IMP).

Local Abbreviation Good := (good sel_addr pre NSObject NSObjectMeta original).
Local Abbreviation Root := (root_of NSObject NSObjectMeta).
Local Abbreviation run := (run_op sel_addr pre NSObject).
Local Abbreviation may := (allowed sel_addr pre).

(** ** Each operation *)

Lemma flushCaches_good cls s : Good s -> class_exists s cls ->
  exists s', flushCaches pre cls s = Ret s' /\ Good s' /\ cache_only s s'.
Proof.
  intros Hg Hc. destruct (flush_coherent sel_addr pre cls s (good_tree _ _ _ _ _ _ Hg) (good_room _ _ _ _ _ _ Hg) Hc)
    as (s' & Hrun & Ho & Hco); [intros c rc Hr _; by apply (g_coherent _ _ _ _ _ _ Hg)|].
  exists s'. split_and!; [done| |done]. destruct Hg as [Hs _ Hsw]. split; [by eapply cache_only_solid|done|].
  intros k. by eapply cache_only_swizzle.
Qed.

Lemma flush_both_good cls s : Good s -> class_exists s cls ->
  exists s', _objc_flush_caches pre cls s = Ret s' /\ Good s' /\ cache_only s s'.
Proof.
  intros Hg Hc. destruct (flushCaches_good cls s Hg Hc) as (s1 & Hrun & Hg1 & Ho). unfold _objc_flush_caches. rewrite Hrun.
  cbn [obind]. destruct cls as [cls|]; [|by exists s1]. destruct (Hc cls eq_refl) as [c Hr].
  destruct (cache_only_at _ _ _ _ Ho Hr) as (c1 & Hr1 & _). unfold class_at. rewrite Hr1. cbn [of_option obind].
  destruct (_ && _); [|by exists s1]. destruct (flushCaches_good (Some (c_isa c1)) s1 Hg1) as (s2 & Hrun2 & Hg2 & Ho2).
  - intros d [= <-]. by apply (good_metas _ _ _ _ _ _ Hg1 cls).
  - exists s2. split_and!; [done..|]. unfold cache_only in *. congruence.
Qed.

Lemma addNamedClass_good s : Good s -> Good (addNamedClass s).
Proof.
  intros [[H1 H2 [] [] H5 H6] Hco Hsw]. split; [split| |].
  - by apply (class_tree_links s).
  - unfold reasonable, unreasonableClassCount in *. simpl. lia.
  - by split.
  - by split.
  - intros k. destruct (H5 k) as [B1 B2 B3]. split; [done|done|]. intros rc Hd Hr. destruct (B3 rc Hd Hr). by destruct k.
  - done.
  - intros c rc Hr sel i Hi. destruct (Hco c rc Hr sel i Hi) as (r & Ha & ->). exists r. split; [|done].
    eapply answers_frame; [|exact Ha]. intros a ra _ Ha'. by exists ra.
  - intros k. intros Hs. apply Hsw. by destruct k.
Qed.

Lemma setImplementation_good m imp s : Good s -> method_exists s m ->
  exists r s', method_setImplementation pre NSObject m imp s = Ret (r, s') /\ Good s'.
Proof.
  intros Hg Hm. unfold method_setImplementation. destruct m as [m|]; [|by exists nil_imp, s].
  destruct (Hm m eq_refl) as [meth Hmeth]. destruct (decide (imp = nil_imp)) as [Hi|Hi].
  - unfold _method_setImplementation. rewrite bool_decide_true by done. by exists nil_imp, s.
  - destruct (setImplementation_spec sel_addr pre NSObject NSObjectMeta original None m imp s meth Hg Hmeth Hi ltac:(done))
      as (s' & Hrun & Hg' & _). by exists (_imp meth), s'.
Qed.

Lemma exchange_good m1 m2 s : Good s -> method_exists s m1 -> method_exists s m2 ->
  exists s', method_exchangeImplementations pre NSObject m1 m2 s = Ret s' /\ Good s'.
Proof.
  intros Hg H1 H2. destruct m1 as [m1|], m2 as [m2|]; [|by exists s..].
  destruct (H1 m1 eq_refl) as [x1 Hx1], (H2 m2 eq_refl) as [x2 Hx2].
  destruct (exchangeImplementations_spec sel_addr pre NSObject NSObjectMeta original m1 m2 s x1 x2 Hg Hx1 Hx2)
    as (s' & Hrun & Hg' & _). by exists s'.
Qed.

Lemma addMethod_good cls name imp types replace s : Good s -> is_Some (rt_classes s !! cls) ->
  exists r s', addMethod sel_addr pre NSObject cls name imp types replace s = Ret (r, s') /\ Good s'.
Proof using Hinj.
  intros Hg [rc Hc].
  pose proof (addMethod_spec sel_addr Hinj pre NSObject NSObjectMeta original cls rc name imp types replace s Hg Hc) as H.
  destruct (own s rc name) as [old|]; [destruct (replace && _)|].
  - destruct H as (s' & Hrun & Hg' & _). eauto.
  - rewrite H. eauto.
  - destruct H as (s' & Hrun & Hg' & _). eauto.
Qed.

Lemma addMethods_good cls methods replace s : Good s -> is_Some (rt_classes s !! cls) ->
  (Z.of_nat (length methods) < 2 ^ 32)%Z ->
  exists r s', addMethods sel_addr pre NSObject cls methods replace s = Ret (r, s') /\ Good s'.
Proof using Hinj.
  intros Hg Hc Hl. destruct (addMethods_spec sel_addr Hinj pre NSObject NSObjectMeta original cls methods replace s Hg Hc Hl)
    as (s' & Hrun & Hg' & _). eauto.
Qed.

Lemma run_op_good o s : Good s -> may o s -> exists s', run o s = Ret s' /\ Good s'.
Proof using Hinj.
  intros Hg. destruct o as [cls sel|cls name imp types|cls name imp types|cls ms|cls ms|m imp|m1 m2|cls cats|super cls meta
    |cls c cats| |cls|cls|cls]; simpl.
  - intros Hc. destruct (lookUp_spec sel_addr pre NSObject NSObjectMeta original s None cls sel Hg Hc ltac:(done))
      as (s1 & s2 & r & Hrun & _ & _ & Hg2 & _). rewrite Hrun. by exists s2.
  - intros Hc. destruct cls as [cls|]; [|by exists s]. unfold class_addMethod.
    destruct (addMethod_good cls name imp (default EmptyString types) false s Hg (Hc cls eq_refl)) as (r & s' & -> & Hg').
    by exists s'.
  - intros Hc. destruct cls as [cls|]; [|by exists s]. unfold class_replaceMethod.
    destruct (addMethod_good cls name imp (default EmptyString types) true s Hg (Hc cls eq_refl)) as (r & s' & -> & Hg').
    by exists s'.
  - intros [Hc Hl]. destruct cls as [cls|]; [|by exists s]. unfold class_addMethodsBulk.
    destruct (addMethods_good cls ms false s Hg (Hc cls eq_refl) Hl) as (r & s' & -> & Hg'). by exists s'.
  - intros [Hc Hl]. destruct cls as [cls|]; [|by exists s]. unfold class_replaceMethodsBulk.
    destruct (addMethods_good cls ms true s Hg (Hc cls eq_refl) Hl) as (r & s' & -> & Hg'). by exists s'.
  - intros Hm. destruct (setImplementation_good m imp s Hg Hm) as (r & s' & -> & Hg'). by exists s'.
  - intros [H1 H2]. by apply exchange_good.
  - intros [Hc Hat]. destruct cats as [cats|]; [|by exists s]. unfold remethodizeClass.
    destruct (attachCategories_spec sel_addr Hinj pre NSObject NSObjectMeta original cls cats s Hg Hc Hat)
      as (s' & Hrun & Hg' & _). by exists s'.
  - intros ((rs & Hs & Hm) & H1 & H2 & Hne & Hroom).
    destruct (classPair_spec sel_addr pre NSObject NSObjectMeta original super cls meta s rs Hg Hs Hm H1 H2 Hne Hroom)
      as (s' & rc & Hrun & Hg' & _). by exists s'.
  - intros ((super & rs & Hs & Hp) & H1 & Hn & Hroom & Hat & Hdis).
    destruct (realizeClass_spec sel_addr Hinj pre NSObject NSObjectMeta original super rs cls c cats s Hg Hs H1 Hp Hn Hroom Hat Hdis)
      as (s' & rc & Hrun & Hg' & _). by exists s'.
  - intros _. eexists. split; [done|]. by apply addNamedClass_good.
  - intros (c & Hc & Hm & Hi).
    destruct (setInitializing_spec sel_addr pre NSObject NSObjectMeta original cls s c Hg Hc Hm Hi) as (s' & Hrun & Hg' & _).
    by exists s'.
  - intros (c & mc & Hc & Hmc & Hm & Hb).
    destruct (setInitialized_spec sel_addr Hinj pre NSObject NSObjectMeta original cls s c mc Hg Hc Hmc Hm Hb)
      as (s' & Hrun & Hg' & _). by exists s'.
  - intros Hc. destruct (flush_both_good cls s Hg Hc) as (s' & Hrun & Hg' & _). by exists s'.
Qed.

Lemma reaches_good s0 s : Good s0 -> reaches sel_addr pre NSObject s0 s -> Good s.
Proof using Hinj.
  intros Hg. induction 1 as [|s o s' _ IH Hm Hrun]; [done|].
  destruct (run_op_good o s IH Hm) as (s1 & Hrun1 & Hg1). congruence.
Qed.

End Safe.

(** ** Lookups after a method was added or replaced *)

(** Between [d] and [cls] nobody has a method [name] of its own. *)
Definition unshadowed (s : runtime) (d cls : Class) (name : string) : Prop :=
  sub s d cls /\
  forall a ra, sub s d a -> sub s a cls -> a <> cls -> rt_classes s !! a = Some ra -> own s ra name = None.

(** [cls] and the subclasses that inherit from it answer [name] with [imp]; all
    other answers are as before. *)
Definition installed (s s' : runtime) (cls : Class) (name : string) (imp : IMP) : Prop :=
  (forall d, unshadowed s d cls name -> answers s' name (Some d) (Some imp)) /\
  (forall d sel r, sel <> name \/ ~ sub s d cls -> answers s sel (Some d) r -> answers s' sel (Some d) r) /\
  (forall d r a ra i, sub s d a -> sub s a cls -> a <> cls -> rt_classes s !! a = Some ra -> own s ra name = Some i ->
     answers s name (Some d) r -> answers s' name (Some d) r).

Section Gained.
Context (s s' : runtime) (cls : Class) (name types : string) (imp : IMP).
Context (Htree : class_tree s) (Hgain : gained s s' cls [mk_method name types imp]).

Lemma gained_own c rc rc' : rt_classes s !! c = Some rc -> rt_classes s' !! c = Some rc' ->
  forall sel, own s' rc' sel = if decide (c = cls /\ sel = name) then Some imp else own s rc sel.
Proof using Hgain.
  intros Hc Hc' sel. destruct (Hgain c rc Hc) as (rc1 & Hc1 & _ & Ho). assert (rc1 = rc') as -> by congruence.
  rewrite Ho. unfold find_method. simpl. destruct (decide (c = cls)) as [->|Hn]; [|by rewrite decide_False by tauto].
  destruct (String.eqb_spec name sel) as [->|Hne]; simpl; [by rewrite decide_True|].
  rewrite decide_False; [done|]. intros [_ ->]. done.
Qed.

Lemma gained_at c rc : rt_classes s !! c = Some rc -> exists rc', rt_classes s' !! c = Some rc' /\
  c_superclass rc' = c_superclass rc.
Proof using Hgain. intros Hc. destruct (Hgain c rc Hc) as (rc' & H1 & H2 & _). eauto. Qed.

Lemma gained_inherit d : unshadowed s d cls name -> answers s' name (Some d) (Some imp).
Proof using Hgain.
  intros [Hs Hno]. remember cls as top eqn:Et in Hs. revert Et Hno.
  induction Hs as [c [rc Hc]|d rd p top Hd Hp Hs IH]; intros -> Hno.
  - destruct (gained_at cls rc Hc) as (rc' & Hc' & _). eapply answers_own; [done|].
    by rewrite (gained_own cls rc rc' Hc Hc'), decide_True.
  - destruct (gained_at d rd Hd) as (rd' & Hd' & Hp'). destruct (decide (d = cls)) as [->|Hn].
    + eapply answers_own; [done|]. by rewrite (gained_own cls rd rd' Hd Hd'), decide_True.
    + eapply answers_super; [done| |].
      * rewrite (gained_own d rd rd' Hd Hd'), decide_False by tauto. apply (Hno d); [constructor; eauto|by eapply sub_up|done|done].
      * rewrite Hp', Hp. apply IH; [done|]. intros a ra Ha. apply Hno. by eapply sub_up.
Qed.

Lemma gained_elsewhere d sel r : sel <> name \/ ~ sub s d cls -> answers s sel (Some d) r -> answers s' sel (Some d) r.
Proof using Hgain.
  intros Hor. apply answers_frame. intros a ra Hs Ha. destruct (gained_at a ra Ha) as (ra' & Ha' & Hp). exists ra'.
  split_and!; [done..|]. rewrite (gained_own a ra ra' Ha Ha'), decide_False; [done|]. intros [-> ->]. tauto.
Qed.

(** A class below [cls] with a method of its own is not affected. *)
Lemma gained_shadowed d r a ra i : sub s d a -> sub s a cls -> a <> cls -> rt_classes s !! a = Some ra ->
  own s ra name = Some i -> answers s name (Some d) r -> answers s' name (Some d) r.
Proof using All.
  intros Hda Hac Hne Ha Hown. revert r. induction Hda as [a _|d rd p a Hd Hp Hda IH]; intros r Hr.
  - inversion Hr; simplify_eq. destruct (gained_at a ra Ha) as (ra' & Ha' & _). eapply answers_own; [done|].
    by rewrite (gained_own a ra ra' Ha Ha'), decide_False by tauto.
  - destruct (gained_at d rd Hd) as (rd' & Hd' & Hp'). assert (Hdc : d <> cls).
    { intros ->. destruct Htree as (kids & depth & T). destruct (t_super _ _ _ T _ _ _ Hd Hp) as [_ Hlt].
      destruct (sub_depth _ _ _ T p cls) as [Hle _]; [by eapply sub_trans|]. lia. }
    pose proof (gained_own d rd rd' Hd Hd' name) as Ho. rewrite decide_False in Ho by tauto.
    inversion Hr; simplify_eq.
    + eapply answers_own; [done|]. congruence.
    + eapply answers_super; [done|congruence|]. rewrite Hp'. rewrite Hp in *. auto.
Qed.

Lemma gained_installed : installed s s' cls name imp.
Proof using All. split_and!; [apply gained_inherit|apply gained_elsewhere|apply gained_shadowed]. Qed.

End Gained.

(** ** One by one *)

(** The methods are added by a call each; the names that failed. *)
Fixpoint add_one_by_one (sel_addr : string -> Z) (pre : nat) (NSObject : Class) (cls : Class) (methods : list _objc_method)
    (s : runtime) : outcome (list string * runtime) :=
  match methods with
  | [] => Ret ([], s)
  | m :: ms =>
      let! (added, s) := class_addMethod sel_addr pre NSObject (Some cls) (_cmd m) (_imp m) (Some (method_type m)) s in
      let! (failed, s) := add_one_by_one sel_addr pre NSObject cls ms s in
      Ret (if added then failed else _cmd m :: failed, s)
  end.

(** The class has a method of that name, and one with an implementation. *)
Definition has_implementation (s : runtime) (cls : Class) (m : _objc_method) : bool :=
  match rt_classes s !! cls with
  | Some rc => match own s rc (_cmd m) with Some i => bool_decide (i <> nil_imp) | None => false end
  | None => false
  end.

(** States that gained the same give the same answers. *)
Lemma gained_same s s1 s2 cls l d sel r : class_tree s -> gained s s1 cls l -> gained s s2 cls l ->
  is_Some (rt_classes s !! d) -> answers s1 sel (Some d) r -> answers s2 sel (Some d) r.
Proof.
  intros (kids & depth & T) H1 H2 Hd Hr. remember (Some d) as cur eqn:Ecur. revert d Ecur Hd.
  induction Hr as [|c rc1 i Hc Ho|c rc1 r Hc Ho Hr IH]; intros d [= ->] [rd Hd]; simplify_eq;
    destruct (H1 d rd Hd) as (x1 & Hx1 & Hp1 & Ho1), (H2 d rd Hd) as (x2 & Hx2 & Hp2 & Ho2);
    assert (x1 = rc1) as -> by congruence.
  - eapply answers_own; [done|]. by rewrite Ho2, <- Ho1.
  - eapply answers_super; [done|by rewrite Ho2, <- Ho1|]. rewrite Hp2. rewrite Hp1 in Hr, IH.
    destruct (c_superclass rd) as [p|] eqn:Ep; [|inversion Hr; subst; constructor].
    apply (IH p); [done|]. by destruct (t_super _ _ _ T _ _ _ Hd Ep).
Qed.

Lemma find_method_elem sel l x : find_method sel l = Some x -> x ∈ l /\ _cmd x = sel.
Proof.
  unfold find_method. intros Hx. assert (Hin : In x (List.filter (fun m => String.eqb (_cmd m) sel) l)).
  { destruct (List.filter _ l); [done|]. left. congruence. }
  apply List.filter_In in Hin as [Hin He%String.eqb_eq]. split; [by apply list_elem_of_In|done].
Qed.

Lemma find_method_snoc sel m l : _cmd m ∉ map _cmd l -> find_method sel (l ++ [m]) = find_method sel (m :: l).
Proof.
  intros Hn. change (m :: l) with ([m] ++ l). rewrite !find_method_app.
  destruct (find_method sel l) as [x|] eqn:El; [|by destruct (find_method sel [m])].
  assert (find_method sel [m] = None) as ->; [|done]. unfold find_method. simpl.
  destruct (String.eqb_spec (_cmd m) sel) as [He|]; [|done]. exfalso. apply Hn.
  destruct (find_method_elem _ _ _ El) as [Hin%list_elem_of_In Hx]. apply list_elem_of_In, List.in_map_iff. exists x. split; [congruence|done].
Qed.

Section OneByOne.
Context (sel_addr : string -> Z) (Hinj : forall a b, sel_addr a = sel_addr b -> a = b).
Context (pre : nat) (NSObject NSObjectMeta : Class) (original : custom -> string -> option IMP).

Local Abbreviation Good := (good sel_addr pre NSObject NSObjectMeta original).

(** After a method was added, the others are still there, or still missing. *)
Lemma gained_other s s1 cls m m' rc rc1 : gained s s1 cls [m] -> rt_classes s !! cls = Some rc -> rt_classes s1 !! cls = Some rc1 ->
  _cmd m' <> _cmd m -> own s1 rc1 (_cmd m') = own s rc (_cmd m').
Proof.
  intros Hg Hc Hc1 Hne. rewrite (eta_method m) in Hg. rewrite (gained_own _ _ _ _ _ _ Hg cls rc rc1 Hc Hc1).
  apply decide_False. intros [_ He]. done.
Qed.

Lemma one_by_one_spec cls methods s : Good s -> is_Some (rt_classes s !! cls) -> NoDup (map _cmd methods) ->
  exists s', add_one_by_one sel_addr pre NSObject cls methods s =
      Ret (map _cmd (List.filter (has_implementation s cls) methods), s') /\
    Good s' /\ gained s s' cls (List.filter (fun m => negb (owned s cls m)) methods).
Proof using Hinj.
  revert s. induction methods as [|m ms IH]; intros s Hg [rc Hc] Hnd.
  { exists s. split_and!; [done|done|apply gained_nil]. }
  cbn [map] in Hnd. apply NoDup_cons in Hnd as [Hm Hnd].
  pose proof (addMethod_spec sel_addr Hinj pre NSObject NSObjectMeta original cls rc (_cmd m) (_imp m) (method_type m) false s Hg Hc) as Hadd.
  assert (Hown : owned s cls m = bool_decide (own s rc (_cmd m) <> None)) by (unfold owned; by rewrite Hc).
  assert (Himp : has_implementation s cls m = match own s rc (_cmd m) with Some i => bool_decide (i <> nil_imp) | None => false end)
    by (unfold has_implementation; by rewrite Hc).
  cbn [add_one_by_one class_addMethod List.filter].
  change (default EmptyString (Some (method_type m))) with (method_type m). rewrite Hown, Himp. destruct (own s rc (_cmd m)) as [old|] eqn:Eo.
  - cbn [andb] in Hadd. rewrite Hadd. cbn [obind].
    destruct (IH s Hg ltac:(eauto) Hnd) as (s' & Hrun & Hg' & Hgain).
    rewrite Hrun. exists s'. rewrite (bool_decide_true (Some old <> None)), bool_decide_not by done. cbn [obind].
    by destruct (bool_decide (old = nil_imp)).
  - destruct Hadd as (s1 & Hrun1 & Hg1 & Hgain1). rewrite Hrun1. cbn [obind]. rewrite (bool_decide_true (nil_imp = nil_imp)) by done.
    rewrite <- (eta_method m) in Hgain1. destruct (Hgain1 cls rc Hc) as (rc1 & Hc1 & _ & _).
    assert (Hsame : forall m', m' ∈ ms -> own s1 rc1 (_cmd m') = own s rc (_cmd m')).
    { intros m' Hin. eapply gained_other; [done..|]. intros He. apply Hm. rewrite <- He.
      by apply list_elem_of_In, List.in_map, list_elem_of_In. }
    assert (Howned : forall m', m' ∈ ms -> owned s1 cls m' = owned s cls m').
    { intros m' Hin. unfold owned. by rewrite Hc, Hc1, Hsame. }
    assert (Himpl : forall m', m' ∈ ms -> has_implementation s1 cls m' = has_implementation s cls m').
    { intros m' Hin. unfold has_implementation. by rewrite Hc, Hc1, Hsame. }
    destruct (IH s1 Hg1 ltac:(eauto) Hnd) as (s' & Hrun & Hg' & Hgain).
    rewrite Hrun. exists s'. rewrite bool_decide_false by tauto. cbn [negb].
    assert (Hf : forall f g : _objc_method -> bool, (forall m', m' ∈ ms -> f m' = g m') -> List.filter f ms = List.filter g ms).
    { intros f g Hfg. apply List.filter_ext_in. intros m' Hin. apply Hfg. by apply list_elem_of_In. }
    split_and!; [|done|].
    + do 2 f_equal. by rewrite (Hf _ (has_implementation s cls)).
    + eapply gained_ext; [|eapply gained_trans; [exact Hgain1|exact Hgain]].
      intros sel. rewrite (Hf _ (fun m' => negb (owned s cls m'))); [|intros m' Hin; by rewrite Howned].
      apply find_method_snoc. intros (x & He & Hx)%list_elem_of_In%List.in_map_iff. apply Hm. rewrite <- He.
      apply List.filter_In in Hx as [Hx _]. by apply list_elem_of_In, List.in_map.
Qed.

End OneByOne.

(** ** The results *)

Section Results.
Context (sel_addr : string -> Z) (Hinj : forall a b, sel_addr a = sel_addr b -> a = b).
Context (pre : nat) (NSObject NSObjectMeta : Class) (original : custom -> string -> option IMP).

Local Abbreviation Good := (good sel_addr pre NSObject NSObjectMeta original).
Local Abbreviation Reaches := (reaches sel_addr pre NSObject).

(** C7. In every state a program comes to, every operation that is [allowed] returns: no assertion
    fails, no walk gives up, and the invariant of the classes holds again.  Allowed means: the
    pointers are valid or null; a new class has a new address and an existing superclass, of the
    right kind; fewer than [2^32] methods are given at once; a method list is attached to one
    class, once; initialization begins once and ends after it began; and, for a new class, that
    the number of classes is then at most half of the bound of the walks,
    [unreasonableClassCount], which grows with the number of registered classes. *)
Theorem class_changes_return s0 s o : Good s0 -> Reaches s0 s -> allowed sel_addr pre o s ->
  exists s', run_op sel_addr pre NSObject o s = Ret s' /\ Good s'.
Proof using Hinj.
  intros Hg Hr. apply (run_op_good sel_addr Hinj). by apply (reaches_good sel_addr Hinj _ _ _ _ s0).
Qed.

(** C6. Whatever was added, replaced, exchanged, attached, created and initialized
    before, a lookup returns and gives the implementation that the search through
    the method lists from the class upwards gives, and changes only caches. *)
Theorem lookup_after_changes s0 s cls sel : Good s0 -> Reaches s0 s -> is_Some (rt_classes s !! cls) ->
  exists r s', lookUpImpOrForward sel_addr pre None cls sel s = Ret (as_imp r, s') /\ answers s sel (Some cls) r /\
    cache_only s s'.
Proof using Hinj.
  intros Hg Hr Hc. pose proof (reaches_good sel_addr Hinj _ _ _ _ _ _ Hg Hr) as Hs.
  destruct (lookUp_spec sel_addr pre NSObject NSObjectMeta original s None cls sel Hs Hc ltac:(done))
    as (s1 & s2 & r & Hrun & Ha & Ho & _ & He). rewrite (He eq_refl) in Ha, Ho. by exists r, s2.
Qed.

(** C13. Where the bit says that a class uses the default retain, release or alloc
    methods, so that callers may skip the message, the message would have been
    answered by the implementation NSObject was compiled with. *)
Theorem default_bits_honest s0 s k cls sel i : Good s0 -> Reaches s0 s -> default_set k s cls -> sel ∈ selectors k ->
  original k sel = Some i ->
  exists s', lookUpImpOrForward sel_addr pre None cls sel s = Ret (i, s').
Proof using Hinj.
  intros Hg Hr Hd Hsel Hor. pose proof (reaches_good sel_addr Hinj _ _ _ _ _ _ Hg Hr) as Hs.
  pose proof (default_answers _ _ _ _ _ k s cls sel i Hs Hd Hsel Hor) as Ha.
  destruct (lookUp_spec sel_addr pre NSObject NSObjectMeta original s None cls sel Hs) as (s1 & s2 & r & Hrun & Ha1 & _ & _ & He);
    [destruct Hd as (rc & Hc & _); eauto|done|].
  rewrite (He eq_refl) in Ha1. rewrite <- (answers_unique _ _ _ _ _ Ha Ha1) in Hrun. by exists s2.
Qed.

(** C14. The two calls on a class, on every branch.  [class_addMethod] leaves a class
    alone that has a method of the name, and then says NO, or YES if that method
    has no implementation.  [class_replaceMethod] gives back the old implementation,
    except that for a null implementation it does nothing and gives back null where
    the class has the method.  Otherwise the method is there afterwards, for the
    class and for what inherits from it, and nothing else has changed. *)
Theorem addMethod_result cls rc name imp types s : Good s -> rt_classes s !! cls = Some rc ->
  match own s rc name with
  | Some old => class_addMethod sel_addr pre NSObject (Some cls) name imp types s = Ret (bool_decide (old = nil_imp), s)
  | None => exists s', class_addMethod sel_addr pre NSObject (Some cls) name imp types s = Ret (true, s') /\
      Good s' /\ installed s s' cls name imp
  end /\
  (if bool_decide (imp = nil_imp) && bool_decide (own s rc name <> None)
   then class_replaceMethod sel_addr pre NSObject (Some cls) name imp types s = Ret (nil_imp, s)
   else exists s', class_replaceMethod sel_addr pre NSObject (Some cls) name imp types s =
          Ret (default nil_imp (own s rc name), s') /\ Good s' /\ installed s s' cls name imp).
Proof using Hinj.
  intros Hg Hc. unfold class_addMethod, class_replaceMethod. set (ty := default EmptyString types).
  pose proof (addMethod_spec sel_addr Hinj _ _ _ _ cls rc name imp ty false s Hg Hc) as Ha.
  pose proof (addMethod_spec sel_addr Hinj _ _ _ _ cls rc name imp ty true s Hg Hc) as Hr.
  pose proof (good_tree _ _ _ _ _ _ Hg) as Ht. destruct (own s rc name) as [old|].
  - cbn [andb] in *. rewrite Ha. split; [done|]. rewrite bool_decide_not in Hr.
    rewrite (bool_decide_true (Some old <> None)), andb_true_r by done. destruct (bool_decide (imp = nil_imp)); cbn [negb] in Hr; [done|].
    destruct Hr as (s' & Hrun & Hg' & Hgain). exists s'. split_and!; [done..|]. by eapply gained_installed.
  - rewrite (bool_decide_false (None <> None)), andb_false_r by tauto.
    destruct Ha as (s1 & -> & Hg1 & Hgain1), Hr as (s2 & -> & Hg2 & Hgain2). cbn [obind].
    split; [exists s1|exists s2]; (split_and!; [done..|by eapply gained_installed]).
Qed.

(** C37. Methods with different names, fewer than [2^32], added in bulk or one by one: every later
    lookup is the same.  The reports of failure are not: the bulk call names every method whose
    name the class has already, the single calls only those of them that have an implementation. *)
Theorem bulk_as_one_by_one cls methods s : Good s -> is_Some (rt_classes s !! cls) -> NoDup (map _cmd methods) ->
  (Z.of_nat (length methods) < 2 ^ 32)%Z ->
  exists s1 s2,
    class_addMethodsBulk sel_addr pre NSObject (Some cls) methods s =
      Ret (map _cmd (List.filter (owned s cls) methods), s1) /\
    add_one_by_one sel_addr pre NSObject cls methods s =
      Ret (map _cmd (List.filter (has_implementation s cls) methods), s2) /\ Good s1 /\ Good s2 /\
    forall d sel r, is_Some (rt_classes s !! d) -> answers s1 sel (Some d) r <-> answers s2 sel (Some d) r.
Proof using Hinj.
  intros Hg Hc Hnd Hl.
  destruct (addMethods_spec sel_addr Hinj _ _ _ _ cls methods false s Hg Hc Hl) as (s1 & Hrun1 & Hg1 & Hgain1).
  destruct (one_by_one_spec sel_addr Hinj _ _ _ _ cls methods s Hg Hc Hnd) as (s2 & Hrun2 & Hg2 & Hgain2).
  rewrite app_nil_r in Hgain1. exists s1, s2. split_and!; [done..|].
  intros d sel r Hd. pose proof (good_tree _ _ _ _ _ _ Hg) as Ht.
  split; [by apply (gained_same s s1 s2 cls _ d sel r Ht Hgain1)|by apply (gained_same s s2 s1 cls _ d sel r Ht Hgain2)].
Qed.

End Results.

(** ** Too many classes for the walk *)

(** A visit that erases a cache. *)
Lemma erase_visits s c s1 : is_Some (rt_classes s !! c) -> same_links s s1 ->
  exists s2, cache_erase_nolock c s1 = Ret s2 /\ same_links s s2.
Proof.
  intros Hc Hl. destruct (same_links_dom _ _ _ Hl Hc) as [rc Hrc]. eexists. split; [by apply update_at|].
  etrans; [exact Hl|]. by apply (update_links c (set_cache ∅)); [|apply update_at].
Qed.

Lemma flush_gives_up pre s top l : class_tree s -> is_Some (rt_classes s !! top) -> NoDup l ->
  (forall d, d ∈ l -> sub s d top) -> unreasonableClassCount pre s <= length l ->
  flushCaches pre (Some top) s = Fault.
Proof.
  intros Ht Htop Hnd Hl Hc. apply (foreach_gives_up pre s top _ (same_links s) l); try done. apply erase_visits.
Qed.

Section Crowd.
Context (sel_addr : string -> Z) (Hinj : forall a b, sel_addr a = sel_addr b -> a = b).
Context (pre : nat) (NSObject NSObjectMeta : Class) (original : custom -> string -> option IMP).

Local Abbreviation Good p := (good sel_addr p NSObject NSObjectMeta original).

(** The invariant but for the room: with some count of classes by the system there would be room. *)
Definition roomless (s : runtime) : Prop := exists p, Good p s.

Lemma good_more p q s : p <= q -> Good p s -> Good q s.
Proof.
  intros Hpq [[H1 H2 H3 H4 H5 H6] H7 H8]. split; [split|..]; try done.
  unfold reasonable, unreasonableClassCount in *. lia.
Qed.

Lemma leaf_sub super cls rs rc s d top : rt_classes s !! super = Some rs -> rt_classes s !! cls = None ->
  c_superclass rc = Some super -> c_firstSubclass rc = None -> sub s d top -> sub (leaf_added super cls rs rc s) d top.
Proof.
  intros Hs Hn Hsup Hf. induction 1 as [c [r Hc]|d rd p top Hd Hp _ IH].
  - destruct (leaf_at_old super cls rs rc s Hs Hn Hsup Hf c r Hc) as (r' & Hr' & _). constructor. eauto.
  - destruct (leaf_at_old super cls rs rc s Hs Hn Hsup Hf d rd Hd) as (rd' & Hd' & Hp' & _).
    eapply sub_up; [exact Hd'|rewrite Hp'; exact Hp|exact IH].
Qed.

(** A pair below [top] is created without a walk over other classes, room or no room. *)
Lemma classPair_crowd top rt cls meta s : roomless s -> rt_classes s !! top = Some rt -> c_isMeta rt = false ->
  rt_classes s !! cls = None -> rt_classes s !! meta = None -> cls <> meta ->
  exists s' rt', objc_initializeClassPair_internal pre (Some top) cls meta s = Ret s' /\ roomless s' /\
    rt_classes s' !! top = Some rt' /\ c_isMeta rt' = false /\ (forall sel, own s' rt' sel = own s rt sel) /\
    unreasonableClassCount pre s' = unreasonableClassCount pre s /\ sub s' cls top /\
    (forall d, sub s d top -> sub s' d top) /\
    (forall d, d <> cls -> d <> meta -> rt_classes s !! d = None -> rt_classes s' !! d = None).
Proof.
  intros [p Hg0] Ht Hmeta Hc Hm Hne. pose proof (good_more p (S p) s ltac:(lia) Hg0) as Hg.
  pose proof (so_isa _ _ _ _ _ (g_solid _ _ _ _ _ _ Hg)) as Hisa.
  destruct (i_meta _ _ _ Hisa top rt Ht) as [rm Hrm]. pose proof (i_ismeta _ _ _ Hisa top rt rm Ht Hrm) as Hmm.
  assert (Hnt : c_isa rt <> top) by congruence.
  destruct (classPair_spec sel_addr (S p) NSObject NSObjectMeta original top cls meta s rt Hg Ht Hmeta Hc Hm Hne)
    as (s' & rc & Hrun & Hg' & Hrc & Hsup & _ & _ & _).
  { pose proof (good_room _ _ _ _ _ _ Hg0). unfold room_for, reasonable, unreasonableClassCount in *. lia. }
  rewrite (classPair_run (S p) top cls meta s rt rm) in Hrun by done. injection Hrun as Es.
  rewrite (classPair_run pre top cls meta s rt rm) by done.
  set (fm := fresh_class (c_isa rm) (Some (c_isa rt)) true) in *. set (fc := fresh_class meta (Some top) false) in *.
  set (s1 := leaf_added (c_isa rt) meta rm fm s) in *.
  assert (Ht1 : rt_classes s1 !! top = Some rt) by (unfold s1; rewrite leaf_at_other; first [done|congruence]).
  assert (Hc1 : rt_classes s1 !! cls = None) by (unfold s1; rewrite leaf_at_other; first [done|congruence]).
  destruct (leaf_at_old top cls rt fc s1 Ht1 Hc1 eq_refl eq_refl top rt Ht1) as (rt' & Ht' & _ & _ & _ & Hme & _).
  assert (Hsub : forall d, sub s d top -> sub s' d top).
  { intros d Hd. subst s'. apply leaf_sub; try done. by apply leaf_sub. }
  exists s', rt'. split_and!; [by rewrite Es|by exists (S p)|by rewrite <- Es|by rewrite Hme| | | |done|].
  - intros sel. rewrite <- Es. rewrite (leaf_own top cls rt fc s1 Ht1 Hc1 eq_refl eq_refl top rt rt' sel Ht1 Ht').
    by apply (leaf_own (c_isa rt) meta rm fm s Hrm Hm eq_refl eq_refl top rt rt sel Ht).
  - by subst s'.
  - eapply sub_up; [exact Hrc|exact Hsup|]. constructor. exists rt'. by rewrite <- Es.
  - intros d H1 H2 Hd. destruct (rt_classes s' !! d) as [rd|] eqn:E; [exfalso|done]. subst s'.
    destruct (leaf_from top cls rt fc s1 Ht1 Hc1 eq_refl eq_refl d rd E) as [|[rd1 E1]]; [done|].
    destruct (leaf_from (c_isa rt) meta rm fm s Hrm Hm eq_refl eq_refl d rd1 E1) as [|[? ?]]; [done|congruence].
Qed.

(** The addresses of a list of pairs. *)
Definition pair_addresses (pairs : list (Class * Class)) : list Class := pairs ≫= (fun x => [x.1; x.2]).

Definition create_pairs (top : Class) (pairs : list (Class * Class)) : list op :=
  map (fun x => ClassPair top x.1 x.2) pairs.

Lemma pairs_crowd top rt pairs s : roomless s -> rt_classes s !! top = Some rt -> c_isMeta rt = false ->
  NoDup (pair_addresses pairs) -> (forall d, d ∈ pair_addresses pairs -> rt_classes s !! d = None) ->
  exists s' rt', run_ops sel_addr pre NSObject (create_pairs top pairs) s = Ret s' /\ roomless s' /\
    rt_classes s' !! top = Some rt' /\ (forall sel, own s' rt' sel = own s rt sel) /\
    unreasonableClassCount pre s' = unreasonableClassCount pre s /\
    (forall d, sub s d top -> sub s' d top) /\ (forall x, x ∈ pairs -> sub s' x.1 top).
Proof.
  revert s rt. induction pairs as [|[cls meta] pairs IH]; intros s rt Hg Ht Hm Hnd Hnew.
  { exists s, rt. split_and!; try done. by intros x ?%not_elem_of_nil. }
  unfold pair_addresses in *. csimpl in Hnd. csimpl in Hnew. apply NoDup_cons in Hnd as [H1 Hnd]. apply NoDup_cons in Hnd as [H2 Hnd].
  rewrite elem_of_cons in H1.
  destruct (classPair_crowd top rt cls meta s Hg Ht Hm) as (s1 & rt1 & Hrun & Hg1 & Ht1 & Hm1 & Ho1 & Hu1 & Hs1 & Hk1 & Hn1);
    [apply Hnew; by left|apply Hnew; right; by left|tauto|].
  destruct (IH s1 rt1 Hg1 Ht1 Hm1 Hnd) as (s' & rt' & Hrun' & Hg' & Ht' & Ho' & Hu' & Hk' & Hs').
  { intros d Hd. apply Hn1; [intros ->; tauto|intros ->; tauto|]. apply Hnew. by do 2 right. }
  exists s', rt'. change (run_ops _ _ _ (create_pairs top ((cls, meta) :: pairs)) s) with
    (let! s1 := objc_initializeClassPair_internal pre (Some top) cls meta s in
     run_ops sel_addr pre NSObject (create_pairs top pairs) s1).
  rewrite Hrun. cbn [obind].
  split_and!; [done|done|done|intros sel; by rewrite Ho'|congruence|auto|].
  intros x [->|Hx]%elem_of_cons; auto.
Qed.

(** Up to the flush, adding a method to a class that has none of the name is harmless. *)
Lemma addMethod_flush top rt name imp types s : roomless s -> rt_classes s !! top = Some rt -> own s rt name = None ->
  (forall k, name ∉ selectors k) ->
  exists s1, same_links s s1 /\ unreasonableClassCount pre s1 = unreasonableClassCount pre s /\
    addMethod sel_addr pre NSObject top name imp types false s =
    let! s := flushCaches pre (Some top) s1 in Ret (nil_imp, s).
Proof using Hinj.
  intros [q Hg] Ht Ho Hsel. set (ml := fixed_up_list [mk_method name types imp]).
  assert (Hun : forall k, methodListImplements sel_addr k ml = Ret false).
  { intros k. destruct (methodListImplements_spec sel_addr k ml (fixed_up_one_searchable sel_addr Hinj _)) as (b & Hb & Hiff).
    destruct b; [|done]. assert (true = false); [|done]. apply Hiff. intros sel Hin. unfold find_method. simpl.
    destruct (String.eqb_spec name sel) as [<-|]; [by destruct (Hsel k)|done]. }
  destruct (getMethodNoSuper_spec sel_addr s top rt name (good_lists _ _ _ _ _ _ Hg) Ht) as (m & Hget & Hm).
  destruct m as [m|]; [destruct Hm as [_ (? & _ & _ & Hm & _)]; congruence|].
  unfold addMethod. rewrite Hget. cbn [obind]. fold ml. unfold install, alloc_mlist.
  set (p := fresh (dom (rt_mlists s))). set (s0 := with_mlists (<[p := ml]> (rt_mlists s)) s).
  assert (Hscan : forall k scan, exists b, scan_custom sel_addr pre k scan top p s0 = Ret (b, s0)).
  { intros k scan. unfold scan_custom, mlist_at. destruct scan; [|by exists false]. simpl. rewrite lookup_insert_eq.
    simpl. rewrite Hun. by exists true. }
  assert (Hfix : fixup_at sel_addr p s0 = Ret s0).
  { unfold fixup_at, mlist_at. simpl. by rewrite lookup_insert_eq. }
  assert (Hprep : prepareMethodLists sel_addr pre top [p] false s0 = Ret s0).
  { unfold prepareMethodLists, class_at. change (rt_classes s0) with (rt_classes s). rewrite Ht.
    cbn [of_option obind prepare_loop]. rewrite Hfix. cbn [obind].
    destruct (Hscan RR (negb (hasCustom RR rt))) as [b1 ->]. cbn [obind].
    destruct (Hscan AWZ (negb (hasCustom AWZ rt))) as [b2 ->]. done. }
  rewrite Hprep. cbn [obind]. rewrite attach_attached by (simpl; eauto). cbn [obind]. exists (attached top [p] s0).
  split; [|split; [done|done]]. etrans; [|apply attached_links]. by split.
Qed.

(** C39. The walk over the classes is bounded by the number of registered classes, but a class is
    linked when its pair is created: from every good state, whatever the system's count, creating
    as many pairs below a class as the bound of the walk says succeeds, and then a flush of
    the caches of that class, or a method added to it under a name it does not have, makes the
    walk give up, which ends the program (a name among the retain, release and alloc methods apart,
    for which a walk starts earlier still). *)
Theorem unregistered_pairs_fatal top rt pairs s : Good pre s -> rt_classes s !! top = Some rt -> c_isMeta rt = false ->
  NoDup (pair_addresses pairs) -> (forall d, d ∈ pair_addresses pairs -> rt_classes s !! d = None) ->
  unreasonableClassCount pre s <= length pairs ->
  exists s', run_ops sel_addr pre NSObject (create_pairs top pairs) s = Ret s' /\
    run_op sel_addr pre NSObject (FlushCaches (Some top)) s' = Fault /\
    forall name imp types, own s rt name = None -> (forall k, name ∉ selectors k) ->
      class_addMethod sel_addr pre NSObject (Some top) name imp types s' = Fault.
Proof using Hinj.
  intros Hg Ht Hm Hnd Hnew Hlen.
  destruct (pairs_crowd top rt pairs s ltac:(by exists pre) Ht Hm Hnd Hnew)
    as (s' & rt' & Hrun & Hg' & Ht' & Ho & Hu & _ & Hsub).
  assert (Hflush : forall s1, same_links s' s1 -> unreasonableClassCount pre s1 = unreasonableClassCount pre s' ->
    flushCaches pre (Some top) s1 = Fault).
  { intros s1 Hl Hu1. destruct Hg' as [q Hg']. apply (flush_gives_up pre s1 top (map fst pairs)).
    - eapply class_tree_links; [exact Hl|]. by eapply good_tree.
    - eapply same_links_dom; [exact Hl|]. eauto.
    - clear -Hnd. induction pairs as [|[c m] pairs IH]; [constructor|]. unfold pair_addresses in Hnd. csimpl in *.
      apply NoDup_cons in Hnd as [H1 Hnd]. apply NoDup_cons in Hnd as [_ Hnd]. constructor; [|by apply IH].
      intros (x & -> & Hx)%list_elem_of_fmap. apply H1. right. apply list_elem_of_bind. exists x. split; [by left|done].
    - intros d (x & -> & Hx)%list_elem_of_fmap. eapply sub_links; [exact Hl|]. by apply Hsub.
    - rewrite length_map. lia. }
  exists s'. split_and!; [done| |].
  - simpl. unfold _objc_flush_caches. by rewrite Hflush.
  - intros name imp types Hname Hsel. unfold class_addMethod.
    destruct (addMethod_flush top rt' name imp (default EmptyString types) s' Hg' Ht' ltac:(by rewrite Ho) Hsel)
      as (s1 & Hl & Hu1 & ->). by rewrite Hflush.
Qed.

End Crowd.

(** C38. A walk over a class and its subclasses ends and visits each of them exactly once, if every
    visit returns and leaves the links alone, and if there are at most half as many classes as the
    bound of the walk, [unreasonableClassCount], says (the last step up from a class counts like a
    visit). *)
Theorem foreach_visits_once pre s top code : class_tree s -> reasonable pre s -> is_Some (rt_classes s !! top) ->
  (forall c s1, same_links s s1 -> is_Some (rt_classes s1 !! c) -> exists s2, code c s1 = Ret s2 /\ same_links s1 s2) ->
  exists l s', NoDup l /\ (forall d, d ∈ l <-> sub s d top) /\ visit_all code l s = Ret s' /\
    foreach_realized_class_and_subclass pre top code s = Ret s'.
Proof.
  intros Ht Hr Htop Hcode.
  destruct (foreach_subclass pre s Ht Hr code (same_links s) (fun _ H => H) (reflexivity s)) with (top := top)
    as (l & s' & H1 & H2 & H3 & _ & H4); [|done|by exists l, s'].
  intros c s1 Hc Hl. destruct (Hcode c s1 Hl) as (s2 & Hrun & Hl2); [by eapply same_links_dom|].
  exists s2. split; [done|by etrans].
Qed.
