(* ===== verification/ClassSamples.v ===== *)
(** * A program that changes classes

    NSObject and its metaclass as they are before the first message, some
    operations on them, and concrete cases of the theorems. *)

From Stdlib Require Import ZArith Lia Bool String.
From stdpp Require Import base list gmap strings.
From S2P Require Import Prelude ObjCData MethodList ClassTree ClassTreeSpec ClassChanges ClassInvariant ClassEffects ClassLookup ClassBits ClassMethodsSpec ClassInstallSpec ClassAddSpec ClassNewSpec ClassInitSpec ClassResults.

Local Open Scope nat_scope.

(** ** NSObject *)

Definition root_methods : list _objc_method :=
  [mk_method "retain" "@16@0:8" "-[NSObject retain]"; mk_method "release" "Vv16@0:8" "-[NSObject release]";
   mk_method "description" "@16@0:8" "-[NSObject description]"].
Definition root_class_methods : list _objc_method :=
  [mk_method "alloc" "@16@0:8" "+[NSObject alloc]"; mk_method "allocWithZone:" "@24@0:8^{_NSZone=}16" "+[NSObject allocWithZone:]"].

Definition image_list (l : list _objc_method) : method_list_t :=
  mk_mlist false (mk_list (sizeof_struct _objc_method_struct) (Z.of_nat (length l)) l).

(** The lists of NSObject are uniqued and sorted; the list of a category is not yet. *)
Definition root_mlists : gmap mlist_ptr method_list_t :=
  {[ 100%Z := fixupMethodList name_number (image_list root_methods) true;
     101%Z := fixupMethodList name_number (image_list root_class_methods) true;
     102%Z := image_list [mk_method "retain" "@16@0:8" "-[NSObject(Debug) retain]"] ]}.

Definition root_class : class_t := mk_class 2 None (Some 2%Z) None false (Some 100%Z) (la_list (Some 100%Z)) ∅ ∅.
Definition root_metaclass : class_t := mk_class 2 (Some 1%Z) None None true (Some 101%Z) (la_list (Some 101%Z)) ∅ ∅.

Definition launched : runtime := mk_runtime {[ 1%Z := root_class; 2%Z := root_metaclass ]} root_mlists (Some 1%Z) 1 false false.

Definition compiled (k : custom) (sel : string) : option IMP :=
  _imp <$> find_method sel (match k with RR => root_methods | AWZ => root_class_methods end).

Lemma launched_at c rc : rt_classes launched !! c = Some rc -> c = 1%Z /\ rc = root_class \/ c = 2%Z /\ rc = root_metaclass.
Proof.
  simpl. rewrite lookup_insert_Some. intros [[<- <-]|[_ H]]; [by left|right]. by apply lookup_singleton_Some in H as [<- <-].
Qed.

Lemma launched_tree : class_tree launched.
Proof.
  exists (fun p => match p with None => [1%Z] | Some 1%Z => [2%Z] | _ => [] end), (fun c => if (c =? 1)%Z then 0 else 1). split.
  - split; [done|]. by exists root_class.
  - intros c rc [[-> ->]|[-> ->]]%launched_at; [|done]. split; [done|]. by exists root_metaclass.
  - intros p d. split.
    + intros Hd. destruct p as [[|[]|]|]; try (by apply not_elem_of_nil in Hd); apply list_elem_of_singleton in Hd as ->; eauto.
    + intros (rd & [[-> ->]|[-> ->]]%launched_at & <-); by apply list_elem_of_singleton.
  - intros [[|[]|]|]; repeat constructor; by intros ?%not_elem_of_nil.
  - intros c rc p [[-> ->]|[-> ->]]%launched_at [= <-]. split; [by exists root_class|]. simpl. lia.
Qed.

Lemma launched_lists : lists_ok name_number launched.
Proof.
  assert (Hs : forall l, (Z.of_nat (length l) < 2 ^ 32)%Z ->
    searchable name_number (fixupMethodList name_number (image_list l) true)).
  { intros l Hl. by apply (fixup_searchable name_number name_number_inj). }
  split.
  - intros c rc p [[-> ->]|[-> ->]]%launched_at ->%list_elem_of_singleton.
    + exists (fixupMethodList name_number (image_list root_methods) true). split; [done|by apply Hs].
    + exists (fixupMethodList name_number (image_list root_class_methods) true). split; [done|by apply Hs].
  - intros c1 c2 rc1 rc2 p [[-> ->]|[-> ->]]%launched_at [[-> ->]|[-> ->]]%launched_at; simpl;
      intros ->%list_elem_of_singleton H%list_elem_of_singleton; done.
Qed.

Lemma launched_isa : isa_ok 1 2 launched.
Proof.
  split.
  - intros c rc [[-> ->]|[-> ->]]%launched_at; by exists root_metaclass.
  - intros c rc rm [[-> ->]|[-> ->]]%launched_at [= <-]; done.
  - by intros c rc [[-> ->]|[-> ->]]%launched_at.
  - exists root_class, root_metaclass. done.
  - intros [] rc [[? ->]|[? ->]]%launched_at; try done; by eexists _, [].
Qed.

Lemma launched_pristine k : pristine 1 2 compiled k launched.
Proof.
  intros rc b Hr Hb sel _. unfold compiled. destruct k; injection Hr as <-; injection Hb as <-; done.
Qed.

Lemma launched_good : good name_number 0 1 2 compiled launched.
Proof.
  assert (Hnone : forall f c rc, rt_classes launched !! c = Some rc -> has_flag f rc = false).
  { intros f c rc [[-> ->]|[-> ->]]%launched_at; by apply bool_decide_false. }
  assert (Hdef : forall k c, ~ default_set k launched c).
  { intros k c (rc & Hc & Hf). by rewrite (Hnone _ _ _ Hc) in Hf. }
  split; [split| |].
  - apply launched_tree.
  - vm_compute. lia.
  - apply launched_lists.
  - apply launched_isa.
  - intros k. split; intros; exfalso; by eapply Hdef.
  - intros c rc Hc Hf. by rewrite (Hnone _ _ _ Hc) in Hf.
  - by intros c rc [[-> ->]|[-> ->]]%launched_at sel i Hi.
  - intros k _ _. apply launched_pristine.
Qed.

(** ** A program *)

(** NSObject is initialized, a subclass is created and initialized, it is sent
    retain, and a category overrides retain for all classes. *)
Definition program : list op :=
  [BeginInitialize 1; EndInitialize 1; ClassPair 1 3 4; BeginInitialize 3; EndInitialize 3; Lookup 3 "retain";
   Categories 1 (Some [Some 102%Z])].

Definition state_after (n : nat) : runtime :=
  match run_ops name_number 0 1 (take n program) launched with Ret s => s | _ => launched end.

Definition state2 : runtime := Eval vm_compute in state_after 2.
Definition state5 : runtime := Eval vm_compute in state_after 5.
Definition state6 : runtime := Eval vm_compute in state_after 6.
Definition state7 : runtime := Eval vm_compute in state_after 7.

Local Abbreviation sample_reaches := (reaches name_number 0 1 launched).

(** One more operation of the program. *)
Lemma reaches_next s o s' : sample_reaches s -> allowed name_number 0 o s -> run_op name_number 0 1 o s = Ret s' ->
  sample_reaches s'.
Proof. apply reaches_step. Qed.

Lemma reaches_state2 : sample_reaches state2.
Proof.
  eapply (reaches_next _ (EndInitialize 1)); [eapply (reaches_next _ (BeginInitialize 1)); [apply reaches_start| |]| |];
    [|vm_compute; reflexivity| |vm_compute; reflexivity].
  - by exists root_class.
  - eexists _, _. split_and!; [vm_compute; reflexivity..|done].
Qed.

Lemma reaches_state5 : sample_reaches state5.
Proof.
  eapply (reaches_next _ (EndInitialize 3)); [eapply (reaches_next _ (BeginInitialize 3));
    [eapply (reaches_next _ (ClassPair 1 3 4)); [exact reaches_state2| |]| |]| |];
    [|vm_compute; reflexivity| |vm_compute; reflexivity| |vm_compute; reflexivity].
  - split_and!; [eexists; split; [vm_compute; reflexivity|done]|done..|vm_compute; lia].
  - eexists. split_and!; [vm_compute; reflexivity..|done].
  - eexists _, _. split_and!; [vm_compute; reflexivity..|done].
Qed.

Lemma reaches_state6 : sample_reaches state6.
Proof.
  eapply (reaches_next _ (Lookup 3 "retain")); [exact reaches_state5| |vm_compute; reflexivity]. eexists. vm_compute. reflexivity.
Qed.

(** The lists of the classes in this state. *)
Lemma state6_lists c rc p : rt_classes state6 !! c = Some rc -> p ∈ lists_of (c_methods rc) -> p ∈ [100%Z; 101%Z].
Proof.
  intros Hc Hp. assert (Hall : Forall (fun x => Forall (fun p => p ∈ [100%Z; 101%Z]) (lists_of (c_methods x.2)))
    (map_to_list (rt_classes state6))) by (apply (bool_decide_eq_true_1 _); vm_compute; reflexivity).
  rewrite Forall_forall in Hall. apply elem_of_map_to_list, Hall in Hc. rewrite Forall_forall in Hc. by apply Hc.
Qed.

Lemma state6_attachable : attachable name_number state6 102.
Proof.
  split.
  - eexists. split; [vm_compute; reflexivity|]. vm_compute. done.
  - intros c (rc & Hc & Hp). apply (state6_lists c rc _ Hc) in Hp. rewrite !elem_of_cons, elem_of_nil in Hp. lia.
Qed.

Lemma reaches_state7 : sample_reaches state7.
Proof.
  eapply (reaches_next _ (Categories 1 (Some [Some 102%Z]))); [exact reaches_state6| |vm_compute; reflexivity]. split.
  - eexists. vm_compute. reflexivity.
  - intros p Hp. apply list_elem_of_singleton in Hp as ->. apply state6_attachable.
Qed.

(** ** Cases of the theorems *)

Lemma class_changes_return_witness : exists s',
  run_op name_number 0 1 (ExchangeImplementations (Some (100%Z, 0)) (Some (100%Z, 1))) state7 = Ret s' /\
  good name_number 0 1 2 compiled s'.
Proof.
  apply (class_changes_return name_number name_number_inj 0 1 2 compiled launched state7
    (ExchangeImplementations (Some (100%Z, 0)) (Some (100%Z, 1))) launched_good reaches_state7).
  split; intros m [= <-]; eexists; vm_compute; reflexivity.
Defined.

(** The answer in the cache before the category was attached is not used after it. *)
Lemma lookup_after_changes_witness : exists r s',
  lookUpImpOrForward name_number 0 None 3 "retain" state7 = Ret (as_imp r, s') /\ answers state7 "retain" (Some 3%Z) r /\
  cache_only state7 s' /\ r = Some "-[NSObject(Debug) retain]"%string.
Proof.
  destruct (lookup_after_changes name_number name_number_inj 0 1 2 compiled launched state7 3 "retain" launched_good reaches_state7)
    as (r & s' & Hrun & Ha & Ho); [eexists; vm_compute; reflexivity|].
  exists r, s'. split_and!; [done..|]. eapply answers_unique; [exact Ha|].
  eapply answers_super; [vm_compute; reflexivity|vm_compute; reflexivity|].
  eapply answers_own; vm_compute; reflexivity.
Defined.

Lemma default_bits_honest_witness : exists s',
  lookUpImpOrForward name_number 0 None 3 "retain" state5 = Ret ("-[NSObject retain]"%string, s').
Proof.
  apply (default_bits_honest name_number name_number_inj 0 1 2 compiled launched state5 RR 3 "retain" _ launched_good reaches_state5).
  - eexists. split; vm_compute; reflexivity.
  - by left.
  - reflexivity.
Defined.

Lemma addMethod_result_witness :
  class_addMethod name_number 0 1 (Some 1%Z) "retain" "f" None launched = Ret (false, launched) /\
  exists s', class_replaceMethod name_number 0 1 (Some 1%Z) "retain" "f" None launched = Ret ("-[NSObject retain]"%string, s') /\
    good name_number 0 1 2 compiled s' /\ installed launched s' 1 "retain" "f".
Proof.
  exact (addMethod_result name_number name_number_inj 0 1 2 compiled 1 root_class "retain" "f" None launched launched_good eq_refl).
Defined.

Lemma bulk_as_one_by_one_witness : exists s1 s2,
  let methods := [mk_method "copy" "" "f"; mk_method "retain" "" "g"] in
  class_addMethodsBulk name_number 0 1 (Some 1%Z) methods launched = Ret (["retain"%string], s1) /\
  add_one_by_one name_number 0 1 1 methods launched = Ret (["retain"%string], s2) /\
  good name_number 0 1 2 compiled s1 /\ good name_number 0 1 2 compiled s2 /\
  forall d sel r, is_Some (rt_classes launched !! d) -> answers s1 sel (Some d) r <-> answers s2 sel (Some d) r.
Proof.
  apply (bulk_as_one_by_one name_number name_number_inj 0 1 2 compiled 1
    [mk_method "copy" "" "f"; mk_method "retain" "" "g"] launched launched_good).
  - by exists root_class.
  - apply (bool_decide_eq_true_1 _). reflexivity.
  - vm_compute. reflexivity.
Defined.

(** Where the two reports differ: the method that is there has no implementation. *)
Example bulk_reports_more :
  let failed {A} (r : outcome (list string * A)) := match r with Ret (l, _) => Some l | _ => None end in
  let s := match class_addMethod name_number 0 1 (Some 1%Z) "copy" nil_imp None launched with Ret (_, s) => s | _ => launched end in
  failed (class_addMethodsBulk name_number 0 1 (Some 1%Z) [mk_method "copy" "" "f"] s) = Some ["copy"%string] /\
  failed (add_one_by_one name_number 0 1 1 [mk_method "copy" "" "f"] s) = Some [].
Proof. split; vm_compute; reflexivity. Qed.

Lemma foreach_visits_once_witness : exists l s',
  NoDup l /\ (forall d, d ∈ l <-> sub launched d 1) /\ visit_all cache_erase_nolock l launched = Ret s' /\
  foreach_realized_class_and_subclass 0 1 cache_erase_nolock launched = Ret s'.
Proof.
  apply (foreach_visits_once 0 launched 1 cache_erase_nolock launched_tree (good_room _ _ _ _ _ _ launched_good)).
  - by exists root_class.
  - intros c s1 _ [rc Hc]. eexists. unfold cache_erase_nolock. split; [by apply update_at|].
    by apply (update_links c (set_cache ∅)); [|apply update_at].
Defined.

(** ** The bound of the walk *)

Definition nth_pair (i : nat) : op := ClassPair 1 (Z.of_nat (2 * i + 3)) (Z.of_nat (2 * i + 4)).

(** Class pairs that are created and not registered, and the same with the registration. *)
Definition unregistered (n : nat) : list op := map nth_pair (seq 0 n).
Definition registered (n : nat) : list op := seq 0 n ≫= (fun i => [nth_pair i; Register]).

Definition add_to_root (s : runtime) : outcome bool :=
  let! (added, _) := class_addMethod name_number 0 1 (Some 1%Z) "copy" "f" None s in Ret added.

(** With one named class, a method can be added to NSObject after 13 unregistered
    pairs; 14 are already too many, since the way up counts too.  With registered
    pairs there is room again. *)
Example fourteen_unregistered_pairs :
  (let! s := run_ops name_number 0 1 (unregistered 13) launched in add_to_root s) = Ret true /\
  (exists s, run_ops name_number 0 1 (unregistered 14) launched = Ret s /\ add_to_root s = Fault) /\
  (let! s := run_ops name_number 0 1 (registered 14) launched in add_to_root s) = Ret true.
Proof.
  split_and!; [vm_compute; reflexivity| |vm_compute; reflexivity].
  exists (match run_ops name_number 0 1 (unregistered 14) launched with Ret s => s | _ => launched end).
  split; vm_compute; reflexivity.
Qed.

Definition sample_pairs : list (Class * Class) :=
  map (fun i => (Z.of_nat (2 * i + 3), Z.of_nat (2 * i + 4))) (seq 0 32).

Lemma unregistered_pairs_fatal_witness : exists s',
  run_ops name_number 0 1 (create_pairs 1 sample_pairs) launched = Ret s' /\
  run_op name_number 0 1 (FlushCaches (Some 1%Z)) s' = Fault /\
  class_addMethod name_number 0 1 (Some 1%Z) "copy" "f" None s' = Fault.
Proof.
  destruct (unregistered_pairs_fatal name_number name_number_inj 0 1 2 compiled 1 root_class sample_pairs launched launched_good)
    as (s' & Hrun & Hflush & Hadd).
  - reflexivity.
  - reflexivity.
  - apply (bool_decide_eq_true_1 _). vm_compute. reflexivity.
  - apply Forall_forall, (bool_decide_eq_true_1 _). vm_compute. reflexivity.
  - vm_compute. lia.
  - exists s'. split_and!; [exact Hrun|exact Hflush|]. apply Hadd; [vm_compute; reflexivity|].
    intros []; apply (bool_decide_eq_true_1 _); vm_compute; reflexivity.
Defined.
