(* ===== verification/AssociatedObjects.v ===== *)
(** * Associated objects and their retain counts

    The removal of the associations of an object (objc-references.mm), and what
    getting, setting and removing of associations amounts to: a table of values,
    in which every value that is held for a retaining policy was retained once
    more than it was released. *)

From Stdlib Require Import ZArith Lia Bool String.
From stdpp Require Import base list gmap strings.
From S2P Require Import Prelude ObjCData ObjCImagesSpec MethodList ObjCRuntime.

Local Open Scope Z_scope.
Local Open Scope objc_scope.

(** ** Removal *)





(** ** Sums over finite maps *)






(** ** Counts *)











(** ** The operations *)









(** On a plain table. *)
Abbreviation assoc_table := (gmap (positive * string) val).








Section Operations.
Context (snd : senders).




End Operations.

(** ** Sequences of operations *)





(** ** A case *)



