(* ===== verification/LoadMethods.v ===== *)
(** * Calling +load

    The +load methods of the classes and categories of an image are called when
    the image is mapped (objc-loadmethod.mm, and [load_images],
    [prepare_load_methods] and [_unload_image] of objc-runtime-new.mm).  A +load
    method can map further images, for which the runtime is then entered again:
    the two lists of waiting classes and categories are detached while they are
    gone through, and only the outermost call works them off.  Here: the lists
    and the operations.  The lists have fewer than 2^30 entries, so that their
    sizes do not overflow.  The autorelease pool around the calls is left out. *)

From Stdlib Require Import ZArith Lia Bool String.
From stdpp Require Import base list gmap strings.
From S2P Require Import Prelude ObjCData MethodList.

Local Open Scope nat_scope.

Abbreviation load_class := Z.
Abbreviation load_category := Z.
Abbreviation load_image := Z.

(** What a +load method does to images, by way of dlopen and dlclose. *)
Inductive action :=
| Open (img : load_image)
| Close (img : load_image).

(** ** What the images hold

    [lm_order] gives the images that are mapped with an image, those it depends
    on first; dyld tells the runtime of each of them once. *)
Record load_images_data := mk_load_images_data {
  lm_superclass : load_class -> option load_class;
  lm_classMethods : load_class -> list _objc_method;
  lm_categoryClass : load_category -> option load_class;
  lm_categoryMethods : load_category -> list _objc_method;
  lm_isSwiftStable : load_class -> bool;
  lm_classList : load_image -> list load_class;
  lm_nonlazyClassList : load_image -> list (option load_class);
  lm_categoryList : load_image -> list load_category;
  lm_nonlazyCategoryList : load_image -> list load_category;
  lm_body : string -> list action;
  lm_order : load_image -> list load_image }.

(** ** State *)

(** An entry of a list: the class or category, which may be nil, and the method. *)
Abbreviation loadable := (option Z * string)%type.

Inductive load_call :=
| ClassLoad (cls : load_class) (method : string)
| CategoryLoad (cat : load_category) (cls : load_class) (method : string).

(** The variables of objc-loadmethod.mm, where [.._used] is the length of the
    list, the classes with the bit RW_LOADED, the images that are mapped, and the
    calls so far. *)
Record loads := mk_loads {
  loadable_classes : list loadable;
  loadable_classes_allocated : nat;
  loadable_categories : list loadable;
  loadable_categories_allocated : nat;
  loading : bool;
  RW_LOADED : gset load_class;
  mapped : list load_image;
  calls : list load_call }.

Definition set_loadable_classes (l : list loadable) (n : nat) (s : loads) : loads :=
  mk_loads l n (loadable_categories s) (loadable_categories_allocated s) (loading s) (RW_LOADED s) (mapped s) (calls s).
Definition set_loadable_categories (l : list loadable) (n : nat) (s : loads) : loads :=
  mk_loads (loadable_classes s) (loadable_classes_allocated s) l n (loading s) (RW_LOADED s) (mapped s) (calls s).
Definition set_loading (b : bool) (s : loads) : loads :=
  mk_loads (loadable_classes s) (loadable_classes_allocated s) (loadable_categories s) (loadable_categories_allocated s) b
    (RW_LOADED s) (mapped s) (calls s).
Definition set_loaded (m : gset load_class) (s : loads) : loads :=
  mk_loads (loadable_classes s) (loadable_classes_allocated s) (loadable_categories s) (loadable_categories_allocated s)
    (loading s) m (mapped s) (calls s).
Definition set_mapped (m : list load_image) (s : loads) : loads :=
  mk_loads (loadable_classes s) (loadable_classes_allocated s) (loadable_categories s) (loadable_categories_allocated s)
    (loading s) (RW_LOADED s) m (calls s).
Definition log_call (c : load_call) (s : loads) : loads :=
  mk_loads (loadable_classes s) (loadable_classes_allocated s) (loadable_categories s) (loadable_categories_allocated s)
    (loading s) (RW_LOADED s) (mapped s) (calls s ++ [c]).

(** ** The lists *)

(** An entry is written behind the others; the array grows when it is full.  A
    write past its end is a fault. *)
Definition append_loadable (x : Z) (method : string) (l : list loadable) (allocated : nat) : outcome (list loadable * nat) :=
  let allocated := if length l =? allocated then allocated * 2 + 16 else allocated in
  if length l <? allocated then Ret (l ++ [(Some x, method)], allocated) else Fault.

(** The first entry of [x] is set to nil. *)
Fixpoint remove_loadable (x : Z) (l : list loadable) : list loadable :=
  match l with
  | [] => []
  | (y, method) :: l' => if decide (y = Some x) then (None, method) :: l' else (y, method) :: remove_loadable x l'
  end.

Section Loads.
Context (P : load_images_data).

(** The method named load in a list of methods; no method is the empty name. *)
Definition find_load (methods : list _objc_method) : string := default EmptyString (_imp <$> find_method "load" methods).

Definition getLoadMethod (cls : load_class) : string := find_load (lm_classMethods P cls).
Definition _category_getLoadMethod (cat : load_category) : string := find_load (lm_categoryMethods P cat).

Definition add_class_to_loadable_list (cls : load_class) (s : loads) : outcome loads :=
  let method := getLoadMethod cls in
  if decide (method = EmptyString) then Ret s else
  let! (l, n) := append_loadable cls method (loadable_classes s) (loadable_classes_allocated s) in
  Ret (set_loadable_classes l n s).

Definition add_category_to_loadable_list (cat : load_category) (s : loads) : outcome loads :=
  let method := _category_getLoadMethod cat in
  if decide (method = EmptyString) then Ret s else
  let! (l, n) := append_loadable cat method (loadable_categories s) (loadable_categories_allocated s) in
  Ret (set_loadable_categories l n s).

Definition remove_class_from_loadable_list (cls : load_class) (s : loads) : loads :=
  set_loadable_classes (remove_loadable cls (loadable_classes s)) (loadable_classes_allocated s) s.

Definition remove_category_from_loadable_list (cat : load_category) (s : loads) : loads :=
  set_loadable_categories (remove_loadable cat (loadable_categories s)) (loadable_categories_allocated s) s.

(** ** Discovery *)

(** [k] is more than the length of the chain of superclasses. *)
Fixpoint schedule_class_load (k : nat) (cls : option load_class) (s : loads) : outcome loads :=
  match cls with
  | None => Ret s
  | Some cls =>
      match k with
      | O => OutOfFuel
      | S k' =>
          if decide (cls ∈ RW_LOADED s) then Ret s else
          let! s := schedule_class_load k' (lm_superclass P cls) s in
          let! s := add_class_to_loadable_list cls s in
          Ret (set_loaded ({[cls]} ∪ RW_LOADED s) s)
      end
  end.

Fixpoint schedule_classes (k : nat) (classlist : list (option load_class)) (s : loads) : outcome loads :=
  match classlist with
  | [] => Ret s
  | cls :: classlist' => let! s := schedule_class_load k cls s in schedule_classes k classlist' s
  end.

Fixpoint schedule_categories (categorylist : list load_category) (s : loads) : outcome loads :=
  match categorylist with
  | [] => Ret s
  | cat :: categorylist' =>
      match lm_categoryClass P cat with
      | None => schedule_categories categorylist' s
      | Some cls =>
          if lm_isSwiftStable P cls then Fault else
          let! s := add_category_to_loadable_list cat s in schedule_categories categorylist' s
      end
  end.

Definition prepare_load_methods (k : nat) (img : load_image) (s : loads) : outcome loads :=
  let! s := schedule_classes k (lm_nonlazyClassList P img) s in schedule_categories (lm_nonlazyCategoryList P img) s.

Definition hasLoadMethods (img : load_image) : bool :=
  negb (length (lm_nonlazyClassList P img) =? 0) || negb (length (lm_nonlazyCategoryList P img) =? 0).

(** The classes of an image that is unmapped are freed, with their bits.  The other
    lists that know of the classes and categories are not part of this model. *)
Definition _unload_image (img : load_image) (s : loads) : loads :=
  let s := foldl (fun s cat => remove_category_from_loadable_list cat s) s (lm_categoryList P img) in
  let classes : gset load_class := list_to_set (lm_classList P img ++ omap id (lm_nonlazyClassList P img)) in
  let s := foldl (fun s cls => remove_class_from_loadable_list cls s) s (elements classes) in
  set_loaded (RW_LOADED s ∖ classes) s.

(** ** The calls

    [again] stands for the call of [call_load_methods] from within a +load. *)
Section Calls.
Context (k : nat) (again : loads -> outcome loads).

Definition load_images_with (img : load_image) (s : loads) : outcome loads :=
  if negb (hasLoadMethods img) then Ret s else
  let! s := prepare_load_methods k img s in again s.

(** dyld maps what is not mapped yet, and tells the runtime of each image. *)
Fixpoint map_each (imgs : list load_image) (s : loads) : outcome loads :=
  match imgs with
  | [] => Ret s
  | img :: imgs' =>
      if decide (img ∈ mapped s) then map_each imgs' s else
      let! s := load_images_with img (set_mapped (mapped s ++ [img]) s) in map_each imgs' s
  end.

Definition perform (a : action) (s : loads) : outcome loads :=
  match a with
  | Open img => map_each (lm_order P img) s
  | Close img =>
      if decide (img ∈ mapped s) then Ret (_unload_image img (set_mapped (List.filter (fun i => negb (i =? img)%Z) (mapped s)) s))
      else Ret s
  end.

Fixpoint perform_all (l : list action) (s : loads) : outcome loads :=
  match l with [] => Ret s | a :: l' => let! s := perform a s in perform_all l' s end.

(** [( *load_method)(cls, SEL_load)] *)
Definition call_load (c : load_call) (method : string) (s : loads) : outcome loads :=
  perform_all (lm_body P method) (log_call c s).

Fixpoint call_classes (classes : list loadable) (s : loads) : outcome loads :=
  match classes with
  | [] => Ret s
  | (None, _) :: classes' => call_classes classes' s
  | (Some cls, method) :: classes' => let! s := call_load (ClassLoad cls method) method s in call_classes classes' s
  end.

Definition call_class_loads (s : loads) : outcome loads :=
  let classes := loadable_classes s in call_classes classes (set_loadable_classes [] 0 s).

(** The detached list, in which the categories that were called are nil.  A
    category without a class is a fault. *)
Fixpoint call_categories (cats : list loadable) (s : loads) : outcome (list loadable * loads) :=
  match cats with
  | [] => Ret ([], s)
  | (None, method) :: cats' => let! (l, s) := call_categories cats' s in Ret ((None, method) :: l, s)
  | (Some cat, method) :: cats' =>
      let! cls := of_option (lm_categoryClass P cat) in
      let! s := call_load (CategoryLoad cat cls method) method s in
      let! (l, s) := call_categories cats' s in Ret ((None, method) :: l, s)
  end.

(** Copying the new candidates behind those that are left. *)
Fixpoint copy_loadable (new cats : list loadable) (allocated : nat) : outcome (list loadable * nat) :=
  match new with
  | [] => Ret (cats, allocated)
  | e :: new' =>
      let allocated := if length cats =? allocated then allocated * 2 + 16 else allocated in
      if length cats <? allocated then copy_loadable new' (cats ++ [e]) allocated else Fault
  end.

Definition call_category_loads (s : loads) : outcome (bool * loads) :=
  let cats := loadable_categories s in
  let allocated := loadable_categories_allocated s in
  let! (cats, s) := call_categories cats (set_loadable_categories [] 0 s) in
  let cats := List.filter (fun e => bool_decide (e.1 <> None)) cats in
  let new_categories_added := negb (length (loadable_categories s) =? 0) in
  let! (cats, allocated) := copy_loadable (loadable_categories s) cats allocated in
  Ret (new_categories_added,
       match cats with [] => set_loadable_categories [] 0 s | _ => set_loadable_categories cats allocated s end).

(** The two loops of [call_load_methods]; [n] is the number of rounds. *)
Fixpoint class_rounds (n : nat) (s : loads) : outcome loads :=
  match n with
  | O => OutOfFuel
  | S n' => if length (loadable_classes s) =? 0 then Ret s else let! s := call_class_loads s in class_rounds n' s
  end.

Fixpoint load_rounds (n : nat) (s : loads) : outcome loads :=
  match n with
  | O => OutOfFuel
  | S n' =>
      let! s := class_rounds n s in
      let! (more_categories, s) := call_category_loads s in
      if negb (length (loadable_classes s) =? 0) || more_categories then load_rounds n' s else Ret s
  end.

End Calls.

(** [depth] bounds how often the runtime is entered from a +load. *)
Fixpoint call_load_methods (depth k n : nat) (s : loads) : outcome loads :=
  match depth with
  | O => OutOfFuel
  | S depth' =>
      if loading s then Ret s else
      let! s := load_rounds k (call_load_methods depth' k n) n (set_loading true s) in
      Ret (set_loading false s)
  end.

Definition load_images (depth k n : nat) : load_image -> loads -> outcome loads :=
  load_images_with k (call_load_methods depth k n).

(** An image is opened by the program. *)
Definition dlopen (depth k n : nat) (img : load_image) : loads -> outcome loads :=
  map_each k (call_load_methods depth k n) (lm_order P img).

End Loads.

Definition no_loads : loads := mk_loads [] 0 [] 0 false ∅ [] [].
