(* ===== verification/LoadMethodsSpec.v ===== *)
(** * The order of the +load methods

    However the +load methods map further images, every one is called once, that
    of a class after those of its superclasses, and that of a category after that
    of its class.  The proof looks at the classes that were called, followed by
    those that wait in the detached and in the new list: this sequence only grows
    at its end. *)

From Stdlib Require Import ZArith Lia Bool String.
From stdpp Require Import base list gmap strings.
From S2P Require Import Prelude ObjCData MethodList LoadMethods.

Local Open Scope nat_scope.

(** ** The calls of classes and of categories *)

Definition class_calls (l : list load_call) : list load_class :=
  omap (fun c => match c with ClassLoad cls _ => Some cls | CategoryLoad _ _ _ => None end) l.
Definition cat_calls (l : list load_call) : list load_category :=
  omap (fun c => match c with ClassLoad _ _ => None | CategoryLoad cat _ _ => Some cat end) l.

Lemma class_calls_app l1 l2 : class_calls (l1 ++ l2) = class_calls l1 ++ class_calls l2.
Proof. apply omap_app. Qed.

Lemma cat_calls_app l1 l2 : cat_calls (l1 ++ l2) = cat_calls l1 ++ cat_calls l2.
Proof. apply omap_app. Qed.

(** The classes or categories of a list that are not nil. *)
Definition names (l : list loadable) : list Z := omap fst l.

Section Order.
Context (P : load_images_data).

Definition has_load (c : load_class) : Prop := getLoadMethod P c <> EmptyString.

(** The categories of an image that have a class and a +load method. *)
Definition wanted (cat : load_category) : bool :=
  bool_decide (lm_categoryClass P cat <> None) && bool_decide (_category_getLoadMethod P cat <> EmptyString).
Definition cats_of (img : load_image) : list load_category := List.filter wanted (lm_nonlazyCategoryList P img).

(** [above p c]: [p] is a superclass of [c]. *)
Inductive above (p : load_class) : load_class -> Prop :=
| above_one c : lm_superclass P c = Some p -> above p c
| above_up c q : lm_superclass P c = Some q -> above p q -> above p c.

Definition superclass_first (l : list load_class) : Prop :=
  forall l1 c l2 p, l = l1 ++ c :: l2 -> above p c -> has_load p -> p ∈ l1.

Definition class_first (l : list load_call) : Prop :=
  forall l1 cat cls m l2, l = l1 ++ CategoryLoad cat cls m :: l2 -> has_load cls -> cls ∈ class_calls l1.

Lemma snoc_split {A} (l : list A) x l1 y l2 : l ++ [x] = l1 ++ y :: l2 ->
  (l1 = l /\ y = x /\ l2 = []) \/ exists l2', l2 = l2' ++ [x] /\ l = l1 ++ y :: l2'.
Proof.
  intros He. destruct l2 as [|z l2 _] using rev_ind.
  - apply app_inj_tail in He as [<- <-]. auto.
  - right. exists l2. change (y :: l2 ++ [z]) with ((y :: l2) ++ [z]) in He. rewrite app_assoc in He.
    apply app_inj_tail in He as [-> ->]. auto.
Qed.

Lemma superclass_first_snoc l c : superclass_first l -> (forall p, above p c -> has_load p -> p ∈ l) -> superclass_first (l ++ [c]).
Proof. intros H1 H2 l1 d l2 p [(-> & -> & ->)|(l2' & -> & He)]%snoc_split; [apply H2|by eapply H1]. Qed.

Lemma superclass_first_app l1 l2 : superclass_first (l1 ++ l2) -> superclass_first l1.
Proof. intros H a c b p -> . apply (H a c (b ++ l2)). by rewrite <- app_assoc. Qed.

Lemma class_first_class l c m : class_first l -> class_first (l ++ [ClassLoad c m]).
Proof. intros H l1 cat cls m' l2 [(_ & ? & _)|(l2' & -> & He)]%snoc_split; [done|by eapply H]. Qed.

Lemma class_first_category l cat cls m : class_first l -> (has_load cls -> cls ∈ class_calls l) ->
  class_first (l ++ [CategoryLoad cat cls m]).
Proof. intros H H2 l1 cat' cls' m' l2 [(-> & [= -> -> ->] & _)|(l2' & -> & He)]%snoc_split; [done|by eapply H]. Qed.

(** ** The images *)

Record images_ok (depth : load_class -> nat) (k : nat) (universe : list load_image) : Prop := mk_images_ok {
  (** the chains of superclasses end *)
  w_depth : forall c p, lm_superclass P c = Some p -> depth p < depth c;
  w_bound : forall img c, Some c ∈ lm_nonlazyClassList P img -> depth c < k;
  (** no category of a Swift class has a +load, and every category is listed once *)
  w_swift : forall img cat c, cat ∈ lm_nonlazyCategoryList P img -> lm_categoryClass P cat = Some c -> lm_isSwiftStable P c = false;
  w_cats : forall img, NoDup (lm_nonlazyCategoryList P img);
  w_disjoint : forall i j cat, cat ∈ lm_nonlazyCategoryList P i -> cat ∈ lm_nonlazyCategoryList P j -> i = j;
  (** +load methods only open images, and there are finitely many images *)
  w_body : forall m a, a ∈ lm_body P m -> exists img, a = Open img /\ img ∈ universe;
  w_order : forall i j, i ∈ universe -> j ∈ lm_order P i -> j ∈ universe;
  (** the class of a category is in the same image or in one mapped before it *)
  w_parents : forall i l1 j l2 cat c, i ∈ universe -> lm_order P i = l1 ++ j :: l2 -> cat ∈ lm_nonlazyCategoryList P j ->
    lm_categoryClass P cat = Some c -> has_load c -> exists j', j' ∈ l1 ++ [j] /\ Some c ∈ lm_nonlazyClassList P j' }.

Context (depth : load_class -> nat) (k : nat) (universe : list load_image) (HP : images_ok depth k universe).

(** ** The invariant

    [M] are the images whose methods were discovered, [D] and [DC] the classes and
    categories of the detached lists that are not called yet, [E] categories of an
    image that is being discovered. *)

Definition class_order (D : list load_class) (s : loads) : list load_class :=
  class_calls (calls s) ++ D ++ names (loadable_classes s).
Definition cat_order (DC : list load_category) (s : loads) : list load_category :=
  cat_calls (calls s) ++ DC ++ names (loadable_categories s).

Definition class_entry (c : load_class) : loadable := (Some c, getLoadMethod P c).
Definition cat_entry (c : load_category) : loadable := (Some c, _category_getLoadMethod P c).

Definition call_ok (c : load_call) : Prop :=
  match c with
  | ClassLoad cls m => m = getLoadMethod P cls
  | CategoryLoad cat cls m => m = _category_getLoadMethod P cat /\ lm_categoryClass P cat = Some cls
  end.

Record inv (M : list load_image) (D : list load_class) (DC E : list load_category) (s : loads) : Prop := mk_inv {
  v_centries : loadable_classes s = map class_entry (names (loadable_classes s));
  v_kentries : loadable_categories s = map cat_entry (names (loadable_categories s));
  v_croom : length (loadable_classes s) <= loadable_classes_allocated s;
  v_kroom : length (loadable_categories s) <= loadable_categories_allocated s;
  v_nodup : NoDup (class_order D s);
  v_set : forall c, c ∈ class_order D s <-> c ∈ RW_LOADED s /\ has_load c;
  v_first : superclass_first (class_order D s);
  v_closed : forall c p, c ∈ RW_LOADED s -> lm_superclass P c = Some p -> p ∈ RW_LOADED s;
  v_cats : cat_order DC s = (M ≫= cats_of) ++ E;
  v_parents : forall cat c, cat ∈ DC ++ names (loadable_categories s) -> lm_categoryClass P cat = Some c ->
    has_load c -> c ∈ class_order D s;
  v_ready : forall cat c, cat ∈ DC -> lm_categoryClass P cat = Some c -> has_load c -> c ∈ class_calls (calls s);
  v_log : class_first (calls s);
  v_calls : Forall call_ok (calls s);
  v_classes : forall img c, img ∈ M -> Some c ∈ lm_nonlazyClassList P img -> c ∈ RW_LOADED s;
  v_mapped : NoDup M /\ forall img, img ∈ M -> img ∈ universe }.

Lemma above_loaded (L : gset load_class) p c : (forall c p, c ∈ L -> lm_superclass P c = Some p -> p ∈ L) -> above p c ->
  (forall q, lm_superclass P c = Some q -> q ∈ L) -> p ∈ L.
Proof.
  intros Hcl Ha. induction Ha as [c Hs|c q Hs Ha IH]; intros Hq; [by apply Hq|]. apply IH. intros q' Hq'. eapply Hcl; [|done]. by apply Hq.
Qed.

Lemma append_loadable_spec x m l n : length l <= n ->
  exists n', append_loadable x m l n = Ret (l ++ [(Some x, m)], n') /\ length (l ++ [(Some x, m)]) <= n'.
Proof.
  intros Hl. unfold append_loadable. rewrite length_app. simpl. destruct (Nat.eqb_spec (length l) n) as [->|Hn].
  - rewrite (proj2 (Nat.ltb_lt _ _)) by lia. eexists. split; [done|lia].
  - rewrite (proj2 (Nat.ltb_lt _ _)) by lia. eexists. split; [done|lia].
Qed.

Lemma names_snoc l x m : names (l ++ [(Some x, m)]) = names l ++ [x].
Proof. unfold names. by rewrite omap_app. Qed.

(** What discovery leaves alone. *)
Definition discovers (s s' : loads) : Prop :=
  mapped s' = mapped s /\ loading s' = loading s /\ calls s' = calls s /\ RW_LOADED s ⊆ RW_LOADED s'.

#[local] Instance discovers_preorder : PreOrder discovers.
Proof.
  split; [by intros s|]. intros s1 s2 s3 (H1 & H2 & H3 & H4) (I1 & I2 & I3 & I4). split_and!; [congruence..|]. by etrans.
Qed.

(** ** Discovery *)

(** A class whose superclass is loaded. *)
Lemma add_class_spec M D DC E c s : inv M D DC E s -> c ∉ RW_LOADED s ->
  (forall p, lm_superclass P c = Some p -> p ∈ RW_LOADED s) ->
  exists s', (let! s := add_class_to_loadable_list P c s in Ret (set_loaded ({[c]} ∪ RW_LOADED s) s)) = Ret s' /\
    inv M D DC E s' /\ discovers s s' /\ RW_LOADED s' = {[c]} ∪ RW_LOADED s.
Proof.
  intros Hi Hc Hsup. unfold add_class_to_loadable_list.
  assert (Hcl : forall d p, d ∈ ({[c]} ∪ RW_LOADED s : gset Z) -> lm_superclass P d = Some p -> p ∈ ({[c]} ∪ RW_LOADED s : gset Z)).
  { intros d p [->%elem_of_singleton|Hd]%elem_of_union Hp; apply elem_of_union_r; [auto|]. by eapply (v_closed _ _ _ _ _ Hi). }
  assert (Hsub : RW_LOADED s ⊆ {[c]} ∪ RW_LOADED s) by apply union_subseteq_r.
  destruct (decide (getLoadMethod P c = EmptyString)) as [He|He]; cbn [obind].
  - eexists. split; [done|]. split_and!; [|split_and!; done|done]. destruct Hi. split; try done.
    + intros d. change (class_order D (set_loaded _ s)) with (class_order D s). rewrite v_set0. simpl.
      rewrite elem_of_union, elem_of_singleton. unfold has_load. split; [tauto|]. intros [[-> |?] ?]; [done|tauto].
    + intros img d Hm Hin. simpl. apply elem_of_union_r. by eapply v_classes0.
  - destruct (append_loadable_spec c (getLoadMethod P c) (loadable_classes s) (loadable_classes_allocated s) (v_croom _ _ _ _ _ Hi))
      as (n' & -> & Hn). cbn [obind]. eexists. split; [done|]. split_and!; [|split_and!; done|done].
    assert (Ho : forall L, class_order D (set_loaded L (set_loadable_classes (loadable_classes s ++ [(Some c, getLoadMethod P c)]) n' s)) =
      class_order D s ++ [c]).
    { intros L. unfold class_order. simpl. rewrite names_snoc. by rewrite !app_assoc. }
    destruct Hi. split; try done; rewrite ?Ho.
    + simpl. rewrite names_snoc, map_app. by rewrite <- v_centries0.
    + apply NoDup_app. split_and!; [done| |apply NoDup_singleton]. intros d Hd ->%list_elem_of_singleton. by apply v_set0 in Hd as [? _].
    + intros d. rewrite elem_of_app, v_set0, list_elem_of_singleton. simpl. rewrite elem_of_union, elem_of_singleton.
      split; [|tauto]. intros [?| ->]; [tauto|]. split; [by left|done].
    + apply superclass_first_snoc; [done|]. intros p Ha Hl. apply v_set0. split; [|done].
      by apply (above_loaded (RW_LOADED s) p c).
    + intros cat d Hin Hp Hl. apply elem_of_app. left. by eapply v_parents0.
    + intros img d Hm Hin. simpl. apply elem_of_union_r. by eapply v_classes0.
Qed.

Lemma schedule_spec n : forall cls M D DC E s, inv M D DC E s -> (forall c, cls = Some c -> depth c < n) ->
  exists s', schedule_class_load P n cls s = Ret s' /\ inv M D DC E s' /\ discovers s s' /\
    (forall c, cls = Some c -> c ∈ RW_LOADED s' /\ forall d, d ∈ RW_LOADED s' -> d ∈ RW_LOADED s \/ depth d <= depth c) /\
    (cls = None -> s' = s).
Proof using HP.
  induction n as [|n IH]; intros [c|] M D DC E s Hi Hd; try (exists s; split_and!; [done..|reflexivity|done|done]).
  { specialize (Hd c eq_refl). lia. }
  specialize (Hd c eq_refl). cbn [schedule_class_load]. destruct (decide (c ∈ RW_LOADED s)) as [Hc|Hc].
  { exists s. split_and!; [done..|reflexivity| |done]. intros d [= <-]. split; [done|]. intros e He. by left. }
  destruct (IH (lm_superclass P c) M D DC E s Hi) as (s1 & Hrun & Hi1 & Hd1 & Hs1 & Hn1).
  { intros p Hp. pose proof (w_depth _ _ _ HP _ _ Hp). lia. }
  assert (Hc1 : c ∉ RW_LOADED s1).
  { destruct (lm_superclass P c) as [p|] eqn:Ep; [|by rewrite (Hn1 eq_refl)]. destruct (Hs1 p eq_refl) as [_ Hb].
    intros [?|Hle]%Hb; [done|]. pose proof (w_depth _ _ _ HP _ _ Ep). lia. }
  rewrite Hrun. cbn [obind].
  destruct (add_class_spec M D DC E c s1 Hi1 Hc1) as (s2 & Hrun2 & Hi2 & Hd2 & HL).
  { intros p Hp. by apply Hs1. }
  exists s2. rewrite Hrun2. split_and!; [done|done|by etrans| |done]. intros d [= <-]. rewrite HL.
  split; [by apply elem_of_union_l, elem_of_singleton|]. intros e [->%elem_of_singleton|He]%elem_of_union; [by right|].
  destruct (lm_superclass P c) as [p|] eqn:Ep; [|left; by rewrite <- (Hn1 eq_refl)].
  destruct (Hs1 p eq_refl) as [_ Hb]. destruct (Hb e He) as [?|Hle]; [by left|right]. pose proof (w_depth _ _ _ HP _ _ Ep). lia.
Qed.

Lemma schedule_classes_spec l M D DC E s : inv M D DC E s -> (forall c, Some c ∈ l -> depth c < k) ->
  exists s', schedule_classes P k l s = Ret s' /\ inv M D DC E s' /\ discovers s s' /\ (forall c, Some c ∈ l -> c ∈ RW_LOADED s').
Proof using HP.
  revert s. induction l as [|cls l IH]; intros s Hi Hd.
  { exists s. split_and!; [done..|]. by intros c ?%not_elem_of_nil. }
  cbn [schedule_classes]. destruct (schedule_spec k cls M D DC E s Hi) as (s1 & -> & Hi1 & Hd1 & Hs1 & _).
  { intros c ->. apply Hd. by left. }
  cbn [obind]. destruct (IH s1 Hi1) as (s2 & -> & Hi2 & Hd2 & Hs2); [intros c Hc; apply Hd; by right|].
  exists s2. split_and!; [done|done|by etrans|]. intros c [He|Hc]%elem_of_cons; [|by apply Hs2].
  destruct Hd2 as (_ & _ & _ & Hd2). apply Hd2. by apply Hs1.
Qed.

Lemma add_category_spec M D DC E cat c s : inv M D DC E s -> lm_categoryClass P cat = Some c ->
  (has_load c -> c ∈ RW_LOADED s) ->
  exists s', add_category_to_loadable_list P cat s = Ret s' /\ inv M D DC (E ++ List.filter wanted [cat]) s' /\ discovers s s'.
Proof.
  intros Hi Hc Hl. unfold add_category_to_loadable_list. simpl. unfold wanted at 1. rewrite Hc.
  rewrite (bool_decide_true (Some c <> None)) by done. cbn [andb].
  destruct (decide (_category_getLoadMethod P cat = EmptyString)) as [He|He].
  - rewrite bool_decide_false by tauto. rewrite app_nil_r. by exists s.
  - rewrite bool_decide_true by done.
    destruct (append_loadable_spec cat (_category_getLoadMethod P cat) (loadable_categories s) (loadable_categories_allocated s)
      (v_kroom _ _ _ _ _ Hi)) as (n' & -> & Hn). cbn [obind]. eexists. split; [done|]. split; [|done].
    destruct Hi. split; try done; simpl; rewrite ?names_snoc.
    + rewrite map_app. by rewrite <- v_kentries0.
    + unfold cat_order in *. simpl. rewrite names_snoc, !app_assoc. f_equal. by rewrite <- app_assoc.
    + intros cat' c' [Hin|[Hin| ->%list_elem_of_singleton]%elem_of_app]%elem_of_app Hp Hl'.
      * apply (v_parents0 cat'); [|done..]. apply elem_of_app. by left.
      * apply (v_parents0 cat'); [|done..]. apply elem_of_app. by right.
      * assert (c' = c) as -> by congruence. apply v_set0. auto.
Qed.

Lemma schedule_categories_spec l M D DC E s : inv M D DC E s ->
  (forall cat c, cat ∈ l -> lm_categoryClass P cat = Some c -> lm_isSwiftStable P c = false) ->
  (forall cat c, cat ∈ l -> lm_categoryClass P cat = Some c -> has_load c -> c ∈ RW_LOADED s) ->
  exists s', schedule_categories P l s = Ret s' /\ inv M D DC (E ++ List.filter wanted l) s' /\ discovers s s'.
Proof.
  revert E s. induction l as [|cat l IH]; intros E s Hi Hsw Hl.
  { exists s. simpl. by rewrite app_nil_r. }
  cbn [schedule_categories]. change (cat :: l) with ([cat] ++ l). rewrite List.filter_app.
  destruct (lm_categoryClass P cat) as [c|] eqn:Ec.
  - rewrite (Hsw cat c ltac:(by left) Ec).
    destruct (add_category_spec M D DC E cat c s Hi Ec) as (s1 & -> & Hi1 & Hd1); [apply (Hl cat); [by left|done]|].
    cbn [obind]. destruct (IH _ s1 Hi1) as (s2 & -> & Hi2 & Hd2).
    + intros cat' c' Hin. apply Hsw. by right.
    + intros cat' c' Hin Hc' Hl'. destruct Hd1 as (_ & _ & _ & Hd1). apply Hd1. apply (Hl cat'); [by right|done..].
    + exists s2. rewrite app_assoc. split_and!; [done..|by etrans].
  - destruct (IH E s Hi) as (s2 & -> & Hi2 & Hd2).
    + intros cat' c' Hin. apply Hsw. by right.
    + intros cat' c' Hin. apply Hl. by right.
    + exists s2. split_and!; [done| |done]. simpl. unfold wanted at 1. rewrite Ec. by rewrite bool_decide_false by tauto.
Qed.

(** An image is new: it is mapped, but its methods are not discovered. *)
Lemma inv_extend M D DC s img : inv M D DC (cats_of img) s -> img ∉ M -> img ∈ universe ->
  (forall c, Some c ∈ lm_nonlazyClassList P img -> c ∈ RW_LOADED s) -> inv (M ++ [img]) D DC [] s.
Proof.
  intros Hi Hn Hu Hc. destruct Hi. split; try done.
  - rewrite bind_app. simpl. by rewrite !app_nil_r.
  - intros img' c [Hin| ->%list_elem_of_singleton]%elem_of_app; [by apply v_classes0|apply Hc].
  - destruct v_mapped0 as [H1 H2]. split.
    + apply NoDup_app. split_and!; [done| |apply NoDup_singleton]. by intros x Hx ->%list_elem_of_singleton.
    + by intros x [Hx| ->%list_elem_of_singleton]%elem_of_app; [apply H2|].
Qed.

Lemma prepare_spec M D DC s img : inv M D DC [] s -> img ∉ M -> img ∈ universe ->
  (forall cat c, cat ∈ lm_nonlazyCategoryList P img -> lm_categoryClass P cat = Some c -> has_load c ->
     exists j, j ∈ M ++ [img] /\ Some c ∈ lm_nonlazyClassList P j) ->
  exists s', prepare_load_methods P k img s = Ret s' /\ inv (M ++ [img]) D DC [] s' /\ discovers s s'.
Proof using HP.
  intros Hi Hn Hu Hpar. unfold prepare_load_methods.
  destruct (schedule_classes_spec (lm_nonlazyClassList P img) M D DC [] s Hi) as (s1 & -> & Hi1 & Hd1 & Hc1);
    [by apply (w_bound _ _ _ HP)|]. cbn [obind].
  destruct (schedule_categories_spec (lm_nonlazyCategoryList P img) M D DC [] s1 Hi1) as (s2 & -> & Hi2 & Hd2).
  - intros cat c Hin. by eapply (w_swift _ _ _ HP).
  - intros cat c Hin Hcc Hl. destruct (Hpar cat c Hin Hcc Hl) as (j & [Hj| ->%list_elem_of_singleton]%elem_of_app & Hcj).
    + by apply (v_classes _ _ _ _ _ Hi1 j).
    + by apply Hc1.
  - exists s2. split_and!; [done| |by etrans]. apply inv_extend; [done..|]. intros c Hin.
    destruct Hd2 as (_ & _ & _ & Hd2). apply Hd2. by apply Hc1.
Qed.

(** ** Mapping images *)

(** The images of an order, one after the other; [b] tells whether the call comes
    from within a +load. *)
Section Mapping.
Context (D : list load_class) (DC : list load_category) (b : bool) (again : loads -> outcome loads) (Q : loads -> Prop).
Context (HQ : forall s, Q s -> inv (mapped s) D DC [] s /\ loading s = b).
Context (Hskip : forall s img, Q s -> inv (mapped s ++ [img]) D DC [] (set_mapped (mapped s ++ [img]) s) ->
  Q (set_mapped (mapped s ++ [img]) s)).
Context (Hagain : forall s, inv (mapped s) D DC [] s -> loading s = b ->
  exists s', again s = Ret s' /\ Q s' /\ mapped s `prefix_of` mapped s' /\ calls s `prefix_of` calls s').

Lemma set_mapped_inv M E m s : inv M D DC E s -> inv M D DC E (set_mapped m s).
Proof. intros []. by split. Qed.

Lemma load_image_spec img s : Q s -> img ∉ mapped s -> img ∈ universe ->
  (forall cat c, cat ∈ lm_nonlazyCategoryList P img -> lm_categoryClass P cat = Some c -> has_load c ->
     exists j, j ∈ mapped s ++ [img] /\ Some c ∈ lm_nonlazyClassList P j) ->
  exists s', load_images_with P k again img (set_mapped (mapped s ++ [img]) s) = Ret s' /\ Q s' /\
    mapped s ++ [img] `prefix_of` mapped s' /\ calls s `prefix_of` calls s'.
Proof using HP HQ Hskip Hagain.
  intros Hq Hn Hu Hpar. destruct (HQ s Hq) as [Hi Hb]. unfold load_images_with.
  destruct (hasLoadMethods P img) eqn:Eh; cbn [negb].
  - destruct (prepare_spec (mapped s) D DC (set_mapped (mapped s ++ [img]) s) img) as (s1 & -> & Hi1 & Hm & Hl & Hcs & _);
      [by apply set_mapped_inv|done..|]. cbn [obind]. simpl in Hm, Hl, Hcs.
    destruct (Hagain s1) as (s2 & Hrun & Hq2 & Hp & Hcp); [by rewrite Hm|congruence|]. exists s2.
    rewrite Hm in Hp. rewrite Hcs in Hcp. done.
  - eexists. split; [done|]. split_and!; [|done..]. apply Hskip; [done|]. apply set_mapped_inv.
    unfold hasLoadMethods in Eh. apply orb_false_iff in Eh as [E1%negb_false_iff%Nat.eqb_eq%nil_length_inv E2%negb_false_iff%Nat.eqb_eq%nil_length_inv].
    apply inv_extend; [|done|done|].
    + unfold cats_of. rewrite E2. exact Hi.
    + intros c. rewrite E1. by intros ?%not_elem_of_nil.
Qed.

Lemma map_each_spec i l2 : i ∈ universe -> forall l1 s, lm_order P i = l1 ++ l2 -> (forall j, j ∈ l1 -> j ∈ mapped s) -> Q s ->
  exists s', map_each P k again l2 s = Ret s' /\ Q s' /\ (forall j, j ∈ l2 -> j ∈ mapped s') /\
    mapped s `prefix_of` mapped s' /\ calls s `prefix_of` calls s' /\ (s' = s \/ length (mapped s) < length (mapped s')).
Proof using HP HQ Hskip Hagain.
  intros Hu. induction l2 as [|j l2 IH]; intros l1 s Ho Hm Hq.
  { exists s. split_and!; [done|done|by intros j ?%not_elem_of_nil|done|done|by left]. }
  assert (Ho' : lm_order P i = (l1 ++ [j]) ++ l2) by (by rewrite <- app_assoc).
  cbn [map_each]. destruct (decide (j ∈ mapped s)) as [Hj|Hj].
  - destruct (IH (l1 ++ [j]) s Ho') as (s' & Hrun & Hq' & Hin & Hp & Hcp & Hor); [|done|].
    { intros x [Hx| ->%list_elem_of_singleton]%elem_of_app; auto. }
    exists s'. split_and!; [done|done| |done..]. intros x [-> |Hx]%elem_of_cons; [|by apply Hin]. by eapply elem_of_prefix.
  - destruct (load_image_spec j s Hq Hj) as (s1 & -> & Hq1 & Hp1 & Hcp1).
    + apply (w_order _ _ _ HP i); [done|]. rewrite Ho. apply elem_of_app. right. by left.
    + intros cat c Hin Hcc Hl. destruct (w_parents _ _ _ HP i l1 j l2 cat c Hu Ho Hin Hcc Hl) as (j' & Hj' & Hc).
      exists j'. split; [|done]. apply elem_of_app in Hj' as [Hj'|Hj']; apply elem_of_app; [left; by apply Hm|by right].
    + cbn [obind]. destruct (IH (l1 ++ [j]) s1 Ho') as (s' & Hrun & Hq' & Hin & Hp & Hcp & _); [|done|].
      { intros x [Hx|Hx]%elem_of_app; (eapply elem_of_prefix; [|exact Hp1]); apply elem_of_app; [left|right]; auto. }
      exists s'. split_and!; [done|done| | |by etrans|].
      * intros x [-> |Hx]%elem_of_cons; [|by apply Hin]. eapply elem_of_prefix; [|etrans; [exact Hp1|exact Hp]].
        apply elem_of_app. right. by apply list_elem_of_singleton.
      * etrans; [|exact Hp]. etrans; [|exact Hp1]. by apply prefix_app_r.
      * right. apply prefix_length in Hp. apply prefix_length in Hp1. rewrite length_app in Hp1. simpl in Hp1. lia.
Qed.

End Mapping.

(** ** Calls *)

Lemma inv_call_class M c D DC E s : inv M (c :: D) DC E s -> inv M D DC E (log_call (ClassLoad c (getLoadMethod P c)) s).
Proof.
  intros Hi. assert (Ho : class_order D (log_call (ClassLoad c (getLoadMethod P c)) s) = class_order (c :: D) s).
  { unfold class_order. simpl. rewrite class_calls_app. simpl. by rewrite <- app_assoc. }
  destruct Hi. split; rewrite ?Ho; try done.
  - unfold cat_order in *. simpl. rewrite cat_calls_app. simpl. by rewrite app_nil_r.
  - intros cat d Hin Hp Hl. simpl. rewrite class_calls_app. apply elem_of_app. left. by eapply v_ready0.
  - by apply class_first_class.
  - apply Forall_app. split; [done|]. by repeat constructor.
Qed.

Lemma inv_call_category M D cat cls DC E s : inv M D (cat :: DC) E s -> lm_categoryClass P cat = Some cls ->
  inv M D DC E (log_call (CategoryLoad cat cls (_category_getLoadMethod P cat)) s).
Proof.
  intros Hi Hc. assert (Hcc : class_calls (calls s ++ [CategoryLoad cat cls (_category_getLoadMethod P cat)]) = class_calls (calls s)).
  { rewrite class_calls_app. simpl. by rewrite app_nil_r. }
  assert (Ho : class_order D (log_call (CategoryLoad cat cls (_category_getLoadMethod P cat)) s) = class_order D s).
  { unfold class_order. simpl. by rewrite Hcc. }
  destruct Hi. split; rewrite ?Ho; try done.
  - unfold cat_order in *. simpl. rewrite cat_calls_app. simpl. by rewrite <- app_assoc.
  - intros cat' d Hin. apply v_parents0. by right.
  - intros cat' d Hin Hp Hl. simpl. rewrite Hcc. eapply v_ready0; [by right|done..].
  - apply class_first_category; [done|]. intros Hl. eapply v_ready0; [by left|done..].
  - apply Forall_app. split; [done|]. by repeat constructor.
Qed.

(** A category that waits has a class. *)
Lemma waiting_category M D DC s cat : inv M D DC [] s -> cat ∈ DC -> exists cls, lm_categoryClass P cat = Some cls.
Proof.
  intros Hi Hin. assert (Hw : cat ∈ (M ≫= cats_of)).
  { pose proof (v_cats _ _ _ _ _ Hi) as Hc. rewrite app_nil_r in Hc. rewrite <- Hc. unfold cat_order. rewrite !elem_of_app. auto. }
  apply list_elem_of_bind in Hw as (img & Hcat & _). unfold cats_of in Hcat. apply list_elem_of_In, List.filter_In in Hcat as [_ Hw].
  unfold wanted in Hw. apply andb_true_iff in Hw as [Hw%bool_decide_eq_true _]. destruct (lm_categoryClass P cat); [eauto|done].
Qed.

Lemma inv_detach_classes M DC E s : inv M [] DC E s -> inv M (names (loadable_classes s)) DC E (set_loadable_classes [] 0 s).
Proof.
  intros Hi. assert (Ho : class_order (names (loadable_classes s)) (set_loadable_classes [] 0 s) = class_order [] s).
  { unfold class_order. simpl. by rewrite app_nil_r. }
  destruct Hi. split; rewrite ?Ho; try done.
Qed.

Lemma inv_detach_categories M E s : inv M [] [] E s -> loadable_classes s = [] ->
  inv M [] (names (loadable_categories s)) E (set_loadable_categories [] 0 s).
Proof.
  intros Hi He. assert (Ho : class_order [] s = class_calls (calls s)).
  { unfold class_order. rewrite He. simpl. by rewrite app_nil_r. }
  destruct Hi. split; try done.
  - unfold cat_order in *. simpl in *. by rewrite app_nil_r.
  - intros cat c. simpl. rewrite app_nil_r. apply v_parents0.
  - intros cat c Hin. simpl. rewrite <- Ho. by apply v_parents0.
Qed.

Lemma inv_reattach M D DC E s n : inv M D DC E s -> length (loadable_categories s) <= n ->
  inv M D DC E (set_loadable_categories (loadable_categories s) n s).
Proof. intros [] Hn. by split. Qed.

Lemma copy_loadable_spec new cats n : length cats <= n ->
  exists n', copy_loadable new cats n = Ret (cats ++ new, n') /\ length (cats ++ new) <= n'.
Proof.
  revert cats n. induction new as [|e new IH]; intros cats n Hl.
  { exists n. by rewrite app_nil_r. }
  cbn [copy_loadable]. set (n1 := if length cats =? n then _ else _).
  assert (Hn1 : length cats < n1). { unfold n1. destruct (Nat.eqb_spec (length cats) n); lia. }
  rewrite (proj2 (Nat.ltb_lt _ _) Hn1). destruct (IH (cats ++ [e]) n1) as (n' & -> & Hn').
  - rewrite length_app. simpl. lia.
  - exists n'. by rewrite <- app_assoc in *.
Qed.

(** More calls and more images. *)
Definition later (s s' : loads) : Prop := mapped s `prefix_of` mapped s' /\ calls s `prefix_of` calls s'.

#[local] Instance later_preorder : PreOrder later.
Proof. split; [by intros s|]. intros s1 s2 s3 [H1 H2] [I1 I2]. split; by etrans. Qed.

Lemma later_log s c : later s (log_call c s).
Proof. split; [done|]. by apply prefix_app_r. Qed.

(** The same lists, or more images than before. *)
Definition progress (s s' : loads) : Prop :=
  (mapped s' = mapped s /\ loadable_classes s' = loadable_classes s /\ loadable_categories s' = loadable_categories s) \/
  length (mapped s) < length (mapped s').

Lemma progress_trans s1 s2 s3 : progress s1 s2 -> progress s2 s3 -> progress s1 s3.
Proof.
  intros [(H1 & H2 & H3)|H] [(I1 & I2 & I3)|I].
  - left. split_and!; congruence.
  - right. by rewrite <- H1.
  - right. by rewrite I1.
  - right. lia.
Qed.

Section Within.
Context (again : loads -> outcome loads) (Hag : forall s, loading s = true -> again s = Ret s).

Definition running (D : list load_class) (DC : list load_category) (s : loads) : Prop :=
  inv (mapped s) D DC [] s /\ loading s = true.

Lemma perform_all_spec D DC l s : running D DC s -> (forall a, a ∈ l -> exists img, a = Open img /\ img ∈ universe) ->
  exists s', perform_all P k again l s = Ret s' /\ running D DC s' /\ progress s s' /\ later s s'.
Proof using HP Hag.
  revert s. induction l as [|a l IH]; intros s Hr Hl.
  { exists s. split_and!; [done|done|by left|done]. }
  destruct (Hl a ltac:(by left)) as (img & -> & Hu). cbn [perform_all perform].
  destruct (map_each_spec D DC true again (running D DC)) with (i := img) (l2 := lm_order P img) (l1 := @nil Z) (s := s)
    as (s1 & -> & Hr1 & _ & Hmp & Hcp & Hor); [done| | |done|done|by intros j ?%not_elem_of_nil|done|].
  - intros s2 img' [_ H2] H1. by split.
  - intros s2 H1 H2. rewrite (Hag s2 H2). exists s2. by split_and!.
  - cbn [obind]. destruct (IH s1 Hr1) as (s2 & -> & Hr2 & Hp2 & Hcp2); [intros b Hb; apply Hl; by right|].
    exists s2. split_and!; [done|done| |etrans; [by split|done]]. eapply progress_trans; [|done]. destruct Hor as [-> |Hlt]; [by left|by right].
Qed.

Lemma call_classes_spec DC D s : running D DC s ->
  exists s', call_classes P k again (map class_entry D) s = Ret s' /\ running [] DC s' /\ progress s s' /\
    later s s'.
Proof using HP Hag.
  revert s. induction D as [|c D IH]; intros s [Hi Hl].
  { exists s. split_and!; [done|done|by left|done]. }
  cbn [map call_classes class_entry]. unfold call_load.
  destruct (perform_all_spec D DC (lm_body P (getLoadMethod P c)) (log_call (ClassLoad c (getLoadMethod P c)) s))
    as (s1 & -> & Hr1 & Hp1 & Hc1).
  - split; [|done]. by apply inv_call_class.
  - intros a Ha. by eapply (w_body _ _ _ HP).
  - cbn [obind]. destruct (IH s1 Hr1) as (s2 & -> & Hr2 & Hp2 & Hc2). exists s2. split_and!; [done|done| |].
    + by eapply progress_trans.
    + etrans; [apply later_log|]. by etrans.
Qed.

Lemma call_categories_spec D DC s : running D DC s ->
  exists l s', call_categories P k again (map cat_entry DC) s = Ret (l, s') /\ Forall (fun e => e.1 = None) l /\
    running D [] s' /\ progress s s' /\ later s s'.
Proof using HP Hag.
  revert s. induction DC as [|cat DC IH]; intros s [Hi Hl].
  { exists [], s. split_and!; [done|done|done|by left|done]. }
  cbn [map call_categories cat_entry]. destruct (waiting_category _ _ _ _ cat Hi ltac:(by left)) as [cls Hcls].
  rewrite Hcls. cbn [of_option obind]. unfold call_load.
  destruct (perform_all_spec D DC (lm_body P (_category_getLoadMethod P cat)) (log_call (CategoryLoad cat cls (_category_getLoadMethod P cat)) s))
    as (s1 & -> & Hr1 & Hp1 & Hc1).
  - split; [|done]. by apply inv_call_category.
  - intros a Ha. by eapply (w_body _ _ _ HP).
  - cbn [obind]. destruct (IH s1 Hr1) as (l & s2 & -> & Hl2 & Hr2 & Hp2 & Hc2). cbn [obind]. eexists _, s2.
    split_and!; [done|by constructor|done| |].
    + by eapply progress_trans.
    + etrans; [apply later_log|]. by etrans.
Qed.

(** One round over the classes, and the category calls when no class waits. *)
Lemma call_class_loads_spec s : running [] [] s ->
  exists s', call_class_loads P k again s = Ret s' /\ running [] [] s' /\ later s s' /\
    (mapped s' = mapped s /\ loadable_classes s' = [] \/ length (mapped s) < length (mapped s')).
Proof using HP Hag.
  intros [Hi Hl]. unfold call_class_loads. rewrite (v_centries _ _ _ _ _ Hi).
  destruct (call_classes_spec [] (names (loadable_classes s)) (set_loadable_classes [] 0 s)) as (s1 & Hrun & Hr & Hp & Hc).
  { split; [|done]. by apply inv_detach_classes. }
  exists s1. split_and!; [done..|]. destruct Hp as [(H1 & H2 & _)|H]; [by left|by right].
Qed.

Lemma call_category_loads_spec s : running [] [] s -> loadable_classes s = [] ->
  exists more s', call_category_loads P k again s = Ret (more, s') /\ running [] [] s' /\ later s s' /\
    (more = false -> loadable_categories s' = []) /\
    (loadable_classes s' = [] /\ more = false \/ length (mapped s) < length (mapped s')).
Proof using HP Hag.
  intros [Hi Hl] He. unfold call_category_loads. rewrite (v_kentries _ _ _ _ _ Hi).
  destruct (call_categories_spec [] (names (loadable_categories s)) (set_loadable_categories [] 0 s)) as (l & s1 & -> & Hnil & [Hi1 Hl1] & Hp & Hlt).
  { split; [|done]. by apply inv_detach_categories. }
  cbn [obind]. assert (Hf : List.filter (fun e : loadable => bool_decide (e.1 <> None)) l = []).
  { clear -Hnil. induction Hnil as [|e l He _ IH]; [done|]. simpl. rewrite bool_decide_false by tauto. done. }
  rewrite Hf. destruct (copy_loadable_spec (loadable_categories s1) [] (loadable_categories_allocated s)) as (n' & -> & Hn'); [simpl; lia|].
  cbn [obind app] in *. eexists _, _. split; [done|]. split_and!.
  - destruct (loadable_categories s1) as [|e cats] eqn:Ec.
    + split; [|done]. rewrite <- Ec. pose proof (inv_reattach _ _ _ _ s1 0 Hi1) as Hr. rewrite Ec in *. apply Hr. simpl. lia.
    + split; [|done]. rewrite <- Ec in *. by apply inv_reattach.
  - by destruct (loadable_categories s1).
  - by destruct (loadable_categories s1).
  - destruct Hp as [(H1 & H2 & H3)|H].
    + left. simpl in H2, H3. rewrite H3. simpl. by rewrite H2, He.
    + right. by destruct (loadable_categories s1).
Qed.

(** The number of images that are not mapped is enough for the loops. *)
Definition unmapped (s : loads) : nat := length universe - length (mapped s).

Lemma mapped_bound D DC s : running D DC s -> length (mapped s) <= length universe.
Proof. intros [Hi _]. destruct (v_mapped _ _ _ _ _ Hi) as [Hnd Hsub]. apply submseteq_length. by apply NoDup_submseteq. Qed.

Lemma class_rounds_spec n s : running [] [] s -> unmapped s + 2 <= n ->
  exists s', class_rounds P k again n s = Ret s' /\ running [] [] s' /\ later s s' /\ loadable_classes s' = [].
Proof using HP Hag.
  revert s. induction n as [|n IH]; intros s Hr Hn; [lia|]. cbn [class_rounds].
  destruct (Nat.eqb_spec (length (loadable_classes s)) 0) as [He|He].
  { exists s. split_and!; [done..|]. by apply nil_length_inv. }
  destruct (call_class_loads_spec s Hr) as (s1 & -> & Hr1 & Hl1 & Hor). cbn [obind].
  destruct Hor as [[Hm Hnil]|Hlt].
  - destruct n as [|n]; [lia|]. cbn [class_rounds]. rewrite Hnil. simpl. exists s1. by split_and!.
  - destruct (IH s1 Hr1) as (s2 & -> & Hr2 & Hl2 & He2).
    + pose proof (mapped_bound _ _ _ Hr1). unfold unmapped in *. lia.
    + exists s2. split_and!; [done|done|by etrans|done].
Qed.

Lemma load_rounds_spec n s : running [] [] s -> unmapped s + 2 <= n ->
  exists s', load_rounds P k again n s = Ret s' /\ running [] [] s' /\ later s s' /\ loadable_classes s' = [] /\
    loadable_categories s' = [].
Proof using HP Hag.
  revert s. induction n as [|n IH]; intros s Hr Hn; [lia|]. cbn [load_rounds].
  destruct (class_rounds_spec (S n) s Hr Hn) as (s1 & -> & Hr1 & Hl1 & He1). cbn [obind].
  destruct (call_category_loads_spec s1 Hr1 He1) as (more & s2 & -> & Hr2 & Hl2 & Hcat & Hor). cbn [obind].
  assert (Hm1 : length (mapped s) <= length (mapped s1)) by (apply prefix_length; apply Hl1).
  destruct Hor as [[H1 ->]|Hlt].
  - rewrite H1. simpl. exists s2. split_and!; [done|done|by etrans|done|auto].
  - destruct (negb (length (loadable_classes s2) =? 0) || more) eqn:Eb.
    + destruct (IH s2 Hr2) as (s3 & -> & Hr3 & Hl3 & He3).
      * pose proof (mapped_bound _ _ _ Hr2). unfold unmapped in *. lia.
      * exists s3. split_and!; [done|done|etrans; [exact Hl1|etrans; [exact Hl2|exact Hl3]]|apply He3..].
    + apply orb_false_iff in Eb as [E1%negb_false_iff%Nat.eqb_eq%nil_length_inv ->].
      exists s2. split_and!; [done|done|by etrans|done|auto].
Qed.

End Within.

(** ** Opening an image *)

(** Nothing waits. *)
Definition settled (s : loads) : Prop :=
  inv (mapped s) [] [] [] s /\ loading s = false /\ loadable_classes s = [] /\ loadable_categories s = [].

Lemma set_loading_inv M D DC E b s : inv M D DC E s -> inv M D DC E (set_loading b s).
Proof. intros []. by split. Qed.

(** A call from within a +load does nothing; the outermost call works off the lists. *)
Lemma call_within d n s : 1 <= d -> loading s = true -> call_load_methods P d k n s = Ret s.
Proof. intros H1 Hl. destruct d; [lia|]. simpl. by rewrite Hl. Qed.

Context (d n : nat) (Hd : 2 <= d) (Hn : length universe + 2 <= n).

Lemma call_load_methods_spec s : inv (mapped s) [] [] [] s -> loading s = false ->
  exists s', call_load_methods P d k n s = Ret s' /\ settled s' /\ later s s'.
Proof using HP Hd Hn.
  intros Hi Hl. assert (Hd' : exists d', d = S d' /\ 1 <= d') by (exists (d - 1); lia). destruct Hd' as (d' & -> & Hle).
  simpl. rewrite Hl.
  destruct (load_rounds_spec (call_load_methods P d' k n)) with (n := n) (s := set_loading true s)
    as (s1 & -> & [Hi1 _] & Hlt & H1 & H2).
  - intros s0. by apply call_within.
  - split; [|done]. by apply set_loading_inv.
  - unfold unmapped. lia.
  - cbn [obind]. eexists. split; [done|]. split; [|done]. split_and!; [by apply set_loading_inv|done..].
Qed.

Lemma dlopen_spec i s : settled s -> i ∈ universe ->
  exists s', dlopen P d k n i s = Ret s' /\ settled s' /\ (forall j, j ∈ lm_order P i -> j ∈ mapped s') /\ later s s'.
Proof using HP Hd Hn.
  intros Hs Hu. unfold dlopen.
  destruct (map_each_spec [] [] false (call_load_methods P d k n) settled) with (i := i) (l2 := lm_order P i) (l1 := @nil Z) (s := s)
    as (s1 & Hrun & Hs1 & Hin & Hmp & Hcp & _); [| | |done|done|by intros j ?%not_elem_of_nil|done|].
  - intros s1 (H1 & H2 & _). done.
  - intros s1 img (H1 & H2 & H3 & H4) H5. done.
  - intros s1 H1 H2. destruct (call_load_methods_spec s1 H1 H2) as (s2 & Hrun & Hs2 & H3 & H4). by exists s2.
  - by exists s1.
Qed.

Lemma settled_start : settled no_loads.
Proof.
  split_and!; [|done..]. split; try done.
  - constructor.
  - intros c. split; [by intros ?%not_elem_of_nil|]. by intros [?%not_elem_of_empty _].
  - by intros [] c l2 p ?.
  - intros cat c Hc. by apply not_elem_of_nil in Hc.
  - by intros cat c ?%not_elem_of_nil.
  - by intros [] cat cls m l2.
  - intros img c Himg. by apply not_elem_of_nil in Himg.
  - split; [constructor|]. intros img Himg. by apply not_elem_of_nil in Himg.
Qed.

(** Images that the program opens one after the other. *)
Fixpoint dlopen_all (imgs : list load_image) (s : loads) : outcome loads :=
  match imgs with [] => Ret s | i :: imgs' => let! s := dlopen P d k n i s in dlopen_all imgs' s end.

Lemma dlopen_all_spec imgs s : settled s -> (forall i, i ∈ imgs -> i ∈ universe) ->
  exists s', dlopen_all imgs s = Ret s' /\ settled s' /\ later s s' /\
    forall i j, i ∈ imgs -> j ∈ lm_order P i -> j ∈ mapped s'.
Proof using HP Hd Hn.
  revert s. induction imgs as [|i imgs IH]; intros s Hs Hu.
  { exists s. split_and!; [done|done|done|]. by intros i j ?%not_elem_of_nil. }
  cbn [dlopen_all]. destruct (dlopen_spec i s Hs) as (s1 & -> & Hs1 & Hin & Hl); [apply Hu; by left|]. cbn [obind].
  destruct (IH s1 Hs1) as (s2 & -> & Hs2 & Hl2 & Hin2); [intros j Hj; apply Hu; by right|].
  exists s2. split_and!; [done|done|by etrans|]. intros i' j [-> |Hi]%elem_of_cons Hj; [|by eapply Hin2].
  eapply elem_of_prefix; [by apply Hin|apply Hl2].
Qed.

(** C12. Whatever the +load methods map in turn, opening images returns; then no
    +load waits, every class of the mapped images that has one, with its
    superclasses, was sent it exactly once, and every category exactly once; a
    class was sent it after its superclasses, and a category after its class. *)
Theorem load_methods_called imgs : (forall i, i ∈ imgs -> i ∈ universe) ->
  exists s, dlopen_all imgs no_loads = Ret s /\
    loading s = false /\ loadable_classes s = [] /\ loadable_categories s = [] /\
    (forall i j, i ∈ imgs -> j ∈ lm_order P i -> j ∈ mapped s) /\
    (forall img c, img ∈ mapped s -> Some c ∈ lm_nonlazyClassList P img -> c ∈ RW_LOADED s) /\
    NoDup (class_calls (calls s)) /\ (forall c, c ∈ class_calls (calls s) <-> c ∈ RW_LOADED s /\ has_load c) /\
    NoDup (cat_calls (calls s)) /\ cat_calls (calls s) = (mapped s ≫= cats_of) /\
    superclass_first (class_calls (calls s)) /\ class_first (calls s) /\ Forall call_ok (calls s).
Proof using HP Hd Hn.
  intros Hu. destruct (dlopen_all_spec imgs no_loads settled_start Hu) as (s & Hrun & (Hi & Hl & Hc & Hk) & _ & Hin).
  assert (Ho : class_order [] s = class_calls (calls s)).
  { unfold class_order. rewrite Hc. simpl. by rewrite app_nil_r. }
  assert (Hw : cat_calls (calls s) = (mapped s ≫= cats_of)).
  { pose proof (v_cats _ _ _ _ _ Hi) as Hv. unfold cat_order in Hv. rewrite Hk in Hv. simpl in Hv. by rewrite !app_nil_r in Hv. }
  destruct Hi. rewrite Ho in *. exists s. split_and!; try done. rewrite Hw. destruct v_mapped0 as [Hnd _]. apply NoDup_bind; [| |done].
  - intros i j cat _ _ H1 H2. unfold cats_of in *.
    apply list_elem_of_In, List.filter_In in H1 as [H1%list_elem_of_In _], H2 as [H2%list_elem_of_In _]. by eapply (w_disjoint _ _ _ HP).
  - intros i _. unfold cats_of. apply NoDup_ListNoDup, List.NoDup_filter, NoDup_ListNoDup. apply (w_cats _ _ _ HP).
Qed.

End Order.

(** ** Two images where a +load maps the second one

    And an image that is closed while its class waits. *)

Local Open Scope Z_scope.

Definition load_method (imp : string) : list _objc_method := [mk_method "load" "v16@0:8" imp].

(** Image 1 has the classes 10 and 11 < 10 and the category 20 of 10; image 2 the
    class 12 < 11 and the category 21 of 12.  The +load of 10 opens image 2. *)
Definition two_images : load_images_data :=
  mk_load_images_data
    (fun c => if c =? 11 then Some 10 else if c =? 12 then Some 11 else None)
    (fun c => if c =? 10 then load_method "+[A load]" else if c =? 11 then load_method "+[B load]"
              else if c =? 12 then load_method "+[C load]" else [])
    (fun cat => if cat =? 20 then Some 10 else if cat =? 21 then Some 12 else None)
    (fun cat => if cat =? 20 then load_method "+[A(K) load]" else if cat =? 21 then load_method "+[C(L) load]" else [])
    (fun _ => false)
    (fun i => if i =? 1 then [10; 11] else if i =? 2 then [12] else [])
    (fun i => if i =? 1 then [Some 11; Some 10] else if i =? 2 then [Some 12] else [])
    (fun i => if i =? 1 then [20] else if i =? 2 then [21] else [])
    (fun i => if i =? 1 then [20] else if i =? 2 then [21] else [])
    (fun m => if String.eqb m "+[A load]" then [Open 2] else [])
    (fun i => [i]).

Definition two_depth (c : Z) : nat := if c =? 11 then 1 else if c =? 12 then 2 else 0.

Lemma two_images_ok : images_ok two_images two_depth 3 [1; 2].
Proof.
  assert (Hone : forall i (x : Z), x ∈ lm_nonlazyCategoryList two_images i -> i = 1 /\ x = 20 \/ i = 2 /\ x = 21).
  { intros i x. simpl. destruct (Z.eqb_spec i 1), (Z.eqb_spec i 2); intros Hx; try (by apply not_elem_of_nil in Hx);
      apply list_elem_of_singleton in Hx; auto. }
  split.
  - intros c p. simpl. unfold two_depth. destruct (Z.eqb_spec c 11) as [->|]; [intros [= <-]; simpl; lia|].
    destruct (Z.eqb_spec c 12) as [->|]; [intros [= <-]; simpl; lia|done].
  - intros i c _. unfold two_depth. repeat (destruct (_ =? _)); lia.
  - done.
  - intros i. simpl. repeat (destruct (_ =? _)); [apply NoDup_singleton..|constructor].
  - intros i j x [[-> ->]|[-> ->]]%Hone [[-> H]|[-> H]]%Hone; done.
  - intros m a. simpl. destruct (String.eqb m _); [|by intros ?%not_elem_of_nil]. intros ->%list_elem_of_singleton.
    exists 2. split; [done|]. right. by left.
  - intros i j Hi ->%list_elem_of_singleton. done.
  - intros i l1 j l2 cat c _ Ho Hin Hc _. assert (l1 = []) as ->.
    { destruct l1 as [|x [|y l1]]; [done|discriminate Ho..]. }
    exists j. split; [by left|]. destruct (Hone j cat Hin) as [[-> ->]|[-> ->]]; injection Hc as <-; simpl; [right; left|left].
Qed.

(** The second image is mapped in the middle of the first: its class comes after
    the waiting superclass, its category after the waiting category. *)
Lemma two_images_calls :
  match dlopen two_images 2 3 4 1 no_loads with Ret s => calls s | _ => [] end =
  [ClassLoad 10 "+[A load]"; ClassLoad 11 "+[B load]"; ClassLoad 12 "+[C load]"; CategoryLoad 20 10 "+[A(K) load]";
   CategoryLoad 21 12 "+[C(L) load]"].
Proof. vm_compute. reflexivity. Qed.

Lemma load_methods_called_witness : exists s, dlopen_all two_images 3 2 4 [1; 1; 2] no_loads = Ret s /\
  loadable_classes s = [] /\ NoDup (class_calls (calls s)) /\ superclass_first two_images (class_calls (calls s)) /\
  class_first two_images (calls s) /\ cat_calls (calls s) = (mapped s ≫= cats_of two_images).
Proof.
  destruct (load_methods_called two_images two_depth 3 [1; 2] two_images_ok 2 4 ltac:(lia) ltac:(simpl; lia) [1; 1; 2])
    as (s & Hrun & _ & H1 & _ & _ & _ & H2 & _ & _ & H3 & H4 & H5 & _).
  - intros i. rewrite !elem_of_cons. tauto.
  - exists s. by split_and!.
Defined.

(** ** Closing an image whose class waits *)

(** The +load of 10 opens the images 2 and 3, that of class 21 in image 2 closes
    image 3. *)
Definition closing_images : load_images_data :=
  mk_load_images_data
    (fun _ => None)
    (fun c => if c =? 10 then load_method "+[A load]" else if c =? 21 then load_method "+[B load]"
              else if c =? 31 then load_method "+[C load]" else [])
    (fun _ => None) (fun _ => []) (fun _ => false)
    (fun i => if i =? 1 then [10] else if i =? 2 then [21] else if i =? 3 then [31] else [])
    (fun i => if i =? 1 then [Some 10] else if i =? 2 then [Some 21] else if i =? 3 then [Some 31] else [])
    (fun _ => []) (fun _ => [])
    (fun m => if String.eqb m "+[A load]" then [Open 2; Open 3] else if String.eqb m "+[B load]" then [Close 3] else [])
    (fun i => [i]).

(** [remove_class_from_loadable_list] does not look into the list that is being
    gone through: the +load of a class is called after its image was unmapped. *)
Lemma unmapped_class_called : exists s, dlopen closing_images 2 1 5 1 no_loads = Ret s /\ (3 ∉ mapped s) /\
  calls s = [ClassLoad 10 "+[A load]"; ClassLoad 21 "+[B load]"; ClassLoad 31 "+[C load]"].
Proof.
  exists (match dlopen closing_images 2 1 5 1 no_loads with Ret s => s | _ => no_loads end).
  split_and!; [vm_compute; reflexivity| |vm_compute; reflexivity]. apply (bool_decide_eq_false_1 _). vm_compute. reflexivity.
Qed.
